(* ===== verification/_CoqProject ===== *)
-Q . S2P
Prelude.v
JsString.v
JsNumber.v
LibDecimal.v
DecimalText.v
DecimalPow.v
Solidity.v
SortedTroves.v
SortedTrovesFacts.v
Ledger.v
ChainState.v
ZUSDToken.v
ActivePool.v
DefaultPool.v
CollSurplusPool.v
Outside.v
FeeDistributor.v
ZEROStaking.v
Governance.v
TroveManager.v
BorrowerOperations.v
StabilityPool.v
Liquidations.v
Redemptions.v
Transactions.v
Invariant.v
InvariantFacts.v
TroveSteps.v
BorrowerSteps.v
BorrowerFacts.v
PoolSteps.v
LiquidationFacts.v
LiquidationSettle.v
RedemptionFacts.v
StabilityFacts.v
StakingFacts.v
TransactionFacts.v
OperationFacts.v
HintHelpers.v
CallWalk.v
OperationWalk.v
PoolBacking.v
StakingBacking.v
Setters.v
Deployment.v
DeploymentFacts.v
ProxyScripts.v
ScriptFacts.v
LibConstants.v
LibDifference.v
LibTrove.v
TroveFacts.v
Liqbot.v
Fuzzer.v
LibFees.v
LibDeposit.v
LibStore.v
StoreFacts.v
LibReadable.v
EthersConnection.v
EthersReadable.v
SdkAgreement.v
SdkPredictions.v
BlockPolledStore.v
EthersTx.v
EthersPopulatable.v
PopulatableFacts.v
EthersLiquity.v
EthersObservable.v
FrontValidation.v
FrontManagers.v
FrontFacts.v
FrontForms.v
FormFacts.v
FrontTransactions.v
LibReact.v
Providers.v
WebSockets.v
LedgerTransport.v
HardwareWallets.v
