(* ===== verification/Prelude.v ===== *)
(** * Verification of the Zero protocol, its SDK and its web application

    Zero is a borrowing protocol: users lock RBTC (ether below) in a Trove and borrow
    ZUSD; deposits of ZUSD in the Stability Pool absorb the debt of Troves that are
    liquidated, and anyone may redeem ZUSD for collateral at face value.  The program
    under [packages/] has these parts:

    - [contracts]: the protocol.  BorrowerOperations, TroveManager, StabilityPool and
      ZEROStaking are called by users; they keep Troves, the sorted list, the pools, the
      token and the stakes that share the fees; scripts combine calls for users who act
      through a proxy;
    - [lib-base]: decimal arithmetic, Troves and their changes, fees, deposits and
      stakes, the [ReadableLiquity] interface with a read cache, and
      [LiquityStore], the observable state all clients share;
    - [lib-ethers]: the implementation over ethers and the contracts: connections,
      reads, the store polled at every block, transactions and their hints,
      event observation and log parsing, and the script that deploys the contracts;
    - [providers]: ethers providers that batch calls and listen on a websocket;
    - [lib-react], [dev-frontend]: the hooks on the store, the validation of what
      the user enters, the forms, editors and views of the web application,
      the monitor of the transactions it sends and its hardware wallets;
    - [hw-transport-webusb]: the USB transport of one of these wallets;
    - [fuzzer], [examples]: random tests with their checks, and a bot that liquidates.

    ** Files of the contracts

    - Solidity (SafeMath.sol, LiquityMath.sol: words with wrap-around, [_decPow];
      calls on storage: [call], [let$]);
      Ledger (sums over mappings); SortedTroves (SortedTroves.sol) with
      SortedTrovesFacts.
    - ChainState: the storage of all contracts as the record [System]
      ([manager], [active_pool], [default_pool], [sorted], [zusd], [surplus],
      [stability], ...) and LiquityBase.sol.  ZUSDToken, ActivePool, DefaultPool,
      CollSurplusPool, FeeDistributor: the contracts of these names; ZEROStaking also
      holds ZEROToken.sol.  Governance: what the owners may change while the protocol runs (Ownable.sol,
      LiquityBaseParams.sol) and the funding of CommunityIssuance.sol.  Outside: PriceFeed.sol
      and code that is not in the repository.
    - TroveManager (TroveManager.sol, TroveManagerBase.sol), BorrowerOperations,
      StabilityPool (with CommunityIssuance.sol), Liquidations (the liquidating half
      of TroveManager.sol), Redemptions (TroveManagerRedeemOps.sol), HintHelpers with its
      theorems.
    - Transactions: [operation] has a constructor for every external function a user
      or an owner can call, [execute] runs one, [history] a sequence of them from [genesis].
    - ProxyScripts (Proxy/*Script.sol) with ScriptFacts: what the code of a proxy calls.
    - Setters: the setters of addresses, the initializers and UpgradableProxy.sol, on
      accounts that store named variables.  Deployment (lib-ethers/utils/deploy.ts) calls
      them on a network of such accounts; DeploymentFacts.
    - Invariant: [books dc dd ds s], the invariant of [s] with slacks for collateral, debt
      and supply, so that it can be followed through the middle of an operation; [inv] is
      [books 0 0 0].  InvariantFacts, TroveSteps, BorrowerSteps and PoolSteps
      follow it through single calls; BorrowerFacts, LiquidationFacts,
      LiquidationSettle, RedemptionFacts and StabilityFacts through whole operations;
      TransactionFacts through histories.  OperationFacts: what each operation does.
      PoolBacking: the tokens behind the deposits.  CallWalk and OperationWalk carry a
      property through every operation from what single calls do to it; StakingFacts and
      StakingBacking use them for what the staking contract owes.

    ** Files of the SDK and the application

    - Prelude: results of code that may throw ([result], [let!]), traversal,
      results up to the error ([equiv]), the rewrite database [zero], integer
      division.  JsString, JsNumber: strings as characters,
      digits, IEEE-754 numbers with parsing, shortest printing, square root and rounding.
    - LibDecimal (Decimal.ts: [Decimal]), DecimalText and DecimalPow (its
      theorems), LibDifference (Decimal.ts: [Difference], [Percent]),
      LibConstants (constants.ts).
    - LibTrove (Trove.ts) with TroveFacts; LibFees (Fees.ts); LibDeposit
      (StabilityDeposit.ts, ZEROStake.ts).
    - LibStore (LiquityStore.ts) with StoreFacts: a store is a record of its
      fields and of the host state it acts on (console, timers, listeners);
      state variables are functions of their keys and carry object identity.
    - LibReadable (ReadableLiquity.ts, _CachedReadableLiquity.ts): the interface
      as a record of operations, caches with the class [SoundCache].
    - EthersConnection (EthersLiquityConnection.ts, _Multicall.ts, parts of
      contracts.ts), EthersReadable (ReadableEthersLiquity.ts and the paging
      of MultiTroveGetter.sol), BlockPolledStore (BlockPolledLiquityStore.ts and
      the cache of ReadableEthersLiquity.ts).
    - EthersTx (contracts.ts, receipts and parsers of
      PopulatableEthersLiquity.ts), EthersPopulatable (the operations of
      PopulatableEthersLiquity.ts) with PopulatableFacts; EthersLiquity
      (SendableEthersLiquity.ts, EthersLiquity.ts); EthersObservable
      (ObservableEthersLiquity.ts, parseLogs.ts).
    - SdkAgreement and SdkPredictions compare the SDK with the contracts.
    - FrontValidation (validateTroveChange.tsx), FrontManagers (the reducers and
      view state machines of TroveManager, StabilityDepositManager,
      StakingManager, their view providers, the wallet connector) with
      FrontFacts; FrontForms (opening, adjusting, redeeming, risky Troves) with
      FormFacts; FrontTransactions (Transaction.tsx); LibReact (the hooks);
      HardwareWallets (ledger-module.ts, trezor-module.ts).
    - LedgerTransport (TransportWebUSB.ts, webusb.ts); Liqbot (liqbot.js); Fuzzer
      (GasHistogram.ts and the checks of utils.ts of the fuzzer).
    - Providers (BatchedProvider.ts) and WebSockets (WebSocketAugmentedProvider.ts,
      WebSocketProvider.ts), with their theorems.

    Names follow the source; where two classes share one, the module or a prefix
    tells them apart.  A class is a record, its methods take [this] first.

    ** How the code is rendered

    A contract function that changes storage is a [call System A], a function from the storage to a
    result and a new storage; [sender] is [msg.sender].  A failed [require], an overflow
    that SafeMath catches or a refused payment is [Throw], which keeps no state.  Paying an account runs its
    code: [recv] is that code, and in a history it is any program of calls to the
    protocol, nested to any depth.  Events are not part of the storage.

    A [BigNumber] is the integer it denotes, a [Decimal] holds a natural number of
    units of 10^-18.  [undefined] is [None]; objects with optional keys arrive as
    their entries.  A [throw] or a rejected promise is [Throw], [await] is the
    bind.  [Promise.all] runs its parts in order; where another order could
    report another error, statements use equality up to the error.  Timers,
    fetches in flight and listener calls are explicit: the polled store,
    the two providers and the transaction monitor are transition systems over events,
    the debouncer a function of timed events, the Trove view a reachability relation.

    For the SDK, contracts, ethers (encoding, gas estimation, log decoding, sending), the
    locale, [Math.random] and wallet objects are arguments of the definitions.
    The hypotheses put on them are named in the statements: that a contract
    call answers, that the list of Troves is the one the paging contract walks
    ([represents]), that reads at one block agree with the fetch of that block,
    that the multicall contract makes its calls itself and returns what they
    return ([MulticallChain]).
    For the contracts, the price oracle, the fee collector and the Mynt contracts are
    the record [World].  The collector and Mynt answer with any sequence of [action]s:
    calls of the token in the name of accounts that are no contract of the protocol,
    payments, and writes to storage of their own; they do not call the protocol
    again.  A permit is never signed in the name of a contract, which has no key.
    A deployment ([deployed]) has distinct addresses and less than 2^128 units of ether.
    The deployment script takes the addresses of new contracts, the time and the answers of
    the oracles, the Ledger transport the browser's device and the framing of messages.

    ** What the theorems show

    - Solvency: after any history of operations by any accounts, reentrant ones
      included, the supply of ZUSD is the debt of the system, the Troves add up
      to the pools, the default pool covers every reward of ether, every pool holds the
      ether it records, the Stability Pool holds the tokens of its deposits, and the
      sorted list and the array of owners name exactly the active Troves.
    - Operations: what opening, adjusting and closing a Trove, liquidations, redemptions,
      deposits, withdrawals and moving a gain to a Trove change, and that they
      change nothing else; the sorted list is kept whatever hints are given.  Two theorems
      exhibit histories the code does not mean to allow: a Trove that rewards of debt
      lock, and a deposit that compounds to more than the pool.
    - Stakers: after any history the staking contract holds what its views promise to all
      stakers; and staking is free, since the token moves nothing.
    - Hints: redeeming the amount that [getRedemptionHints] returns, with its hints, redeems
      all of it; [getApproxHint] names the closest of the Troves it looked at.
    - Scripts: a script leaves the storage that operations of the proxy leave, so the
      invariants survive it; the recycled gains are added to the Trove without lowering its ratio.
    - Deployment: the script succeeds on a fresh network, wires every variable to the contract it is
      named after, hands all contracts over, and leaves a state histories may start from, so that
      the invariants hold of every history of a deployed system;
      with a foreign ZUSD token the handover stops half way.
    - Agreement: powers, pending rewards and lists computed by the SDK are those of
      the contracts, and the Troves it predicts for opening and adjusting at the rate the
      contract charges are the ones BorrowerOperations stores.  The rate the SDK quotes is that rate
      when the parameters of the contracts are the constants of the SDK; with those of a new
      deployment it is higher.
    - Text and arithmetic: exactly the decimal representations are parsed, to the
      value they denote truncated to 18 digits; printing round-trips and rounds to
      nearest at a precision; [pow] stays within a stated error of the real power;
      hexadecimal round-trips; differences and small percentages print what they are.
    - Troves: the change found between two Troves leads from one to the other, up
      to one unit of fee rounding; when it cannot be computed; normalisation accepts
      exactly the well-formed objects; redistribution and the ratio checks are exact.
      Fee rates stay in their bounds.
    - Store: an update refines the abstract overlay of the state, listeners hear
      exactly the keys whose values changed, an invariant holds of all
      operations; under any interleaving of starts, blocks, completions, timers and stops the
      polled store holds the snapshot of one block, and reads served from its
      cache agree with the chain's.
    - Sent transactions: the hint search makes the intended trials and settles on a best
      hint; the arguments of opening and adjusting calls denote the normalised
      amounts and the hints belong to the resulting Trove; the redemption protocol,
      with the rate limit of the caller or the default one;
      what sending and waiting return.  Debouncing loses no event, log parsing no log.
    - Providers: a batched call resolves to the answer for its own target and data at its own
      block, though possibly not for its own sender, and every call is settled once; block events have one source across websocket
      switchovers; a retried request ends with its first definitive attempt.
    - Application: a Trove or deposit change is offered exactly when the rules
      allow it; a store update moves an edit with the Trove; the view fits the
      status; the form that opens a Trove sends what it shows; a transaction that waits for
      its confirmation is watched.  Theorems state what the code gets wrong: a borrowing populated
      as a repayment, a reducer that throws, a stop that does not stop, a closed
      websocket that reconnects, a fee shown too low, a lost receipt error.
    - Tools: the search for accounts of a wallet ends and misses none before the gap, the [v] of a
      signature is recovered but for one residue of the chain id; the transport answers an exchange and
      tells of a disconnection once; the bot picks the largest of the Troves below the minimum
      ratio and sends nothing that costs more than it pays; the histogram counts every success;
      the checks of the fuzzer accept what they are meant to accept.

    ** Fuel and bounds

    Recursion that is not structural carries fuel that is proved or seen to be
    enough: [fromString_fuel] the length of the text (the recursive call is on a
    proper prefix), [pow_loop] the binary length of the exponent, [trials_loop] the
    number of trials, [shortest] the 17 digits that determine a double,
    [populateRedemption] two levels, since a retry is never truncated,
    [_retrySeenBlock] any number above that of the failed attempts, [scan] five more than the
    accounts up to the last one in use, [read_response] the number of packets.  Loops of the
    contracts over Troves take the gas they may use ([walk_gas]) and revert without it, as on the chain;
    the walks of the list are proved to end within its length.  The depth of
    nested calls in a history is any number.  Integers of
    JavaScript numbers stay below 2^53 where they are read from contracts
    ([toNumber] throws otherwise); times are milliseconds.

    ** Not modelled

    Calls of the setters of addresses and of [setImplementation] after the deployment: histories start from
    wired contracts and keep the wiring.  The owner of a contract may exchange any of its neighbours
    with such a call, and nothing is known of the code that comes in.
    Balances of ZERO, which stay zero because transfers, minting and
    burning return at once in this version; events and gas costs; the contracts for tests.  Markup and
    React itself, and a store replaced while components use it; the receipt polling of [waitForTransaction];
    the wallet selection dialogs; transactions and typed data of the hardware wallets, which ethers and
    ethereumjs assemble.  The interfaces of lib-base beyond [ReadableLiquity], which are signatures.
    The driver of the fuzzer, which makes random calls and prints; hardhat
    configurations, tasks and the older JavaScript and Python helpers for deployment and tests, which are I/O. *)

From Stdlib Require Export ZArith Lia Bool Ascii.
From stdpp Require Export base option list gmap strings.

(** ** Exceptions

    A JavaScript [throw] is a value of [js_error]; fallible code returns
    [result].  A rejected promise carries the same values, so [await] is the
    bind of the same monad. *)

Inductive js_error : Type :=
| Error (message : string)
| AssertionError
| TypeError
| RangeError
| NumericFault
| UnsupportedNetworkError (chainId : Z)
| Rejected (reason : string).

#[export] Instance js_error_eq_dec : EqDecision js_error.
Proof. solve_decision. Defined.

Inductive result (A : Type) : Type :=
| Ok (value : A)
| Throw (err : js_error).
Arguments Ok {A} value.
Arguments Throw {A} err.

#[export] Instance result_eq_dec `{EqDecision A} : EqDecision (result A).
Proof. solve_decision. Defined.

Definition bind {A B} (r : result A) (f : A -> result B) : result B :=
  match r with Ok a => f a | Throw e => Throw e end.

#[export] Instance result_ret : MRet result := @Ok.
#[export] Instance result_bind : MBind result := fun A B f r => bind r f.
#[export] Instance result_fmap : FMap result := fun A B f r =>
  match r with Ok a => Ok (f a) | Throw e => Throw e end.

(** Sequencing: [let! x := e in k] runs [e] and then [k] with its value. *)
Declare Scope js_scope.
Delimit Scope js_scope with js.
Notation "'let!' x ':=' c 'in' k" := (bind c (fun x => k))
  (at level 10, x binder, c at level 200, k at level 200) : js_scope.
#[global] Open Scope js_scope.

Definition is_ok {A} (r : result A) : bool :=
  match r with Ok _ => true | Throw _ => false end.

(** Value of a module-level constant whose initialiser does not throw. *)
Definition evaluated {A} (default : A) (r : result A) : A :=
  match r with Ok a => a | Throw _ => default end.

(** Node's [assert(condition)]. *)
Definition js_assert (b : bool) : result unit :=
  if b then Ok tt else Throw AssertionError.

(** ** Automation *)

Create HintDb zero.
Create Rewrite HintDb zero.

Lemma bind_Ok {A B} (f : A -> result B) (a : A) : bind (Ok a) f = f a.
Proof. reflexivity. Qed.

Lemma bind_Throw {A B} (f : A -> result B) (e : js_error) : bind (Throw e) f = Throw e.
Proof. reflexivity. Qed.

Lemma bind_Ok_inv {A B} (f : A -> result B) (r : result A) (b : B) :
  bind r f = Ok b -> exists a, r = Ok a /\ f a = Ok b.
Proof. destruct r as [a|e]; simpl; [eauto | discriminate]. Qed.

Lemma bind_assoc {A B C} (r : result A) (f : A -> result B) (g : B -> result C) :
  bind (bind r f) g = bind r (fun a => bind (f a) g).
Proof. by destruct r. Qed.

Lemma fmap_Ok_inv {A B} (f : A -> B) (r : result A) (b : B) :
  f <$> r = Ok b -> exists a, r = Ok a /\ f a = b.
Proof. destruct r; simpl; intros H; inversion H; eauto. Qed.

Lemma js_assert_Ok (b : bool) (u : unit) : js_assert b = Ok u <-> b = true.
Proof. destruct b, u; split; intros H; try reflexivity; discriminate. Qed.

(** Decompose a successful monadic computation in the context. *)
Ltac inv_ok :=
  repeat match goal with
  | H : bind _ _ = Ok _ |- _ =>
      let a := fresh "a" in let H1 := fresh "Hok" in
      apply bind_Ok_inv in H as (a & H1 & H)
  | H : _ <$> _ = Ok _ |- _ =>
      let a := fresh "a" in apply fmap_Ok_inv in H as (a & ? & ?)
  | H : js_assert _ = Ok _ |- _ => apply js_assert_Ok in H
  | H : Ok _ = Ok _ |- _ => inversion H; clear H; subst
  | H : Throw _ = Ok _ |- _ => discriminate H
  | H : Ok _ = Throw _ |- _ => discriminate H
  | H : mret _ = Ok _ |- _ => change (Ok _ = Ok _) in H
  end.

(** Case analysis on the boolean comparisons that guard a branch. *)
Ltac case_Zb :=
  match goal with
  | |- context [(?a <? ?b)%Z] => destruct (Z.ltb_spec a b)
  | |- context [(?a <=? ?b)%Z] => destruct (Z.leb_spec a b)
  | |- context [(?a =? ?b)%Z] => destruct (Z.eqb_spec a b)
  | |- context [(?a >? ?b)%Z] => rewrite (Z.gtb_ltb a b)
  | |- context [(?a >=? ?b)%Z] => rewrite (Z.geb_leb a b)
  end.

(** ** Monadic list traversal *)

(** [xs.map(f)] when [f] may throw, and [await Promise.all(xs.map(f))]: the
    first failure in list order is the one reported. *)
Fixpoint traverse {A B} (f : A -> result B) (l : list A) : result (list B) :=
  match l with
  | [] => Ok []
  | x :: l => let! y := f x in let! ys := traverse f l in Ok (y :: ys)
  end.

Lemma traverse_Ok {A B} (f : A -> result B) (g : A -> B) (l : list A) :
  (forall x, x ∈ l -> f x = Ok (g x)) -> traverse f l = Ok (map g l).
Proof.
  induction l as [|x l IH]; intros H; [reflexivity|].
  cbn [traverse map]. rewrite (H x), bind_Ok, IH by set_solver. reflexivity.
Qed.

Lemma traverse_Forall2 {A B} (f : A -> result B) (l : list A) (l' : list B) :
  traverse f l = Ok l' <-> Forall2 (fun x y => f x = Ok y) l l'.
Proof.
  revert l'. induction l as [|x l IH]; intros l'; simpl; split; intros H.
  - inversion H. constructor.
  - by inversion H.
  - inv_ok. constructor; [done|]. by apply IH.
  - inversion H as [|? y ? ys Hx Hl]; subst. rewrite Hx, bind_Ok.
    apply IH in Hl. by rewrite Hl, bind_Ok.
Qed.

Lemma traverse_map {A B C} (f : B -> result C) (g : A -> B) (l : list A) :
  traverse f (map g l) = traverse (fun x => f (g x)) l.
Proof. induction l as [|x l IH]; [done|]. cbn [map traverse]. by rewrite IH. Qed.

(** ** Results up to which error is thrown

    [Promise.all] rejects with whichever promise rejects first, so two reads that
    start the same calls in another order may report another of the failures. *)

#[export] Instance result_equiv {A} : Equiv (result A) := fun r1 r2 =>
  match r1, r2 with
  | Ok a, Ok b => a = b
  | Throw _, Throw _ => True
  | _, _ => False
  end.

#[export] Instance result_equivalence {A} : Equivalence (≡@{result A}).
Proof.
  split.
  - by intros [].
  - by intros [] [].
  - intros [a|] [b|] [c|]; try done; simpl. unfold equiv, result_equiv. by intros -> ->.
Qed.

#[export] Instance bind_proper {A B} :
  Proper ((≡) ==> (pointwise_relation A (≡)) ==> (≡)) (@bind A B).
Proof.
  intros [a|] [a'|] Ha f g Hf; try done; simpl.
  unfold equiv, result_equiv in Ha. subst. apply Hf.
Qed.

Lemma bind_ext {A B} (r : result A) (f g : A -> result B) : (forall a, f a = g a) -> bind r f = bind r g.
Proof. intros H. destruct r; [apply H | done]. Qed.

(** Two computations that do not depend on each other commute. *)
Lemma bind_comm {A B C} (r1 : result A) (r2 : result B) (f : A -> B -> result C) :
  (let! a := r1 in let! b := r2 in f a b) ≡ (let! b := r2 in let! a := r1 in f a b).
Proof. by destruct r1, r2. Qed.

(** ** Integer division *)

Lemma div_le_iff (a b q : Z) : (0 < b)%Z -> (a / b <= q <-> a < (q + 1) * b)%Z.
Proof.
  intros Hb. pose proof (Z.div_mod a b ltac:(lia)).
  pose proof (Z.mod_pos_bound a b Hb). split; intros; nia.
Qed.

Lemma le_div_iff (a b q : Z) : (0 < b)%Z -> (q <= a / b <-> q * b <= a)%Z.
Proof.
  intros Hb. pose proof (Z.div_mod a b ltac:(lia)).
  pose proof (Z.mod_pos_bound a b Hb). split; intros; nia.
Qed.

(** Ceiling division as the code writes it. *)
Lemma div_ceil_bounds (a b : Z) :
  (0 < b)%Z -> let q := ((a + (b - 1)) / b)%Z in (a <= q * b < a + b)%Z.
Proof.
  intros Hb q. pose proof (Z.div_mod (a + (b - 1)) b ltac:(lia)).
  pose proof (Z.mod_pos_bound (a + (b - 1)) b Hb). unfold q. nia.
Qed.
