(* ===== verification/JsString.v ===== *)
(** * JavaScript strings as the SDK uses them

    Strings of digits: printing and parsing integers in base 10 and 16, and
    the String.prototype methods that [Decimal.ts] relies on ([split],
    [includes], [startsWith], [substr], [padStart], [repeat], [replace] of
    trailing zeros).  Strings are handled as lists of characters and converted
    from and to [string] at the interface of a component. *)

From S2P Require Import Prelude.
Local Open Scope Z_scope.

Definition chars (s : string) : list ascii := String.list_ascii_of_string s.
Definition text (l : list ascii) : string := String.string_of_list_ascii l.

Definition code (c : ascii) : Z := Z.of_N (N_of_ascii c).

Definition is_digit (c : ascii) : bool := (48 <=? code c) && (code c <=? 57).

Definition is_hex_digit (c : ascii) : bool :=
  is_digit c || ((97 <=? code c) && (code c <=? 102)) || ((65 <=? code c) && (code c <=? 70)).

Definition digit_val (c : ascii) : Z :=
  if is_digit c then code c - 48
  else if (97 <=? code c) && (code c <=? 102) then code c - 87
  else code c - 55.

Definition digit_char (d : Z) : ascii :=
  ascii_of_N (Z.to_N (if d <? 10 then d + 48 else d + 87)).

(** The integer a digit string denotes. *)
Definition parse_base (b : Z) (l : list ascii) : Z :=
  fold_left (fun acc c => acc * b + digit_val c) l 0.

(** Digits of [n >= 0], most significant first; [fuel] bounds the number of
    digits and [n < 2 ^ fuel] is enough of it. *)
Fixpoint print_base_fuel (fuel : nat) (b n : Z) (acc : list ascii) : list ascii :=
  match fuel with
  | O => acc
  | S fuel =>
      let acc := digit_char (n mod b) :: acc in
      if n <? b then acc else print_base_fuel fuel b (n / b) acc
  end.

Definition print_base (b n : Z) : list ascii :=
  print_base_fuel (S (Z.to_nat (Z.log2 n))) b n [].

Definition print_dec (n : Z) : list ascii := print_base 10 n.
Definition parse_dec (l : list ascii) : Z := parse_base 10 l.

Fixpoint drop_while (p : ascii -> bool) (l : list ascii) : list ascii :=
  match l with
  | [] => []
  | c :: l' => if p c then drop_while p l' else l
  end.

(** [s.split(sep)] for a one-character separator: never empty. *)
Fixpoint split_at (sep : ascii) (l : list ascii) : list (list ascii) :=
  match l with
  | [] => [[]]
  | c :: l' =>
      if Ascii.eqb c sep then [] :: split_at sep l'
      else match split_at sep l' with
           | [] => [[c]]
           | w :: ws => (c :: w) :: ws
           end
  end.

(** [const [a, b] = s.split(sep)]: a missing component is [undefined]. *)
Definition split_pair (sep : ascii) (l : list ascii) : list ascii * option (list ascii) :=
  match split_at sep l with
  | [] => ([], None)
  | [w] => (w, None)
  | w :: w' :: _ => (w, Some w')
  end.

Definition includes (c : ascii) (l : list ascii) : bool := existsb (Ascii.eqb c) l.

Definition starts_with (c : ascii) (l : list ascii) : bool :=
  match l with [] => false | c' :: _ => Ascii.eqb c c' end.

Definition padStart (width : nat) (c : ascii) (l : list ascii) : list ascii :=
  replicate (width - length l) c ++ l.

(** [s.replace(/0*$/, "")] *)
Definition trim_trailing_zeros (l : list ascii) : list ascii :=
  reverse (drop_while (Ascii.eqb "0") (reverse l)).

(** [s.length]: UTF-16 units; a character outside ASCII is stored as its UTF-8
    bytes here and, in the texts the code makes, counts as one unit. *)
Definition js_length (l : list ascii) : Z :=
  Z.of_nat (length (filter (fun c => ((code c <? 128) || (192 <=? code c)) = true) l)).

(** The double-quote character, as a string. *)
Definition dquote : string := String (ascii_of_nat 34) EmptyString.

#[global] Arguments Ascii.eqb : simpl never.
#[global] Arguments is_digit : simpl never.

(** ** Conversions *)

Lemma chars_text l : chars (text l) = l.
Proof. apply String.list_ascii_of_string_of_list_ascii. Qed.

Lemma text_chars s : text (chars s) = s.
Proof. apply String.string_of_list_ascii_of_string. Qed.

#[export] Hint Rewrite chars_text text_chars : zero.

(** ** Digits *)

Lemma digit_cases (d : Z) : 0 <= d < 16 ->
  d = 0 \/ d = 1 \/ d = 2 \/ d = 3 \/ d = 4 \/ d = 5 \/ d = 6 \/ d = 7 \/
  d = 8 \/ d = 9 \/ d = 10 \/ d = 11 \/ d = 12 \/ d = 13 \/ d = 14 \/ d = 15.
Proof. lia. Qed.

Lemma digit_val_char (d : Z) : 0 <= d < 16 -> digit_val (digit_char d) = d.
Proof.
  intros H. apply digit_cases in H.
  repeat (destruct H as [->|H]; [reflexivity|]). by subst.
Qed.

Lemma is_digit_char (d : Z) : 0 <= d < 10 -> is_digit (digit_char d) = true.
Proof.
  intros H. assert (H16 : 0 <= d < 16) by lia. apply digit_cases in H16.
  repeat (destruct H16 as [->|H16]; [reflexivity || lia|]). lia.
Qed.

Lemma is_hex_digit_char (d : Z) : 0 <= d < 16 -> is_hex_digit (digit_char d) = true.
Proof.
  intros H. apply digit_cases in H.
  repeat (destruct H as [->|H]; [reflexivity|]). by subst.
Qed.

Lemma digit_val_bound c : is_digit c = true -> 0 <= digit_val c < 10.
Proof.
  unfold digit_val. intros H. rewrite H. unfold is_digit in H.
  apply andb_true_iff in H as [?%Z.leb_le ?%Z.leb_le]. lia.
Qed.

Lemma digit_char_val c : is_digit c = true -> digit_char (digit_val c) = c.
Proof.
  intros H. unfold digit_char, digit_val. rewrite H.
  unfold is_digit in H. apply andb_true_iff in H as [?%Z.leb_le ?%Z.leb_le].
  rewrite (proj2 (Z.ltb_lt _ _)) by lia.
  replace (code c - 48 + 48) with (code c) by lia.
  unfold code. rewrite N2Z.id. apply ascii_N_embedding.
Qed.

(** ** Parsing *)

Section parse.
Context (b : Z).

Lemma parse_base_acc l acc :
  fold_left (fun acc c => acc * b + digit_val c) l acc =
  acc * b ^ Z.of_nat (length l) + parse_base b l.
Proof.
  unfold parse_base. revert acc. induction l as [|c l IH]; intros acc; simpl length.
  - simpl. lia.
  - cbn [fold_left]. rewrite IH, (IH (0 * b + digit_val c)).
    rewrite Nat2Z.inj_succ, Z.pow_succ_r by lia. ring.
Qed.

Lemma parse_base_cons c l :
  parse_base b (c :: l) = digit_val c * b ^ Z.of_nat (length l) + parse_base b l.
Proof.
  unfold parse_base at 1. cbn [fold_left]. rewrite parse_base_acc. ring.
Qed.

Lemma parse_base_app l1 l2 :
  parse_base b (l1 ++ l2) = parse_base b l1 * b ^ Z.of_nat (length l2) + parse_base b l2.
Proof.
  unfold parse_base at 1. rewrite fold_left_app. apply parse_base_acc.
Qed.

Lemma parse_base_zeros n : parse_base b (replicate n "0"%char) = 0.
Proof.
  induction n as [|n IH]; [reflexivity|].
  cbn [replicate]. rewrite parse_base_cons, IH. reflexivity.
Qed.

Lemma print_base_fuel_spec fuel n acc :
  2 <= b <= 16 -> 0 <= n < 2 ^ Z.of_nat fuel -> (fuel <> 0)%nat ->
  parse_base b (print_base_fuel fuel b n acc) =
  n * b ^ Z.of_nat (length acc) + parse_base b acc.
Proof.
  intros Hb. revert n acc. induction fuel as [|fuel IH]; intros n acc Hn Hf; [done|].
  cbn [print_base_fuel]. pose proof (Z.mod_pos_bound n b ltac:(lia)).
  case_Zb.
  - rewrite parse_base_cons, digit_val_char by lia. by rewrite Z.mod_small by lia.
  - rewrite Nat2Z.inj_succ, Z.pow_succ_r in Hn by lia.
    assert (Hdiv : n / b < 2 ^ Z.of_nat fuel).
    { apply Z.div_lt_upper_bound; nia. }
    assert (0 <= n / b) by (apply Z.div_pos; lia).
    assert (fuel <> 0)%nat.
    { intros ->. simpl in Hn. lia. }
    rewrite IH by lia. cbn [length].
    rewrite parse_base_cons, digit_val_char by lia.
    rewrite Nat2Z.inj_succ, Z.pow_succ_r by lia.
    pose proof (Z.div_mod n b ltac:(lia)). nia.
Qed.

End parse.

Lemma log2_fuel n : 0 <= n -> n < 2 ^ Z.of_nat (S (Z.to_nat (Z.log2 n))).
Proof.
  intros Hn. rewrite Nat2Z.inj_succ, Z2Nat.id by apply Z.log2_nonneg.
  destruct (Z.eq_dec n 0) as [->|]; [reflexivity|]. apply Z.log2_spec. lia.
Qed.

Lemma parse_print_base b n : 2 <= b <= 16 -> 0 <= n -> parse_base b (print_base b n) = n.
Proof.
  intros Hb Hn. unfold print_base.
  rewrite print_base_fuel_spec; [cbn; lia | lia | | done].
  split; [lia|]. by apply log2_fuel.
Qed.

Lemma print_base_fuel_Forall (P : ascii -> Prop) fuel b n acc :
  0 < b -> (forall d, 0 <= d < b -> P (digit_char d)) -> Forall P acc ->
  Forall P (print_base_fuel fuel b n acc).
Proof.
  intros Hb HP. revert n acc. induction fuel as [|fuel IH]; intros n acc Hacc; [done|].
  cbn [print_base_fuel]. pose proof (Z.mod_pos_bound n b Hb).
  assert (Forall P (digit_char (n mod b) :: acc)) by (constructor; auto).
  case_Zb; auto.
Qed.

Lemma print_dec_digits n : Forall (fun c => is_digit c = true) (print_dec n).
Proof. apply print_base_fuel_Forall; [lia | apply is_digit_char | constructor]. Qed.

Lemma parse_print_dec n : 0 <= n -> parse_dec (print_dec n) = n.
Proof. intros. apply parse_print_base; lia. Qed.

Lemma print_base_fuel_length fuel b n acc :
  (length acc <= length (print_base_fuel fuel b n acc))%nat.
Proof.
  revert n acc. induction fuel as [|fuel IH]; intros n acc; [simpl; lia|].
  cbn [print_base_fuel]. case_Zb; [simpl; lia|].
  specialize (IH (n / b) (digit_char (n mod b) :: acc)). simpl in IH. lia.
Qed.

Lemma print_base_nonempty b n : print_base b n <> [].
Proof.
  intros H%(f_equal length). unfold print_base in H. cbn [print_base_fuel] in H.
  destruct (n <? b); [discriminate|].
  pose proof (print_base_fuel_length (Z.to_nat (Z.log2 n)) b (n / b) [digit_char (n mod b)]).
  simpl in *. lia.
Qed.

(** A number below [b ^ k] needs at most [k] digits. *)
Lemma print_base_fuel_upper fuel b n acc k :
  2 <= b -> 0 <= n < b ^ Z.of_nat k -> (k <> 0)%nat ->
  (length (print_base_fuel fuel b n acc) <= k + length acc)%nat.
Proof.
  intros Hb. revert n acc k. induction fuel as [|fuel IH]; intros n acc k Hn Hk; [simpl; lia|].
  cbn [print_base_fuel]. case_Zb; [simpl; lia|].
  destruct k as [|k]; [done|].
  rewrite Nat2Z.inj_succ, Z.pow_succ_r in Hn by lia.
  assert (n / b < b ^ Z.of_nat k) by (apply Z.div_lt_upper_bound; lia).
  assert (0 <= n / b) by (apply Z.div_pos; lia).
  assert (k <> 0)%nat.
  { intros ->. simpl in Hn. lia. }
  specialize (IH (n / b) (digit_char (n mod b) :: acc) k ltac:(lia) ltac:(lia)).
  simpl in IH. lia.
Qed.

Lemma print_dec_length n k :
  0 <= n < 10 ^ Z.of_nat k -> (k <> 0)%nat -> (length (print_dec n) <= k)%nat.
Proof.
  intros Hn Hk. unfold print_dec, print_base.
  pose proof (print_base_fuel_upper (S (Z.to_nat (Z.log2 n))) 10 n [] k ltac:(lia) Hn Hk).
  simpl in *. lia.
Qed.

Lemma parse_dec_bound l :
  Forall (fun c => is_digit c = true) l -> 0 <= parse_dec l < 10 ^ Z.of_nat (length l).
Proof.
  unfold parse_dec. induction 1 as [|c l Hc Hl IH]; [cbn; lia|].
  rewrite parse_base_cons. cbn [length]. rewrite Nat2Z.inj_succ, Z.pow_succ_r by lia.
  pose proof (digit_val_bound c Hc). nia.
Qed.

(** Two digit strings of the same length that denote the same number are equal. *)
Lemma parse_dec_inj l1 l2 :
  Forall (fun c => is_digit c = true) l1 -> Forall (fun c => is_digit c = true) l2 ->
  length l1 = length l2 -> parse_dec l1 = parse_dec l2 -> l1 = l2.
Proof.
  intros H1. revert l2. induction H1 as [|c l Hc Hl IH]; intros l2 H2 Hlen Heq.
  { by destruct l2. }
  destruct H2 as [|c' l' Hc' Hl']; [done|].
  unfold parse_dec in Heq. rewrite !parse_base_cons in Heq.
  pose proof (parse_dec_bound l Hl). pose proof (parse_dec_bound l' Hl').
  unfold parse_dec in *. injection Hlen as Hlen. rewrite <- Hlen in *.
  assert (digit_val c = digit_val c') by nia.
  f_equal; [|apply IH; auto; lia].
  rewrite <- (digit_char_val c), <- (digit_char_val c') by done. congruence.
Qed.

(** ** Splitting, padding, trimming *)

Lemma split_at_not_in sep l : Forall (fun c => c <> sep) l -> split_at sep l = [l].
Proof.
  induction 1 as [|c l Hc _ IH]; [done|]. cbn [split_at].
  apply Ascii.eqb_neq in Hc. by rewrite Hc, IH.
Qed.

Lemma split_at_app sep l1 l2 :
  Forall (fun c => c <> sep) l1 -> split_at sep (l1 ++ sep :: l2) = l1 :: split_at sep l2.
Proof.
  induction 1 as [|c l Hc _ IH]; cbn [app split_at].
  - by rewrite Ascii.eqb_refl.
  - apply Ascii.eqb_neq in Hc. by rewrite Hc, IH.
Qed.

Lemma split_pair_app sep l1 l2 :
  Forall (fun c => c <> sep) l1 -> Forall (fun c => c <> sep) l2 ->
  split_pair sep (l1 ++ sep :: l2) = (l1, Some l2).
Proof. intros H1 H2. unfold split_pair. by rewrite split_at_app, split_at_not_in. Qed.

Lemma includes_app c l1 l2 : includes c (l1 ++ l2) = includes c l1 || includes c l2.
Proof. apply existsb_app. Qed.

Lemma includes_cons c x l : includes c (x :: l) = Ascii.eqb c x || includes c l.
Proof. reflexivity. Qed.

Lemma includes_false c l : includes c l = false <-> Forall (fun x => x <> c) l.
Proof.
  induction l as [|x l IH]; simpl.
  - split; [constructor | done].
  - rewrite orb_false_iff, IH, Forall_cons, Ascii.eqb_neq.
    split; intros [? ?]; auto.
Qed.

Lemma digits_avoid c l :
  is_digit c = false -> Forall (fun x => is_digit x = true) l -> Forall (fun x => x <> c) l.
Proof. intros Hc Hl. eapply Forall_impl; [exact Hl|]. simpl. intros x Hx ->. congruence. Qed.

Lemma padStart_length w c l : (length l <= w)%nat -> length (padStart w c l) = w.
Proof. intros. unfold padStart. rewrite length_app, length_replicate. lia. Qed.

Lemma padStart_parse w l : parse_dec (padStart w "0" l) = parse_dec l.
Proof. unfold padStart, parse_dec. rewrite parse_base_app, parse_base_zeros. lia. Qed.

Lemma padStart_digits w l :
  Forall (fun c => is_digit c = true) l -> Forall (fun c => is_digit c = true) (padStart w "0" l).
Proof. intros. apply Forall_app; split; [|done]. by apply Forall_replicate. Qed.

Lemma drop_while_suffix p l : exists l', l = l' ++ drop_while p l /\ Forall (fun c => p c = true) l'.
Proof.
  induction l as [|c l [l' [Heq Hl']]]; cbn [drop_while].
  - exists []. split; [done | constructor].
  - destruct (p c) eqn:Hc.
    + exists (c :: l'). split; [simpl; congruence | by constructor].
    + exists []. split; [done | constructor].
Qed.

Lemma trim_trailing_zeros_spec l :
  exists k, l = trim_trailing_zeros l ++ replicate k "0"%char.
Proof.
  unfold trim_trailing_zeros.
  destruct (drop_while_suffix (Ascii.eqb "0") (reverse l)) as (l' & Heq & Hl').
  exists (length l'). apply (f_equal reverse) in Heq.
  rewrite reverse_involutive, reverse_app in Heq. rewrite Heq at 1. f_equal.
  symmetry. apply replicate_as_elem_of. rewrite length_reverse. split; [done|].
  intros c Hc. rewrite elem_of_reverse in Hc.
  rewrite Forall_forall in Hl'. symmetry. apply Ascii.eqb_eq, Hl', Hc.
Qed.
