(* ===== verification/JsNumber.v ===== *)
(** * JavaScript numbers as the SDK uses them

    IEEE-754 binary64 values with exact integer significands, the correctly
    rounded conversion from a decimal literal ([parseFloat] and numeric
    literals of the source) and [Number.prototype.toString], which prints the
    shortest decimal that rounds back to the number.  Both are executable. *)

From S2P Require Import Prelude JsString.
Local Open Scope Z_scope.

(** [Finite s m e] is [(-1)^s * m * 2^e] with [m < 2^53] and [e >= -1074]. *)
Inductive number : Type :=
| NaN
| Infinity (negative : bool)
| Finite (negative : bool) (m e : Z).

#[export] Instance number_eq_dec : EqDecision number.
Proof. solve_decision. Defined.

Definition zero_number : number := Finite false 0 (-1074).

(** [n / d] rounded to the nearest integer, ties to even, for [d > 0]. *)
Definition round_half_even (n d : Z) : Z :=
  let q := n / d in
  let r := n mod d in
  if 2 * r <? d then q
  else if d <? 2 * r then q + 1
  else if Z.even q then q else q + 1.

(** [floor (log2 (p / q))] for positive [p] and [q]. *)
Definition log2_ratio (p q : Z) : Z :=
  let l := Z.log2 p - Z.log2 q in
  if (if 0 <=? l then q * 2 ^ l <=? p else q <=? p * 2 ^ (- l)) then l else l - 1.

(** The double nearest to the non-negative rational [p / q]. *)
Definition round_ratio (p q : Z) : number :=
  if p =? 0 then zero_number
  else
    let e := Z.max (log2_ratio p q - 52) (-1074) in
    let m := if 0 <=? e then round_half_even p (q * 2 ^ e)
             else round_half_even (p * 2 ^ (- e)) q in
    let '(m, e) := if m =? 2 ^ 53 then (2 ^ 52, e + 1) else (m, e) in
    if 971 <? e then Infinity false else Finite false m e.

(** The decimal [s * 10 ^ x] as a double. *)
Definition round_decimal (s x : Z) : number :=
  if 0 <=? x then round_ratio (s * 10 ^ x) 1 else round_ratio s (10 ^ (- x)).

(** The longest prefix of digits. *)
Fixpoint take_digits (l : list ascii) : list ascii :=
  match l with
  | c :: l' => if is_digit c then c :: take_digits l' else []
  | [] => []
  end.

(** [parseFloat] on the strings the library passes to it: unsigned decimals
    without an exponent.  A string that starts with neither a digit nor a point
    followed by a digit is not a number. *)
Definition parseFloat (l : list ascii) : number :=
  let int := take_digits l in
  let frac := match drop (length int) l with
              | "."%char :: l' => take_digits l'
              | _ => []
              end in
  match int ++ frac with
  | [] => NaN
  | ds => round_decimal (parse_dec ds) (- Z.of_nat (length frac))
  end.

(** A numeric literal of the source. *)
Definition lit (s : string) : number := parseFloat (chars s).

Definition number_of_Z (n : Z) : number := round_ratio n 1.

(** ** Arithmetic the SDK does on numbers *)

Definition MAX_SAFE_INTEGER : Z := 9007199254740991.

(** [k * x] for an integer [k >= 0] exactly representable and [x >= 0]. *)
Definition times (k : Z) (x : number) : number :=
  match x with
  | Finite false m e => if 0 <=? e then round_ratio (k * m * 2 ^ e) 1 else round_ratio (k * m) (2 ^ (- e))
  | _ => NaN
  end.

(** [Math.sqrt(n)] for an integer [0 <= n < 2^53]: the root to 60 binary places
    with a sticky bit, rounded once. *)
Definition Math_sqrt (n : Z) : number :=
  let r := Z.sqrt (n * 2 ^ 120) in
  let sticky := if r * r =? n * 2 ^ 120 then 0 else 1 in
  round_ratio (2 * r + sticky) (2 ^ 61).

(** [Math.floor] and [Math.ceil] of a finite non-negative number. *)
Definition Math_floor (x : number) : Z :=
  match x with
  | Finite false m e => if 0 <=? e then m * 2 ^ e else m / 2 ^ (- e)
  | _ => 0
  end.

Definition Math_ceil (x : number) : Z :=
  match x with
  | Finite false m e => if 0 <=? e then m * 2 ^ e else - (- m / 2 ^ (- e))
  | _ => 0
  end.

(** ** Printing *)

(** Exponent [n] with [10 ^ (n - 1) <= p / q < 10 ^ n]. *)
Definition decimal_exponent (p q : Z) : Z :=
  if q <=? p then Z.of_nat (length (print_dec (p / q)))
  else 1 - Z.of_nat (length (print_dec ((q - 1) / p))).

(** The decimals of [k] digits next to [p / q], as digits and exponent. *)
Definition candidates (p q n k : Z) : list (Z * Z) :=
  let x := n - k in
  let lo := if 0 <=? x then p / (q * 10 ^ x) else (p * 10 ^ (- x)) / q in
  let hi := if lo + 1 =? 10 ^ k then (10 ^ (k - 1), n + 1) else (lo + 1, n) in
  [(lo, n); hi].

(** Distance of [s * 10 ^ (n - k)] from [p / q], scaled to an integer. *)
Definition distance (p q k : Z) (c : Z * Z) : Z :=
  let '(s, n) := c in
  let x := n - k in
  if 0 <=? x then Z.abs (p - s * 10 ^ x * q) * 10 ^ 400
  else Z.abs (p * 10 ^ (- x) - s * q) * 10 ^ (400 + x).

Definition closest_of (p q k : Z) (l : list (Z * Z)) : option (Z * Z) :=
  match l with
  | [] => None
  | [c] => Some c
  | c :: c' :: _ => Some (if distance p q k c' <? distance p q k c then c' else c)
  end.

(** Shortest digits: the smallest [k] for which a [k]-digit decimal rounds to
    the number itself.  Seventeen digits always suffice for a double. *)
Fixpoint shortest (fuel : nat) (self : number) (p q n k : Z) : Z * Z * Z :=
  let valid c := bool_decide (round_decimal (fst c) (snd c - k) = self)
                 && (10 ^ (k - 1) <=? fst c) in
  match closest_of p q k (List.filter valid (candidates p q n k)), fuel with
  | Some (s, n'), _ => (s, n', k)
  | None, O => (p / q, n, k)
  | None, S fuel => shortest fuel self p q n (k + 1)
  end.

Definition format_digits (s n k : Z) : list ascii :=
  let ds := print_dec s in
  if (k <=? n) && (n <=? 21) then ds ++ replicate (Z.to_nat (n - k)) "0"%char
  else if (0 <? n) && (n <=? 21) then
    take (Z.to_nat n) ds ++ "."%char :: drop (Z.to_nat n) ds
  else if (-6 <? n) && (n <=? 0) then
    chars "0." ++ replicate (Z.to_nat (- n)) "0"%char ++ ds
  else
    let e := n - 1 in
    let exponent := "e"%char :: (if 0 <=? e then "+"%char else "-"%char) :: print_dec (Z.abs e) in
    match ds with
    | [d] => d :: exponent
    | d :: ds' => d :: "."%char :: ds' ++ exponent
    | [] => exponent
    end.

(** [Number.prototype.toString()] *)
Definition Number_toString (x : number) : list ascii :=
  match x with
  | NaN => chars "NaN"
  | Infinity negative => chars (if negative then "-Infinity" else "Infinity")
  | Finite negative m e =>
      if m =? 0 then chars "0"
      else
        let p := if 0 <=? e then m * 2 ^ e else m in
        let q := if 0 <=? e then 1 else 2 ^ (- e) in
        let '(s, n, k) := shortest 16 (Finite false m e) p q (decimal_exponent p q) 1 in
        (if negative then ["-"%char] else []) ++ format_digits s n k
  end.

Example toString_0_1 : text (Number_toString (lit "0.1")) = "0.1".
Proof. vm_compute. reflexivity. Qed.
Example toString_0_3 : text (Number_toString (lit "0.30000000000000004")) = "0.30000000000000004".
Proof. vm_compute. reflexivity. Qed.
Example toString_1e23 : text (Number_toString (lit "100000000000000000000000")) = "1e+23".
Proof. vm_compute. reflexivity. Qed.
Example toString_1e21 : text (Number_toString (lit "123456789012345678901")) = "123456789012345680000".
Proof. vm_compute. reflexivity. Qed.
Example toString_small : text (Number_toString (lit "0.000000000000001")) = "1e-15".
Proof. vm_compute. reflexivity. Qed.
Example toString_int : text (Number_toString (lit "1234567.00")) = "1234567".
Proof. vm_compute. reflexivity. Qed.
Example toString_pow2 : text (Number_toString (lit "9007199254740993")) = "9007199254740992".
Proof. vm_compute. reflexivity. Qed.
Example sqrt_2 : text (Number_toString (Math_sqrt 2)) = "1.4142135623730951".
Proof. vm_compute. reflexivity. Qed.
Example sqrt_exact : Math_sqrt (3 * 3) = lit "3".
Proof. vm_compute. reflexivity. Qed.
Example ten_sqrt_7 : Math_ceil (times 10 (Math_sqrt 7)) = 27.
Proof. vm_compute. reflexivity. Qed.

(** ** Rounding keeps numbers above one above one *)

Lemma round_half_even_floor n d : 0 < d -> n / d <= round_half_even n d.
Proof. intros Hd. unfold round_half_even. cbv zeta. repeat case_Zb; try destruct (Z.even (n / d)); lia. Qed.

Lemma log2_ratio_bounds p q :
  0 < q <= p -> 0 <= log2_ratio p q <= Z.log2 p - Z.log2 q /\ q * 2 ^ log2_ratio p q <= p.
Proof.
  intros H. assert (Hl : Z.log2 q <= Z.log2 p) by (apply Z.log2_le_mono; lia).
  unfold log2_ratio. rewrite (proj2 (Z.leb_le 0 _)) by lia. case_Zb; [lia|].
  destruct (Z.log2_spec p) as [Hp _]; [lia|]. destruct (Z.log2_spec q) as [_ Hq]; [lia|].
  remember (Z.log2 p - Z.log2 q) as l eqn:El.
  pose proof (Z.log2_nonneg q).
  assert (0 < l) by (destruct (Z.eq_dec l 0) as [->|]; [rewrite Z.pow_0_r in *|]; lia).
  assert (2 ^ Z.log2 p = 2 ^ (Z.succ (Z.log2 q)) * 2 ^ (l - 1)) by (rewrite <- Z.pow_add_r by lia; f_equal; lia).
  pose proof (Z.pow_pos_nonneg 2 (l - 1)). nia.
Qed.

Lemma round_half_even_ceil n d : 0 < d -> round_half_even n d <= n / d + 1.
Proof. intros Hd. unfold round_half_even. cbv zeta. repeat case_Zb; try destruct (Z.even (n / d)); lia. Qed.

(** At least one: the significand covers the fractional part; and not too big. *)
Definition at_least_one (bits : Z) (x : number) : Prop :=
  exists m e, x = Finite false m e /\ 0 < m <= 2 ^ bits /\ (e < 0 -> 2 ^ (- e) <= m) /\ e <= bits.

Section Rounding.
Context (p q b : Z) (Hpq : 0 < q <= p) (Hb : 0 <= b <= 900) (Hp : p <= 2 ^ b).

(** The significand [round_ratio] computes for an exponent. *)
Let significand (e : Z) : Z :=
  if 0 <=? e then round_half_even p (q * 2 ^ e) else round_half_even (p * 2 ^ (- e)) q.

Lemma significand_bounds l :
  0 <= l -> q * 2 ^ l <= p ->
  0 < significand (l - 52) <= 2 ^ (b + 53) /\ (l - 52 < 0 -> 2 ^ (- (l - 52)) <= significand (l - 52)).
Proof.
  intros Hl Hle. unfold significand.
  assert (E : 2 ^ (b + 53) = 2 ^ b * 2 ^ 53) by (apply Z.pow_add_r; lia).
  case_Zb.
  - pose proof (Z.pow_pos_nonneg 2 (l - 52)).
    assert (Hq : 0 < q * 2 ^ (l - 52)) by nia.
    pose proof (round_half_even_floor p _ Hq). pose proof (round_half_even_ceil p _ Hq).
    assert (1 <= p / (q * 2 ^ (l - 52))).
    { apply le_div_iff; [done|]. pose proof (Z.pow_le_mono_r 2 (l - 52) l). nia. }
    assert (p / (q * 2 ^ (l - 52)) <= p) by (apply div_le_iff; nia). lia.
  - pose proof (Z.pow_pos_nonneg 2 (- (l - 52))).
    pose proof (round_half_even_floor (p * 2 ^ (- (l - 52))) q).
    pose proof (round_half_even_ceil (p * 2 ^ (- (l - 52))) q).
    assert (2 ^ (- (l - 52)) <= p * 2 ^ (- (l - 52)) / q) by (apply le_div_iff; nia).
    assert (2 ^ (- (l - 52)) <= 2 ^ 52) by (apply Z.pow_le_mono_r; lia).
    assert (p * 2 ^ (- (l - 52)) / q <= p * 2 ^ 52) by (apply div_le_iff; nia). lia.
Qed.

Lemma round_ratio_at_least_one : at_least_one (b + 53) (round_ratio p q).
Proof.
  pose proof (log2_ratio_bounds p q Hpq) as [[Hlo Hhi] Hle].
  assert (Z.log2 p <= b) by (rewrite <- (Z.log2_pow2 b) by lia; by apply Z.log2_le_mono).
  pose proof (Z.log2_nonneg q).
  unfold round_ratio. rewrite (proj2 (Z.eqb_neq p 0)) by lia.
  set (l := log2_ratio p q) in *. rewrite Z.max_l by lia.
  pose proof (significand_bounds l Hlo Hle) as [Hm Hf]. fold (significand (l - 52)).
  set (m := significand (l - 52)) in *. cbv zeta.
  destruct (Z.eqb_spec m (2 ^ 53)) as [E|]; rewrite (proj2 (Z.ltb_ge 971 _)) by lia.
  - exists (2 ^ 52), (l - 52 + 1). repeat split; try lia.
    intros. apply Z.pow_le_mono_r; lia.
  - exists m, (l - 52). repeat split; try tauto; lia.
Qed.
End Rounding.

Lemma Math_sqrt_at_least_one n : 1 <= n <= MAX_SAFE_INTEGER -> at_least_one 143 (Math_sqrt n).
Proof.
  intros H. unfold Math_sqrt, MAX_SAFE_INTEGER in *. set (r := Z.sqrt (n * 2 ^ 120)).
  assert (Hlo : 2 ^ 60 <= r) by (apply Z.sqrt_le_square; lia).
  assert (Hhi : r <= 2 ^ 87).
  { destruct (Z.sqrt_spec (n * 2 ^ 120)) as [Hr _]; [lia|]. fold r in Hr. nia. }
  cbv zeta. set (s := if r * r =? _ then 0 else 1).
  assert (0 <= s <= 1) by (subst s; case_Zb; lia).
  apply (round_ratio_at_least_one _ _ 90); lia.
Qed.

Lemma times_at_least_one k x :
  1 <= k <= 16 -> at_least_one 143 x -> at_least_one 343 (times k x).
Proof.
  intros Hk (m & e & -> & Hm & He & Hmax). unfold times.
  destruct (Z.leb_spec 0 e).
  - pose proof (Z.pow_pos_nonneg 2 e). pose proof (Z.pow_le_mono_r 2 e 143).
    apply (round_ratio_at_least_one _ _ 290); [nia | lia |].
    change (2 ^ 290) with (2 ^ 4 * 2 ^ 143 * 2 ^ 143).
    apply Z.mul_le_mono_nonneg; nia.
  - pose proof (Z.pow_pos_nonneg 2 (- e)). specialize (He ltac:(lia)).
    apply (round_ratio_at_least_one _ _ 290); [nia | lia |].
    etransitivity; [apply (Z.mul_le_mono_nonneg k 16 m (2 ^ 143)); lia | lia].
Qed.

Lemma Math_ceil_at_least_one b x : at_least_one b x -> 1 <= Math_ceil x.
Proof.
  intros (m & e & -> & Hm & He & _). cbn [Math_ceil]. case_Zb.
  - pose proof (Z.pow_pos_nonneg 2 e). nia.
  - pose proof (Z.pow_pos_nonneg 2 (- e)). specialize (He ltac:(lia)).
    enough (- m / 2 ^ (- e) <= -1) by lia. apply div_le_iff; lia.
Qed.
