(* ===== verification/LibDecimal.v ===== *)
(** * [Decimal]: fixed-point numbers with 18 digits (lib-base/src/Decimal.ts)

    A [Decimal] holds a non-negative [BigNumber]; the private constructor
    rejects negatives, so the field is an [N] here and [bn] reads it as the
    integer it is.  An ethers [BigNumber] is identified with the integer it
    denotes.  Operations take a [Decimalish] as in the source and may throw. *)

From S2P Require Import Prelude JsString JsNumber.
Local Open Scope Z_scope.

Record Decimal : Type := mkDecimal { raw : N }.

#[export] Instance Decimal_eq_dec : EqDecision Decimal.
Proof. solve_decision. Defined.

(** [this._bigNumber] *)
Definition bn (d : Decimal) : Z := Z.of_N (raw d).

Inductive Decimalish : Type :=
| DDecimal (d : Decimal)
| DNumber (x : number)
| DString (s : string).

Coercion DDecimal : Decimal >-> Decimalish.

(** Numeric literals used as a [Decimalish]. *)
Definition Num (s : string) : Decimalish := DNumber (lit s).

(** ** BigNumber *)

Definition PRECISION : nat := 18.
Definition getDigits (numDigits : Z) : Z := 10 ^ numDigits.
Definition DIGITS : Z := Eval vm_compute in getDigits 18.

(** Decimal digits, or hexadecimal ones after [0x]. *)
Definition BigNumber_magnitude (l : list ascii) : result Z :=
  if starts_with "0" l && starts_with "x" (drop 1 l) then
    if negb (bool_decide (drop 2 l = [])) && forallb is_hex_digit (drop 2 l)
    then Ok (parse_base 16 (drop 2 l))
    else Throw NumericFault
  else if negb (bool_decide (l = [])) && forallb is_digit l then Ok (parse_dec l)
  else Throw NumericFault.

(** [BigNumber.from(string)]: a magnitude, with an optional minus sign. *)
Definition BigNumber_from (l : list ascii) : result Z :=
  if starts_with "-" l then let! n := BigNumber_magnitude (drop 1 l) in Ok (- n)
  else BigNumber_magnitude l.

(** [bigNumber.toHexString()], padded to whole bytes. *)
Definition toHexString (n : Z) : string :=
  let ds := print_base 16 n in
  text (chars "0x" ++ (if Nat.even (length ds) then ds else "0"%char :: ds)).

(** [bigNumber.toString()] *)
Definition bn_toString (n : Z) : list ascii := print_dec n.

(** ** Construction *)

Definition new_Decimal (bigNumber : Z) : result Decimal :=
  if bigNumber <? 0 then Throw (Error "negatives not supported by Decimal")
  else Ok (mkDecimal (Z.to_N bigNumber)).

Definition fromBigNumberString (bigNumberString : string) : result Decimal :=
  let! n := BigNumber_from (chars bigNumberString) in new_Decimal n.

(** The regular expression of the same name: digits, then optionally a point and
    digits, then optionally [e], an optional sign and at least one digit. *)
Definition stringRepresentationFormat (l : list ascii) : bool :=
  let l := drop_while is_digit l in
  let l := if starts_with "." l then drop_while is_digit (drop 1 l) else l in
  if starts_with "e" l then
    let l := drop 1 l in
    let l := if starts_with "-" l || starts_with "+" l then drop 1 l else l in
    negb (bool_decide (l = [])) && forallb is_digit l
  else bool_decide (l = []).

Definition bad_format (l : list ascii) : js_error :=
  Error ("bad decimal format: " +:+ dquote +:+ text l +:+ dquote).

(** [Decimal._fromString]; the recursive call is on the coefficient, which is
    shorter than the representation, so its length is enough [fuel]. *)
Fixpoint fromString_fuel (fuel : nat) (representation : list ascii) : result Decimal :=
  match fuel with
  | O => Throw (bad_format representation)
  | S fuel =>
      if bool_decide (representation = []) || negb (stringRepresentationFormat representation)
      then Throw (bad_format representation)
      else if includes "e" representation then
        let '(coefficient, exponent) := split_pair "e" representation in
        let exponent := default [] exponent in
        if starts_with "-" exponent then
          let! c := fromString_fuel fuel coefficient in
          let! x := BigNumber_from (drop 1 exponent) in
          new_Decimal (bn c / 10 ^ x)
        else
          let exponent := if starts_with "+" exponent then drop 1 exponent else exponent in
          let! c := fromString_fuel fuel coefficient in
          let! x := BigNumber_from exponent in
          new_Decimal (bn c * 10 ^ x)
      else if negb (includes "." representation) then
        let! n := BigNumber_from representation in new_Decimal (n * DIGITS)
      else
        let '(characteristic, mantissa) := split_pair "." representation in
        let mantissa := default [] mantissa in
        let mantissa := if (length mantissa <? PRECISION)%nat
                        then mantissa ++ replicate (PRECISION - length mantissa) "0"%char
                        else take PRECISION mantissa in
        let! c := (if bool_decide (characteristic = []) then Ok 0 else BigNumber_from characteristic) in
        let! m := BigNumber_from mantissa in
        new_Decimal (c * DIGITS + m)
  end.

Definition fromString (representation : string) : result Decimal :=
  let l := chars representation in fromString_fuel (S (length l)) l.

(** [Decimal.from] *)
Definition from (decimalish : Decimalish) : result Decimal :=
  match decimalish with
  | DDecimal d => Ok d
  | DString s => fromString s
  | DNumber x => fromString (text (Number_toString x))
  end.

Module Decimal.

Definition INFINITY : Decimal := Eval vm_compute in evaluated (mkDecimal 0)
  (fromBigNumberString "0xffffffffffffffffffffffffffffffffffffffffffffffffffffffffffffffff").
Definition ZERO : Decimal := Eval vm_compute in evaluated (mkDecimal 0) (from (Num "0")).
Definition HALF : Decimal := Eval vm_compute in evaluated (mkDecimal 0) (from (Num "0.5")).
Definition ONE : Decimal := Eval vm_compute in evaluated (mkDecimal 0) (from (Num "1")).

(** [get hex] *)
Definition hex (this : Decimal) : string := toHexString (bn this).

(** ** Predicates and comparisons *)

Definition isZero (this : Decimal) : bool := bn this =? 0.
Definition zero (this : Decimal) : option Decimal := if isZero this then Some this else None.
Definition nonZero (this : Decimal) : option Decimal := if isZero this then None else Some this.

Definition lt (this : Decimal) (that : Decimalish) : result bool :=
  let! that := from that in Ok (bn this <? bn that).
Definition eq (this : Decimal) (that : Decimalish) : result bool :=
  let! that := from that in Ok (bn this =? bn that).
Definition gt (this : Decimal) (that : Decimalish) : result bool :=
  let! that := from that in Ok (bn that <? bn this).
Definition gte (this : Decimal) (that : Decimalish) : result bool :=
  let! that := from that in Ok (bn that <=? bn this).
Definition lte (this : Decimal) (that : Decimalish) : result bool :=
  let! that := from that in Ok (bn this <=? bn that).

Definition infinite (this : Decimal) : option Decimal :=
  if bn this =? bn INFINITY then Some this else None.
Definition finite (this : Decimal) : option Decimal :=
  if bn this =? bn INFINITY then None else Some this.

(** ** Arithmetic *)

Definition add (this : Decimal) (addend : Decimalish) : result Decimal :=
  let! addend := from addend in new_Decimal (bn this + bn addend).

Definition sub (this : Decimal) (subtrahend : Decimalish) : result Decimal :=
  let! subtrahend := from subtrahend in new_Decimal (bn this - bn subtrahend).

Definition mul (this : Decimal) (multiplier : Decimalish) : result Decimal :=
  let! multiplier := from multiplier in new_Decimal (bn this * bn multiplier / DIGITS).

Definition div (this : Decimal) (divider : Decimalish) : result Decimal :=
  let! divider := from divider in
  if isZero divider then Ok INFINITY
  else new_Decimal (bn this * DIGITS / bn divider).

Definition _divCeil (this : Decimal) (divider : Decimalish) : result Decimal :=
  let! divider := from divider in
  if isZero divider then Ok INFINITY
  else new_Decimal ((bn this * DIGITS + (bn divider - 1)) / bn divider).

Definition mulDiv (this : Decimal) (multiplier divider : Decimalish) : result Decimal :=
  let! multiplier := from multiplier in
  let! divider := from divider in
  if isZero divider then Ok INFINITY
  else new_Decimal (bn this * bn multiplier / bn divider).

Definition roundedMul (x y : Z) : Z := (x * y + bn HALF) / DIGITS.

(** The loop of [pow]: runs until the exponent is 1; [fuel] bounds the number
    of halvings, which [Z.log2] of the exponent is enough for. *)
Fixpoint pow_loop (fuel : nat) (exponent x y : Z) : Z * Z :=
  match fuel with
  | O => (x, y)
  | S fuel =>
      if 1 <? exponent then
        let y := if Z.testbit exponent 0 then roundedMul x y else y in
        let x := roundedMul x x in
        pow_loop fuel (Z.shiftr exponent 1) x y
      else (x, y)
  end.

Definition pow (this : Decimal) (exponent : Z) : result Decimal :=
  let! _ := js_assert ((0 <=? exponent) && (exponent <=? 4294967295)) in
  if exponent =? 0 then Ok ONE
  else if exponent =? 1 then Ok this
  else
    let '(x, y) := pow_loop (Z.to_nat (Z.log2 exponent)) exponent (bn this) DIGITS in
    new_Decimal (roundedMul x y).

Definition min (a b : Decimalish) : result Decimal :=
  let! a := from a in let! b := from b in Ok (if bn a <? bn b then a else b).

Definition max (a b : Decimalish) : result Decimal :=
  let! a := from a in let! b := from b in Ok (if bn b <? bn a then a else b).

(** ** Printing *)

Definition _toStringWithAutomaticPrecision (this : Decimal) : list ascii :=
  let characteristic := bn this / DIGITS in
  let mantissa := bn this mod DIGITS in
  if mantissa =? 0 then bn_toString characteristic
  else
    let paddedMantissa := padStart PRECISION "0" (bn_toString mantissa) in
    let trimmedMantissa := trim_trailing_zeros paddedMantissa in
    bn_toString characteristic ++ "."%char :: trimmedMantissa.

Definition _roundUp (this : Decimal) (precision : Z) : Z :=
  let halfDigit := getDigits (Z.of_nat PRECISION - 1 - precision) * 5 in
  bn this + halfDigit.

Definition _toStringWithPrecision (this : Decimal) (precision : Z) : result (list ascii) :=
  if precision <? 0 then Throw (Error "precision must not be negative")
  else
    let value := if precision <? Z.of_nat PRECISION then _roundUp this precision else bn this in
    let characteristic := value / DIGITS in
    let mantissa := value mod DIGITS in
    if precision =? 0 then Ok (bn_toString characteristic)
    else
      let paddedMantissa := padStart PRECISION "0" (bn_toString mantissa) in
      let trimmedMantissa := take (Z.to_nat precision) paddedMantissa in
      Ok (bn_toString characteristic ++ "."%char :: trimmedMantissa).

Definition toString_chars (this : Decimal) (precision : option Z) : result (list ascii) :=
  if bool_decide (is_Some (infinite this)) then Ok (chars "∞")
  else match precision with
       | Some p => _toStringWithPrecision this p
       | None => Ok (_toStringWithAutomaticPrecision this)
       end.

Definition toString (this : Decimal) (precision : option Z) : result string :=
  text <$> toString_chars this precision.

(** Length of the maximal run of digits at the head of a string. *)
Definition digit_run (l : list ascii) : nat := length (take_digits l).

(** [s.replace(/(\d)(?=(\d{3})+(?!\d))/g, "$1,")]: a comma after each digit that
    is followed by a positive multiple of three digits. *)
Fixpoint insert_commas (l : list ascii) : list ascii :=
  match l with
  | [] => []
  | c :: l' =>
      if is_digit c && (0 <? digit_run l')%nat && (digit_run l' mod 3 =? 0)%nat
      then c :: ","%char :: insert_commas l'
      else c :: insert_commas l'
  end.

Definition prettify_chars (this : Decimal) (precision : Z) : result (list ascii) :=
  let! s := toString_chars this (Some precision) in
  let '(characteristic, mantissa) := split_pair "." (Number_toString (parseFloat s)) in
  let prettyCharacteristic := insert_commas characteristic in
  Ok (match mantissa with
      | Some m => prettyCharacteristic ++ "."%char :: m
      | None => prettyCharacteristic
      end).

(** [prettify(precision = 2)] *)
Definition prettify (this : Decimal) (precision : option Z) : result string :=
  text <$> prettify_chars this (default 2 precision).

Definition magnitudes : list string := [EmptyString; "K"; "M"; "B"; "T"].

Definition shorten (this : Decimal) : result string :=
  let! s := toString_chars this (Some 0) in
  let characteristicLength := js_length s in
  let magnitude := Z.min ((characteristicLength - 1) / 3) (Z.of_nat (length magnitudes) - 1) in
  let precision := Z.max (3 * (magnitude + 1) - characteristicLength) 0 in
  let! divider := new_Decimal (getDigits (Z.of_nat PRECISION + 3 * magnitude)) in
  let! normalized := div this divider in
  let! p := prettify_chars normalized precision in
  Ok (text p +:+ nth (Z.to_nat magnitude) magnitudes EmptyString).

End Decimal.

(** ** Representation lemmas *)

(** The decimal with a given non-negative representation. *)
Definition dec (n : Z) : Decimal := mkDecimal (Z.to_N n).

Lemma bn_nonneg d : 0 <= bn d.
Proof. apply N2Z.is_nonneg. Qed.

Lemma bn_inj d1 d2 : bn d1 = bn d2 -> d1 = d2.
Proof. destruct d1, d2. unfold bn. simpl. by intros ->%N2Z.inj. Qed.

Lemma bn_dec n : 0 <= n -> bn (dec n) = n.
Proof. intros. unfold bn, dec. simpl. lia. Qed.

Lemma dec_bn d : dec (bn d) = d.
Proof. apply bn_inj, bn_dec, bn_nonneg. Qed.

Lemma new_Decimal_nonneg n : 0 <= n -> new_Decimal n = Ok (dec n).
Proof. intros. unfold new_Decimal. case_Zb; [lia | done]. Qed.

Lemma new_Decimal_Ok n d : new_Decimal n = Ok d <-> bn d = n.
Proof.
  unfold new_Decimal. pose proof (bn_nonneg d). case_Zb.
  - split; [discriminate | lia].
  - split; [intros H'; inversion H'; by apply bn_dec | intros <-; f_equal; apply dec_bn].
Qed.

Lemma new_Decimal_throws n :
  n < 0 -> new_Decimal n = Throw (Error "negatives not supported by Decimal").
Proof. intros. unfold new_Decimal. case_Zb; [done | lia]. Qed.

Lemma new_Decimal_bn d : new_Decimal (bn d) = Ok d.
Proof. by apply new_Decimal_Ok. Qed.

Lemma from_decimal (d : Decimal) : from d = Ok d.
Proof. reflexivity. Qed.

#[export] Hint Resolve bn_nonneg : zero.
#[export] Hint Rewrite new_Decimal_bn dec_bn from_decimal @bind_Ok : zero.

(** Non-negativity of the representations in scope, for [lia] and [nia]. *)
Ltac bn_note d :=
  lazymatch goal with
  | H : 0 <= bn d |- _ => fail
  | _ => pose proof (bn_nonneg d)
  end.

Ltac bn_pos :=
  repeat match goal with
  | d : Decimal |- _ => bn_note d
  | |- context [bn ?d] => bn_note d
  | _ : context [bn ?d] |- _ => bn_note d
  end.

(** Keep literals folded while reasoning on quotients by [DIGITS]. *)
Lemma DIGITS_eq : DIGITS = 10 ^ 18.
Proof. reflexivity. Qed.

Lemma DIGITS_pos : 0 < DIGITS.
Proof. reflexivity. Qed.

Lemma bn_ZERO : bn Decimal.ZERO = 0. Proof. reflexivity. Qed.
Lemma bn_ONE : bn Decimal.ONE = DIGITS. Proof. reflexivity. Qed.
Lemma bn_HALF_double : 2 * bn Decimal.HALF = DIGITS. Proof. reflexivity. Qed.
Lemma bn_INFINITY : bn Decimal.INFINITY = 2 ^ 256 - 1. Proof. reflexivity. Qed.

#[global] Opaque DIGITS.

(** ** Operations on decimals *)

Module DecimalFacts.
Import Decimal.

Lemma isZero_true d : isZero d = true <-> bn d = 0.
Proof. apply Z.eqb_eq. Qed.

Lemma isZero_false d : isZero d = false <-> 0 < bn d.
Proof. unfold isZero. bn_pos. rewrite Z.eqb_neq. lia. Qed.

Lemma add_decimal (a b : Decimal) : add a b = Ok (dec (bn a + bn b)).
Proof. bn_pos. unfold add. rewrite from_decimal, bind_Ok. apply new_Decimal_nonneg. lia. Qed.

Lemma sub_decimal (a b : Decimal) : bn b <= bn a -> sub a b = Ok (dec (bn a - bn b)).
Proof. intros. unfold sub. rewrite from_decimal, bind_Ok. apply new_Decimal_nonneg. lia. Qed.

Lemma mul_decimal (a b : Decimal) : mul a b = Ok (dec (bn a * bn b / DIGITS)).
Proof.
  bn_pos. unfold mul. rewrite from_decimal, bind_Ok. apply new_Decimal_nonneg.
  pose proof DIGITS_pos. apply Z.div_pos; nia.
Qed.

Lemma div_decimal (a b : Decimal) :
  0 < bn b -> div a b = Ok (dec (bn a * DIGITS / bn b)).
Proof.
  intros Hb. bn_pos. unfold div. rewrite from_decimal, bind_Ok.
  rewrite (proj2 (isZero_false b)) by done. apply new_Decimal_nonneg.
  pose proof DIGITS_pos. apply Z.div_pos; nia.
Qed.

Lemma divCeil_decimal (a b : Decimal) :
  0 < bn b -> _divCeil a b = Ok (dec ((bn a * DIGITS + (bn b - 1)) / bn b)).
Proof.
  intros Hb. bn_pos. unfold _divCeil. rewrite from_decimal, bind_Ok.
  rewrite (proj2 (isZero_false b)) by done. apply new_Decimal_nonneg.
  pose proof DIGITS_pos. apply Z.div_pos; nia.
Qed.

Lemma mulDiv_decimal (a b c : Decimal) :
  mulDiv a b c = Ok (if bn c =? 0 then INFINITY else dec (bn a * bn b / bn c)).
Proof.
  bn_pos. unfold mulDiv. rewrite !from_decimal, !bind_Ok. unfold isZero.
  case_Zb; [done|]. apply new_Decimal_nonneg. apply Z.div_pos; nia.
Qed.

Lemma lt_decimal (a b : Decimal) : lt a b = Ok (bn a <? bn b). Proof. reflexivity. Qed.
Lemma gt_decimal (a b : Decimal) : gt a b = Ok (bn b <? bn a). Proof. reflexivity. Qed.
Lemma eq_decimal (a b : Decimal) : eq a b = Ok (bn a =? bn b). Proof. reflexivity. Qed.
Lemma gte_decimal (a b : Decimal) : gte a b = Ok (bn b <=? bn a). Proof. reflexivity. Qed.
Lemma lte_decimal (a b : Decimal) : lte a b = Ok (bn a <=? bn b). Proof. reflexivity. Qed.

Lemma min_decimal (a b : Decimal) : min a b = Ok (dec (Z.min (bn a) (bn b))).
Proof.
  unfold min. rewrite !from_decimal, !bind_Ok. f_equal. apply bn_inj. bn_pos.
  rewrite bn_dec by lia. case_Zb; lia.
Qed.

End DecimalFacts.

#[export] Hint Rewrite DecimalFacts.add_decimal DecimalFacts.mul_decimal
  DecimalFacts.mulDiv_decimal DecimalFacts.lt_decimal DecimalFacts.gt_decimal
  DecimalFacts.eq_decimal DecimalFacts.gte_decimal DecimalFacts.lte_decimal
  DecimalFacts.min_decimal : zero.
