(* ===== verification/DecimalText.v ===== *)
(** * Parsing and printing of decimals

    Which strings [Decimal.from] accepts and what they denote, the round trip
    through [toString], the rounding of [toString(precision)], and the
    hexadecimal round trip used to pass decimals to and from contracts. *)

From S2P Require Import Prelude JsString JsNumber LibDecimal.
Import Decimal.
Local Open Scope Z_scope.

Abbreviation digits l := (Forall (fun c => is_digit c = true) l).

(** ** BigNumber strings *)

Lemma digits_forallb l : forallb is_digit l = true <-> digits l.
Proof. rewrite forallb_forall, Forall_forall. by setoid_rewrite list_elem_of_In. Qed.

Lemma starts_with_spec c l : starts_with c l = true <-> exists l', l = c :: l'.
Proof.
  destruct l as [|c' l]; simpl.
  - split; [done | intros [? [=]]].
  - rewrite Ascii.eqb_eq. split; [intros ->; eauto | intros [? [= ->]]; done].
Qed.

Lemma starts_with_not_digit c l rest :
  is_digit c = false -> digits l -> l <> [] -> starts_with c (l ++ rest) = false.
Proof.
  intros Hc Hl Hne. destruct Hl as [|c' l Hc' _]; [done|]. simpl.
  apply Ascii.eqb_neq. congruence.
Qed.

Lemma BigNumber_from_digits l : digits l -> l <> [] -> BigNumber_from l = Ok (parse_dec l).
Proof.
  intros Hl Hne. unfold BigNumber_from.
  rewrite <- (app_nil_r l), (starts_with_not_digit "-" l []), app_nil_r by done.
  unfold BigNumber_magnitude. assert (starts_with "0" l && starts_with "x" (drop 1 l) = false) as ->.
  { apply andb_false_iff. right. destruct Hl as [|c l Hc Hl]; [done|]. simpl.
    destruct Hl as [|c' l Hc' _]; [done|]. simpl.
    apply Ascii.eqb_neq. intros <-. discriminate Hc'. }
  rewrite (proj2 (digits_forallb l) Hl). by rewrite bool_decide_false.
Qed.

Lemma print_dec_nonempty n : print_dec n <> [].
Proof. apply print_base_nonempty. Qed.

Lemma parse_dec_trailing l k : parse_dec (l ++ replicate k "0"%char) = parse_dec l * 10 ^ Z.of_nat k.
Proof.
  unfold parse_dec. rewrite parse_base_app, parse_base_zeros, length_replicate. lia.
Qed.

(** ** The accepted format *)

Lemma drop_while_digits l rest :
  digits l -> drop_while is_digit (l ++ rest) = drop_while is_digit rest.
Proof. induction 1 as [|c l Hc _ IH]; [done|]. simpl. by rewrite Hc. Qed.

Lemma format_plain l : digits l -> stringRepresentationFormat l = true.
Proof.
  intros Hl. unfold stringRepresentationFormat.
  rewrite <- (app_nil_r l), drop_while_digits by done. reflexivity.
Qed.

Lemma format_point l m : digits l -> digits m -> stringRepresentationFormat (l ++ "."%char :: m) = true.
Proof.
  intros Hl Hm. unfold stringRepresentationFormat.
  rewrite drop_while_digits by done. cbn [drop_while].
  change (is_digit ".") with false. cbn [starts_with drop]. rewrite Ascii.eqb_refl.
  rewrite drop_0, <- (app_nil_r m), drop_while_digits by done. reflexivity.
Qed.

(** ** Values of the accepted strings *)

(** The fractional digits brought to exactly [PRECISION] digits. *)
Definition fit_mantissa (m : list ascii) : list ascii :=
  if (length m <? PRECISION)%nat then m ++ replicate (PRECISION - length m) "0"%char
  else take PRECISION m.

Lemma fit_mantissa_length m : length (fit_mantissa m) = PRECISION.
Proof.
  unfold fit_mantissa. destruct (Nat.ltb_spec (length m) PRECISION).
  - rewrite length_app, length_replicate. lia.
  - rewrite length_take. lia.
Qed.

Lemma fit_mantissa_digits m : digits m -> digits (fit_mantissa m).
Proof.
  intros Hm. unfold fit_mantissa. destruct (_ <? _)%nat.
  - apply Forall_app; split; [done|]. by apply Forall_replicate.
  - by apply Forall_take.
Qed.

(** Padding or truncating the mantissa is truncation of its value to 18 digits. *)
Lemma fit_mantissa_value m :
  digits m -> parse_dec (fit_mantissa m) = parse_dec m * DIGITS / 10 ^ Z.of_nat (length m).
Proof.
  intros Hm. unfold fit_mantissa, PRECISION. rewrite DIGITS_eq.
  destruct (Nat.ltb_spec (length m) 18).
  - rewrite parse_dec_trailing.
    replace (10 ^ 18) with (10 ^ Z.of_nat (18 - length m) * 10 ^ Z.of_nat (length m)).
    + rewrite Z.mul_assoc, Z.div_mul; [done|]. apply Z.pow_nonzero; lia.
    + rewrite <- Z.pow_add_r by lia. f_equal. lia.
  - pose proof (parse_dec_bound _ (Forall_drop _ 18 _ Hm)) as Hb.
    rewrite length_drop in Hb.
    rewrite <- (take_drop 18 m) at 2. unfold parse_dec at 2.
    rewrite parse_base_app, length_drop.
    replace (Z.of_nat (length m)) with (Z.of_nat (length m - 18) + 18) by lia.
    rewrite Z.pow_add_r, Z.div_mul_cancel_r by (try apply Z.pow_nonzero; lia).
    fold (parse_dec (take 18 m)) (parse_dec (drop 18 m)).
    rewrite Z.add_comm, Z.div_add, Z.div_small by (try apply Z.pow_nonzero; lia). lia.
Qed.

Lemma fromString_chars l : fromString (text l) = fromString_fuel (S (length l)) l.
Proof. unfold fromString. by rewrite chars_text. Qed.

Lemma fuel_plain fuel l :
  digits l -> l <> [] -> fromString_fuel (S fuel) l = Ok (dec (parse_dec l * DIGITS)).
Proof.
  intros Hl Hne. cbn [fromString_fuel].
  rewrite bool_decide_false, format_plain by done. cbn [orb negb].
  rewrite (proj2 (includes_false "e" l)) by (apply digits_avoid; done).
  rewrite (proj2 (includes_false "." l)) by (apply digits_avoid; done). cbn [negb].
  rewrite BigNumber_from_digits, bind_Ok by done. apply new_Decimal_nonneg.
  pose proof (parse_dec_bound l Hl). pose proof DIGITS_pos. lia.
Qed.

Lemma fuel_point fuel l m :
  digits l -> digits m ->
  fromString_fuel (S fuel) (l ++ "."%char :: m) =
  Ok (dec (parse_dec l * DIGITS + parse_dec m * DIGITS / 10 ^ Z.of_nat (length m))).
Proof.
  intros Hl Hm. cbn [fromString_fuel].
  rewrite bool_decide_false by (by destruct l).
  rewrite format_point by done. cbn [orb negb].
  rewrite !includes_app, !includes_cons.
  rewrite !(proj2 (includes_false "e" _)) by (apply digits_avoid; done).
  rewrite (Ascii.eqb_refl "."), orb_true_r. cbn [orb negb].
  change (Ascii.eqb "e" ".") with false. cbn [orb].
  rewrite split_pair_app by (apply digits_avoid; done). unfold default, from_option, id.
  fold (fit_mantissa m).
  rewrite (BigNumber_from_digits (fit_mantissa m)).
  2: by apply fit_mantissa_digits.
  2: { intros H%(f_equal length). rewrite fit_mantissa_length in H. done. }
  assert ((if bool_decide (l = []) then Ok 0 else BigNumber_from l) = Ok (parse_dec l)) as ->.
  { case_bool_decide; [by subst | by apply BigNumber_from_digits]. }
  rewrite !bind_Ok, fit_mantissa_value by done. apply new_Decimal_nonneg.
  pose proof (parse_dec_bound l Hl). pose proof (parse_dec_bound m Hm).
  pose proof DIGITS_pos.
  assert (0 <= parse_dec m * DIGITS / 10 ^ Z.of_nat (length m)).
  { apply Z.div_pos; [nia|]. apply Z.pow_pos_nonneg; lia. }
  nia.
Qed.

(** ** Grammar

    [coefficient s v]: [s] is a decimal without exponent and [v] its value in
    units of 10^-18, truncated.  [representation s v] adds the exponent, which
    scales the truncated coefficient. *)

Inductive coefficient : list ascii -> Z -> Prop :=
| coefficient_plain l :
    digits l -> l <> [] -> coefficient l (parse_dec l * DIGITS)
| coefficient_point l m :
    digits l -> digits m ->
    coefficient (l ++ "."%char :: m)
      (parse_dec l * DIGITS + parse_dec m * DIGITS / 10 ^ Z.of_nat (length m)).

Inductive representation : list ascii -> Z -> Prop :=
| representation_coefficient l v :
    coefficient l v -> representation l v
| representation_scaled l v x :
    coefficient l v -> digits x -> x <> [] ->
    representation (l ++ "e"%char :: x) (v * 10 ^ parse_dec x)
| representation_plus l v x :
    coefficient l v -> digits x -> x <> [] ->
    representation (l ++ "e"%char :: "+"%char :: x) (v * 10 ^ parse_dec x)
| representation_minus l v x :
    coefficient l v -> digits x -> x <> [] ->
    representation (l ++ "e"%char :: "-"%char :: x) (v / 10 ^ parse_dec x).

Lemma coefficient_nonneg l v : coefficient l v -> 0 <= v.
Proof.
  pose proof DIGITS_pos. destruct 1 as [l Hl _|l m Hl Hm].
  - pose proof (parse_dec_bound l Hl). nia.
  - pose proof (parse_dec_bound l Hl). pose proof (parse_dec_bound m Hm).
    assert (0 <= parse_dec m * DIGITS / 10 ^ Z.of_nat (length m)).
    { apply Z.div_pos; [nia|]. apply Z.pow_pos_nonneg; lia. }
    nia.
Qed.

Lemma fuel_coefficient fuel l v : coefficient l v -> fromString_fuel (S fuel) l = Ok (dec v).
Proof. destruct 1; [by apply fuel_plain | by apply fuel_point]. Qed.

Lemma coefficient_no_e l v : coefficient l v -> Forall (fun c => c <> "e"%char) l.
Proof.
  destruct 1; [by apply digits_avoid|].
  apply Forall_app; split; [by apply digits_avoid|].
  constructor; [done | by apply digits_avoid].
Qed.

Lemma coefficient_nonempty l v : coefficient l v -> l <> [].
Proof. destruct 1 as [|l m]; [done | by destruct l]. Qed.

(** Exponents the regular expression admits. *)
Definition exponent_part (x : list ascii) : list ascii :=
  if starts_with "-" x || starts_with "+" x then drop 1 x else x.

Lemma format_inv s :
  stringRepresentationFormat s = true ->
  exists l rest, s = l ++ rest /\ digits l /\
    (rest = [] \/
     (exists m, rest = "."%char :: m /\ digits m) \/
     (exists x, rest = "e"%char :: x /\ digits (exponent_part x) /\ exponent_part x <> []) \/
     (exists m x, rest = "."%char :: m ++ "e"%char :: x /\ digits m /\
        digits (exponent_part x) /\ exponent_part x <> [])).
Proof.
  unfold stringRepresentationFormat.
  destruct (drop_while_suffix is_digit s) as (l & Hs & Hl).
  set (rest := drop_while is_digit s) in *. intros H.
  exists l, rest. split; [done|]. split; [done|].
  assert (Htail : forall t, (if starts_with "e" t then
      negb (bool_decide (exponent_part (drop 1 t) = [])) && forallb is_digit (exponent_part (drop 1 t))
      else bool_decide (t = [])) = true ->
      t = [] \/ exists x, t = "e"%char :: x /\ digits (exponent_part x) /\ exponent_part x <> []).
  { intros t Ht. destruct (starts_with "e" t) eqn:He.
    - right. apply starts_with_spec in He as [x ->]. exists x. split; [done|].
      cbn [drop] in Ht. rewrite drop_0 in Ht. apply andb_true_iff in Ht as [H1 H2].
      apply negb_true_iff, bool_decide_eq_false in H1. by apply digits_forallb in H2.
    - left. by apply bool_decide_eq_true in Ht. }
  destruct (starts_with "." rest) eqn:Hp.
  - apply starts_with_spec in Hp as [t Ht]. rewrite Ht in *.
    cbn [drop] in H. rewrite drop_0 in H.
    destruct (drop_while_suffix is_digit t) as (m & Hm & Hmd).
    destruct (Htail _ H) as [Hnil|(x & Hx & Hxd)].
    + right; left. exists m. rewrite Hnil, app_nil_r in Hm. by subst.
    + right; right; right. exists m, x. rewrite Hx in Hm. by subst.
  - destruct (Htail _ H) as [Hnil|(x & Hx & Hxd)]; [by left|].
    right; right; left. by exists x.
Qed.

Lemma drop_while_coefficient_e l v x :
  coefficient l v ->
  (let r := drop_while is_digit (l ++ "e"%char :: x) in
   if starts_with "." r then drop_while is_digit (drop 1 r) else r) = "e"%char :: x.
Proof.
  destruct 1 as [l Hl _|l m Hl Hm]; cbv zeta.
  - by rewrite drop_while_digits.
  - rewrite <- app_assoc, drop_while_digits by done.
    cbn [app drop_while]. change (is_digit ".") with false.
    cbn [starts_with drop]. rewrite Ascii.eqb_refl, drop_0.
    by rewrite drop_while_digits.
Qed.

Lemma format_exponent l v x :
  coefficient l v -> digits (exponent_part x) -> exponent_part x <> [] ->
  stringRepresentationFormat (l ++ "e"%char :: x) = true.
Proof.
  intros Hc Hd Hne. unfold stringRepresentationFormat.
  pose proof (drop_while_coefficient_e l v x Hc) as Hr. cbv zeta in Hr. rewrite Hr.
  cbn [starts_with drop]. rewrite Ascii.eqb_refl, drop_0. fold (exponent_part x).
  rewrite bool_decide_false by done. by apply digits_forallb.
Qed.

Lemma exponent_part_no_e x : digits (exponent_part x) -> Forall (fun c => c <> "e"%char) x.
Proof.
  unfold exponent_part. destruct (starts_with "-" x) eqn:Hm; cbn [orb].
  { apply starts_with_spec in Hm as [x' ->]. cbn [drop]. rewrite drop_0.
    constructor; [done | by apply digits_avoid]. }
  destruct (starts_with "+" x) eqn:Hp.
  { apply starts_with_spec in Hp as [x' ->]. cbn [drop]. rewrite drop_0.
    constructor; [done | by apply digits_avoid]. }
  by apply digits_avoid.
Qed.

(** The value of a coefficient with an exponent, by the sign of the exponent. *)
Definition scale (v : Z) (x : list ascii) : Z :=
  if starts_with "-" x then v / 10 ^ parse_dec (drop 1 x)
  else v * 10 ^ parse_dec (exponent_part x).

Lemma fuel_exponent fuel l v x :
  coefficient l v -> digits (exponent_part x) -> exponent_part x <> [] ->
  fromString_fuel (S (S fuel)) (l ++ "e"%char :: x) = Ok (dec (scale v x)).
Proof.
  intros Hc Hd Hne. pose proof (coefficient_nonneg l v Hc).
  assert (0 <= parse_dec (exponent_part x)) by (by apply parse_dec_bound).
  remember (S fuel) as fuel' eqn:Hf. cbn [fromString_fuel].
  rewrite bool_decide_false by (by destruct l).
  rewrite (format_exponent l v x) by done. cbn [orb negb].
  rewrite includes_app, includes_cons, Ascii.eqb_refl, orb_true_r.
  rewrite split_pair_app by eauto using coefficient_no_e, exponent_part_no_e.
  unfold default, from_option, id. subst fuel'.
  rewrite (fuel_coefficient fuel l v Hc). unfold scale, exponent_part in *.
  destruct (starts_with "-" x); cbn [orb] in *;
    rewrite (BigNumber_from_digits _ Hd Hne), !bind_Ok, bn_dec by done;
    apply new_Decimal_nonneg.
  - apply Z.div_pos; [done|]. apply Z.pow_pos_nonneg; lia.
  - apply Z.mul_nonneg_nonneg; [done|]. apply Z.pow_nonneg. lia.
Qed.

Lemma representation_exponent l v x :
  coefficient l v -> digits (exponent_part x) -> exponent_part x <> [] ->
  representation (l ++ "e"%char :: x) (scale v x).
Proof.
  intros Hc Hd Hne. unfold scale, exponent_part in *.
  destruct (starts_with "-" x) eqn:Hm; cbn [orb] in *.
  { apply starts_with_spec in Hm as [x' ->]. cbn [drop] in *. rewrite drop_0 in *.
    by constructor. }
  destruct (starts_with "+" x) eqn:Hp; [|by constructor].
  apply starts_with_spec in Hp as [x' ->]. cbn [drop] in *. rewrite drop_0 in *.
  by constructor.
Qed.

(** Every representation is a coefficient, or a coefficient with an exponent. *)
Lemma representation_inv s w :
  representation s w ->
  coefficient s w \/
  exists l v x, s = l ++ "e"%char :: x /\ coefficient l v /\
    digits (exponent_part x) /\ exponent_part x <> [] /\ w = scale v x.
Proof.
  assert (Hsign : forall c x, digits x -> Ascii.eqb c "+" = true \/ Ascii.eqb c "-" = true ->
    exponent_part (c :: x) = x).
  { intros c x Hx [->%Ascii.eqb_eq| ->%Ascii.eqb_eq]; unfold exponent_part; cbn; by rewrite drop_0. }
  assert (Hplain : forall c x, digits x -> x <> [] -> is_digit c = false -> starts_with c x = false).
  { intros c x Hx Hne Hc. rewrite <- (app_nil_r x). by apply starts_with_not_digit. }
  destruct 1 as [l v Hc|l v x Hc Hx Hne|l v x Hc Hx Hne|l v x Hc Hx Hne]; [by left|..];
    right; eexists l, v, _; (split; [done|]); (split; [done|]); unfold scale.
  - unfold exponent_part. by rewrite !Hplain.
  - by rewrite Hsign by eauto.
  - rewrite Hsign by eauto. cbn [starts_with drop]. rewrite Ascii.eqb_refl. by rewrite drop_0.
Qed.

Lemma fuel_representation fuel s w :
  representation s w -> fromString_fuel (S (S fuel)) s = Ok (dec w).
Proof.
  intros [Hc|(l & v & x & -> & Hc & Hd & Hne & ->)]%representation_inv.
  - by apply fuel_coefficient.
  - by apply fuel_exponent.
Qed.

Lemma representation_nonneg s w : representation s w -> 0 <= w.
Proof.
  intros H. destruct H as [l v Hc|l v x Hc Hx Hne|l v x Hc Hx Hne|l v x Hc Hx Hne];
    pose proof (coefficient_nonneg l v Hc); try done;
    pose proof (parse_dec_bound x Hx).
  - apply Z.mul_nonneg_nonneg; [done|]. apply Z.pow_nonneg. lia.
  - apply Z.mul_nonneg_nonneg; [done|]. apply Z.pow_nonneg. lia.
  - apply Z.div_pos; [done|]. apply Z.pow_pos_nonneg; lia.
Qed.

(** What the parser accepts is in the grammar. *)
Lemma fuel_complete fuel s d :
  fromString_fuel (S (S fuel)) s = Ok d -> exists w, representation s w.
Proof.
  intros H. assert (Hs : s <> [] /\ stringRepresentationFormat s = true).
  { cbn [fromString_fuel] in H. case_bool_decide; [done|].
    destruct (stringRepresentationFormat s); [done | discriminate]. }
  destruct Hs as [Hne Hf].
  destruct (format_inv s Hf) as (l & rest & -> & Hl & Hrest).
  destruct Hrest as [->|[(m & -> & Hm)|[(x & -> & Hx & Hxe)|(m & x & -> & Hm & Hx & Hxe)]]].
  - rewrite app_nil_r in *. eexists. by apply representation_coefficient, coefficient_plain.
  - eexists. by apply representation_coefficient, coefficient_point.
  - destruct (decide (l = [])) as [->|Hl0].
    + exfalso. remember (S fuel) as f eqn:Hfuel. cbn [fromString_fuel app] in *.
      rewrite bool_decide_false, Hf in H by done. cbn [orb negb] in H.
      rewrite includes_cons, Ascii.eqb_refl in H. cbn [orb] in H.
      pose proof (split_pair_app "e" [] x ltac:(constructor) (exponent_part_no_e x Hx)) as Hsp.
      cbn [app] in Hsp. rewrite Hsp in H.
      subst f. cbn in H. by destruct (starts_with "-" x).
    + eexists. by apply representation_exponent; [apply coefficient_plain|..].
  - eexists. rewrite app_comm_cons, app_assoc.
    by apply representation_exponent; [apply coefficient_point|..].
Qed.

Lemma representation_nonempty s w : representation s w -> s <> [].
Proof.
  intros [H%coefficient_nonempty|(l & ? & ? & -> & ?)]%representation_inv; [done | by destruct l].
Qed.

Lemma fromString_representation s d :
  representation s (bn d) -> fromString (text s) = Ok d.
Proof.
  intros H. rewrite fromString_chars. pose proof (representation_nonempty _ _ H).
  destruct s as [|c s]; [done|]. change (length (c :: s)) with (S (length s)).
  rewrite (fuel_representation _ _ _ H). by rewrite dec_bn.
Qed.

(** C25: [Decimal.from(string)] parses exactly the decimal literals of the
    grammar (an optional integer part, an optional fraction, an optional
    exponent after a non-empty coefficient) and returns their value with the
    coefficient truncated to 18 fractional digits; every other string throws. *)
Theorem fromString_spec (s : list ascii) (d : Decimal) :
  fromString (text s) = Ok d <-> representation s (bn d).
Proof.
  split; [|apply fromString_representation]. rewrite fromString_chars.
  destruct s as [|c s]; [discriminate|]. change (length (c :: s)) with (S (length s)).
  intros H. destruct (fuel_complete _ _ _ H) as [w Hw].
  rewrite (fuel_representation _ _ _ Hw) in H. inversion H.
  by rewrite bn_dec by eauto using representation_nonneg.
Qed.

(** ** Round trips *)

Lemma mantissa_bound d : 0 <= bn d mod DIGITS < 10 ^ 18.
Proof. apply Z.mod_pos_bound. apply DIGITS_pos. Qed.

Lemma characteristic_nonneg n : 0 <= n -> 0 <= n / DIGITS.
Proof. intros. pose proof DIGITS_pos. apply Z.div_pos; lia. Qed.

Lemma padded_length n :
  0 <= n < DIGITS -> length (padStart PRECISION "0" (print_dec n)) = PRECISION.
Proof. intros Hn. apply padStart_length, print_dec_length; [exact Hn | done]. Qed.

Lemma padded_digits n : digits (padStart PRECISION "0" (print_dec n)).
Proof. apply padStart_digits, print_dec_digits. Qed.

Lemma padded_value n : 0 <= n -> parse_dec (padStart PRECISION "0" (print_dec n)) = n.
Proof. intros. rewrite padStart_parse. by apply parse_print_dec. Qed.

(** Trimming the trailing zeros of an 18-digit mantissa keeps its value. *)
Lemma trimmed_value m :
  digits m -> length m = PRECISION ->
  digits (trim_trailing_zeros m) /\
  parse_dec (trim_trailing_zeros m) * DIGITS / 10 ^ Z.of_nat (length (trim_trailing_zeros m))
  = parse_dec m.
Proof.
  intros Hm Hlen. destruct (trim_trailing_zeros_spec m) as [k Hk].
  set (t := trim_trailing_zeros m) in *.
  rewrite Hk in Hm. apply Forall_app in Hm as [Ht _]. split; [done|].
  rewrite Hk in Hlen. rewrite length_app, length_replicate in Hlen.
  rewrite Hk, parse_dec_trailing, DIGITS_eq. unfold PRECISION in Hlen.
  replace 18 with (Z.of_nat k + Z.of_nat (length t)) by lia.
  rewrite Z.pow_add_r, Z.mul_assoc, Z.div_mul by (try apply Z.pow_nonzero; lia). done.
Qed.

(** C31: printing a finite decimal and parsing the result gives it back. *)
Theorem toString_fromString (d : Decimal) :
  bn d <> bn INFINITY -> (let! s := toString d None in fromString s) = Ok d.
Proof.
  intros Hfin. unfold toString, toString_chars, infinite.
  rewrite (proj2 (Z.eqb_neq _ _)) by done. rewrite bool_decide_false by (by intros [? [=]]).
  cbn [fmap result_fmap bind]. apply fromString_representation.
  unfold _toStringWithAutomaticPrecision, bn_toString.
  pose proof (bn_nonneg d) as Hd. pose proof (mantissa_bound d) as Hm.
  pose proof (characteristic_nonneg _ Hd) as Hc. pose proof DIGITS_pos.
  pose proof (Z.div_mod (bn d) DIGITS ltac:(lia)) as Hdm.
  apply representation_coefficient. case_Zb.
  - replace (bn d) with (parse_dec (print_dec (bn d / DIGITS)) * DIGITS) at 2.
    + constructor; [apply print_dec_digits | apply print_dec_nonempty].
    + rewrite parse_print_dec by done. lia.
  - destruct (trimmed_value (padStart PRECISION "0" (print_dec (bn d mod DIGITS)))) as [Ht Hv].
    { apply padded_digits. } { by apply padded_length. }
    rewrite padded_value in Hv by lia.
    replace (bn d) with (parse_dec (print_dec (bn d / DIGITS)) * DIGITS + bn d mod DIGITS) at 3.
    + rewrite <- Hv at 2. constructor; [apply print_dec_digits | done].
    + rewrite parse_print_dec by done. lia.
Qed.

Lemma print_hex_digits n : forallb is_hex_digit (print_base 16 n) = true.
Proof.
  apply forallb_forall. intros c Hc%list_elem_of_In.
  pose proof (print_base_fuel_Forall (fun c => is_hex_digit c = true)
    (S (Z.to_nat (Z.log2 n))) 16 n [] ltac:(lia) is_hex_digit_char ltac:(constructor)) as HF.
  rewrite Forall_forall in HF. by apply HF.
Qed.

Lemma BigNumber_from_hex n : 0 <= n -> BigNumber_from (chars (toHexString n)) = Ok n.
Proof.
  intros Hn. unfold toHexString. rewrite chars_text. unfold BigNumber_from.
  change (starts_with "-" (chars "0x" ++ _)) with false. cbv iota. unfold BigNumber_magnitude.
  set (ds := if Nat.even _ then _ else _).
  assert (Hds : ds <> [] /\ forallb is_hex_digit ds = true /\ parse_base 16 ds = n).
  { unfold ds. pose proof (print_base_nonempty 16 n). pose proof (print_hex_digits n).
    pose proof (parse_print_base 16 n ltac:(lia) Hn) as Hp. destruct (Nat.even _); [done|].
    split; [done|]. split; [done|]. rewrite parse_base_cons, Hp.
    change (digit_val "0") with 0. lia. }
  destruct Hds as (Hne & Hhex & Hv).
  change (drop 1 (chars "0x" ++ ds)) with ("x"%char :: ds).
  change (drop 2 (chars "0x" ++ ds)) with (drop 0 ds). rewrite drop_0.
  cbn [chars String.list_ascii_of_string app starts_with]. rewrite !Ascii.eqb_refl. cbn [andb].
  by rewrite bool_decide_false, Hhex, Hv.
Qed.

(** The hexadecimal form in which decimals are passed to contracts decodes
    back to the same decimal, infinity included. *)
Theorem hex_roundtrip (d : Decimal) : fromBigNumberString (hex d) = Ok d.
Proof.
  unfold fromBigNumberString, hex. rewrite BigNumber_from_hex by apply bn_nonneg.
  rewrite bind_Ok. apply new_Decimal_bn.
Qed.

(** The text of a negative number is read, and the constructor refuses it. *)
Lemma negative_refused : fromBigNumberString "-5" = Throw (Error "negatives not supported by Decimal").
Proof. reflexivity. Qed.

(** ** Rounding to a precision *)

Lemma take_value m k :
  digits m -> length m = PRECISION -> (k <= PRECISION)%nat ->
  parse_dec (take k m) = parse_dec m / 10 ^ Z.of_nat (PRECISION - k).
Proof.
  intros Hm Hlen Hk. pose proof (parse_dec_bound _ (Forall_drop _ k _ Hm)) as Hb.
  rewrite <- (take_drop k m) at 2. unfold parse_dec at 2. rewrite parse_base_app, length_drop, Hlen.
  fold (parse_dec (take k m)) (parse_dec (drop k m)). rewrite length_drop, Hlen in Hb.
  rewrite Z.add_comm, Z.div_add, Z.div_small by (try apply Z.pow_nonzero; lia). lia.
Qed.

Lemma precision_unit p : 0 <= p < 18 ->
  10 ^ p * (10 * getDigits (17 - p)) = DIGITS /\ 0 < getDigits (17 - p) /\
  getDigits (17 - p) * 10 = 10 ^ (18 - p).
Proof.
  intros Hp. unfold getDigits. rewrite DIGITS_eq.
  assert (H1 : 10 * 10 ^ (17 - p) = 10 ^ (18 - p)).
  { rewrite <- Z.pow_succ_r by lia. f_equal. lia. }
  rewrite H1. repeat split; [|apply Z.pow_pos_nonneg; lia|lia].
  rewrite <- Z.pow_add_r by lia. f_equal. lia.
Qed.

Lemma quotient_split v u P :
  0 < u -> 0 < P -> v / (u * P) * (u * P) + v mod (u * P) / u * u = v / u * u.
Proof.
  intros Hu HP. rewrite (Z.rem_mul_r v u P), (Z.mul_comm u ((v / u) mod P)) by lia.
  rewrite Z.div_add, (Z.div_small (v mod u)) by (try apply Z.mod_pos_bound; lia).
  rewrite <- Z.div_div by lia. pose proof (Z.div_mod (v / u) P ltac:(lia)). nia.
Qed.

(** The value printed with [p] fractional digits. *)
Definition rounded (d : Decimal) (p : Z) : Z :=
  (bn d + 5 * getDigits (17 - p)) / 10 ^ (18 - p) * 10 ^ (18 - p).

Lemma rounded_representation d p :
  0 <= p < 18 -> exists l, _toStringWithPrecision d p = Ok l /\ representation l (rounded d p).
Proof.
  intros Hp. pose proof (bn_nonneg d). destruct (precision_unit p Hp) as (Hu & Hg & Hu').
  unfold _toStringWithPrecision. rewrite (proj2 (Z.ltb_ge _ _)) by lia.
  change (Z.of_nat PRECISION) with 18. rewrite (proj2 (Z.ltb_lt _ _)) by lia.
  unfold _roundUp. change (Z.of_nat PRECISION - 1 - p) with (17 - p).
  set (v := bn d + _). assert (Hv : rounded d p = v / 10 ^ (18 - p) * 10 ^ (18 - p)).
  { unfold rounded, v. do 2 f_equal. lia. }
  assert (Hv0 : 0 <= v) by lia. pose proof DIGITS_pos. cbv zeta. case_Zb.
  - eexists. split; [done|]. subst p. rewrite Hv.
    apply representation_coefficient. change (10 ^ (18 - 0)) with (10 ^ 18).
    rewrite <- DIGITS_eq.
    rewrite <- (parse_print_dec (v / DIGITS)) at 2 by (apply Z.div_pos; lia).
    constructor; [apply print_dec_digits | apply print_dec_nonempty].
  - eexists. split; [done|].
    pose proof (Z.mod_pos_bound v DIGITS ltac:(lia)) as Hm.
    pose proof (padded_length _ Hm) as Hlen. pose proof (padded_digits (v mod DIGITS)) as Hdg.
    set (m := padStart _ _ _) in *. unfold bn_toString.
    assert (Hval : rounded d p = parse_dec (print_dec (v / DIGITS)) * DIGITS +
      parse_dec (take (Z.to_nat p) m) * DIGITS / 10 ^ Z.of_nat (length (take (Z.to_nat p) m))).
    { rewrite parse_print_dec by (apply Z.div_pos; lia).
      rewrite take_value by (unfold PRECISION; lia || done).
      unfold m. rewrite padded_value by lia. fold m.
      rewrite length_take, Hlen. unfold PRECISION.
      replace (Z.of_nat (Nat.min (Z.to_nat p) 18)) with p by lia.
      replace (Z.of_nat (18 - Z.to_nat p)) with (18 - p) by lia.
      rewrite Hv, <- Hu, <- Hu'. set (u := getDigits (17 - p) * 10) in *.
      replace (10 ^ p * (10 * getDigits (17 - p))) with (u * 10 ^ p) by (unfold u; ring).
      assert (0 < 10 ^ p) by (apply Z.pow_pos_nonneg; lia).
      rewrite <- (quotient_split v u (10 ^ p)) by lia. f_equal.
      rewrite (Z.mul_comm u), Z.mul_assoc, <- Z.mul_assoc, (Z.mul_comm (10 ^ p)), Z.mul_assoc.
      by rewrite Z.div_mul by lia. }
    rewrite Hval. apply representation_coefficient. constructor; [apply print_dec_digits|].
    by apply Forall_take.
Qed.

(** [toString(precision)] of a finite decimal prints a multiple of the last
    printed digit that is within half a unit of it, ties upwards. *)
Theorem toString_precision (d : Decimal) (p : Z) :
  bn d <> bn INFINITY -> 0 <= p < 18 ->
  exists r, (let! s := toString d (Some p) in fromString s) = Ok r /\
    (10 ^ (18 - p) | bn r) /\
    bn d - 5 * 10 ^ (17 - p) < bn r <= bn d + 5 * 10 ^ (17 - p).
Proof.
  intros Hfin Hp. destruct (rounded_representation d p Hp) as (l & Hl & Hr).
  pose proof (representation_nonneg _ _ Hr) as Hnn.
  exists (dec (rounded d p)). unfold toString, toString_chars, infinite.
  rewrite (proj2 (Z.eqb_neq _ _)) by done. rewrite bool_decide_false by (by intros [? [=]]).
  rewrite Hl. cbn [fmap result_fmap bind]. rewrite bn_dec by done. split; [|split].
  - apply fromString_representation. by rewrite bn_dec.
  - apply Z.divide_factor_r.
  - destruct (precision_unit p Hp) as (_ & Hg & Hu). unfold rounded, getDigits in *.
    set (g := 10 ^ (17 - p)) in *. rewrite <- Hu.
    pose proof (Z.div_mod (bn d + 5 * g) (g * 10) ltac:(lia)).
    pose proof (Z.mod_pos_bound (bn d + 5 * g) (g * 10) ltac:(lia)). lia.
Qed.

(** The infinite decimal prints as a symbol that does not parse. *)
Lemma infinity_not_parsed p :
  (let! s := toString INFINITY p in fromString s) = Throw (bad_format (chars "∞")).
Proof. reflexivity. Qed.

Lemma toString_fromString_witness :
  (let! s := toString (dec 1234500000000000000) None in fromString s) = Ok (dec 1234500000000000000).
Proof. apply toString_fromString. vm_compute. discriminate. Defined.

Lemma toString_precision_witness :
  exists r, (let! s := toString (dec 1234500000000000000) (Some 3) in fromString s) = Ok r /\
    (10 ^ (18 - 3) | bn r) /\
    bn (dec 1234500000000000000) - 5 * 10 ^ (17 - 3) < bn r
      <= bn (dec 1234500000000000000) + 5 * 10 ^ (17 - 3).
Proof. apply toString_precision; [vm_compute; discriminate | lia]. Defined.
