(* ===== verification/DecimalPow.v ===== *)
(** * Accuracy of [Decimal.pow]

    Square-and-multiply with rounding at every product stays within a known
    number of units in the last place of exact exponentiation. *)

From S2P Require Import Prelude LibDecimal.
Import Decimal.
Local Open Scope Z_scope.

Lemma roundedMul_error x y : Z.abs (2 * (roundedMul x y * DIGITS - x * y)) <= DIGITS.
Proof.
  unfold roundedMul. pose proof DIGITS_pos. pose proof bn_HALF_double.
  pose proof (Z.div_mod (x * y + bn HALF) DIGITS ltac:(lia)).
  pose proof (Z.mod_pos_bound (x * y + bn HALF) DIGITS ltac:(lia)). lia.
Qed.

Lemma roundedMul_nonneg x y : 0 <= x -> 0 <= y -> 0 <= roundedMul x y.
Proof.
  intros. pose proof DIGITS_pos. pose proof bn_HALF_double.
  apply Z.div_pos; nia.
Qed.

Lemma roundedMul_le x y : 0 <= x <= DIGITS -> 0 <= y <= DIGITS -> roundedMul x y <= DIGITS.
Proof.
  intros Hx Hy. pose proof DIGITS_pos. pose proof bn_HALF_double.
  apply div_le_iff; nia.
Qed.

Lemma roundedMul_one x : roundedMul x DIGITS = x.
Proof.
  unfold roundedMul. pose proof DIGITS_pos. pose proof bn_HALF_double.
  rewrite Z.div_add_l, Z.div_small by lia. lia.
Qed.

(** ** The approximation invariant

    [approx X k a c]: [a] approximates [X^k / DIGITS^(k-1)] within [c] half
    units, and does not exceed one. *)
Definition approx (X : Z) (k : nat) (a c : Z) : Prop :=
  0 <= a <= DIGITS /\
  Z.abs (2 * (a * DIGITS ^ Z.of_nat k - X ^ Z.of_nat k * DIGITS)) <= c * DIGITS ^ Z.of_nat k.

Lemma approx_one X : 0 <= X <= DIGITS -> approx X 1 X 0.
Proof. intros HX. split; [done|]. change (Z.of_nat 1) with 1. rewrite !Z.pow_1_r. lia. Qed.

Lemma pow_le_DIGITS X k : 0 <= X <= DIGITS -> 0 <= X ^ Z.of_nat k <= DIGITS ^ Z.of_nat k.
Proof. intros. split; [apply Z.pow_nonneg; lia | apply Z.pow_le_mono_l; lia]. Qed.

Lemma approx_mul X i j a b ca cb :
  0 <= X <= DIGITS -> 0 <= ca -> 0 <= cb ->
  approx X i a ca -> approx X j b cb -> approx X (i + j) (roundedMul a b) (ca + cb + 1).
Proof.
  intros HX Hca Hcb [Ha Ea] [Hb Eb]. split.
  { split; [apply roundedMul_nonneg; lia | by apply roundedMul_le]. }
  pose proof (roundedMul_error a b) as Er. pose proof DIGITS_pos as HD.
  pose proof (pow_le_DIGITS X j HX) as HXj.
  rewrite Nat2Z.inj_add, !Z.pow_add_r by lia.
  assert (HDi : 0 < DIGITS ^ Z.of_nat i) by (apply Z.pow_pos_nonneg; lia).
  assert (HDj : 0 < DIGITS ^ Z.of_nat j) by (apply Z.pow_pos_nonneg; lia).
  set (r := roundedMul a b) in *. set (D := DIGITS) in *.
  set (Di := D ^ Z.of_nat i) in *. set (Dj := D ^ Z.of_nat j) in *.
  set (Xi := X ^ Z.of_nat i) in *. set (Xj := X ^ Z.of_nat j) in *.
  (* multiply by D and split the error into rounding and operand parts *)
  assert (Hid : 2 * (r * (Di * Dj) - Xi * Xj * D) * D =
    2 * (r * D - a * b) * (Di * Dj) + a * Di * (2 * (b * Dj - Xj * D))
    + Xj * D * (2 * (a * Di - Xi * D))) by ring.
  assert (H1 : Z.abs (2 * (r * D - a * b) * (Di * Dj)) <= D * (Di * Dj)).
  { rewrite Z.abs_mul, (Z.abs_eq (Di * Dj)) by nia. apply Z.mul_le_mono_nonneg_r; [nia | done]. }
  assert (H2 : Z.abs (a * Di * (2 * (b * Dj - Xj * D))) <= D * Di * (cb * Dj)).
  { rewrite Z.abs_mul, (Z.abs_eq (a * Di)) by nia.
    apply Z.mul_le_mono_nonneg; [nia | nia | lia | done]. }
  assert (H3 : Z.abs (Xj * D * (2 * (a * Di - Xi * D))) <= Dj * D * (ca * Di)).
  { rewrite Z.abs_mul, (Z.abs_eq (Xj * D)) by nia.
    apply Z.mul_le_mono_nonneg; [nia | nia | lia | done]. }
  apply (Z.mul_le_mono_pos_r _ _ D HD).
  rewrite <- (Z.abs_eq D) at 2 by lia. rewrite <- Z.abs_mul, Hid.
  eapply Z.le_trans; [apply Z.abs_triangle|].
  pose proof (Z.abs_triangle (2 * (r * D - a * b) * (Di * Dj)) (a * Di * (2 * (b * Dj - Xj * D)))).
  lia.
Qed.

(** The accumulator of the loop: exactly one before the first multiplication. *)
Definition accumulated (X : Z) (j : nat) (y : Z) : Prop :=
  (j = 0%nat /\ y = DIGITS) \/ ((1 <= j)%nat /\ approx X j y (Z.of_nat j - 1)).

Lemma accumulated_mul X i j x y :
  0 <= X <= DIGITS -> (1 <= i)%nat ->
  approx X i x (Z.of_nat i - 1) -> accumulated X j y ->
  approx X (i + j) (roundedMul x y) (Z.of_nat (i + j) - 1).
Proof.
  intros HX Hi Hx [[-> ->]|[Hj Hy]].
  - rewrite roundedMul_one, Nat.add_0_r. done.
  - replace (Z.of_nat (i + j) - 1) with (Z.of_nat i - 1 + (Z.of_nat j - 1) + 1) by lia.
    apply approx_mul; auto; lia.
Qed.

Lemma pow_loop_approx X fuel e i j x y :
  0 <= X <= DIGITS -> 1 <= e -> Z.log2 e <= Z.of_nat fuel -> (1 <= i)%nat ->
  approx X i x (Z.of_nat i - 1) -> accumulated X j y ->
  let '(x', y') := pow_loop fuel e x y in
  let n := (i * Z.to_nat e + j)%nat in
  approx X n (roundedMul x' y') (Z.of_nat n - 1).
Proof.
  intros HX. revert e i j x y. induction fuel as [|fuel IH]; intros e i j x y He Hf Hi Hx Hy.
  { assert (e = 1) as ->.
    { destruct (Z.eq_dec e 1); [done|]. pose proof (Z.log2_pos e ltac:(lia)). lia. }
    cbn [pow_loop]. rewrite Nat.mul_1_r. by apply accumulated_mul. }
  cbn [pow_loop]. destruct (Z.ltb_spec 1 e).
  - rewrite Z.shiftr_div_pow2, Z.pow_1_r by lia.
    pose proof (Z.div_mod e 2 ltac:(lia)) as Hdm. pose proof (Z.mod_pos_bound e 2 ltac:(lia)).
    assert (Hlog : Z.log2 (e / 2) <= Z.of_nat fuel).
    { rewrite <- (Z.pow_1_r 2), <- Z.shiftr_div_pow2, Z.log2_shiftr by lia. lia. }
    assert (Hsq : approx X (i + i) (roundedMul x x) (Z.of_nat (i + i) - 1)).
    { apply accumulated_mul; auto. right. auto. }
    set (b := Z.testbit e 0). set (j' := if b then (i + j)%nat else j).
    assert (Hacc : accumulated X j' (if b then roundedMul x y else y)).
    { unfold j'. destruct b; [|done]. right. split; [lia|]. by apply accumulated_mul. }
    specialize (IH (e / 2) (i + i)%nat j' _ _ ltac:(lia) Hlog ltac:(lia) Hsq Hacc).
    assert (Hn : ((i + i) * Z.to_nat (e / 2) + j' = i * Z.to_nat e + j)%nat).
    { unfold j', b. rewrite Z.bit0_odd. rewrite Zmod_odd in Hdm.
      destruct (Z.odd e);
        [assert (Z.to_nat e = 2 * Z.to_nat (e / 2) + 1)%nat as -> by lia
        |assert (Z.to_nat e = 2 * Z.to_nat (e / 2))%nat as -> by lia]; lia. }
    rewrite <- Hn. exact IH.
  - assert (e = 1) as -> by lia. rewrite Nat.mul_1_r. by apply accumulated_mul.
Qed.

Lemma pow_approx (this : Decimal) (n : Z) :
  bn this <= DIGITS -> 1 <= n <= 4294967295 ->
  exists r, pow this n = Ok r /\ approx (bn this) (Z.to_nat n) (bn r) (n - 1).
Proof.
  intros Hx Hn. assert (HX : 0 <= bn this <= DIGITS) by (split; [apply bn_nonneg | done]).
  unfold pow. rewrite (proj2 (Z.leb_le 0 n)), (proj2 (Z.leb_le n _)) by lia.
  cbn [andb js_assert bind]. case_Zb; [lia|]. case_Zb.
  { subst n. exists this. split; [done|]. by apply approx_one. }
  pose proof (pow_loop_approx (bn this) (Z.to_nat (Z.log2 n)) n 1 0 (bn this) DIGITS HX
    ltac:(lia) ltac:(pose proof (Z.log2_nonneg n); lia) ltac:(lia) (approx_one _ HX)
    (or_introl (conj eq_refl eq_refl))) as H.
  destruct (pow_loop _ _ _ _) as [x y]. cbv zeta in H.
  rewrite Nat.mul_1_l, Nat.add_0_r, Z2Nat.id in H by lia.
  exists (dec (roundedMul x y)). destruct H as [Hb H]. rewrite bn_dec by lia.
  split; [apply new_Decimal_nonneg; lia | done].
Qed.

(** A power of a number of at most one is at most one. *)
Lemma pow_le_one (this : Decimal) (n : Z) :
  bn this <= DIGITS -> 0 <= n <= 4294967295 -> exists r, pow this n = Ok r /\ bn r <= DIGITS.
Proof.
  intros Hx Hn. destruct (Z.eq_dec n 0) as [->|Hn0].
  - exists ONE. split; [done | by rewrite bn_ONE].
  - destruct (pow_approx this n) as (r & Hr & Hb & _); [done | lia |]. exists r. split; [done | lia].
Qed.

(** C32: For a base of at most one and an exponent in the accepted range, [pow]
    returns a decimal of at most one within [(n - 1) / 2] units in the last
    place of the exact power (both sides scaled by [DIGITS ^ (n - 1)]). *)
Theorem pow_accuracy (this : Decimal) (n : Z) :
  bn this <= DIGITS -> 1 <= n <= 4294967295 ->
  exists r, pow this n = Ok r /\ bn r <= DIGITS /\
    Z.abs (2 * (bn r * DIGITS ^ (n - 1) - bn this ^ n)) <= (n - 1) * DIGITS ^ (n - 1).
Proof.
  intros Hx Hn. destruct (pow_approx this n Hx Hn) as (r & Hr & Hb & He).
  exists r. split; [done|]. split; [lia|].
  rewrite Z2Nat.id in He by lia. pose proof DIGITS_pos as HD.
  assert (Hp : DIGITS ^ n = DIGITS * DIGITS ^ (n - 1)).
  { rewrite <- Z.pow_succ_r by lia. f_equal. lia. }
  rewrite Hp in He. apply (Z.mul_le_mono_pos_r _ _ DIGITS HD).
  rewrite <- (Z.abs_eq DIGITS) at 2 by lia. rewrite <- Z.abs_mul.
  replace (2 * (bn r * DIGITS ^ (n - 1) - bn this ^ n) * DIGITS) with
    (2 * (bn r * (DIGITS * DIGITS ^ (n - 1)) - bn this ^ n * DIGITS)) by ring.
  lia.
Qed.

Lemma pow_accuracy_witness :
  exists r, pow (dec 999037758833783000) 43200 = Ok r /\ bn r <= DIGITS /\
    Z.abs (2 * (bn r * DIGITS ^ (43200 - 1) - bn (dec 999037758833783000) ^ 43200))
      <= (43200 - 1) * DIGITS ^ (43200 - 1).
Proof. apply pow_accuracy; [vm_compute; discriminate | lia]. Defined.
