(* ===== verification/Solidity.v ===== *)
(** * Contract arithmetic (contracts/contracts/Dependencies/SafeMath.sol, LiquityMath.sol)

    A [uint256] is a [Z] between 0 and [2^256]; the native operators wrap, which
    [wrap] writes out.  A failed [require] or [assert] reverts the whole
    transaction, so a contract function returns [result], and an error keeps no
    state.  Addresses are the checksummed strings the SDK sees. *)

From S2P Require Import Prelude LibDecimal DecimalPow.
Local Open Scope Z_scope.

(** ** Words, addresses and reverts *)

Definition UINT256 : Z := 2 ^ 256.
Definition wrap (x : Z) : Z := x mod UINT256.
Definition is_uint (x : Z) : Prop := 0 <= x < UINT256.

Definition address : Type := string.
Definition address0 : address := "0x0000000000000000000000000000000000000000".

Definition require (b : bool) (message : string) : result unit :=
  if b then Ok tt else Throw (Error message).

(** [uint(-1)] and [2**256 - 1] *)
Definition MAX_UINT : Z := UINT256 - 1.

(** ** SafeMath *)

Module SafeMath.

Definition add (a b : Z) : result Z :=
  let c := wrap (a + b) in
  let! _ := require (a <=? c) "SafeMath: addition overflow" in Ok c.

Definition sub (a b : Z) : result Z :=
  let! _ := require (b <=? a) "SafeMath: subtraction overflow" in Ok (wrap (a - b)).

Definition mul (a b : Z) : result Z :=
  if a =? 0 then Ok 0
  else
    let c := wrap (a * b) in
    let! _ := require (c / a =? b) "SafeMath: multiplication overflow" in Ok c.

Definition div (a b : Z) : result Z :=
  let! _ := require (0 <? b) "SafeMath: division by zero" in Ok (a / b).

End SafeMath.

(** ** LiquityMath *)

Module LiquityMath.

Definition DECIMAL_PRECISION : Z := 1000000000000000000.
Definition NICR_PRECISION : Z := 100000000000000000000.

Definition _min (a b : Z) : Z := if a <? b then a else b.
Definition _max (a b : Z) : Z := if b <=? a then a else b.

Definition decMul (x y : Z) : result Z :=
  let! prod_xy := SafeMath.mul x y in
  let! s := SafeMath.add prod_xy (DECIMAL_PRECISION / 2) in
  SafeMath.div s DECIMAL_PRECISION.

(** The loop runs until [n] is 1, so [Z.log2 n] rounds are enough [fuel]. *)
Fixpoint decPow_loop (fuel : nat) (x y n : Z) : result (Z * Z) :=
  match fuel with
  | O => Ok (x, y)
  | S fuel =>
      if 1 <? n then
        if n mod 2 =? 0 then
          let! x' := decMul x x in
          let! n' := SafeMath.div n 2 in
          decPow_loop fuel x' y n'
        else
          let! y' := decMul x y in
          let! x' := decMul x x in
          let! m := SafeMath.sub n 1 in
          let! n' := SafeMath.div m 2 in
          decPow_loop fuel x' y' n'
      else Ok (x, y)
  end.

Definition _decPow (_base _minutes : Z) : result Z :=
  let _minutes := if 525600000 <? _minutes then 525600000 else _minutes in
  if _minutes =? 0 then Ok DECIMAL_PRECISION
  else
    let! xy := decPow_loop (Z.to_nat (Z.log2 _minutes)) _base DECIMAL_PRECISION _minutes in
    decMul (fst xy) (snd xy).

Definition _getAbsoluteDifference (a b : Z) : result Z :=
  if b <=? a then SafeMath.sub a b else SafeMath.sub b a.

Definition _computeNominalCR (coll debt : Z) : result Z :=
  if 0 <? debt then let! n := SafeMath.mul coll NICR_PRECISION in SafeMath.div n debt
  else Ok MAX_UINT.

Definition _computeCR (coll debt price : Z) : result Z :=
  if 0 <? debt then let! n := SafeMath.mul coll price in SafeMath.div n debt
  else Ok MAX_UINT.

End LiquityMath.

(** ** When the arithmetic succeeds *)

Lemma UINT256_pos : 0 < UINT256.
Proof. reflexivity. Qed.

Lemma UINT256_big : 10 ^ 77 < UINT256.
Proof. reflexivity. Qed.

#[global] Opaque UINT256.

(** Literals and small products are words. *)
Lemma small_uint x : 0 <= x <= 10 ^ 77 -> is_uint x.
Proof. pose proof UINT256_big. unfold is_uint. lia. Qed.

Ltac word_literal := apply small_uint; split; vm_compute; discriminate.

Lemma wrap_small x : is_uint x -> wrap x = x.
Proof. intros [? ?]. unfold wrap. by apply Z.mod_small. Qed.

Lemma wrap_uint x : is_uint (wrap x).
Proof. unfold wrap, is_uint. pose proof UINT256_pos. apply Z.mod_pos_bound. lia. Qed.

Lemma add_cases a b : is_uint a -> is_uint b ->
  SafeMath.add a b =
  if a + b <? UINT256 then Ok (a + b) else Throw (Error "SafeMath: addition overflow").
Proof.
  intros Ha Hb. unfold SafeMath.add, is_uint in *. case_Zb.
  - rewrite wrap_small by (unfold is_uint; lia). by rewrite (proj2 (Z.leb_le _ _)) by lia.
  - assert (wrap (a + b) = a + b - UINT256) as ->.
    { unfold wrap. symmetry. apply Z.mod_unique with 1; lia. }
    by rewrite (proj2 (Z.leb_gt _ _)) by lia.
Qed.

Lemma sub_cases a b : is_uint a -> is_uint b ->
  SafeMath.sub a b = if b <=? a then Ok (a - b) else Throw (Error "SafeMath: subtraction overflow").
Proof.
  intros Ha Hb. unfold SafeMath.sub. case_Zb; [|done]. cbn [require bind].
  rewrite wrap_small; [done|]. unfold is_uint in *. lia.
Qed.

Lemma mul_cases a b : is_uint a -> is_uint b ->
  SafeMath.mul a b =
  if a * b <? UINT256 then Ok (a * b) else Throw (Error "SafeMath: multiplication overflow").
Proof.
  intros Ha Hb. unfold SafeMath.mul, is_uint in *. pose proof UINT256_pos. destruct (Z.eqb_spec a 0) as [->|Hz].
  { by rewrite Z.mul_0_l, (proj2 (Z.ltb_lt _ _)) by lia. }
  case_Zb.
  - rewrite wrap_small by (unfold is_uint; nia). rewrite Z.mul_comm, Z.div_mul by lia.
    by rewrite Z.eqb_refl.
  - assert (wrap (a * b) < a * b) by (pose proof (wrap_uint (a * b)); unfold is_uint in *; lia).
    assert (wrap (a * b) / a < b) by (apply Z.div_lt_upper_bound; lia).
    by rewrite (proj2 (Z.eqb_neq _ _)) by lia.
Qed.

Lemma div_cases a b :
  SafeMath.div a b = if 0 <? b then Ok (a / b) else Throw (Error "SafeMath: division by zero").
Proof. unfold SafeMath.div. by case_Zb. Qed.

(** Successful arithmetic, for proofs that invert a computation. *)
Lemma add_Ok a b c : is_uint a -> is_uint b -> SafeMath.add a b = Ok c -> c = a + b /\ is_uint c.
Proof. intros Ha Hb. rewrite add_cases by done. unfold is_uint in *. case_Zb; intros [= <-]; lia. Qed.

Lemma sub_Ok a b c : is_uint a -> is_uint b -> SafeMath.sub a b = Ok c -> c = a - b /\ b <= a /\ is_uint c.
Proof. intros Ha Hb. rewrite sub_cases by done. unfold is_uint in *. case_Zb; intros [= <-]; lia. Qed.

Lemma mul_Ok a b c : is_uint a -> is_uint b -> SafeMath.mul a b = Ok c -> c = a * b /\ is_uint c.
Proof. intros Ha Hb. rewrite mul_cases by done. unfold is_uint in *. case_Zb; intros [= <-]; nia. Qed.

Lemma div_Ok a b c : is_uint a -> SafeMath.div a b = Ok c -> c = a / b /\ 0 < b /\ is_uint c.
Proof.
  intros Ha. rewrite div_cases. unfold is_uint in *. case_Zb; intros [= <-].
  split; [done|]. split; [done|]. split; [apply Z.div_pos; lia|].
  apply Z.le_lt_trans with a; [apply Z.div_le_upper_bound; nia | lia].
Qed.

(** Arithmetic that cannot fail. *)
Lemma add_fits a b : is_uint a -> is_uint b -> a + b < UINT256 -> SafeMath.add a b = Ok (a + b).
Proof. intros. rewrite add_cases by done. case_Zb; [done|lia]. Qed.

Lemma sub_fits a b : is_uint a -> is_uint b -> b <= a -> SafeMath.sub a b = Ok (a - b).
Proof. intros. rewrite sub_cases by done. case_Zb; [done|lia]. Qed.

Lemma mul_fits a b : is_uint a -> is_uint b -> a * b < UINT256 -> SafeMath.mul a b = Ok (a * b).
Proof. intros. rewrite mul_cases by done. case_Zb; [done|lia]. Qed.

Lemma div_fits a b : 0 < b -> SafeMath.div a b = Ok (a / b).
Proof. intros. rewrite div_cases. case_Zb; [done|lia]. Qed.

(** ** Contract calls that change storage

    A call runs on the storage of the contracts and returns its value with the
    new storage, or reverts. *)

Definition call (S A : Type) : Type := S -> result (A * S).

Definition call_ret {S A} (a : A) : call S A := fun s => Ok (a, s).
Definition call_bind {S A B} (m : call S A) (f : A -> call S B) : call S B :=
  fun s => let! r := m s in f (fst r) (snd r).
(** A computation that only reads arguments. *)
Definition pure_call {S A} (r : result A) : call S A := fun s => let! a := r in Ok (a, s).
(** A computation that reads storage. *)
Definition view_call {S A} (f : S -> result A) : call S A := fun s => let! a := f s in Ok (a, s).
Definition update_call {S} (f : S -> S) : call S unit := fun s => Ok (tt, f s).

Notation "'let$' x ':=' c 'in' k" := (call_bind c (fun x => k))
  (at level 10, x binder, c at level 200, k at level 200) : js_scope.

Lemma call_bind_Ok {S A B} (m : call S A) (f : A -> call S B) s b s' :
  call_bind m f s = Ok (b, s') -> exists a s1, m s = Ok (a, s1) /\ f a s1 = Ok (b, s').
Proof. unfold call_bind. intros H. apply bind_Ok_inv in H as ([a s1] & H1 & H2). by exists a, s1. Qed.

Lemma pure_call_Ok {S A} (r : result A) (s s' : S) a :
  pure_call r s = Ok (a, s') <-> r = Ok a /\ s' = s.
Proof. unfold pure_call. destruct r; cbn; split; [by intros [= -> ->]|by intros [[= ->] ->]|done|by intros []]. Qed.

Lemma view_call_Ok {S A} (f : S -> result A) (s s' : S) a :
  view_call f s = Ok (a, s') <-> f s = Ok a /\ s' = s.
Proof. unfold view_call. destruct (f s); cbn; split; [by intros [= -> ->]|by intros [[= ->] ->]|done|by intros []]. Qed.

Lemma update_call_Ok {S} (f : S -> S) (s s' : S) u : update_call f s = Ok (u, s') <-> s' = f s.
Proof. unfold update_call. destruct u. split; [by intros [= <-]|by intros ->]. Qed.

(** Decompose a successful call in the context. *)
Ltac inv_call :=
  repeat match goal with
  | H : call_bind _ _ _ = Ok (_, _) |- _ =>
      let a := fresh "a" in let s := fresh "s" in let H1 := fresh "Hc" in
      apply call_bind_Ok in H as (a & s & H1 & H)
  | H : pure_call _ _ = Ok (_, _) |- _ => apply pure_call_Ok in H as [H ->]
  | H : view_call _ _ = Ok (_, _) |- _ => apply view_call_Ok in H as [H ->]
  | H : update_call _ _ = Ok (_, _) |- _ => apply update_call_Ok in H; subst
  | H : call_ret _ _ = Ok (_, _) |- _ => injection H as ? ?; subst
  | H : require ?b _ = Ok _ |- _ => unfold require in H; destruct b eqn:?; [clear H|discriminate H]
  end.
