(* ===== verification/SortedTroves.v ===== *)
(** * The sorted list of Troves (contracts/contracts/SortedTroves.sol, SortedTrovesStorage.sol)

    A doubly linked list of Trove owners in descending order of their nominal
    collateral ratio, with insertion hints.  [getNominalICR] of TroveManager is
    an argument.  The walks along the list have no bound in the code, so they
    take the [gas] they may use; a walk that exhausts it reverts. *)

From S2P Require Import Prelude Solidity.
Local Open Scope Z_scope.

(** ** Storage *)

Record Node : Type := mkNode { exists_ : bool; nextId : address; prevId : address }.

#[export] Instance Node_eq_dec : EqDecision Node.
Proof. solve_decision. Defined.

Record Data : Type := mkData {
  data_head : address;
  data_tail : address;
  maxSize : Z;
  size : Z;
  nodes : gmap address Node }.

(** The contract: its list and the addresses allowed to change it. *)
Record SortedTroves : Type := mkSortedTroves {
  st_owner : address;
  st_borrowerOperationsAddress : address;
  st_troveManager : address;
  data : Data }.

(** A mapping holds the zero value of its type where nothing was written. *)
Definition no_node : Node := mkNode false address0 address0.
Definition node (d : Data) (id : address) : Node := default no_node (nodes d !! id).

Definition with_nodes (d : Data) (m : gmap address Node) : Data :=
  mkData (data_head d) (data_tail d) (maxSize d) (size d) m.
Definition with_head (d : Data) (a : address) : Data :=
  mkData a (data_tail d) (maxSize d) (size d) (nodes d).
Definition with_tail (d : Data) (a : address) : Data :=
  mkData (data_head d) a (maxSize d) (size d) (nodes d).
Definition with_size (d : Data) (n : Z) : Data :=
  mkData (data_head d) (data_tail d) (maxSize d) n (nodes d).

(** [data.nodes[id].nextId = a] and the like *)
Definition set_node (d : Data) (id : address) (n : Node) : Data := with_nodes d (<[id := n]> (nodes d)).
Definition set_exists (d : Data) (id : address) : Data :=
  set_node d id (mkNode true (nextId (node d id)) (prevId (node d id))).
Definition set_next (d : Data) (id a : address) : Data :=
  set_node d id (mkNode (exists_ (node d id)) a (prevId (node d id))).
Definition set_prev (d : Data) (id a : address) : Data :=
  set_node d id (mkNode (exists_ (node d id)) (nextId (node d id)) a).

Definition is_zero (a : address) : bool := bool_decide (a = address0).
Definition same (a b : address) : bool := bool_decide (a = b).

(** ** Views *)

Definition contains (d : Data) (id : address) : bool := exists_ (node d id).
Definition isFull (d : Data) : bool := size d =? maxSize d.
Definition isEmpty (d : Data) : bool := size d =? 0.
Definition getFirst (d : Data) : address := data_head d.
Definition getLast (d : Data) : address := data_tail d.
Definition getNext (d : Data) (id : address) : address := nextId (node d id).
Definition getPrev (d : Data) (id : address) : address := prevId (node d id).

Definition out_of_gas {A} : result A := Throw (Rejected "out of gas").

Section List.
(** [troveManager.getNominalICR] *)
Variable getNominalICR : address -> result Z.

Definition _validInsertPosition (d : Data) (_NICR : Z) (_prevId _nextId : address) : result bool :=
  if is_zero _prevId && is_zero _nextId then Ok (isEmpty d)
  else if is_zero _prevId then
    if same (data_head d) _nextId then let! n := getNominalICR _nextId in Ok (n <=? _NICR) else Ok false
  else if is_zero _nextId then
    if same (data_tail d) _prevId then let! n := getNominalICR _prevId in Ok (_NICR <=? n) else Ok false
  else if same (nextId (node d _prevId)) _nextId then
    let! p := getNominalICR _prevId in
    if _NICR <=? p then let! n := getNominalICR _nextId in Ok (n <=? _NICR) else Ok false
  else Ok false.

Fixpoint descend_loop (gas : nat) (d : Data) (_NICR : Z) (prev next : address) : result (address * address) :=
  if is_zero prev then Ok (prev, next)
  else
    let! valid := _validInsertPosition d _NICR prev next in
    if valid then Ok (prev, next)
    else match gas with
         | O => out_of_gas
         | S gas =>
             let prev := nextId (node d prev) in
             descend_loop gas d _NICR prev (nextId (node d prev))
         end.

Definition _descendList (gas : nat) (d : Data) (_NICR : Z) (_startId : address) : result (address * address) :=
  let! before := (if same (data_head d) _startId
                  then let! n := getNominalICR _startId in Ok (n <=? _NICR) else Ok false) in
  if before then Ok (address0, _startId)
  else descend_loop gas d _NICR _startId (nextId (node d _startId)).

Fixpoint ascend_loop (gas : nat) (d : Data) (_NICR : Z) (prev next : address) : result (address * address) :=
  if is_zero next then Ok (prev, next)
  else
    let! valid := _validInsertPosition d _NICR prev next in
    if valid then Ok (prev, next)
    else match gas with
         | O => out_of_gas
         | S gas =>
             let next := prevId (node d next) in
             ascend_loop gas d _NICR (prevId (node d next)) next
         end.

Definition _ascendList (gas : nat) (d : Data) (_NICR : Z) (_startId : address) : result (address * address) :=
  let! after := (if same (data_tail d) _startId
                 then let! n := getNominalICR _startId in Ok (_NICR <=? n) else Ok false) in
  if after then Ok (_startId, address0)
  else ascend_loop gas d _NICR (prevId (node d _startId)) _startId.

(** A hint that is gone, or on the wrong side of the ratio, is dropped. *)
Definition keep_hint (d : Data) (wrong_side : Z -> bool) (id : address) : result address :=
  if is_zero id then Ok id
  else if contains d id then let! n := getNominalICR id in Ok (if wrong_side n then address0 else id)
  else Ok address0.

Definition _findInsertPosition (gas : nat) (d : Data) (_NICR : Z) (_prevId _nextId : address)
    : result (address * address) :=
  let! prev := keep_hint d (fun n => n <? _NICR) _prevId in
  let! next := keep_hint d (fun n => _NICR <? n) _nextId in
  if is_zero prev && is_zero next then _descendList gas d _NICR (data_head d)
  else if is_zero prev then _ascendList gas d _NICR next
  else _descendList gas d _NICR prev.

(** ** Changing the list *)

(** The writes of [_insert], once the position is known. *)
Definition link (d : Data) (_id prev next : address) : Data :=
  let d := set_exists d _id in
  if is_zero prev && is_zero next then with_tail (with_head d _id) _id
  else if is_zero prev then
    let d := set_next d _id (data_head d) in
    let d := set_prev d (data_head d) _id in
    with_head d _id
  else if is_zero next then
    let d := set_prev d _id (data_tail d) in
    let d := set_next d (data_tail d) _id in
    with_tail d _id
  else
    let d := set_next d _id next in
    let d := set_prev d _id prev in
    let d := set_next d prev _id in
    set_prev d next _id.

Definition _insert (gas : nat) (d : Data) (_id : address) (_NICR : Z) (_prevId _nextId : address) : result Data :=
  let! _ := require (negb (isFull d)) "SortedTroves: List is full" in
  let! _ := require (negb (contains d _id)) "SortedTroves: List already contains the node" in
  let! _ := require (negb (is_zero _id)) "SortedTroves: Id cannot be zero" in
  let! _ := require (0 <? _NICR) "SortedTroves: NICR must be positive" in
  let! valid := _validInsertPosition d _NICR _prevId _nextId in
  let! pn := (if valid then Ok (_prevId, _nextId) else _findInsertPosition gas d _NICR _prevId _nextId) in
  let d := link d _id (fst pn) (snd pn) in
  let! n := SafeMath.add (size d) 1 in
  Ok (with_size d n).

(** The writes of [_remove] before the node is deleted. *)
Definition unlink (d : Data) (_id : address) : Data :=
  if 1 <? size d then
    if same _id (data_head d) then
      let d := with_head d (nextId (node d _id)) in
      set_prev d (data_head d) address0
    else if same _id (data_tail d) then
      let d := with_tail d (prevId (node d _id)) in
      set_next d (data_tail d) address0
    else
      let d := set_next d (prevId (node d _id)) (nextId (node d _id)) in
      set_prev d (nextId (node d _id)) (prevId (node d _id))
  else with_tail (with_head d address0) address0.

Definition _remove (d : Data) (_id : address) : result Data :=
  let! _ := require (contains d _id) "SortedTroves: List does not contain the id" in
  let d := unlink d _id in
  let d := with_nodes d (delete _id (nodes d)) in
  let! n := SafeMath.sub (size d) 1 in
  Ok (with_size d n).

(** ** External functions; [sender] is [msg.sender] *)

Definition with_data (s : SortedTroves) (d : Data) : SortedTroves :=
  mkSortedTroves (st_owner s) (st_borrowerOperationsAddress s) (st_troveManager s) d.

Definition _requireCallerIsTroveManager (s : SortedTroves) (sender : address) : result unit :=
  require (same sender (st_troveManager s)) "SortedTroves: Caller is not the TroveManager".

Definition _requireCallerIsBOorTroveM (s : SortedTroves) (sender : address) : result unit :=
  require (same sender (st_borrowerOperationsAddress s) || same sender (st_troveManager s))
    "SortedTroves: Caller is neither BO nor TroveM".

Definition insert (gas : nat) (s : SortedTroves) (sender _id : address) (_NICR : Z) (_prevId _nextId : address)
    : result SortedTroves :=
  let! _ := _requireCallerIsBOorTroveM s sender in
  let! d := _insert gas (data s) _id _NICR _prevId _nextId in
  Ok (with_data s d).

Definition remove (s : SortedTroves) (sender _id : address) : result SortedTroves :=
  let! _ := _requireCallerIsTroveManager s sender in
  let! d := _remove (data s) _id in
  Ok (with_data s d).

Definition reInsert (gas : nat) (s : SortedTroves) (sender _id : address) (_newNICR : Z)
    (_prevId _nextId : address) : result SortedTroves :=
  let! _ := _requireCallerIsBOorTroveM s sender in
  let! _ := require (contains (data s) _id) "SortedTroves: List does not contain the id" in
  let! _ := require (0 <? _newNICR) "SortedTroves: NICR must be positive" in
  let! d := _remove (data s) _id in
  let! d := _insert gas d _id _newNICR _prevId _nextId in
  Ok (with_data s d).
End List.

(** CheckContract.sol: the account has code, which [extcodesize] tells. *)
Definition checkContract (extcodesize : address -> Z) (_account : address) : result unit :=
  let! _ := require (negb (is_zero _account)) "Account cannot be zero address" in
  require (0 <? extcodesize _account) "Account code size cannot be zero".

Definition setParams (extcodesize : address -> Z) (s : SortedTroves) (sender : address)
    (_size : Z) (_troveManagerAddress _borrowerOperationsAddress : address) : result SortedTroves :=
  let! _ := require (same sender (st_owner s)) "Ownable:: access denied" in
  let! _ := require (0 <? _size) "SortedTroves: Size can’t be zero" in
  let! _ := checkContract extcodesize _troveManagerAddress in
  let! _ := checkContract extcodesize _borrowerOperationsAddress in
  let d := data s in
  Ok (mkSortedTroves (st_owner s) _borrowerOperationsAddress _troveManagerAddress
        (mkData (data_head d) (data_tail d) _size (size d) (nodes d))).
