(* ===== verification/SortedTrovesFacts.v ===== *)
(** * The linked list refines a sorted list

    [rep d l] relates the storage of SortedTroves to the list of its nodes.
    Whatever hints are given, insertion puts a node into a place of the list
    where its ratio fits, removal takes it out, and the walks terminate. *)

From Stdlib Require Import Sorted.
From S2P Require Import Prelude Solidity SortedTroves.
Local Open Scope Z_scope.

(** ** Representation *)

Definition hd0 (l : list address) : address := default address0 (head l).
Definition last0 (l : list address) : address := default address0 (last l).

Record rep (d : Data) (l : list address) : Prop := {
  rep_nodup : NoDup l;
  rep_nonzero : address0 ∉ l;
  rep_length : size d = Z.of_nat (length l);
  rep_hd : data_head d = hd0 l;
  rep_tl : data_tail d = last0 l;
  rep_node : forall l1 a l2, l = l1 ++ a :: l2 -> node d a = mkNode true (hd0 l2) (last0 l1);
  rep_no_node : forall a, a ∉ l -> node d a = no_node }.

Lemma last0_snoc l a : last0 (l ++ [a]) = a.
Proof. unfold last0. by rewrite last_snoc. Qed.

Lemma last0_app l m : m <> [] -> last0 (l ++ m) = last0 m.
Proof. intros N. unfold last0. rewrite last_app. destruct (last m) eqn:L; [done|]. by apply last_None in L. Qed.

Lemma last0_cons a l : l <> [] -> last0 (a :: l) = last0 l.
Proof. apply (last0_app [a]). Qed.

Lemma last0_elem l : l <> [] -> last0 l ∈ l.
Proof.
  destruct l as [|b l _] using rev_ind; [done|]. intros _. rewrite last0_snoc. apply elem_of_app. right. by left.
Qed.

Lemma hd0_elem l : l <> [] -> hd0 l ∈ l.
Proof. destruct l; [done|]. intros _. left. Qed.

(** Two ways to split a list at an element. *)
Lemma app_cons_split {A} (l1 l2 m1 m2 : list A) x a : l1 ++ x :: l2 = m1 ++ a :: m2 ->
  (exists k, l1 = m1 ++ a :: k /\ m2 = k ++ x :: l2) \/
  (m1 = l1 /\ a = x /\ m2 = l2) \/
  (exists k, m1 = l1 ++ x :: k /\ l2 = k ++ a :: m2).
Proof.
  revert m1. induction l1 as [|b l1 IH]; intros [|c m1] E; simpl in E; injection E as -> E.
  - subst. right. by left.
  - right. right. exists m1. by subst.
  - left. exists l1. by subst.
  - destruct (IH _ E) as [(k & -> & ->)|[(-> & -> & ->)|(k & -> & ->)]];
      [left; by exists k | right; by left | right; right; by exists k].
Qed.

Lemma node_set d id n a : node (set_node d id n) a = if decide (a = id) then n else node d a.
Proof. unfold node, set_node. simpl. case_decide; subst; [by rewrite lookup_insert_eq | by rewrite lookup_insert_ne]. Qed.

Lemma contains_rep d l a : rep d l -> contains d a = bool_decide (a ∈ l).
Proof.
  intros R. unfold contains. case_bool_decide as E.
  - apply list_elem_of_split in E as (l1 & l2 & ->). by rewrite (rep_node _ _ R l1 a l2).
  - by rewrite (rep_no_node _ _ R).
Qed.

Lemma is_zero_elem d l a : rep d l -> a ∈ l -> is_zero a = false.
Proof. intros R E. apply bool_decide_eq_false. intros ->. by apply (rep_nonzero _ _ R). Qed.

Lemma last0_nil l : address0 ∉ l -> last0 l = address0 -> l = [].
Proof.
  intros H E. destruct (decide (l = [])) as [|N]; [done|]. exfalso. apply H. rewrite <- E. by apply last0_elem.
Qed.

Lemma hd0_nil l : address0 ∉ l -> hd0 l = address0 -> l = [].
Proof.
  intros H E. destruct (decide (l = [])) as [|N]; [done|]. exfalso. apply H. rewrite <- E. by apply hd0_elem.
Qed.

(** ** Splicing

    [spliced d l1 l2 m x y]: the nodes of [d] after the neighbours of the gap
    between [l1] and [l2] point at [x] and at [y]. *)
Definition respliced (d : Data) (l1 l2 : list address) (x y a : address) : Node :=
  let n := node d a in
  mkNode (exists_ n) (if bool_decide (l1 <> [] /\ a = last0 l1) then x else nextId n)
    (if bool_decide (l2 <> [] /\ a = hd0 l2) then y else prevId n).

Lemma respliced_left d l1 k a x y l2 n : NoDup (l1 ++ a :: k ++ l2) ->
  node d a = mkNode true n (last0 l1) -> (k <> [] -> n = hd0 k) ->
  respliced d (l1 ++ a :: k) l2 x y a = mkNode true (if decide (k = []) then x else hd0 k) (last0 l1).
Proof.
  intros N E F. unfold respliced. rewrite E. cbn [exists_ nextId prevId].
  apply NoDup_app in N as (_ & _ & N). apply NoDup_cons in N as [N _].
  rewrite (bool_decide_eq_false_2 (l2 <> [] /\ _)).
  2:{ intros [H ->]. apply N, elem_of_app. right. by apply hd0_elem. }
  destruct (decide (k = [])) as [->|K].
  - rewrite bool_decide_eq_true_2; [done|]. split; [by destruct l1|]. by rewrite last0_snoc.
  - rewrite bool_decide_eq_false_2; [by rewrite F|]. intros [_ H]. apply N, elem_of_app. left.
    unfold last0 in H. rewrite last_app, last_cons in H.
    destruct (last k) as [b|] eqn:L; [|by apply last_None in L]. simpl in H. subst.
    by apply last_Some_elem_of.
Qed.

Lemma respliced_right d l1 k a x y l2 p : NoDup (l1 ++ k ++ a :: l2) ->
  node d a = mkNode true (hd0 l2) p -> (k <> [] -> p = last0 k) ->
  respliced d l1 (k ++ a :: l2) x y a = mkNode true (hd0 l2) (if decide (k = []) then y else last0 k).
Proof.
  intros N E F. unfold respliced. rewrite E. cbn [exists_ nextId prevId].
  assert (a ∉ l1) as N1. { apply NoDup_app in N as (_ & N & _). intros H. apply (N a H), elem_of_app. right. left. }
  assert (a ∉ k) as N2.
  { apply NoDup_app in N as (_ & _ & N). apply NoDup_app in N as (_ & N & _). intros H. apply (N a H). left. }
  rewrite (bool_decide_eq_false_2 (l1 <> [] /\ _)) by (intros [H ->]; by apply N1, last0_elem).
  destruct (decide (k = [])) as [->|K].
  - by rewrite bool_decide_eq_true_2.
  - rewrite bool_decide_eq_false_2.
    2:{ intros [_ H]. destruct k as [|b k]; [done|]. simpl in H. unfold hd0 in H. simpl in H. subst. apply N2. left. }
    by rewrite F.
Qed.

Lemma node_set_exists d id a :
  node (set_exists d id) a =
  if decide (a = id) then mkNode true (nextId (node d id)) (prevId (node d id)) else node d a.
Proof. apply node_set. Qed.
Lemma node_set_next d id v a :
  node (set_next d id v) a =
  if decide (a = id) then mkNode (exists_ (node d id)) v (prevId (node d id)) else node d a.
Proof. apply node_set. Qed.
Lemma node_set_prev d id v a :
  node (set_prev d id v) a =
  if decide (a = id) then mkNode (exists_ (node d id)) (nextId (node d id)) v else node d a.
Proof. apply node_set. Qed.
Lemma node_with_head d h a : node (with_head d h) a = node d a. Proof. done. Qed.
Lemma node_with_tail d h a : node (with_tail d h) a = node d a. Proof. done. Qed.
Lemma node_with_size d n a : node (with_size d n) a = node d a. Proof. done. Qed.

Create Rewrite HintDb dll.
#[export] Hint Rewrite node_set_exists node_set_next node_set_prev node_with_head node_with_tail node_with_size : dll.

(** Decide the equalities between ids that the writes test. *)
Ltac dll_cases := autorewrite with dll; repeat (case_decide; simpl); simplify_eq; try done.

Section Splice.
Context (d : Data) (l1 l2 : list address) (R : rep d (l1 ++ l2)).

Lemma gap_left : l1 <> [] -> is_zero (last0 l1) = false.
Proof. intros N. apply (is_zero_elem d (l1 ++ l2)); [done|]. apply elem_of_app. left. by apply last0_elem. Qed.

Lemma gap_right : l2 <> [] -> is_zero (hd0 l2) = false.
Proof. intros N. apply (is_zero_elem d (l1 ++ l2)); [done|]. apply elem_of_app. right. by apply hd0_elem. Qed.

Lemma gap_distinct : l1 <> [] -> l2 <> [] -> last0 l1 <> hd0 l2.
Proof.
  intros N1 N2 E. pose proof (rep_nodup _ _ R) as N. apply NoDup_app in N as (_ & N & _).
  apply (N (last0 l1)); [by apply last0_elem | rewrite E; by apply hd0_elem].
Qed.

Lemma link_nodes id a : id ∉ l1 ++ l2 ->
  node (link d id (last0 l1) (hd0 l2)) a =
  if decide (a = id) then mkNode true (hd0 l2) (last0 l1) else respliced d l1 l2 id id a.
Proof.
  intros Hid. pose proof (rep_no_node _ _ R id Hid) as E0. unfold link, respliced.
  pose proof (rep_hd _ _ R) as Hh. pose proof (rep_tl _ _ R) as Ht.
  assert (l1 <> [] -> last0 l1 <> id) as A1.
  { intros N E. subst id. apply Hid, elem_of_app. left. by apply last0_elem. }
  assert (l2 <> [] -> hd0 l2 <> id) as A2.
  { intros N E. subst id. apply Hid, elem_of_app. right. by apply hd0_elem. }
  pose proof gap_left as Z1. pose proof gap_right as Z2. pose proof gap_distinct as D.
  destruct (decide (l1 = [])) as [->|N1], (decide (l2 = [])) as [->|N2].
  - simpl. dll_cases; [by rewrite E0|]. by destruct (node d a).
  - rewrite (Z2 N2). simpl in *. rewrite Hh. specialize (A2 N2). dll_cases; rewrite ?E0; try done.
    + rewrite (bool_decide_eq_true_2 (l2 <> [] /\ _)) by done. done.
    + rewrite (bool_decide_eq_false_2 (l2 <> [] /\ _)) by tauto. by destruct (node d a).
  - rewrite (Z1 N1). rewrite app_nil_r in Ht. simpl. rewrite Ht. specialize (A1 N1).
    dll_cases; rewrite ?E0; try done.
    + rewrite bool_decide_eq_true_2 by done. done.
    + rewrite (bool_decide_eq_false_2 (l1 <> [] /\ _)) by tauto. by destruct (node d a).
  - rewrite (Z1 N1), (Z2 N2). simpl. specialize (A1 N1). specialize (A2 N2). specialize (D N1 N2).
    dll_cases; rewrite ?E0; try done.
    + rewrite (bool_decide_eq_true_2 (l2 <> [] /\ _)), bool_decide_eq_false_2 by (tauto || intros [? ?]; congruence). done.
    + rewrite (bool_decide_eq_true_2 (l1 <> [] /\ _)), bool_decide_eq_false_2 by (tauto || intros [? ?]; congruence). done.
    + rewrite !bool_decide_eq_false_2 by tauto. by destruct (node d a).
Qed.
End Splice.

Lemma link_ends d l1 l2 id : rep d (l1 ++ l2) -> id ∉ l1 ++ l2 ->
  data_head (link d id (last0 l1) (hd0 l2)) = hd0 (l1 ++ id :: l2) /\
  data_tail (link d id (last0 l1) (hd0 l2)) = last0 (l1 ++ id :: l2) /\
  size (link d id (last0 l1) (hd0 l2)) = size d.
Proof.
  intros R Hid. pose proof (rep_hd _ _ R) as Hh. pose proof (rep_tl _ _ R) as Ht.
  pose proof (gap_left d l1 l2 R) as Z1. pose proof (gap_right d l1 l2 R) as Z2. unfold link.
  assert (l2 <> [] -> last0 (l1 ++ id :: l2) = last0 (l1 ++ l2)) as E2.
  { intros N. unfold last0. rewrite !last_app, last_cons. destruct (last l2) eqn:L; [done|]. by apply last_None in L. }
  destruct (decide (l1 = [])) as [->|N1], (decide (l2 = [])) as [->|N2].
  - done.
  - rewrite (Z2 N2). simpl in *. by rewrite Ht, <- E2.
  - rewrite (Z1 N1). simpl. rewrite last0_snoc, Hh. by destruct l1.
  - rewrite (Z1 N1), (Z2 N2). simpl. rewrite Ht, Hh, <- E2 by done. by destruct l1.
Qed.

Lemma link_rep d l1 l2 id n : rep d (l1 ++ l2) -> id ∉ l1 ++ l2 -> id <> address0 ->
  n = size d + 1 -> rep (with_size (link d id (last0 l1) (hd0 l2)) n) (l1 ++ id :: l2).
Proof.
  intros R Hid Hz Hn. destruct (link_ends d l1 l2 id R Hid) as (Eh & Et & Es).
  pose proof (rep_nodup _ _ R) as N.
  split; simpl.
  - apply NoDup_Permutation_proper with (id :: l1 ++ l2); [by rewrite Permutation_middle|]. by constructor.
  - rewrite elem_of_app, elem_of_cons. pose proof (rep_nonzero _ _ R) as H. rewrite elem_of_app in H. intuition congruence.
  - rewrite Hn, (rep_length _ _ R), !length_app. simpl. lia.
  - done.
  - done.
  - intros m1 a m2 E. rewrite node_with_size, link_nodes by done.
    destruct (app_cons_split _ _ _ _ _ _ E) as [(k & -> & ->)|[(-> & -> & ->)|(k & -> & ->)]].
    + rewrite <- app_assoc in *. simpl in *. rewrite decide_False.
      2:{ intros ->. apply Hid. apply elem_of_app. right. left. }
      rewrite (respliced_left _ _ _ _ _ _ _ (hd0 (k ++ l2))); [by destruct k|done|by apply (rep_node _ _ R)|by destruct k].
    + by rewrite decide_True.
    + rewrite decide_False.
      2:{ intros ->. apply Hid. apply elem_of_app. right. apply elem_of_app. right. left. }
      rewrite (respliced_right _ _ _ _ _ _ _ (last0 (l1 ++ k)));
        [|done|by apply (rep_node _ _ R); rewrite <- app_assoc|apply last0_app].
      f_equal. unfold last0. rewrite last_app, last_cons. destruct (decide (k = [])) as [->|K]; [done|].
      destruct (last k) eqn:L; [done|]. by apply last_None in L.
  - intros a Ha. rewrite node_with_size, link_nodes by done. rewrite elem_of_app, elem_of_cons in Ha.
    rewrite decide_False by tauto. unfold respliced. rewrite !bool_decide_eq_false_2.
    + rewrite (rep_no_node _ _ R) by (rewrite elem_of_app; tauto). done.
    + intros [H ->]. apply Ha. right. right. by apply hd0_elem.
    + intros [H ->]. apply Ha. left. by apply last0_elem.
Qed.

(** ** Removal *)

Lemma hd0_cons a l : hd0 (a :: l) = a. Proof. done. Qed.

Section Unsplice.
Context (d : Data) (l1 l2 : list address) (id : address) (R : rep d (l1 ++ id :: l2)).

Lemma unsplice_facts :
  (id ∉ l1) /\ (id ∉ l2) /\ node d id = mkNode true (hd0 l2) (last0 l1) /\
  (l1 <> [] -> last0 l1 <> id) /\ (l2 <> [] -> hd0 l2 <> id) /\ (l1 <> [] -> l2 <> [] -> last0 l1 <> hd0 l2).
Proof.
  pose proof (rep_nodup _ _ R) as N. apply NoDup_app in N as (_ & N1 & N2). apply NoDup_cons in N2 as [N2 _].
  assert (id ∉ l1) as Hl1 by (intros H; apply (N1 id H); left).
  repeat split; try done.
  - by apply (rep_node _ _ R).
  - intros H E. apply Hl1. rewrite <- E. by apply last0_elem.
  - intros H E. apply N2. rewrite <- E. by apply hd0_elem.
  - intros H1 H2 E. apply (N1 (last0 l1)); [by apply last0_elem|]. rewrite E. right. by apply hd0_elem.
Qed.

(** The branch taken by [unlink]. *)
Lemma unlink_nodes a : a <> id ->
  node (unlink d id) a = respliced d l1 l2 (hd0 l2) (last0 l1) a.
Proof.
  intros Ha. destruct unsplice_facts as (I1 & I2 & E & A1 & A2 & D).
  pose proof (rep_hd _ _ R) as Hh. pose proof (rep_tl _ _ R) as Ht. pose proof (rep_length _ _ R) as Hs.
  unfold unlink, respliced, same. rewrite Hs, Hh, Ht, length_app. cbn [length].
  destruct (decide (l1 = [])) as [->|N1], (decide (l2 = [])) as [->|N2].
  - rewrite (proj2 (Z.ltb_ge _ _)) by (simpl; lia). rewrite !bool_decide_eq_false_2 by (by intros [? ?]).
    change (node _ a) with (node d a) at 1. by destruct (node d a).
  - rewrite (proj2 (Z.ltb_lt _ _)) by (destruct l2; simpl in *; [done|lia]).
    rewrite bool_decide_eq_true_2 by done. cbn [data_head with_head]. rewrite E. dll_cases.
    + rewrite (bool_decide_eq_true_2 (l2 <> [] /\ _)) by done. done.
    + rewrite (bool_decide_eq_false_2 (l2 <> [] /\ _)) by tauto. by destruct (node d a).
  - rewrite (proj2 (Z.ltb_lt _ _)) by (destruct l1; simpl in *; [done|lia]).
    rewrite bool_decide_eq_false_2.
    2:{ intros H. destruct l1; [done|]. apply I1. rewrite H. left. }
    rewrite bool_decide_eq_true_2 by (by rewrite last0_snoc). cbn [data_tail with_tail]. rewrite E. dll_cases.
    + rewrite bool_decide_eq_true_2 by done. done.
    + rewrite (bool_decide_eq_false_2 (l1 <> [] /\ _)) by tauto. by destruct (node d a).
  - rewrite (proj2 (Z.ltb_lt _ _)) by (destruct l1; simpl in *; [done|lia]).
    rewrite bool_decide_eq_false_2.
    2:{ intros H. destruct l1; [done|]. apply I1. rewrite H. left. }
    rewrite bool_decide_eq_false_2.
    2:{ intros H. apply I2. rewrite H. unfold last0. rewrite last_app, last_cons.
        destruct (last l2) eqn:L; [|by apply last_None in L]. by apply last_Some_elem_of. }
    specialize (A1 N1). specialize (A2 N2). specialize (D N1 N2). rewrite E. cbn [prevId nextId].
    rewrite !node_set_next, (decide_False (P := id = last0 l1)) by congruence. rewrite E. cbn [prevId nextId].
    dll_cases.
    + rewrite (bool_decide_eq_true_2 (l2 <> [] /\ _)), bool_decide_eq_false_2
        by (tauto || intros [? ?]; congruence). done.
    + rewrite (bool_decide_eq_true_2 (l1 <> [] /\ _)), bool_decide_eq_false_2
        by (tauto || intros [? ?]; congruence). done.
    + rewrite !bool_decide_eq_false_2 by tauto. by destruct (node d a).
Qed.
End Unsplice.

Lemma app_split {A} (l1 l2 m1 m2 : list A) a : l1 ++ l2 = m1 ++ a :: m2 ->
  (exists k, l1 = m1 ++ a :: k /\ m2 = k ++ l2) \/ (exists k, m1 = l1 ++ k /\ l2 = k ++ a :: m2).
Proof.
  revert m1. induction l1 as [|b l1 IH]; intros m1 E; [right; by exists m1|].
  destruct m1 as [|c m1]; simpl in E; injection E as -> E.
  - left. by exists l1.
  - destruct (IH _ E) as [(k & -> & ->)|(k & -> & ->)]; [left|right]; by exists k.
Qed.

Lemma unlink_ends d l1 l2 id : rep d (l1 ++ id :: l2) ->
  data_head (unlink d id) = hd0 (l1 ++ l2) /\ data_tail (unlink d id) = last0 (l1 ++ l2) /\
  size (unlink d id) = size d /\ maxSize (unlink d id) = maxSize d.
Proof.
  intros R. destruct (unsplice_facts d l1 l2 id R) as (I1 & I2 & E & A1 & A2 & D).
  pose proof (rep_hd _ _ R) as Hh. pose proof (rep_tl _ _ R) as Ht. pose proof (rep_length _ _ R) as Hs.
  rewrite length_app in Hs. cbn [length] in Hs. unfold unlink, same. rewrite Hs, Hh, Ht.
  destruct (decide (l1 = [])) as [->|N1], (decide (l2 = [])) as [->|N2].
  - rewrite (proj2 (Z.ltb_ge _ _)) by (simpl; lia). done.
  - rewrite (proj2 (Z.ltb_lt _ _)) by (destruct l2; simpl in *; [done|lia]).
    rewrite bool_decide_eq_true_2 by done. rewrite E.
    split_and!; [done|by etrans; [apply Ht|apply (last0_cons id)]|exact Hs|done].
  - rewrite (proj2 (Z.ltb_lt _ _)) by (destruct l1; simpl in *; [done|lia]).
    rewrite bool_decide_eq_false_2 by (intros H; destruct l1; [done|]; apply I1; rewrite H; left).
    rewrite bool_decide_eq_true_2 by (by rewrite last0_snoc). rewrite E, app_nil_r.
    split_and!; [by etrans; [apply Hh|destruct l1]|done|exact Hs|done].
  - rewrite (proj2 (Z.ltb_lt _ _)) by (destruct l1; simpl in *; [done|lia]).
    rewrite bool_decide_eq_false_2 by (intros H; destruct l1; [done|]; apply I1; rewrite H; left).
    rewrite bool_decide_eq_false_2.
    2:{ intros H. apply I2. rewrite H, last0_app by done. rewrite last0_cons by done. by apply last0_elem. }
    split_and!; [by etrans; [apply Hh|destruct l1]| |exact Hs|done].
    etrans; [apply Ht|]. by rewrite !last0_app, last0_cons.
Qed.

(** [_remove] takes the node out of the list. *)
Lemma remove_rep d l1 l2 id : rep d (l1 ++ id :: l2) -> is_uint (size d) ->
  exists d', _remove d id = Ok d' /\ rep d' (l1 ++ l2) /\ maxSize d' = maxSize d.
Proof.
  intros R U. destruct (unlink_ends d l1 l2 id R) as (Eh & Et & Es & Em).
  destruct (unsplice_facts d l1 l2 id R) as (I1 & I2 & E & _).
  unfold _remove, contains. rewrite E. cbn [exists_ require bind size with_nodes]. rewrite Es.
  pose proof (rep_length _ _ R) as Hs. rewrite length_app in Hs. cbn [length] in Hs.
  rewrite sub_fits by (unfold is_uint in *; lia). cbn [bind]. eexists. split; [done|]. split; [|done].
  assert (forall a, node (with_nodes (unlink d id) (delete id (nodes (unlink d id)))) a =
          if decide (a = id) then no_node else respliced d l1 l2 (hd0 l2) (last0 l1) a) as Hn.
  { intros a. unfold node at 1. cbn [nodes with_nodes]. case_decide; [subst; by rewrite lookup_delete_eq|].
    rewrite lookup_delete_ne by done. by apply unlink_nodes. }
  pose proof (rep_nodup _ _ R) as N.
  assert (NoDup (l1 ++ l2)) as N'. { rewrite <- Permutation_middle in N. by apply NoDup_cons in N as [_ N]. }
  split; simpl.
  - done.
  - intros H. apply (rep_nonzero _ _ R). rewrite elem_of_app, elem_of_cons. apply elem_of_app in H. tauto.
  - rewrite length_app. lia.
  - done.
  - done.
  - intros m1 a m2 Hm. rewrite node_with_size, Hn.
    assert (a ∈ l1 ++ l2) as Ha by (rewrite Hm; apply elem_of_app; right; left).
    rewrite decide_False by (intros ->; apply elem_of_app in Ha; tauto).
    destruct (app_split _ _ _ _ _ Hm) as [(k & -> & ->)|(k & -> & ->)].
    + rewrite <- app_assoc in *. simpl in *.
      rewrite (respliced_left _ _ _ _ _ _ _ (hd0 (k ++ id :: l2))); [by destruct k|done|by apply (rep_node _ _ R)|by destruct k].
    + rewrite (respliced_right _ _ _ _ _ _ _ (last0 (l1 ++ id :: k))).
      * f_equal. case_decide; [by subst; rewrite app_nil_r|by rewrite last0_app].
      * done.
      * apply (rep_node _ _ R). by rewrite <- app_assoc.
      * intros K. by rewrite last0_app, last0_cons.
  - intros a Ha. rewrite node_with_size, Hn. case_decide; [done|]. rewrite elem_of_app in Ha.
    unfold respliced. rewrite !bool_decide_eq_false_2.
    + rewrite (rep_no_node _ _ R) by (rewrite elem_of_app, elem_of_cons; tauto). done.
    + intros [K ->]. apply Ha. right. by apply hd0_elem.
    + intros [K ->]. apply Ha. left. by apply last0_elem.
Qed.

(** ** Finding a position *)

Section Search.
Context (getNominalICR : address -> result Z) (nicr : address -> Z) (d : Data) (l : list address)
  (R : rep d l) (ratios : forall a, a ∈ l -> getNominalICR a = Ok (nicr a)) (x : Z).

(** A node of ratio [x] may go between [l1] and [l2]. *)
Definition fitsb (l1 l2 : list address) : bool :=
  (bool_decide (l1 = []) || (x <=? nicr (last0 l1))) && (bool_decide (l2 = []) || (nicr (hd0 l2) <=? x)).

Definition position (prev next : address) : Prop :=
  exists l1 l2, l = l1 ++ l2 /\ prev = last0 l1 /\ next = hd0 l2 /\ fitsb l1 l2 = true.

Lemma valid_at l1 l2 : l = l1 ++ l2 ->
  _validInsertPosition getNominalICR d x (last0 l1) (hd0 l2) = Ok (fitsb l1 l2).
Proof.
  intros ->. pose proof (gap_left d l1 l2 R) as Z1. pose proof (gap_right d l1 l2 R) as Z2.
  unfold _validInsertPosition, fitsb, same. rewrite (rep_hd _ _ R), (rep_tl _ _ R).
  destruct (decide (l1 = [])) as [->|N1], (decide (l2 = [])) as [->|N2].
  - simpl. unfold isEmpty. by rewrite (rep_length _ _ R).
  - rewrite (Z2 N2). simpl. rewrite bool_decide_eq_true_2, ratios by (done || by apply hd0_elem).
    by rewrite bool_decide_eq_false_2.
  - rewrite (Z1 N1), app_nil_r in *. simpl. rewrite bool_decide_eq_true_2, ratios by (done || by apply last0_elem).
    rewrite bool_decide_eq_false_2 by done. by rewrite andb_true_r.
  - rewrite (Z1 N1), (Z2 N2). cbn [andb].
    rewrite (bool_decide_eq_false_2 (l1 = [])), (bool_decide_eq_false_2 (l2 = [])) by done. cbn [orb].
    assert (exists k, l1 = k ++ [last0 l1]) as [k Hk].
    { destruct l1 as [|a k _] using rev_ind; [done|]. exists k. by rewrite last0_snoc. }
    rewrite (rep_node _ _ R k (last0 l1) l2) by (rewrite Hk at 1; by rewrite <- app_assoc).
    cbn [nextId]. rewrite bool_decide_eq_true_2 by done.
    rewrite (ratios (last0 l1)) by (apply elem_of_app; left; by apply last0_elem).
    rewrite (ratios (hd0 l2)) by (apply elem_of_app; right; by apply hd0_elem).
    cbn [bind]. by case_Zb.
Qed.

Lemma valid_hint prev next : exists b,
  _validInsertPosition getNominalICR d x prev next = Ok b /\ (b = true -> position prev next).
Proof.
  assert (forall l1 l2, l = l1 ++ l2 -> last0 l1 = prev -> hd0 l2 = next -> exists b,
    _validInsertPosition getNominalICR d x prev next = Ok b /\ (b = true -> position prev next)) as At.
  { intros l1 l2 E <- <-. exists (fitsb l1 l2). split; [by apply valid_at|]. intros F. by exists l1, l2. }
  unfold _validInsertPosition, is_zero, same in *. rewrite (rep_hd _ _ R), (rep_tl _ _ R) in *.
  case_bool_decide as P; case_bool_decide as Q; cbn [andb] in *; subst.
  - destruct l as [|a m] eqn:E; [by apply (At [] [])|]. exists false. unfold isEmpty. by rewrite (rep_length _ _ R).
  - case_bool_decide as E; [|by exists false]. by apply (At [] l).
  - case_bool_decide as E; [|by exists false]. apply (At l []); [by rewrite app_nil_r|done..].
  - case_bool_decide as E; [|by exists false].
    destruct (decide (prev ∈ l)) as [I|I].
    + apply list_elem_of_split in I as (l1 & l2 & I). rewrite (rep_node _ _ R l1 prev l2 I) in E.
      apply (At (l1 ++ [prev]) l2); [by rewrite <- app_assoc|by rewrite last0_snoc|done].
    + rewrite (rep_no_node _ _ R prev I) in E. by subst.
Qed.

(** *** The walks *)

Lemma position_at l1 l2 : l = l1 ++ l2 -> fitsb l1 l2 = true -> position (last0 l1) (hd0 l2).
Proof. intros E F. by exists l1, l2. Qed.

(** One round of the loop at a gap of the list. *)
Lemma descend_round gas l1 a l2 : l = l1 ++ a :: l2 ->
  descend_loop getNominalICR gas d x a (hd0 l2) =
  if fitsb (l1 ++ [a]) l2 then Ok (a, hd0 l2)
  else match gas with
       | O => out_of_gas
       | S gas => descend_loop getNominalICR gas d x (hd0 l2) (nextId (node d (hd0 l2)))
       end.
Proof.
  intros E. assert (a ∈ l) as Ha by (rewrite E; apply elem_of_app; right; left).
  pose proof (valid_at (l1 ++ [a]) l2 ltac:(by rewrite <- app_assoc)) as V. rewrite last0_snoc in V.
  destruct gas; cbn [descend_loop]; rewrite (is_zero_elem d l), V by done; cbn [bind];
    by rewrite ?(rep_node _ _ R l1 a l2 E).
Qed.

Lemma descend_loop_finds l2 : forall gas l1 a, (length l2 <= gas)%nat -> l = l1 ++ a :: l2 -> x <= nicr a ->
  exists prev next, descend_loop getNominalICR gas d x a (hd0 l2) = Ok (prev, next) /\ position prev next.
Proof.
  induction l2 as [|b l2 IH]; intros gas l1 a G E X; rewrite (descend_round gas l1 a _ E);
    destruct (fitsb (l1 ++ [a]) _) eqn:F.
  1,3: eexists _, _; split; [done|]; rewrite <- (last0_snoc l1 a); apply position_at; [by rewrite <- app_assoc|done].
  all: unfold fitsb in F; rewrite last0_snoc, (proj2 (Z.leb_le _ _) X), orb_true_r in F.
  1: done.
  destruct gas as [|gas]; simpl in G; [lia|].
  change (hd0 (b :: l2)) with b in *.
  assert (E' : l = (l1 ++ [a]) ++ b :: l2) by (by rewrite <- app_assoc).
  rewrite (rep_node _ _ R _ b l2 E'). cbn [nextId]. apply (IH gas (l1 ++ [a]) b); [lia|done|].
  rewrite bool_decide_eq_false_2 in F by done. cbn [orb andb] in F. apply Z.leb_gt in F. lia.
Qed.

Lemma descend_finds gas l1 a l2 : (length l <= gas)%nat -> l = l1 ++ a :: l2 -> (l1 = [] \/ x <= nicr a) ->
  exists prev next, _descendList getNominalICR gas d x a = Ok (prev, next) /\ position prev next.
Proof.
  intros G E X. assert (a ∈ l) as Ha by (rewrite E; apply elem_of_app; right; left).
  unfold _descendList, same. rewrite (rep_hd _ _ R), (rep_node _ _ R l1 a l2 E). cbn [nextId].
  assert (x <= nicr a -> exists prev next,
    descend_loop getNominalICR gas d x a (hd0 l2) = Ok (prev, next) /\ position prev next) as Loop.
  { intros. apply (descend_loop_finds l2 gas l1 a); [|done..]. rewrite E, length_app in G. simpl in G. lia. }
  case_bool_decide as H.
  - rewrite ratios by done. cbn [bind]. destruct (Z.leb_spec (nicr a) x) as [Y|Y].
    + eexists _, _. split; [done|]. rewrite <- H. apply (position_at [] l); [done|].
      unfold fitsb. rewrite H, (proj2 (Z.leb_le _ _) Y). simpl. by rewrite orb_true_r.
    + apply Loop. lia.
  - cbn [bind]. apply Loop. destruct X as [->|X]; [|done]. by rewrite E in H.
Qed.

Lemma ascend_round gas l1 a l2 : l = l1 ++ a :: l2 ->
  ascend_loop getNominalICR gas d x (last0 l1) a =
  if fitsb l1 (a :: l2) then Ok (last0 l1, a)
  else match gas with
       | O => out_of_gas
       | S gas => ascend_loop getNominalICR gas d x (prevId (node d (last0 l1))) (last0 l1)
       end.
Proof.
  intros E. assert (a ∈ l) as Ha by (rewrite E; apply elem_of_app; right; left).
  pose proof (valid_at l1 (a :: l2) E) as V. change (hd0 (a :: l2)) with a in V.
  destruct gas; cbn [ascend_loop]; rewrite (is_zero_elem d l), V by done; cbn [bind];
    by rewrite ?(rep_node _ _ R l1 a l2 E).
Qed.

Lemma ascend_loop_finds l1 : forall gas a l2, (length l1 <= gas)%nat -> l = l1 ++ a :: l2 -> nicr a <= x ->
  exists prev next, ascend_loop getNominalICR gas d x (last0 l1) a = Ok (prev, next) /\ position prev next.
Proof.
  induction l1 as [|b l1 IH] using rev_ind; intros gas a l2 G E X; rewrite (ascend_round gas _ a l2 E);
    destruct (fitsb _ (a :: l2)) eqn:F.
  1,3: eexists _, _; split; [done|]; by apply (position_at _ (a :: l2)).
  all: unfold fitsb in F; change (hd0 (a :: l2)) with a in F; rewrite (proj2 (Z.leb_le _ _) X), orb_true_r, andb_true_r in F.
  1: done.
  rewrite length_app in G. destruct gas as [|gas]; simpl in G; [lia|]. rewrite last0_snoc in *.
  assert (E' : l = l1 ++ b :: a :: l2) by (by rewrite E, <- app_assoc).
  rewrite (rep_node _ _ R l1 b _ E'). cbn [prevId]. apply (IH gas b (a :: l2)); [lia|done|].
  apply orb_false_iff in F as [_ F]. apply Z.leb_gt in F. lia.
Qed.

Lemma ascend_finds gas l1 a l2 : (length l <= gas)%nat -> l = l1 ++ a :: l2 -> nicr a <= x ->
  exists prev next, _ascendList getNominalICR gas d x a = Ok (prev, next) /\ position prev next.
Proof.
  intros G E X. assert (a ∈ l) as Ha by (rewrite E; apply elem_of_app; right; left).
  unfold _ascendList, same. rewrite (rep_tl _ _ R), (rep_node _ _ R l1 a l2 E). cbn [prevId].
  assert (exists prev next, ascend_loop getNominalICR gas d x (last0 l1) a = Ok (prev, next) /\ position prev next) as Loop.
  { apply (ascend_loop_finds l1 gas a l2); [|done..]. rewrite E, length_app in G. lia. }
  case_bool_decide as H; [|done]. rewrite ratios by done. cbn [bind].
  destruct (Z.leb_spec x (nicr a)) as [Y|Y]; [|done].
  eexists _, _. split; [done|]. rewrite <- H. apply (position_at l []); [by rewrite app_nil_r|].
  unfold fitsb. rewrite H, (proj2 (Z.leb_le _ _) Y). by rewrite orb_true_r.
Qed.

(** *** From hints to a position *)

Context (zero_ratio : exists n, getNominalICR address0 = Ok n).

Lemma keep_hint_cases w id : exists id', keep_hint getNominalICR d w id = Ok id' /\
  (id' = address0 \/ (id' ∈ l /\ w (nicr id') = false)).
Proof.
  unfold keep_hint. destruct (is_zero id) eqn:Z0.
  { exists id. split; [done|]. left. by apply bool_decide_eq_true in Z0. }
  rewrite (contains_rep d l) by done. case_bool_decide as I; [|exists address0; by split; [|left]].
  rewrite ratios by done. cbn [bind]. destruct (w (nicr id)) eqn:W; eexists; (split; [done|]); [by left|by right].
Qed.

Lemma find_position gas prev next : (length l <= gas)%nat ->
  exists prev' next', _findInsertPosition getNominalICR gas d x prev next = Ok (prev', next') /\
    position prev' next'.
Proof.
  intros G. unfold _findInsertPosition.
  destruct (keep_hint_cases (fun n => n <? x) prev) as (p & -> & P).
  destruct (keep_hint_cases (fun n => x <? n) next) as (q & -> & Q). cbn [bind].
  assert (p ∈ l -> exists prev' next', _descendList getNominalICR gas d x p = Ok (prev', next') /\ position prev' next') as Dp.
  { intros I. destruct P as [->|[_ P]]; [by destruct (rep_nonzero _ _ R)|]. apply Z.ltb_ge in P.
    apply list_elem_of_split in I as (l1 & l2 & E). apply (descend_finds gas l1 p l2); auto. }
  destruct P as [->|[I P]]; [|rewrite (is_zero_elem d l p) by done; by apply Dp].
  change (is_zero address0) with true. destruct Q as [->|[I Q]].
  - change (is_zero address0) with true. cbn [andb]. rewrite (rep_hd _ _ R).
    assert (l = [] \/ exists a m, l = a :: m) as [E|(a & m & E)]
      by (destruct (decide (l = [])) as [|N]; [by left|right; clear -N; destruct l as [|a m]; [done|by exists a, m]]).
    2:{ rewrite E. change (hd0 (a :: m)) with a. apply (descend_finds gas [] a m); auto. }
    unfold _descendList, same. rewrite (rep_hd _ _ R), E. change (hd0 []) with address0.
    destruct zero_ratio as [n ->]. rewrite bool_decide_eq_true_2 by done. cbn [bind].
    destruct (n <=? x); exists address0, address0; (split; [|by exists [], []]); [done|].
    rewrite (rep_no_node _ _ R) by (rewrite E; apply not_elem_of_nil). by destruct gas.
  - rewrite (is_zero_elem d l q) by done. cbn [andb]. apply Z.ltb_ge in Q.
    apply list_elem_of_split in I as (l1 & l2 & E). by apply (ascend_finds gas l1 q l2).
Qed.
End Search.

(** ** Order *)

Definition ordered (nicr : address -> Z) (l : list address) : Prop :=
  StronglySorted (fun a b => nicr b <= nicr a) l.

Lemma ordered_app nicr l1 l2 : ordered nicr (l1 ++ l2) <->
  ordered nicr l1 /\ ordered nicr l2 /\ forall a b, a ∈ l1 -> b ∈ l2 -> nicr b <= nicr a.
Proof.
  unfold ordered. induction l1 as [|c l1 IH]; simpl.
  - split; [intros H; split_and!; [constructor|done|by intros a b ?%not_elem_of_nil] | tauto].
  - split.
    + intros H. inversion H as [|? ? H1 H2]; subst. apply IH in H1 as (S1 & S2 & S3).
      rewrite List.Forall_app in H2. destruct H2 as [F1 F2]. split_and!; [by constructor|done|].
      intros a b Ha Hb. apply elem_of_cons in Ha as [->|Ha]; [|by apply S3].
      rewrite List.Forall_forall in F2. by apply F2, list_elem_of_In.
    + intros (S1 & S2 & S3). inversion S1 as [|? ? H1 H2]; subst. constructor.
      * apply IH. split_and!; [done..|]. intros a b Ha Hb. apply S3; [by right|done].
      * apply List.Forall_app. split; [done|]. apply List.Forall_forall. intros b Hb.
        apply S3; [left|by apply list_elem_of_In].
Qed.

Lemma ordered_ext nicr nicr' l : (forall a, a ∈ l -> nicr a = nicr' a) -> ordered nicr l -> ordered nicr' l.
Proof.
  unfold ordered. induction l as [|a l IH]; intros E H; [constructor|]. inversion H as [|? ? H1 H2]; subst. constructor.
  - apply IH; [|done]. intros b Hb. apply E. by right.
  - rewrite List.Forall_forall in *. intros b Hb. rewrite <- (E a), <- (E b); [by apply H2|right|left].
    by apply list_elem_of_In.
Qed.

Lemma ordered_last nicr l a : ordered nicr l -> a ∈ l -> nicr (last0 l) <= nicr a.
Proof.
  destruct l as [|b l _] using rev_ind; [by intros _ ?%not_elem_of_nil|]. rewrite ordered_app, last0_snoc.
  intros (_ & _ & H) [I|I]%elem_of_app; [apply H; [done|left]|]. apply list_elem_of_singleton in I as ->. lia.
Qed.

Lemma ordered_head nicr l a : ordered nicr l -> a ∈ l -> nicr a <= nicr (hd0 l).
Proof.
  destruct l as [|b l]; [by intros _ ?%not_elem_of_nil|]. change (hd0 (b :: l)) with b. intros H I.
  apply (ordered_app nicr [b] l) in H as (_ & _ & H). apply elem_of_cons in I as [->|I]; [lia|]. apply H; [left|done].
Qed.

(** A node goes where its ratio fits. *)
Lemma ordered_insert nicr l1 l2 id : ordered nicr (l1 ++ l2) -> fitsb nicr (nicr id) l1 l2 = true ->
  ordered nicr (l1 ++ id :: l2).
Proof.
  intros O F. apply ordered_app in O as (O1 & O2 & O3). apply andb_true_iff in F as [F1 F2].
  assert (forall a, a ∈ l1 -> nicr id <= nicr a) as G1.
  { intros a Ha. apply orb_true_iff in F1 as [->%bool_decide_eq_true|F1%Z.leb_le]; [by apply not_elem_of_nil in Ha|].
    pose proof (ordered_last nicr l1 a O1 Ha). lia. }
  assert (forall b, b ∈ l2 -> nicr b <= nicr id) as G2.
  { intros b Hb. apply orb_true_iff in F2 as [->%bool_decide_eq_true|F2%Z.leb_le]; [by apply not_elem_of_nil in Hb|].
    pose proof (ordered_head nicr l2 b O2 Hb). lia. }
  apply ordered_app. split_and!; [done| |].
  - apply (ordered_app nicr [id] l2). split_and!; [by repeat constructor|done|].
    intros a b ->%list_elem_of_singleton. auto.
  - intros a b Ha [->|Hb]%elem_of_cons; auto.
Qed.

Lemma ordered_remove nicr l1 l2 id : ordered nicr (l1 ++ id :: l2) -> ordered nicr (l1 ++ l2).
Proof.
  rewrite !ordered_app. intros (O1 & O2 & O3). apply (ordered_app nicr [id] l2) in O2 as (_ & O2 & _).
  split_and!; [done..|]. intros a b Ha Hb. apply O3; [done|by right].
Qed.

(** ** Insertion *)

(** The guards of [_insert]. *)
Lemma insert_guards f gas d id x prev next d' : _insert f gas d id x prev next = Ok d' ->
  isFull d = false /\ contains d id = false /\ id <> address0 /\ 0 < x.
Proof.
  unfold _insert, require. destruct (isFull d); [done|]. destruct (contains d id); [done|].
  unfold is_zero. case_bool_decide; [done|]. cbn [negb bind]. by case_Zb.
Qed.

Lemma insert_refines_lemma getNominalICR nicr gas d l id prev next :
  rep d l -> ordered nicr l -> (forall a, a ∈ l -> getNominalICR a = Ok (nicr a)) ->
  (exists n, getNominalICR address0 = Ok n) -> id ∉ l -> id <> address0 -> 0 < nicr id ->
  size d <> maxSize d -> size d + 1 < UINT256 -> (length l <= gas)%nat ->
  exists d' l1 l2, l = l1 ++ l2 /\ _insert getNominalICR gas d id (nicr id) prev next = Ok d' /\
    rep d' (l1 ++ id :: l2) /\ ordered nicr (l1 ++ id :: l2) /\ size d' = size d + 1.
Proof.
  intros R O N N0 I Z0 P M U G. unfold _insert, isFull. rewrite (proj2 (Z.eqb_neq _ _) M).
  rewrite (contains_rep d l), bool_decide_eq_false_2 by done. unfold is_zero. rewrite bool_decide_eq_false_2 by done.
  cbn [negb require bind]. rewrite (proj2 (Z.ltb_lt _ _) P). cbn [require bind].
  assert (exists prev' next', (let! valid := _validInsertPosition getNominalICR d (nicr id) prev next in
     if valid then Ok (prev, next) else _findInsertPosition getNominalICR gas d (nicr id) prev next) = Ok (prev', next') /\
     position nicr l (nicr id) prev' next') as (p & q & E & l1 & l2 & El & -> & -> & F).
  { destruct (valid_hint getNominalICR nicr d l R N (nicr id) prev next) as ([] & -> & V); cbn [bind].
    - eexists _, _. by split; [|apply V].
    - by apply (find_position getNominalICR nicr d l R N). }
  apply bind_Ok_inv in E as (v & -> & E). cbn [bind]. rewrite E. cbn [bind fst snd]. subst l.
  destruct (link_ends d l1 l2 id R I) as (_ & _ & Es). rewrite Es.
  pose proof (rep_length _ _ R). rewrite add_fits by (unfold is_uint; pose proof UINT256_pos; lia). cbn [bind].
  eexists _, l1, l2. split_and!; [done..|by apply link_rep|by apply ordered_insert|done].
Qed.

(** C16: whatever position hints are given, [_insert] of a new node into a list with
    room puts it at a place where its ratio fits: the storage then holds the old
    list with the node added, still in descending order of ratios.  The walk
    needs no more steps than the list has nodes. *)
Theorem insert_any_hints getNominalICR nicr gas d l id prev next :
  rep d l -> ordered nicr l -> (forall a, a ∈ l -> getNominalICR a = Ok (nicr a)) ->
  (exists n, getNominalICR address0 = Ok n) -> id ∉ l -> id <> address0 -> 0 < nicr id ->
  size d <> maxSize d -> size d + 1 < UINT256 -> (length l <= gas)%nat ->
  exists d' l1 l2, l = l1 ++ l2 /\ _insert getNominalICR gas d id (nicr id) prev next = Ok d' /\
    rep d' (l1 ++ id :: l2) /\ ordered nicr (l1 ++ id :: l2).
Proof.
  intros. destruct (insert_refines_lemma getNominalICR nicr gas d l id prev next) as (d' & l1 & l2 & H');
    [done..|]. exists d', l1, l2. tauto.
Qed.

Definition empty_data (n : Z) : Data := mkData address0 address0 n 0 ∅.

Lemma empty_rep n : rep (empty_data n) [].
Proof.
  split; simpl; try done; [constructor|by apply not_elem_of_nil|by intros [] ? ?].
Qed.

Definition sample_ratio (a : address) : Z := if bool_decide (a = "0xB"%string) then 7 else 5.

Lemma insert_any_hints_witness :
  exists d' l1 l2, [] = l1 ++ l2 /\ _insert (fun a => Ok (sample_ratio a)) 0 (empty_data 10) "0xB" 7 "0xZ" "0xY" = Ok d' /\
    rep d' (l1 ++ "0xB"%string :: l2) /\ ordered sample_ratio (l1 ++ "0xB"%string :: l2).
Proof.
  apply (insert_any_hints (fun a => Ok (sample_ratio a)) sample_ratio 0 (empty_data 10) []).
  - apply empty_rep.
  - constructor.
  - done.
  - by exists 5.
  - apply not_elem_of_nil.
  - done.
  - vm_compute. done.
  - done.
  - vm_compute. done.
  - simpl. lia.
Defined.

(** ** Every reachable list is sorted *)

(** A call on the contract, with the ratio the node has from then on, or a change of all ratios. *)
Inductive list_op : Type :=
| Insert (sender id : address) (NICR : Z) (prev next : address)
| Remove (sender id : address)
| ReInsert (sender id : address) (NICR : Z) (prev next : address)
| Drift (nicr : address -> Z).

Definition set_ratio (nicr : address -> Z) (id : address) (x : Z) (a : address) : Z :=
  if decide (a = id) then x else nicr a.

(** The nodes keep their order. *)
Definition keeps_order (d : Data) (nicr nicr' : address -> Z) : bool :=
  let ids := filter (fun a => contains d a = true) (map fst (map_to_list (nodes d))) in
  forallb (fun a => forallb (fun b => implb (nicr a <=? nicr b) (nicr' a <=? nicr' b)) ids) ids.

(** The ratios are those of the moment.  They drift when liquidations redistribute rewards, by which the nodes keep their order.
    A walk visits no node twice, so the size of the list is gas enough. *)
Definition list_step (st : SortedTroves * (address -> Z)) (op : list_op) : SortedTroves * (address -> Z) :=
  let '(s, nicr) := st in
  let gas := Z.to_nat (size (data s)) in
  match op with
  | Insert sender id x prev next =>
      match insert (fun a => Ok (nicr a)) gas s sender id x prev next with
      | Ok s' => (s', set_ratio nicr id x)
      | Throw _ => st
      end
  | Remove sender id => match remove s sender id with Ok s' => (s', nicr) | Throw _ => st end
  | ReInsert sender id x prev next =>
      match reInsert (fun a => Ok (set_ratio nicr id x a)) gas s sender id x prev next with
      | Ok s' => (s', set_ratio nicr id x)
      | Throw _ => st
      end
  | Drift nicr' => if keeps_order (data s) nicr nicr' then (s, nicr') else st
  end.

Definition sorted_state (st : SortedTroves * (address -> Z)) : Prop :=
  exists l, rep (data st.1) l /\ ordered st.2 l /\ size (data st.1) < UINT256.

Lemma size_of_insert f gas d id x prev next d' : _insert f gas d id x prev next = Ok d' ->
  is_uint (size d) -> size d + 1 < UINT256.
Proof.
  intros H S. destruct (decide (size d + 1 < UINT256)) as [|L]; [done|exfalso]. unfold _insert in H. inv_ok.
  assert (forall p q, size (link d id p q) = size d) as Hs.
  { intros p q. unfold link. destruct (is_zero p), (is_zero q); done. }
  match goal with H : SafeMath.add _ _ = Ok _ |- _ =>
    rewrite Hs, add_cases in H by (done || by apply small_uint);
    rewrite (proj2 (Z.ltb_ge _ _)) in H by lia; discriminate H end.
Qed.

(** *** Insertion that reads ratios which need not be in order

    Redistribution changes the ratios of all Troves, each rounded on its own, so the
    list may be out of order by a rounding.  An insertion that succeeds keeps the
    list well formed all the same: the walk down starts at a ratio that is not below
    the new one, the walk up at one that is not above, and so each stops at a gap. *)

Definition succeeds_as {A} (r r' : result A) : Prop := forall v, r = Ok v -> r' = Ok v.

Section Monotone.
Context (f f' : address -> result Z) (d : Data) (x : Z).
Context (mono : forall a, succeeds_as (f a) (f' a)).

Lemma valid_mono prev next :
  succeeds_as (_validInsertPosition f d x prev next) (_validInsertPosition f' d x prev next).
Proof.
  intros v. unfold _validInsertPosition.
  repeat match goal with |- context [if ?b then _ else _] => destruct b; try done end; intros H;
    repeat match goal with
    | H : bind (f ?a) _ = Ok _ |- _ =>
        let n := fresh "n" in let E := fresh "E" in
        apply bind_Ok_inv in H as (n & E & H); rewrite (mono a n E); cbn [bind]
    | H : (if ?b then _ else _) = Ok _ |- _ => destruct b
    end; done.
Qed.

Lemma descend_mono gas : forall gas' prev next, (gas <= gas')%nat ->
  succeeds_as (descend_loop f gas d x prev next) (descend_loop f' gas' d x prev next).
Proof.
  induction gas as [|gas IH]; intros gas' prev next G v H; cbn [descend_loop] in H;
    destruct gas' as [|gas']; try lia; cbn [descend_loop]; destruct (is_zero prev); try done;
    apply bind_Ok_inv in H as (b & E & H); rewrite (valid_mono _ _ _ E); cbn [bind]; destruct b; try done.
  apply IH; [lia|done].
Qed.

Lemma ascend_mono gas : forall gas' prev next, (gas <= gas')%nat ->
  succeeds_as (ascend_loop f gas d x prev next) (ascend_loop f' gas' d x prev next).
Proof.
  induction gas as [|gas IH]; intros gas' prev next G v H; cbn [ascend_loop] in H;
    destruct gas' as [|gas']; try lia; cbn [ascend_loop]; destruct (is_zero next); try done;
    apply bind_Ok_inv in H as (b & E & H); rewrite (valid_mono _ _ _ E); cbn [bind]; destruct b; try done.
  apply IH; [lia|done].
Qed.

Lemma keep_hint_mono w id : succeeds_as (keep_hint f d w id) (keep_hint f' d w id).
Proof.
  intros v. unfold keep_hint. destruct (is_zero id); [done|]. destruct (contains d id); [|done]. intros H.
  apply bind_Ok_inv in H as (n & E & H). by rewrite (mono id n E).
Qed.

(** The comparison with the end of the list where a walk starts. *)
Lemma end_check_mono (b : bool) a (p : Z -> bool) :
  succeeds_as (if b then let! n := f a in Ok (p n) else Ok false)
              (if b then let! n := f' a in Ok (p n) else Ok false).
Proof. intros v. destruct b; [|done]. intros H. apply bind_Ok_inv in H as (n & E & H). by rewrite (mono a n E). Qed.

Lemma find_mono gas gas' prev next : (gas <= gas')%nat ->
  succeeds_as (_findInsertPosition f gas d x prev next) (_findInsertPosition f' gas' d x prev next).
Proof.
  intros G v H. unfold _findInsertPosition in *.
  apply bind_Ok_inv in H as (p & E & H). rewrite (keep_hint_mono _ _ _ E). cbn [bind].
  apply bind_Ok_inv in H as (q & E' & H). rewrite (keep_hint_mono _ _ _ E'). cbn [bind].
  assert (forall a, succeeds_as (_descendList f gas d x a) (_descendList f' gas' d x a)) as Down.
  { intros a v' Hd. unfold _descendList in *. apply bind_Ok_inv in Hd as (b & Eb & Hd).
    rewrite (end_check_mono _ _ _ _ Eb). cbn [bind]. destruct b; [done|]. by apply descend_mono with gas. }
  destruct (is_zero p && is_zero q); [by apply Down|]. destruct (is_zero p); [|by apply Down].
  unfold _ascendList in *. apply bind_Ok_inv in H as (b & Eb & H).
  rewrite (end_check_mono _ _ _ _ Eb). cbn [bind]. destruct b; [done|]. by apply ascend_mono with gas.
Qed.
End Monotone.

Lemma insert_keeps_rep f gas d l id x prev next d' :
  rep d l -> is_uint (size d) -> _insert f gas d id x prev next = Ok d' ->
  exists l1 l2, l = l1 ++ l2 /\ (id ∉ l) /\ rep d' (l1 ++ id :: l2) /\ size d + 1 < UINT256.
Proof.
  intros R S H. pose proof (size_of_insert _ _ _ _ _ _ _ _ H S) as U.
  destruct (insert_guards _ _ _ _ _ _ _ _ H) as (_ & C & Z0 & P).
  set (nicr a := match f a with Ok n => n | Throw _ => 0 end).
  set (f' a := @Ok Z (nicr a)).
  assert (forall a, succeeds_as (f a) (f' a)) as M.
  { intros a v E. unfold f', nicr. by rewrite E. }
  assert (N : forall a, a ∈ l -> f' a = Ok (nicr a)) by done.
  assert (id ∉ l) as I. { intros I. rewrite (contains_rep d l) in C by done. by apply bool_decide_eq_false in C. }
  unfold _insert in H. apply bind_Ok_inv in H as (u1 & _ & H). apply bind_Ok_inv in H as (u2 & _ & H).
  apply bind_Ok_inv in H as (u3 & _ & H). apply bind_Ok_inv in H as (u4 & _ & H).
  apply bind_Ok_inv in H as (v & Ev & H). apply bind_Ok_inv in H as ([p q] & E & H). cbn [fst snd] in H.
  assert (position nicr l x p q) as (l1 & l2 & -> & -> & -> & _).
  { apply (valid_mono f f' d x M) in Ev. destruct v.
    - injection E as <- <-. destruct (valid_hint f' nicr d l R N x prev next) as (b & Eb & V).
      rewrite Ev in Eb. injection Eb as <-. by apply V.
    - apply (find_mono f f' d x M gas (Nat.max gas (length l))) in E; [|lia].
      destruct (find_position f' nicr d l R N x) with (gas := Nat.max gas (length l)) (prev := prev) (next := next)
        as (p' & q' & E' & V); [by eexists|lia|]. rewrite E in E'. by injection E' as -> ->. }
  destruct (link_ends d l1 l2 id R I) as (_ & _ & Es).
  apply bind_Ok_inv in H as (n & En & H). injection H as <-. rewrite Es, add_fits in En by (done || by apply small_uint).
  injection En as <-. exists l1, l2. split_and!; [done..|by apply link_rep|done].
Qed.

Lemma insert_sorted d l nicr id x gas prev next d' :
  rep d l -> ordered nicr l -> size d < UINT256 -> id ∉ l -> (length l <= gas)%nat ->
  (forall a, a ∈ l -> set_ratio nicr id x a = nicr a) ->
  forall f, (forall a, a ∈ l -> f a = Ok (nicr a)) -> (exists n, f address0 = Ok n) ->
  _insert f gas d id x prev next = Ok d' -> sorted_state (mkSortedTroves address0 address0 address0 d', set_ratio nicr id x).
Proof.
  intros R O S I G E f N N0 H. destruct (insert_guards _ _ _ _ _ _ _ _ H) as (F & _ & Z0 & P).
  pose proof (rep_length _ _ R) as Hs.
  assert (set_ratio nicr id x id = x) as X by (unfold set_ratio; by rewrite decide_True).
  destruct (insert_refines_lemma f (set_ratio nicr id x) gas d l id prev next) as (d2 & l1 & l2 & -> & H' & R' & O' & S').
  - done.
  - apply (ordered_ext nicr); [|done]. intros a Ha. by rewrite E.
  - intros a Ha. by rewrite E, N.
  - done.
  - done.
  - done.
  - by rewrite X.
  - by apply Z.eqb_neq.
  - apply (size_of_insert _ _ _ _ _ _ _ _ H). unfold is_uint. lia.
  - done.
  - rewrite X, H in H'. injection H' as <-. exists (l1 ++ id :: l2). simpl. split_and!; [done..|].
    rewrite S'. apply (size_of_insert _ _ _ _ _ _ _ _ H). unfold is_uint. lia.
Qed.

Lemma set_ratio_ne nicr id x (l : list address) a : id ∉ l -> a ∈ l -> set_ratio nicr id x a = nicr a.
Proof. intros I Ha. unfold set_ratio. rewrite decide_False; [done|]. by intros ->. Qed.

Lemma split_elem (l : list address) id : id ∈ l -> exists l1 l2, l = l1 ++ id :: l2.
Proof. apply list_elem_of_split. Qed.

Lemma removed_rep d l id d' : rep d l -> is_uint (size d) -> _remove d id = Ok d' ->
  exists l1 l2, l = l1 ++ id :: l2 /\ rep d' (l1 ++ l2) /\ maxSize d' = maxSize d.
Proof.
  intros R U H. assert (id ∈ l) as (l1 & l2 & ->)%split_elem.
  { unfold _remove in H. apply bind_Ok_inv in H as (u & H & _). rewrite (contains_rep d l) in H by done.
    by case_bool_decide. }
  destruct (remove_rep d l1 l2 id R U) as (d2 & H' & R' & M). rewrite H in H'. injection H' as <-. by exists l1, l2.
Qed.

Lemma keeps_order_le d l nicr nicr' a b : rep d l -> keeps_order d nicr nicr' = true -> a ∈ l -> b ∈ l -> nicr a <= nicr b -> nicr' a <= nicr' b.
Proof.
  intros R K Ha Hb L. assert (forall x, x ∈ l -> x ∈ filter (fun a => contains d a = true) (map fst (map_to_list (nodes d)))) as In.
  { intros x Hx. assert (contains d x = true) as C by (rewrite (contains_rep d l) by done; by apply bool_decide_eq_true). apply list_elem_of_filter. split; [done|].
    unfold contains, node in C. destruct (nodes d !! x) as [y|] eqn:E; [|done]. apply list_elem_of_fmap. exists (x, y). by rewrite elem_of_map_to_list. }
  unfold keeps_order in K. rewrite forallb_forall in K. specialize (K a (proj1 (list_elem_of_In _ _) (In a Ha))).
  rewrite forallb_forall in K. specialize (K b (proj1 (list_elem_of_In _ _) (In b Hb))). apply Z.leb_le in L. rewrite L in K. by apply Z.leb_le.
Qed.

Lemma ordered_drift d l nicr nicr' : rep d l -> keeps_order d nicr nicr' = true -> ordered nicr l -> ordered nicr' l.
Proof.
  intros R K. assert (forall a b, a ∈ l -> b ∈ l -> nicr a <= nicr b -> nicr' a <= nicr' b) as M by (intros a b; by apply (keeps_order_le d)). clear R K.
  unfold ordered. induction 1 as [|a l S IH F]; [constructor|]. constructor; [apply IH; intros; apply M; [by right..|done]|].
  rewrite Forall_forall in *. intros b Hb. apply M; [by right|by left|by apply F].
Qed.

Lemma list_step_sorted st op : sorted_state st -> sorted_state (list_step st op).
Proof.
  destruct st as [s nicr]. intros (l & R & O & S). simpl in *. pose proof (rep_length _ _ R) as Hs.
  assert (is_uint (size (data s))) as U by (unfold is_uint; lia).
  destruct op as [sender id x p n|sender id|sender id x p n|nicr']; simpl.
  - destruct (insert _ _ s sender id x p n) as [s'|e] eqn:H; [|by exists l]. unfold insert in H. inv_ok.
    destruct (insert_guards _ _ _ _ _ _ _ _ Hok0) as (_ & C & _ & _).
    rewrite (contains_rep _ l) in C by done. apply bool_decide_eq_false in C.
    eapply (insert_sorted (data s) l nicr id x) in Hok0; [exact Hok0|done|done|done|done|lia| | |].
    + intros b. by apply set_ratio_ne.
    + done.
    + by eexists.
  - destruct (remove s sender id) as [s'|e] eqn:H; [|by exists l]. unfold remove in H. inv_ok.
    apply (removed_rep _ l) in Hok0 as (l1 & l2 & -> & R' & _); [|done..].
    exists (l1 ++ l2). simpl. split_and!; [done|by eapply ordered_remove|].
    rewrite (rep_length _ _ R'). rewrite Hs in S. rewrite length_app in *. simpl in S. lia.
  - destruct (reInsert _ _ s sender id x p n) as [s'|e] eqn:H; [|by exists l]. unfold reInsert in H. inv_ok.
    apply (removed_rep _ l) in Hok2 as (l1 & l2 & -> & R' & _); [|done..].
    pose proof (rep_nodup _ _ R) as N. rewrite <- Permutation_middle in N. apply NoDup_cons in N as [N _].
    rewrite length_app in Hs. simpl in Hs. pose proof (rep_length _ _ R') as Hs'. rewrite length_app in Hs'.
    eapply (insert_sorted _ (l1 ++ l2) nicr id x) in Hok3; [exact Hok3|done| |lia|done|rewrite length_app; lia| | |].
    + by eapply ordered_remove.
    + intros b. by apply set_ratio_ne.
    + intros b Hb. f_equal. by apply (set_ratio_ne _ _ _ (l1 ++ l2)).
    + by eexists.
  - destruct (keeps_order _ _ _) eqn:K; [|by exists l]. exists l. split_and!; [done|by apply (ordered_drift (data s) l nicr)|done].
Qed.

Lemma reachable_sorted owner bo tm n nicr ops :
  sorted_state (fold_left list_step ops (mkSortedTroves owner bo tm (empty_data n), nicr)).
Proof.
  assert (sorted_state (mkSortedTroves owner bo tm (empty_data n), nicr)) as H.
  { exists []. simpl. pose proof UINT256_pos. split_and!; [apply empty_rep|constructor|lia]. }
  revert H. generalize (mkSortedTroves owner bo tm (empty_data n), nicr). induction ops as [|op ops IH]; intros st H; [done|].
  simpl. by apply IH, list_step_sorted.
Qed.

(** After any sequence of calls that insert, remove and re-insert nodes, by any
    callers with any hints, the storage is a well-formed doubly linked list whose
    nodes are in descending order of their current ratios, when these change between the calls in such a way that the nodes keep their order. *)
Theorem sorted_list_reachable owner bo tm n nicr ops :
  sorted_state (fold_left list_step ops (mkSortedTroves owner bo tm (empty_data n), nicr)).
Proof. apply reachable_sorted. Qed.

(** The external functions change the list only for the contracts they are
    meant for: anyone else's call reverts, and so does the insertion of a node
    already present, of the zero address or of a zero ratio. *)
Theorem sorted_list_access f gas s sender id x prev next :
  (sender <> st_troveManager s -> is_ok (remove s sender id) = false) /\
  (sender <> st_troveManager s -> sender <> st_borrowerOperationsAddress s ->
     is_ok (insert f gas s sender id x prev next) = false /\
     is_ok (reInsert f gas s sender id x prev next) = false) /\
  (contains (data s) id = true \/ id = address0 \/ x <= 0 ->
     is_ok (insert f gas s sender id x prev next) = false).
Proof.
  split_and!.
  - intros H. unfold remove, _requireCallerIsTroveManager, same. by rewrite bool_decide_eq_false_2.
  - intros H1 H2. unfold insert, reInsert, _requireCallerIsBOorTroveM, same. by rewrite !bool_decide_eq_false_2.
  - intros H. destruct (insert f gas s sender id x prev next) as [s'|e] eqn:E; [exfalso|done].
    unfold insert in E. inv_ok. destruct (insert_guards _ _ _ _ _ _ _ _ Hok0) as (_ & C & Z0 & P).
    destruct H as [H|[H|H]]; [congruence|done|lia].
Qed.
