(* ===== verification/Ledger.v ===== *)
(** * Sums over the accounts of a mapping

    [total f m] adds [f account entry] over the entries of a mapping.  The
    invariants of the protocol compare such sums with the counters the contracts
    keep. *)

From S2P Require Import Prelude Solidity.
Local Open Scope Z_scope.

Definition total {A} (f : address -> A -> Z) (m : gmap address A) : Z :=
  map_fold (fun a x acc => f a x + acc) 0 m.

Section Total.
Context {A : Type}.
Implicit Types (f g : address -> A -> Z) (m : gmap address A).

Lemma total_empty f : total f ∅ = 0.
Proof. apply map_fold_empty. Qed.

Lemma total_insert_fresh f m a x : m !! a = None -> total f (<[a := x]> m) = f a x + total f m.
Proof. intros H. unfold total. rewrite map_fold_insert_L; [done| |done]. intros. lia. Qed.

Lemma total_delete f m a x : m !! a = Some x -> total f m = f a x + total f (delete a m).
Proof.
  intros H. rewrite <- (insert_delete_id m a x) at 1 by done. apply total_insert_fresh, lookup_delete_eq.
Qed.

(** Writing an entry: [d] stands for an entry that is missing. *)
Lemma total_insert f m a x d : f a d = 0 ->
  total f (<[a := x]> m) = total f m - f a (default d (m !! a)) + f a x.
Proof.
  intros Hd. destruct (m !! a) as [y|] eqn:E; cbn.
  - rewrite <- insert_delete_eq, total_insert_fresh by apply lookup_delete_eq.
    rewrite (total_delete f m a y) by done. lia.
  - rewrite total_insert_fresh by done. lia.
Qed.

Lemma total_ind (P : Z -> Prop) f m :
  P 0 -> (forall a x n, m !! a = Some x -> P n -> P (f a x + n)) -> P (total f m).
Proof.
  intros H0 Hs. revert Hs. induction m as [|a x m Hn IH] using map_ind; intros Hs; [by rewrite total_empty|].
  rewrite total_insert_fresh by done. apply Hs; [apply lookup_insert_eq|].
  apply IH. intros b y n Hb. apply Hs. rewrite lookup_insert_ne; [done|]. intros ->. congruence.
Qed.

Lemma total_ext f g m : (forall a x, m !! a = Some x -> f a x = g a x) -> total f m = total g m.
Proof.
  induction m as [|a x m Hn IH] using map_ind; intros H; [by rewrite !total_empty|].
  rewrite !total_insert_fresh by done. rewrite (H a x) by apply lookup_insert_eq. f_equal.
  apply IH. intros b y Hb. apply H. rewrite lookup_insert_ne; [done|]. intros ->. congruence.
Qed.

Lemma total_nonneg f m : (forall a x, m !! a = Some x -> 0 <= f a x) -> 0 <= total f m.
Proof. intros H. apply total_ind; [lia|]. intros a x n Hx Hn. specialize (H a x Hx). lia. Qed.

Lemma total_elem f m a x :
  (forall a x, m !! a = Some x -> 0 <= f a x) -> m !! a = Some x -> f a x <= total f m.
Proof.
  intros H Ha. rewrite (total_delete f m a x) by done.
  assert (0 <= total f (delete a m)); [|lia]. apply total_nonneg. intros b y Hb. apply (H b).
  apply lookup_delete_Some in Hb. tauto.
Qed.

Lemma total_add f g m : total (fun a x => f a x + g a x) m = total f m + total g m.
Proof.
  induction m as [|a x m Hn IH] using map_ind; [by rewrite !total_empty|].
  rewrite !total_insert_fresh by done. lia.
Qed.

Lemma total_scale f m k : total (fun a x => k * f a x) m = k * total f m.
Proof.
  induction m as [|a x m Hn IH] using map_ind; [rewrite !total_empty; lia|].
  rewrite !total_insert_fresh by done. lia.
Qed.
End Total.

(** The entries named in a list without repetition each count at least once. *)
Lemma total_count {A} (f : address -> A -> Z) (m : gmap address A) (l : list address) :
  (forall a x, m !! a = Some x -> 0 <= f a x) ->
  NoDup l -> (forall a, a ∈ l -> exists x, m !! a = Some x /\ 1 <= f a x) ->
  Z.of_nat (length l) <= total f m.
Proof.
  intros H. revert m H. induction l as [|a l IH]; intros m H Hd Hl; cbn [length].
  - by apply total_nonneg.
  - apply NoDup_cons in Hd as [Ha Hd]. destruct (Hl a) as (x & Hx & Hf); [left|].
    rewrite (total_delete f m a x) by done.
    assert (Z.of_nat (length l) <= total f (delete a m)); [|lia]. apply IH; [|done|].
    + intros b y Hb. apply (H b). apply lookup_delete_Some in Hb. tauto.
    + intros b Hb. destruct (Hl b) as (y & Hy & Hfy); [by right|]. exists y. split; [|done].
      rewrite lookup_delete_ne; [done|]. by intros ->.
Qed.
