(* ===== verification/ChainState.v ===== *)
(** * Storage of the protocol contracts (contracts/contracts)

    TroveManagerStorage.sol, ActivePoolStorage.sol, DefaultPoolStorage.sol,
    LiquityBaseParams.sol and the functions of Dependencies/LiquityBase.sol.  The
    storage of the contracts is one record; a function is a call on it.  The
    addresses the contracts keep of each other are those of the deployment.
    Events are not part of the storage. *)

From S2P Require Import Prelude Solidity SortedTroves.
Local Open Scope Z_scope.

(** ** Storage *)

Inductive Status : Type :=
| nonExistent_ | active_ | closedByOwner_ | closedByLiquidation_ | closedByRedemption_.

#[export] Instance Status_eq_dec : EqDecision Status.
Proof. solve_decision. Defined.

Record ChainTrove : Type := mkChainTrove {
  t_debt : Z; t_coll : Z; t_stake : Z; t_status : Status; t_arrayIndex : Z }.

Record ChainSnapshot : Type := mkChainSnapshot { snapshot_ETH : Z; snapshot_ZUSDDebt : Z }.

Record Manager : Type := mkManager {
  baseRate : Z;
  lastFeeOperationTime : Z;
  Troves : gmap address ChainTrove;
  totalStakes : Z;
  totalStakesSnapshot : Z;
  totalCollateralSnapshot : Z;
  L_ETH : Z;
  L_ZUSDDebt : Z;
  rewardSnapshots : gmap address ChainSnapshot;
  TroveOwners : list address;
  lastETHError_Redistribution : Z;
  lastZUSDDebtError_Redistribution : Z }.

Record Pool : Type := mkPool { pool_ETH : Z; pool_ZUSDDebt : Z }.

Record Params : Type := mkParams {
  MCR : Z;
  CCR : Z;
  PERCENT_DIVISOR : Z;
  BORROWING_FEE_FLOOR : Z;
  REDEMPTION_FEE_FLOOR : Z;
  MAX_BORROWING_FEE : Z }.

(** ZUSDTokenStorage.sol *)
Record Token : Type := mkToken {
  _totalSupply : Z;
  _balances : gmap address Z;
  _allowances : gmap (address * address) Z;
  _nonces : gmap address Z }.

(** CollSurplusPoolStorage.sol *)
Record Surplus : Type := mkSurplus { surplus_ETH : Z; surplus_balances : gmap address Z }.

(** StabilityPoolStorage.sol *)
Record FrontEnd : Type := mkFrontEnd { kickbackRate : Z; registered : bool }.

Record Deposit : Type := mkPoolDeposit { initialValue : Z; frontEndTag : address }.

Record Snapshots : Type := mkSnapshots { snap_S : Z; snap_P : Z; snap_G : Z; snap_scale : Z; snap_epoch : Z }.

(** CommunityIssuanceStorage.sol *)
Record Community : Type := mkCommunity { ZEROSupplyCap : Z; totalZEROIssued : Z; deploymentTime : Z }.

Record Stability : Type := mkStability {
  sp_ETH : Z;
  totalZUSDDeposits : Z;
  deposits : gmap address Deposit;
  depositSnapshots : gmap address Snapshots;
  frontEnds : gmap address FrontEnd;
  frontEndStakes : gmap address Z;
  frontEndSnapshots : gmap address Snapshots;
  sp_P : Z;
  currentScale : Z;
  currentEpoch : Z;
  epochToScaleToSum : gmap (Z * Z) Z;
  epochToScaleToG : gmap (Z * Z) Z;
  lastZEROError : Z;
  lastETHError_Offset : Z;
  lastZUSDLossError_Offset : Z;
  community : Community }.

(** Writes to single variables. *)
Definition set_sp_ETH (p : Stability) (n : Z) : Stability :=
  mkStability n (totalZUSDDeposits p) (deposits p) (depositSnapshots p) (frontEnds p) (frontEndStakes p)
    (frontEndSnapshots p) (sp_P p) (currentScale p) (currentEpoch p) (epochToScaleToSum p) (epochToScaleToG p)
    (lastZEROError p) (lastETHError_Offset p) (lastZUSDLossError_Offset p) (community p).
Definition set_totalDeposits (p : Stability) (n : Z) : Stability :=
  mkStability (sp_ETH p) n (deposits p) (depositSnapshots p) (frontEnds p) (frontEndStakes p)
    (frontEndSnapshots p) (sp_P p) (currentScale p) (currentEpoch p) (epochToScaleToSum p) (epochToScaleToG p)
    (lastZEROError p) (lastETHError_Offset p) (lastZUSDLossError_Offset p) (community p).
Definition set_deposits (p : Stability) (d : gmap address Deposit) (r : gmap address Snapshots) : Stability :=
  mkStability (sp_ETH p) (totalZUSDDeposits p) d r (frontEnds p) (frontEndStakes p)
    (frontEndSnapshots p) (sp_P p) (currentScale p) (currentEpoch p) (epochToScaleToSum p) (epochToScaleToG p)
    (lastZEROError p) (lastETHError_Offset p) (lastZUSDLossError_Offset p) (community p).
Definition set_frontEnds (p : Stability) (f : gmap address FrontEnd) : Stability :=
  mkStability (sp_ETH p) (totalZUSDDeposits p) (deposits p) (depositSnapshots p) f (frontEndStakes p)
    (frontEndSnapshots p) (sp_P p) (currentScale p) (currentEpoch p) (epochToScaleToSum p) (epochToScaleToG p)
    (lastZEROError p) (lastETHError_Offset p) (lastZUSDLossError_Offset p) (community p).
Definition set_frontEndStakes (p : Stability) (k : gmap address Z) (r : gmap address Snapshots) : Stability :=
  mkStability (sp_ETH p) (totalZUSDDeposits p) (deposits p) (depositSnapshots p) (frontEnds p) k r
    (sp_P p) (currentScale p) (currentEpoch p) (epochToScaleToSum p) (epochToScaleToG p)
    (lastZEROError p) (lastETHError_Offset p) (lastZUSDLossError_Offset p) (community p).
Definition set_product (p : Stability) (P scale epoch : Z) : Stability :=
  mkStability (sp_ETH p) (totalZUSDDeposits p) (deposits p) (depositSnapshots p) (frontEnds p) (frontEndStakes p)
    (frontEndSnapshots p) P scale epoch (epochToScaleToSum p) (epochToScaleToG p)
    (lastZEROError p) (lastETHError_Offset p) (lastZUSDLossError_Offset p) (community p).
Definition set_sums (p : Stability) (S G : gmap (Z * Z) Z) : Stability :=
  mkStability (sp_ETH p) (totalZUSDDeposits p) (deposits p) (depositSnapshots p) (frontEnds p) (frontEndStakes p)
    (frontEndSnapshots p) (sp_P p) (currentScale p) (currentEpoch p) S G
    (lastZEROError p) (lastETHError_Offset p) (lastZUSDLossError_Offset p) (community p).
Definition set_errors (p : Stability) (zero eth loss : Z) : Stability :=
  mkStability (sp_ETH p) (totalZUSDDeposits p) (deposits p) (depositSnapshots p) (frontEnds p) (frontEndStakes p)
    (frontEndSnapshots p) (sp_P p) (currentScale p) (currentEpoch p) (epochToScaleToSum p) (epochToScaleToG p)
    zero eth loss (community p).
Definition set_community (p : Stability) (c : Community) : Stability :=
  mkStability (sp_ETH p) (totalZUSDDeposits p) (deposits p) (depositSnapshots p) (frontEnds p) (frontEndStakes p)
    (frontEndSnapshots p) (sp_P p) (currentScale p) (currentEpoch p) (epochToScaleToSum p) (epochToScaleToG p)
    (lastZEROError p) (lastETHError_Offset p) (lastZUSDLossError_Offset p) c.

(** The pool after [setAddresses], before anybody deposits. *)
Definition empty_pool (c : Community) : Stability :=
  mkStability 0 0 ∅ ∅ ∅ ∅ ∅ 1000000000000000000 0 0 ∅ ∅ 0 0 0 c.

(** ZEROStakingStorage.sol *)
Record StakeSnapshot : Type := mkStakeSnapshot { F_ETH_Snapshot : Z; F_ZUSD_Snapshot : Z }.
Record Staking : Type := mkStaking {
  zero_stakes : gmap address Z;
  totalZEROStaked : Z;
  F_ETH : Z;
  F_ZUSD : Z;
  stake_snapshots : gmap address StakeSnapshot }.

Definition set_F_ETH (k : Staking) (n : Z) : Staking := mkStaking (zero_stakes k) (totalZEROStaked k) n (F_ZUSD k) (stake_snapshots k).
Definition set_F_ZUSD (k : Staking) (n : Z) : Staking := mkStaking (zero_stakes k) (totalZEROStaked k) (F_ETH k) n (stake_snapshots k).
Definition set_stakes (k : Staking) (m : gmap address Z) (n : Z) : Staking := mkStaking m n (F_ETH k) (F_ZUSD k) (stake_snapshots k).
Definition set_stake_snapshots (k : Staking) (m : gmap address StakeSnapshot) : Staking :=
  mkStaking (zero_stakes k) (totalZEROStaked k) (F_ETH k) (F_ZUSD k) m.
Definition empty_staking : Staking := mkStaking ∅ 0 0 0 ∅.

(** ZEROTokenStorage.sol: nothing ever writes the balances and the supply. *)
Record ZeroToken : Type := mkZeroToken { zero_allowances : gmap (address * address) Z; zero_nonces : gmap address Z }.

(** The addresses, and two numbers fixed at deployment: an immutable of TroveManagerBase.sol
    and what ZEROToken.sol records. *)
Record Wiring : Type := mkWiring {
  borrowerOperations : address;
  troveManager : address;
  stabilityPool : address;
  activePool : address;
  defaultPool : address;
  sortedTroves : address;
  collSurplusPool : address;
  gasPool : address;
  feeDistributor : address;
  zusdToken : address;
  zeroStaking : address;
  feeSharingCollector : address;
  massetManager : address;
  zeroToken : address;
  liquityBaseParams : address;
  communityIssuance : address;
  fundingWallet : address;
  BOOTSTRAP_PERIOD : Z;
  deploymentStartTime : Z }.

(** [ether] is the balance of every account; [foreign] the storage of the contracts
    outside of the protocol (oracles, Mynt, the fee collector), whatever it holds;
    [contract_owners] what every contract keeps under [KEY_OWNER] (Ownable.sol). *)
Record System : Type := mkSystem {
  wiring : Wiring;
  params : Params;
  manager : Manager;
  active_pool : Pool;
  default_pool : Pool;
  sorted : SortedTroves;
  zusd : Token;
  surplus : Surplus;
  stability : Stability;
  staking : Staking;
  zero : ZeroToken;
  contract_owners : gmap address address;
  FEE_TO_FEE_SHARING_COLLECTOR : Z;
  lastGoodPrice : Z;
  ether : gmap address Z;
  foreign : gmap string Z }.

Definition no_trove : ChainTrove := mkChainTrove 0 0 0 nonExistent_ 0.
Definition no_snapshot : ChainSnapshot := mkChainSnapshot 0 0.

Definition trove (m : Manager) (a : address) : ChainTrove := default no_trove (Troves m !! a).
Definition snapshot (m : Manager) (a : address) : ChainSnapshot := default no_snapshot (rewardSnapshots m !! a).

(** Writes to storage. *)
Definition with_params (s : System) (p : Params) : System :=
  mkSystem (wiring s) p (manager s) (active_pool s) (default_pool s) (sorted s) (zusd s) (surplus s)
    (stability s) (staking s) (zero s) (contract_owners s) (FEE_TO_FEE_SHARING_COLLECTOR s)
    (lastGoodPrice s) (ether s) (foreign s).
Definition with_manager (s : System) (m : Manager) : System :=
  mkSystem (wiring s) (params s) m (active_pool s) (default_pool s) (sorted s) (zusd s) (surplus s)
    (stability s) (staking s) (zero s) (contract_owners s) (FEE_TO_FEE_SHARING_COLLECTOR s)
    (lastGoodPrice s) (ether s) (foreign s).
Definition with_active (s : System) (p : Pool) : System :=
  mkSystem (wiring s) (params s) (manager s) p (default_pool s) (sorted s) (zusd s) (surplus s)
    (stability s) (staking s) (zero s) (contract_owners s) (FEE_TO_FEE_SHARING_COLLECTOR s)
    (lastGoodPrice s) (ether s) (foreign s).
Definition with_default (s : System) (p : Pool) : System :=
  mkSystem (wiring s) (params s) (manager s) (active_pool s) p (sorted s) (zusd s) (surplus s)
    (stability s) (staking s) (zero s) (contract_owners s) (FEE_TO_FEE_SHARING_COLLECTOR s)
    (lastGoodPrice s) (ether s) (foreign s).
Definition with_sorted (s : System) (l : SortedTroves) : System :=
  mkSystem (wiring s) (params s) (manager s) (active_pool s) (default_pool s) l (zusd s) (surplus s)
    (stability s) (staking s) (zero s) (contract_owners s) (FEE_TO_FEE_SHARING_COLLECTOR s)
    (lastGoodPrice s) (ether s) (foreign s).
Definition with_zusd (s : System) (t : Token) : System :=
  mkSystem (wiring s) (params s) (manager s) (active_pool s) (default_pool s) (sorted s) t
    (surplus s) (stability s) (staking s) (zero s) (contract_owners s)
    (FEE_TO_FEE_SHARING_COLLECTOR s) (lastGoodPrice s) (ether s) (foreign s).
Definition with_surplus (s : System) (p : Surplus) : System :=
  mkSystem (wiring s) (params s) (manager s) (active_pool s) (default_pool s) (sorted s) (zusd s) p
    (stability s) (staking s) (zero s) (contract_owners s) (FEE_TO_FEE_SHARING_COLLECTOR s)
    (lastGoodPrice s) (ether s) (foreign s).
Definition with_stability (s : System) (p : Stability) : System :=
  mkSystem (wiring s) (params s) (manager s) (active_pool s) (default_pool s) (sorted s) (zusd s)
    (surplus s) p (staking s) (zero s) (contract_owners s) (FEE_TO_FEE_SHARING_COLLECTOR s)
    (lastGoodPrice s) (ether s) (foreign s).
Definition with_staking (s : System) (k : Staking) : System :=
  mkSystem (wiring s) (params s) (manager s) (active_pool s) (default_pool s) (sorted s) (zusd s)
    (surplus s) (stability s) k (zero s) (contract_owners s) (FEE_TO_FEE_SHARING_COLLECTOR s)
    (lastGoodPrice s) (ether s) (foreign s).
Definition with_zero (s : System) (t : ZeroToken) : System :=
  mkSystem (wiring s) (params s) (manager s) (active_pool s) (default_pool s) (sorted s) (zusd s)
    (surplus s) (stability s) (staking s) t (contract_owners s) (FEE_TO_FEE_SHARING_COLLECTOR s)
    (lastGoodPrice s) (ether s) (foreign s).
Definition with_owners (s : System) (m : gmap address address) : System :=
  mkSystem (wiring s) (params s) (manager s) (active_pool s) (default_pool s) (sorted s) (zusd s)
    (surplus s) (stability s) (staking s) (zero s) m (FEE_TO_FEE_SHARING_COLLECTOR s)
    (lastGoodPrice s) (ether s) (foreign s).
Definition with_share (s : System) (n : Z) : System :=
  mkSystem (wiring s) (params s) (manager s) (active_pool s) (default_pool s) (sorted s) (zusd s)
    (surplus s) (stability s) (staking s) (zero s) (contract_owners s) n (lastGoodPrice s) (ether s)
    (foreign s).
Definition with_price (s : System) (n : Z) : System :=
  mkSystem (wiring s) (params s) (manager s) (active_pool s) (default_pool s) (sorted s) (zusd s)
    (surplus s) (stability s) (staking s) (zero s) (contract_owners s)
    (FEE_TO_FEE_SHARING_COLLECTOR s) n (ether s) (foreign s).
Definition with_ether (s : System) (e : gmap address Z) : System :=
  mkSystem (wiring s) (params s) (manager s) (active_pool s) (default_pool s) (sorted s) (zusd s)
    (surplus s) (stability s) (staking s) (zero s) (contract_owners s)
    (FEE_TO_FEE_SHARING_COLLECTOR s) (lastGoodPrice s) e (foreign s).
Definition with_foreign (s : System) (f : gmap string Z) : System :=
  mkSystem (wiring s) (params s) (manager s) (active_pool s) (default_pool s) (sorted s) (zusd s)
    (surplus s) (stability s) (staking s) (zero s) (contract_owners s)
    (FEE_TO_FEE_SHARING_COLLECTOR s) (lastGoodPrice s) (ether s) f.

(** The contracts of the protocol. *)
Definition core (w : Wiring) : list address :=
  [borrowerOperations w; troveManager w; stabilityPool w; activePool w; defaultPool w; sortedTroves w;
   collSurplusPool w; gasPool w; feeDistributor w; zusdToken w; zeroStaking w].

Definition ether_of (s : System) (a : address) : Z := default 0 (ether s !! a).

(** The value of a call changes hands before the code of the callee runs. *)
Definition pay (from to : address) (value : Z) : call System unit := fun s =>
  if ether_of s from <? value then Throw (Rejected "insufficient balance")
  else
    let s := with_ether s (<[from := ether_of s from - value]> (ether s)) in
    Ok (tt, with_ether s (<[to := ether_of s to + value]> (ether s))).

Definition set_trove (m : Manager) (a : address) (t : ChainTrove) : Manager :=
  mkManager (baseRate m) (lastFeeOperationTime m) (<[a := t]> (Troves m)) (totalStakes m)
    (totalStakesSnapshot m) (totalCollateralSnapshot m) (L_ETH m) (L_ZUSDDebt m) (rewardSnapshots m)
    (TroveOwners m) (lastETHError_Redistribution m) (lastZUSDDebtError_Redistribution m).
Definition set_snapshot (m : Manager) (a : address) (r : ChainSnapshot) : Manager :=
  mkManager (baseRate m) (lastFeeOperationTime m) (Troves m) (totalStakes m)
    (totalStakesSnapshot m) (totalCollateralSnapshot m) (L_ETH m) (L_ZUSDDebt m) (<[a := r]> (rewardSnapshots m))
    (TroveOwners m) (lastETHError_Redistribution m) (lastZUSDDebtError_Redistribution m).
Definition set_totalStakes (m : Manager) (n : Z) : Manager :=
  mkManager (baseRate m) (lastFeeOperationTime m) (Troves m) n
    (totalStakesSnapshot m) (totalCollateralSnapshot m) (L_ETH m) (L_ZUSDDebt m) (rewardSnapshots m)
    (TroveOwners m) (lastETHError_Redistribution m) (lastZUSDDebtError_Redistribution m).
Definition set_owners (m : Manager) (l : list address) : Manager :=
  mkManager (baseRate m) (lastFeeOperationTime m) (Troves m) (totalStakes m)
    (totalStakesSnapshot m) (totalCollateralSnapshot m) (L_ETH m) (L_ZUSDDebt m) (rewardSnapshots m)
    l (lastETHError_Redistribution m) (lastZUSDDebtError_Redistribution m).
Definition set_system_snapshots (m : Manager) (stakes coll : Z) : Manager :=
  mkManager (baseRate m) (lastFeeOperationTime m) (Troves m) (totalStakes m) stakes coll
    (L_ETH m) (L_ZUSDDebt m) (rewardSnapshots m)
    (TroveOwners m) (lastETHError_Redistribution m) (lastZUSDDebtError_Redistribution m).
Definition set_terms (m : Manager) (l_eth l_debt eth_error debt_error : Z) : Manager :=
  mkManager (baseRate m) (lastFeeOperationTime m) (Troves m) (totalStakes m)
    (totalStakesSnapshot m) (totalCollateralSnapshot m) l_eth l_debt (rewardSnapshots m)
    (TroveOwners m) eth_error debt_error.
Definition set_rate (m : Manager) (rate time : Z) : Manager :=
  mkManager rate time (Troves m) (totalStakes m)
    (totalStakesSnapshot m) (totalCollateralSnapshot m) (L_ETH m) (L_ZUSDDebt m) (rewardSnapshots m)
    (TroveOwners m) (lastETHError_Redistribution m) (lastZUSDDebtError_Redistribution m).

(** [assert] *)
Definition sol_assert (b : bool) : result unit := if b then Ok tt else Throw AssertionError.

(** Reading past the end of an array reverts. *)
Definition array_get (l : list address) (i : Z) : result address :=
  if (0 <=? i) && (i <? Z.of_nat (length l)) then Ok (nth (Z.to_nat i) l address0) else Throw RangeError.

(** ** LiquityBase *)

Import LiquityMath.

Definition _100pct : Z := 1000000000000000000.
Definition ZUSD_GAS_COMPENSATION : Z := 20000000000000000000.
Definition MIN_NET_DEBT : Z := 180000000000000000000.

Definition _getCompositeDebt (debt : Z) : result Z := SafeMath.add debt ZUSD_GAS_COMPENSATION.
Definition _getNetDebt (debt : Z) : result Z := SafeMath.sub debt ZUSD_GAS_COMPENSATION.

(** Division by a zero divisor reverts. *)
Definition _getCollGasCompensation (s : System) (entireColl : Z) : result Z :=
  if PERCENT_DIVISOR (params s) =? 0 then Throw AssertionError
  else Ok (entireColl / PERCENT_DIVISOR (params s)).

Definition getEntireSystemColl (s : System) : result Z :=
  SafeMath.add (pool_ETH (active_pool s)) (pool_ETH (default_pool s)).

Definition getEntireSystemDebt (s : System) : result Z :=
  SafeMath.add (pool_ZUSDDebt (active_pool s)) (pool_ZUSDDebt (default_pool s)).

Definition _getTCR (s : System) (price : Z) : result Z :=
  let! coll := getEntireSystemColl s in
  let! debt := getEntireSystemDebt s in
  _computeCR coll debt price.

Definition _checkRecoveryMode (s : System) (price : Z) : result bool :=
  let! TCR := _getTCR s price in Ok (TCR <? CCR (params s)).

Definition _requireUserAcceptsFee (fee amount maxFeePercentage : Z) : result unit :=
  let! n := SafeMath.mul fee DECIMAL_PRECISION in
  let! feePercentage := SafeMath.div n amount in
  require (feePercentage <=? maxFeePercentage) "Fee exceeded provided maximum".

(** LiquityBaseParams.sol: [initialize] *)
Definition initial_params : Params :=
  mkParams 1100000000000000000 1500000000000000000 200 (DECIMAL_PRECISION / 1000 * 5)
    (DECIMAL_PRECISION / 1000 * 5) (DECIMAL_PRECISION / 100 * 5).

(** A low-level call reports failure instead of reverting. *)
Definition or_revert (message : string) (m : call System unit) : call System unit := fun s =>
  match m s with Ok r => Ok r | Throw _ => Throw (Error message) end.
