(* ===== verification/ZUSDToken.v ===== *)
(** * ZUSDToken.sol: the stablecoin *)

From S2P Require Import Prelude Solidity SortedTroves ChainState.
Local Open Scope Z_scope.

Definition balance (t : Token) (a : address) : Z := default 0 (_balances t !! a).
Definition balanceOf (s : System) (a : address) : Z := balance (zusd s) a.
Definition allowance (t : Token) (owner spender : address) : Z := default 0 (_allowances t !! (owner, spender)).

Definition set_balance (t : Token) (a : address) (n : Z) : Token :=
  mkToken (_totalSupply t) (<[a := n]> (_balances t)) (_allowances t) (_nonces t).
Definition set_supply (t : Token) (n : Z) : Token :=
  mkToken n (_balances t) (_allowances t) (_nonces t).

Definition _transfer (t : Token) (sender recipient : address) (amount : Z) : result Token :=
  let! _ := sol_assert (negb (is_zero sender)) in
  let! _ := sol_assert (negb (is_zero recipient)) in
  let! n := SafeMath.sub (balance t sender) amount in
  let t := set_balance t sender n in
  let! n := SafeMath.add (balance t recipient) amount in
  Ok (set_balance t recipient n).

Definition _mint (t : Token) (account : address) (amount : Z) : result Token :=
  let! _ := sol_assert (negb (is_zero account)) in
  let! n := SafeMath.add (_totalSupply t) amount in
  let t := set_supply t n in
  let! n := SafeMath.add (balance t account) amount in
  Ok (set_balance t account n).

Definition _burn (t : Token) (account : address) (amount : Z) : result Token :=
  let! _ := sol_assert (negb (is_zero account)) in
  let! n := SafeMath.sub (balance t account) amount in
  let t := set_balance t account n in
  let! n := SafeMath.sub (_totalSupply t) amount in
  Ok (set_supply t n).

Definition _approve (t : Token) (owner spender : address) (amount : Z) : result Token :=
  let! _ := sol_assert (negb (is_zero owner)) in
  let! _ := sol_assert (negb (is_zero spender)) in
  Ok (mkToken (_totalSupply t) (_balances t) (<[(owner, spender) := amount]> (_allowances t)) (_nonces t)).

(** ** External functions; [sender] is [msg.sender] *)

(** A guard on the caller, then a change of the token. *)
Definition token_call (guard : Wiring -> bool) (message : string) (f : Token -> result Token) : call System unit := fun s =>
  let! _ := require (guard (wiring s)) message in
  let! t := f (zusd s) in
  Ok (tt, with_zusd s t).

Definition by_BO (sender : address) (w : Wiring) : bool := same sender (borrowerOperations w).
Definition by_SP (sender : address) (w : Wiring) : bool := same sender (stabilityPool w).
Definition by_TM_SP (sender : address) (w : Wiring) : bool :=
  same sender (troveManager w) || same sender (stabilityPool w).
Definition by_BO_TM_SP (sender : address) (w : Wiring) : bool := by_BO sender w || by_TM_SP sender w.

Definition mint (sender account : address) (amount : Z) : call System unit :=
  token_call (by_BO sender) "ZUSDToken: Caller is not BorrowerOperations" (fun t => _mint t account amount).

Definition burn (sender account : address) (amount : Z) : call System unit :=
  token_call (by_BO_TM_SP sender) "ZUSD: Caller is neither BorrowerOperations nor TroveManager nor StabilityPool"
    (fun t => _burn t account amount).

Definition sendToPool (sender from pool : address) (amount : Z) : call System unit :=
  token_call (by_SP sender) "ZUSD: Caller is not the StabilityPool" (fun t => _transfer t from pool amount).

Definition returnFromPool (sender pool receiver : address) (amount : Z) : call System unit :=
  token_call (by_TM_SP sender) "ZUSD: Caller is neither TroveManager nor StabilityPool"
    (fun t => _transfer t pool receiver amount).

(** [_requireValidRecipient] *)
Definition valid_recipient (recipient : address) (w : Wiring) : bool :=
  negb (is_zero recipient) && negb (same recipient (zusdToken w)).

Definition invalid_recipient : string :=
  "ZUSD: Cannot transfer tokens directly to the ZUSD token contract or the zero address".

Definition token_transfer (sender recipient : address) (amount : Z) : call System unit :=
  token_call (valid_recipient recipient) invalid_recipient (fun t => _transfer t sender recipient amount).

Definition transferFrom (spender sender recipient : address) (amount : Z) : call System unit :=
  token_call (valid_recipient recipient) invalid_recipient (fun t =>
    let! t := _transfer t sender recipient amount in
    let! n := SafeMath.sub (allowance t sender spender) amount in
    _approve t sender spender n).

Definition approve (sender spender : address) (amount : Z) : call System unit :=
  token_call (fun _ => true) EmptyString (fun t => _approve t sender spender amount).

Definition increaseAllowance (sender spender : address) (addedValue : Z) : call System unit :=
  token_call (fun _ => true) EmptyString (fun t =>
    let! n := SafeMath.add (allowance t sender spender) addedValue in _approve t sender spender n).

Definition decreaseAllowance (sender spender : address) (subtractedValue : Z) : call System unit :=
  token_call (fun _ => true) EmptyString (fun t =>
    let! n := SafeMath.sub (allowance t sender spender) subtractedValue in _approve t sender spender n).

(** [permit]; [recovered nonce] is the address that signed the digest of the arguments
    with this nonce.  [_nonces] wraps around, as unchecked arithmetic does. *)
Definition permit (now : Z) (recovered : Z -> address) (owner spender : address) (amount deadline : Z) : call System unit :=
  token_call (fun _ => now <=? deadline) "ZUSD: expired deadline" (fun t =>
    let nonce := default 0 (_nonces t !! owner) in
    let t := mkToken (_totalSupply t) (_balances t) (_allowances t) (<[owner := wrap (nonce + 1)]> (_nonces t)) in
    let! _ := require (same (recovered nonce) owner) "ZUSD: invalid signature" in
    _approve t owner spender amount).
