(* ===== verification/ActivePool.v ===== *)
(** * ActivePool.sol: collateral and debt of the active Troves *)

From S2P Require Import Prelude Solidity SortedTroves ChainState.
Local Open Scope Z_scope.

Definition by_BO_TM_SP (w : Wiring) (sender : address) : result unit :=
  require (same sender (borrowerOperations w) || same sender (troveManager w) || same sender (stabilityPool w))
    "ActivePool: Caller is neither BorrowerOperations nor TroveManager nor StabilityPool".

Definition by_BO_TM (w : Wiring) (sender : address) : result unit :=
  require (same sender (borrowerOperations w) || same sender (troveManager w))
    "ActivePool: Caller is neither BorrowerOperations nor TroveManager".

Definition set_ETH (s : System) (n : Z) : System := with_active s (mkPool n (pool_ZUSDDebt (active_pool s))).
Definition set_debt (s : System) (n : Z) : System := with_active s (mkPool (pool_ETH (active_pool s)) n).

Definition increaseZUSDDebt (sender : address) (amount : Z) : call System unit := fun s =>
  let! _ := by_BO_TM (wiring s) sender in
  let! n := SafeMath.add (pool_ZUSDDebt (active_pool s)) amount in Ok (tt, set_debt s n).

Definition decreaseZUSDDebt (sender : address) (amount : Z) : call System unit := fun s =>
  let! _ := by_BO_TM_SP (wiring s) sender in
  let! n := SafeMath.sub (pool_ZUSDDebt (active_pool s)) amount in Ok (tt, set_debt s n).

(** [receive()] *)
Definition receive (sender : address) (value : Z) : call System unit := fun s =>
  let! _ := require (same sender (borrowerOperations (wiring s)) || same sender (defaultPool (wiring s)))
              "ActivePool: Caller is neither BO nor Default Pool" in
  let! n := SafeMath.add (pool_ETH (active_pool s)) value in Ok (tt, set_ETH s n).

(** [sendETH]; [transfer] pays the ether and runs the code of the account. *)
Definition sendETH (transfer : address -> address -> Z -> call System unit) (sender account : address) (amount : Z)
    : call System unit :=
  let$ _ := (fun s => let! _ := by_BO_TM_SP (wiring s) sender in
                      let! n := SafeMath.sub (pool_ETH (active_pool s)) amount in Ok (tt, set_ETH s n)) in
  fun s => or_revert "ActivePool: sending ETH failed" (transfer (activePool (wiring s)) account amount) s.
