(* ===== verification/DefaultPool.v ===== *)
(** * DefaultPool.sol: collateral and debt redistributed but not yet applied *)

From S2P Require Import Prelude Solidity SortedTroves ChainState.
From S2P Require Import ActivePool.
Local Open Scope Z_scope.

Definition by_TM (w : Wiring) (sender : address) : result unit :=
  require (same sender (troveManager w)) "DefaultPool: Caller is not the TroveManager".

Definition set_ETH (s : System) (n : Z) : System := with_default s (mkPool n (pool_ZUSDDebt (default_pool s))).
Definition set_debt (s : System) (n : Z) : System := with_default s (mkPool (pool_ETH (default_pool s)) n).

Definition increaseZUSDDebt (sender : address) (amount : Z) : call System unit := fun s =>
  let! _ := by_TM (wiring s) sender in
  let! n := SafeMath.add (pool_ZUSDDebt (default_pool s)) amount in Ok (tt, set_debt s n).

Definition decreaseZUSDDebt (sender : address) (amount : Z) : call System unit := fun s =>
  let! _ := by_TM (wiring s) sender in
  let! n := SafeMath.sub (pool_ZUSDDebt (default_pool s)) amount in Ok (tt, set_debt s n).

Definition receive (sender : address) (value : Z) : call System unit := fun s =>
  let! _ := require (same sender (activePool (wiring s))) "DefaultPool: Caller is not the ActivePool" in
  let! n := SafeMath.add (pool_ETH (default_pool s)) value in Ok (tt, set_ETH s n).

Definition sendETHToActivePool (sender : address) (amount : Z) : call System unit :=
  let$ _ := (fun s => let! _ := by_TM (wiring s) sender in
                      let! n := SafeMath.sub (pool_ETH (default_pool s)) amount in Ok (tt, set_ETH s n)) in
  fun s => or_revert "DefaultPool: sending ETH failed"
             (let$ _ := pay (defaultPool (wiring s)) (activePool (wiring s)) amount in
              ActivePool.receive (defaultPool (wiring s)) amount) s.
