(* ===== verification/CollSurplusPool.v ===== *)
(** * CollSurplusPool.sol: collateral left to the owners of closed Troves *)

From S2P Require Import Prelude Solidity SortedTroves ChainState.
Local Open Scope Z_scope.

Definition getCollateral (s : System) (account : address) : Z := default 0 (surplus_balances (surplus s) !! account).

Definition accountSurplus (sender account : address) (amount : Z) : call System unit := fun s =>
  let! _ := require (same sender (troveManager (wiring s))) "CollSurplusPool: Caller is not TroveManager" in
  let! n := SafeMath.add (getCollateral s account) amount in
  Ok (tt, with_surplus s (mkSurplus (surplus_ETH (surplus s)) (<[account := n]> (surplus_balances (surplus s))))).

(** [receive()] *)
Definition receive (sender : address) (value : Z) : call System unit := fun s =>
  let! _ := require (same sender (activePool (wiring s))) "CollSurplusPool: Caller is not Active Pool" in
  let! n := SafeMath.add (surplus_ETH (surplus s)) value in
  Ok (tt, with_surplus s (mkSurplus n (surplus_balances (surplus s)))).

(** [transfer] pays the ether and runs the code of the account. *)
Definition claimColl (transfer : address -> address -> Z -> call System unit) (sender account : address)
    : call System unit := fun s =>
  let! _ := require (same sender (borrowerOperations (wiring s))) "CollSurplusPool: Caller is not Borrower Operations" in
  let claimableColl := getCollateral s account in
  let! _ := require (0 <? claimableColl) "CollSurplusPool: No collateral available to claim" in
  let balances := <[account := 0]> (surplus_balances (surplus s)) in
  let! n := SafeMath.sub (surplus_ETH (surplus s)) claimableColl in
  let s := with_surplus s (mkSurplus n balances) in
  or_revert "CollSurplusPool: sending ETH failed" (transfer (collSurplusPool (wiring s)) account claimableColl) s.
