(* ===== verification/Outside.v ===== *)
(** * Accounts and contracts outside of the protocol

    Code that is not part of the repository (price oracles, the fee collector of
    Sovryn, the Mynt contracts that convert ZUSD to DLLR, wallets) is an argument of
    the model.  The collector and Mynt answer a call with any sequence of [action]s:
    calls of the ZUSD token, payments and writes to storage of their own, none of
    them in the name of a contract of the protocol.  An account that is paid ether
    runs [receive_outside], which the client of this file chooses; it may call the
    protocol again. *)

From S2P Require Import Prelude Solidity SortedTroves ChainState ZUSDToken ActivePool DefaultPool CollSurplusPool.
Local Open Scope Z_scope.

Inductive action : Type :=
| TransferZUSD (sender recipient : address) (amount : Z)
| TransferFromZUSD (spender sender recipient : address) (amount : Z)
| ApproveZUSD (owner spender : address) (amount : Z)
| IncreaseAllowanceZUSD (owner spender : address) (addedValue : Z)
| DecreaseAllowanceZUSD (owner spender : address) (subtractedValue : Z)
| PermitZUSD (time : Z) (recovered : Z -> address) (owner spender : address) (amount deadline : Z)
| PayEther (from to : address) (value : Z)
| WriteForeign (key : string) (value : Z).

Definition is_core (s : System) (a : address) : bool := bool_decide (a ∈ core (wiring s)).

Definition from_outside (a : address) (m : call System unit) : call System unit := fun s =>
  if is_core s a then Throw (Rejected "not outside of the protocol") else m s.

(** Every amount is a word of the machine. *)
Definition word (n : Z) : result Z := if (0 <=? n) && (n <? UINT256) then Ok n else Throw TypeError.

(** Ether can be sent to a contract by force, without running its code.  A contract has no
    key, so that no permit is signed in its name. *)
Definition run_action (a : action) : call System unit :=
  match a with
  | TransferZUSD sender recipient amount =>
      from_outside sender (let$ n := pure_call (word amount) in token_transfer sender recipient n)
  | TransferFromZUSD spender sender recipient amount =>
      from_outside spender (let$ n := pure_call (word amount) in transferFrom spender sender recipient n)
  | ApproveZUSD owner spender amount =>
      from_outside owner (let$ n := pure_call (word amount) in approve owner spender n)
  | IncreaseAllowanceZUSD owner spender addedValue =>
      from_outside owner (let$ n := pure_call (word addedValue) in increaseAllowance owner spender n)
  | DecreaseAllowanceZUSD owner spender subtractedValue =>
      from_outside owner (let$ n := pure_call (word subtractedValue) in decreaseAllowance owner spender n)
  | PermitZUSD time recovered owner spender amount deadline =>
      from_outside owner (let$ n := pure_call (word amount) in permit time recovered owner spender n deadline)
  | PayEther from to value =>
      from_outside from (let$ n := pure_call (word value) in pay from to n)
  | WriteForeign key value => update_call (fun s => with_foreign s (<[key := value]> (foreign s)))
  end.

Fixpoint run_actions (l : list action) : call System unit :=
  match l with
  | [] => call_ret tt
  | a :: l => let$ _ := run_action a in run_actions l
  end.

(** What a transaction finds outside of the protocol; [walk_gas] bounds the walks
    through the sorted list that its gas allows. *)
Record World : Type := mkWorld {
  now : Z;
  latestAnswer : Z -> System -> result (Z * bool);
  transferTokens : Z -> System -> result (list action);
  transferRBTC : Z -> System -> result (list action);
  mintTo : Z -> address -> System -> result (Z * list action);
  dllr_balanceOf : address -> System -> result Z;
  transferWithPermit : address -> address -> Z -> System -> result (list action);
  redeemTo : Z -> address -> System -> result (Z * list action);
  walk_gas : nat }.

(** A call to one of these contracts: its answer, and what it does. *)
Definition outside_call (f : System -> result (list action)) : call System unit :=
  let$ l := view_call f in run_actions l.
Definition outside_answer (f : System -> result (Z * list action)) : call System Z :=
  let$ r := view_call f in
  let$ _ := run_actions (snd r) in
  pure_call (word (fst r)).

Section Outside.
Variable receive_outside : address -> address -> Z -> call System unit.

(** The code a contract of the protocol runs when it is paid; the others have none. *)
Definition receive_core (from to : address) (value : Z) : call System unit := fun s =>
  let w := wiring s in
  if same to (activePool w) then ActivePool.receive from value s
  else if same to (defaultPool w) then DefaultPool.receive from value s
  else if same to (collSurplusPool w) then CollSurplusPool.receive from value s
  else if same to (stabilityPool w) then
    let! _ := require (same from (activePool w)) "StabilityPool: Caller is not ActivePool" in
    let! n := SafeMath.add (sp_ETH (stability s)) value in
    Ok (tt, with_stability s (set_sp_ETH (stability s) n))
  else if same to (feeDistributor w) then
    let! _ := require (same from (activePool w)) "FeeDistributor: caller is not ActivePool" in Ok (tt, s)
  else if same to (zeroStaking w) then
    let! _ := require (same from (feeDistributor w)) "ZEROStaking: caller is not FeeDistributor" in Ok (tt, s)
  else Throw (Rejected "no receive function").

(** A call that carries a value and no data. *)
Definition transfer (from to : address) (value : Z) : call System unit :=
  let$ _ := pay from to value in
  fun s => if is_core s to then receive_core from to value s else receive_outside from to value s.
End Outside.

(** ** PriceFeed.sol *)

Section Price.
Variable W : World.

Definition _storePrice (price : Z) : call System unit := update_call (fun s => with_price s price).

Definition answer (index : Z) : call System (Z * bool) :=
  view_call (fun s => let! r := latestAnswer W index s in let! price := word (fst r) in Ok (price, snd r)).

(** The loop over the two feeds. *)
Definition fetchPrice : call System Z :=
  let$ main := answer 0 in
  if snd main then let$ _ := _storePrice (fst main) in call_ret (fst main)
  else
    let$ backup := answer 1 in
    if snd backup then let$ _ := _storePrice (fst backup) in call_ret (fst backup)
    else view_call (fun s => Ok (lastGoodPrice s)).
End Price.
