(* ===== verification/FeeDistributor.v ===== *)
(** * FeeDistributor.sol: borrowing and redemption fees

    The fees go to the fee collector of Sovryn and, where the owner set a share for
    them, to the holders of ZERO (the two functions of ZEROStaking.sol that
    FeeDistributor calls). *)

From S2P Require Import Prelude Solidity SortedTroves ChainState ZUSDToken Outside.
Import LiquityMath.
Local Open Scope Z_scope.

(** ** ZEROStaking *)

(** The fee per staked token, zero when nothing is staked. *)
Definition per_ZERO (s : System) (fee : Z) : result Z :=
  if 0 <? totalZEROStaked (staking s) then
    let! n := SafeMath.mul fee DECIMAL_PRECISION in SafeMath.div n (totalZEROStaked (staking s))
  else Ok 0.

Definition increaseF_ETH (sender : address) (fee : Z) : call System unit := fun s =>
  let! _ := require (same sender (feeDistributor (wiring s))) "ZEROStaking: caller is not FeeDistributor" in
  let! per := per_ZERO s fee in
  let! n := SafeMath.add (F_ETH (staking s)) per in
  Ok (tt, with_staking s (set_F_ETH (staking s) n)).

Definition increaseF_ZUSD (sender : address) (fee : Z) : call System unit := fun s =>
  let! _ := require (same sender (feeDistributor (wiring s))) "ZEROStaking: caller is not FeeDistributor" in
  let! per := per_ZERO s fee in
  let! n := SafeMath.add (F_ZUSD (staking s)) per in
  Ok (tt, with_staking s (set_F_ZUSD (staking s) n)).

(** ** Distribution *)

Section Distribution.
Variable W : World.
Variable receive_outside : address -> address -> Z -> call System unit.

Definition collector_share (s : System) (toDistribute : Z) : result Z :=
  let! n := SafeMath.mul toDistribute (FEE_TO_FEE_SHARING_COLLECTOR s) in SafeMath.div n DECIMAL_PRECISION.

(** [uint96(feeToFeeSharingCollector)] keeps 96 bits. *)
Definition _distributeZUSD (toDistribute : Z) : call System unit := fun s =>
  let this := feeDistributor (wiring s) in
  let collector := feeSharingCollector (wiring s) in
  let stakers := zeroStaking (wiring s) in
  (let$ fee := view_call (fun s => collector_share s toDistribute) in
   let$ _ := approve this collector fee in
   let$ _ := outside_call (transferTokens W (fee mod 2 ^ 96)) in
   let$ rest := pure_call (SafeMath.sub toDistribute fee) in
   if negb (rest =? 0) then
     let$ _ := token_transfer this stakers rest in increaseF_ZUSD this rest
   else call_ret tt) s.

Definition _distributeRBTC (toDistribute : Z) : call System unit := fun s =>
  let this := feeDistributor (wiring s) in
  let collector := feeSharingCollector (wiring s) in
  let stakers := zeroStaking (wiring s) in
  (let$ fee := view_call (fun s => collector_share s toDistribute) in
   let$ _ := pay this collector fee in
   let$ _ := outside_call (transferRBTC W fee) in
   let$ rest := pure_call (SafeMath.sub toDistribute fee) in
   if negb (rest =? 0) then
     let$ _ := or_revert "FeeDistributor: sending ETH failed" (transfer receive_outside this stakers rest) in
     increaseF_ETH this rest
   else call_ret tt) s.

Definition distributeFees (sender : address) : call System unit := fun s =>
  let this := feeDistributor (wiring s) in
  let! _ := require (same sender (borrowerOperations (wiring s)) || same sender (troveManager (wiring s)))
              "FeeDistributor: invalid caller" in
  let zusdtoDistribute := balanceOf s this in
  let rbtcToDistribute := ether_of s this in
  (let$ _ := (if negb (zusdtoDistribute =? 0) then _distributeZUSD zusdtoDistribute else call_ret tt) in
   if negb (rbtcToDistribute =? 0) then _distributeRBTC rbtcToDistribute else call_ret tt) s.
End Distribution.
