(* ===== verification/ZEROStaking.v ===== *)
(** * ZERO/ZEROToken.sol and ZERO/ZEROStaking.sol: the token ZERO and fees for its stakers

    This version of the token moves nothing: [_transfer], [_mint] and [_burn] return at
    once.  Allowances are kept.  The fees FeeDistributor sends are shared by stake; a staker
    is paid when the stake changes.  [sender] is [msg.sender]. *)

From S2P Require Import Prelude Solidity SortedTroves ChainState ZUSDToken Outside.
Import LiquityMath.
Local Open Scope Z_scope.

(** ** ZEROToken *)

Definition zero_allowance (t : ZeroToken) (owner spender : address) : Z := default 0 (zero_allowances t !! (owner, spender)).

Definition _requireValidRecipient (w : Wiring) (recipient : address) : result unit :=
  require (negb (is_zero recipient) && negb (same recipient (zeroToken w)))
    "ZERO: Cannot transfer tokens directly to the ZERO token contract or the zero address".

Definition _approveZERO (t : ZeroToken) (owner spender : address) (amount : Z) : result ZeroToken :=
  let! _ := require (negb (is_zero owner)) "ERC20: approve from the zero address" in
  let! _ := require (negb (is_zero spender)) "ERC20: approve to the zero address" in
  Ok (mkZeroToken (<[(owner, spender) := amount]> (zero_allowances t)) (zero_nonces t)).

(** A change of the storage of the token. *)
Definition zero_call (f : ZeroToken -> result ZeroToken) : call System unit := fun s =>
  let! t := f (zero s) in Ok (tt, with_zero s t).

Definition transferZERO (recipient : address) : call System unit :=
  view_call (fun s => _requireValidRecipient (wiring s) recipient).

Definition approveZERO (sender spender : address) (amount : Z) : call System unit :=
  zero_call (fun t => _approveZERO t sender spender amount).

Definition transferFromZERO (sender owner recipient : address) (amount : Z) : call System unit :=
  let$ _ := transferZERO recipient in
  zero_call (fun t =>
    let! n := SafeMath.sub (zero_allowance t owner sender) amount in _approveZERO t owner sender n).

Definition increaseAllowanceZERO (sender spender : address) (addedValue : Z) : call System unit :=
  zero_call (fun t => let! n := SafeMath.add (zero_allowance t sender spender) addedValue in _approveZERO t sender spender n).

Definition decreaseAllowanceZERO (sender spender : address) (subtractedValue : Z) : call System unit :=
  zero_call (fun t => let! n := SafeMath.sub (zero_allowance t sender spender) subtractedValue in _approveZERO t sender spender n).

Definition sendToZEROStaking (sender : address) : call System unit :=
  view_call (fun s => require (same sender (zeroStaking (wiring s))) "ZEROToken: caller must be the ZEROStaking contract").

(** [recovered nonce] is the address that signed the digest of the arguments. *)
Definition permitZERO (now : Z) (recovered : Z -> address) (owner spender : address) (amount deadline : Z) : call System unit :=
  zero_call (fun t =>
    let! _ := require (now <=? deadline) "ZERO: expired deadline" in
    let nonce := default 0 (zero_nonces t !! owner) in
    let t := mkZeroToken (zero_allowances t) (<[owner := wrap (nonce + 1)]> (zero_nonces t)) in
    let! _ := require (same (recovered nonce) owner) "ZERO: invalid signature" in
    _approveZERO t owner spender amount).

(** ** ZEROStaking *)

Definition stake_of (k : Staking) (a : address) : Z := default 0 (zero_stakes k !! a).
Definition no_stake_snapshot : StakeSnapshot := mkStakeSnapshot 0 0.
Definition stake_snapshot (k : Staking) (a : address) : StakeSnapshot := default no_stake_snapshot (stake_snapshots k !! a).

(** The share of a stake in what a running sum has grown by. *)
Definition pending_gain (stake F F_Snapshot : Z) : result Z :=
  let! d := SafeMath.sub F F_Snapshot in
  let! n := SafeMath.mul stake d in
  SafeMath.div n DECIMAL_PRECISION.

Definition _getPendingETHGain (k : Staking) (user : address) : result Z :=
  pending_gain (stake_of k user) (F_ETH k) (F_ETH_Snapshot (stake_snapshot k user)).

Definition _getPendingZUSDGain (k : Staking) (user : address) : result Z :=
  pending_gain (stake_of k user) (F_ZUSD k) (F_ZUSD_Snapshot (stake_snapshot k user)).

Definition _updateUserSnapshots (k : Staking) (user : address) : Staking :=
  set_stake_snapshots k (<[user := mkStakeSnapshot (F_ETH k) (F_ZUSD k)]> (stake_snapshots k)).

Definition staking_call (f : Staking -> result Staking) : call System unit := fun s =>
  let! k := f (staking s) in Ok (tt, with_staking s k).

Section Staking.
Variable receive_outside : address -> address -> Z -> call System unit.

Definition this_staking : call System address := view_call (fun s => Ok (zeroStaking (wiring s))).

Definition _sendETHGainToUser (sender : address) (ETHGain : Z) : call System unit :=
  let$ me := this_staking in
  or_revert "ZEROStaking: Failed to send accumulated ETHGain" (transfer receive_outside me sender ETHGain).

Definition stake (sender : address) (ZEROamount : Z) : call System unit :=
  let$ me := this_staking in
  let$ _ := pure_call (require (0 <? ZEROamount) "ZEROStaking: Amount must be non-zero") in
  let$ currentStake := view_call (fun s => Ok (stake_of (staking s) sender)) in
  let$ ETHGain := view_call (fun s => if negb (currentStake =? 0) then _getPendingETHGain (staking s) sender else Ok 0) in
  let$ ZUSDGain := view_call (fun s => if negb (currentStake =? 0) then _getPendingZUSDGain (staking s) sender else Ok 0) in
  let$ _ := staking_call (fun k => Ok (_updateUserSnapshots k sender)) in
  let$ newStake := pure_call (SafeMath.add currentStake ZEROamount) in
  let$ _ := staking_call (fun k =>
    let! n := SafeMath.add (totalZEROStaked k) ZEROamount in Ok (set_stakes k (<[sender := newStake]> (zero_stakes k)) n)) in
  let$ _ := sendToZEROStaking me in
  if negb (currentStake =? 0) then
    let$ _ := token_transfer me sender ZUSDGain in _sendETHGainToUser sender ETHGain
  else call_ret tt.

Definition unstake (sender : address) (ZEROamount : Z) : call System unit :=
  let$ me := this_staking in
  let$ currentStake := view_call (fun s => Ok (stake_of (staking s) sender)) in
  let$ _ := pure_call (require (0 <? currentStake) "ZEROStaking: User must have a non-zero stake") in
  let$ ETHGain := view_call (fun s => _getPendingETHGain (staking s) sender) in
  let$ ZUSDGain := view_call (fun s => _getPendingZUSDGain (staking s) sender) in
  let$ _ := staking_call (fun k => Ok (_updateUserSnapshots k sender)) in
  let$ _ := (if 0 <? ZEROamount then
               let ZEROToWithdraw := _min ZEROamount currentStake in
               let$ newStake := pure_call (SafeMath.sub currentStake ZEROToWithdraw) in
               let$ _ := staking_call (fun k =>
                 let! n := SafeMath.sub (totalZEROStaked k) ZEROToWithdraw in
                 Ok (set_stakes k (<[sender := newStake]> (zero_stakes k)) n)) in
               transferZERO sender
             else call_ret tt) in
  let$ _ := token_transfer me sender ZUSDGain in
  _sendETHGainToUser sender ETHGain.
End Staking.
