(* ===== verification/Governance.v ===== *)
(** * What the owners of the contracts can change

    Dependencies/Ownable.sol, the setters of LiquityBaseParams.sol and of
    FeeDistributor.sol, and the funding of ZERO/CommunityIssuance.sol.  [sender] is
    [msg.sender]. *)

From S2P Require Import Prelude Solidity SortedTroves ChainState ZEROStaking.
Import LiquityMath.
Local Open Scope Z_scope.

(** ** Ownable *)

Definition getOwner (s : System) (contract : address) : address := default address0 (contract_owners s !! contract).

Definition onlyOwner (contract : Wiring -> address) (sender : address) (f : System -> System) : call System unit := fun s =>
  let! _ := require (same sender (getOwner s (contract (wiring s)))) "Ownable:: access denied" in Ok (tt, f s).

Definition setOwner (contract sender owner : address) : call System unit := fun s =>
  let! _ := require (same sender (getOwner s contract)) "Ownable:: access denied" in
  let! _ := require (negb (is_zero owner)) "Ownable::setOwner: invalid address" in
  Ok (tt, with_owners s (<[contract := owner]> (contract_owners s))).

(** ** LiquityBaseParams *)

Definition set_params (sender : address) (f : Params -> Params) : call System unit :=
  onlyOwner liquityBaseParams sender (fun s => with_params s (f (params s))).

Definition setMCR (sender : address) (n : Z) : call System unit :=
  set_params sender (fun p => mkParams n (CCR p) (PERCENT_DIVISOR p) (BORROWING_FEE_FLOOR p) (REDEMPTION_FEE_FLOOR p) (MAX_BORROWING_FEE p)).
Definition setCCR (sender : address) (n : Z) : call System unit :=
  set_params sender (fun p => mkParams (MCR p) n (PERCENT_DIVISOR p) (BORROWING_FEE_FLOOR p) (REDEMPTION_FEE_FLOOR p) (MAX_BORROWING_FEE p)).
Definition setPercentDivisor (sender : address) (n : Z) : call System unit :=
  set_params sender (fun p => mkParams (MCR p) (CCR p) n (BORROWING_FEE_FLOOR p) (REDEMPTION_FEE_FLOOR p) (MAX_BORROWING_FEE p)).
Definition setBorrowingFeeFloor (sender : address) (n : Z) : call System unit :=
  set_params sender (fun p => mkParams (MCR p) (CCR p) (PERCENT_DIVISOR p) n (REDEMPTION_FEE_FLOOR p) (MAX_BORROWING_FEE p)).
Definition setRedemptionFeeFloor (sender : address) (n : Z) : call System unit :=
  set_params sender (fun p => mkParams (MCR p) (CCR p) (PERCENT_DIVISOR p) (BORROWING_FEE_FLOOR p) n (MAX_BORROWING_FEE p)).
Definition setMaxBorrowingFee (sender : address) (n : Z) : call System unit :=
  set_params sender (fun p => mkParams (MCR p) (CCR p) (PERCENT_DIVISOR p) (BORROWING_FEE_FLOOR p) (REDEMPTION_FEE_FLOOR p) n).

(** ** FeeDistributor *)

Definition setFeeToFeeSharingCollector (sender : address) (n : Z) : call System unit :=
  onlyOwner feeDistributor sender (fun s => with_share s n).

(** ** CommunityIssuance *)

Definition receiveZero (now : Z) (account : address) (ZEROamount : Z) : call System unit :=
  let$ _ := view_call (fun s => require (same account (fundingWallet (wiring s))) "Only the funding wallet can deposit ZERO") in
  let$ _ := view_call (fun s => require (ZEROSupplyCap (community (stability s)) =? 0) "Community pot already funded") in
  let$ me := view_call (fun s => Ok (communityIssuance (wiring s))) in
  let$ _ := transferFromZERO me account me ZEROamount in
  update_call (fun s =>
    with_stability s (set_community (stability s) (mkCommunity ZEROamount (totalZEROIssued (community (stability s))) now))).
