(* ===== verification/TroveManager.v ===== *)
(** * TroveManager.sol: Troves, stakes, redistribution and fees

    The bookkeeping of TroveManager.sol and Dependencies/TroveManagerBase.sol:
    pending rewards, stakes, redistribution, system snapshots, the array of owners,
    closing, the setters of BorrowerOperations, and the fee rates. *)

From S2P Require Import Prelude Solidity SortedTroves ChainState.
From S2P Require Import ActivePool DefaultPool Outside.
Import LiquityMath.
Local Open Scope Z_scope.

(** ** TroveManagerBase and TroveManager *)

Definition is_active (m : Manager) (a : address) : bool := bool_decide (t_status (trove m a) = active_).

Definition _requireTroveIsActive (m : Manager) (a : address) : result unit :=
  require (is_active m a) "TroveManager: Trove does not exist or is closed".

Definition _requireCallerIsBorrowerOperations (s : System) (sender : address) : result unit :=
  require (same sender (borrowerOperations (wiring s)))
    "TroveManager: Caller is not the BorrowerOperations contract".

(** *** Pending rewards *)

Definition pending (m : Manager) (borrower : address) (term snap : Z) : result Z :=
  let! rewardPerUnitStaked := SafeMath.sub term snap in
  if (rewardPerUnitStaked =? 0) || negb (is_active m borrower) then Ok 0
  else
    let! n := SafeMath.mul (t_stake (trove m borrower)) rewardPerUnitStaked in
    SafeMath.div n DECIMAL_PRECISION.

Definition _getPendingETHReward (m : Manager) (borrower : address) : result Z :=
  pending m borrower (L_ETH m) (snapshot_ETH (snapshot m borrower)).

Definition _getPendingZUSDDebtReward (m : Manager) (borrower : address) : result Z :=
  pending m borrower (L_ZUSDDebt m) (snapshot_ZUSDDebt (snapshot m borrower)).

(** Collateral and debt. *)
Definition _getCurrentTroveAmounts (m : Manager) (borrower : address) : result (Z * Z) :=
  let! pendingETHReward := _getPendingETHReward m borrower in
  let! pendingZUSDDebtReward := _getPendingZUSDDebtReward m borrower in
  let! currentETH := SafeMath.add (t_coll (trove m borrower)) pendingETHReward in
  let! currentZUSDDebt := SafeMath.add (t_debt (trove m borrower)) pendingZUSDDebtReward in
  Ok (currentETH, currentZUSDDebt).

Definition getNominalICR (m : Manager) (borrower : address) : result Z :=
  let! amounts := _getCurrentTroveAmounts m borrower in _computeNominalCR (fst amounts) (snd amounts).

Definition _getCurrentICR (m : Manager) (borrower : address) (price : Z) : result Z :=
  let! amounts := _getCurrentTroveAmounts m borrower in _computeCR (fst amounts) (snd amounts) price.

(** [(debt, coll, pendingZUSDDebtReward, pendingETHReward)] *)
Definition getEntireDebtAndColl (m : Manager) (borrower : address) : result (Z * Z * Z * Z) :=
  let! pendingZUSDDebtReward := _getPendingZUSDDebtReward m borrower in
  let! pendingETHReward := _getPendingETHReward m borrower in
  let! debt := SafeMath.add (t_debt (trove m borrower)) pendingZUSDDebtReward in
  let! coll := SafeMath.add (t_coll (trove m borrower)) pendingETHReward in
  Ok (debt, coll, pendingZUSDDebtReward, pendingETHReward).

Definition _hasPendingRewards (m : Manager) (borrower : address) : bool :=
  is_active m borrower && (snapshot_ETH (snapshot m borrower) <? L_ETH m).

Definition _updateTroveRewardSnapshots (m : Manager) (borrower : address) : Manager :=
  set_snapshot m borrower (mkChainSnapshot (L_ETH m) (L_ZUSDDebt m)).

Definition _movePendingTroveRewardsToActivePool (ZUSD ETH : Z) : call System unit := fun s =>
  let sender := troveManager (wiring s) in
  (let$ _ := DefaultPool.decreaseZUSDDebt sender ZUSD in
   let$ _ := ActivePool.increaseZUSDDebt sender ZUSD in
   DefaultPool.sendETHToActivePool sender ETH) s.

Definition _applyPendingRewards (borrower : address) : call System unit := fun s =>
  let m := manager s in
  if _hasPendingRewards m borrower then
    let! _ := _requireTroveIsActive m borrower in
    let! pendingETHReward := _getPendingETHReward m borrower in
    let! pendingZUSDDebtReward := _getPendingZUSDDebtReward m borrower in
    let t := trove m borrower in
    let! coll := SafeMath.add (t_coll t) pendingETHReward in
    let! debt := SafeMath.add (t_debt t) pendingZUSDDebtReward in
    let m := set_trove m borrower (mkChainTrove debt coll (t_stake t) (t_status t) (t_arrayIndex t)) in
    let m := _updateTroveRewardSnapshots m borrower in
    _movePendingTroveRewardsToActivePool pendingZUSDDebtReward pendingETHReward (with_manager s m)
  else Ok (tt, s).

(** *** Stakes *)

Definition set_stake (t : ChainTrove) (n : Z) : ChainTrove :=
  mkChainTrove (t_debt t) (t_coll t) n (t_status t) (t_arrayIndex t).

Definition _removeStake (m : Manager) (borrower : address) : result Manager :=
  let t := trove m borrower in
  let! n := SafeMath.sub (totalStakes m) (t_stake t) in
  Ok (set_trove (set_totalStakes m n) borrower (set_stake t 0)).

Definition _computeNewStake (m : Manager) (coll : Z) : result Z :=
  if totalCollateralSnapshot m =? 0 then Ok coll
  else
    let! _ := sol_assert (0 <? totalStakesSnapshot m) in
    let! n := SafeMath.mul coll (totalStakesSnapshot m) in
    SafeMath.div n (totalCollateralSnapshot m).

Definition _updateStakeAndTotalStakes (m : Manager) (borrower : address) : result (Z * Manager) :=
  let t := trove m borrower in
  let! newStake := _computeNewStake m (t_coll t) in
  let! n := SafeMath.sub (totalStakes m) (t_stake t) in
  let! n := SafeMath.add n newStake in
  Ok (newStake, set_totalStakes (set_trove m borrower (set_stake t newStake)) n).

(** *** Redistribution *)

Section Redistribution.
Variable receive_outside : address -> address -> Z -> call System unit.

(** The new reward term and the error carried to the next call; the code
    interleaves the steps for the two assets. *)
Definition reward_term (amount lastError stakes term : Z) : result (Z * Z) :=
  let! n := SafeMath.mul amount DECIMAL_PRECISION in
  let! numerator := SafeMath.add n lastError in
  let! perUnitStaked := SafeMath.div numerator stakes in
  let! whole := SafeMath.mul perUnitStaked stakes in
  let! error := SafeMath.sub numerator whole in
  let! term' := SafeMath.add term perUnitStaked in
  Ok (term', error).

Definition _redistributeDebtAndColl (debt coll : Z) : call System unit := fun s =>
  if debt =? 0 then Ok (tt, s)
  else
    let m := manager s in
    let! eth := reward_term coll (lastETHError_Redistribution m) (totalStakes m) (L_ETH m) in
    let! zusd := reward_term debt (lastZUSDDebtError_Redistribution m) (totalStakes m) (L_ZUSDDebt m) in
    let s := with_manager s (set_terms m (fst eth) (fst zusd) (snd eth) (snd zusd)) in
    let sender := troveManager (wiring s) in
    (let$ _ := ActivePool.decreaseZUSDDebt sender debt in
     let$ _ := DefaultPool.increaseZUSDDebt sender debt in
     ActivePool.sendETH (transfer receive_outside) sender (defaultPool (wiring s)) coll) s.

End Redistribution.

Definition _updateSystemSnapshots_excludeCollRemainder (collRemainder : Z) : call System unit := fun s =>
  let! n := SafeMath.sub (pool_ETH (active_pool s)) collRemainder in
  let! coll := SafeMath.add n (pool_ETH (default_pool s)) in
  Ok (tt, with_manager s (set_system_snapshots (manager s) (totalStakes (manager s)) coll)).

(** *** Owners *)

Definition set_index (t : ChainTrove) (i : Z) : ChainTrove :=
  mkChainTrove (t_debt t) (t_coll t) (t_stake t) (t_status t) i.

(** The last owner takes the place of the removed one. *)
Definition _removeTroveOwner (m : Manager) (borrower : address) (TroveOwnersArrayLength : Z) : result Manager :=
  let st := t_status (trove m borrower) in
  let! _ := sol_assert (negb (bool_decide (st = nonExistent_)) && negb (bool_decide (st = active_))) in
  let index := t_arrayIndex (trove m borrower) in
  let! idxLast := SafeMath.sub TroveOwnersArrayLength 1 in
  let! _ := sol_assert (index <=? idxLast) in
  let! addressToMove := array_get (TroveOwners m) idxLast in
  let! _ := array_get (TroveOwners m) index in
  let m := set_owners m (<[Z.to_nat index := addressToMove]> (TroveOwners m)) in
  let m := set_trove m addressToMove (set_index (trove m addressToMove) index) in
  Ok (set_owners m (take (length (TroveOwners m) - 1) (TroveOwners m))).

(** [uint128(TroveOwners.length.sub(1))] after the push. *)
Definition _addTroveOwnerToArray (m : Manager) (borrower : address) : result (Z * Manager) :=
  let m := set_owners m (TroveOwners m ++ [borrower]) in
  let! n := SafeMath.sub (Z.of_nat (length (TroveOwners m))) 1 in
  let index := n mod 2 ^ 128 in
  Ok (index, set_trove m borrower (set_index (trove m borrower) index)).

Definition _requireMoreThanOneTroveInSystem (s : System) (TroveOwnersArrayLength : Z) : result unit :=
  require ((1 <? TroveOwnersArrayLength) && (1 <? size (data (sorted s))))
    "TroveManager: Only one trove in the system".

Definition _closeTrove (borrower : address) (closedStatus : Status) : call System unit := fun s =>
  let m := manager s in
  let! _ := sol_assert (negb (bool_decide (closedStatus = nonExistent_)) && negb (bool_decide (closedStatus = active_))) in
  let n := Z.of_nat (length (TroveOwners m)) in
  let! _ := _requireMoreThanOneTroveInSystem s n in
  let t := trove m borrower in
  let m := set_trove m borrower (mkChainTrove 0 0 (t_stake t) closedStatus (t_arrayIndex t)) in
  let m := set_snapshot m borrower (mkChainSnapshot 0 0) in
  let! m := _removeTroveOwner m borrower n in
  let! l := SortedTroves.remove (sorted s) (troveManager (wiring s)) borrower in
  Ok (tt, with_sorted (with_manager s m) l).

(** *** Setters of BorrowerOperations *)

Definition set_status (t : ChainTrove) (st : Status) : ChainTrove :=
  mkChainTrove (t_debt t) (t_coll t) (t_stake t) st (t_arrayIndex t).
Definition set_coll (t : ChainTrove) (n : Z) : ChainTrove :=
  mkChainTrove (t_debt t) n (t_stake t) (t_status t) (t_arrayIndex t).
Definition set_debt_ (t : ChainTrove) (n : Z) : ChainTrove :=
  mkChainTrove n (t_coll t) (t_stake t) (t_status t) (t_arrayIndex t).

(** [Status(_num)]: a number that is no status reverts. *)
Definition status_of (num : Z) : result Status :=
  match nth_error [nonExistent_; active_; closedByOwner_; closedByLiquidation_; closedByRedemption_] (Z.to_nat num) with
  | Some st => if 0 <=? num then Ok st else Throw AssertionError
  | None => Throw AssertionError
  end.

Definition guarded (sender : address) (f : Manager -> result (Z * Manager)) : call System Z := fun s =>
  let! _ := _requireCallerIsBorrowerOperations s sender in
  let! r := f (manager s) in
  Ok (fst r, with_manager s (snd r)).

Definition setTroveStatus (sender borrower : address) (num : Z) : call System Z :=
  guarded sender (fun m => let! st := status_of num in
                           Ok (num, set_trove m borrower (set_status (trove m borrower) st))).
Definition increaseTroveColl (sender borrower : address) (n : Z) : call System Z :=
  guarded sender (fun m => let! c := SafeMath.add (t_coll (trove m borrower)) n in
                           Ok (c, set_trove m borrower (set_coll (trove m borrower) c))).
Definition decreaseTroveColl (sender borrower : address) (n : Z) : call System Z :=
  guarded sender (fun m => let! c := SafeMath.sub (t_coll (trove m borrower)) n in
                           Ok (c, set_trove m borrower (set_coll (trove m borrower) c))).
Definition increaseTroveDebt (sender borrower : address) (n : Z) : call System Z :=
  guarded sender (fun m => let! d := SafeMath.add (t_debt (trove m borrower)) n in
                           Ok (d, set_trove m borrower (set_debt_ (trove m borrower) d))).
Definition decreaseTroveDebt (sender borrower : address) (n : Z) : call System Z :=
  guarded sender (fun m => let! d := SafeMath.sub (t_debt (trove m borrower)) n in
                           Ok (d, set_trove m borrower (set_debt_ (trove m borrower) d))).
Definition removeStake (sender borrower : address) : call System Z :=
  guarded sender (fun m => let! m := _removeStake m borrower in Ok (0, m)).
Definition updateStakeAndTotalStakes (sender borrower : address) : call System Z :=
  guarded sender (fun m => _updateStakeAndTotalStakes m borrower).
Definition updateTroveRewardSnapshots (sender borrower : address) : call System Z :=
  guarded sender (fun m => Ok (0, _updateTroveRewardSnapshots m borrower)).
Definition addTroveOwnerToArray (sender borrower : address) : call System Z :=
  guarded sender (fun m => _addTroveOwnerToArray m borrower).
Definition applyPendingRewards (sender borrower : address) : call System unit := fun s =>
  let! _ := _requireCallerIsBorrowerOperations s sender in _applyPendingRewards borrower s.
Definition closeTrove (sender borrower : address) : call System unit := fun s =>
  let! _ := _requireCallerIsBorrowerOperations s sender in _closeTrove borrower closedByOwner_ s.

(** *** Fees; [now] is [block.timestamp] *)

Definition SECONDS_IN_ONE_MINUTE : Z := 60.
Definition MINUTE_DECAY_FACTOR : Z := 999037758833783000.
Definition BETA : Z := 2.

Definition _minutesPassedSinceLastFeeOp (m : Manager) (now : Z) : result Z :=
  let! t := SafeMath.sub now (lastFeeOperationTime m) in SafeMath.div t SECONDS_IN_ONE_MINUTE.

Definition _calcDecayedBaseRate (m : Manager) (now : Z) : result Z :=
  let! minutesPassed := _minutesPassedSinceLastFeeOp m now in
  let! decayFactor := _decPow MINUTE_DECAY_FACTOR minutesPassed in
  let! n := SafeMath.mul (baseRate m) decayFactor in
  SafeMath.div n DECIMAL_PRECISION.

Definition _calcBorrowingRate (p : Params) (rate : Z) : result Z :=
  let! r := SafeMath.add (BORROWING_FEE_FLOOR p) rate in Ok (_min r (MAX_BORROWING_FEE p)).

Definition _calcRedemptionRate (p : Params) (rate : Z) : result Z :=
  let! r := SafeMath.add (REDEMPTION_FEE_FLOOR p) rate in Ok (_min r DECIMAL_PRECISION).

Definition getBorrowingRate (s : System) : result Z := _calcBorrowingRate (params s) (baseRate (manager s)).

Definition getBorrowingRateWithDecay (s : System) (now : Z) : result Z :=
  let! rate := _calcDecayedBaseRate (manager s) now in _calcBorrowingRate (params s) rate.

Definition getRedemptionRateWithDecay (s : System) (now : Z) : result Z :=
  let! rate := _calcDecayedBaseRate (manager s) now in _calcRedemptionRate (params s) rate.

Definition _calcBorrowingFee (rate debt : Z) : result Z :=
  let! n := SafeMath.mul rate debt in SafeMath.div n DECIMAL_PRECISION.

Definition getBorrowingFee (s : System) (debt : Z) : result Z :=
  let! rate := getBorrowingRate s in _calcBorrowingFee rate debt.

Definition _calcRedemptionFee (rate drawn : Z) : result Z :=
  let! n := SafeMath.mul rate drawn in
  let! fee := SafeMath.div n DECIMAL_PRECISION in
  let! _ := require (fee <? drawn) "TroveManager: Fee would eat up all returned collateral" in
  Ok fee.

Definition _updateLastFeeOpTime (m : Manager) (now : Z) : result Manager :=
  let! timePassed := SafeMath.sub now (lastFeeOperationTime m) in
  Ok (if SECONDS_IN_ONE_MINUTE <=? timePassed then set_rate m (baseRate m) now else m).

Definition decayBaseRateFromBorrowing (sender : address) (now : Z) : call System Z :=
  guarded sender (fun m =>
    let! rate := _calcDecayedBaseRate m now in
    let! _ := sol_assert (rate <=? DECIMAL_PRECISION) in
    let! m := _updateLastFeeOpTime (set_rate m rate (lastFeeOperationTime m)) now in
    Ok (rate, m)).
