(* ===== verification/BorrowerOperations.v ===== *)
(** * BorrowerOperations.sol: opening, adjusting and closing Troves

    [sender] is [msg.sender] and [value] is [msg.value], which has been paid to this
    contract when its code runs. *)

From S2P Require Import Prelude Solidity SortedTroves ChainState ZUSDToken ActivePool DefaultPool CollSurplusPool.
From S2P Require Import Outside FeeDistributor TroveManager.
Import LiquityMath.
Local Open Scope Z_scope.

(** ** Checks *)

Definition getTroveStatus (s : System) (borrower : address) : Status := t_status (trove (manager s) borrower).

Definition _requireTroveisActive (s : System) (borrower : address) : result unit :=
  require (is_active (manager s) borrower) "BorrowerOps: Trove does not exist or is closed".
Definition _requireTroveisNotActive (s : System) (borrower : address) : result unit :=
  require (negb (is_active (manager s) borrower)) "BorrowerOps: Trove is active".
Definition _requireSingularCollChange (value collWithdrawal : Z) : result unit :=
  require ((value =? 0) || (collWithdrawal =? 0)) "BorrowerOperations: Cannot withdraw and add coll".
Definition _requireNonZeroAdjustment (value collWithdrawal ZUSDChange : Z) : result unit :=
  require (negb (value =? 0) || negb (collWithdrawal =? 0) || negb (ZUSDChange =? 0))
    "BorrowerOps: There must be either a collateral change or a debt change".
Definition _requireNonZeroDebtChange (ZUSDChange : Z) : result unit :=
  require (0 <? ZUSDChange) "BorrowerOps: Debt increase requires non-zero debtChange".
Definition _requireNotInRecoveryMode (s : System) (price : Z) : result unit :=
  let! b := _checkRecoveryMode s price in
  require (negb b) "BorrowerOps: Operation not permitted during Recovery Mode".
Definition _requireNoCollWithdrawal (collWithdrawal : Z) : result unit :=
  require (collWithdrawal =? 0) "BorrowerOps: Collateral withdrawal not permitted Recovery Mode".
Definition _requireICRisAboveMCR (s : System) (newICR : Z) : result unit :=
  require (MCR (params s) <=? newICR) "BorrowerOps: An operation that would result in ICR < MCR is not permitted".
Definition _requireICRisAboveCCR (s : System) (newICR : Z) : result unit :=
  require (CCR (params s) <=? newICR) "BorrowerOps: Operation must leave trove with ICR >= CCR".
Definition _requireNewICRisAboveOldICR (newICR oldICR : Z) : result unit :=
  require (oldICR <=? newICR) "BorrowerOps: Cannot decrease your Trove's ICR in Recovery Mode".
Definition _requireNewTCRisAboveCCR (s : System) (newTCR : Z) : result unit :=
  require (CCR (params s) <=? newTCR) "BorrowerOps: An operation that would result in TCR < CCR is not permitted".
Definition _requireAtLeastMinNetDebt (netDebt : Z) : result unit :=
  require (MIN_NET_DEBT <=? netDebt) "BorrowerOps: Trove's net debt must be greater than minimum".
Definition _requireValidZUSDRepayment (currentDebt debtRepayment : Z) : result unit :=
  let! n := SafeMath.sub currentDebt ZUSD_GAS_COMPENSATION in
  require (debtRepayment <=? n) "BorrowerOps: Amount repaid must not be larger than the Trove's debt".
Definition _requireCallerIsStabilityPool (s : System) (sender : address) : result unit :=
  require (same sender (stabilityPool (wiring s))) "BorrowerOps: Caller is not Stability Pool".
Definition _requireSufficientZUSDBalance (s : System) (borrower : address) (debtRepayment : Z) : result unit :=
  require (debtRepayment <=? balanceOf s borrower) "BorrowerOps: Caller doesnt have enough ZUSD to make repayment".
Definition _requireValidMaxFeePercentage (s : System) (maxFeePercentage : Z) (isRecoveryMode : bool) : result unit :=
  if isRecoveryMode then
    require (maxFeePercentage <=? DECIMAL_PRECISION) "Max fee percentage must less than or equal to 100%"
  else
    require ((BORROWING_FEE_FLOOR (params s) <=? maxFeePercentage) && (maxFeePercentage <=? DECIMAL_PRECISION))
      "Max fee percentage must be between 0.5% and 100%".

(** ** Ratios after a change *)

(** [x.add(change)] or [x.sub(change)] *)
Definition changed (x change : Z) (isIncrease : bool) : result Z :=
  if isIncrease then SafeMath.add x change else SafeMath.sub x change.

Definition _getNewTroveAmounts (coll debt collChange : Z) (isCollIncrease : bool) (debtChange : Z) (isDebtIncrease : bool)
    : result (Z * Z) :=
  let! newColl := changed coll collChange isCollIncrease in
  let! newDebt := changed debt debtChange isDebtIncrease in
  Ok (newColl, newDebt).

Definition _getNewNominalICRFromTroveChange (coll debt collChange : Z) (isCollIncrease : bool) (debtChange : Z)
    (isDebtIncrease : bool) : result Z :=
  let! new := _getNewTroveAmounts coll debt collChange isCollIncrease debtChange isDebtIncrease in
  _computeNominalCR (fst new) (snd new).

Definition _getNewICRFromTroveChange (coll debt collChange : Z) (isCollIncrease : bool) (debtChange : Z)
    (isDebtIncrease : bool) (price : Z) : result Z :=
  let! new := _getNewTroveAmounts coll debt collChange isCollIncrease debtChange isDebtIncrease in
  _computeCR (fst new) (snd new) price.

Definition _getNewTCRFromTroveChange (s : System) (collChange : Z) (isCollIncrease : bool) (debtChange : Z)
    (isDebtIncrease : bool) (price : Z) : result Z :=
  let! totalColl := getEntireSystemColl s in
  let! totalDebt := getEntireSystemDebt s in
  let! totalColl := changed totalColl collChange isCollIncrease in
  let! totalDebt := changed totalDebt debtChange isDebtIncrease in
  _computeCR totalColl totalDebt price.

(** The change of collateral and whether it is an increase. *)
Definition _getCollChange (collReceived requestedCollWithdrawal : Z) : Z * bool :=
  if negb (collReceived =? 0) then (collReceived, true) else (requestedCollWithdrawal, false).

(** ** Operations *)

Section Borrowing.
Variable W : World.
Variable receive_outside : address -> address -> Z -> call System unit.

(** The address of this contract. *)
Definition this : call System address := view_call (fun s => Ok (borrowerOperations (wiring s))).

Definition _triggerBorrowingFee (ZUSDAmount maxFeePercentage : Z) : call System Z :=
  let$ me := this in
  let$ _ := decayBaseRateFromBorrowing me (now W) in
  let$ ZUSDFee := view_call (fun s => getBorrowingFee s ZUSDAmount) in
  let$ _ := pure_call (_requireUserAcceptsFee ZUSDFee ZUSDAmount maxFeePercentage) in
  let$ distributor := view_call (fun s => Ok (feeDistributor (wiring s))) in
  let$ _ := mint me distributor ZUSDFee in
  let$ _ := distributeFees W receive_outside me in
  call_ret ZUSDFee.

Definition _activePoolAddColl (amount : Z) : call System unit :=
  let$ me := this in
  let$ pool := view_call (fun s => Ok (activePool (wiring s))) in
  or_revert "BorrowerOps: Sending ETH to ActivePool failed" (transfer receive_outside me pool amount).

Definition _mintZusdAndIncreaseActivePoolDebt (account : address) (ZUSDAmount netDebtIncrease : Z) : call System unit :=
  let$ me := this in
  let$ _ := ActivePool.increaseZUSDDebt me netDebtIncrease in
  mint me account ZUSDAmount.

Definition _burnZusdAndDecreaseActivePoolDebt (account : address) (ZUSD : Z) : call System unit :=
  let$ me := this in
  let$ _ := ActivePool.decreaseZUSDDebt me ZUSD in
  burn me account ZUSD.

Definition _updateTroveFromAdjustment (borrower : address) (collChange : Z) (isCollIncrease : bool) (debtChange : Z)
    (isDebtIncrease : bool) : call System (Z * Z) :=
  let$ me := this in
  let$ newColl := (if isCollIncrease then increaseTroveColl me borrower collChange
                   else decreaseTroveColl me borrower collChange) in
  let$ newDebt := (if isDebtIncrease then increaseTroveDebt me borrower debtChange
                   else decreaseTroveDebt me borrower debtChange) in
  call_ret (newColl, newDebt).

Definition _moveTokensAndETHfromAdjustment (borrower : address) (collChange : Z) (isCollIncrease : bool)
    (ZUSDChange : Z) (isDebtIncrease : bool) (netDebtChange : Z) (tokensRecipient : address) : call System unit :=
  let$ _ := (if isDebtIncrease then _mintZusdAndIncreaseActivePoolDebt tokensRecipient ZUSDChange netDebtChange
             else _burnZusdAndDecreaseActivePoolDebt borrower ZUSDChange) in
  if isCollIncrease then _activePoolAddColl collChange
  else
    let$ me := this in
    ActivePool.sendETH (transfer receive_outside) me borrower collChange.

(** Calls of SortedTroves, which asks TroveManager for ratios. *)
Definition sorted_insert (id : address) (NICR : Z) (upperHint lowerHint : address) : call System unit := fun s =>
  let! l := SortedTroves.insert (getNominalICR (manager s)) (walk_gas W) (sorted s) (borrowerOperations (wiring s))
              id NICR upperHint lowerHint in
  Ok (tt, with_sorted s l).
Definition sorted_reInsert (id : address) (NICR : Z) (upperHint lowerHint : address) : call System unit := fun s =>
  let! l := SortedTroves.reInsert (getNominalICR (manager s)) (walk_gas W) (sorted s) (borrowerOperations (wiring s))
              id NICR upperHint lowerHint in
  Ok (tt, with_sorted s l).

(** The conditions on the ratios of a new Trove. *)
Definition opening_allowed (isRecoveryMode : bool) (value compositeDebt ICR price : Z) (s : System) : result unit :=
  if isRecoveryMode then _requireICRisAboveCCR s ICR
  else
    let! _ := _requireICRisAboveMCR s ICR in
    let! newTCR := _getNewTCRFromTroveChange s value true compositeDebt true price in
    _requireNewTCRisAboveCCR s newTCR.

Definition _openTrove (sender : address) (value maxFeePercentage ZUSDAmount : Z) (upperHint lowerHint tokensRecipient : address)
    : call System unit :=
  let$ me := this in
  let$ price := fetchPrice W in
  let$ isRecoveryMode := view_call (fun s => _checkRecoveryMode s price) in
  let$ _ := view_call (fun s => _requireValidMaxFeePercentage s maxFeePercentage isRecoveryMode) in
  let$ _ := view_call (fun s => _requireTroveisNotActive s sender) in
  let$ netDebt := (if isRecoveryMode then call_ret ZUSDAmount
                   else let$ ZUSDFee := _triggerBorrowingFee ZUSDAmount maxFeePercentage in
                        pure_call (SafeMath.add ZUSDAmount ZUSDFee)) in
  let$ _ := pure_call (_requireAtLeastMinNetDebt netDebt) in
  let$ compositeDebt := pure_call (_getCompositeDebt netDebt) in
  let$ _ := pure_call (sol_assert (0 <? compositeDebt)) in
  let$ ICR := pure_call (_computeCR value compositeDebt price) in
  let$ NICR := pure_call (_computeNominalCR value compositeDebt) in
  let$ _ := view_call (opening_allowed isRecoveryMode value compositeDebt ICR price) in
  let$ _ := setTroveStatus me sender 1 in
  let$ _ := increaseTroveColl me sender value in
  let$ _ := increaseTroveDebt me sender compositeDebt in
  let$ _ := updateTroveRewardSnapshots me sender in
  let$ _ := updateStakeAndTotalStakes me sender in
  let$ _ := sorted_insert sender NICR upperHint lowerHint in
  let$ _ := addTroveOwnerToArray me sender in
  let$ _ := _activePoolAddColl value in
  let$ _ := _mintZusdAndIncreaseActivePoolDebt tokensRecipient ZUSDAmount netDebt in
  let$ pool := view_call (fun s => Ok (gasPool (wiring s))) in
  _mintZusdAndIncreaseActivePoolDebt pool ZUSD_GAS_COMPENSATION ZUSD_GAS_COMPENSATION.

(** [(collChange, isCollIncrease)] and the ratios before and after are as in the struct
    [LocalVariables_adjustTrove]. *)
Definition _requireValidAdjustmentInCurrentMode (isRecoveryMode : bool) (collWithdrawal : Z) (isDebtIncrease : bool)
    (collChange : Z) (isCollIncrease : bool) (netDebtChange oldICR newICR price : Z) (s : System) : result unit :=
  if isRecoveryMode then
    let! _ := _requireNoCollWithdrawal collWithdrawal in
    if isDebtIncrease then
      let! _ := _requireICRisAboveCCR s newICR in _requireNewICRisAboveOldICR newICR oldICR
    else Ok tt
  else
    let! _ := _requireICRisAboveMCR s newICR in
    let! newTCR := _getNewTCRFromTroveChange s collChange isCollIncrease netDebtChange isDebtIncrease price in
    _requireNewTCRisAboveCCR s newTCR.

(** The checks of a repayment; none for an increase or no change of debt. *)
Definition repayment_allowed (borrower : address) (ZUSDChange : Z) (isDebtIncrease : bool) (debt netDebtChange : Z)
    (s : System) : result unit :=
  if negb isDebtIncrease && (0 <? ZUSDChange) then
    let! net := _getNetDebt debt in
    let! rest := SafeMath.sub net netDebtChange in
    let! _ := _requireAtLeastMinNetDebt rest in
    let! _ := _requireValidZUSDRepayment debt netDebtChange in
    _requireSufficientZUSDBalance s borrower netDebtChange
  else Ok tt.

(** What [_adjustSenderTrove] requires before it touches the Trove. *)
Definition adjustment_allowed (sender : address) (value : Z) (borrower : address) (collWithdrawal ZUSDChange : Z)
    (isDebtIncrease : bool) (maxFeePercentage : Z) (isRecoveryMode : bool) (s : System) : result unit :=
  let! _ := (if isDebtIncrease then
               let! _ := _requireValidMaxFeePercentage s maxFeePercentage isRecoveryMode in
               _requireNonZeroDebtChange ZUSDChange
             else Ok tt) in
  let! _ := _requireSingularCollChange value collWithdrawal in
  let! _ := _requireNonZeroAdjustment value collWithdrawal ZUSDChange in
  let! _ := _requireTroveisActive s borrower in
  sol_assert (same sender borrower
              || (same sender (stabilityPool (wiring s)) && (0 <? value) && (ZUSDChange =? 0))).

Definition _adjustSenderTrove (sender : address) (value : Z) (borrower : address) (collWithdrawal ZUSDChange : Z)
    (isDebtIncrease : bool) (upperHint lowerHint : address) (maxFeePercentage : Z) (tokensRecipient : address)
    : call System unit :=
  let$ me := this in
  let$ price := fetchPrice W in
  let$ isRecoveryMode := view_call (fun s => _checkRecoveryMode s price) in
  let$ _ := view_call (adjustment_allowed sender value borrower collWithdrawal ZUSDChange isDebtIncrease
                         maxFeePercentage isRecoveryMode) in
  let$ _ := applyPendingRewards me borrower in
  let '(collChange, isCollIncrease) := _getCollChange value collWithdrawal in
  let$ netDebtChange := (if isDebtIncrease && negb isRecoveryMode then
                           let$ ZUSDFee := _triggerBorrowingFee ZUSDChange maxFeePercentage in
                           pure_call (SafeMath.add ZUSDChange ZUSDFee)
                         else call_ret ZUSDChange) in
  let$ t := view_call (fun s => Ok (trove (manager s) borrower)) in
  let debt := t_debt t in
  let coll := t_coll t in
  let$ oldICR := pure_call (_computeCR coll debt price) in
  let$ newICR := pure_call (_getNewICRFromTroveChange coll debt collChange isCollIncrease netDebtChange isDebtIncrease price) in
  let$ _ := pure_call (sol_assert (collWithdrawal <=? coll)) in
  let$ _ := view_call (_requireValidAdjustmentInCurrentMode isRecoveryMode collWithdrawal isDebtIncrease collChange
                         isCollIncrease netDebtChange oldICR newICR price) in
  let$ _ := view_call (repayment_allowed borrower ZUSDChange isDebtIncrease debt netDebtChange) in
  let$ _ := _updateTroveFromAdjustment borrower collChange isCollIncrease netDebtChange isDebtIncrease in
  let$ _ := updateStakeAndTotalStakes me borrower in
  let$ newNICR := pure_call (_getNewNominalICRFromTroveChange coll debt collChange isCollIncrease netDebtChange isDebtIncrease) in
  let$ _ := sorted_reInsert borrower newNICR upperHint lowerHint in
  _moveTokensAndETHfromAdjustment sender collChange isCollIncrease ZUSDChange isDebtIncrease netDebtChange tokensRecipient.

Definition _closeTrove (sender : address) : call System unit :=
  let$ me := this in
  let$ _ := view_call (fun s => _requireTroveisActive s sender) in
  let$ price := fetchPrice W in
  let$ _ := view_call (fun s => _requireNotInRecoveryMode s price) in
  let$ _ := applyPendingRewards me sender in
  let$ t := view_call (fun s => Ok (trove (manager s) sender)) in
  let coll := t_coll t in
  let debt := t_debt t in
  let$ net := pure_call (SafeMath.sub debt ZUSD_GAS_COMPENSATION) in
  let$ _ := view_call (fun s => _requireSufficientZUSDBalance s sender net) in
  let$ newTCR := view_call (fun s => _getNewTCRFromTroveChange s coll false debt false price) in
  let$ _ := view_call (fun s => _requireNewTCRisAboveCCR s newTCR) in
  let$ _ := removeStake me sender in
  let$ _ := TroveManager.closeTrove me sender in
  let$ _ := _burnZusdAndDecreaseActivePoolDebt sender net in
  let$ pool := view_call (fun s => Ok (gasPool (wiring s))) in
  let$ _ := _burnZusdAndDecreaseActivePoolDebt pool ZUSD_GAS_COMPENSATION in
  ActivePool.sendETH (transfer receive_outside) me sender coll.

(** *** Mynt *)

(** MyntLib.sol: [redeemZusdFromDllrWithPermit], run by the contract [me] *)
Definition redeemZusdFromDllrWithPermit (me sender : address) (dllrAmount : Z) : call System Z :=
  let$ before := view_call (fun s => let! n := dllr_balanceOf W me s in word n) in
  let$ _ := outside_call (transferWithPermit W sender me dllrAmount) in
  let$ after := view_call (fun s => let! n := dllr_balanceOf W me s in word n) in
  let$ moved := pure_call (SafeMath.sub after before) in
  let$ _ := pure_call (require (moved =? dllrAmount) "DLLR transferred amount validation failed") in
  outside_answer (redeemTo W dllrAmount sender).

Definition masset_set : call System address :=
  let$ masset := view_call (fun s => Ok (massetManager (wiring s))) in
  let$ _ := pure_call (require (negb (is_zero masset)) "Masset address not set") in
  call_ret masset.

(** Approve the ZUSD this contract received and convert it for the sender. *)
Definition mint_DLLR (me masset sender : address) (ZUSDAmount : Z) : call System Z :=
  let$ _ := approve me masset ZUSDAmount in
  outside_answer (mintTo W ZUSDAmount sender).

Definition _adjustNueTrove (sender : address) (value maxFeePercentage collWithdrawal ZUSDChange : Z) (isDebtIncrease : bool)
    (upperHint lowerHint : address) : call System unit :=
  let$ me := this in
  let$ masset := masset_set in
  let$ _ := (if negb isDebtIncrease && (0 <? ZUSDChange) then redeemZusdFromDllrWithPermit me sender ZUSDChange
             else call_ret 0) in
  let$ _ := _adjustSenderTrove sender value sender collWithdrawal ZUSDChange isDebtIncrease upperHint lowerHint
              maxFeePercentage me in
  let$ _ := (if isDebtIncrease && (0 <? ZUSDChange) then mint_DLLR me masset sender ZUSDChange else call_ret 0) in
  call_ret tt.

(** *** External functions *)

(** The value of the call arrives before its code runs. *)
Definition payable (sender : address) (value : Z) (m : call System unit) : call System unit :=
  let$ me := this in
  let$ _ := pay sender me value in m.

Definition openTrove (sender : address) (value maxFeePercentage ZUSDAmount : Z) (upperHint lowerHint : address)
    : call System unit :=
  payable sender value (_openTrove sender value maxFeePercentage ZUSDAmount upperHint lowerHint sender).

Definition openNueTrove (sender : address) (value maxFeePercentage ZUSDAmount : Z) (upperHint lowerHint : address)
    : call System unit :=
  payable sender value
    (let$ me := this in
     let$ masset := masset_set in
     let$ _ := _openTrove sender value maxFeePercentage ZUSDAmount upperHint lowerHint me in
     let$ _ := mint_DLLR me masset sender ZUSDAmount in
     call_ret tt).

Definition _adjustTrove (sender : address) (value : Z) (borrower : address) (collWithdrawal ZUSDChange : Z)
    (isDebtIncrease : bool) (upperHint lowerHint : address) (maxFeePercentage : Z) : call System unit :=
  _adjustSenderTrove sender value borrower collWithdrawal ZUSDChange isDebtIncrease upperHint lowerHint
    maxFeePercentage sender.

Definition addColl (sender : address) (value : Z) (upperHint lowerHint : address) : call System unit :=
  payable sender value (_adjustTrove sender value sender 0 0 false upperHint lowerHint 0).

Definition moveETHGainToTrove (sender : address) (value : Z) (borrower upperHint lowerHint : address) : call System unit :=
  payable sender value
    (let$ _ := view_call (fun s => _requireCallerIsStabilityPool s sender) in
     _adjustTrove sender value borrower 0 0 false upperHint lowerHint 0).

Definition withdrawColl (sender : address) (collWithdrawal : Z) (upperHint lowerHint : address) : call System unit :=
  _adjustTrove sender 0 sender collWithdrawal 0 false upperHint lowerHint 0.

Definition withdrawZUSD (sender : address) (maxFeePercentage ZUSDAmount : Z) (upperHint lowerHint : address)
    : call System unit :=
  _adjustTrove sender 0 sender 0 ZUSDAmount true upperHint lowerHint maxFeePercentage.

Definition withdrawZusdAndConvertToDLLR (sender : address) (maxFeePercentage ZUSDAmount : Z) (upperHint lowerHint : address)
    : call System Z :=
  let$ me := this in
  let$ balanceBefore := view_call (fun s => Ok (balanceOf s me)) in
  let$ _ := _adjustSenderTrove sender 0 sender 0 ZUSDAmount true upperHint lowerHint maxFeePercentage me in
  let$ expected := pure_call (SafeMath.add balanceBefore ZUSDAmount) in
  let$ _ := view_call (fun s => require (balanceOf s me =? expected) "ZUSD is not borrowed correctly") in
  let$ masset := view_call (fun s => Ok (massetManager (wiring s))) in
  mint_DLLR me masset sender ZUSDAmount.

Definition repayZUSD (sender : address) (ZUSDAmount : Z) (upperHint lowerHint : address) : call System unit :=
  _adjustTrove sender 0 sender 0 ZUSDAmount false upperHint lowerHint 0.

Definition repayZusdFromDLLR (sender : address) (dllrAmount : Z) (upperHint lowerHint : address) : call System unit :=
  _adjustNueTrove sender 0 0 0 dllrAmount false upperHint lowerHint.

Definition adjustTrove (sender : address) (value maxFeePercentage collWithdrawal ZUSDChange : Z) (isDebtIncrease : bool)
    (upperHint lowerHint : address) : call System unit :=
  payable sender value
    (_adjustTrove sender value sender collWithdrawal ZUSDChange isDebtIncrease upperHint lowerHint maxFeePercentage).

Definition adjustNueTrove (sender : address) (value maxFeePercentage collWithdrawal ZUSDChange : Z) (isDebtIncrease : bool)
    (upperHint lowerHint : address) : call System unit :=
  payable sender value
    (_adjustNueTrove sender value maxFeePercentage collWithdrawal ZUSDChange isDebtIncrease upperHint lowerHint).

Definition closeTrove (sender : address) : call System unit := _closeTrove sender.

Definition closeNueTrove (sender : address) : call System unit :=
  let$ me := this in
  let$ _ := masset_set in
  let$ debt := view_call (fun s => Ok (t_debt (trove (manager s) sender))) in
  let$ net := pure_call (SafeMath.sub debt ZUSD_GAS_COMPENSATION) in
  let$ _ := redeemZusdFromDllrWithPermit me sender net in
  _closeTrove sender.

Definition claimCollateral (sender : address) : call System unit :=
  let$ me := this in
  CollSurplusPool.claimColl (transfer receive_outside) me sender.
End Borrowing.
