(* ===== verification/StabilityPool.v ===== *)
(** * StabilityPool.sol: deposits that absorb the debt of liquidated Troves

    A deposit is compounded by the running product [P] and earns ether and ZERO by
    the running sums [S] and [G], which are kept per epoch and scale.  The functions
    that change storage are calls; [msg.sender] is [sender].  ZERO/CommunityIssuance.sol
    issues ZERO; the transfers of ZERO/ZEROToken.sol only check the recipient. *)

From S2P Require Import Prelude Solidity SortedTroves ChainState ZUSDToken ActivePool DefaultPool CollSurplusPool.
From S2P Require Import Outside FeeDistributor TroveManager BorrowerOperations.
Import LiquityMath.
Local Open Scope Z_scope.

(** ** Dependencies/LiquitySafeMath128.sol *)

Module SafeMath128.

Definition add (a b : Z) : result Z :=
  let c := (a + b) mod 2 ^ 128 in
  let! _ := require (a <=? c) "LiquitySafeMath128: addition overflow" in Ok c.

Definition sub (a b : Z) : result Z :=
  let! _ := require (b <=? a) "LiquitySafeMath128: subtraction overflow" in Ok ((a - b) mod 2 ^ 128).

End SafeMath128.

(** ** ZERO/CommunityIssuance.sol *)

Definition ISSUANCE_FACTOR : Z := 999998681227695000.

(** [now] is [block.timestamp] *)
Definition _getCumulativeIssuanceFraction (c : Community) (now : Z) : result Z :=
  let! passed := SafeMath.sub now (deploymentTime c) in
  let! timePassedInMinutes := SafeMath.div passed SECONDS_IN_ONE_MINUTE in
  let! power := _decPow ISSUANCE_FACTOR timePassedInMinutes in
  let! fraction := SafeMath.sub DECIMAL_PRECISION power in
  let! _ := sol_assert (fraction <=? DECIMAL_PRECISION) in
  Ok fraction.

Definition issueZERO (c : Community) (now : Z) : result (Z * Community) :=
  let! fraction := _getCumulativeIssuanceFraction c now in
  let! n := SafeMath.mul (ZEROSupplyCap c) fraction in
  let! latestTotalZEROIssued := SafeMath.div n DECIMAL_PRECISION in
  let! issuance := SafeMath.sub latestTotalZEROIssued (totalZEROIssued c) in
  Ok (issuance, mkCommunity (ZEROSupplyCap c) latestTotalZEROIssued (deploymentTime c)).

(** [zeroToken.transfer]: [_transfer] returns at once. *)
Definition sendZERO (w : Wiring) (account : address) (ZEROamount : Z) : result unit :=
  require (negb (is_zero account) && negb (same account (zeroToken w)))
    "ZERO: Cannot transfer tokens directly to the ZERO token contract or the zero address".

(** ** Reading storage *)

Definition SCALE_FACTOR : Z := 1000000000.

Definition no_snapshots : Snapshots := mkSnapshots 0 0 0 0 0.

Definition deposit_of (p : Stability) (a : address) : Deposit := default (mkPoolDeposit 0 address0) (deposits p !! a).
Definition snapshots_of (p : Stability) (a : address) : Snapshots := default no_snapshots (depositSnapshots p !! a).
Definition front_end (p : Stability) (a : address) : FrontEnd := default (mkFrontEnd 0 false) (frontEnds p !! a).
Definition front_end_stake (p : Stability) (a : address) : Z := default 0 (frontEndStakes p !! a).
Definition front_end_snapshots (p : Stability) (a : address) : Snapshots := default no_snapshots (frontEndSnapshots p !! a).
Definition sum_at (m : gmap (Z * Z) Z) (epoch scale : Z) : Z := default 0 (m !! (epoch, scale)).

(** ** Gains and compounded stakes *)

(** The gain of a stake from the sums [m] of ether or of ZERO, of which the snapshot
    was [snap]; the code has this function once for each of them. *)
Definition gain_from_snapshots (m : gmap (Z * Z) Z) (initialStake snap : Z) (r : Snapshots) : result Z :=
  let! firstPortion := SafeMath.sub (sum_at m (snap_epoch r) (snap_scale r)) snap in
  let! nextScale := SafeMath128.add (snap_scale r) 1 in
  let! secondPortion := SafeMath.div (sum_at m (snap_epoch r) nextScale) SCALE_FACTOR in
  let! portions := SafeMath.add firstPortion secondPortion in
  let! n := SafeMath.mul initialStake portions in
  let! n := SafeMath.div n (snap_P r) in
  SafeMath.div n DECIMAL_PRECISION.

Definition _getETHGainFromSnapshots (p : Stability) (initialDeposit : Z) (r : Snapshots) : result Z :=
  gain_from_snapshots (epochToScaleToSum p) initialDeposit (snap_S r) r.
Definition _getZEROGainFromSnapshots (p : Stability) (initialStake : Z) (r : Snapshots) : result Z :=
  gain_from_snapshots (epochToScaleToG p) initialStake (snap_G r) r.

Definition getDepositorETHGain (p : Stability) (depositor : address) : result Z :=
  let initialDeposit := initialValue (deposit_of p depositor) in
  if initialDeposit =? 0 then Ok 0 else _getETHGainFromSnapshots p initialDeposit (snapshots_of p depositor).

Definition getDepositorZEROGain (p : Stability) (depositor : address) : result Z :=
  let initialDeposit := initialValue (deposit_of p depositor) in
  if initialDeposit =? 0 then Ok 0
  else
    let tag := frontEndTag (deposit_of p depositor) in
    let rate := if is_zero tag then DECIMAL_PRECISION else kickbackRate (front_end p tag) in
    let! gain := _getZEROGainFromSnapshots p initialDeposit (snapshots_of p depositor) in
    let! n := SafeMath.mul rate gain in
    SafeMath.div n DECIMAL_PRECISION.

Definition getFrontEndZEROGain (p : Stability) (frontEnd : address) : result Z :=
  let frontEndStake := front_end_stake p frontEnd in
  if frontEndStake =? 0 then Ok 0
  else
    let! frontEndShare := SafeMath.sub DECIMAL_PRECISION (kickbackRate (front_end p frontEnd)) in
    let! gain := _getZEROGainFromSnapshots p frontEndStake (front_end_snapshots p frontEnd) in
    let! n := SafeMath.mul frontEndShare gain in
    SafeMath.div n DECIMAL_PRECISION.

Definition _getCompoundedStakeFromSnapshots (p : Stability) (initialStake : Z) (r : Snapshots) : result Z :=
  if snap_epoch r <? currentEpoch p then Ok 0
  else
    let! scaleDiff := SafeMath128.sub (currentScale p) (snap_scale r) in
    let! compoundedStake :=
      (if scaleDiff =? 0 then
         let! n := SafeMath.mul initialStake (sp_P p) in SafeMath.div n (snap_P r)
       else if scaleDiff =? 1 then
         let! n := SafeMath.mul initialStake (sp_P p) in
         let! n := SafeMath.div n (snap_P r) in
         SafeMath.div n SCALE_FACTOR
       else Ok 0) in
    let! least := SafeMath.div initialStake 1000000000 in
    Ok (if compoundedStake <? least then 0 else compoundedStake).

Definition getCompoundedZUSDDeposit (p : Stability) (depositor : address) : result Z :=
  let initialDeposit := initialValue (deposit_of p depositor) in
  if initialDeposit =? 0 then Ok 0
  else _getCompoundedStakeFromSnapshots p initialDeposit (snapshots_of p depositor).

Definition getCompoundedFrontEndStake (p : Stability) (frontEnd : address) : result Z :=
  let frontEndStake := front_end_stake p frontEnd in
  if frontEndStake =? 0 then Ok 0
  else _getCompoundedStakeFromSnapshots p frontEndStake (front_end_snapshots p frontEnd).

(** ** Running sums and product *)

(** The sum per unit staked, and the error carried to the next call. *)
Definition per_unit_staked (amount lastError total : Z) : result (Z * Z) :=
  let! n := SafeMath.mul amount DECIMAL_PRECISION in
  let! numerator := SafeMath.add n lastError in
  let! perUnitStaked := SafeMath.div numerator total in
  let! whole := SafeMath.mul perUnitStaked total in
  let! error := SafeMath.sub numerator whole in
  Ok (perUnitStaked, error).

Definition _computeZEROPerUnitStaked (p : Stability) (ZEROIssuance total : Z) : result (Z * Stability) :=
  let! r := per_unit_staked ZEROIssuance (lastZEROError p) total in
  Ok (fst r, set_errors p (snd r) (lastETHError_Offset p) (lastZUSDLossError_Offset p)).

Definition _updateG (p : Stability) (ZEROIssuance : Z) : result Stability :=
  let totalZUSD := totalZUSDDeposits p in
  if (totalZUSD =? 0) || (ZEROIssuance =? 0) then Ok p
  else
    let! r := _computeZEROPerUnitStaked p ZEROIssuance totalZUSD in
    let p := snd r in
    let! marginalZEROGain := SafeMath.mul (fst r) (sp_P p) in
    let! G := SafeMath.add (sum_at (epochToScaleToG p) (currentEpoch p) (currentScale p)) marginalZEROGain in
    Ok (set_sums p (epochToScaleToSum p) (<[(currentEpoch p, currentScale p) := G]> (epochToScaleToG p))).

(** The loss per unit staked, rounded up, and the error carried to the next call. *)
Definition loss_per_unit_staked (debtToOffset lastError total : Z) : result (Z * Z) :=
  if debtToOffset =? total then Ok (DECIMAL_PRECISION, 0)
  else
    let! n := SafeMath.mul debtToOffset DECIMAL_PRECISION in
    let! numerator := SafeMath.sub n lastError in
    let! q := SafeMath.div numerator total in
    let! lossPerUnitStaked := SafeMath.add q 1 in
    let! whole := SafeMath.mul lossPerUnitStaked total in
    let! error := SafeMath.sub whole numerator in
    Ok (lossPerUnitStaked, error).

(** The gain of ether and the loss of ZUSD per unit staked; the code forms the
    numerator for ether before the assertion. *)
Definition _computeRewardsPerUnitStaked (p : Stability) (collToAdd debtToOffset total : Z) : result (Z * Z * Stability) :=
  let! _ := sol_assert (debtToOffset <=? total) in
  let! loss := loss_per_unit_staked debtToOffset (lastZUSDLossError_Offset p) total in
  let! gain := per_unit_staked collToAdd (lastETHError_Offset p) total in
  Ok (fst gain, fst loss, set_errors p (lastZEROError p) (snd gain) (snd loss)).

(** The next product, scale and epoch. *)
Definition next_product (P scale epoch newProductFactor : Z) : result (Z * Z * Z) :=
  if newProductFactor =? 0 then
    let! e := SafeMath128.add epoch 1 in Ok (DECIMAL_PRECISION, 0, e)
  else
    let! n := SafeMath.mul P newProductFactor in
    let! q := SafeMath.div n DECIMAL_PRECISION in
    if q <? SCALE_FACTOR then
      let! n := SafeMath.mul n SCALE_FACTOR in
      let! newP := SafeMath.div n DECIMAL_PRECISION in
      let! c := SafeMath128.add scale 1 in
      Ok (newP, c, epoch)
    else Ok (q, scale, epoch).

Definition _updateRewardSumAndProduct (p : Stability) (ETHGainPerUnitStaked ZUSDLossPerUnitStaked : Z) : result Stability :=
  let! _ := sol_assert (ZUSDLossPerUnitStaked <=? DECIMAL_PRECISION) in
  let! newProductFactor := SafeMath.sub DECIMAL_PRECISION ZUSDLossPerUnitStaked in
  let! marginalETHGain := SafeMath.mul ETHGainPerUnitStaked (sp_P p) in
  let! newS := SafeMath.add (sum_at (epochToScaleToSum p) (currentEpoch p) (currentScale p)) marginalETHGain in
  let p := set_sums p (<[(currentEpoch p, currentScale p) := newS]> (epochToScaleToSum p)) (epochToScaleToG p) in
  let! next := next_product (sp_P p) (currentScale p) (currentEpoch p) newProductFactor in
  let '(newP, scale, epoch) := next in
  let! _ := sol_assert (0 <? newP) in
  Ok (set_product p newP scale epoch).

(** ** Deposits, front ends and snapshots *)

Definition _setFrontEndTag (p : Stability) (depositor tag : address) : Stability :=
  set_deposits p (<[depositor := mkPoolDeposit (initialValue (deposit_of p depositor)) tag]> (deposits p)) (depositSnapshots p).

Definition _updateDepositAndSnapshots (p : Stability) (depositor : address) (newValue : Z) : Stability :=
  if newValue =? 0 then
    set_deposits p (<[depositor := mkPoolDeposit 0 address0]> (deposits p)) (<[depositor := no_snapshots]> (depositSnapshots p))
  else
    let S := sum_at (epochToScaleToSum p) (currentEpoch p) (currentScale p) in
    let G := sum_at (epochToScaleToG p) (currentEpoch p) (currentScale p) in
    set_deposits p (<[depositor := mkPoolDeposit newValue (frontEndTag (deposit_of p depositor))]> (deposits p))
      (<[depositor := mkSnapshots S (sp_P p) G (currentScale p) (currentEpoch p)]> (depositSnapshots p)).

Definition _updateFrontEndStakeAndSnapshots (p : Stability) (frontEnd : address) (newValue : Z) : Stability :=
  if newValue =? 0 then
    set_frontEndStakes p (<[frontEnd := 0]> (frontEndStakes p)) (<[frontEnd := no_snapshots]> (frontEndSnapshots p))
  else
    let G := sum_at (epochToScaleToG p) (currentEpoch p) (currentScale p) in
    set_frontEndStakes p (<[frontEnd := newValue]> (frontEndStakes p))
      (<[frontEnd := mkSnapshots (snap_S (front_end_snapshots p frontEnd)) (sp_P p) G (currentScale p) (currentEpoch p)]>
         (frontEndSnapshots p)).

(** ** Checks *)

Definition _requireNoUnderCollateralizedTroves (W : World) : call System unit :=
  let$ price := fetchPrice W in
  view_call (fun s =>
    let lowestTrove := getLast (data (sorted s)) in
    let! ICR := _getCurrentICR (manager s) lowestTrove price in
    require (MCR (params s) <=? ICR) "StabilityPool: Cannot withdraw while there are troves with ICR < MCR").

Definition _requireUserHasDeposit (initialDeposit : Z) : result unit :=
  require (0 <? initialDeposit) "StabilityPool: User must have a non-zero deposit".
Definition _requireUserHasNoDeposit (p : Stability) (a : address) : result unit :=
  require (initialValue (deposit_of p a) =? 0) "StabilityPool: User must have no deposit".
Definition _requireNonZeroAmount (amount : Z) : result unit :=
  require (0 <? amount) "StabilityPool: Amount must be non-zero".
Definition _requireUserHasTrove (s : System) (depositor : address) : result unit :=
  require (is_active (manager s) depositor) "StabilityPool: caller must have an active trove to withdraw ETHGain to".
Definition _requireUserHasETHGain (p : Stability) (depositor : address) : result unit :=
  let! ETHGain := getDepositorETHGain p depositor in
  require (0 <? ETHGain) "StabilityPool: caller must have non-zero ETH Gain".
Definition _requireFrontEndNotRegistered (p : Stability) (a : address) : result unit :=
  require (negb (registered (front_end p a))) "StabilityPool: must not already be a registered front end".
Definition _requireFrontEndIsRegisteredOrZero (p : Stability) (a : address) : result unit :=
  require (registered (front_end p a) || is_zero a) "StabilityPool: Tag must be a registered front end, or the zero address".
Definition _requireValidKickbackRate (rate : Z) : result unit :=
  require (rate <=? DECIMAL_PRECISION) "StabilityPool: Kickback rate must be in range [0,1]".

(** ** Operations *)

(** A change of the storage of this contract. *)
Definition pool_call (f : Stability -> result Stability) : call System unit := fun s =>
  let! p := f (stability s) in Ok (tt, with_stability s p).
Definition pool_view {A} (f : Stability -> result A) : call System A := view_call (fun s => f (stability s)).

Section Stability.
Variable W : World.
Variable receive_outside : address -> address -> Z -> call System unit.

Definition this_pool : call System address := view_call (fun s => Ok (stabilityPool (wiring s))).

Definition _triggerZEROIssuance : call System unit :=
  pool_call (fun p =>
    let! r := issueZERO (community p) (now W) in
    _updateG (set_community p (snd r)) (fst r)).

Definition _decreaseZUSD (amount : Z) : call System unit :=
  pool_call (fun p => let! n := SafeMath.sub (totalZUSDDeposits p) amount in Ok (set_totalDeposits p n)).

Definition _moveOffsetCollAndDebt (collToAdd debtToOffset : Z) : call System unit :=
  let$ me := this_pool in
  let$ _ := ActivePool.decreaseZUSDDebt me debtToOffset in
  let$ _ := _decreaseZUSD debtToOffset in
  let$ _ := burn me me debtToOffset in
  ActivePool.sendETH (transfer receive_outside) me me collToAdd.

Definition offset (sender : address) (debtToOffset collToAdd : Z) : call System unit :=
  let$ _ := view_call (fun s => require (same sender (troveManager (wiring s))) "StabilityPool: Caller is not TroveManager") in
  let$ totalZUSD := pool_view (fun p => Ok (totalZUSDDeposits p)) in
  if (totalZUSD =? 0) || (debtToOffset =? 0) then call_ret tt
  else
    let$ _ := _triggerZEROIssuance in
    let$ _ := pool_call (fun p =>
      let! r := _computeRewardsPerUnitStaked p collToAdd debtToOffset totalZUSD in
      let '(ETHGainPerUnitStaked, ZUSDLossPerUnitStaked, p) := r in
      _updateRewardSumAndProduct p ETHGainPerUnitStaked ZUSDLossPerUnitStaked) in
    _moveOffsetCollAndDebt collToAdd debtToOffset.

(** ZERO for the front end, when there is one, and for the depositor. *)
Definition _payOutZEROGains (depositor frontEnd : address) : call System unit :=
  view_call (fun s =>
    let p := stability s in
    let! _ := (if is_zero frontEnd then Ok tt
               else let! gain := getFrontEndZEROGain p frontEnd in sendZERO (wiring s) frontEnd gain) in
    let! gain := getDepositorZEROGain p depositor in
    sendZERO (wiring s) depositor gain).

Definition _sendZUSDtoStabilityPool (a : address) (amount : Z) : call System unit :=
  let$ me := this_pool in
  let$ _ := sendToPool me a me amount in
  pool_call (fun p => let! n := SafeMath.add (totalZUSDDeposits p) amount in Ok (set_totalDeposits p n)).

Definition _sendZUSDToDepositor (depositor : address) (ZUSDWithdrawal : Z) : call System unit :=
  if ZUSDWithdrawal =? 0 then call_ret tt
  else
    let$ me := this_pool in
    let$ _ := returnFromPool me me depositor ZUSDWithdrawal in
    _decreaseZUSD ZUSDWithdrawal.

(** The ether goes to [sender] whoever is [receiver]. *)
Definition _sendETHGainTo (sender : address) (amount : Z) (receiver : address) : call System unit :=
  let$ _ := pure_call (require (negb (is_zero receiver)) "SP::_sendETHGainTo: _receiver is zero address") in
  if amount =? 0 then call_ret tt
  else
    let$ me := this_pool in
    let$ _ := pool_call (fun p => let! n := SafeMath.sub (sp_ETH p) amount in Ok (set_sp_ETH p n)) in
    or_revert "StabilityPool: sending ETH failed" (transfer receive_outside me sender amount).

Definition _provideToSP (sender : address) (amount : Z) (tag : address) : call System unit :=
  let$ _ := pool_view (fun p => _requireFrontEndIsRegisteredOrZero p tag) in
  let$ _ := pool_view (fun p => _requireFrontEndNotRegistered p sender) in
  let$ _ := pure_call (_requireNonZeroAmount amount) in
  let$ initialDeposit := pool_view (fun p => Ok (initialValue (deposit_of p sender))) in
  let$ _ := _triggerZEROIssuance in
  let$ _ := (if initialDeposit =? 0 then pool_call (fun p => Ok (_setFrontEndTag p sender tag)) else call_ret tt) in
  let$ depositorETHGain := pool_view (fun p => getDepositorETHGain p sender) in
  let$ compoundedZUSDDeposit := pool_view (fun p => getCompoundedZUSDDeposit p sender) in
  let$ _ := pure_call (SafeMath.sub initialDeposit compoundedZUSDDeposit) in
  let$ frontEnd := pool_view (fun p => Ok (frontEndTag (deposit_of p sender))) in
  let$ _ := _payOutZEROGains sender frontEnd in
  let$ compoundedFrontEndStake := pool_view (fun p => getCompoundedFrontEndStake p frontEnd) in
  let$ newFrontEndStake := pure_call (SafeMath.add compoundedFrontEndStake amount) in
  let$ _ := pool_call (fun p => Ok (_updateFrontEndStakeAndSnapshots p frontEnd newFrontEndStake)) in
  let$ _ := _sendZUSDtoStabilityPool sender amount in
  let$ newDeposit := pure_call (SafeMath.add compoundedZUSDDeposit amount) in
  let$ _ := pool_call (fun p => Ok (_updateDepositAndSnapshots p sender newDeposit)) in
  _sendETHGainTo sender depositorETHGain sender.

Definition _withdrawFromSpTo (sender : address) (amount : Z) (receiver : address) : call System Z :=
  let$ _ := pure_call (require (negb (is_zero receiver)) "SP::_withdrawFromSpTo: _receiver is zero address") in
  let$ _ := (if negb (amount =? 0) then _requireNoUnderCollateralizedTroves W else call_ret tt) in
  let$ initialDeposit := pool_view (fun p => Ok (initialValue (deposit_of p sender))) in
  let$ _ := pure_call (_requireUserHasDeposit initialDeposit) in
  let$ _ := _triggerZEROIssuance in
  let$ depositorETHGain := pool_view (fun p => getDepositorETHGain p sender) in
  let$ compoundedZUSDDeposit := pool_view (fun p => getCompoundedZUSDDeposit p sender) in
  let ZUSDtoWithdraw := _min amount compoundedZUSDDeposit in
  let$ _ := pure_call (SafeMath.sub initialDeposit compoundedZUSDDeposit) in
  let$ frontEnd := pool_view (fun p => Ok (frontEndTag (deposit_of p sender))) in
  let$ _ := _payOutZEROGains sender frontEnd in
  let$ compoundedFrontEndStake := pool_view (fun p => getCompoundedFrontEndStake p frontEnd) in
  let$ newFrontEndStake := pure_call (SafeMath.sub compoundedFrontEndStake ZUSDtoWithdraw) in
  let$ _ := pool_call (fun p => Ok (_updateFrontEndStakeAndSnapshots p frontEnd newFrontEndStake)) in
  let$ _ := _sendZUSDToDepositor receiver ZUSDtoWithdraw in
  let$ newDeposit := pure_call (SafeMath.sub compoundedZUSDDeposit ZUSDtoWithdraw) in
  let$ _ := pool_call (fun p => Ok (_updateDepositAndSnapshots p sender newDeposit)) in
  let$ _ := _sendETHGainTo sender depositorETHGain sender in
  call_ret ZUSDtoWithdraw.

(** *** External functions *)

Definition provideToSP (sender : address) (amount : Z) (tag : address) : call System unit := _provideToSP sender amount tag.

Definition provideToSpFromDLLR (sender : address) (dllrAmount : Z) : call System unit :=
  let$ me := this_pool in
  let$ ZUSDAmount := redeemZusdFromDllrWithPermit W me sender dllrAmount in
  _provideToSP sender ZUSDAmount address0.

Definition withdrawFromSP (sender : address) (amount : Z) : call System unit :=
  let$ _ := _withdrawFromSpTo sender amount sender in call_ret tt.

Definition withdrawFromSpAndConvertToDLLR (sender : address) (zusdAmountRequested : Z) : call System unit :=
  let$ me := this_pool in
  let$ masset := view_call (fun s => Ok (massetManager (wiring s))) in
  let$ amountWithdrawn := _withdrawFromSpTo sender zusdAmountRequested me in
  let$ _ := mint_DLLR W me masset sender amountWithdrawn in
  call_ret tt.

Definition withdrawETHGainToTrove (sender upperHint lowerHint : address) : call System unit :=
  let$ initialDeposit := pool_view (fun p => Ok (initialValue (deposit_of p sender))) in
  let$ _ := pure_call (_requireUserHasDeposit initialDeposit) in
  let$ _ := view_call (fun s => _requireUserHasTrove s sender) in
  let$ _ := pool_view (fun p => _requireUserHasETHGain p sender) in
  let$ _ := _triggerZEROIssuance in
  let$ depositorETHGain := pool_view (fun p => getDepositorETHGain p sender) in
  let$ compoundedZUSDDeposit := pool_view (fun p => getCompoundedZUSDDeposit p sender) in
  let$ _ := pure_call (SafeMath.sub initialDeposit compoundedZUSDDeposit) in
  let$ frontEnd := pool_view (fun p => Ok (frontEndTag (deposit_of p sender))) in
  let$ _ := _payOutZEROGains sender frontEnd in
  let$ compoundedFrontEndStake := pool_view (fun p => getCompoundedFrontEndStake p frontEnd) in
  let$ _ := pool_call (fun p => Ok (_updateFrontEndStakeAndSnapshots p frontEnd compoundedFrontEndStake)) in
  let$ _ := pool_call (fun p => Ok (_updateDepositAndSnapshots p sender compoundedZUSDDeposit)) in
  let$ _ := pool_call (fun p => let! n := SafeMath.sub (sp_ETH p) depositorETHGain in Ok (set_sp_ETH p n)) in
  let$ me := this_pool in
  moveETHGainToTrove W receive_outside me depositorETHGain sender upperHint lowerHint.

(** A front end chooses its rate once. *)
Definition registerFrontEnd (sender : address) (rate : Z) : call System unit :=
  let$ _ := pool_view (fun p => _requireFrontEndNotRegistered p sender) in
  let$ _ := pool_view (fun p => _requireUserHasNoDeposit p sender) in
  let$ _ := pure_call (_requireValidKickbackRate rate) in
  pool_call (fun p => Ok (set_frontEnds p (<[sender := mkFrontEnd rate true]> (frontEnds p)))).
End Stability.
