(* ===== verification/Liquidations.v ===== *)
(** * TroveManager.sol: liquidations

    Under-collateralised Troves are closed; their debt is offset against the
    Stability Pool as far as it goes and the rest is redistributed.  In recovery mode
    a Trove above the minimum ratio is liquidated at a capped rate, and what is left
    of its collateral is accounted for its owner.  A loop over Troves takes the gas it
    may use. *)

From S2P Require Import Prelude Solidity SortedTroves ChainState ZUSDToken ActivePool DefaultPool CollSurplusPool.
From S2P Require Import Outside FeeDistributor TroveManager BorrowerOperations StabilityPool.
Import LiquityMath.
Local Open Scope Z_scope.

(** ** Values *)

Record LiquidationValues : Type := mkLiquidationValues {
  entireTroveDebt : Z;
  entireTroveColl : Z;
  collGasCompensation : Z;
  ZUSDGasCompensation : Z;
  debtToOffset : Z;
  collToSendToSP : Z;
  debtToRedistribute : Z;
  collToRedistribute : Z;
  collSurplus : Z }.

Record LiquidationTotals : Type := mkLiquidationTotals {
  totalCollInSequence : Z;
  totalDebtInSequence : Z;
  totalCollGasCompensation : Z;
  totalZUSDGasCompensation : Z;
  totalDebtToOffset : Z;
  totalCollToSendToSP : Z;
  totalDebtToRedistribute : Z;
  totalCollToRedistribute : Z;
  totalCollSurplus : Z }.

Definition zeroVals : LiquidationValues := mkLiquidationValues 0 0 0 0 0 0 0 0 0.
Definition zeroTotals : LiquidationTotals := mkLiquidationTotals 0 0 0 0 0 0 0 0 0.

(** [(debtToOffset, collToSendToSP, debtToRedistribute, collToRedistribute)] *)
Definition _getOffsetAndRedistributionVals (debt coll ZUSDInStabPool : Z) : result (Z * Z * Z * Z) :=
  if 0 <? ZUSDInStabPool then
    let toOffset := _min debt ZUSDInStabPool in
    let! n := SafeMath.mul coll toOffset in
    let! toSP := SafeMath.div n debt in
    let! debtRest := SafeMath.sub debt toOffset in
    let! collRest := SafeMath.sub coll toSP in
    Ok (toOffset, toSP, debtRest, collRest)
  else Ok (0, 0, debt, coll).

Definition _getCappedOffsetVals (s : System) (entireDebt entireColl price : Z) : result LiquidationValues :=
  let! n := SafeMath.mul entireDebt (MCR (params s)) in
  let! collToOffset := SafeMath.div n price in
  let! gasCompensation := _getCollGasCompensation s collToOffset in
  let! toSP := SafeMath.sub collToOffset gasCompensation in
  let! surplus := SafeMath.sub entireColl collToOffset in
  Ok (mkLiquidationValues entireDebt entireColl gasCompensation ZUSD_GAS_COMPENSATION entireDebt toSP 0 0 surplus).

Definition _addLiquidationValuesToTotals (t : LiquidationTotals) (v : LiquidationValues) : result LiquidationTotals :=
  let! collGas := SafeMath.add (totalCollGasCompensation t) (collGasCompensation v) in
  let! zusdGas := SafeMath.add (totalZUSDGasCompensation t) (ZUSDGasCompensation v) in
  let! debt := SafeMath.add (totalDebtInSequence t) (entireTroveDebt v) in
  let! coll := SafeMath.add (totalCollInSequence t) (entireTroveColl v) in
  let! debtOffset := SafeMath.add (totalDebtToOffset t) (debtToOffset v) in
  let! collSP := SafeMath.add (totalCollToSendToSP t) (collToSendToSP v) in
  let! debtRest := SafeMath.add (totalDebtToRedistribute t) (debtToRedistribute v) in
  let! collRest := SafeMath.add (totalCollToRedistribute t) (collToRedistribute v) in
  let! surplus := SafeMath.add (totalCollSurplus t) (collSurplus v) in
  Ok (mkLiquidationTotals coll debt collGas zusdGas debtOffset collSP debtRest collRest surplus).

Definition _checkPotentialRecoveryMode (s : System) (entireSystemColl entireSystemDebt price : Z) : result bool :=
  let! TCR := _computeCR entireSystemColl entireSystemDebt price in Ok (TCR <? CCR (params s)).

(** ** One Trove *)

(** The rewards move to the active pool, and the stake is given up. *)
Definition unstake (borrower : address) (pendingDebt pendingColl : Z) : call System unit :=
  let$ _ := _movePendingTroveRewardsToActivePool pendingDebt pendingColl in
  fun s => let! m := _removeStake (manager s) borrower in Ok (tt, with_manager s m).

Definition _liquidateNormalMode (borrower : address) (ZUSDInStabPool : Z) : call System LiquidationValues :=
  let$ e := view_call (fun s => getEntireDebtAndColl (manager s) borrower) in
  let '(debt, coll, pendingDebtReward, pendingCollReward) := e in
  let$ _ := unstake borrower pendingDebtReward pendingCollReward in
  let$ gasCompensation := view_call (fun s => _getCollGasCompensation s coll) in
  let$ collToLiquidate := pure_call (SafeMath.sub coll gasCompensation) in
  let$ v := pure_call (_getOffsetAndRedistributionVals debt collToLiquidate ZUSDInStabPool) in
  let '(toOffset, toSP, debtRest, collRest) := v in
  let$ _ := TroveManager._closeTrove borrower closedByLiquidation_ in
  call_ret (mkLiquidationValues debt coll gasCompensation ZUSD_GAS_COMPENSATION toOffset toSP debtRest collRest 0).

Definition _liquidateRecoveryMode (borrower : address) (ICR ZUSDInStabPool TCR price : Z) : call System LiquidationValues :=
  let$ owners := view_call (fun s => Ok (Z.of_nat (length (TroveOwners (manager s))))) in
  if owners <=? 1 then call_ret zeroVals
  else
    let$ e := view_call (fun s => getEntireDebtAndColl (manager s) borrower) in
    let '(debt, coll, pendingDebtReward, pendingCollReward) := e in
    let$ gasCompensation := view_call (fun s => _getCollGasCompensation s coll) in
    let$ collToLiquidate := pure_call (SafeMath.sub coll gasCompensation) in
    let$ minimum := view_call (fun s => Ok (MCR (params s))) in
    if ICR <=? _100pct then
      let$ _ := unstake borrower pendingDebtReward pendingCollReward in
      let$ _ := TroveManager._closeTrove borrower closedByLiquidation_ in
      call_ret (mkLiquidationValues debt coll gasCompensation ZUSD_GAS_COMPENSATION 0 0 debt collToLiquidate 0)
    else if (_100pct <? ICR) && (ICR <? minimum) then
      let$ _ := unstake borrower pendingDebtReward pendingCollReward in
      let$ v := pure_call (_getOffsetAndRedistributionVals debt collToLiquidate ZUSDInStabPool) in
      let '(toOffset, toSP, debtRest, collRest) := v in
      let$ _ := TroveManager._closeTrove borrower closedByLiquidation_ in
      call_ret (mkLiquidationValues debt coll gasCompensation ZUSD_GAS_COMPENSATION toOffset toSP debtRest collRest 0)
    else if (minimum <=? ICR) && (ICR <? TCR) && (debt <=? ZUSDInStabPool) then
      let$ _ := _movePendingTroveRewardsToActivePool pendingDebtReward pendingCollReward in
      let$ _ := pure_call (sol_assert (negb (ZUSDInStabPool =? 0))) in
      let$ _ := (fun s => let! m := _removeStake (manager s) borrower in Ok (tt, with_manager s m)) in
      let$ v := view_call (fun s => _getCappedOffsetVals s debt coll price) in
      let$ _ := TroveManager._closeTrove borrower closedByLiquidation_ in
      let$ me := view_call (fun s => Ok (troveManager (wiring s))) in
      let$ _ := (if 0 <? collSurplus v then accountSurplus me borrower (collSurplus v) else call_ret tt) in
      call_ret v
    else call_ret zeroVals.

(** ** Sequences *)

(** [LocalVariables_LiquidationSequence], without the counter, and the totals so far. *)
Record Sequence : Type := mkSequence {
  remainingZUSDInStabPool : Z;
  backToNormalMode : bool;
  entireSystemDebt : Z;
  entireSystemColl : Z;
  totals : LiquidationTotals }.

(** Liquidate one Trove in normal mode and add it to the totals. *)
Definition liquidate_normal (q : Sequence) (user : address) : call System Sequence :=
  let$ v := _liquidateNormalMode user (remainingZUSDInStabPool q) in
  let$ remaining := pure_call (SafeMath.sub (remainingZUSDInStabPool q) (debtToOffset v)) in
  let$ t := pure_call (_addLiquidationValuesToTotals (totals q) v) in
  call_ret (mkSequence remaining (backToNormalMode q) (entireSystemDebt q) (entireSystemColl q) t).

(** The same in recovery mode.  A sequence takes the surplus off the collateral of
    the system ([withSurplus]), a batch does not. *)
Definition liquidate_recovery (withSurplus : bool) (price : Z) (q : Sequence) (user : address) (ICR : Z)
    : call System Sequence :=
  let$ TCR := pure_call (_computeCR (entireSystemColl q) (entireSystemDebt q) price) in
  let$ v := _liquidateRecoveryMode user ICR (remainingZUSDInStabPool q) TCR price in
  let$ remaining := pure_call (SafeMath.sub (remainingZUSDInStabPool q) (debtToOffset v)) in
  let$ debt := pure_call (SafeMath.sub (entireSystemDebt q) (debtToOffset v)) in
  let$ coll := pure_call (SafeMath.sub (entireSystemColl q) (collToSendToSP v)) in
  let$ coll := pure_call (if withSurplus then SafeMath.sub coll (collSurplus v) else Ok coll) in
  let$ t := pure_call (_addLiquidationValuesToTotals (totals q) v) in
  let$ recovery := view_call (fun s => _checkPotentialRecoveryMode s coll debt price) in
  call_ret (mkSequence remaining (negb recovery) debt coll t).

(** What a loop does with its next Trove: liquidate it, leave it, or end. *)
Inductive visit : Type := Liquidated (q : Sequence) | Skipped.

Definition visit_recovery (withSurplus : bool) (price : Z) (q : Sequence) (user : address) : call System visit :=
  let$ ICR := view_call (fun s => _getCurrentICR (manager s) user price) in
  let$ minimum := view_call (fun s => Ok (MCR (params s))) in
  if negb (backToNormalMode q) then
    if (minimum <=? ICR) && (remainingZUSDInStabPool q =? 0) then call_ret Skipped
    else let$ q := liquidate_recovery withSurplus price q user ICR in call_ret (Liquidated q)
  else if backToNormalMode q && (ICR <? minimum) then
    let$ q := liquidate_normal q user in call_ret (Liquidated q)
  else call_ret Skipped.

Definition visit_normal (price : Z) (q : Sequence) (user : address) : call System visit :=
  let$ ICR := view_call (fun s => _getCurrentICR (manager s) user price) in
  let$ minimum := view_call (fun s => Ok (MCR (params s))) in
  if ICR <? minimum then let$ q := liquidate_normal q user in call_ret (Liquidated q)
  else call_ret Skipped.

(** The loop of [_getTotalsFromLiquidateTrovesSequence_RecoveryMode], which ends at a Trove it leaves. *)
Fixpoint recovery_loop (gas : nat) (price n : Z) (firstUser user : address) (q : Sequence) : call System Sequence :=
  if (0 <? n) && negb (same user firstUser) then
    match gas with
    | O => pure_call out_of_gas
    | S gas =>
        let$ nextUser := view_call (fun s => Ok (getPrev (data (sorted s)) user)) in
        let$ v := visit_recovery true price q user in
        match v with
        | Liquidated q => recovery_loop gas price (n - 1) firstUser nextUser q
        | Skipped => call_ret q
        end
    end
  else call_ret q.

(** The loop of [_getTotalsFromLiquidateTrovesSequence_NormalMode]. *)
Fixpoint normal_loop (gas : nat) (price n : Z) (q : Sequence) : call System Sequence :=
  if 0 <? n then
    match gas with
    | O => pure_call out_of_gas
    | S gas =>
        let$ user := view_call (fun s => Ok (getLast (data (sorted s)))) in
        let$ v := visit_normal price q user in
        match v with
        | Liquidated q => normal_loop gas price (n - 1) q
        | Skipped => call_ret q
        end
    end
  else call_ret q.

(** The loop of [_getTotalFromBatchLiquidate_RecoveryMode]. *)
Fixpoint recovery_batch (price : Z) (troveArray : list address) (q : Sequence) : call System Sequence :=
  match troveArray with
  | [] => call_ret q
  | user :: rest =>
      let$ active := view_call (fun s => Ok (is_active (manager s) user)) in
      if negb active then recovery_batch price rest q
      else
        let$ v := visit_recovery false price q user in
        match v with
        | Liquidated q => recovery_batch price rest q
        | Skipped => recovery_batch price rest q
        end
  end.

(** The loop of [_getTotalsFromBatchLiquidate_NormalMode]. *)
Fixpoint normal_batch (price : Z) (troveArray : list address) (q : Sequence) : call System Sequence :=
  match troveArray with
  | [] => call_ret q
  | user :: rest =>
      let$ v := visit_normal price q user in
      match v with
      | Liquidated q => normal_batch price rest q
      | Skipped => normal_batch price rest q
      end
  end.

Definition start_normal (ZUSDInStabPool : Z) : Sequence := mkSequence ZUSDInStabPool false 0 0 zeroTotals.

Definition start_recovery (ZUSDInStabPool : Z) : call System Sequence :=
  view_call (fun s =>
    let! debt := getEntireSystemDebt s in
    let! coll := getEntireSystemColl s in
    Ok (mkSequence ZUSDInStabPool false debt coll zeroTotals)).

(** ** Operations *)

Section Liquidation.
Variable W : World.
Variable receive_outside : address -> address -> Z -> call System unit.

Definition _sendGasCompensation (liquidator : address) (ZUSD ETH : Z) : call System unit :=
  let$ me := view_call (fun s => Ok (troveManager (wiring s))) in
  let$ pool := view_call (fun s => Ok (gasPool (wiring s))) in
  let$ _ := (if 0 <? ZUSD then returnFromPool me pool liquidator ZUSD else call_ret tt) in
  if 0 <? ETH then ActivePool.sendETH (transfer receive_outside) me liquidator ETH else call_ret tt.

(** What [liquidateTroves] and [batchLiquidateTroves] do with the totals. *)
Definition settle_liquidation (sender : address) (t : LiquidationTotals) : call System unit :=
  let$ me := view_call (fun s => Ok (troveManager (wiring s))) in
  let$ _ := pure_call (require (0 <? totalDebtInSequence t) "TroveManager: nothing to liquidate") in
  let$ _ := offset W receive_outside me (totalDebtToOffset t) (totalCollToSendToSP t) in
  let$ _ := _redistributeDebtAndColl receive_outside (totalDebtToRedistribute t) (totalCollToRedistribute t) in
  let$ surplusPool := view_call (fun s => Ok (collSurplusPool (wiring s))) in
  let$ _ := (if 0 <? totalCollSurplus t
             then ActivePool.sendETH (transfer receive_outside) me surplusPool (totalCollSurplus t)
             else call_ret tt) in
  let$ _ := _updateSystemSnapshots_excludeCollRemainder (totalCollGasCompensation t) in
  let$ n := pure_call (SafeMath.sub (totalCollInSequence t) (totalCollGasCompensation t)) in
  let$ _ := pure_call (SafeMath.sub n (totalCollSurplus t)) in
  _sendGasCompensation sender (totalZUSDGasCompensation t) (totalCollGasCompensation t).

Definition liquidateTroves (sender : address) (n : Z) : call System unit :=
  let$ price := fetchPrice W in
  let$ ZUSDInStabPool := view_call (fun s => Ok (totalZUSDDeposits (stability s))) in
  let$ recoveryModeAtStart := view_call (fun s => _checkRecoveryMode s price) in
  let$ q := (if recoveryModeAtStart then
               let$ q := start_recovery ZUSDInStabPool in
               let$ user := view_call (fun s => Ok (getLast (data (sorted s)))) in
               let$ firstUser := view_call (fun s => Ok (getFirst (data (sorted s)))) in
               recovery_loop (walk_gas W) price n firstUser user q
             else normal_loop (walk_gas W) price n (start_normal ZUSDInStabPool)) in
  settle_liquidation sender (totals q).

Definition batchLiquidateTroves (sender : address) (troveArray : list address) : call System unit :=
  let$ _ := pure_call (require (negb (Nat.eqb (length troveArray) 0)) "TroveManager: Calldata address array must not be empty") in
  let$ price := fetchPrice W in
  let$ ZUSDInStabPool := view_call (fun s => Ok (totalZUSDDeposits (stability s))) in
  let$ recoveryModeAtStart := view_call (fun s => _checkRecoveryMode s price) in
  let$ q := (if recoveryModeAtStart then
               let$ q := start_recovery ZUSDInStabPool in recovery_batch price troveArray q
             else normal_batch price troveArray (start_normal ZUSDInStabPool)) in
  settle_liquidation sender (totals q).

Definition liquidate (sender borrower : address) : call System unit :=
  let$ _ := view_call (fun s => _requireTroveIsActive (manager s) borrower) in
  batchLiquidateTroves sender [borrower].
End Liquidation.
