(* ===== verification/Redemptions.v ===== *)
(** * Dependencies/TroveManagerRedeemOps.sol: redemptions

    TroveManager runs this code on its own storage.  ZUSD is exchanged at face value
    for the collateral of the Troves with the lowest ratios; a Trove whose debt is
    redeemed in full is closed and its surplus accounted for its owner.  A loop over
    Troves takes the gas it may use. *)

From S2P Require Import Prelude Solidity SortedTroves ChainState ZUSDToken ActivePool DefaultPool CollSurplusPool.
From S2P Require Import Outside FeeDistributor TroveManager BorrowerOperations.
Import LiquityMath.
Local Open Scope Z_scope.

(** ** Checks *)

Definition _requireValidMaxFeePercentage (s : System) (maxFeePercentage : Z) : result unit :=
  require ((REDEMPTION_FEE_FLOOR (params s) <=? maxFeePercentage) && (maxFeePercentage <=? DECIMAL_PRECISION))
    "Max fee percentage must be between 0.5% and 100%".
Definition _requireAfterBootstrapPeriod (s : System) (now : Z) : result unit :=
  let! start := SafeMath.add (deploymentStartTime (wiring s)) (BOOTSTRAP_PERIOD (wiring s)) in
  require (start <=? now) "TroveManager: Redemptions are not allowed during bootstrap phase".
Definition _requireTCRoverMCR (s : System) (price : Z) : result unit :=
  let! TCR := _getTCR s price in
  require (MCR (params s) <=? TCR) "TroveManager: Cannot redeem when TCR < MCR".
Definition _requireAmountGreaterThanZero (amount : Z) : result unit :=
  require (0 <? amount) "TroveManager: Amount must be greater than zero".
Definition _requireZUSDBalanceCoversRedemption (s : System) (redeemer : address) (amount : Z) : result unit :=
  require (amount <=? balanceOf s redeemer)
    "TroveManager: Requested redemption amount must be <= user's ZUSD token balance".

(** ** Where to start *)

Definition _isValidFirstRedemptionHint (s : System) (hint : address) (price : Z) : result bool :=
  if is_zero hint || negb (contains (data (sorted s)) hint) then Ok false
  else
    let! ICR := _getCurrentICR (manager s) hint price in
    if ICR <? MCR (params s) then Ok false
    else
      let nextTrove := getNext (data (sorted s)) hint in
      if is_zero nextTrove then Ok true
      else let! ICR := _getCurrentICR (manager s) nextTrove price in Ok (ICR <? MCR (params s)).

(** The first Trove from the end of the list with ICR >= MCR. *)
Fixpoint first_redeemable (gas : nat) (s : System) (price : Z) (currentBorrower : address) : result address :=
  if is_zero currentBorrower then Ok currentBorrower
  else
    let! ICR := _getCurrentICR (manager s) currentBorrower price in
    if ICR <? MCR (params s) then
      match gas with
      | O => out_of_gas
      | S gas => first_redeemable gas s price (getPrev (data (sorted s)) currentBorrower)
      end
    else Ok currentBorrower.

Definition first_borrower (gas : nat) (s : System) (hint : address) (price : Z) : result address :=
  let! valid := _isValidFirstRedemptionHint s hint price in
  if valid then Ok hint else first_redeemable gas s price (getLast (data (sorted s))).

(** ** One Trove *)

Section Redemption.
Variable W : World.
Variable receive_outside : address -> address -> Z -> call System unit.

Definition this_manager : call System address := view_call (fun s => Ok (troveManager (wiring s))).

(** A change of the storage of TroveManager. *)
Definition manager_call (f : Manager -> result Manager) : call System unit := fun s =>
  let! m := f (manager s) in Ok (tt, with_manager s m).

Definition _redeemCloseTrove (borrower : address) (ZUSD ETH : Z) : call System unit :=
  let$ me := this_manager in
  let$ gas := view_call (fun s => Ok (gasPool (wiring s))) in
  let$ _ := burn me gas ZUSD in
  let$ _ := ActivePool.decreaseZUSDDebt me ZUSD in
  let$ _ := accountSurplus me borrower ETH in
  let$ surplusPool := view_call (fun s => Ok (collSurplusPool (wiring s))) in
  ActivePool.sendETH (transfer receive_outside) me surplusPool ETH.

(** [sortedTroves.reInsert], called by TroveManager *)
Definition reInsert_partial (id : address) (NICR : Z) (upperHint lowerHint : address) : call System unit := fun s =>
  let! l := SortedTroves.reInsert (getNominalICR (manager s)) (walk_gas W) (sorted s) (troveManager (wiring s))
              id NICR upperHint lowerHint in
  Ok (tt, with_sorted s l).

(** [(ZUSDLot, ETHLot, cancelledPartial)] *)
Definition _redeemCollateralFromTrove (borrower : address) (maxZUSDamount price : Z) (upperHint lowerHint : address)
    (hintNICR : Z) : call System (Z * Z * bool) :=
  let$ t := view_call (fun s => Ok (trove (manager s) borrower)) in
  let$ net := pure_call (SafeMath.sub (t_debt t) ZUSD_GAS_COMPENSATION) in
  let ZUSDLot := _min maxZUSDamount net in
  let$ n := pure_call (SafeMath.mul ZUSDLot DECIMAL_PRECISION) in
  let$ ETHLot := pure_call (SafeMath.div n price) in
  let$ newDebt := pure_call (SafeMath.sub (t_debt t) ZUSDLot) in
  let$ newColl := pure_call (SafeMath.sub (t_coll t) ETHLot) in
  if newDebt =? ZUSD_GAS_COMPENSATION then
    let$ _ := manager_call (fun m => _removeStake m borrower) in
    let$ _ := TroveManager._closeTrove borrower closedByRedemption_ in
    let$ _ := _redeemCloseTrove borrower ZUSD_GAS_COMPENSATION newColl in
    call_ret (ZUSDLot, ETHLot, false)
  else
    let$ newNICR := pure_call (_computeNominalCR newColl newDebt) in
    let$ cancelled := pure_call (if negb (newNICR =? hintNICR) then Ok true
                                 else let! rest := _getNetDebt newDebt in Ok (rest <? MIN_NET_DEBT)) in
    if cancelled then call_ret (ZUSDLot, ETHLot, true)
    else
      let$ _ := reInsert_partial borrower newNICR upperHint lowerHint in
      let$ _ := manager_call (fun m =>
        let m := set_trove m borrower (set_debt_ (trove m borrower) newDebt) in
        Ok (set_trove m borrower (set_coll (trove m borrower) newColl))) in
      let$ _ := manager_call (fun m => let! r := _updateStakeAndTotalStakes m borrower in Ok (snd r)) in
      call_ret (ZUSDLot, ETHLot, false).

(** ** The loop over the Troves *)

Record RedemptionTotals : Type := mkRedemptionTotals { remainingZUSD : Z; totalZUSDToRedeem : Z; totalETHDrawn : Z }.

Fixpoint redeem_loop (gas : nat) (price : Z) (upperHint lowerHint : address) (hintNICR maxIterations : Z)
    (currentBorrower : address) (t : RedemptionTotals) : call System RedemptionTotals :=
  if negb (is_zero currentBorrower) && (0 <? remainingZUSD t) && (0 <? maxIterations) then
    match gas with
    | O => pure_call out_of_gas
    | S gas =>
        let$ nextUserToCheck := view_call (fun s => Ok (getPrev (data (sorted s)) currentBorrower)) in
        let$ _ := _applyPendingRewards currentBorrower in
        let$ r := _redeemCollateralFromTrove currentBorrower (remainingZUSD t) price upperHint lowerHint hintNICR in
        let '(ZUSDLot, ETHLot, cancelledPartial) := r in
        if cancelledPartial then call_ret t
        else
          let$ redeemed := pure_call (SafeMath.add (totalZUSDToRedeem t) ZUSDLot) in
          let$ drawn := pure_call (SafeMath.add (totalETHDrawn t) ETHLot) in
          let$ remaining := pure_call (SafeMath.sub (remainingZUSD t) ZUSDLot) in
          redeem_loop gas price upperHint lowerHint hintNICR (maxIterations - 1) nextUserToCheck
            (mkRedemptionTotals remaining redeemed drawn)
    end
  else call_ret t.

(** ** The fee *)

Definition _updateBaseRateFromRedemption (ETHDrawn price totalZUSDSupply : Z) : call System unit :=
  manager_call (fun m =>
    let! decayedBaseRate := _calcDecayedBaseRate m (now W) in
    let! n := SafeMath.mul ETHDrawn price in
    let! redeemedZUSDFraction := SafeMath.div n totalZUSDSupply in
    let! part := SafeMath.div redeemedZUSDFraction BETA in
    let! rate := SafeMath.add decayedBaseRate part in
    let newBaseRate := _min rate DECIMAL_PRECISION in
    let! _ := sol_assert (0 <? newBaseRate) in
    _updateLastFeeOpTime (set_rate m newBaseRate (lastFeeOperationTime m)) (now W)).

Definition _getRedemptionFee (s : System) (ETHDrawn : Z) : result Z :=
  let! rate := _calcRedemptionRate (params s) (baseRate (manager s)) in _calcRedemptionFee rate ETHDrawn.

(** ** Operations *)

Definition _redeemCollateral (sender : address) (ZUSDamount : Z) (firstRedemptionHint upperHint lowerHint : address)
    (hintNICR maxIterations maxFeePercentage : Z) : call System unit :=
  let$ me := this_manager in
  let$ _ := view_call (fun s => _requireValidMaxFeePercentage s maxFeePercentage) in
  let$ _ := view_call (fun s => _requireAfterBootstrapPeriod s (now W)) in
  let$ price := fetchPrice W in
  let$ _ := view_call (fun s => _requireTCRoverMCR s price) in
  let$ _ := pure_call (_requireAmountGreaterThanZero ZUSDamount) in
  let$ _ := view_call (fun s => _requireZUSDBalanceCoversRedemption s sender ZUSDamount) in
  let$ totalZUSDSupplyAtStart := view_call getEntireSystemDebt in
  let$ _ := view_call (fun s => sol_assert (balanceOf s sender <=? totalZUSDSupplyAtStart)) in
  let$ currentBorrower := view_call (fun s => first_borrower (walk_gas W) s firstRedemptionHint price) in
  let iterations := if maxIterations =? 0 then MAX_UINT else maxIterations in
  let$ t := redeem_loop (walk_gas W) price upperHint lowerHint hintNICR iterations currentBorrower
              (mkRedemptionTotals ZUSDamount 0 0) in
  let$ _ := pure_call (require (0 <? totalETHDrawn t) "TroveManager: Unable to redeem any amount") in
  let$ _ := _updateBaseRateFromRedemption (totalETHDrawn t) price totalZUSDSupplyAtStart in
  let$ ETHFee := view_call (fun s => _getRedemptionFee s (totalETHDrawn t)) in
  let$ _ := pure_call (_requireUserAcceptsFee ETHFee (totalETHDrawn t) maxFeePercentage) in
  let$ distributor := view_call (fun s => Ok (feeDistributor (wiring s))) in
  let$ _ := ActivePool.sendETH (transfer receive_outside) me distributor ETHFee in
  let$ _ := distributeFees W receive_outside me in
  let$ ETHToSendToRedeemer := pure_call (SafeMath.sub (totalETHDrawn t) ETHFee) in
  let$ _ := burn me sender (totalZUSDToRedeem t) in
  let$ _ := ActivePool.decreaseZUSDDebt me (totalZUSDToRedeem t) in
  ActivePool.sendETH (transfer receive_outside) me sender ETHToSendToRedeemer.

Definition redeemCollateral (sender : address) (ZUSDamount : Z) (firstRedemptionHint upperHint lowerHint : address)
    (hintNICR maxIterations maxFeePercentage : Z) : call System unit :=
  _redeemCollateral sender ZUSDamount firstRedemptionHint upperHint lowerHint hintNICR maxIterations maxFeePercentage.

Definition redeemCollateralViaDLLR (sender : address) (dllrAmount : Z) (firstRedemptionHint upperHint lowerHint : address)
    (hintNICR maxIterations maxFeePercentage : Z) : call System unit :=
  let$ me := this_manager in
  let$ zusdAmount := redeemZusdFromDllrWithPermit W me sender dllrAmount in
  _redeemCollateral sender zusdAmount firstRedemptionHint upperHint lowerHint hintNICR maxIterations maxFeePercentage.
End Redemption.
