(* ===== verification/Transactions.v ===== *)
(** * Transactions of accounts outside of the protocol

    What an account can ask of the protocol: every external function of BorrowerOperations
    and of StabilityPool, the liquidations and redemptions of TroveManager, staking, the
    allowances of ZERO, a new price, what only the owner of a contract may do, and [action]s of its own.  A call that pays ether to an account
    runs the code of that account, which may refuse the payment or call the protocol
    again, to any depth. *)

From S2P Require Import Prelude Solidity SortedTroves ChainState ZUSDToken ActivePool DefaultPool CollSurplusPool.
From S2P Require Import Outside FeeDistributor TroveManager BorrowerOperations StabilityPool Liquidations Redemptions.
From S2P Require Import ZEROStaking Governance.
Local Open Scope Z_scope.

Inductive operation : Type :=
| OpenTrove (value maxFeePercentage ZUSDAmount : Z) (upperHint lowerHint : address)
| OpenNueTrove (value maxFeePercentage ZUSDAmount : Z) (upperHint lowerHint : address)
| AddColl (value : Z) (upperHint lowerHint : address)
| MoveETHGainToTrove (value : Z) (borrower upperHint lowerHint : address)
| WithdrawColl (collWithdrawal : Z) (upperHint lowerHint : address)
| WithdrawZUSD (maxFeePercentage ZUSDAmount : Z) (upperHint lowerHint : address)
| WithdrawZusdAndConvertToDLLR (maxFeePercentage ZUSDAmount : Z) (upperHint lowerHint : address)
| RepayZUSD (ZUSDAmount : Z) (upperHint lowerHint : address)
| RepayZusdFromDLLR (dllrAmount : Z) (upperHint lowerHint : address)
| AdjustTrove (value maxFeePercentage collWithdrawal ZUSDChange : Z) (isDebtIncrease : bool) (upperHint lowerHint : address)
| AdjustNueTrove (value maxFeePercentage collWithdrawal ZUSDChange : Z) (isDebtIncrease : bool) (upperHint lowerHint : address)
| CloseTrove
| CloseNueTrove
| ClaimCollateral
| ProvideToSP (amount : Z) (frontEndTag : address)
| ProvideToSpFromDLLR (dllrAmount : Z)
| WithdrawFromSP (amount : Z)
| WithdrawFromSpAndConvertToDLLR (zusdAmountRequested : Z)
| WithdrawETHGainToTrove (upperHint lowerHint : address)
| RegisterFrontEnd (kickbackRate : Z)
| Liquidate (borrower : address)
| LiquidateTroves (n : Z)
| BatchLiquidateTroves (troveArray : list address)
| RedeemCollateral (ZUSDamount : Z) (firstRedemptionHint upperHint lowerHint : address) (hintNICR maxIterations maxFeePercentage : Z)
| RedeemCollateralViaDLLR (dllrAmount : Z) (firstRedemptionHint upperHint lowerHint : address) (hintNICR maxIterations maxFeePercentage : Z)
| Stake (ZEROamount : Z)
| Unstake (ZEROamount : Z)
| ApproveZERO (spender : address) (amount : Z)
| TransferFromZERO (owner recipient : address) (amount : Z)
| IncreaseAllowanceZERO (spender : address) (addedValue : Z)
| DecreaseAllowanceZERO (spender : address) (subtractedValue : Z)
| PermitZERO (recovered : Z -> address) (owner spender : address) (amount deadline : Z)
| ReceiveZero (account : address) (ZEROamount : Z)
| SetOwner (contract owner : address)
| SetMCR (n : Z)
| SetCCR (n : Z)
| SetPercentDivisor (n : Z)
| SetBorrowingFeeFloor (n : Z)
| SetRedemptionFeeFloor (n : Z)
| SetMaxBorrowingFee (n : Z)
| SetFeeToFeeSharingCollector (n : Z)
| FetchPrice
| Act (a : action).

(** The numbers of a call are words. *)
Definition amounts (op : operation) : list Z :=
  match op with
  | OpenTrove v f n _ _ | OpenNueTrove v f n _ _ => [v; f; n]
  | AddColl v _ _ | MoveETHGainToTrove v _ _ _ => [v]
  | WithdrawColl n _ _ | RepayZUSD n _ _ | RepayZusdFromDLLR n _ _ => [n]
  | WithdrawZUSD f n _ _ | WithdrawZusdAndConvertToDLLR f n _ _ => [f; n]
  | AdjustTrove v f c n _ _ _ | AdjustNueTrove v f c n _ _ _ => [v; f; c; n]
  | ProvideToSP n _ | ProvideToSpFromDLLR n | WithdrawFromSP n | WithdrawFromSpAndConvertToDLLR n => [n]
  | RegisterFrontEnd r => [r]
  | LiquidateTroves n => [n]
  | RedeemCollateral n _ _ _ h i f | RedeemCollateralViaDLLR n _ _ _ h i f => [n; h; i; f]
  | CloseTrove | CloseNueTrove | ClaimCollateral | WithdrawETHGainToTrove _ _ => []
  | Stake n | Unstake n | ApproveZERO _ n | TransferFromZERO _ _ n | IncreaseAllowanceZERO _ n | DecreaseAllowanceZERO _ n => [n]
  | PermitZERO _ _ _ n d => [n; d]
  | ReceiveZero _ n | SetMCR n | SetCCR n | SetPercentDivisor n | SetBorrowingFeeFloor n | SetRedemptionFeeFloor n => [n]
  | SetMaxBorrowingFee n | SetFeeToFeeSharingCollector n => [n]
  | Liquidate _ | BatchLiquidateTroves _ | SetOwner _ _ | FetchPrice | Act _ => []
  end.

Definition is_word (n : Z) : bool := (0 <=? n) && (n <? UINT256).

Section Dispatch.
Variable W : World.
Variable receive_outside : address -> address -> Z -> call System unit.

Definition dispatch (sender : address) (op : operation) : call System unit :=
  match op with
  | OpenTrove v f n up low => openTrove W receive_outside sender v f n up low
  | OpenNueTrove v f n up low => openNueTrove W receive_outside sender v f n up low
  | AddColl v up low => addColl W receive_outside sender v up low
  | MoveETHGainToTrove v b up low => moveETHGainToTrove W receive_outside sender v b up low
  | WithdrawColl n up low => withdrawColl W receive_outside sender n up low
  | WithdrawZUSD f n up low => withdrawZUSD W receive_outside sender f n up low
  | WithdrawZusdAndConvertToDLLR f n up low =>
      let$ _ := withdrawZusdAndConvertToDLLR W receive_outside sender f n up low in call_ret tt
  | RepayZUSD n up low => repayZUSD W receive_outside sender n up low
  | RepayZusdFromDLLR n up low => repayZusdFromDLLR W receive_outside sender n up low
  | AdjustTrove v f c n inc up low => adjustTrove W receive_outside sender v f c n inc up low
  | AdjustNueTrove v f c n inc up low => adjustNueTrove W receive_outside sender v f c n inc up low
  | CloseTrove => BorrowerOperations.closeTrove W receive_outside sender
  | CloseNueTrove => closeNueTrove W receive_outside sender
  | ClaimCollateral => claimCollateral receive_outside sender
  | ProvideToSP n tag => provideToSP W receive_outside sender n tag
  | ProvideToSpFromDLLR n => provideToSpFromDLLR W receive_outside sender n
  | WithdrawFromSP n => withdrawFromSP W receive_outside sender n
  | WithdrawFromSpAndConvertToDLLR n => withdrawFromSpAndConvertToDLLR W receive_outside sender n
  | WithdrawETHGainToTrove up low => withdrawETHGainToTrove W receive_outside sender up low
  | RegisterFrontEnd r => registerFrontEnd sender r
  | Liquidate b => liquidate W receive_outside sender b
  | LiquidateTroves n => liquidateTroves W receive_outside sender n
  | BatchLiquidateTroves l => batchLiquidateTroves W receive_outside sender l
  | RedeemCollateral n first up low h i f => redeemCollateral W receive_outside sender n first up low h i f
  | RedeemCollateralViaDLLR n first up low h i f => redeemCollateralViaDLLR W receive_outside sender n first up low h i f
  | Stake n => stake receive_outside sender n
  | Unstake n => ZEROStaking.unstake receive_outside sender n
  | ApproveZERO spender n => approveZERO sender spender n
  | TransferFromZERO owner recipient n => transferFromZERO sender owner recipient n
  | IncreaseAllowanceZERO spender n => increaseAllowanceZERO sender spender n
  | DecreaseAllowanceZERO spender n => decreaseAllowanceZERO sender spender n
  | PermitZERO recovered owner spender n deadline => permitZERO (now W) recovered owner spender n deadline
  | ReceiveZero account n => receiveZero (now W) account n
  | SetOwner contract owner => setOwner contract sender owner
  | SetMCR n => setMCR sender n
  | SetCCR n => setCCR sender n
  | SetPercentDivisor n => setPercentDivisor sender n
  | SetBorrowingFeeFloor n => setBorrowingFeeFloor sender n
  | SetRedemptionFeeFloor n => setRedemptionFeeFloor sender n
  | SetMaxBorrowingFee n => setMaxBorrowingFee sender n
  | SetFeeToFeeSharingCollector n => setFeeToFeeSharingCollector sender n
  | FetchPrice => let$ _ := fetchPrice W in call_ret tt
  | Act a => run_action a
  end.
End Dispatch.

(** A call made by [c_sender], and what it finds outside of the protocol. *)
Record Call : Type := mkCall { c_world : World; c_sender : address; c_operation : operation }.

Definition execute (receive_outside : address -> address -> Z -> call System unit) (c : Call) : call System unit :=
  from_outside (c_sender c)
    (if is_word (now (c_world c)) && forallb is_word (amounts (c_operation c))
     then dispatch (c_world c) receive_outside (c_sender c) (c_operation c)
     else pure_call (Throw TypeError)).

(** A call that reverts leaves the storage as it was. *)
Definition attempt (receive_outside : address -> address -> Z -> call System unit) (s : System) (c : Call) : System :=
  match execute receive_outside c s with Ok (_, s') => s' | Throw _ => s end.

(** The code of the accounts: the calls made when [to] is paid [value] by [from], or a
    refusal. *)
Definition Code : Type := address -> address -> Z -> System -> option (list Call).

(** Calls nest to a depth that the machine bounds. *)
Fixpoint paid (depth : nat) (code : Code) (from to : address) (value : Z) : call System unit := fun s =>
  match code from to value s with
  | None => Throw (Rejected "payment refused")
  | Some calls =>
      Ok (tt, match depth with
              | O => s
              | S d => fold_left (attempt (paid d code)) calls s
              end)
  end.

(** A transaction: the code of the accounts and the call. *)
Definition transact (depth : nat) (s : System) (tx : Code * Call) : System :=
  attempt (paid depth (fst tx)) s (snd tx).

Definition history (depth : nat) (txs : list (Code * Call)) (s : System) : System := fold_left (transact depth) txs s.

(** ** Deployment *)

Definition empty_manager (time : Z) : Manager := mkManager 0 time ∅ 0 0 0 0 0 ∅ [] 0 0.

(** The contracts once their addresses are set, before anybody uses them. *)
Definition genesis (w : Wiring) (p : Params) (maxSize share price time : Z) (c : Community) (o : gmap address address) (e : gmap address Z) (f : gmap string Z)
    : System :=
  mkSystem w p (empty_manager time) (mkPool 0 0) (mkPool 0 0)
    (mkSortedTroves address0 (borrowerOperations w) (troveManager w) (mkData address0 address0 maxSize 0 ∅))
    (mkToken 0 ∅ ∅ ∅) (mkSurplus 0 ∅) (empty_pool c) empty_staking (mkZeroToken ∅ ∅) o share price e f.

(** The contracts have addresses of their own, and no account has more ether than exists. *)
Definition deployed (w : Wiring) (p : Params) (share price time : Z) (e : gmap address Z) : bool :=
  bool_decide (NoDup (core w)) && bool_decide (address0 ∉ core w) && bool_decide (feeSharingCollector w ∉ core w)
  && bool_decide (massetManager w ∉ core w) && is_word (MCR p) && is_word (PERCENT_DIVISOR p) && is_word (BORROWING_FEE_FLOOR p) && is_word (MAX_BORROWING_FEE p)
  && is_word share && is_word price && is_word time
  && forallb (fun x => 0 <=? snd x) (map_to_list e)
  && (map_fold (fun _ n t => n + t) 0 e <? 2 ^ 128).
