(* ===== verification/Invariant.v ===== *)
(** * The books of the protocol

    What holds of the storage of all contracts between two operations: the pools
    hold what the Troves add up to, the default pool covers every pending reward in ether,
    the supply of ZUSD is the debt of the system, the array of owners and the sorted
    list name the active Troves, and every contract has the ether it recorded.  The
    slacks say how far the pools and the supply are behind in the middle of an
    operation. *)

From S2P Require Import Prelude Solidity Ledger SortedTroves SortedTrovesFacts ChainState ZUSDToken.
From S2P Require Import ActivePool DefaultPool CollSurplusPool Outside FeeDistributor TroveManager.
Import LiquityMath.
Local Open Scope Z_scope.

(** ** Sums *)

Definition colls (m : Manager) : Z := total (fun _ t => t_coll t) (Troves m).
Definition debts (m : Manager) : Z := total (fun _ t => t_debt t) (Troves m).
Definition stakes (m : Manager) : Z := total (fun _ t => t_stake t) (Troves m).

(** Rewards not yet applied, in units of [1 / DECIMAL_PRECISION]. *)
Definition eth_due (m : Manager) : Z :=
  total (fun a t => t_stake t * (L_ETH m - snapshot_ETH (snapshot m a))) (Troves m).

(** ** Parts *)

Definition outsider (w : Wiring) (a : address) : Prop := a ∉ core w.

Record wired (s : System) : Prop := {
  w_nodup : NoDup (core (wiring s));
  w_nonzero : address0 ∉ core (wiring s);
  w_collector : outsider (wiring s) (feeSharingCollector (wiring s));
  w_masset : outsider (wiring s) (massetManager (wiring s));
  w_bo : st_borrowerOperationsAddress (sorted s) = borrowerOperations (wiring s);
  w_tm : st_troveManager (sorted s) = troveManager (wiring s);
  w_share : is_uint (FEE_TO_FEE_SHARING_COLLECTOR s) }.

Record params_ok (p : Params) : Prop := {
  p_MCR : is_uint (MCR p);
  p_divisor : is_uint (PERCENT_DIVISOR p);
  p_floor : is_uint (BORROWING_FEE_FLOOR p);
  p_max : is_uint (MAX_BORROWING_FEE p) }.

(** The words of a Trove; a Trove that is not active is empty, an active one has
    collateral and the minimum debt. *)
Record trove_ok (m : Manager) (a : address) : Prop := {
  t_debt_uint : is_uint (t_debt (trove m a));
  t_coll_uint : is_uint (t_coll (trove m a));
  t_stake_uint : is_uint (t_stake (trove m a));
  t_snap_eth : 0 <= snapshot_ETH (snapshot m a) <= L_ETH m;
  t_snap_debt : 0 <= snapshot_ZUSDDebt (snapshot m a) <= L_ZUSDDebt m;
  t_closed : is_active m a = false -> t_coll (trove m a) = 0 /\ t_debt (trove m a) = 0 /\ t_stake (trove m a) = 0;
  t_backed : is_active m a = true ->
             0 < t_coll (trove m a) /\ MIN_NET_DEBT + ZUSD_GAS_COMPENSATION <= t_debt (trove m a) }.

Record manager_ok (m : Manager) : Prop := {
  m_troves : forall a, trove_ok m a;
  m_rate : is_uint (baseRate m);
  m_time : is_uint (lastFeeOperationTime m);
  m_L_ETH : is_uint (L_ETH m);
  m_L_debt : is_uint (L_ZUSDDebt m);
  m_stakes : totalStakes m = stakes m;
  m_stakes_uint : is_uint (totalStakes m);
  m_stakes_snap : is_uint (totalStakesSnapshot m);
  m_coll_snap : is_uint (totalCollateralSnapshot m);
  m_eth_error : is_uint (lastETHError_Redistribution m);
  m_debt_error : is_uint (lastZUSDDebtError_Redistribution m) }.

Record token_ok (t : Token) : Prop := {
  k_supply : is_uint (_totalSupply t);
  k_balance : forall a, 0 <= balance t a;
  k_total : total (fun _ n => n) (_balances t) = _totalSupply t;
  k_allowance : forall a b, is_uint (allowance t a b) }.

Record pools_ok (dc dd ds : Z) (s : System) : Prop := {
  b_active_ETH : is_uint (pool_ETH (active_pool s));
  b_active_debt : is_uint (pool_ZUSDDebt (active_pool s));
  b_default_ETH : is_uint (pool_ETH (default_pool s));
  b_default_debt : is_uint (pool_ZUSDDebt (default_pool s));
  b_colls : colls (manager s) = pool_ETH (active_pool s) + dc;
  b_debts : debts (manager s) = pool_ZUSDDebt (active_pool s) + dd;
  b_eth_due : eth_due (manager s) + lastETHError_Redistribution (manager s)
              <= DECIMAL_PRECISION * pool_ETH (default_pool s);
  b_supply : _totalSupply (zusd s)
             = pool_ZUSDDebt (active_pool s) + pool_ZUSDDebt (default_pool s) + ds }.

Record surplus_ok (p : Surplus) : Prop := {
  u_ETH : is_uint (surplus_ETH p);
  u_entry : forall a, 0 <= default 0 (surplus_balances p !! a);
  u_total : total (fun _ n => n) (surplus_balances p) = surplus_ETH p }.

Record stability_ok (p : Stability) : Prop := {
  y_ETH : is_uint (sp_ETH p);
  y_total : is_uint (totalZUSDDeposits p) }.

(** The active Troves, by the array and by the list. *)
Record listed (s : System) : Prop := {
  o_nodup : NoDup (TroveOwners (manager s));
  o_index : forall i a, TroveOwners (manager s) !! i = Some a -> t_arrayIndex (trove (manager s) a) = Z.of_nat i;
  o_active : forall a, a ∈ TroveOwners (manager s) <-> is_active (manager s) a = true;
  o_list : exists l, rep (data (sorted s)) l /\ l ≡ₚ TroveOwners (manager s);
  o_size : is_uint (size (data (sorted s))) }.

(** All ether there is fits in 128 bits: 21 million bitcoin are about [2 ^ 84] wei. *)
Record funded (s : System) : Prop := {
  f_nonneg : forall a, 0 <= ether_of s a;
  f_total : total (fun _ n => n) (ether s) < 2 ^ 128;
  f_active : pool_ETH (active_pool s) <= ether_of s (activePool (wiring s));
  f_default : pool_ETH (default_pool s) <= ether_of s (defaultPool (wiring s));
  f_surplus : surplus_ETH (surplus s) <= ether_of s (collSurplusPool (wiring s));
  f_stability : sp_ETH (stability s) <= ether_of s (stabilityPool (wiring s)) }.

(** Collateral, debt and supply are [dc], [dd] and [ds] ahead of the active pool. *)
Record books (dc dd ds : Z) (s : System) : Prop := {
  i_wired : wired s;
  i_params : params_ok (params s);
  i_price : is_uint (lastGoodPrice s);
  i_manager : manager_ok (manager s);
  i_token : token_ok (zusd s);
  i_pools : pools_ok dc dd ds s;
  i_surplus : surplus_ok (surplus s);
  i_stability : stability_ok (stability s);
  i_listed : listed s;
  i_funded : funded s }.

Definition inv (s : System) : Prop := books 0 0 0 s.


