(* ===== verification/InvariantFacts.v ===== *)
(** * How single calls change the books *)

From S2P Require Import Prelude Solidity Ledger SortedTroves SortedTrovesFacts ChainState ZUSDToken.
From S2P Require Import ActivePool DefaultPool CollSurplusPool Outside FeeDistributor TroveManager Invariant.
Import LiquityMath.
Local Open Scope Z_scope.

(** ** The token *)

Lemma sol_assert_Ok b u : sol_assert b = Ok u -> b = true.
Proof. unfold sol_assert. by destruct b. Qed.

Lemma require_Ok b msg u : require b msg = Ok u -> b = true.
Proof. unfold require. by destruct b. Qed.

Lemma word_Ok n k : word n = Ok k -> k = n /\ is_uint n.
Proof.
  unfold word, is_uint. destruct (Z.leb_spec 0 n), (Z.ltb_spec n UINT256); cbn; try done. intros [= ->]. lia.
Qed.

(** Decompose a successful computation. *)
Ltac inv_result :=
  repeat match goal with
  | H : bind _ _ = Ok _ |- _ =>
      let a := fresh "r" in let E := fresh "E" in apply bind_Ok_inv in H as (a & E & H)
  | H : Ok _ = Ok _ |- _ => injection H as H; try subst
  | H : require ?b _ = Ok _ |- _ => unfold require in H; destruct b eqn:?; [clear H|discriminate H]
  | H : sol_assert _ = Ok _ |- _ => apply sol_assert_Ok in H
  end.

(** Read a component of an updated storage. *)
Ltac read_storage :=
  cbn [wiring params manager active_pool default_pool sorted zusd surplus stability staking zero contract_owners
       FEE_TO_FEE_SHARING_COLLECTOR lastGoodPrice ether foreign with_manager with_active with_default with_sorted
       with_zusd with_surplus with_stability with_staking with_zero with_owners with_share with_params with_price with_ether with_foreign
       pool_ETH pool_ZUSDDebt ActivePool.set_ETH ActivePool.set_debt DefaultPool.set_ETH DefaultPool.set_debt
       t_debt t_coll t_stake t_status t_arrayIndex set_stake set_coll set_debt_ set_status set_index
       snapshot_ETH snapshot_ZUSDDebt fst snd] in *.

Create HintDb uint.
#[export] Hint Resolve b_active_ETH b_active_debt b_default_ETH b_default_debt i_pools i_manager i_token : uint.
#[export] Hint Resolve y_ETH y_total i_stability : uint.
#[export] Hint Resolve m_troves t_debt_uint t_coll_uint t_stake_uint k_supply u_ETH i_surplus : uint.
#[export] Hint Resolve m_rate m_time m_L_ETH m_L_debt m_stakes_uint m_stakes_snap m_coll_snap m_eth_error m_debt_error : uint.

Lemma precision_uint : is_uint DECIMAL_PRECISION.
Proof. word_literal. Qed.
Lemma compensation_uint : is_uint ZUSD_GAS_COMPENSATION.
Proof. word_literal. Qed.
Lemma zero_uint : is_uint 0.
Proof. word_literal. Qed.
Lemma one_uint : is_uint 1.
Proof. word_literal. Qed.
#[export] Hint Resolve precision_uint compensation_uint zero_uint one_uint : uint.

Ltac uint := read_storage; first [assumption | solve [eauto with uint]].

(** Replace the results of checked arithmetic by their values. *)
Ltac safe_math :=
  repeat match goal with
  | H : SafeMath.add ?a ?b = Ok ?c |- _ =>
      let E := fresh "E" in let U := fresh "U" in
      destruct (add_Ok a b c) as [E U]; [solve [uint]|solve [uint]|exact H|]; clear H; try subst c
  | H : SafeMath.sub ?a ?b = Ok ?c |- _ =>
      let E := fresh "E" in let L := fresh "L" in let U := fresh "U" in
      destruct (sub_Ok a b c) as (E & L & U); [solve [uint]|solve [uint]|exact H|]; clear H; try subst c
  | H : SafeMath.mul ?a ?b = Ok ?c |- _ =>
      let E := fresh "E" in let U := fresh "U" in
      destruct (mul_Ok a b c) as [E U]; [solve [uint]|solve [uint]|exact H|]; clear H; try subst c
  | H : SafeMath.div ?a ?b = Ok ?c |- _ =>
      let E := fresh "E" in let L := fresh "L" in let U := fresh "U" in
      destruct (div_Ok a b c) as (E & L & U); [solve [uint]|exact H|]; clear H; try subst c
  end.

Section Token.
Context (t : Token) (K : token_ok t).

Lemma balance_uint a : is_uint (balance t a).
Proof.
  pose proof (k_supply _ K) as S. pose proof (k_balance _ K a) as B. unfold is_uint in *. split; [done|].
  unfold balance in *. destruct (_balances t !! a) as [n|] eqn:E; cbn in *; [|lia].
  pose proof (total_elem (fun _ n => n) (_balances t) a n) as H. rewrite (k_total _ K) in H.
  apply Z.le_lt_trans with (_totalSupply t); [|lia]. apply H; [|done]. intros b y Hb.
  pose proof (k_balance _ K b) as Bb. unfold balance in Bb. by rewrite Hb in Bb.
Qed.

Lemma balance_set a n b : balance (set_balance t a n) b = if decide (b = a) then n else balance t b.
Proof.
  unfold balance, set_balance. cbn. case_decide as E; [subst; by rewrite lookup_insert_eq|].
  by rewrite lookup_insert_ne.
Qed.

Lemma supply_set a n : _totalSupply (set_balance t a n) = _totalSupply t.
Proof. done. Qed.

Lemma total_set a n : total (fun _ n => n) (_balances (set_balance t a n)) =
  total (fun _ n => n) (_balances t) - balance t a + n.
Proof. unfold set_balance, balance. cbn. by rewrite (total_insert _ _ _ _ 0). Qed.
End Token.

Lemma transfer_token t sender recipient amount t' : token_ok t -> is_uint amount ->
  _transfer t sender recipient amount = Ok t' ->
  token_ok t' /\ _totalSupply t' = _totalSupply t.
Proof.
  intros K A H. unfold _transfer in H. inv_result.
  destruct (sub_Ok _ _ _ (balance_uint t K sender) A E1) as (-> & L & U).
  assert (is_uint (balance (set_balance t sender (balance t sender - amount)) recipient)) as U'.
  { rewrite balance_set. case_decide; [done|by apply balance_uint]. }
  destruct (add_Ok _ _ _ U' A E2) as (-> & U2). split; [|done]. split; cbn -[total set_balance].
  - apply K.
  - intros a. rewrite !balance_set. pose proof (k_balance _ K a). pose proof (k_balance _ K recipient).
    unfold is_uint in *. repeat case_decide; lia.
  - rewrite !total_set, (k_total _ K), !supply_set. lia.
  - apply K.
Qed.

(** What a transfer moves. *)
Lemma transfer_balances t sender recipient amount t' : token_ok t -> is_uint amount -> _transfer t sender recipient amount = Ok t' ->
  amount <= balance t sender /\ _allowances t' = _allowances t /\
  forall a, balance t' a = balance t a - (if decide (a = sender) then amount else 0) + (if decide (a = recipient) then amount else 0).
Proof.
  intros K A H. unfold _transfer in H. inv_result.
  destruct (sub_Ok _ _ _ (balance_uint t K sender) A E1) as (-> & L & U).
  assert (is_uint (balance (set_balance t sender (balance t sender - amount)) recipient)) as U'.
  { rewrite balance_set. case_decide; [done|by apply balance_uint]. }
  destruct (add_Ok _ _ _ U' A E2) as (-> & _). split_and!; try done.
  intros a. rewrite !balance_set. repeat case_decide; subst; lia || done.
Qed.

Lemma mint_token t account amount t' : token_ok t -> is_uint amount -> _mint t account amount = Ok t' ->
  token_ok t' /\ _totalSupply t' = _totalSupply t + amount.
Proof.
  intros K A H. unfold _mint in H. inv_result.
  destruct (add_Ok _ _ _ (k_supply _ K) A E0) as (-> & U).
  destruct (add_Ok _ _ _ (balance_uint t K account) A E1) as (-> & U2).
  split; [|done]. split; cbn -[total set_balance]; [done| | |apply K].
  - intros a. rewrite balance_set. case_decide; [unfold is_uint in *; lia|apply K].
  - rewrite total_set. cbn. rewrite (k_total _ K). unfold set_supply, balance. cbn. lia.
Qed.

Lemma burn_token t account amount t' : token_ok t -> is_uint amount -> _burn t account amount = Ok t' ->
  token_ok t' /\ _totalSupply t' = _totalSupply t - amount /\ amount <= _totalSupply t.
Proof.
  intros K A H. unfold _burn in H. inv_result.
  destruct (sub_Ok _ _ _ (balance_uint t K account) A E0) as (-> & L & U).
  destruct (sub_Ok _ _ _ (k_supply _ K) A E1) as (-> & L2 & U2).
  split; [|done]. split; cbn -[total set_balance]; [done| | |apply K].
  - intros a. change (balance (set_supply ?x _) a) with (balance x a). rewrite balance_set.
    case_decide; [unfold is_uint in *; lia|apply K].
  - rewrite total_set, (k_total _ K). lia.
Qed.

Lemma burn_balances t account amount t' : token_ok t -> is_uint amount -> _burn t account amount = Ok t' ->
  forall a, balance t' a = balance t a - (if decide (a = account) then amount else 0).
Proof.
  intros K A H a. unfold _burn in H. inv_result. destruct (sub_Ok _ _ _ (balance_uint t K account) A E0) as (-> & _ & _).
  change (balance (set_supply ?x _) a) with (balance x a). rewrite balance_set. case_decide; subst; lia.
Qed.

Lemma approve_token t owner spender amount t' : token_ok t -> is_uint amount -> _approve t owner spender amount = Ok t' ->
  token_ok t' /\ _totalSupply t' = _totalSupply t.
Proof.
  intros K A H. unfold _approve in H. inv_result. split; [|done]. split; cbn; try apply K.
  intros a b. unfold allowance. cbn. destruct (decide ((owner, spender) = (a, b))) as [<-|N].
  - by rewrite lookup_insert_eq.
  - rewrite lookup_insert_ne by done. apply K.
Qed.

(** ** Ether *)

Lemma ether_with s e a : ether_of (with_ether s e) a = default 0 (e !! a).
Proof. done. Qed.

Lemma default_insert (e : gmap address Z) a n b :
  default 0 (<[a := n]> e !! b) = if decide (b = a) then n else default 0 (e !! b).
Proof. case_decide as E; [subst; by rewrite lookup_insert_eq|by rewrite lookup_insert_ne]. Qed.

Lemma pay_Ok from to v s u s' : pay from to v s = Ok (u, s') ->
  v <= ether_of s from /\ exists e, s' = with_ether s e /\
  total (fun _ n => n) e = total (fun _ n => n) (ether s) /\
  forall a, default 0 (e !! a)
            = ether_of s a - (if decide (a = from) then v else 0) + (if decide (a = to) then v else 0).
Proof.
  unfold pay. destruct (Z.ltb_spec (ether_of s from) v) as [L|L]; [done|]. intros [= _ <-]. split; [lia|].
  eexists. split; [done|]. split.
  - rewrite !(total_insert _ _ _ _ 0) by done. change (default 0 (ether s !! from)) with (ether_of s from).
    rewrite !ether_with, !default_insert. unfold ether_of. case_decide; lia.
  - intros a. rewrite !ether_with, !default_insert. change (default 0 (ether s !! ?b)) with (ether_of s b).
    repeat case_decide; subst; lia || done.
Qed.

(** ** Calls that leave Troves, pools and list alone *)

Record frame (s s' : System) : Prop := {
  fr_wiring : wiring s' = wiring s;
  fr_params : params s' = params s;
  fr_manager : exists r t, manager s' = set_rate (manager s) r t;
  fr_active : active_pool s' = active_pool s;
  fr_default : default_pool s' = default_pool s;
  fr_sorted : sorted s' = sorted s;
  fr_surplus : surplus s' = surplus s;
  fr_stability : stability s' = stability s;
  fr_share : FEE_TO_FEE_SHARING_COLLECTOR s' = FEE_TO_FEE_SHARING_COLLECTOR s }.

Lemma set_rate_id m : m = set_rate m (baseRate m) (lastFeeOperationTime m).
Proof. by destruct m. Qed.

#[export] Instance frame_preorder : PreOrder frame.
Proof.
  split.
  - intros s. split; try done. eexists _, _. apply set_rate_id.
  - intros s1 s2 s3 H1 H2. destruct H1 as [? ? (r & t & H1) ? ? ? ? ? ?], H2 as [? ? (r' & t' & H2) ? ? ? ? ? ?].
    split; try congruence. exists r', t'. by rewrite H2, H1.
Qed.

(** The accounts whose ether a contract records. *)
Definition pools (w : Wiring) : list address := [activePool w; defaultPool w; collSurplusPool w; stabilityPool w].

Lemma books_quiet dc dd ds d s s' :
  books dc dd ds s -> frame s s' -> is_uint (lastGoodPrice s') -> is_uint (baseRate (manager s')) -> is_uint (lastFeeOperationTime (manager s')) ->
  token_ok (zusd s') -> _totalSupply (zusd s') = _totalSupply (zusd s) + d ->
  (forall a, 0 <= ether_of s' a) -> total (fun _ n => n) (ether s') = total (fun _ n => n) (ether s) ->
  (forall a, a ∈ pools (wiring s) -> ether_of s a <= ether_of s' a) ->
  books dc dd (ds + d) s'.
Proof.
  intros B F Hp Hr Ht K S E0 E1 E2. destruct F as [Fw Fp (r & t & Fm) Fa Fd Fs Fu Fb Fh].
  assert (forall a, a ∈ pools (wiring s) -> ether_of s a <= ether_of s' a) as E3 by done.
  unfold pools in E3. destruct B as [Bw Bp Bg Bm Bk Bb Bs By Bl Bf].
  split; rewrite ?Fp, ?Fu, ?Fb; try done.
  - destruct Bw. split; by rewrite ?Fw, ?Fs, ?Fh.
  - rewrite Fm in *. destruct Bm as [M ?]. split; try done. intros a. by destruct (M a).
  - destruct Bb as [? ? ? ? ? ? ? Bsup]. split; rewrite ?Fa, ?Fd, ?Fm; try done. rewrite S, Bsup. lia.
  - destruct Bl. split; by rewrite ?Fm, ?Fs.
  - destruct Bf. split; rewrite ?Fw, ?Fa, ?Fd, ?Fu, ?Fb, ?E1; try done;
      (etrans; [eassumption|]; apply E3; rewrite !elem_of_cons; tauto).
Qed.

Definition quietly {A} (d : A -> Z) (m : call System A) : Prop :=
  forall dc dd ds s r s', books dc dd ds s -> m s = Ok (r, s') -> books dc dd (ds + d r) s' /\ frame s s'.

Lemma quietly_bind {A B} (d : A -> Z) (e : B -> Z) (m : call System A) (f : A -> call System B) k :
  quietly d m -> (forall a, quietly e (f a)) -> (forall a b, d a + e b = k b) -> quietly k (call_bind m f).
Proof.
  intros M F E dc dd ds s r s' Hb H. apply call_bind_Ok in H as (a & s1 & H1 & H2).
  destruct (M _ _ _ _ _ _ Hb H1) as [B1 F1]. destruct (F a _ _ _ _ _ _ B1 H2) as [B2 F2].
  split; [|by transitivity s1]. by rewrite <- (E a r), Z.add_assoc.
Qed.

Lemma quietly_bind0 {A B} (m : call System A) (f : A -> call System B) k :
  quietly (fun _ => 0) m -> (forall a, quietly k (f a)) -> quietly k (call_bind m f).
Proof. intros M F. by apply (quietly_bind (fun _ => 0) k). Qed.

Lemma quietly_view {A} (f : System -> result A) : quietly (fun _ => 0) (view_call f).
Proof.
  intros dc dd ds s r s' B H. apply view_call_Ok in H as [_ ->]. rewrite Z.add_0_r. by split.
Qed.

Lemma quietly_pure {A} (x : result A) : quietly (fun _ => 0) (pure_call x).
Proof.
  intros dc dd ds s r s' B H. apply pure_call_Ok in H as [_ ->]. rewrite Z.add_0_r. by split.
Qed.

Lemma quietly_ret {A} (x : A) : quietly (fun _ => 0) (call_ret x).
Proof. intros dc dd ds s r s' B [= _ <-]. rewrite Z.add_0_r. by split. Qed.

Lemma frame_zusd s t : frame s (with_zusd s t).
Proof. split; try done. eexists _, _. apply set_rate_id. Qed.

Lemma frame_ether s e : frame s (with_ether s e).
Proof. split; try done. eexists _, _. apply set_rate_id. Qed.

Lemma books_zusd dc dd ds d s t : books dc dd ds s -> token_ok t -> _totalSupply t = _totalSupply (zusd s) + d ->
  books dc dd (ds + d) (with_zusd s t).
Proof.
  intros B K S. apply (books_quiet _ _ _ _ s); try done; [apply frame_zusd|apply B..].
Qed.

Lemma quietly_token g msg f d :
  (forall t t', token_ok t -> f t = Ok t' -> token_ok t' /\ _totalSupply t' = _totalSupply t + d) ->
  quietly (fun _ => d) (token_call g msg f).
Proof.
  intros Hf dc dd ds s r s' B H. unfold token_call in H. inv_result.
  destruct (Hf _ _ (i_token _ _ _ _ B) E0) as [K S]. split; [by apply books_zusd|apply frame_zusd].
Qed.

Lemma pay_books dc dd ds from to v s u s' : books dc dd ds s -> pay from to v s = Ok (u, s') -> 0 <= v ->
  from ∉ pools (wiring s) -> books dc dd ds s' /\ frame s s'.
Proof.
  intros B H V N. apply pay_Ok in H as (L & e & -> & T & E). pose proof (i_funded _ _ _ _ B) as F.
  split; [|apply frame_ether]. rewrite <- (Z.add_0_r ds).
  apply (books_quiet _ _ _ _ s); try done; try apply B; [apply frame_ether|cbn; lia| |].
  - intros a. rewrite ether_with, E. pose proof (f_nonneg _ F a). repeat case_decide; subst; lia || done.
  - intros a Ha. rewrite ether_with, E. repeat case_decide; subst; try lia; done.
Qed.

(** ** Addresses *)

Lemma same_refl a : same a a = true.
Proof. by apply bool_decide_eq_true. Qed.

Lemma core_diff w i j a b : NoDup (core w) -> core w !! i = Some a -> core w !! j = Some b -> i <> j ->
  same a b = false.
Proof.
  intros N Ha Hb Hij. apply bool_decide_eq_false. intros ->. apply Hij. by apply (NoDup_lookup (core w) i j b).
Qed.

Ltac core_index f :=
  lazymatch f with
  | borrowerOperations => constr:(0%nat) | troveManager => constr:(1%nat) | stabilityPool => constr:(2%nat)
  | activePool => constr:(3%nat) | defaultPool => constr:(4%nat) | sortedTroves => constr:(5%nat)
  | collSurplusPool => constr:(6%nat) | gasPool => constr:(7%nat) | feeDistributor => constr:(8%nat)
  | zusdToken => constr:(9%nat) | zeroStaking => constr:(10%nat)
  end.

(** Decide the comparisons of contract addresses in the goal. *)
Ltac decide_core N :=
  repeat match goal with
  | |- context [same ?a ?a] => rewrite (same_refl a)
  | |- context [same (?f ?w) (?g ?w)] =>
      let i := core_index f in let j := core_index g in
      rewrite (core_diff w i j (f w) (g w)) by (exact N || done)
  end; cbn [orb andb negb].

Lemma same_false a b : same a b = false -> a <> b.
Proof. intros H E. by apply bool_decide_eq_false in H. Qed.

Lemma distributor_outside w : NoDup (core w) -> feeDistributor w ∉ pools w.
Proof.
  intros N. unfold pools. rewrite !not_elem_of_cons.
  split_and!; [apply same_false; by decide_core N..|apply not_elem_of_nil].
Qed.

Lemma pools_core w a : a ∈ pools w -> a ∈ core w.
Proof. unfold pools, core. rewrite !elem_of_cons. tauto. Qed.

Lemma is_core_false s a : is_core s a = false -> a ∉ pools (wiring s).
Proof. intros H%bool_decide_eq_false P. by apply H, pools_core. Qed.

(** ** Contracts outside of the protocol *)

Lemma quietly_from_outside a m : quietly (fun _ => 0) m -> quietly (fun _ => 0) (from_outside a m).
Proof. intros M dc dd ds s r s' B H. unfold from_outside in H. destruct (is_core s a); [done|]. exact (M _ _ _ _ _ _ B H). Qed.

Lemma quietly_word n (f : Z -> call System unit) : (is_uint n -> quietly (fun _ => 0) (f n)) ->
  quietly (fun _ => 0) (let$ k := pure_call (word n) in f k).
Proof.
  intros M dc dd ds s r s' B H. apply call_bind_Ok in H as (k & s1 & H1 & H2).
  apply pure_call_Ok in H1 as [H1 ->]. apply word_Ok in H1 as [-> U]. exact (M U _ _ _ _ _ _ B H2).
Qed.

Lemma quietly_transfer sender recipient n : is_uint n -> quietly (fun _ => 0) (token_transfer sender recipient n).
Proof.
  intros U. apply quietly_token. intros t t' K H. rewrite Z.add_0_r. by apply (transfer_token t sender recipient n).
Qed.

Lemma quietly_approve owner spender n : is_uint n -> quietly (fun _ => 0) (approve owner spender n).
Proof.
  intros U. apply quietly_token. intros t t' K H. rewrite Z.add_0_r. by apply (approve_token t owner spender n).
Qed.

Lemma quietly_transferFrom spender sender recipient n : is_uint n ->
  quietly (fun _ => 0) (transferFrom spender sender recipient n).
Proof.
  intros U. apply quietly_token. intros t t' K H. rewrite Z.add_0_r. inv_result.
  destruct (transfer_token _ _ _ _ _ K U E) as [K1 S1].
  destruct (sub_Ok _ _ _ (k_allowance _ K1 sender spender) U E0) as (-> & _ & U1).
  destruct (approve_token _ _ _ _ _ K1 U1 H) as [K2 S2]. split; [done|congruence].
Qed.

Lemma quietly_increaseAllowance owner spender n : is_uint n -> quietly (fun _ => 0) (increaseAllowance owner spender n).
Proof.
  intros U. apply quietly_token. intros t t' K H. rewrite Z.add_0_r. inv_result.
  destruct (add_Ok _ _ _ (k_allowance _ K owner spender) U E) as [-> U1]. exact (approve_token _ _ _ _ _ K U1 H).
Qed.

Lemma quietly_decreaseAllowance owner spender n : is_uint n -> quietly (fun _ => 0) (decreaseAllowance owner spender n).
Proof.
  intros U. apply quietly_token. intros t t' K H. rewrite Z.add_0_r. inv_result.
  destruct (sub_Ok _ _ _ (k_allowance _ K owner spender) U E) as (-> & _ & U1). exact (approve_token _ _ _ _ _ K U1 H).
Qed.

Lemma quietly_permit time recovered owner spender n deadline : is_uint n ->
  quietly (fun _ => 0) (permit time recovered owner spender n deadline).
Proof.
  intros U. apply quietly_token. intros t t' K H. rewrite Z.add_0_r. cbv zeta in H. inv_result.
  match type of H with _approve ?t1 _ _ _ = _ => assert (token_ok t1) as K1 by (destruct K; split; done) end.
  exact (approve_token _ _ _ _ _ K1 U H).
Qed.

Lemma quietly_action a : quietly (fun _ => 0) (run_action a).
Proof.
  destruct a; cbn [run_action].
  1-5: apply quietly_from_outside, quietly_word;
    auto using quietly_transfer, quietly_approve, quietly_transferFrom, quietly_increaseAllowance, quietly_decreaseAllowance.
  - apply quietly_from_outside, quietly_word, quietly_permit.
  - intros dc dd ds s r s' B H. unfold from_outside in H. destruct (is_core s from) eqn:C; [done|].
    inv_call. apply word_Ok in Hc as [-> U]. rewrite Z.add_0_r. unfold is_uint in U.
    apply (pay_books _ _ _ from to value s r); [done|done|lia|by apply is_core_false].
  - intros dc dd ds s r s' B H. apply update_call_Ok in H as ->. split; [|split; try done; eexists _, _; apply set_rate_id].
    apply (books_quiet _ _ _ _ s); try done; try apply B; [split; try done; eexists _, _; apply set_rate_id|cbn; lia].
Qed.

Lemma quietly_actions l : quietly (fun _ => 0) (run_actions l).
Proof.
  induction l as [|a l IH]; cbn [run_actions]; [apply quietly_ret|].
  apply quietly_bind0; [apply quietly_action|done].
Qed.

Lemma quietly_outside f : quietly (fun _ => 0) (outside_call f).
Proof. apply quietly_bind0; [apply quietly_view|]. intros. apply quietly_actions. Qed.

Lemma quietly_answer f : quietly (fun _ => 0) (outside_answer f).
Proof.
  apply quietly_bind0; [apply quietly_view|]. intros. apply quietly_bind0; [apply quietly_actions|].
  intros. apply quietly_pure.
Qed.

(** ** Prices and fees *)

Lemma frame_other s s' : wiring s' = wiring s -> params s' = params s -> manager s' = manager s ->
  active_pool s' = active_pool s -> default_pool s' = default_pool s -> sorted s' = sorted s ->
  surplus s' = surplus s -> stability s' = stability s ->
  FEE_TO_FEE_SHARING_COLLECTOR s' = FEE_TO_FEE_SHARING_COLLECTOR s -> frame s s'.
Proof. intros ? ? Hm. split; try done. rewrite Hm. eexists _, _. apply set_rate_id. Qed.

Lemma store_books dc dd ds s p : books dc dd ds s -> is_uint p ->
  books dc dd ds (with_price s p) /\ frame s (with_price s p).
Proof.
  intros B U. assert (frame s (with_price s p)) by by apply frame_other. split; [|done]. rewrite <- (Z.add_0_r ds).
  apply (books_quiet _ _ _ _ s); try done; try apply B. cbn. lia.
Qed.

Lemma fetchPrice_books W dc dd ds s p s' : books dc dd ds s -> fetchPrice W s = Ok (p, s') ->
  is_uint p /\ books dc dd ds s' /\ frame s s'.
Proof.
  intros B H. unfold fetchPrice, answer, _storePrice in H. inv_call. inv_result.
  destruct (word_Ok _ _ E0) as [-> U]. cbn [fst snd] in H. destruct (snd r).
  { inv_call. split; [done|by apply store_books]. }
  inv_call. inv_result. destruct (word_Ok _ _ E2) as [-> U1]. cbn [fst snd] in H. destruct (snd r0).
  { inv_call. split; [done|by apply store_books]. }
  inv_call. inv_result. split; [apply B|by split].
Qed.

Lemma staking_books dc dd ds s r : books dc dd ds s ->
  books dc dd (ds + 0) (with_staking s r) /\ frame s (with_staking s r).
Proof.
  intros B. assert (frame s (with_staking s r)) by by apply frame_other. split; [|done].
  apply (books_quiet _ _ _ _ s); try done; try apply B. cbn. lia.
Qed.

Lemma quietly_increaseF_ZUSD sender fee : quietly (fun _ => 0) (increaseF_ZUSD sender fee).
Proof. intros dc dd ds s r s' B H. unfold increaseF_ZUSD in H. inv_result. by apply staking_books. Qed.

Lemma quietly_increaseF_ETH sender fee : quietly (fun _ => 0) (increaseF_ETH sender fee).
Proof. intros dc dd ds s r s' B H. unfold increaseF_ETH in H. inv_result. by apply staking_books. Qed.

Lemma share_uint dc dd ds s n fee : books dc dd ds s -> is_uint n -> collector_share s n = Ok fee -> is_uint fee.
Proof.
  intros B U H. unfold collector_share in H. inv_result.
  destruct (mul_Ok _ _ _ U (w_share _ (i_wired _ _ _ _ B)) E) as [-> U1].
  by destruct (div_Ok _ _ _ U1 H) as (-> & _ & U2).
Qed.

Section Fees.
Context (W : World) (recv : address -> address -> Z -> call System unit).

Lemma distributeZUSD_books dc dd ds s n u s' : books dc dd ds s -> is_uint n ->
  _distributeZUSD W n s = Ok (u, s') -> books dc dd ds s' /\ frame s s'.
Proof.
  intros B U H. unfold _distributeZUSD in H. inv_call. pose proof (share_uint _ _ _ _ _ _ B U Hc) as Uf.
  destruct (quietly_approve _ _ _ Uf _ _ _ _ _ _ B Hc0) as [B1 F1].
  destruct (quietly_outside _ _ _ _ _ _ _ B1 Hc1) as [B2 F2].
  destruct (sub_Ok _ _ _ U Uf Hc2) as (-> & _ & Ur). rewrite !Z.add_0_r in *.
  destruct (negb _).
  - inv_call. destruct (quietly_transfer _ _ _ Ur _ _ _ _ _ _ B2 Hc3) as [B3 F3].
    destruct (quietly_increaseF_ZUSD _ _ _ _ _ _ _ _ B3 H) as [B4 F4]. rewrite !Z.add_0_r in *.
    split; [done|]. by repeat (etrans; [eassumption|]).
  - inv_call. split; [done|]. by repeat (etrans; [eassumption|]).
Qed.

(** Paying the stakers runs no code but the check of the payer. *)
Lemma pay_stakers dc dd ds s v u s' : books dc dd ds s -> 0 <= v ->
  transfer recv (feeDistributor (wiring s)) (zeroStaking (wiring s)) v s = Ok (u, s') ->
  books dc dd ds s' /\ frame s s'.
Proof.
  intros B V H. unfold transfer in H. apply call_bind_Ok in H as (u1 & s1 & H1 & H2).
  pose proof (w_nodup _ (i_wired _ _ _ _ B)) as N.
  destruct (pay_books _ _ _ _ _ _ _ _ _ B H1 V (distributor_outside _ N)) as [B1 F1].
  assert (is_core s1 (zeroStaking (wiring s)) = true) as C.
  { apply bool_decide_eq_true. rewrite (fr_wiring _ _ F1). unfold core. rewrite !elem_of_cons. tauto. }
  rewrite C in H2. unfold receive_core in H2. rewrite (fr_wiring _ _ F1) in H2.
  rewrite (core_diff (wiring s) 10 3), (core_diff (wiring s) 10 4), (core_diff (wiring s) 10 6),
    (core_diff (wiring s) 10 2), (core_diff (wiring s) 10 8), !same_refl in H2 by done.
  inv_result. by split.
Qed.

Lemma or_revert_Ok msg m (s : System) r s' : or_revert msg m s = Ok (r, s') -> m s = Ok (r, s').
Proof. unfold or_revert. destruct (m s) as [[u s1]|]; [by intros [= -> ->]|done]. Qed.

Lemma distributeRBTC_books dc dd ds s n u s' : books dc dd ds s -> is_uint n ->
  _distributeRBTC W recv n s = Ok (u, s') -> books dc dd ds s' /\ frame s s'.
Proof.
  intros B U H. unfold _distributeRBTC in H. inv_call. pose proof (share_uint _ _ _ _ _ _ B U Hc) as Uf.
  pose proof (distributor_outside _ (w_nodup _ (i_wired _ _ _ _ B))) as Np.
  assert (0 <= a) by (unfold is_uint in Uf; lia).
  destruct (pay_books _ _ _ _ _ _ _ _ _ B Hc0 ltac:(done) Np) as [B1 F1].
  destruct (quietly_outside _ _ _ _ _ _ _ B1 Hc1) as [B2 F2].
  destruct (sub_Ok _ _ _ U Uf Hc2) as (-> & _ & Ur). rewrite !Z.add_0_r in *.
  destruct (negb _).
  - inv_call. apply or_revert_Ok in Hc3.
    match type of F2 with frame _ ?t => assert (wiring t = wiring s) as Ew by (rewrite (fr_wiring _ _ F2); apply F1) end. rewrite <- Ew in Hc3.
    destruct (pay_stakers _ _ _ _ _ _ _ B2 (proj1 Ur) Hc3) as [B3 F3].
    destruct (quietly_increaseF_ETH _ _ _ _ _ _ _ _ B3 H) as [B4 F4]. rewrite !Z.add_0_r in *.
    split; [done|]. by repeat (etrans; [eassumption|]).
  - inv_call. split; [done|]. by repeat (etrans; [eassumption|]).
Qed.

Lemma ether_uint dc dd ds s a : books dc dd ds s -> is_uint (ether_of s a).
Proof.
  intros B. pose proof (i_funded _ _ _ _ B) as F. pose proof (f_nonneg _ F a) as P. split; [done|].
  pose proof (f_total _ F) as T. pose proof UINT256_big as G.
  apply Z.le_lt_trans with (total (fun _ n => n) (ether s)); [|lia].
  unfold ether_of in *. destruct (ether s !! a) as [n|] eqn:E; cbn in *.
  - apply (total_elem (fun _ n => n) (ether s) a n); [|done]. intros b y Hb.
    pose proof (f_nonneg _ F b) as Pb. unfold ether_of in Pb. by rewrite Hb in Pb.
  - apply total_nonneg. intros b y Hb. pose proof (f_nonneg _ F b) as Pb. unfold ether_of in Pb. by rewrite Hb in Pb.
Qed.

Lemma quietly_distribute sender : quietly (fun _ => 0) (distributeFees W recv sender).
Proof.
  intros dc dd ds s r s' B H. rewrite Z.add_0_r. unfold distributeFees in H. inv_result.
  apply call_bind_Ok in H as (u & s1 & H1 & H2).
  assert (books dc dd ds s1 /\ frame s s1) as [B1 F1].
  { destruct (negb _); [|by inv_call]. apply (distributeZUSD_books _ _ _ _ _ _ _ B) in H1; [done|].
    apply balance_uint, B. }
  destruct (negb (ether_of s _ =? 0)); [|inv_call; by split].
  destruct (distributeRBTC_books _ _ _ _ _ _ _ B1 (ether_uint _ _ _ _ _ B) H2) as [B2 F2].
  split; [done|]. by etrans.
Qed.
End Fees.

(** ** The base rate *)

Lemma mul_word a b c : SafeMath.mul a b = Ok c -> is_uint c.
Proof.
  unfold SafeMath.mul. destruct (a =? 0); [intros [= <-]; pose proof UINT256_pos; unfold is_uint; lia|].
  intros H. inv_result. apply wrap_uint.
Qed.

Lemma rate_books dc dd ds s r t : books dc dd ds s -> is_uint r -> is_uint t ->
  books dc dd ds (with_manager s (set_rate (manager s) r t)) /\ frame s (with_manager s (set_rate (manager s) r t)).
Proof.
  intros B Ur Ut. assert (frame s (with_manager s (set_rate (manager s) r t))) as F.
  { split; try done. by exists r, t. }
  split; [|done]. rewrite <- (Z.add_0_r ds). apply (books_quiet _ _ _ _ s); try done; try apply B. cbn. lia.
Qed.

Lemma decayed_uint m now r : _calcDecayedBaseRate m now = Ok r -> is_uint r.
Proof.
  intros H. unfold _calcDecayedBaseRate in H. inv_result.
  match goal with M : SafeMath.mul _ _ = Ok _ |- _ => apply mul_word in M; by destruct (div_Ok _ _ _ M H) as (_ & _ & ?) end.
Qed.

Lemma decay_books dc dd ds s sender now r s' : books dc dd ds s -> is_uint now ->
  decayBaseRateFromBorrowing sender now s = Ok (r, s') -> books dc dd ds s' /\ frame s s'.
Proof.
  intros B Un H. unfold decayBaseRateFromBorrowing, guarded, _requireCallerIsBorrowerOperations in H. inv_result.
  cbn [fst snd]. match goal with H : _calcDecayedBaseRate _ _ = Ok _ |- _ => pose proof (decayed_uint _ _ _ H) as Ur end.
  match goal with H : _updateLastFeeOpTime _ _ = Ok _ |- _ => unfold _updateLastFeeOpTime in H end.
  inv_result. pose proof (m_time _ (i_manager _ _ _ _ B)).
  destruct (SECONDS_IN_ONE_MINUTE <=? _).
  - change (set_rate (set_rate ?m _ _) ?r ?t) with (set_rate m r t). by apply rate_books.
  - by apply rate_books.
Qed.
