(* ===== verification/TroveSteps.v ===== *)
(** * How the functions of TroveManager change the books

    [touched b] relates two storages of TroveManager that differ in the entry of one
    borrower, in the order of the owners and in the fee rate. *)

From S2P Require Import Prelude Solidity Ledger SortedTroves SortedTrovesFacts ChainState ZUSDToken.
From S2P Require Import ActivePool DefaultPool CollSurplusPool Outside FeeDistributor TroveManager Invariant InvariantFacts.
Import LiquityMath.
Local Open Scope Z_scope.

(** ** Writing one entry *)

Lemma trove_set m b t a : trove (set_trove m b t) a = if decide (a = b) then t else trove m a.
Proof.
  unfold trove, set_trove. cbn. case_decide as E; [subst; by rewrite lookup_insert_eq|by rewrite lookup_insert_ne].
Qed.

Lemma snapshot_set m b r a : snapshot (set_snapshot m b r) a = if decide (a = b) then r else snapshot m a.
Proof.
  unfold snapshot, set_snapshot. cbn. case_decide as E; [subst; by rewrite lookup_insert_eq|by rewrite lookup_insert_ne].
Qed.

(** Two summands that differ in one account. *)
Lemma total_except {A} (f g : address -> A -> Z) (m : gmap address A) b d :
  (forall a x, a <> b -> f a x = g a x) -> f b d = 0 -> g b d = 0 ->
  total g m - g b (default d (m !! b)) = total f m - f b (default d (m !! b)).
Proof.
  intros E Hf Hg. destruct (m !! b) as [x|] eqn:Hb; cbn.
  - rewrite (total_delete f m b x), (total_delete g m b x) by done.
    rewrite (total_ext f g (delete b m)); [lia|]. intros a y Hy. apply E.
    apply lookup_delete_Some in Hy as [? _]. congruence.
  - rewrite Hf, Hg, (total_ext f g m); [done|]. intros a y Hy. apply E. congruence.
Qed.

Definition like (t t' : ChainTrove) : Prop :=
  t_debt t = t_debt t' /\ t_coll t = t_coll t' /\ t_stake t = t_stake t' /\ t_status t = t_status t'.

(** What is due to the other Troves. *)
Definition eth_rest (m : Manager) (b : address) : Z :=
  eth_due m - t_stake (trove m b) * (L_ETH m - snapshot_ETH (snapshot m b)).

Record touched (b : address) (m m' : Manager) : Prop := {
  h_L_ETH : L_ETH m' = L_ETH m;
  h_L_debt : L_ZUSDDebt m' = L_ZUSDDebt m;
  h_eth_error : lastETHError_Redistribution m' = lastETHError_Redistribution m;
  h_debt_error : lastZUSDDebtError_Redistribution m' = lastZUSDDebtError_Redistribution m;
  h_stakes_snap : totalStakesSnapshot m' = totalStakesSnapshot m;
  h_coll_snap : totalCollateralSnapshot m' = totalCollateralSnapshot m;
  h_trove : forall a, a <> b -> like (trove m' a) (trove m a);
  h_snapshot : forall a, a <> b -> snapshot m' a = snapshot m a;
  h_colls : colls m' - t_coll (trove m' b) = colls m - t_coll (trove m b);
  h_debts : debts m' - t_debt (trove m' b) = debts m - t_debt (trove m b);
  h_stakes : stakes m' - t_stake (trove m' b) = stakes m - t_stake (trove m b);
  h_eth_rest : eth_rest m' b = eth_rest m b }.

Lemma like_refl t : like t t.
Proof. done. Qed.

Lemma like_trans t1 t2 t3 : like t1 t2 -> like t2 t3 -> like t1 t3.
Proof. unfold like. intuition congruence. Qed.

#[export] Instance touched_preorder b : PreOrder (touched b).
Proof.
  split; [by intros m; split|]. intros m1 m2 m3 H1 H2.
  pose proof (h_trove _ _ _ H1) as T1. pose proof (h_trove _ _ _ H2) as T2.
  pose proof (h_snapshot _ _ _ H1) as S1. pose proof (h_snapshot _ _ _ H2) as S2.
  destruct H1, H2. split; try congruence.
  - intros a Ha. by apply like_trans with (trove m2 a); auto.
  - intros a Ha. by rewrite S2, S1.
Qed.

Lemma touched_set m b t : touched b m (set_trove m b t).
Proof.
  assert (trove (set_trove m b t) b = t) as Eb by (rewrite trove_set; by rewrite decide_True).
  split; try done; rewrite ?Eb.
  - intros a Ha. rewrite trove_set, decide_False by done. apply like_refl.
  - unfold colls. cbn. rewrite (total_insert _ _ _ _ no_trove) by done. fold (trove m b). lia.
  - unfold debts. cbn. rewrite (total_insert _ _ _ _ no_trove) by done. fold (trove m b). lia.
  - unfold stakes. cbn. rewrite (total_insert _ _ _ _ no_trove) by done. fold (trove m b). lia.
  - unfold eth_rest, eth_due. rewrite Eb. cbn. rewrite (total_insert _ _ _ _ no_trove) by done. fold (trove m b).
    change (snapshot (set_trove m b t)) with (snapshot m). lia.
Qed.

Lemma touched_snapshot m b r : touched b m (set_snapshot m b r).
Proof.
  split; try done.
  - intros a Ha. by rewrite snapshot_set, decide_False.
  - apply (total_except (fun a t => t_stake t * (L_ETH m - snapshot_ETH (snapshot m a)))
      (fun a t => t_stake t * (L_ETH m - snapshot_ETH (snapshot (set_snapshot m b r) a))) (Troves m) b no_trove); [|done..].
    intros a x Ha. by rewrite snapshot_set, decide_False.
Qed.

Lemma touched_totalStakes m b n : touched b m (set_totalStakes m n).
Proof. by split. Qed.

Lemma touched_owners m b l : touched b m (set_owners m l).
Proof. by split. Qed.

(** Only the index of another Trove. *)
Lemma touched_index m b a i : touched b m (set_trove m a (set_index (trove m a) i)).
Proof.
  destruct (decide (a = b)) as [->|N]; [apply touched_set|].
  pose proof (touched_set m a (set_index (trove m a) i)) as H.
  assert (trove (set_trove m a (set_index (trove m a) i)) a = set_index (trove m a) i) as Ea
    by (rewrite trove_set; by rewrite decide_True).
  assert (trove (set_trove m a (set_index (trove m a) i)) b = trove m b) as Eb
    by (rewrite trove_set; by rewrite decide_False).
  destruct H as [? ? ? ? ? ? _ _ Hc Hd Hs He]. unfold eth_rest in *.
  rewrite Ea in *. cbn [t_coll t_debt t_stake set_index] in *.
  split; try done; rewrite ?Eb; unfold eth_rest; rewrite ?Eb.
  - intros c Hc'. rewrite trove_set. case_decide; [subst; done|apply like_refl].
  - lia.
  - lia.
  - lia.
  - cbn -[eth_due snapshot] in *. change (snapshot (set_trove m a (set_index (trove m a) i))) with (snapshot m) in *. lia.
Qed.

Lemma touched_ok b m m' : manager_ok m -> touched b m m' -> trove_ok m' b ->
  is_uint (baseRate m') -> is_uint (lastFeeOperationTime m') ->
  totalStakes m' = stakes m' -> is_uint (totalStakes m') -> manager_ok m'.
Proof.
  intros M H T Ur Ut Es Us.
  split; rewrite ?(h_L_ETH _ _ _ H), ?(h_L_debt _ _ _ H), ?(h_eth_error _ _ _ H), ?(h_debt_error _ _ _ H),
    ?(h_stakes_snap _ _ _ H), ?(h_coll_snap _ _ _ H); try done; try apply M.
  intros a. destruct (decide (a = b)) as [->|N]; [done|].
  destruct (h_trove _ _ _ H a N) as (L1 & L2 & L3 & L4). pose proof (h_snapshot _ _ _ H a N) as L5.
  destruct (m_troves _ M a). unfold is_active in *.
  split; unfold is_active; rewrite ?L1, ?L2, ?L3, ?L4, ?L5, ?(h_L_ETH _ _ _ H), ?(h_L_debt _ _ _ H); done.
Qed.

(** The slacks after one Trove and the pools have changed. *)
Lemma touched_pools b dc dd ds dc' dd' ds' s s' :
  pools_ok dc dd ds s -> touched b (manager s) (manager s') ->
  is_uint (pool_ETH (active_pool s')) -> is_uint (pool_ZUSDDebt (active_pool s')) ->
  is_uint (pool_ETH (default_pool s')) -> is_uint (pool_ZUSDDebt (default_pool s')) ->
  dc' + pool_ETH (active_pool s') - t_coll (trove (manager s') b)
    = dc + pool_ETH (active_pool s) - t_coll (trove (manager s) b) ->
  dd' + pool_ZUSDDebt (active_pool s') - t_debt (trove (manager s') b)
    = dd + pool_ZUSDDebt (active_pool s) - t_debt (trove (manager s) b) ->
  eth_due (manager s') - eth_due (manager s)
    <= DECIMAL_PRECISION * (pool_ETH (default_pool s') - pool_ETH (default_pool s)) ->
  _totalSupply (zusd s') = pool_ZUSDDebt (active_pool s') + pool_ZUSDDebt (default_pool s') + ds' ->
  pools_ok dc' dd' ds' s'.
Proof.
  intros P H U1 U2 U3 U4 Ec Ed Ee Es. pose proof (h_colls _ _ _ H). pose proof (h_debts _ _ _ H).
  destruct P as [? ? ? ? ? ? P1 ?]. split; try done; try lia. rewrite (h_eth_error _ _ _ H). lia.
Qed.

Lemma eth_due_change b m m' : touched b m m' ->
  eth_due m' - eth_due m = t_stake (trove m' b) * (L_ETH m - snapshot_ETH (snapshot m' b))
                           - t_stake (trove m b) * (L_ETH m - snapshot_ETH (snapshot m b)).
Proof. intros H. pose proof (h_eth_rest _ _ _ H) as E. unfold eth_rest in E. rewrite (h_L_ETH _ _ _ H) in E. lia. Qed.

(** ** Moving rewards between the pools *)

(** Everything but the Troves, the pools and the ether. *)
Record elsewhere (s s' : System) : Prop := {
  e_wiring : wiring s' = wiring s;
  e_params : params s' = params s;
  e_sorted : sorted s' = sorted s;
  e_zusd : zusd s' = zusd s;
  e_surplus : surplus s' = surplus s;
  e_stability : stability s' = stability s;
  e_share : FEE_TO_FEE_SHARING_COLLECTOR s' = FEE_TO_FEE_SHARING_COLLECTOR s;
  e_price : lastGoodPrice s' = lastGoodPrice s }.

Lemma move_Ok s zusd_ eth u s' :
  is_uint (pool_ETH (active_pool s)) -> is_uint (pool_ZUSDDebt (active_pool s)) ->
  is_uint (pool_ETH (default_pool s)) -> is_uint (pool_ZUSDDebt (default_pool s)) -> is_uint zusd_ -> is_uint eth ->
  _movePendingTroveRewardsToActivePool zusd_ eth s = Ok (u, s') ->
  elsewhere s s' /\ manager s' = manager s /\
  active_pool s' = mkPool (pool_ETH (active_pool s) + eth) (pool_ZUSDDebt (active_pool s) + zusd_) /\
  default_pool s' = mkPool (pool_ETH (default_pool s) - eth) (pool_ZUSDDebt (default_pool s) - zusd_) /\
  eth <= pool_ETH (default_pool s) /\ zusd_ <= pool_ZUSDDebt (default_pool s) /\
  is_uint (pool_ETH (active_pool s) + eth) /\ is_uint (pool_ZUSDDebt (active_pool s) + zusd_) /\
  total (fun _ n => n) (ether s') = total (fun _ n => n) (ether s) /\
  forall a, ether_of s' a = ether_of s a - (if decide (a = defaultPool (wiring s)) then eth else 0)
                            + (if decide (a = activePool (wiring s)) then eth else 0).
Proof.
  intros U1 U2 U3 U4 Uz Ue H.
  unfold _movePendingTroveRewardsToActivePool, DefaultPool.decreaseZUSDDebt, ActivePool.increaseZUSDDebt,
    DefaultPool.sendETHToActivePool, by_TM, by_BO_TM in H.
  inv_call. inv_result. apply or_revert_Ok in H. inv_call.
  match goal with H : pay _ _ _ _ = Ok _ |- _ => apply pay_Ok in H as (_ & e & -> & T & Ee) end.
  unfold ActivePool.receive in H. inv_result. read_storage. safe_math. read_storage.
  split; [by split|]. split_and!; done.
Qed.

(** ** Pending rewards *)

Lemma pending_Ok m b term snap p : manager_ok m -> is_uint term -> 0 <= snap <= term ->
  pending m b term snap = Ok p ->
  is_uint p /\ DECIMAL_PRECISION * p <= t_stake (trove m b) * (term - snap).
Proof.
  intros M Ut Us H. pose proof (m_troves _ M b) as T. pose proof (t_stake_uint _ _ T) as Uk.
  assert (is_uint snap) by (unfold is_uint in *; lia). unfold pending in H. inv_result. safe_math.
  assert (0 <= t_stake (trove m b) * (term - snap)) by (unfold is_uint in *; nia).
  destruct (_ || _).
  - injection H as <-. split; [word_literal|lia].
  - inv_result. safe_math. split; [done|]. apply Z.mul_div_le. done.
Qed.

(** A borrower whose rewards in ether are applied. *)
Definition current (m : Manager) (b : address) : Prop := snapshot_ETH (snapshot m b) = L_ETH m.

(** When the rewards in ether are applied, those in debt are too.  A redistribution of
    less ether than the stakes can share breaks this. *)
Definition in_step (m : Manager) (b : address) : Prop :=
  current m b -> snapshot_ZUSDDebt (snapshot m b) = L_ZUSDDebt m.

(** Collateral and debt when [_applyPendingRewards] has run: it does nothing for a
    borrower without rewards in ether. *)
Definition applied_amounts (m : Manager) (b : address) : result (Z * Z) :=
  if _hasPendingRewards m b then _getCurrentTroveAmounts m b else Ok (t_coll (trove m b), t_debt (trove m b)).

Lemma listed_list s s' l' : listed s -> TroveOwners (manager s') = TroveOwners (manager s) ->
  (forall a, t_arrayIndex (trove (manager s') a) = t_arrayIndex (trove (manager s) a)) ->
  (forall a, is_active (manager s') a = is_active (manager s) a) ->
  rep (data (sorted s')) l' -> l' ≡ₚ TroveOwners (manager s) -> is_uint (size (data (sorted s'))) -> listed s'.
Proof.
  intros L Eo Ei Ea R P U. destruct L as [L1 L2 L3 _ _]. split; rewrite ?Eo; try done.
  - intros i a Ha. rewrite Ei. auto.
  - intros a. rewrite Ea. auto.
  - by exists l'.
Qed.

Lemma listed_same s s' : listed s -> TroveOwners (manager s') = TroveOwners (manager s) ->
  (forall a, t_arrayIndex (trove (manager s') a) = t_arrayIndex (trove (manager s) a)) ->
  (forall a, is_active (manager s') a = is_active (manager s) a) -> sorted s' = sorted s -> listed s'.
Proof.
  intros L Eo Ei Ea Es. destruct (o_list _ L) as (l & R & P).
  apply (listed_list s s' l); rewrite ?Es; try done. apply L.
Qed.

Lemma wired_same s s' : wired s -> elsewhere s s' -> wired s'.
Proof. intros [] []. split; congruence. Qed.

(** Rewards are applied: the pools move the amounts the Trove gains. *)
Record applied (b : address) (s s' : System) : Prop := {
  ap_elsewhere : elsewhere s s';
  ap_touched : touched b (manager s) (manager s');
  ap_owners : TroveOwners (manager s') = TroveOwners (manager s);
  ap_index : forall a, t_arrayIndex (trove (manager s') a) = t_arrayIndex (trove (manager s) a);
  ap_active : forall a, is_active (manager s') a = is_active (manager s) a;
  ap_stake : t_stake (trove (manager s') b) = t_stake (trove (manager s) b);
  ap_current : current (manager s') b;
  ap_colls : pool_ETH (active_pool s') + pool_ETH (default_pool s')
             = pool_ETH (active_pool s) + pool_ETH (default_pool s);
  ap_debts : pool_ZUSDDebt (active_pool s') + pool_ZUSDDebt (default_pool s')
             = pool_ZUSDDebt (active_pool s) + pool_ZUSDDebt (default_pool s);
  ap_rate : baseRate (manager s') = baseRate (manager s) /\ lastFeeOperationTime (manager s') = lastFeeOperationTime (manager s);
  ap_amounts : applied_amounts (manager s) b
               = Ok (t_coll (trove (manager s') b), t_debt (trove (manager s') b)) }.

Lemma pending_none m b x : is_uint x -> pending m b x x = Ok 0.
Proof. intros U. unfold pending. rewrite sub_fits, Z.sub_diag by done || lia. done. Qed.

Lemma current_amounts m b : manager_ok m -> current m b -> in_step m b ->
  _getCurrentTroveAmounts m b = Ok (t_coll (trove m b), t_debt (trove m b)).
Proof.
  intros M C1 C2. specialize (C2 C1). unfold current in C1. pose proof (m_troves _ M b) as T. unfold _getCurrentTroveAmounts, _getPendingETHReward, _getPendingZUSDDebtReward.
  rewrite C1, C2, !pending_none by apply M. cbn [bind].
  rewrite !add_fits, !Z.add_0_r; [done|apply T|apply zero_uint| |apply T|apply zero_uint|]; rewrite Z.add_0_r; apply T.
Qed.

Lemma not_pending m b : manager_ok m -> is_active m b = true -> _hasPendingRewards m b = false -> current m b.
Proof.
  intros M A H. pose proof (t_snap_eth _ _ (m_troves _ M b)). unfold _hasPendingRewards in H.
  rewrite A in H. cbn [andb] in H. apply Z.ltb_ge in H. unfold current. lia.
Qed.

Lemma applied_in_step m b : manager_ok m -> is_active m b = true -> in_step m b ->
  applied_amounts m b = _getCurrentTroveAmounts m b.
Proof.
  intros M A S. unfold applied_amounts. destruct (_hasPendingRewards m b) eqn:H; [done|].
  rewrite current_amounts; [done|done|by apply not_pending|done].
Qed.

Lemma apply_none dc dd ds s b : books dc dd ds s -> is_active (manager s) b = true ->
  _hasPendingRewards (manager s) b = false -> applied b s s.
Proof.
  intros B A H. pose proof (not_pending _ _ (i_manager _ _ _ _ B) A H) as C.
  split; try done. unfold applied_amounts. by rewrite H.
Qed.

(** Records of ether move with the ether. *)
Lemma funded_update s s' : funded s -> wiring s' = wiring s ->
  total (fun _ n => n) (ether s') = total (fun _ n => n) (ether s) -> (forall a, 0 <= ether_of s' a) ->
  pool_ETH (active_pool s') - pool_ETH (active_pool s)
    <= ether_of s' (activePool (wiring s)) - ether_of s (activePool (wiring s)) ->
  pool_ETH (default_pool s') - pool_ETH (default_pool s)
    <= ether_of s' (defaultPool (wiring s)) - ether_of s (defaultPool (wiring s)) ->
  surplus_ETH (surplus s') - surplus_ETH (surplus s)
    <= ether_of s' (collSurplusPool (wiring s)) - ether_of s (collSurplusPool (wiring s)) ->
  sp_ETH (stability s') - sp_ETH (stability s)
    <= ether_of s' (stabilityPool (wiring s)) - ether_of s (stabilityPool (wiring s)) -> funded s'.
Proof. intros [] Ew Et N H1 H2 H3 H4. split; rewrite ?Ew, ?Et; try done; lia. Qed.

Lemma same_ne a b : same a b = false -> bool_decide (a = b) = false /\ a <> b.
Proof. intros H. split; [done|by apply same_false]. Qed.

(** Ether paid from one contract of the protocol to another. *)
Lemma paid_ether s s' from to v :
  (forall a, ether_of s' a = ether_of s a - (if decide (a = from) then v else 0) + (if decide (a = to) then v else 0)) ->
  from <> to -> 0 <= v -> v <= ether_of s from -> (forall a, 0 <= ether_of s a) ->
  (forall a, 0 <= ether_of s' a) /\ ether_of s' from = ether_of s from - v /\ ether_of s' to = ether_of s to + v /\
  (forall a, a <> from -> a <> to -> ether_of s' a = ether_of s a).
Proof.
  intros E N V L P. split_and!.
  - intros a. rewrite E. pose proof (P a). repeat case_decide; subst; lia || done.
  - rewrite E, decide_True, decide_False by done. lia.
  - rewrite E, decide_False, decide_True by done. lia.
  - intros a Ha Hb. rewrite E, !decide_False by done. lia.
Qed.

(** Ether and its record move from the default pool to the active pool. *)
Lemma funded_moved s s' v : funded s -> NoDup (core (wiring s)) -> wiring s' = wiring s -> surplus s' = surplus s ->
  stability s' = stability s -> 0 <= v -> v <= pool_ETH (default_pool s) ->
  pool_ETH (active_pool s') = pool_ETH (active_pool s) + v -> pool_ETH (default_pool s') = pool_ETH (default_pool s) - v ->
  total (fun _ n => n) (ether s') = total (fun _ n => n) (ether s) ->
  (forall a, ether_of s' a = ether_of s a - (if decide (a = defaultPool (wiring s)) then v else 0)
                            + (if decide (a = activePool (wiring s)) then v else 0)) -> funded s'.
Proof.
  intros Fd N Ew Eu Es Pv Lv Ea Ed Te Ee.
  destruct (paid_ether s s' (defaultPool (wiring s)) (activePool (wiring s)) v) as (Q0 & Q1 & Q2 & Q3); try done.
  { apply same_false. by decide_core N. }
  { pose proof (f_default _ Fd). lia. }
  { apply Fd. }
  apply (funded_update s); rewrite ?Ea, ?Ed, ?Eu, ?Es; try done; try lia; rewrite Q3; try lia; apply same_false; by decide_core N.
Qed.

(** The Trove with its rewards, and the snapshots of the running terms. *)
Definition rewarded (m : Manager) (b : address) (pe pd : Z) : Manager :=
  let t := trove m b in
  _updateTroveRewardSnapshots
    (set_trove m b (mkChainTrove (t_debt t + pd) (t_coll t + pe) (t_stake t) (t_status t) (t_arrayIndex t))) b.

Section Rewarded.
Context (m : Manager) (b : address) (pe pd : Z).
Abbreviation m' := (rewarded m b pe pd).

Lemma rewarded_trove a : trove m' a =
  if decide (a = b) then mkChainTrove (t_debt (trove m b) + pd) (t_coll (trove m b) + pe) (t_stake (trove m b))
                           (t_status (trove m b)) (t_arrayIndex (trove m b))
  else trove m a.
Proof. unfold rewarded, _updateTroveRewardSnapshots. change (trove (set_snapshot ?m _ _)) with (trove m). apply trove_set. Qed.

Lemma rewarded_snapshot : snapshot m' b = mkChainSnapshot (L_ETH m) (L_ZUSDDebt m).
Proof. unfold rewarded, _updateTroveRewardSnapshots. by rewrite snapshot_set, decide_True. Qed.

Lemma rewarded_touched : touched b m m'.
Proof. etrans; [apply (touched_set _ b)|apply touched_snapshot]. Qed.

Lemma rewarded_active a : is_active m' a = is_active m a.
Proof. unfold is_active. rewrite rewarded_trove. by case_decide; [subst|]. Qed.

Lemma rewarded_index a : t_arrayIndex (trove m' a) = t_arrayIndex (trove m a).
Proof. rewrite rewarded_trove. by case_decide; [subst|]. Qed.

Lemma rewarded_ok : manager_ok m -> is_active m b = true -> 0 <= pe -> 0 <= pd ->
  is_uint (t_coll (trove m b) + pe) -> is_uint (t_debt (trove m b) + pd) -> manager_ok m'.
Proof.
  intros M A Pe Pd Uc Ud. pose proof (m_troves _ M b) as T. pose proof rewarded_touched as H.
  pose proof (rewarded_trove b) as Et. rewrite decide_True in Et by done.
  apply (touched_ok b m); try done; try apply M.
  - split; rewrite ?rewarded_active, ?rewarded_snapshot, ?Et, ?A, ?(h_L_ETH _ _ _ H), ?(h_L_debt _ _ _ H); cbn; try done.
    + apply T.
    + pose proof (m_L_ETH _ M). unfold is_uint in *. lia.
    + pose proof (m_L_debt _ M). unfold is_uint in *. lia.
    + intros _. pose proof (t_backed _ _ T A). lia.
  - pose proof (h_stakes _ _ _ H) as E. rewrite Et in E. cbn [t_stake] in E.
    change (totalStakes m') with (totalStakes m). rewrite (m_stakes _ M). lia.
Qed.
End Rewarded.

Lemma apply_inv dc dd ds s b u s' : books dc dd ds s -> is_active (manager s) b = true ->
  _hasPendingRewards (manager s) b = true -> _applyPendingRewards b s = Ok (u, s') ->
  exists pe pd, is_uint pe /\ is_uint pd /\
    DECIMAL_PRECISION * pe <= t_stake (trove (manager s) b) * (L_ETH (manager s) - snapshot_ETH (snapshot (manager s) b)) /\
    DECIMAL_PRECISION * pd
      <= t_stake (trove (manager s) b) * (L_ZUSDDebt (manager s) - snapshot_ZUSDDebt (snapshot (manager s) b)) /\
    is_uint (t_coll (trove (manager s) b) + pe) /\ is_uint (t_debt (trove (manager s) b) + pd) /\
    _getCurrentTroveAmounts (manager s) b = Ok (t_coll (trove (manager s) b) + pe, t_debt (trove (manager s) b) + pd) /\
    _movePendingTroveRewardsToActivePool pd pe (with_manager s (rewarded (manager s) b pe pd)) = Ok (u, s').
Proof.
  intros B A Hp H. unfold _applyPendingRewards in H. rewrite Hp in H.
  pose proof (i_manager _ _ _ _ B) as M. pose proof (m_troves _ M b) as T.
  inv_result.
  match goal with E : _getPendingETHReward _ _ = Ok ?x |- _ =>
    destruct (pending_Ok _ _ _ _ _ M (m_L_ETH _ M) (t_snap_eth _ _ T) E) as [Ue Le]; exists x end.
  match goal with E : _getPendingZUSDDebtReward _ _ = Ok ?x |- _ =>
    destruct (pending_Ok _ _ _ _ _ M (m_L_debt _ M) (t_snap_debt _ _ T) E) as [Ud Ld]; exists x end.
  safe_math. split_and!; try done. unfold _getCurrentTroveAmounts.
  repeat match goal with E : ?x = Ok _ |- context [?x] => rewrite E; cbn [bind] end. rewrite !add_fits; uint || (unfold is_uint in *; lia || done).
Qed.

(** The rewards move to the active pool and into the Trove. *)
Record moved (b : address) (pe pd : Z) (s s' : System) : Prop := {
  mv_elsewhere : elsewhere s s';
  mv_manager : manager s' = rewarded (manager s) b pe pd;
  mv_active : active_pool s' = mkPool (pool_ETH (active_pool s) + pe) (pool_ZUSDDebt (active_pool s) + pd);
  mv_default : default_pool s' = mkPool (pool_ETH (default_pool s) - pe) (pool_ZUSDDebt (default_pool s) - pd) }.

Lemma rewarded_books dc dd ds s b pe pd u s' : books dc dd ds s -> is_active (manager s) b = true ->
  is_uint pe -> is_uint pd ->
  DECIMAL_PRECISION * pe <= t_stake (trove (manager s) b) * (L_ETH (manager s) - snapshot_ETH (snapshot (manager s) b)) ->
  is_uint (t_coll (trove (manager s) b) + pe) -> is_uint (t_debt (trove (manager s) b) + pd) ->
  _movePendingTroveRewardsToActivePool pd pe (with_manager s (rewarded (manager s) b pe pd)) = Ok (u, s') ->
  books dc dd ds s' /\ moved b pe pd s s'.
Proof.
  intros B A Ue Ud Le Uc Udb Hm.
  pose proof (i_manager _ _ _ _ B) as M. pose proof (i_pools _ _ _ _ B) as P. pose proof (i_funded _ _ _ _ B) as Fd.
  apply move_Ok in Hm; try done; try apply P.
  destruct Hm as (F & Em & Ea & Ed & L1 & L2 & V1 & V2 & Te & Ee). read_storage.
  assert (elsewhere s s') as F' by (destruct F; split; done). split; [|done].
  pose proof (rewarded_touched (manager s) b pe pd) as Ht. rewrite <- Em in Ht.
  pose proof (rewarded_trove (manager s) b pe pd b) as Et. rewrite decide_True, <- Em in Et by done.
  pose proof (rewarded_snapshot (manager s) b pe pd) as Es. rewrite <- Em in Es.
  assert (manager_ok (manager s')) as M' by (rewrite Em; apply rewarded_ok; try done; apply Ue || apply Ud).
  pose proof (w_nodup _ (i_wired _ _ _ _ B)) as N.
  split; rewrite ?(e_params _ _ F'), ?(e_zusd _ _ F'), ?(e_surplus _ _ F'), ?(e_stability _ _ F'), ?(e_price _ _ F'); try apply B.
  - apply (wired_same s); [apply B|done].
  - done.
  - apply (touched_pools b dc dd ds _ _ _ s s'); try done; rewrite ?Ea, ?Ed, ?Et; cbn [pool_ETH pool_ZUSDDebt t_coll t_debt].
    1-4: done || (unfold is_uint in *; pose proof (b_default_ETH _ _ _ _ P); pose proof (b_default_debt _ _ _ _ P); unfold is_uint in *; lia).
    + lia.
    + lia.
    + rewrite (eth_due_change b), Es by done. cbn. lia.
    + rewrite (e_zusd _ _ F'), (b_supply _ _ _ _ P). lia.
  - apply (listed_same s); [apply B|by rewrite Em|rewrite Em; apply rewarded_index|rewrite Em; apply rewarded_active|apply F'].
  - apply (funded_moved s s' pe); try done; try apply Ue; [apply F'|apply F'|apply F'|by rewrite Ea|by rewrite Ed].
Qed.

Lemma apply_applied dc dd ds s b u s' : books dc dd ds s -> is_active (manager s) b = true ->
  _applyPendingRewards b s = Ok (u, s') -> books dc dd ds s' /\ applied b s s'.
Proof.
  intros B A H. destruct (_hasPendingRewards (manager s) b) eqn:Hp.
  2:{ unfold _applyPendingRewards in H. rewrite Hp in H. injection H as _ <-. split; [done|]. by apply (apply_none dc dd ds). }
  destruct (apply_inv _ _ _ _ _ _ _ B A Hp H) as (pe & pd & Ue & Ud & Le & Ld & Uc & Udb & Ea0 & Hm). clear H.
  destruct (rewarded_books _ _ _ _ _ _ _ _ _ B A Ue Ud Le Uc Udb Hm) as [B' [F' Em Ea Ed]]. split; [done|].
  pose proof (rewarded_trove (manager s) b pe pd b) as Et. rewrite decide_True in Et by done.
  pose proof (rewarded_snapshot (manager s) b pe pd) as Es.
  split; rewrite ?Ea, ?Ed, ?Em, ?Et; try done; cbn [pool_ETH pool_ZUSDDebt]; try lia.
  - apply rewarded_touched.
  - apply rewarded_index.
  - apply rewarded_active.
  - unfold current. by rewrite Es.
  - unfold applied_amounts. by rewrite Hp.
Qed.

(** ** The sorted list *)

Definition same_owner (l l' : SortedTroves) : Prop :=
  st_borrowerOperationsAddress l' = st_borrowerOperationsAddress l /\ st_troveManager l' = st_troveManager l.

Lemma insert_rep f gas st sender id x up low st' l : rep (data st) l -> is_uint (size (data st)) ->
  SortedTroves.insert f gas st sender id x up low = Ok st' ->
  exists l', rep (data st') l' /\ l' ≡ₚ id :: l /\ (id ∉ l) /\ 0 < x /\ is_uint (size (data st')) /\ same_owner st st'.
Proof.
  intros R U H. unfold SortedTroves.insert in H. inv_result. cbn [data with_data].
  match goal with E : _insert _ _ _ _ _ _ _ = Ok _ |- _ =>
    destruct (insert_guards _ _ _ _ _ _ _ _ E) as (_ & _ & _ & P);
    destruct (insert_keeps_rep _ _ _ _ _ _ _ _ _ R U E) as (l1 & l2 & -> & I & R' & S) end.
  pose proof (rep_length _ _ R) as Hl. exists (l1 ++ id :: l2). split; [done|]. split; [by rewrite Permutation_middle|].
  split; [done|]. split; [done|]. split; [|done].
  rewrite (rep_length _ _ R'), !length_app in *. cbn [length]. unfold is_uint in *. lia.
Qed.

Lemma remove_list st sender id st' l : rep (data st) l -> is_uint (size (data st)) ->
  SortedTroves.remove st sender id = Ok st' ->
  exists l', rep (data st') l' /\ l ≡ₚ id :: l' /\ is_uint (size (data st')) /\ same_owner st st'.
Proof.
  intros R U H. unfold SortedTroves.remove in H. inv_result. cbn [data with_data].
  match goal with E : _remove _ _ = Ok _ |- _ => destruct (removed_rep _ _ _ _ R U E) as (l1 & l2 & -> & R' & _) end.
  pose proof (rep_length _ _ R) as Hl. exists (l1 ++ l2). split; [done|]. split; [by rewrite Permutation_middle|].
  split; [|done]. rewrite (rep_length _ _ R'), !length_app in *. cbn [length] in *. unfold is_uint in *. lia.
Qed.

Lemma reInsert_rep f gas st sender id x up low st' l : rep (data st) l -> is_uint (size (data st)) ->
  SortedTroves.reInsert f gas st sender id x up low = Ok st' ->
  exists l', rep (data st') l' /\ l' ≡ₚ l /\ 0 < x /\ is_uint (size (data st')) /\ same_owner st st'.
Proof.
  intros R U H. unfold SortedTroves.reInsert in H. inv_result. cbn [data with_data].
  match goal with E : _remove _ _ = Ok _ |- _ => destruct (removed_rep _ _ _ _ R U E) as (l1 & l2 & -> & R' & _) end.
  match goal with E : _insert _ _ ?d _ _ _ _ = Ok _ |- _ =>
    assert (is_uint (size d)) as U'
      by (pose proof (rep_length _ _ R); rewrite (rep_length _ _ R'), !length_app in *; cbn [length] in *;
          unfold is_uint in *; lia);
    destruct (insert_guards _ _ _ _ _ _ _ _ E) as (_ & _ & _ & P);
    destruct (insert_keeps_rep _ _ _ _ _ _ _ _ _ R' U' E) as (k1 & k2 & Ek & I & R2 & S) end.
  pose proof (rep_length _ _ R') as Hl. rewrite Ek in Hl. exists (k1 ++ id :: k2). split; [done|].
  split; [by rewrite <- !Permutation_middle, Ek|]. split; [done|]. split; [|done].
  rewrite (rep_length _ _ R2), !length_app in *. cbn [length]. unfold is_uint in *. lia.
Qed.
