(* ===== verification/BorrowerSteps.v ===== *)
(** * How the steps of BorrowerOperations change the books *)

From S2P Require Import Prelude Solidity Ledger SortedTroves SortedTrovesFacts ChainState ZUSDToken.
From S2P Require Import ActivePool DefaultPool CollSurplusPool Outside FeeDistributor TroveManager BorrowerOperations.
From S2P Require Import Invariant InvariantFacts TroveSteps.
Import LiquityMath.
Local Open Scope Z_scope.

Definition signed (isIncrease : bool) (n : Z) : Z := if isIncrease then n else - n.

Lemma changed_Ok x n b y : is_uint x -> is_uint n -> changed x n b = Ok y -> y = x + signed b n /\ is_uint y.
Proof. intros Ux Un. unfold changed, signed. destruct b; intros H; safe_math; split; done || lia. Qed.

Lemma guarded_Ok sender f s r s' : guarded sender f s = Ok (r, s') ->
  exists m', f (manager s) = Ok (r, m') /\ s' = with_manager s m'.
Proof. unfold guarded. intros H. inv_result. destruct r1 as [x m']. by exists m'. Qed.

Lemma set_trove_twice m b t t' : set_trove (set_trove m b t) b t' = set_trove m b t'.
Proof. unfold set_trove. cbn. by rewrite insert_insert_eq. Qed.

(** ** One entry of TroveManager *)

Lemma entry_ok m m' b : manager_ok m -> touched b m m' -> trove_ok m' b ->
  baseRate m' = baseRate m -> lastFeeOperationTime m' = lastFeeOperationTime m ->
  totalStakes m' = totalStakes m - t_stake (trove m b) + t_stake (trove m' b) -> is_uint (totalStakes m') ->
  manager_ok m'.
Proof.
  intros M H T Er Et Es U. apply (touched_ok b m); try done; rewrite ?Er, ?Et; try apply M.
  rewrite Es, (m_stakes _ M). pose proof (h_stakes _ _ _ H). lia.
Qed.

Lemma newStake_uint m coll k : is_uint coll -> _computeNewStake m coll = Ok k -> is_uint k.
Proof.
  intros U H. unfold _computeNewStake in H. destruct (_ =? _); [by injection H as <-|].
  inv_result. match goal with E : SafeMath.mul _ _ = Ok _ |- _ => apply mul_word in E end.
  by destruct (div_Ok _ _ _ ltac:(eassumption) H) as (_ & _ & ?).
Qed.

Lemma updateStake_Ok m b k m' : manager_ok m -> is_uint (t_coll (trove m b)) -> is_uint (t_stake (trove m b)) ->
  is_uint (totalStakes m) -> _updateStakeAndTotalStakes m b = Ok (k, m') ->
  is_uint k /\ t_stake (trove m b) <= totalStakes m /\ is_uint (totalStakes m - t_stake (trove m b) + k) /\
  m' = set_totalStakes (set_trove m b (set_stake (trove m b) k)) (totalStakes m - t_stake (trove m b) + k).
Proof.
  intros M Uc Us Ut H. unfold _updateStakeAndTotalStakes in H. inv_result.
  match goal with E : _computeNewStake _ _ = Ok _ |- _ => pose proof (newStake_uint _ _ _ Uc E) as Uk end.
  safe_math. by split_and!.
Qed.

(** Everything but the Troves and the list. *)
Record aside (s s' : System) : Prop := {
  as_wiring : wiring s' = wiring s;
  as_params : params s' = params s;
  as_active : active_pool s' = active_pool s;
  as_default : default_pool s' = default_pool s;
  as_zusd : zusd s' = zusd s;
  as_surplus : surplus s' = surplus s;
  as_stability : stability s' = stability s;
  as_share : FEE_TO_FEE_SHARING_COLLECTOR s' = FEE_TO_FEE_SHARING_COLLECTOR s;
  as_price : lastGoodPrice s' = lastGoodPrice s;
  as_ether : ether s' = ether s;
  as_owner : same_owner (sorted s) (sorted s') }.

(** The books after a change of one Trove whose rewards are applied. *)
Lemma books_aside b dc dd ds s s' : books dc dd ds s -> aside s s' ->
  touched b (manager s) (manager s') -> manager_ok (manager s') ->
  eth_due (manager s') <= eth_due (manager s) -> listed s' ->
  books (dc + t_coll (trove (manager s') b) - t_coll (trove (manager s) b))
        (dd + t_debt (trove (manager s') b) - t_debt (trove (manager s) b)) ds s'.
Proof.
  intros B F H M He L. pose proof (i_pools _ _ _ _ B) as P. destruct (as_owner _ _ F) as [O1 O2].
  destruct F as [Fw Fp Fa Fd Fz Fu Fs Fh Fr Fe _].
  split; rewrite ?Fp, ?Fz, ?Fu, ?Fs, ?Fr; try apply B; try done.
  - destruct (i_wired _ _ _ _ B). split; rewrite ?Fw, ?Fh; congruence.
  - apply (touched_pools b dc dd ds _ _ _ s s'); rewrite ?Fa, ?Fd; try done; try apply P; try lia.
    rewrite Fz. apply P.
  - destruct (i_funded _ _ _ _ B).
    split; unfold ether_of in *; rewrite ?Fw, ?Fa, ?Fd, ?Fu, ?Fs, ?Fe; done.
Qed.

Lemma nominal_positive coll debt n : is_uint coll -> is_uint debt -> 0 < debt -> _computeNominalCR coll debt = Ok n ->
  0 < n -> 0 < coll.
Proof.
  intros Uc Ud D H P. unfold _computeNominalCR in H. rewrite (proj2 (Z.ltb_lt _ _) D) in H. inv_result.
  assert (is_uint NICR_PRECISION) by word_literal. safe_math.
  destruct (decide (0 < coll)) as [|N]; [done|]. assert (coll = 0) as -> by (unfold is_uint in *; lia).
  rewrite Z.mul_0_l, Z.div_0_l in P by lia. lia.
Qed.

(** ** Adjusting *)

Section Adjust.
Context (W : World) (dc dd ds : Z) (s : System) (b : address).
Context (B : books dc dd ds s) (A : is_active (manager s) b = true) (C : current (manager s) b).
Abbreviation m := (manager s).
Abbreviation t := (trove m b).

Lemma updateTrove_Ok cc ci nd di r s1 : is_uint cc -> is_uint nd ->
  _updateTroveFromAdjustment b cc ci nd di s = Ok (r, s1) ->
  exists c d, c = t_coll t + signed ci cc /\ d = t_debt t + signed di nd /\ is_uint c /\ is_uint d /\
    s1 = with_manager s (set_trove m b (mkChainTrove d c (t_stake t) (t_status t) (t_arrayIndex t))).
Proof.
  intros Ucc Und H. unfold _updateTroveFromAdjustment, this in H.
  apply call_bind_Ok in H as (me & ? & [_ ->]%view_call_Ok & H). apply call_bind_Ok in H as (x & s0 & Hc0 & H).
  apply call_bind_Ok in H as (y & s2 & Hc1 & H). injection H as _ <-.
  assert (exists c, c = t_coll t + signed ci cc /\ is_uint c /\ s0 = with_manager s (set_trove m b (set_coll t c)))
    as (c & Ec & Uc & ->).
  { destruct ci; apply guarded_Ok in Hc0 as (m1 & E & ->); inv_result; safe_math;
      eexists; (split; [|split; [eassumption|done]]); cbn; lia. }
  assert (exists d, d = t_debt t + signed di nd /\ is_uint d /\
    s2 = with_manager (with_manager s (set_trove m b (set_coll t c)))
           (set_trove (set_trove m b (set_coll t c)) b (set_debt_ (set_coll t c) d))) as (d & Ed & Ud & ->).
  { destruct di; apply guarded_Ok in Hc1 as (m1 & E & ->); read_storage; rewrite trove_set, decide_True in E by done;
      read_storage; inv_result; safe_math;
      eexists; (split; [|split; [eassumption|done]]); cbn; lia. }
  exists c, d. split_and!; try done. by rewrite set_trove_twice.
Qed.

(** The manager after the Trove is set to [c], [d] with a new stake [k]. *)
Lemma adjusted_ok c d k n : is_uint c -> is_uint d -> is_uint k -> 0 < c -> MIN_NET_DEBT + ZUSD_GAS_COMPENSATION <= d ->
  n = totalStakes m - t_stake t + k -> is_uint n ->
  let m' := set_totalStakes (set_trove m b (mkChainTrove d c k (t_status t) (t_arrayIndex t))) n in
  touched b m m' /\ manager_ok m' /\ trove m' b = mkChainTrove d c k (t_status t) (t_arrayIndex t) /\
  eth_due m' = eth_due m.
Proof.
  intros Uc Ud Uk Pc Pd En Un m'. pose proof (i_manager _ _ _ _ B) as M. pose proof (m_troves _ M b) as T.
  assert (touched b m m') as H by (etrans; [apply touched_set|apply touched_totalStakes]).
  assert (trove m' b = mkChainTrove d c k (t_status t) (t_arrayIndex t)) as Et.
  { unfold m'. change (trove (set_totalStakes ?x _)) with (trove x). by rewrite trove_set, decide_True. }
  assert (is_active m' b = true) as A' by (unfold is_active in *; by rewrite Et).
  assert (snapshot m' b = snapshot m b) as Es by done.
  split_and!; try done.
  - apply (entry_ok m m' b); try done; [|by rewrite Et].
    split; rewrite ?Et, ?A', ?Es; try done; try apply T.
  - pose proof (eth_due_change b m m' H) as E. rewrite Es in E. unfold current in C. rewrite C in E. lia.
Qed.

Lemma new_coll_positive cc ci nd di n : is_uint cc -> is_uint nd ->
  _getNewNominalICRFromTroveChange (t_coll t) (t_debt t) cc ci nd di = Ok n -> 0 < n ->
  MIN_NET_DEBT + ZUSD_GAS_COMPENSATION <= t_debt t + signed di nd -> 0 < t_coll t + signed ci cc.
Proof.
  intros Ucc Und H Pn Hmin. pose proof (m_troves _ (i_manager _ _ _ _ B) b) as T.
  unfold _getNewNominalICRFromTroveChange, _getNewTroveAmounts in H. inv_result.
  match goal with E1 : changed (t_coll _) _ _ = Ok _, E2 : changed (t_debt _) _ _ = Ok _ |- _ =>
    apply changed_Ok in E1 as [-> U1]; [|apply T|done]; apply changed_Ok in E2 as [-> U2]; [|apply T|done] end.
  apply (nominal_positive _ _ n U1 U2); try done. unfold MIN_NET_DEBT, ZUSD_GAS_COMPENSATION in *. lia.
Qed.

(** The Trove is set to [c], [d] with a new stake, and stands elsewhere in the list. *)
Lemma restaked_books c d k n st l' : is_uint c -> is_uint d -> is_uint k -> 0 < c -> MIN_NET_DEBT + ZUSD_GAS_COMPENSATION <= d ->
  n = totalStakes m - t_stake t + k -> is_uint n ->
  rep (data st) l' -> l' ≡ₚ TroveOwners m -> is_uint (size (data st)) -> same_owner (sorted s) st ->
  let s' := with_sorted (with_manager s (set_totalStakes (set_trove m b (mkChainTrove d c k (t_status t) (t_arrayIndex t))) n)) st in
  books (dc + c - t_coll t) (dd + d - t_debt t) ds s' /\ aside s s' /\ touched b m (manager s') /\
  t_coll (trove (manager s') b) = c /\ t_debt (trove (manager s') b) = d.
Proof.
  intros Uc Ud Uk Pc Hmin En Un R' Pl' Us So. destruct (adjusted_ok c d k _ Uc Ud Uk Pc Hmin En Un) as (Ht & M' & Et & Ee).
  set (m' := set_totalStakes _ _) in *. intros s'. pose proof (i_listed _ _ _ _ B) as L.
  assert (forall a, t_arrayIndex (trove m' a) = t_arrayIndex (trove m a) /\ is_active m' a = is_active m a) as I.
  { intros a. unfold is_active, m'. change (trove (set_totalStakes ?x _)) with (trove x). rewrite trove_set.
    by case_decide; [subst|]. }
  assert (listed s') as L'.
  { apply (listed_list s s' l'); try done; [intros a; apply I|intros a; apply I]. }
  split_and!; [|done|done|by cbn; rewrite Et|by cbn; rewrite Et].
  replace c with (t_coll (trove (manager s') b)) by (cbn; by rewrite Et).
  replace d with (t_debt (trove (manager s') b)) by (cbn; by rewrite Et).
  apply (books_aside b dc dd ds s s'); try done; cbn [manager s' with_sorted with_manager]; lia.
Qed.

(** The new stake, and the Trove re-inserted where its ratio belongs. *)
Lemma restake_block c d s1 me k s2 n up low u s' :
  s1 = with_manager s (set_trove m b (mkChainTrove d c (t_stake t) (t_status t) (t_arrayIndex t))) ->
  is_uint c -> is_uint d -> updateStakeAndTotalStakes me b s1 = Ok (k, s2) ->
  sorted_reInsert W b n up low s2 = Ok (u, s') -> (0 < n -> 0 < c) -> MIN_NET_DEBT + ZUSD_GAS_COMPENSATION <= d ->
  books (dc + c - t_coll t) (dd + d - t_debt t) ds s' /\ aside s s' /\ touched b m (manager s') /\
  t_coll (trove (manager s') b) = c /\ t_debt (trove (manager s') b) = d.
Proof.
  intros -> Uc Ud H2 H4 Hc Hmin. pose proof (i_manager _ _ _ _ B) as M. pose proof (m_troves _ M b) as T.
  pose proof (i_listed _ _ _ _ B) as L. destruct (o_list _ L) as (l & R & Pl).
  apply guarded_Ok in H2 as (m2 & H2 & ->). read_storage.
  unfold _updateStakeAndTotalStakes in H2. rewrite trove_set, decide_True in H2 by done. read_storage. inv_result.
  match goal with E : _computeNewStake _ _ = Ok _ |- _ => pose proof (newStake_uint _ _ _ Uc E) as Uk end.
  change (totalStakes (set_trove ?x _ _)) with (totalStakes x) in *. safe_math. rewrite set_trove_twice in H4.
  unfold sorted_reInsert in H4. inv_result. read_storage.
  match goal with E : SortedTroves.reInsert _ _ _ _ _ _ _ _ = Ok _ |- _ =>
    destruct (reInsert_rep _ _ _ _ _ _ _ _ _ l R (o_size _ L) E) as (l' & R' & Pl' & Pn & Us & So) end.
  rewrite Pl in Pl'. exact (restaked_books c d k _ _ l' Uc Ud Uk (Hc Pn) Hmin eq_refl ltac:(eassumption) R' Pl' Us So).
Qed.

Lemma adjust_block cc ci nd di r s1 me k s2 n up low u s' :
  is_uint cc -> is_uint nd -> _updateTroveFromAdjustment b cc ci nd di s = Ok (r, s1) ->
  updateStakeAndTotalStakes me b s1 = Ok (k, s2) ->
  _getNewNominalICRFromTroveChange (t_coll t) (t_debt t) cc ci nd di = Ok n ->
  sorted_reInsert W b n up low s2 = Ok (u, s') ->
  MIN_NET_DEBT + ZUSD_GAS_COMPENSATION <= t_debt t + signed di nd ->
  books (dc + signed ci cc) (dd + signed di nd) ds s' /\ aside s s' /\ touched b m (manager s') /\
  t_coll (trove (manager s') b) = t_coll t + signed ci cc /\ t_debt (trove (manager s') b) = t_debt t + signed di nd.
Proof.
  intros Ucc Und H1 H2 H3 H4 Hmin.
  destruct (updateTrove_Ok _ _ _ _ _ _ Ucc Und H1) as (c & d & Ec & Ed & Uc & Ud & Es).
  destruct (restake_block c d s1 me k s2 n up low u s') as (B' & F & Ht & E1 & E2); try done.
  - subst c. intros Pn. by apply (new_coll_positive _ _ nd di n).
  - lia.
  - rewrite E1, E2. split_and!; try done. by replace (dc + signed ci cc) with (dc + c - t_coll t) by lia;
      replace (dd + signed di nd) with (dd + d - t_debt t) by lia.
Qed.
End Adjust.

(** ** Moving tokens and ether *)

Lemma books_active dc dd ds s p : books dc dd ds s -> is_uint (pool_ETH p) -> is_uint (pool_ZUSDDebt p) ->
  pool_ETH p <= ether_of s (activePool (wiring s)) ->
  books (dc + pool_ETH (active_pool s) - pool_ETH p) (dd + pool_ZUSDDebt (active_pool s) - pool_ZUSDDebt p)
        (ds + pool_ZUSDDebt (active_pool s) - pool_ZUSDDebt p) (with_active s p).
Proof.
  intros B U1 U2 F. split; try apply B; cbn.
  - destruct (i_wired _ _ _ _ B). by split.
  - destruct (i_pools _ _ _ _ B). split; cbn; try done; lia.
  - destruct (i_listed _ _ _ _ B). by split.
  - destruct (i_funded _ _ _ _ B). by split.
Qed.

Lemma books_debt dc dd ds s k : books dc dd ds s -> is_uint (pool_ZUSDDebt (active_pool s) + k) ->
  books dc (dd - k) (ds - k) (ActivePool.set_debt s (pool_ZUSDDebt (active_pool s) + k)).
Proof.
  intros B U. pose proof (i_pools _ _ _ _ B) as P.
  pose proof (books_active dc dd ds s (mkPool (pool_ETH (active_pool s)) (pool_ZUSDDebt (active_pool s) + k)) B
    ltac:(uint) U (f_active _ (i_funded _ _ _ _ B))) as Q. cbn [pool_ETH pool_ZUSDDebt] in Q.
  replace dc with (dc + pool_ETH (active_pool s) - pool_ETH (active_pool s)) by lia.
  replace (dd - k) with (dd + pool_ZUSDDebt (active_pool s) - (pool_ZUSDDebt (active_pool s) + k)) by lia.
  replace (ds - k) with (ds + pool_ZUSDDebt (active_pool s) - (pool_ZUSDDebt (active_pool s) + k)) by lia. exact Q.
Qed.

Lemma books_eth dc dd ds s k : books dc dd ds s -> is_uint (pool_ETH (active_pool s) + k) ->
  pool_ETH (active_pool s) + k <= ether_of s (activePool (wiring s)) ->
  books (dc - k) dd ds (ActivePool.set_ETH s (pool_ETH (active_pool s) + k)).
Proof.
  intros B U L. pose proof (i_pools _ _ _ _ B) as P.
  pose proof (books_active dc dd ds s (mkPool (pool_ETH (active_pool s) + k) (pool_ZUSDDebt (active_pool s))) B
    U ltac:(uint) L) as Q. cbn [pool_ETH pool_ZUSDDebt] in Q.
  replace (dc - k) with (dc + pool_ETH (active_pool s) - (pool_ETH (active_pool s) + k)) by lia.
  replace dd with (dd + pool_ZUSDDebt (active_pool s) - pool_ZUSDDebt (active_pool s)) by lia.
  replace ds with (ds + pool_ZUSDDebt (active_pool s) - pool_ZUSDDebt (active_pool s)) by lia. exact Q.
Qed.

Lemma books_ether dc dd ds s e : books dc dd ds s -> funded (with_ether s e) -> books dc dd ds (with_ether s e).
Proof.
  intros B F. split; try apply B; try done.
  - destruct (i_wired _ _ _ _ B). by split.
  - destruct (i_pools _ _ _ _ B). by split.
  - destruct (i_listed _ _ _ _ B). by split.
Qed.

(** Everything but the active pool, the token and the ether. *)
Record beside (s s' : System) : Prop := {
  be_wiring : wiring s' = wiring s;
  be_params : params s' = params s;
  be_manager : manager s' = manager s;
  be_default : default_pool s' = default_pool s;
  be_sorted : sorted s' = sorted s;
  be_surplus : surplus s' = surplus s;
  be_stability : stability s' = stability s }.

#[export] Instance beside_preorder : PreOrder beside.
Proof. split; [by intros s; split|]. intros s1 s2 s3 H1 H2. destruct H1, H2. split; congruence. Qed.

Lemma beside_active s p : beside s (with_active s p).
Proof. done. Qed.

Lemma beside_ether s e : beside s (with_ether s e).
Proof. done. Qed.

Lemma quietly_mint me account n : is_uint n -> quietly (fun _ => n) (mint me account n).
Proof. intros U. apply quietly_token. intros t t' K H. by apply (mint_token t account n). Qed.

Lemma quietly_burn me account n : is_uint n -> quietly (fun _ => - n) (burn me account n).
Proof.
  intros U. apply quietly_token. intros t t' K H. destruct (burn_token t account n t' K U H) as (? & ? & _).
  split; [done|lia].
Qed.

Lemma burn_moves me account n s u s' : token_ok (zusd s) -> is_uint n -> burn me account n s = Ok (u, s') ->
  forall a, balance (zusd s') a = balance (zusd s) a - (if decide (a = account) then n else 0).
Proof. intros K U H. unfold burn, token_call in H. inv_result. by eapply burn_balances. Qed.

Lemma return_moves me pool receiver n s u s' : token_ok (zusd s) -> is_uint n -> returnFromPool me pool receiver n s = Ok (u, s') ->
  forall a, balance (zusd s') a = balance (zusd s) a - (if decide (a = pool) then n else 0) + (if decide (a = receiver) then n else 0).
Proof.
  intros K U H. unfold returnFromPool, token_call in H. inv_result.
  match goal with E : _transfer _ _ _ _ = Ok _ |- _ => by apply (transfer_balances _ _ _ _ _ K U) in E as (_ & _ & ?) end.
Qed.

Lemma token_beside g msg f s u s' : token_call g msg f s = Ok (u, s') ->
  beside s s' /\ active_pool s' = active_pool s.
Proof. unfold token_call. intros H. inv_result. by split. Qed.

(** A pool pays an account outside of the protocol. *)
Lemma funded_out s s' from to n : funded s -> wiring s' = wiring s -> outsider (wiring s) to -> 0 <= n -> n <= ether_of s from ->
  total (fun _ n => n) (ether s') = total (fun _ n => n) (ether s) ->
  (forall a, ether_of s' a = ether_of s a - (if decide (a = from) then n else 0) + (if decide (a = to) then n else 0)) ->
  pool_ETH (active_pool s') = pool_ETH (active_pool s) - (if decide (activePool (wiring s) = from) then n else 0) ->
  pool_ETH (default_pool s') = pool_ETH (default_pool s) - (if decide (defaultPool (wiring s) = from) then n else 0) ->
  surplus_ETH (surplus s') = surplus_ETH (surplus s) - (if decide (collSurplusPool (wiring s) = from) then n else 0) ->
  sp_ETH (stability s') = sp_ETH (stability s) - (if decide (stabilityPool (wiring s) = from) then n else 0) -> funded s'.
Proof.
  intros F Ew Ho Pn Ln Et Ee E1 E2 E3 E4.
  assert (forall a, a ∈ pools (wiring s) -> ether_of s' a = ether_of s a - (if decide (a = from) then n else 0)) as Ep.
  { intros a Ha. rewrite Ee, (decide_False (P := a = to)); [lia|]. intros ->. by apply Ho, pools_core. }
  apply (funded_update s); rewrite ?E1, ?E2, ?E3, ?E4; try done.
  - intros a. rewrite Ee. pose proof (f_nonneg _ F a). repeat case_decide; subst; lia.
  - rewrite Ep; [lia|unfold pools; rewrite !elem_of_cons; tauto].
  - rewrite Ep; [lia|unfold pools; rewrite !elem_of_cons; tauto].
  - rewrite Ep; [lia|unfold pools; rewrite !elem_of_cons; tauto].
  - rewrite Ep; [lia|unfold pools; rewrite !elem_of_cons; tauto].
Qed.

Section Money.
Context (recv : address -> address -> Z -> call System unit) (dc dd ds : Z) (s : System) (B : books dc dd ds s).

Lemma mintDebt_books account n k u s' : is_uint n -> is_uint k ->
  _mintZusdAndIncreaseActivePoolDebt account n k s = Ok (u, s') ->
  books dc (dd - k) (ds - k + n) s' /\ beside s s' /\
  active_pool s' = mkPool (pool_ETH (active_pool s)) (pool_ZUSDDebt (active_pool s) + k).
Proof.
  intros Un Uk H. unfold _mintZusdAndIncreaseActivePoolDebt, this in H. pose proof (i_pools _ _ _ _ B) as P.
  apply call_bind_Ok in H as (me & ? & [_ ->]%view_call_Ok & H). apply call_bind_Ok in H as (v & s1 & H1 & H).
  unfold ActivePool.increaseZUSDDebt, by_BO_TM in H1. inv_result. safe_math.
  pose proof (books_debt dc dd ds s k B ltac:(done)) as B1.
  destruct (quietly_mint _ _ _ Un _ _ _ _ _ _ B1 H) as [B2 _]. apply token_beside in H as [F E].
  split_and!; [done|etrans; [apply beside_active|exact F]|exact E].
Qed.

Lemma burnDebt_books account n u s' : is_uint n ->
  _burnZusdAndDecreaseActivePoolDebt account n s = Ok (u, s') ->
  books dc (dd + n) ds s' /\ beside s s' /\
  active_pool s' = mkPool (pool_ETH (active_pool s)) (pool_ZUSDDebt (active_pool s) - n).
Proof.
  intros Un H. unfold _burnZusdAndDecreaseActivePoolDebt, this in H. pose proof (i_pools _ _ _ _ B) as P.
  apply call_bind_Ok in H as (me & ? & [_ ->]%view_call_Ok & H). apply call_bind_Ok in H as (v & s1 & H1 & H).
  unfold ActivePool.decreaseZUSDDebt, ActivePool.by_BO_TM_SP in H1. inv_result. safe_math.
  pose proof (books_debt dc dd ds s (- n) B ltac:(done)) as B1.
  change (pool_ZUSDDebt (active_pool s) + - n) with (pool_ZUSDDebt (active_pool s) - n) in B1.
  destruct (quietly_burn _ _ _ Un _ _ _ _ _ _ B1 H) as [B2 _]. apply token_beside in H as [F E].
  split_and!; [|etrans; [apply beside_active|exact F]|exact E].
  replace (dd + n) with (dd - - n) by lia. replace ds with (ds - - n + - n) by lia. done.
Qed.

(** BorrowerOperations pays the active pool. *)
Lemma addColl_books n u s' : is_uint n -> _activePoolAddColl recv n s = Ok (u, s') ->
  books (dc - n) dd ds s' /\ beside s s' /\
  active_pool s' = mkPool (pool_ETH (active_pool s) + n) (pool_ZUSDDebt (active_pool s)).
Proof.
  intros Un H. unfold _activePoolAddColl, this in H. pose proof (i_pools _ _ _ _ B) as P.
  apply call_bind_Ok in H as (me & ? & [[= <-] ->]%view_call_Ok & H).
  apply call_bind_Ok in H as (pool & ? & [[= <-] ->]%view_call_Ok & H). apply or_revert_Ok in H.
  apply call_bind_Ok in H as (v & s1 & H1 & H). pose proof (w_nodup _ (i_wired _ _ _ _ B)) as N.
  assert (borrowerOperations (wiring s) ∉ pools (wiring s)) as Np.
  { unfold pools. rewrite !not_elem_of_cons. split_and!; [apply same_false; by decide_core N..|apply not_elem_of_nil]. }
  destruct (pay_books _ _ _ _ _ _ _ _ _ B H1 (proj1 Un) Np) as [B1 _].
  apply pay_Ok in H1 as (_ & e & -> & _ & Ee).
  assert (is_core (with_ether s e) (activePool (wiring s)) = true) as C.
  { apply bool_decide_eq_true. cbn [wiring with_ether]. unfold core. rewrite !elem_of_cons. tauto. }
  rewrite C in H. unfold receive_core, ActivePool.receive in H. read_storage. rewrite same_refl in H. inv_result. read_storage. safe_math.
  split_and!; try done. apply (books_eth dc dd ds (with_ether s e)); [done|done|]. cbn [active_pool wiring with_ether].
  rewrite ether_with, Ee, decide_False, decide_True by (done || (apply same_false; by decide_core N)).
  pose proof (f_active _ (i_funded _ _ _ _ B)). cbn. lia.
Qed.

(** The active pool pays an account outside of the protocol, whose code runs last. *)
Lemma sendETH_books me account n u s' : is_uint n -> outsider (wiring s) account ->
  ActivePool.sendETH (transfer recv) me account n s = Ok (u, s') ->
  exists s1, books (dc + n) dd ds s1 /\ beside s s1 /\
    active_pool s1 = mkPool (pool_ETH (active_pool s) - n) (pool_ZUSDDebt (active_pool s)) /\
    zusd s1 = zusd s /\ recv (activePool (wiring s)) account n s1 = Ok (u, s').
Proof.
  intros Un Ho H. unfold ActivePool.sendETH, ActivePool.by_BO_TM_SP in H. pose proof (i_pools _ _ _ _ B) as P.
  apply call_bind_Ok in H as (v & s1 & H1 & H). inv_result. safe_math. apply or_revert_Ok in H.
  apply call_bind_Ok in H as (x & s2 & H2 & H). read_storage.
  pose proof (i_funded _ _ _ _ B) as F. pose proof (f_active _ F) as Fa. pose proof (proj1 Un) as Pn.
  pose proof (books_eth dc dd ds s (- n) B ltac:(done) ltac:(lia)) as B1.
  apply pay_Ok in H2 as (_ & e & -> & Te & Ee). read_storage.
  assert (forall a, a ∈ core (wiring s) -> a <> account) as Na by (intros a Ha ->; by apply Ho).
  match type of H with context [is_core ?x account] =>
    assert (is_core x account = false) as Nc by (by apply bool_decide_eq_false_2); rewrite Nc in H end.
  eexists. split_and!; [|..|exact H]; [|done|done|done].
  change (pool_ETH (active_pool s) + - n) with (pool_ETH (active_pool s) - n) in B1.
  replace (dc + n) with (dc - - n) by lia. apply books_ether; [done|]. pose proof (w_nodup _ (i_wired _ _ _ _ B)) as N.
  apply (funded_out s _ (activePool (wiring s)) account n); try done; cbn [active_pool default_pool surplus stability with_ether with_active pool_ETH].
  - lia.
  - by rewrite decide_True.
  - by rewrite decide_False, Z.sub_0_r by (apply same_false; by decide_core N).
  - by rewrite decide_False, Z.sub_0_r by (apply same_false; by decide_core N).
  - by rewrite decide_False, Z.sub_0_r by (apply same_false; by decide_core N).
Qed.
End Money.

(** ** Opening *)

Lemma active_entry m a : is_active m a = true -> Troves m !! a = Some (trove m a).
Proof. unfold is_active, trove. destruct (Troves m !! a); [done|]. cbn. by case_bool_decide. Qed.

(** There are fewer owners than wei in existence. *)
Lemma owners_bound dc dd ds s : books dc dd ds s -> dc <= 0 -> Z.of_nat (length (TroveOwners (manager s))) < 2 ^ 128.
Proof.
  intros B Hdc. pose proof (i_manager _ _ _ _ B) as M. pose proof (i_listed _ _ _ _ B) as L. pose proof (i_funded _ _ _ _ B) as F.
  assert (Z.of_nat (length (TroveOwners (manager s))) <= colls (manager s)) as H1.
  { apply total_count; [|apply L|].
    - intros a x Ha. pose proof (t_coll_uint _ _ (m_troves _ M a)) as U. unfold trove in U. rewrite Ha in U. apply U.
    - intros a Ha. apply (o_active _ L) in Ha. exists (trove (manager s) a). split; [by apply active_entry|].
      pose proof (t_backed _ _ (m_troves _ M a) Ha). lia. }
  rewrite (b_colls _ _ _ _ (i_pools _ _ _ _ B)) in H1. pose proof (f_active _ F) as Fa. pose proof (f_total _ F) as Ft.
  assert (ether_of s (activePool (wiring s)) <= total (fun _ n => n) (ether s)); [|lia].
  unfold ether_of. assert (forall a x, ether s !! a = Some x -> 0 <= x) as Pos.
  { intros a x Ha. pose proof (f_nonneg _ F a) as Fn. unfold ether_of in Fn. by rewrite Ha in Fn. }
  destruct (ether s !! activePool (wiring s)) eqn:E; cbn; [by apply (total_elem (fun _ n => n) _ _ _ Pos) in E|by apply total_nonneg].
Qed.

(** The storage of TroveManager after a Trove is opened. *)
Definition opened (m : Manager) (b : address) (coll debt k n i : Z) : Manager :=
  set_trove (set_owners (set_totalStakes (set_snapshot m b (mkChainSnapshot (L_ETH m) (L_ZUSDDebt m))) n)
               (TroveOwners m ++ [b])) b (mkChainTrove debt coll k active_ i).

Section Opened.
Context (m : Manager) (b : address) (coll debt k n i : Z).
Abbreviation m' := (opened m b coll debt k n i).

Lemma opened_trove a : trove m' a = if decide (a = b) then mkChainTrove debt coll k active_ i else trove m a.
Proof. unfold opened. by rewrite trove_set. Qed.

Lemma opened_snapshot : snapshot m' b = mkChainSnapshot (L_ETH m) (L_ZUSDDebt m).
Proof.
  unfold opened. change (snapshot (set_trove (set_owners (set_totalStakes ?x _) _) _ _)) with (snapshot x).
  by rewrite snapshot_set, decide_True.
Qed.

Lemma opened_touched : touched b m m'.
Proof.
  etrans; [apply (touched_snapshot m b)|]. etrans; [apply touched_totalStakes|].
  etrans; [apply touched_owners|]. apply touched_set.
Qed.

Lemma opened_ok : manager_ok m -> is_active m b = false -> is_uint coll -> is_uint debt -> is_uint k ->
  0 < coll -> MIN_NET_DEBT + ZUSD_GAS_COMPENSATION <= debt -> n = totalStakes m + k -> is_uint n -> manager_ok m'.
Proof.
  intros M A Uc Ud Uk Pc Pd En Un. pose proof opened_touched as H. pose proof (opened_trove b) as Et.
  rewrite decide_True in Et by done. destruct (t_closed _ _ (m_troves _ M b) A) as (_ & _ & Z0).
  assert (is_active m' b = true) as A' by (unfold is_active; by rewrite Et).
  apply (entry_ok m m' b); try done; [|cbn [totalStakes opened set_trove set_owners set_totalStakes]; rewrite Et; cbn; lia].
  split; rewrite ?A', ?opened_snapshot, ?Et, ?(h_L_ETH _ _ _ H), ?(h_L_debt _ _ _ H); cbn; try done.
  - pose proof (m_L_ETH _ M). unfold is_uint in *. lia.
  - pose proof (m_L_debt _ M). unfold is_uint in *. lia.
Qed.

Lemma opened_due : manager_ok m -> is_active m b = false -> eth_due m' = eth_due m.
Proof.
  intros M A. pose proof opened_touched as H. pose proof (opened_trove b) as Et. rewrite decide_True in Et by done.
  destruct (t_closed _ _ (m_troves _ M b) A) as (_ & _ & Z0).
  pose proof (eth_due_change b m m' H) as E1. rewrite opened_snapshot, Et, Z0 in *. cbn in *. lia.
Qed.

Lemma opened_active a : is_active m' a = bool_decide (a = b) || is_active m a.
Proof.
  unfold is_active. rewrite opened_trove. case_decide; subst.
  - rewrite (bool_decide_eq_true_2 (b = b)) by done. by apply bool_decide_eq_true.
  - by rewrite (bool_decide_eq_false_2 (a = b)).
Qed.
End Opened.

Lemma opened_listed s s' b coll debt k n l' : listed s -> is_active (manager s) b = false ->
  manager s' = opened (manager s) b coll debt k n (Z.of_nat (length (TroveOwners (manager s)))) ->
  rep (data (sorted s')) l' -> l' ≡ₚ b :: TroveOwners (manager s) -> is_uint (size (data (sorted s'))) -> listed s'.
Proof.
  intros L A Em R P U.
  assert (b ∉ TroveOwners (manager s)) as Nb by (rewrite (o_active _ L), A; done).
  assert (TroveOwners (manager s') = TroveOwners (manager s) ++ [b]) as Eo by (by rewrite Em).
  split; rewrite ?Eo; try done.
  - apply NoDup_app. split_and!; [apply L| |apply NoDup_singleton]. intros a Ha Hb. apply list_elem_of_singleton in Hb as ->. done.
  - intros i a Ha. rewrite Em, opened_trove. apply lookup_app_Some in Ha as [Ha|[Hi Ha]].
    + rewrite decide_False; [by apply (o_index _ L)|]. intros ->. apply Nb. by apply list_elem_of_lookup_2 with i.
    + apply list_lookup_singleton_Some in Ha as [Hi' <-]. rewrite decide_True by done. cbn. lia.
  - intros a. rewrite Em, opened_active, elem_of_app, list_elem_of_singleton, (o_active _ L), orb_true_iff, bool_decide_eq_true. tauto.
  - exists l'. split; [done|]. by rewrite P, Permutation_cons_append.
Qed.

Lemma addOwner_Ok m b i m' : Z.of_nat (length (TroveOwners m)) < 2 ^ 128 -> _addTroveOwnerToArray m b = Ok (i, m') ->
  i = Z.of_nat (length (TroveOwners m)) /\
  m' = set_trove (set_owners m (TroveOwners m ++ [b])) b (set_index (trove m b) (Z.of_nat (length (TroveOwners m)))).
Proof.
  intros Hn H. unfold _addTroveOwnerToArray in H. cbn [TroveOwners set_owners] in H. rewrite length_app in H. cbn [length] in H.
  pose proof UINT256_big. rewrite sub_fits in H by (unfold is_uint; lia). cbn [bind] in H. injection H as <- <-.
  replace (Z.of_nat (length (TroveOwners m) + 1) - 1) with (Z.of_nat (length (TroveOwners m))) by lia.
  rewrite (Z.mod_small (Z.of_nat (length (TroveOwners m)))) by lia. split; reflexivity.
Qed.

Section Open.
Context (W : World) (dd ds : Z) (s : System) (b : address).
Context (B : books 0 dd ds s) (A : is_active (manager s) b = false).
Abbreviation m := (manager s).

(** The Trove is written field by field. *)
Lemma write_trove me v d x1 s1 x2 s2 x3 s3 x4 s4 : is_uint v -> is_uint d ->
  setTroveStatus me b 1 s = Ok (x1, s1) -> increaseTroveColl me b v s1 = Ok (x2, s2) ->
  increaseTroveDebt me b d s2 = Ok (x3, s3) -> updateTroveRewardSnapshots me b s3 = Ok (x4, s4) ->
  s4 = with_manager s (set_trove (set_snapshot m b (mkChainSnapshot (L_ETH m) (L_ZUSDDebt m))) b
                         (mkChainTrove d v 0 active_ (t_arrayIndex (trove m b)))).
Proof.
  intros Uv Ud H1 H2 H3 H4. destruct (t_closed _ _ (m_troves _ (i_manager _ _ _ _ B) b) A) as (C0 & D0 & S0).
  apply guarded_Ok in H1 as (m1 & H1 & ->). cbn in H1. injection H1 as <- <-.
  apply guarded_Ok in H2 as (m2 & H2 & ->). read_storage. rewrite trove_set, decide_True in H2 by done.
  cbn in H2. rewrite C0 in H2. inv_result. safe_math.
  apply guarded_Ok in H3 as (m3 & H3 & ->). read_storage. rewrite trove_set, decide_True in H3 by done.
  cbn in H3. rewrite D0 in H3. inv_result. safe_math.
  apply guarded_Ok in H4 as (m4 & H4 & ->). inv_result. read_storage. unfold _updateTroveRewardSnapshots.
  rewrite !set_trove_twice. unfold set_debt_, set_coll, set_status. cbn [t_stake t_debt t_coll t_status t_arrayIndex].
  by rewrite S0, !Z.add_0_l.
Qed.

(** The stake, the list and the array of owners. *)
Lemma enlist_trove me v d s4 k s5 n up low u s6 i s' : is_uint v -> is_uint d ->
  s4 = with_manager s (set_trove (set_snapshot m b (mkChainSnapshot (L_ETH m) (L_ZUSDDebt m))) b
                         (mkChainTrove d v 0 active_ (t_arrayIndex (trove m b)))) ->
  updateStakeAndTotalStakes me b s4 = Ok (k, s5) -> sorted_insert W b n up low s5 = Ok (u, s6) ->
  addTroveOwnerToArray me b s6 = Ok (i, s') ->
  is_uint k /\ is_uint (totalStakes m + k) /\ 0 < n /\
  manager s' = opened m b v d k (totalStakes m + k) (Z.of_nat (length (TroveOwners m))) /\ aside s s' /\ listed s'.
Proof.
  intros Uv Ud -> H5 H6 H7. pose proof (i_manager _ _ _ _ B) as M. pose proof (i_listed _ _ _ _ B) as L.
  destruct (o_list _ L) as (l & R & Pl). pose proof (owners_bound _ _ _ _ B ltac:(done)) as Hn.
  apply guarded_Ok in H5 as (m5 & H5 & ->). read_storage. unfold _updateStakeAndTotalStakes in H5.
  rewrite trove_set, decide_True in H5 by done. cbn [t_coll t_stake] in H5. inv_result.
  match goal with E : _computeNewStake _ _ = Ok _ |- _ => pose proof (newStake_uint _ _ _ Uv E) as Uk end.
  change (totalStakes (set_trove (set_snapshot ?x _ _) _ _)) with (totalStakes x) in *. safe_math.
  rewrite Z.sub_0_r in *. rewrite set_trove_twice in H6.
  unfold sorted_insert in H6. inv_result. read_storage.
  match goal with E : SortedTroves.insert _ _ _ _ _ _ _ _ = Ok _ |- _ =>
    destruct (insert_rep _ _ _ _ _ _ _ _ _ l R (o_size _ L) E) as (l' & R' & Pl' & Nl & Pn & Us & So) end.
  apply guarded_Ok in H7 as (m7 & H7 & ->). read_storage. apply addOwner_Ok in H7 as [-> ->]; [|done].
  match goal with |- context [with_manager ?x ?y] => set (s' := with_manager x y) end.
  assert (manager s' = opened m b v d k (totalStakes m + k) (Z.of_nat (length (TroveOwners m)))) as Em.
  { unfold s', opened. cbn [manager with_manager].
    change (trove (set_totalStakes ?x _)) with (trove x). rewrite trove_set, decide_True by done.
    change (set_trove (set_owners (set_totalStakes (set_trove ?x b ?t) ?n) ?o) b ?t')
      with (set_owners (set_totalStakes (set_trove (set_trove x b t) b t') n) o).
    by rewrite set_trove_twice. }
  split_and!; try done. apply (opened_listed s s' b v d k (totalStakes m + k) l'); try done. by rewrite Pl', Pl.
Qed.

Lemma open_block me v d x1 s1 x2 s2 x3 s3 x4 s4 k s5 n up low u s6 i s' : is_uint v -> is_uint d ->
  MIN_NET_DEBT + ZUSD_GAS_COMPENSATION <= d -> _computeNominalCR v d = Ok n ->
  setTroveStatus me b 1 s = Ok (x1, s1) -> increaseTroveColl me b v s1 = Ok (x2, s2) ->
  increaseTroveDebt me b d s2 = Ok (x3, s3) -> updateTroveRewardSnapshots me b s3 = Ok (x4, s4) ->
  updateStakeAndTotalStakes me b s4 = Ok (k, s5) -> sorted_insert W b n up low s5 = Ok (u, s6) ->
  addTroveOwnerToArray me b s6 = Ok (i, s') ->
  books v (dd + d) ds s' /\ aside s s' /\
  manager s' = opened m b v d k (totalStakes m + k) (Z.of_nat (length (TroveOwners m))).
Proof.
  intros Uv Ud Hmin Hn H1 H2 H3 H4 H5 H6 H7. pose proof (i_manager _ _ _ _ B) as M.
  pose proof (write_trove _ _ _ _ _ _ _ _ _ _ _ Uv Ud H1 H2 H3 H4) as E4.
  destruct (enlist_trove _ _ _ _ _ _ _ _ _ _ _ _ _ Uv Ud E4 H5 H6 H7) as (Uk & Un & Pn & Em & F & L).
  split_and!; try done. pose proof (opened_trove m b v d k (totalStakes m + k) (Z.of_nat (length (TroveOwners m))) b) as Et.
  rewrite decide_True, <- Em in Et by done. destruct (t_closed _ _ (m_troves _ M b) A) as (C0 & D0 & _).
  assert (0 < v) as Pv.
  { apply (nominal_positive v d n); try done. unfold MIN_NET_DEBT, ZUSD_GAS_COMPENSATION in *. lia. }
  pose proof (opened_due m b v d k (totalStakes m + k) (Z.of_nat (length (TroveOwners m))) M A) as Ee.
  replace v with (0 + t_coll (trove (manager s') b) - t_coll (trove m b)) by (rewrite Et, C0; cbn; lia).
  replace (dd + d) with (dd + t_debt (trove (manager s') b) - t_debt (trove m b)) by (rewrite Et, D0; cbn; lia).
  apply (books_aside b); try done; rewrite Em; [apply opened_touched|by apply opened_ok|lia].
Qed.
End Open.

(** ** Closing *)

(** The last element takes the place of the [i]th one. *)
Section SwapRemove.
Context {A : Type} `{EqDecision A} (l : list A) (i : nat) (b z : A).
Context (N : NoDup l) (Hi : l !! i = Some b) (Hz : l !! (length l - 1)%nat = Some z).
Abbreviation l' := (take (length l - 1) (<[i := z]> l)).

Lemma swap_lookup j a : l' !! j = Some a -> (j < length l - 1)%nat /\ ((j = i /\ a = z) \/ (j <> i /\ l !! j = Some a)).
Proof.
  intros H. apply lookup_take_Some in H as [H J]. split; [done|]. apply lookup_lt_Some in Hi.
  destruct (decide (j = i)) as [->|Ne]; [left|right].
  - rewrite list_lookup_insert_eq in H by done. by injection H as <-.
  - by rewrite list_lookup_insert_ne in H.
Qed.

Lemma swap_elem a : a ∈ l' <-> a ∈ l /\ a <> b.
Proof.
  pose proof (lookup_lt_Some _ _ _ Hi) as Li. pose proof (lookup_lt_Some _ _ _ Hz) as Lz. split.
  - intros (j & H)%list_elem_of_lookup. apply swap_lookup in H as [J [[-> ->]|[Ne H]]].
    + split; [by apply list_elem_of_lookup_2 in Hz|]. intros ->. pose proof (proj1 (NoDup_alt l) N _ _ _ Hi Hz). lia.
    + split; [by apply list_elem_of_lookup_2 in H|]. intros ->. by pose proof (proj1 (NoDup_alt l) N _ _ _ Hi H).
  - intros [(j & H)%list_elem_of_lookup Ne]. pose proof (lookup_lt_Some _ _ _ H) as Lj.
    assert (j <> i) as Nj by (intros ->; congruence). apply list_elem_of_lookup.
    destruct (decide (j = length l - 1)%nat) as [->|J].
    + exists i. apply lookup_take_Some. split; [|lia]. rewrite list_lookup_insert_eq by done. congruence.
    + exists j. apply lookup_take_Some. split; [|lia]. by rewrite list_lookup_insert_ne.
Qed.

Lemma swap_nodup : NoDup l'.
Proof.
  apply NoDup_alt. intros j k a Hj Hk. pose proof (lookup_lt_Some _ _ _ Hz) as Lz.
  apply swap_lookup in Hj as [J Hj]. apply swap_lookup in Hk as [K Hk]. pose proof (proj1 (NoDup_alt l) N) as U.
  destruct Hj as [[-> ->]|[Nj Hj]], Hk as [[-> Ek]|[Nk Hk]]; try done; [| |by apply (U _ _ a)].
  - pose proof (U _ _ _ Hk Hz). lia.
  - subst a. pose proof (U _ _ _ Hj Hz). lia.
Qed.

Lemma swap_perm : l ≡ₚ b :: l'.
Proof.
  apply NoDup_Permutation; [done|apply NoDup_cons; split; [rewrite swap_elem; tauto|apply swap_nodup]|].
  intros a. rewrite elem_of_cons, swap_elem. pose proof (list_elem_of_lookup_2 _ _ _ Hi) as Hb.
  destruct (decide (a = b)) as [->|]; tauto.
Qed.
End SwapRemove.

Lemma array_get_Ok l i a : array_get l i = Ok a -> l !! Z.to_nat i = Some a.
Proof.
  unfold array_get. destruct (Z.leb_spec 0 i), (Z.ltb_spec i (Z.of_nat (length l))); cbn; try done. intros [= <-].
  rewrite nth_lookup. destruct (lookup_lt_is_Some_2 l (Z.to_nat i)) as [x ->]; [lia|done].
Qed.

Definition swapped (m : Manager) (i : nat) (z : address) : Manager :=
  set_owners (set_trove m z (set_index (trove m z) (Z.of_nat i)))
    (take (length (TroveOwners m) - 1) (<[i := z]> (TroveOwners m))).

Lemma removeOwner_Ok m b i m' : Z.of_nat (length (TroveOwners m)) < 2 ^ 128 -> TroveOwners m !! i = Some b ->
  t_arrayIndex (trove m b) = Z.of_nat i -> _removeTroveOwner m b (Z.of_nat (length (TroveOwners m))) = Ok m' ->
  exists z, TroveOwners m !! (length (TroveOwners m) - 1)%nat = Some z /\ m' = swapped m i z.
Proof.
  intros Hn Hi Ei H. unfold _removeTroveOwner in H. inv_result. pose proof UINT256_big. pose proof (lookup_lt_Some _ _ _ Hi) as Li.
  match goal with E : SafeMath.sub _ _ = Ok _ |- _ => rewrite sub_fits in E by (unfold is_uint; lia); injection E as <- end.
  rewrite Ei in *. rewrite Nat2Z.id.
  match goal with E : array_get _ (_ - 1) = Ok ?z |- _ => apply array_get_Ok in E; exists z;
    replace (Z.to_nat (Z.of_nat (length (TroveOwners m)) - 1)) with (length (TroveOwners m) - 1)%nat in E by lia;
    rewrite E end.
  split; [done|]. by rewrite length_insert.
Qed.

Lemma swapped_trove m i z a : trove (swapped m i z) a =
  if decide (a = z) then set_index (trove m z) (Z.of_nat i) else trove m a.
Proof. unfold swapped. change (trove (set_owners ?x _)) with (trove x). apply trove_set. Qed.

Lemma swapped_like m i z a : like (trove (swapped m i z) a) (trove m a).
Proof. rewrite swapped_trove. by case_decide; [subst|]. Qed.

Lemma swapped_touched m b i z : touched b m (swapped m i z).
Proof. etrans; [apply touched_index|apply touched_owners]. Qed.

(** The storage of TroveManager when a Trove has been closed with status [st]. *)
Definition emptied (m : Manager) (b : address) (n : Z) (st : Status) : Manager :=
  set_snapshot (set_trove (set_totalStakes m n) b (mkChainTrove 0 0 0 st (t_arrayIndex (trove m b)))) b
    (mkChainSnapshot 0 0).

Section Emptied.
Context (m : Manager) (b : address) (n : Z) (st : Status) (i : nat) (z : address).
Context (M : manager_ok m) (Hst : st <> active_) (En : n = totalStakes m - t_stake (trove m b)) (Un : is_uint n).
Abbreviation m' := (swapped (emptied m b n st) i z).

Lemma emptied_trove a : trove (emptied m b n st) a =
  if decide (a = b) then mkChainTrove 0 0 0 st (t_arrayIndex (trove m b)) else trove m a.
Proof. unfold emptied. change (trove (set_snapshot ?x _ _)) with (trove x). by rewrite trove_set. Qed.

Lemma closed_touched : touched b m m'.
Proof.
  etrans; [apply touched_totalStakes|]. etrans; [apply touched_set|]. etrans; [apply touched_snapshot|].
  apply swapped_touched.
Qed.

Lemma closed_snapshot : snapshot m' b = mkChainSnapshot 0 0.
Proof. change (snapshot m') with (snapshot (emptied m b n st)). unfold emptied. by rewrite snapshot_set, decide_True. Qed.

Lemma closed_entry : t_debt (trove m' b) = 0 /\ t_coll (trove m' b) = 0 /\ t_stake (trove m' b) = 0 /\ t_status (trove m' b) = st.
Proof.
  destruct (swapped_like (emptied m b n st) i z b) as (-> & -> & -> & ->). by rewrite emptied_trove, decide_True.
Qed.

Lemma closed_active a : is_active m' a = true <-> is_active m a = true /\ a <> b.
Proof.
  unfold is_active. destruct (swapped_like (emptied m b n st) i z a) as (_ & _ & _ & ->). rewrite emptied_trove, !bool_decide_eq_true.
  case_decide; cbn; tauto.
Qed.

Lemma closed_ok : manager_ok m'.
Proof.
  destruct closed_entry as (Ed & Ec & Ek & Es). pose proof closed_touched as H.
  apply (entry_ok m m' b); try done; [|cbn; lia].
  assert (is_active m' b = false) as A' by (unfold is_active; rewrite Es; by apply bool_decide_eq_false).
  split; rewrite ?closed_snapshot, ?Ed, ?Ec, ?Ek, ?A', ?(h_L_ETH _ _ _ H), ?(h_L_debt _ _ _ H);
    try done; try apply zero_uint; cbn; pose proof (m_L_ETH _ M); pose proof (m_L_debt _ M); unfold is_uint in *; lia.
Qed.

Lemma closed_due : eth_due m' <= eth_due m.
Proof.
  destruct closed_entry as (_ & _ & Ek & _). pose proof (eth_due_change b m m' closed_touched) as E1. rewrite Ek in E1.
  pose proof (m_troves _ M b) as T. pose proof (t_stake_uint _ _ T). pose proof (t_snap_eth _ _ T). unfold is_uint in *. nia.
Qed.
End Emptied.

Lemma closed_listed s s' b n st i z l' : listed s -> st <> active_ -> TroveOwners (manager s) !! i = Some b ->
  TroveOwners (manager s) !! (length (TroveOwners (manager s)) - 1)%nat = Some z ->
  manager s' = swapped (emptied (manager s) b n st) i z ->
  rep (data (sorted s')) l' -> TroveOwners (manager s) ≡ₚ b :: l' -> is_uint (size (data (sorted s'))) -> listed s'.
Proof.
  intros L Hst Hi Hz Em R P U. pose proof (o_nodup _ L) as N.
  assert (TroveOwners (manager s') = take (length (TroveOwners (manager s)) - 1) (<[i := z]> (TroveOwners (manager s)))) as Eo
    by (by rewrite Em).
  split; rewrite ?Eo; try done.
  - by apply (swap_nodup _ i b z).
  - intros j a Ha. apply (swap_lookup _ i b z) in Ha as [J Ha]; [|done]. rewrite Em, swapped_trove.
    destruct Ha as [[-> ->]|[Nj Ha]]; [by rewrite decide_True|].
    rewrite decide_False, emptied_trove, decide_False; [by apply (o_index _ L)|..]; intros ->.
    + apply Nj. by apply (proj1 (NoDup_alt _) N _ _ b).
    + pose proof (proj1 (NoDup_alt _) N _ _ _ Ha Hz). lia.
  - intros a. rewrite (swap_elem _ i b z), (o_active _ L), Em, closed_active by done. done.
  - exists l'. split; [done|]. apply (Permutation_cons_inv (a := b)). by rewrite <- P, <- (swap_perm _ i b z).
Qed.

Section Close.
Context (dc dd ds : Z) (s : System) (b : address).
Context (B : books dc dd ds s) (A : is_active (manager s) b = true).
Context (Hn : Z.of_nat (length (TroveOwners (manager s))) < 2 ^ 128).
Abbreviation m := (manager s).
Abbreviation t := (trove m b).

(** The Trove is emptied and taken off the array and the list. *)
Lemma closed_books n st m2 l2 s' : n = totalStakes m - t_stake t -> is_uint n -> st <> active_ ->
  _removeTroveOwner (emptied m b n st) b (Z.of_nat (length (TroveOwners m))) = Ok m2 ->
  SortedTroves.remove (sorted s) (troveManager (wiring s)) b = Ok l2 ->
  s' = with_sorted (with_manager s m2) l2 ->
  books (dc - t_coll t) (dd - t_debt t) ds s' /\ aside s s' /\ touched b m (manager s') /\ t_status (trove (manager s') b) = st.
Proof.
  intros En Un Hst H2 H3 ->. pose proof (i_manager _ _ _ _ B) as M. pose proof (i_listed _ _ _ _ B) as L.
  destruct (o_list _ L) as (l & R & Pl). destruct (remove_list _ _ _ _ l R (o_size _ L) H3) as (l' & R' & Pl' & Us & So).
  destruct (proj1 (list_elem_of_lookup _ _) (proj2 (o_active _ L b) A)) as [i Hi].
  apply (removeOwner_Ok (emptied m b n st) b i) in H2 as (z & Hz & ->); [|done|done|rewrite emptied_trove, decide_True by done; by apply (o_index _ L)].
  change (TroveOwners (emptied m b n st)) with (TroveOwners m) in Hz.
  set (s' := with_sorted _ _). assert (aside s s') as F by done.
  split; [|split_and!; [done|apply closed_touched|apply closed_entry]].
  destruct (closed_entry m b n st i z) as (Ed & Ec & _). pose proof (closed_due m b n st i z M) as Ee.
  replace (dc - t_coll t) with (dc + t_coll (trove (manager s') b) - t_coll t) by (cbn [manager s' with_sorted with_manager]; lia).
  replace (dd - t_debt t) with (dd + t_debt (trove (manager s') b) - t_debt t) by (cbn [manager s' with_sorted with_manager]; lia).
  apply (books_aside b); try done; cbn [manager s' with_sorted with_manager];
    [apply closed_touched|by apply closed_ok|].
  apply (closed_listed s s' b n st i z l'); try done. by rewrite <- Pl, Pl'.
Qed.

Lemma end_block st m1 u s' : _removeStake m b = Ok m1 -> TroveManager._closeTrove b st (with_manager s m1) = Ok (u, s') -> st <> active_ ->
  books (dc - t_coll t) (dd - t_debt t) ds s' /\ aside s s' /\ touched b m (manager s') /\ t_status (trove (manager s') b) = st.
Proof.
  intros H1 H2 Hst. pose proof (i_manager _ _ _ _ B) as M. pose proof (m_troves _ M b) as T. unfold _removeStake in H1. inv_result. safe_math.
  unfold TroveManager._closeTrove in H2. inv_result. read_storage.
  rewrite trove_set, decide_True in * by done. unfold set_stake in *. cbn [t_stake t_arrayIndex] in *. rewrite set_trove_twice in *.
  match goal with E : _removeTroveOwner _ _ _ = Ok ?x, E3 : SortedTroves.remove _ _ _ = Ok ?y |- _ =>
    exact (closed_books _ st x y _ eq_refl ltac:(assumption) Hst E E3 eq_refl) end.
Qed.

Lemma close_block me x s1 u s' : removeStake me b s = Ok (x, s1) -> TroveManager.closeTrove me b s1 = Ok (u, s') ->
  books (dc - t_coll t) (dd - t_debt t) ds s' /\ aside s s' /\ touched b m (manager s') /\ is_active (manager s') b = false.
Proof.
  intros H1 H2. apply guarded_Ok in H1 as (m1 & H1 & ->). apply bind_Ok_inv in H1 as (m2 & H1 & [= <- <-]).
  unfold TroveManager.closeTrove in H2. apply bind_Ok_inv in H2 as (y & _ & H2).
  destruct (end_block _ _ _ _ H1 H2 ltac:(done)) as (B' & F' & T' & Es). split_and!; try done. unfold is_active. rewrite Es. by apply bool_decide_eq_false.
Qed.
End Close.
