(* ===== verification/BorrowerFacts.v ===== *)
(** * The operations of BorrowerOperations keep the books *)

From S2P Require Import Prelude Solidity Ledger SortedTroves SortedTrovesFacts ChainState ZUSDToken.
From S2P Require Import ActivePool DefaultPool CollSurplusPool Outside FeeDistributor TroveManager BorrowerOperations.
From S2P Require Import Invariant InvariantFacts TroveSteps BorrowerSteps.
Import LiquityMath.
Local Open Scope Z_scope.

(** Take the next call of a sequence. *)
Tactic Notation "run" hyp(H) "as" ident(x) ident(s) ident(E) := apply call_bind_Ok in H as (x & s & E & H).
Tactic Notation "view" hyp(H) "as" ident(x) ident(E) := apply call_bind_Ok in H as (x & ? & [E ->]%view_call_Ok & H).
Tactic Notation "pure" hyp(H) "as" ident(x) ident(E) := apply call_bind_Ok in H as (x & ? & [E ->]%pure_call_Ok & H).

(** ** Small facts *)

Lemma frame_trove s s' a : frame s s' -> trove (manager s') a = trove (manager s) a.
Proof. intros F. destruct (fr_manager _ _ F) as (r & x & ->). done. Qed.

Lemma frame_active s s' a : frame s s' -> is_active (manager s') a = is_active (manager s) a.
Proof. intros F. unfold is_active. by rewrite (frame_trove s). Qed.

Lemma frame_current s s' a : frame s s' -> current (manager s) a -> current (manager s') a.
Proof. intros F. destruct (fr_manager _ _ F) as (r & x & ->). done. Qed.

Lemma fee_uint s n fee : getBorrowingFee s n = Ok fee -> is_uint fee.
Proof.
  intros H. unfold getBorrowingFee, _calcBorrowingFee in H. inv_result.
  match goal with M : SafeMath.mul _ _ = Ok _ |- _ => apply mul_word in M; by destruct (div_Ok _ _ _ M H) as (_ & _ & ?) end.
Qed.

Lemma net_debt n : MIN_NET_DEBT <= n -> MIN_NET_DEBT + ZUSD_GAS_COMPENSATION <= n + ZUSD_GAS_COMPENSATION.
Proof. lia. Qed.

(** Books whose slacks are written differently. *)
Lemma books_eq a b c a' b' c' s : books a b c s -> a = a' -> b = b' -> c = c' -> books a' b' c' s.
Proof. by intros ? <- <- <-. Qed.
Ltac eqbooks B := apply (books_eq _ _ _ _ _ _ _ B); lia.

(** ** Totals of the system *)

Definition system_coll (s : System) : Z := pool_ETH (active_pool s) + pool_ETH (default_pool s).
Definition system_debt (s : System) : Z := pool_ZUSDDebt (active_pool s) + pool_ZUSDDebt (default_pool s).

(** The ratio checked before a change is the ratio after it. *)
Lemma new_TCR dc dd ds dc' dd' ds' s s' cc ci nd di price x : pools_ok dc dd ds s -> pools_ok dc' dd' ds' s' -> is_uint cc -> is_uint nd ->
  _getNewTCRFromTroveChange s cc ci nd di price = Ok x ->
  system_coll s' = system_coll s + signed ci cc -> system_debt s' = system_debt s + signed di nd -> _getTCR s' price = Ok x.
Proof.
  intros P P' Ucc Und H Ec Ed. unfold _getNewTCRFromTroveChange, getEntireSystemColl, getEntireSystemDebt in H. inv_result.
  destruct P, P'. safe_math.
  repeat match goal with E : changed _ _ _ = Ok _ |- _ => apply changed_Ok in E as [-> ?]; [|assumption|assumption] end.
  unfold system_coll, system_debt in *. unfold _getTCR, getEntireSystemColl, getEntireSystemDebt.
  rewrite <- Ec, <- Ed in *. rewrite add_fits; [|assumption|assumption|unfold is_uint in *; lia].
  rewrite add_fits; [|assumption|assumption|unfold is_uint in *; lia]. done.
Qed.

Lemma normal_mode s price x u : _getTCR s price = Ok x -> _requireNewTCRisAboveCCR s x = Ok u ->
  _checkRecoveryMode s price = Ok false.
Proof.
  intros H R. apply require_Ok, Z.leb_le in R. unfold _checkRecoveryMode. rewrite H. cbn. f_equal. by apply Z.ltb_ge.
Qed.

Section Operations.
Context (W : World) (recv : address -> address -> Z -> call System unit) (Unow : is_uint (now W)).

(** The fee at the decayed base rate, which the borrower accepted. *)
Definition fee_due (s : System) (n maxFee fee : Z) : Prop := exists base rate,
  _calcDecayedBaseRate (manager s) (now W) = Ok base /\ _calcBorrowingRate (params s) base = Ok rate /\
  _calcBorrowingFee rate n = Ok fee /\ _requireUserAcceptsFee fee n maxFee = Ok tt.

Lemma decay_rate s me r s' : decayBaseRateFromBorrowing me (now W) s = Ok (r, s') ->
  _calcDecayedBaseRate (manager s) (now W) = Ok r /\ baseRate (manager s') = r /\ params s' = params s.
Proof.
  intros H. apply guarded_Ok in H as (m' & H & ->). unfold _updateLastFeeOpTime in H. inv_result. split_and!; try done.
  cbn [manager with_manager]. by case_match.
Qed.

(** The fee is minted, so that the supply runs ahead of the debt by it. *)
Lemma triggerFee_books dc dd ds s n maxFee fee s' : books dc dd ds s ->
  _triggerBorrowingFee W recv n maxFee s = Ok (fee, s') ->
  is_uint fee /\ books dc dd (ds + fee) s' /\ frame s s' /\ fee_due s n maxFee fee.
Proof.
  intros B H. unfold _triggerBorrowingFee, this in H.
  view H as me Eme. run H as r s1 H1. destruct (decay_books _ _ _ _ _ _ _ _ B Unow H1) as [B1 F1].
  view H as x Hf. pose proof (fee_uint _ _ _ Hf) as Uf. pure H as ok Eok. view H as d Ed.
  run H as u2 s2 H2. destruct (quietly_mint _ _ _ Uf _ _ _ _ _ _ B1 H2) as [B2 F2].
  run H as u3 s3 H3. destruct (quietly_distribute W recv _ _ _ _ _ _ _ B2 H3) as [B3 F3].
  injection H as <- <-. rewrite Z.add_0_r in B3. split_and!; [done|done|etrans; [exact F1|]; by etrans|].
  destruct (decay_rate _ _ _ _ H1) as (Er & <- & Ep). unfold getBorrowingFee, getBorrowingRate in Hf. rewrite Ep in Hf.
  apply bind_Ok_inv in Hf as (rate & Hr & Hf). destruct ok. by exists (baseRate (manager s1)), rate.
Qed.

Lemma fee_due_same s s' n maxFee fee : baseRate (manager s') = baseRate (manager s) ->
  lastFeeOperationTime (manager s') = lastFeeOperationTime (manager s) -> params s' = params s ->
  fee_due s' n maxFee fee -> fee_due s n maxFee fee.
Proof. unfold fee_due, _calcDecayedBaseRate, _minutesPassedSinceLastFeeOp. by intros -> -> ->. Qed.

(** No fee is charged in recovery mode, or when the debt does not grow. *)
Definition charged (s : System) (free : bool) (n maxFee fee : Z) : Prop :=
  if free then fee = 0 else fee_due s n maxFee fee.

Lemma fetchPrice_zusd s price s' : fetchPrice W s = Ok (price, s') -> zusd s' = zusd s.
Proof.
  intros H. unfold fetchPrice, _storePrice, answer in H. view H as a Ha. destruct (snd a); [by injection H as _ <-|].
  view H as c Hc. destruct (snd c); [by injection H as _ <-|]. by apply view_call_Ok in H as [_ ->].
Qed.

Lemma fetchPrice_manager s price s' : fetchPrice W s = Ok (price, s') -> manager s' = manager s.
Proof.
  intros H. unfold fetchPrice, _storePrice, answer in H. view H as a Ha. destruct (snd a); [by injection H as _ <-|].
  view H as c Hc. destruct (snd c); [by injection H as _ <-|]. by apply view_call_Ok in H as [_ ->].
Qed.

Lemma fee_phase s zc free maxFee nd s' : books 0 0 0 s -> is_uint zc ->
  (if free : bool then call_ret zc
   else let$ fee := _triggerBorrowingFee W recv zc maxFee in pure_call (SafeMath.add zc fee)) s = Ok (nd, s') ->
  exists fee, nd = zc + fee /\ 0 <= fee /\ charged s free zc maxFee fee /\ is_uint nd /\ books 0 0 (nd - zc) s' /\ frame s s'.
Proof.
  intros B Uz H. destruct free; cbn [charged].
  - injection H as <- <-. exists 0. rewrite Z.add_0_r, Z.sub_diag. by split_and!.
  - run H as fee s1 Hf. destruct (triggerFee_books _ _ _ _ _ _ _ _ B Hf) as (Uf & B1 & F1 & D).
    apply pure_call_Ok in H as [Hn ->]. safe_math. exists fee. destruct Uf. split_and!; try done. eqbooks B1.
Qed.

(** *** Opening *)

(** What a new Trove of collateral [value] and debt [debt] changes, and what was checked. *)
Record opening (sender : address) (value debt : Z) (price : Z) (mode : bool) (s s' : System) : Prop := {
  op_inactive : is_active (manager s) sender = false;
  op_manager : exists r x k n, manager s' =
    opened (set_rate (manager s) r x) sender value debt k n (Z.of_nat (length (TroveOwners (manager s))));
  op_active : active_pool s' = mkPool (pool_ETH (active_pool s) + value) (pool_ZUSDDebt (active_pool s) + debt);
  op_default : default_pool s' = default_pool s;
  op_wiring : wiring s' = wiring s;
  op_params : params s' = params s;
  op_mode : _checkRecoveryMode s price = Ok mode;
  op_ratio : exists ICR, _computeCR value debt price = Ok ICR /\ opening_allowed mode value debt ICR price s = Ok tt }.

Lemma allowed_frame mode v d ICR p s s' : frame s s' ->
  opening_allowed mode v d ICR p s' = opening_allowed mode v d ICR p s.
Proof.
  intros F. unfold opening_allowed, _requireICRisAboveCCR, _requireICRisAboveMCR, _requireNewTCRisAboveCCR,
    _getNewTCRFromTroveChange, getEntireSystemColl, getEntireSystemDebt.
  by rewrite (fr_params _ _ F), (fr_active _ _ F), (fr_default _ _ F).
Qed.

Lemma mode_frame p s s' : frame s s' -> _checkRecoveryMode s' p = _checkRecoveryMode s p.
Proof.
  intros F. unfold _checkRecoveryMode, _getTCR, getEntireSystemColl, getEntireSystemDebt.
  by rewrite (fr_params _ _ F), (fr_active _ _ F), (fr_default _ _ F).
Qed.

(** The new Trove, and the payments for it. *)
Definition open_calls (me sender : address) (value net amount NICR : Z) (up low rec : address) : call System unit :=
  let$ _ := setTroveStatus me sender 1 in
  let$ _ := increaseTroveColl me sender value in
  let$ _ := increaseTroveDebt me sender (net + ZUSD_GAS_COMPENSATION) in
  let$ _ := updateTroveRewardSnapshots me sender in
  let$ _ := updateStakeAndTotalStakes me sender in
  let$ _ := sorted_insert W sender NICR up low in
  let$ _ := addTroveOwnerToArray me sender in
  let$ _ := _activePoolAddColl recv value in
  let$ _ := _mintZusdAndIncreaseActivePoolDebt rec amount net in
  let$ pool := view_call (fun s => Ok (gasPool (wiring s))) in
  _mintZusdAndIncreaseActivePoolDebt pool ZUSD_GAS_COMPENSATION ZUSD_GAS_COMPENSATION.

Lemma open_tail s me sender value net amount NICR up low rec u s' : books 0 0 (net - amount) s ->
  is_active (manager s) sender = false -> is_uint value -> is_uint net -> is_uint amount -> MIN_NET_DEBT <= net ->
  is_uint (net + ZUSD_GAS_COMPENSATION) -> _computeNominalCR value (net + ZUSD_GAS_COMPENSATION) = Ok NICR ->
  open_calls me sender value net amount NICR up low rec s = Ok (u, s') ->
  inv s' /\ exists k n, manager s' = opened (manager s) sender value (net + ZUSD_GAS_COMPENSATION) k n
                                      (Z.of_nat (length (TroveOwners (manager s)))) /\
  active_pool s' = mkPool (pool_ETH (active_pool s) + value) (pool_ZUSDDebt (active_pool s) + (net + ZUSD_GAS_COMPENSATION)) /\
  default_pool s' = default_pool s /\ wiring s' = wiring s /\ params s' = params s.
Proof.
  intros B A Uv Un Ua Hmin Ud HN H. unfold open_calls in H.
  run H as x1 s1 H1. run H as x2 s2 H2. run H as x3 s3 H3. run H as x4 s4 H4. run H as k s5 H5. run H as x6 s6 H6. run H as i s7 H7.
  destruct (open_block W _ _ _ _ B A _ _ _ _ _ _ _ _ _ _ _ _ _ _ _ _ _ _ _ _ Uv Ud (net_debt _ Hmin) HN H1 H2 H3 H4 H5 H6 H7) as (B7 & F7 & E7).
  run H as x8 s8 H8. destruct (addColl_books recv _ _ _ _ B7 _ _ _ Uv H8) as (B8 & F8 & E8).
  run H as x9 s9 H9. destruct (mintDebt_books _ _ _ _ B8 _ _ _ _ _ Ua Un H9) as (B9 & F9 & E9).
  view H as pool Hp. destruct (mintDebt_books _ _ _ _ B9 _ _ _ _ _ compensation_uint compensation_uint H) as (B' & F' & E').
  pose proof (transitivity F8 (transitivity F9 F')) as F.
  split. { unfold inv. eqbooks B'. }
  exists k, (totalStakes (manager s) + k).
  rewrite (be_manager _ _ F), (be_default _ _ F), (be_wiring _ _ F), (be_params _ _ F), (as_default _ _ F7), (as_wiring _ _ F7), (as_params _ _ F7).
  split_and!; try done. rewrite E', E9, E8, (as_active _ _ F7). cbn. f_equal. lia.
Qed.

Lemma openTrove_books s sender value maxFee amount up low rec u s' : inv s -> is_uint value -> is_uint amount ->
  _openTrove W recv sender value maxFee amount up low rec s = Ok (u, s') ->
  inv s' /\ exists price s1 mode fee, fetchPrice W s = Ok (price, s1) /\ charged s mode amount maxFee fee /\ MIN_NET_DEBT <= amount + fee /\
    opening sender value (amount + fee + ZUSD_GAS_COMPENSATION) price mode s s'.
Proof.
  intros B Uv Ua H. unfold _openTrove, this in H. view H as me Eme.
  run H as price s1 Hp. destruct (fetchPrice_books _ _ _ _ _ _ _ B Hp) as (Up & B1 & F1).
  view H as mode Hm. view H as ok Eok. view H as ina Hina. apply require_Ok in Hina. rewrite (frame_active s) in Hina by done.
  run H as net s2 Hnet.
  destruct (fee_phase _ _ _ _ _ _ B1 Ua Hnet) as (fee & -> & Pf & Hch & Un & B2 & F2). pose proof (fetchPrice_manager _ _ _ Hp) as Em1.
  pure H as ok1 Hmin. apply require_Ok, Z.leb_le in Hmin. pure H as debt Hd. unfold _getCompositeDebt in Hd. safe_math.
  pure H as ok2 Has. pure H as ICR HI. pure H as NICR HN. view H as allow Hal. destruct allow.
  rewrite <- (frame_active s s1), <- (frame_active s1 s2) in Hina by done. apply negb_true_iff in Hina.
  destruct (open_tail _ _ _ _ _ _ _ _ _ _ _ _ B2 Hina Uv Un Ua Hmin ltac:(eassumption) HN H) as (B' & k & n & Em & Ea & Ed & Ew & Ep).
  assert (frame s s2) as F by by etrans. split; [done|]. exists price, s1, mode, fee. split_and!; try done.
  { destruct mode; [done|]. by apply (fee_due_same s s1); rewrite ?Em1, ?(fr_params _ _ F1). }
  split; rewrite ?Ea, ?Ed, ?Ew, ?Ep, <- ?(fr_active _ _ F), <- ?(fr_default _ _ F), <- ?(fr_wiring _ _ F), <- ?(fr_params _ _ F); try done.
  - by rewrite <- (frame_active s s2).
  - destruct (fr_manager _ _ F) as (r & x & Er). exists r, x, k, n. by rewrite Em, Er.
  - by rewrite <- (mode_frame _ s s1).
  - exists ICR. by rewrite <- (allowed_frame _ _ _ _ _ s s2).
Qed.

(** *** Adjusting *)

(** Tokens and ether move last; an account that is paid runs its code in the end. *)
Definition settled (me : address) (s1 : System) (u : unit) (s' : System) : Prop :=
  s' = s1 \/ exists from n, outsider (wiring s1) me /\ recv from me n s1 = Ok (u, s').

Lemma move_books s sender cc ci zc di nd rec u s' :
  books (signed ci cc) (signed di nd) (nd - zc) s -> is_uint cc -> is_uint zc -> is_uint nd -> (di = false -> nd = zc) ->
  (ci = false -> outsider (wiring s) sender) ->
  _moveTokensAndETHfromAdjustment recv sender cc ci zc di nd rec s = Ok (u, s') ->
  exists s1, inv s1 /\ beside s s1 /\ settled sender s1 u s' /\ (ci = true -> s' = s1) /\
    active_pool s1 = mkPool (pool_ETH (active_pool s) + signed ci cc) (pool_ZUSDDebt (active_pool s) + signed di nd).
Proof.
  intros B Uc Uz Un Hd Hs H. unfold _moveTokensAndETHfromAdjustment, this in H. run H as u1 s1 H1.
  assert (books (signed ci cc) 0 0 s1 /\ beside s s1 /\
    active_pool s1 = mkPool (pool_ETH (active_pool s)) (pool_ZUSDDebt (active_pool s) + signed di nd)) as (B1 & F1 & E1).
  { destruct di; cbn [signed] in *.
    - destruct (mintDebt_books _ _ _ _ B _ _ _ _ _ Uz Un H1) as (B1 & F1 & E1). split_and!; try done. eqbooks B1.
    - rewrite Hd in * by done. destruct (burnDebt_books _ _ _ _ B _ _ _ _ Uz H1) as (B1 & F1 & E1).
      split_and!; try done. eqbooks B1. }
  destruct ci; cbn [signed] in *.
  - destruct (addColl_books recv _ _ _ _ B1 _ _ _ Uc H) as (B2 & F2 & E2). exists s'.
    split_and!; [eqbooks B2|by etrans|by left|done|by rewrite E2, E1].
  - view H as me Hme. pose proof (Hs eq_refl) as Ho. rewrite <- (be_wiring _ _ F1) in Ho.
    destruct (sendETH_books recv _ _ _ _ B1 me sender _ _ _ Uc Ho H) as (s2 & B2 & F2 & E2 & _ & H2).
    exists s2. split_and!; [eqbooks B2|by etrans| |done|by rewrite E2, E1].
    right. eexists _, _. split; [|exact H2]. by rewrite (be_wiring _ _ F2).
Qed.

(** What an adjustment of a Trove by [collChange] and [debtChange] has done. *)
Record adjusting (b : address) (collChange debtChange : Z) (price : Z) (mode : bool) (s s' : System) : Prop := {
  ad_active : is_active (manager s) b = true;
  ad_amounts : exists coll debt, applied_amounts (manager s) b = Ok (coll, debt) /\
    t_coll (trove (manager s') b) = coll + collChange /\ t_debt (trove (manager s') b) = debt + debtChange;
  ad_others : forall a, a <> b -> like (trove (manager s') a) (trove (manager s) a) /\
                                 snapshot (manager s') a = snapshot (manager s) a;
  ad_coll : system_coll s' = system_coll s + collChange;
  ad_debt : system_debt s' = system_debt s + debtChange;
  ad_wiring : wiring s' = wiring s;
  ad_params : params s' = params s;
  ad_mode : _checkRecoveryMode s price = Ok mode;
  ad_ratio : mode = false -> _checkRecoveryMode s' price = Ok false }.

Lemma enough_debt s b zc di debt nd u : is_uint debt -> is_uint nd -> (di = false -> nd = zc) ->
  MIN_NET_DEBT + ZUSD_GAS_COMPENSATION <= debt -> repayment_allowed b zc di debt nd s = Ok u ->
  MIN_NET_DEBT + ZUSD_GAS_COMPENSATION <= debt + signed di nd.
Proof.
  intros Ud Un Hd Hmin H. unfold repayment_allowed in H. destruct di; cbn [signed negb andb] in *; [unfold is_uint in *; lia|].
  rewrite Hd in * by done. destruct (Z.ltb_spec 0 zc); [|unfold is_uint in *; lia].
  unfold _getNetDebt, _requireAtLeastMinNetDebt in H. inv_result. safe_math.
  match goal with E : (MIN_NET_DEBT <=? _) = true |- _ => apply Z.leb_le in E; lia end.
Qed.

Definition adjust_calls (me sender b : address) (coll debt cc : Z) (ci : bool) (zc : Z) (di : bool) (nd : Z)
    (up low rec : address) : call System unit :=
  let$ _ := _updateTroveFromAdjustment b cc ci nd di in
  let$ _ := updateStakeAndTotalStakes me b in
  let$ newNICR := pure_call (_getNewNominalICRFromTroveChange coll debt cc ci nd di) in
  let$ _ := sorted_reInsert W b newNICR up low in
  _moveTokensAndETHfromAdjustment recv sender cc ci zc di nd rec.

Lemma adjust_tail s me sender b cc ci zc di nd up low rec u s' : books 0 0 (nd - zc) s ->
  is_active (manager s) b = true -> current (manager s) b -> is_uint cc -> is_uint zc -> is_uint nd ->
  (di = false -> nd = zc) -> (ci = false -> outsider (wiring s) sender) ->
  MIN_NET_DEBT + ZUSD_GAS_COMPENSATION <= t_debt (trove (manager s) b) + signed di nd ->
  adjust_calls me sender b (t_coll (trove (manager s) b)) (t_debt (trove (manager s) b)) cc ci zc di nd up low rec s = Ok (u, s') ->
  exists s1, inv s1 /\ settled sender s1 u s' /\ (ci = true -> s' = s1) /\ touched b (manager s) (manager s1) /\
    t_coll (trove (manager s1) b) = t_coll (trove (manager s) b) + signed ci cc /\
    t_debt (trove (manager s1) b) = t_debt (trove (manager s) b) + signed di nd /\
    system_coll s1 = system_coll s + signed ci cc /\ system_debt s1 = system_debt s + signed di nd /\
    wiring s1 = wiring s /\ params s1 = params s.
Proof.
  intros B A C Ucc Uz Und Hd Hs Hmin H. unfold adjust_calls in H.
  run H as r s1 H1. run H as k s2 H2. pure H as n Hn. run H as x s3 H3.
  destruct (adjust_block W _ _ _ _ _ B A C _ _ _ _ _ _ _ _ _ _ _ _ _ _ Ucc Und H1 H2 Hn H3 Hmin) as (B3 & F3 & T3 & Ec & Ed).
  rewrite !Z.add_0_l in B3. rewrite <- (as_wiring _ _ F3) in Hs.
  destruct (move_books _ _ _ _ _ _ _ _ _ _ B3 Ucc Uz Und Hd Hs H) as (s4 & B4 & F4 & S4 & Q4 & E4).
  exists s4. unfold system_coll, system_debt.
  rewrite (be_manager _ _ F4), (be_wiring _ _ F4), (be_params _ _ F4), E4, (be_default _ _ F4), (as_default _ _ F3), (as_active _ _ F3),
    (as_wiring _ _ F3), (as_params _ _ F3). cbn [pool_ETH pool_ZUSDDebt].
  split_and!; try done; lia.
Qed.

Lemma collChange_ok value cw cc ci : is_uint value -> is_uint cw -> (value =? 0) || (cw =? 0) = true ->
  _getCollChange value cw = (cc, ci) -> is_uint cc /\ signed ci cc = value - cw /\ (ci = false -> value = 0).
Proof.
  intros Uv Uw Hz. unfold _getCollChange, signed. destruct (Z.eqb_spec value 0), (Z.eqb_spec cw 0); cbn in *; try done;
    intros [= <- <-]; split_and!; done || lia.
Qed.

(** The ratio checked at [s] holds after the change. *)
Lemma mode_after ds s s' cw di cc ci nd oldICR newICR price u : pools_ok 0 0 ds s -> inv s' -> is_uint cc -> is_uint nd ->
  _requireValidAdjustmentInCurrentMode false cw di cc ci nd oldICR newICR price s = Ok u -> params s' = params s ->
  system_coll s' = system_coll s + signed ci cc -> system_debt s' = system_debt s + signed di nd ->
  _checkRecoveryMode s' price = Ok false.
Proof.
  intros P B Ucc Und H Ep Ec Ed. cbn [_requireValidAdjustmentInCurrentMode] in H.
  apply bind_Ok_inv in H as (x & _ & H). apply bind_Ok_inv in H as (TCR & HT & H).
  apply (normal_mode s' price TCR u); [|by unfold _requireNewTCRisAboveCCR in *; rewrite Ep].
  exact (new_TCR _ _ _ _ _ _ _ _ _ _ _ _ _ _ P (i_pools _ _ _ _ B) Ucc Und HT Ec Ed).
Qed.

(** A Trove ready to be changed: its rewards are applied and fees have been taken. *)
Record prepared (b : address) (s s' : System) : Prop := {
  pr_active : is_active (manager s') b = is_active (manager s) b;
  pr_current : current (manager s') b;
  pr_amounts : applied_amounts (manager s) b = Ok (t_coll (trove (manager s') b), t_debt (trove (manager s') b));
  pr_others : forall a, a <> b -> like (trove (manager s') a) (trove (manager s) a) /\
                                 snapshot (manager s') a = snapshot (manager s) a;
  pr_coll : system_coll s' = system_coll s;
  pr_debt : system_debt s' = system_debt s;
  pr_wiring : wiring s' = wiring s;
  pr_params : params s' = params s }.

Lemma applied_prepared b s1 s2 s3 s4 : frame s1 s2 -> applied b s2 s3 -> frame s3 s4 -> prepared b s1 s4.
Proof.
  intros F1 P F3. pose proof (ap_touched _ _ _ P) as T. pose proof (ap_elsewhere _ _ _ P) as E.
  split; unfold system_coll, system_debt;
    rewrite ?(frame_active s3 s4), ?(fr_active _ _ F3), ?(fr_default _ _ F3), ?(fr_wiring _ _ F3), ?(fr_params _ _ F3),
      ?(frame_trove s3 s4) by done.
  - by rewrite (ap_active _ _ _ P), (frame_active s1 s2).
  - apply (frame_current s3); [done|apply P].
  - rewrite <- (ap_amounts _ _ _ P). by destruct (fr_manager _ _ F1) as (r & x & ->).
  - intros a Ha. rewrite (frame_trove s3 s4), <- (frame_trove s1 s2) by done. split; [by apply T|].
    destruct (fr_manager _ _ F3) as (r & x & ->), (fr_manager _ _ F1) as (r' & x' & Em).
    change (snapshot (set_rate ?m _ _)) with (snapshot m). rewrite (h_snapshot _ _ _ T a Ha), Em. done.
  - by rewrite (ap_colls _ _ _ P), (fr_active _ _ F1), (fr_default _ _ F1).
  - by rewrite (ap_debts _ _ _ P), (fr_active _ _ F1), (fr_default _ _ F1).
  - by rewrite (e_wiring _ _ E), (fr_wiring _ _ F1).
  - by rewrite (e_params _ _ E), (fr_params _ _ F1).
Qed.

Lemma adjustTrove_books s sender value b cw zc di up low maxFee rec u s' : inv s ->
  is_uint value -> is_uint cw -> is_uint zc -> outsider (wiring s) sender \/ cw = 0 /\ zc = 0 ->
  _adjustSenderTrove W recv sender value b cw zc di up low maxFee rec s = Ok (u, s') ->
  exists s1 price s0 mode fee, fetchPrice W s = Ok (price, s0) /\ inv s1 /\ settled sender s1 u s' /\ 0 <= fee /\
    charged s (negb (di && negb mode)) zc maxFee fee /\
    adjusting b (value - cw) (signed di (zc + fee)) price mode s s1 /\ (value <> 0 -> s' = s1).
Proof.
  intros B Uv Uw Uz Ho H. unfold _adjustSenderTrove, this in H. view H as me Eme.
  run H as price s1 Hp. destruct (fetchPrice_books _ _ _ _ _ _ _ B Hp) as (Up & B1 & F1).
  view H as mode Hm. view H as ok Eok. unfold adjustment_allowed, _requireSingularCollChange, _requireNonZeroAdjustment, _requireTroveisActive in Eok.
  run H as u2 s2 H2. unfold applyPendingRewards in H2. inv_result.
  match goal with A : is_active _ _ = true |- _ => destruct (apply_applied _ _ _ _ _ _ _ B1 A H2) as [B2 P2]; pose proof A as A1 end.
  destruct (_getCollChange value cw) as [cc ci] eqn:Ecc.
  match goal with Z : (value =? 0) || _ = true |- _ => destruct (collChange_ok _ _ _ _ Uv Uw Z Ecc) as (Ucc & Ecs & Hci) end.
  run H as nd s3 H3.
  assert ((if negb (di && negb mode) then call_ret zc
           else let$ fee := _triggerBorrowingFee W recv zc maxFee in pure_call (SafeMath.add zc fee)) s2 = Ok (nd, s3)) as H3'
    by (by destruct (di && negb mode)).
  destruct (fee_phase _ _ _ _ _ _ B2 Uz H3') as (fee & End & Pf & Hch & Und & B3 & F3).
  view H as t Et. injection Et as <-. pure H as oldICR Eold. pure H as newICR Enew. pure H as ok4 Eas.
  view H as ok5 Hval. view H as ok6 Hrep.
  pose proof (applied_prepared _ _ _ _ _ F1 P2 F3) as Q. pose proof (m_troves _ (i_manager _ _ _ _ B3) b) as T.
  assert (di = false -> nd = zc) as Hd by (intros ->; cbn in Hch; lia).
  assert (is_active (manager s3) b = true) as A3 by (by rewrite (pr_active _ _ _ Q), <- (frame_active s s1)).
  assert (ci = false -> outsider (wiring s3) sender) as Hs.
  { rewrite (pr_wiring _ _ _ Q). intros C0. destruct Ho as [|[-> ->]]; [done|]. by rewrite Hci in * by done. }
  pose proof (enough_debt _ _ _ _ _ _ _ (t_debt_uint _ _ T) Und Hd (proj2 (t_backed _ _ T A3)) Hrep) as Hmin.
  destruct (adjust_tail _ _ _ _ _ _ _ _ _ _ _ _ _ _ B3 A3 (pr_current _ _ _ Q) Ucc Uz Und Hd Hs Hmin H)
    as (s4 & B4 & S4 & Q4 & T4 & Ec & Ed & Es & Esd & Ew & Ep).
  exists s4, price, s1, mode, fee. rewrite <- End, <- Ecs. split_and!; try done.
  { destruct (negb (di && negb mode)); [done|]. destruct (ap_rate _ _ _ P2) as [R1 R2]. pose proof (ap_elsewhere _ _ _ P2) as El.
    apply (fee_due_same s s2); rewrite ?R1, ?R2, ?(fetchPrice_manager _ _ _ Hp), ?(e_params _ _ El), ?(fr_params _ _ F1); done. }
  2: { intros Nz. apply Q4. destruct ci; [done|]. by rewrite Hci in Nz. }
  split; rewrite ?Es, ?Esd, ?Ew, ?Ep; try apply Q.
  - by rewrite <- (frame_active s s1).
  - eexists _, _. split; [apply Q|done].
  - intros a Ha. destruct (pr_others _ _ _ Q a Ha) as [L0 L1]. rewrite (h_snapshot _ _ _ T4 a Ha).
    split; [|done]. eapply like_trans; [by apply T4|done].
  - by rewrite (pr_coll _ _ _ Q).
  - by rewrite (pr_debt _ _ _ Q).
  - by rewrite <- (mode_frame _ s s1).
  - intros ->. exact (mode_after _ _ _ _ _ _ _ _ _ _ _ _ (i_pools _ _ _ _ B3) B4 Ucc Und Hval Ep Es Esd).
Qed.

(** *** Closing *)

Record closing (b : address) (price : Z) (s s' : System) : Prop := {
  cl_active : is_active (manager s) b = true;
  cl_closed : is_active (manager s') b = false;
  cl_amounts : exists coll debt, applied_amounts (manager s) b = Ok (coll, debt) /\
    system_coll s' = system_coll s - coll /\ system_debt s' = system_debt s - debt;
  cl_others : forall a, a <> b -> like (trove (manager s') a) (trove (manager s) a) /\
                                 snapshot (manager s') a = snapshot (manager s) a;
  cl_wiring : wiring s' = wiring s;
  cl_params : params s' = params s;
  cl_before : _checkRecoveryMode s price = Ok false;
  cl_after : _checkRecoveryMode s' price = Ok false }.

Definition close_calls (me sender : address) (coll net : Z) : call System unit :=
  let$ _ := removeStake me sender in
  let$ _ := TroveManager.closeTrove me sender in
  let$ _ := _burnZusdAndDecreaseActivePoolDebt sender net in
  let$ pool := view_call (fun s => Ok (gasPool (wiring s))) in
  let$ _ := _burnZusdAndDecreaseActivePoolDebt pool ZUSD_GAS_COMPENSATION in
  ActivePool.sendETH (transfer recv) me sender coll.

Lemma close_tail s me b net u s' : inv s -> is_active (manager s) b = true ->
  outsider (wiring s) b -> is_uint net -> t_debt (trove (manager s) b) = net + ZUSD_GAS_COMPENSATION ->
  close_calls me b (t_coll (trove (manager s) b)) net s = Ok (u, s') ->
  exists s1, inv s1 /\ settled b s1 u s' /\ touched b (manager s) (manager s1) /\ is_active (manager s1) b = false /\
    system_coll s1 = system_coll s - t_coll (trove (manager s) b) /\
    system_debt s1 = system_debt s - t_debt (trove (manager s) b) /\ wiring s1 = wiring s /\ params s1 = params s.
Proof.
  intros B A Ho Un En H. unfold close_calls in H. run H as x1 s1 H1. run H as x2 s2 H2.
  destruct (close_block _ _ _ _ _ B A (owners_bound _ _ _ _ B ltac:(done)) _ _ _ _ _ H1 H2) as (B2 & F2 & T2 & A2).
  run H as x3 s3 H3. destruct (burnDebt_books _ _ _ _ B2 _ _ _ _ Un H3) as (B3 & F3 & E3). view H as pool Ep.
  run H as x4 s4 H4. destruct (burnDebt_books _ _ _ _ B3 _ _ _ _ compensation_uint H4) as (B4 & F4 & E4).
  pose proof (transitivity F3 F4) as F. rewrite <- (as_wiring _ _ F2), <- (be_wiring _ _ F) in Ho.
  pose proof (t_coll_uint _ _ (m_troves _ (i_manager _ _ _ _ B) b)) as Uc.
  destruct (sendETH_books recv _ _ _ _ B4 me b _ _ _ Uc Ho H) as (s5 & B5 & F5 & E5 & _ & H5).
  pose proof (transitivity F F5) as G. exists s5. unfold system_coll, system_debt.
  rewrite (be_manager _ _ G), (be_wiring _ _ G), (be_params _ _ G), (as_wiring _ _ F2), (as_params _ _ F2),
    (be_default _ _ G), (as_default _ _ F2), E5, E4, E3, (as_active _ _ F2). cbn [pool_ETH pool_ZUSDDebt].
  split_and!; try done; try lia; [eqbooks B5|].
  right. eexists _, _. split; [|exact H5]. by rewrite (be_wiring _ _ F5).
Qed.

Lemma closeTrove_books s b u s' : inv s -> outsider (wiring s) b -> BorrowerOperations._closeTrove W recv b s = Ok (u, s') ->
  exists s1 price s0, fetchPrice W s = Ok (price, s0) /\ inv s1 /\ settled b s1 u s' /\ closing b price s s1.
Proof.
  intros B Ho H. unfold BorrowerOperations._closeTrove, this in H. view H as me Eme.
  view H as ok0 A0. unfold _requireTroveisActive in A0. apply require_Ok in A0.
  run H as price s1 Hp. destruct (fetchPrice_books _ _ _ _ _ _ _ B Hp) as (Up & B1 & F1).
  view H as ok1 Hm. unfold _requireNotInRecoveryMode in Hm. apply bind_Ok_inv in Hm as (mode & Hm & Hn).
  apply require_Ok, negb_true_iff in Hn. subst mode. rewrite (mode_frame _ s) in Hm by done.
  run H as u2 s2 H2. unfold applyPendingRewards in H2. apply bind_Ok_inv in H2 as (ok2 & _ & H2).
  rewrite <- (frame_active s s1) in A0 by done. destruct (apply_applied _ _ _ _ _ _ _ B1 A0 H2) as [B2 P2].
  view H as t Et. injection Et as <-. pure H as net Hnet. view H as ok3 Hs. view H as TCR HT. view H as ok4 Hok.
  pose proof (m_troves _ (i_manager _ _ _ _ B2) b) as T. pose proof (t_debt_uint _ _ T) as Ud. pose proof (t_coll_uint _ _ T) as Uc.
  pose proof (applied_prepared _ _ _ _ _ F1 P2 (reflexivity s2)) as Q. rewrite (frame_active s s1) in A0 by done.
  destruct (sub_Ok _ _ _ Ud compensation_uint Hnet) as (En & _ & Un).
  destruct (close_tail s2 me b net u s') as (s3 & B3 & S3 & T3 & A3 & Ec & Ed & Ew & Ep); try done.
  { by rewrite (pr_active _ _ _ Q). } { by rewrite (pr_wiring _ _ _ Q). } { lia. }
  exists s3, price, s1. split_and!; try done.
  split; rewrite ?Ew, ?Ep; try apply Q; try done.
  - eexists _, _. split; [apply Q|]. by rewrite Ec, Ed, (pr_coll _ _ _ Q), (pr_debt _ _ _ Q).
  - intros a Ha. destruct (pr_others _ _ _ Q a Ha) as [L0 L1]. rewrite (h_snapshot _ _ _ T3 a Ha).
    split; [|done]. eapply like_trans; [by apply T3|done].
  - apply (normal_mode s3 price TCR ok4); [|unfold _requireNewTCRisAboveCCR in *; by rewrite Ep].
    exact (new_TCR _ _ _ _ _ _ _ _ _ false _ false _ _ (i_pools _ _ _ _ B2) (i_pools _ _ _ _ B3) Uc Ud HT Ec Ed).
Qed.

(** *** Claiming a surplus *)

Lemma surplus_claimed p a n : surplus_ok p -> n = default 0 (surplus_balances p !! a) -> n <= surplus_ETH p ->
  surplus_ok (mkSurplus (surplus_ETH p - n) (<[a := 0]> (surplus_balances p))).
Proof.
  intros [U E T] -> L. pose proof (E a). split; cbn.
  - unfold is_uint in *. lia.
  - intros b. rewrite default_insert. case_decide; [lia|apply E].
  - rewrite (total_insert _ _ _ _ 0), T by done. lia.
Qed.

Lemma claimable_le p a : surplus_ok p -> default 0 (surplus_balances p !! a) <= surplus_ETH p.
Proof.
  intros [U E T]. rewrite <- T. assert (forall b x, surplus_balances p !! b = Some x -> 0 <= x) as Pos.
  { intros b x Hb. pose proof (E b) as Eb. by rewrite Hb in Eb. }
  destruct (surplus_balances p !! a) eqn:Ea; cbn; [by apply (total_elem (fun _ n => n) _ _ _ Pos) in Ea|by apply total_nonneg].
Qed.

(** The storage after [account] has been paid its [n]. *)
Lemma claimed_inv s account n e : inv s -> outsider (wiring s) account -> n = getCollateral s account ->
  total (fun _ n => n) e = total (fun _ n => n) (ether s) ->
  (forall a, default 0 (e !! a) = ether_of s a - (if decide (a = collSurplusPool (wiring s)) then n else 0)
                                  + (if decide (a = account) then n else 0)) ->
  inv (with_ether (with_surplus s (mkSurplus (surplus_ETH (surplus s) - n) (<[account := 0]> (surplus_balances (surplus s))))) e).
Proof.
  intros B Ho En Te Ee. pose proof (i_surplus _ _ _ _ B) as S. pose proof (claimable_le _ account S) as Ln.
  pose proof (u_entry _ S account) as Pn. unfold getCollateral in En. rewrite <- En in *.
  set (s1 := with_ether _ _). assert (surplus_ok (surplus s1)) as S1 by (by apply surplus_claimed).
  pose proof (i_funded _ _ _ _ B) as F. pose proof (f_surplus _ F). pose proof (w_nodup _ (i_wired _ _ _ _ B)) as N.
  assert (funded s1) as F1.
  { apply (funded_out s s1 (collSurplusPool (wiring s)) account n); try done; try lia;
      (by rewrite decide_True) || by rewrite decide_False, Z.sub_0_r by (apply same_false; by decide_core N). }
  destruct (i_wired _ _ _ _ B), (i_pools _ _ _ _ B), (i_listed _ _ _ _ B). split; try apply B; done || by split.
Qed.

Lemma claim_books s sender u s' : inv s -> outsider (wiring s) sender -> claimCollateral recv sender s = Ok (u, s') ->
  exists s1, inv s1 /\ settled sender s1 u s' /\ 0 < getCollateral s sender /\ getCollateral s1 sender = 0 /\
    ether_of s1 sender = ether_of s sender + getCollateral s sender /\ wiring s1 = wiring s.
Proof.
  intros B Ho H. unfold claimCollateral, this in H. view H as me Eme. unfold claimColl in H. inv_result.
  pose proof (i_surplus _ _ _ _ B) as S. pose proof (u_entry _ S sender) as Pn. fold (getCollateral s sender) in Pn.
  match goal with E : (0 <? _) = true |- _ => apply Z.ltb_lt in E end.
  pose proof (claimable_le _ sender S) as Ln. fold (getCollateral s sender) in Ln. pose proof (u_ETH _ S) as US.
  assert (is_uint (getCollateral s sender)) as Un by (unfold is_uint in *; lia). safe_math.
  apply or_revert_Ok in H. run H as x s2 H2. apply pay_Ok in H2 as (_ & e & -> & Te & Ee). read_storage.
  match type of H with context [is_core ?x sender] =>
    assert (is_core x sender = false) as Nc by (by apply bool_decide_eq_false_2); rewrite Nc in H end.
  set (s1 := with_ether _ e) in *. exists s1. split_and!; try done.
  - apply claimed_inv; try done.
  - right. by eexists _, _.
  - unfold getCollateral. cbn. by rewrite lookup_insert_eq.
  - unfold s1. rewrite ether_with, Ee, decide_False, decide_True; [unfold ether_of; cbn; lia|done|].
    intros ->. apply Ho. unfold core. rewrite !elem_of_cons. tauto.
Qed.
End Operations.
