(* ===== verification/PoolSteps.v ===== *)
(** * How payments of the active pool to other contracts change the books *)

From S2P Require Import Prelude Solidity Ledger SortedTroves SortedTrovesFacts ChainState ZUSDToken.
From S2P Require Import ActivePool DefaultPool CollSurplusPool Outside FeeDistributor TroveManager BorrowerOperations.
From S2P Require Import StabilityPool Invariant InvariantFacts TroveSteps BorrowerSteps BorrowerFacts.
Import LiquityMath.
Local Open Scope Z_scope.

(** ** Single parts of the storage *)

Lemma books_stability dc dd ds s p : books dc dd ds s -> stability_ok p ->
  sp_ETH p <= ether_of s (stabilityPool (wiring s)) -> books dc dd ds (with_stability s p).
Proof.
  intros B Y L. destruct (i_wired _ _ _ _ B), (i_pools _ _ _ _ B), (i_listed _ _ _ _ B), (i_funded _ _ _ _ B).
  split; try apply B; done || by split.
Qed.

Lemma books_surplus dc dd ds s p : books dc dd ds s -> surplus_ok p ->
  surplus_ETH p <= ether_of s (collSurplusPool (wiring s)) -> books dc dd ds (with_surplus s p).
Proof.
  intros B Y L. destruct (i_wired _ _ _ _ B), (i_pools _ _ _ _ B), (i_listed _ _ _ _ B), (i_funded _ _ _ _ B).
  split; try apply B; done || by split.
Qed.

(** Tokens that a contract of the protocol moves. *)
Lemma quietly_moves g msg from to n : is_uint n -> quietly (fun _ => 0) (token_call g msg (fun t => _transfer t from to n)).
Proof.
  intros U. apply quietly_token. intros t t' K H. rewrite Z.add_0_r. by apply (transfer_token t from to n).
Qed.

(** ** Ether *)

Section Send.
Context (recv : address -> address -> Z -> call System unit).

(** The active pool with [n] less, and the ether moved. *)
Definition paid_out (s : System) (n : Z) (e : gmap address Z) : System :=
  with_ether (ActivePool.set_ETH s (pool_ETH (active_pool s) - n)) e.

Lemma sendETH_core s me to n u s' : is_uint (pool_ETH (active_pool s)) -> is_uint n -> to ∈ core (wiring s) ->
  ActivePool.sendETH (transfer recv) me to n s = Ok (u, s') ->
  exists e, n <= pool_ETH (active_pool s) /\ total (fun _ n => n) e = total (fun _ n => n) (ether s) /\
    (forall a, default 0 (e !! a) = ether_of s a - (if decide (a = activePool (wiring s)) then n else 0)
                                    + (if decide (a = to) then n else 0)) /\
    receive_core (activePool (wiring s)) to n (paid_out s n e) = Ok (u, s').
Proof.
  intros Up Un Hc H. unfold ActivePool.sendETH, ActivePool.by_BO_TM_SP in H.
  run H as v s1 H1. inv_result. safe_math. apply or_revert_Ok in H. run H as x s2 H2. read_storage.
  apply pay_Ok in H2 as (_ & e & -> & Te & Ee). read_storage. exists e. split_and!; try done.
  match type of H with context [is_core ?x to] =>
    assert (is_core x to = true) as Nc by (by apply bool_decide_eq_true_2); by rewrite Nc in H end.
Qed.

Section Paid.
Context (dc dd ds : Z) (s : System) (B : books dc dd ds s) (n : Z) (Un : is_uint n) (to : address) (e : gmap address Z).
Context (Ln : n <= pool_ETH (active_pool s)) (Te : total (fun _ n => n) e = total (fun _ n => n) (ether s)).
Context (Ee : forall a, default 0 (e !! a) = ether_of s a - (if decide (a = activePool (wiring s)) then n else 0)
                                             + (if decide (a = to) then n else 0)).

Lemma paid_out_books : to <> activePool (wiring s) ->
  books (dc + n) dd ds (paid_out s n e) /\
  forall a, a ∈ pools (wiring s) -> a <> activePool (wiring s) ->
    ether_of (paid_out s n e) a = ether_of s a + (if decide (a = to) then n else 0).
Proof.
  intros Nt. pose proof (i_funded _ _ _ _ B) as F. pose proof (f_active _ F) as Fa. pose proof (proj1 Un) as Pn.
  pose proof (b_active_ETH _ _ _ _ (i_pools _ _ _ _ B)) as Ua.
  assert (forall a, ether_of (paid_out s n e) a = ether_of s a - (if decide (a = activePool (wiring s)) then n else 0)
                                             + (if decide (a = to) then n else 0)) as Eo by (intros a; unfold paid_out; by rewrite ether_with, Ee).
  split.
  - assert (is_uint (pool_ETH (active_pool s) + - n)) as Um by (unfold is_uint in *; lia).
    pose proof (books_eth dc dd ds s (- n) B Um ltac:(lia)) as B1.
    change (pool_ETH (active_pool s) + - n) with (pool_ETH (active_pool s) - n) in B1.
    replace (dc + n) with (dc - - n) by lia. apply books_ether; [done|].
    assert (forall a, 0 <= ether_of (paid_out s n e) a) as P0.
    { intros a. rewrite Eo. pose proof (f_nonneg _ F a). repeat case_decide; subst; lia || done. }
    pose proof (w_nodup _ (i_wired _ _ _ _ B)) as N.
    apply (funded_update s); try done; cbn [active_pool default_pool surplus stability with_ether with_active ActivePool.set_ETH pool_ETH paid_out];
      rewrite ?Eo, ?Z.sub_diag.
    + rewrite decide_True, decide_False by done. lia.
    + rewrite decide_False by (apply same_false; by decide_core N). case_decide; lia.
    + rewrite decide_False by (apply same_false; by decide_core N). case_decide; lia.
    + rewrite decide_False by (apply same_false; by decide_core N). case_decide; lia.
  - intros a Ha Na. rewrite Eo, decide_False by done. lia.
Qed.
End Paid.

(** What a payment of [n] leaves alone, whoever of the protocol receives it. *)
Record sent (n : Z) (s s' : System) : Prop := {
  nt_wiring : wiring s' = wiring s;
  nt_params : params s' = params s;
  nt_manager : manager s' = manager s;
  nt_sorted : sorted s' = sorted s;
  nt_zusd : zusd s' = zusd s;
  nt_active : active_pool s' = mkPool (pool_ETH (active_pool s) - n) (pool_ZUSDDebt (active_pool s)) }.

Lemma send_pool dc dd ds s me n u s' : books dc dd ds s -> is_uint n ->
  ActivePool.sendETH (transfer recv) me (stabilityPool (wiring s)) n s = Ok (u, s') ->
  books (dc + n) dd ds s' /\ sent n s s' /\ default_pool s' = default_pool s /\ surplus s' = surplus s /\
  stability s' = set_sp_ETH (stability s) (sp_ETH (stability s) + n).
Proof.
  intros B Un H. pose proof (w_nodup _ (i_wired _ _ _ _ B)) as N. pose proof (i_pools _ _ _ _ B) as P.
  apply sendETH_core in H as (e & Ln & Te & Ee & H); [|apply P|done|unfold core; rewrite !elem_of_cons; tauto].
  destruct (paid_out_books dc dd ds s B n Un _ e Ln Te Ee) as [B1 Ep]; [apply same_false; by decide_core N|].
  unfold receive_core in H. cbv zeta in H. cbn [wiring paid_out with_ether ActivePool.set_ETH with_active] in H. revert H. decide_core N. intros H.
  apply bind_Ok_inv in H as (x & _ & H). apply bind_Ok_inv in H as (k & Hk & [= <- <-]).
  pose proof (y_ETH _ (i_stability _ _ _ _ B)). cbn [stability paid_out with_ether ActivePool.set_ETH with_active] in Hk. safe_math.
  split; [|by split_and!]. apply books_stability; [done| |].
  - split; [done|apply (i_stability _ _ _ _ B)].
  - cbn [sp_ETH set_sp_ETH]. change (wiring (paid_out s n e)) with (wiring s).
    rewrite Ep, decide_True by (done || (unfold pools; rewrite !elem_of_cons; tauto) || (apply same_false; by decide_core N)).
    pose proof (f_stability _ (i_funded _ _ _ _ B)). lia.
Qed.

(** The entries of the surplus pool are [n] ahead of the ether it records. *)
Lemma send_surplus dc dd ds s p me n u s' : books dc dd ds (with_surplus s p) -> is_uint n ->
  surplus_ETH (surplus s) = surplus_ETH p -> (forall a, 0 <= default 0 (surplus_balances (surplus s) !! a)) ->
  total (fun _ n => n) (surplus_balances (surplus s)) = surplus_ETH (surplus s) + n ->
  ActivePool.sendETH (transfer recv) me (collSurplusPool (wiring s)) n s = Ok (u, s') ->
  books (dc + n) dd ds s' /\ sent n s s' /\ default_pool s' = default_pool s /\ stability s' = stability s /\
  surplus s' = mkSurplus (surplus_ETH (surplus s) + n) (surplus_balances (surplus s)).
Proof.
  intros B Un Ep Pos Et H. assert (NoDup (core (wiring s))) as N by apply (w_nodup _ (i_wired _ _ _ _ B)). pose proof (i_pools _ _ _ _ B) as P.
  apply sendETH_core in H as (e & Ln & Te & Ee & H); [|apply P|done|unfold core; rewrite !elem_of_cons; tauto].
  destruct (paid_out_books dc dd ds _ B n Un _ e Ln Te Ee) as [B1 Eo]; [cbn [wiring with_surplus]; apply same_false; by decide_core N|].
  cbn [wiring with_surplus] in Eo.
  unfold receive_core in H. cbv zeta in H. cbn [wiring paid_out with_ether ActivePool.set_ETH with_active] in H. revert H. decide_core N. intros H.
  unfold CollSurplusPool.receive in H. apply bind_Ok_inv in H as (x & _ & H). apply bind_Ok_inv in H as (k & Hk & [= <- <-]).
  pose proof (u_ETH _ (i_surplus _ _ _ _ B)) as U. cbn [surplus with_surplus] in U. rewrite <- Ep in U.
  cbn [surplus paid_out with_ether ActivePool.set_ETH with_active] in Hk. safe_math.
  split; [|by split_and!].
  pose proof (books_surplus _ _ _ _ (mkSurplus (surplus_ETH (surplus s) + n) (surplus_balances (surplus s))) B1) as B2.
  apply B2; [by split|]. cbn [surplus_ETH]. change (wiring (paid_out (with_surplus s p) n e)) with (wiring s).
  rewrite Eo, decide_True by (done || (unfold pools; rewrite !elem_of_cons; tauto) || (apply same_false; by decide_core N)).
  pose proof (f_surplus _ (i_funded _ _ _ _ B)) as Fs. cbn [surplus with_surplus wiring] in Fs. rewrite <- Ep in Fs. lia.
Qed.

Lemma send_distributor dc dd ds s me n u s' : books dc dd ds s -> is_uint n ->
  ActivePool.sendETH (transfer recv) me (feeDistributor (wiring s)) n s = Ok (u, s') ->
  books (dc + n) dd ds s' /\ sent n s s' /\ default_pool s' = default_pool s /\ surplus s' = surplus s /\ stability s' = stability s.
Proof.
  intros B Un H. pose proof (w_nodup _ (i_wired _ _ _ _ B)) as N. pose proof (i_pools _ _ _ _ B) as P.
  apply sendETH_core in H as (e & Ln & Te & Ee & H); [|apply P|done|unfold core; rewrite !elem_of_cons; tauto].
  destruct (paid_out_books dc dd ds s B n Un _ e Ln Te Ee) as [B1 _]; [apply same_false; by decide_core N|].
  unfold receive_core in H. cbv zeta in H. cbn [wiring paid_out with_ether ActivePool.set_ETH with_active] in H. revert H. decide_core N. intros H.
  apply bind_Ok_inv in H as (x & _ & [= <- <-]). by split_and!.
Qed.
End Send.

(** ** The Stability Pool *)

Lemma pool_call_Ok f s u s' : pool_call f s = Ok (u, s') -> exists p, f (stability s) = Ok p /\ s' = with_stability s p.
Proof. unfold pool_call. intros H. inv_result. by eexists. Qed.

(** The two trackers. *)
Definition same_trackers (p p' : Stability) : Prop := sp_ETH p' = sp_ETH p /\ totalZUSDDeposits p' = totalZUSDDeposits p.

(** A change of the storage that leaves them alone. *)
Lemma pool_books dc dd ds f s u s' : books dc dd ds s -> pool_call f s = Ok (u, s') ->
  (forall p', f (stability s) = Ok p' -> same_trackers (stability s) p') ->
  books dc dd ds s' /\ exists p, f (stability s) = Ok p /\ s' = with_stability s p /\ same_trackers (stability s) p.
Proof.
  intros B H Hf. apply pool_call_Ok in H as (p & E & ->). destruct (Hf p E) as [E1 E2]. pose proof (i_stability _ _ _ _ B) as Y.
  split; [|by exists p]. apply books_stability; [done| |].
  - split; rewrite ?E1, ?E2; apply Y.
  - rewrite E1. apply (i_funded _ _ _ _ B).
Qed.

Lemma updateG_trackers p n p' : _updateG p n = Ok p' -> same_trackers p p'.
Proof.
  unfold _updateG, _computeZEROPerUnitStaked. destruct (_ || _); [by intros [= <-]|]. intros H. inv_result. done.
Qed.

Lemma issuance_books W dc dd ds s u s' : books dc dd ds s -> _triggerZEROIssuance W s = Ok (u, s') ->
  books dc dd ds s' /\ exists p, s' = with_stability s p /\ same_trackers (stability s) p.
Proof.
  intros B H. unfold _triggerZEROIssuance in H. destruct (pool_books _ _ _ _ _ _ _ B H) as [B' (p & _ & E & T)].
  - intros p' Hp. inv_result. by apply updateG_trackers in Hp.
  - split; [done|]. by exists p.
Qed.

Lemma product_trackers p coll debt n p' : (let! r := _computeRewardsPerUnitStaked p coll debt n in
    let '(gain, loss, p) := r in _updateRewardSumAndProduct p gain loss) = Ok p' -> same_trackers p p'.
Proof.
  intros H. apply bind_Ok_inv in H as ([[gain loss] p1] & H1 & H). unfold _computeRewardsPerUnitStaked in H1. inv_result. simplify_eq.
  unfold _updateRewardSumAndProduct in H. inv_result. case_match. case_match. inv_result. done.
Qed.

Lemma decreaseZUSD_books dc dd ds s n u s' : books dc dd ds s -> is_uint n -> _decreaseZUSD n s = Ok (u, s') ->
  books dc dd ds s' /\ n <= totalZUSDDeposits (stability s) /\
  s' = with_stability s (set_totalDeposits (stability s) (totalZUSDDeposits (stability s) - n)).
Proof.
  intros B Un H. unfold _decreaseZUSD in H. apply pool_call_Ok in H as (p & E & ->). inv_result. pose proof (i_stability _ _ _ _ B) as Y. safe_math.
  split_and!; [|done|done]. apply books_stability; [done|split; [apply Y|done]|]. apply (i_funded _ _ _ _ B).
Qed.

Lemma decreaseDebt_books dc dd ds s me n u s' : books dc dd ds s -> is_uint n -> ActivePool.decreaseZUSDDebt me n s = Ok (u, s') ->
  books dc (dd + n) (ds + n) s' /\ s' = ActivePool.set_debt s (pool_ZUSDDebt (active_pool s) - n).
Proof.
  intros B Un H. pose proof (i_pools _ _ _ _ B) as P. unfold ActivePool.decreaseZUSDDebt, ActivePool.by_BO_TM_SP in H. inv_result. safe_math.
  split; [|done]. pose proof (books_debt dc dd ds s (- n) B ltac:(done)) as B1.
  change (pool_ZUSDDebt (active_pool s) + - n) with (pool_ZUSDDebt (active_pool s) - n) in B1. eqbooks B1.
Qed.

Section Offset.
Context (W : World) (recv : address -> address -> Z -> call System unit).

(** What an offset of [debt] against [coll] has done. *)
Record offsetting (debt coll : Z) (s s' : System) : Prop := {
  ff_wiring : wiring s' = wiring s;
  ff_params : params s' = params s;
  ff_manager : manager s' = manager s;
  ff_sorted : sorted s' = sorted s;
  ff_default : default_pool s' = default_pool s;
  ff_surplus : surplus s' = surplus s;
  ff_active : active_pool s' = mkPool (pool_ETH (active_pool s) - coll) (pool_ZUSDDebt (active_pool s) - debt);
  ff_total : totalZUSDDeposits (stability s') = totalZUSDDeposits (stability s) - debt;
  ff_ETH : sp_ETH (stability s') = sp_ETH (stability s) + coll;
  ff_balance : forall a, balance (zusd s') a = balance (zusd s) a - (if decide (a = stabilityPool (wiring s)) then debt else 0) }.

Lemma moveOffset_books dc dd ds s coll debt u s' : books dc dd ds s -> is_uint coll -> is_uint debt ->
  _moveOffsetCollAndDebt recv coll debt s = Ok (u, s') -> books (dc + coll) (dd + debt) ds s' /\ offsetting debt coll s s'.
Proof.
  intros B Uc Ud H. unfold _moveOffsetCollAndDebt, this_pool in H. view H as me Hme. injection Hme as <-.
  run H as u1 s1 H1. destruct (decreaseDebt_books _ _ _ _ _ _ _ _ B Ud H1) as [B1 E1].
  run H as u2 s2 H2. destruct (decreaseZUSD_books _ _ _ _ _ _ _ B1 Ud H2) as (B2 & _ & E2).
  run H as u3 s3 H3. destruct (quietly_burn _ _ _ Ud _ _ _ _ _ _ B2 H3) as [B3 F3].
  pose proof (burn_moves _ _ _ _ _ _ (i_token _ _ _ _ B2) Ud H3) as K3. apply token_beside in H3 as [F3' A3].
  assert (wiring s3 = wiring s) as Ew by (rewrite (be_wiring _ _ F3'), E2, E1; done). rewrite <- Ew in H.
  destruct (send_pool recv _ _ _ _ _ _ _ _ B3 Uc H) as (B4 & [? ? ? ? ? ?] & Ed & Eu & Es). split; [eqbooks B4|].
  destruct F3'.
  split; rewrite ?Es, ?Ed, ?Eu, ?nt_wiring0, ?nt_params0, ?nt_manager0, ?nt_sorted0, ?nt_active0, ?A3, ?be_wiring, ?be_params, ?be_manager, ?be_default,
    ?be_sorted, ?be_surplus, ?be_stability, ?E2, ?E1; cbn; try done.
  intros a. rewrite nt_zusd0, K3, E2, E1. done.
Qed.

Lemma offset_books dc dd ds s me debt coll u s' : books dc dd ds s -> is_uint coll -> is_uint debt ->
  (debt = 0 -> coll = 0) -> debt <= totalZUSDDeposits (stability s) -> offset W recv me debt coll s = Ok (u, s') ->
  books (dc + coll) (dd + debt) ds s' /\ offsetting debt coll s s'.
Proof.
  intros B Uc Ud Z0 Lt H. unfold offset, pool_view in H. view H as ok Hok. view H as n Hn. injection Hn as <-.
  destruct (_ || _) eqn:E.
  { injection H as _ <-. assert (debt = 0) as -> by (apply orb_prop in E as [E%Z.eqb_eq|E%Z.eqb_eq]; unfold is_uint in Ud; lia).
    rewrite Z0, !Z.add_0_r by done. split; [done|]. split; rewrite ?Z.add_0_r, ?Z.sub_0_r; try done; [by destruct (active_pool s)|].
    intros a. case_decide; lia. }
  run H as u1 s1 H1. destruct (issuance_books _ _ _ _ _ _ _ B H1) as (B1 & p1 & E1 & T1 & T1').
  run H as u2 s2 H2. destruct (pool_books _ _ _ _ _ _ _ B1 H2) as (B2 & p2 & _ & E2 & T2 & T2').
  { intros p'. apply product_trackers. }
  destruct (moveOffset_books _ _ _ _ _ _ _ _ B2 Uc Ud H) as [B' [? ? ? ? ? ? ? ? ?]]. split; [done|].
  subst s2 s1. cbn in *. split; try done; lia.
Qed.
End Offset.
