(* ===== verification/LiquidationFacts.v ===== *)
(** * Liquidations keep the books, and only close Troves that may be liquidated

    While Troves are liquidated the surplus of their owners is accounted before the
    ether is sent, so that the books are those of a storage with the surplus pool as it
    was at the start. *)

From S2P Require Import Prelude Solidity Ledger SortedTroves SortedTrovesFacts ChainState ZUSDToken.
From S2P Require Import ActivePool DefaultPool CollSurplusPool Outside FeeDistributor TroveManager BorrowerOperations.
From S2P Require Import StabilityPool Liquidations Invariant InvariantFacts TroveSteps BorrowerSteps BorrowerFacts.
Import LiquityMath.
Local Open Scope Z_scope.

(** ** Calls that do not look at a part of the storage *)

(** [f] writes a part of the storage that [m] neither reads nor writes. *)
Definition blind {A} (f : System -> System) (m : call System A) : Prop :=
  forall s r s', m s = Ok (r, s') -> m (f s) = Ok (r, f s').

Lemma blind_bind {A B} f (m : call System A) (k : A -> call System B) :
  blind f m -> (forall a, blind f (k a)) -> blind f (call_bind m k).
Proof.
  intros M K s r s' H. run H as a s1 H1. unfold call_bind. rewrite (M _ _ _ H1). cbn. by apply K.
Qed.

Lemma blind_view {A} f (g : System -> result A) : (forall s, g (f s) = g s) -> blind f (view_call g).
Proof. intros E s r s' [H ->]%view_call_Ok. apply view_call_Ok. by rewrite E. Qed.

Lemma blind_pure {A} f (g : result A) : blind f (pure_call g).
Proof. intros s r s' [H ->]%pure_call_Ok. by apply pure_call_Ok. Qed.

Section BlindMoves.
Context (f : System -> System).
Context (Fw : forall s, wiring (f s) = wiring s) (Fa : forall s, active_pool (f s) = active_pool s).
Context (Fd : forall s, default_pool (f s) = default_pool s) (Fe : forall s, ether (f s) = ether s).
Context (Ca : forall s p, f (with_active s p) = with_active (f s) p).
Context (Cd : forall s p, f (with_default s p) = with_default (f s) p).
Context (Ce : forall s e, f (with_ether s e) = with_ether (f s) e).

Lemma blind_pay from to v : blind f (pay from to v).
Proof.
  intros s r s'. unfold pay, ether_of. cbn. rewrite !Fe. case_match; [done|]. intros [= <- <-]. by rewrite !Ce.
Qed.

Ltac blind_step :=
  let H := fresh "H" in intros ? ? ? H; unfold DefaultPool.set_debt, DefaultPool.set_ETH, ActivePool.set_debt, ActivePool.set_ETH in *;
  rewrite ?Fw, ?Fa, ?Fd;
  repeat (let E := fresh "E" in apply bind_Ok_inv in H as (? & E & H); rewrite E; cbn [bind]);
  injection H as <- <-; by rewrite ?Ca, ?Cd.

Lemma blind_or_revert msg (m : call System unit) : blind f m -> blind f (or_revert msg m).
Proof. intros M s r s' H. apply or_revert_Ok, M in H. unfold or_revert. by rewrite H. Qed.

Lemma blind_move pd pe : blind f (_movePendingTroveRewardsToActivePool pd pe).
Proof.
  intros s r s' H. unfold _movePendingTroveRewardsToActivePool in *. rewrite Fw.
  revert H. apply blind_bind; [unfold DefaultPool.decreaseZUSDDebt; blind_step|intros _].
  apply blind_bind; [unfold ActivePool.increaseZUSDDebt; blind_step|intros _].
  apply blind_bind; [blind_step|intros _]. clear s r s'. intros s r s' H. rewrite Fw. revert H.
  apply blind_or_revert, blind_bind; [apply blind_pay|intros _]. unfold ActivePool.receive. blind_step.
Qed.
End BlindMoves.

Lemma move_manager m pd pe : blind (fun s => with_manager s m) (_movePendingTroveRewardsToActivePool pd pe).
Proof. by apply blind_move. Qed.

Lemma move_surplus p pd pe : blind (fun s => with_surplus s p) (_movePendingTroveRewardsToActivePool pd pe).
Proof. by apply blind_move. Qed.

Lemma close_surplus p b st : blind (fun s => with_surplus s p) (TroveManager._closeTrove b st).
Proof.
  intros s r s' H. unfold TroveManager._closeTrove, _requireMoreThanOneTroveInSystem in *. read_storage.
  repeat (let E := fresh "E" in apply bind_Ok_inv in H as (? & E & H); rewrite E; cbn [bind]). by injection H as <- <-.
Qed.

Lemma unstake_surplus p b pd pe : blind (fun s => with_surplus s p) (unstake b pd pe).
Proof.
  apply blind_bind; [apply move_surplus|intros _]. intros s r s' H. cbn [manager with_surplus].
  apply bind_Ok_inv in H as (m & E & H). rewrite E. by injection H as <- <-.
Qed.

(** ** A Trove is taken from its owner *)

Lemma entire_Ok m b debt coll pd pe : manager_ok m -> getEntireDebtAndColl m b = Ok (debt, coll, pd, pe) ->
  is_uint pd /\ is_uint pe /\
  DECIMAL_PRECISION * pe <= t_stake (trove m b) * (L_ETH m - snapshot_ETH (snapshot m b)) /\
  debt = t_debt (trove m b) + pd /\ coll = t_coll (trove m b) + pe /\ is_uint debt /\ is_uint coll.
Proof.
  intros M H. pose proof (m_troves _ M b) as T. unfold getEntireDebtAndColl in H. inv_result.
  match goal with E : _getPendingETHReward _ _ = Ok _ |- _ =>
    destruct (pending_Ok _ _ _ _ _ M (m_L_ETH _ M) (t_snap_eth _ _ T) E) as [Ue Le] end.
  match goal with E : _getPendingZUSDDebtReward _ _ = Ok _ |- _ =>
    destruct (pending_Ok _ _ _ _ _ M (m_L_debt _ M) (t_snap_debt _ _ T) E) as [Ud Ld] end.
  simplify_eq. safe_math. by split_and!.
Qed.

Lemma emptied_rewarded m b pe pd n st : emptied (rewarded m b pe pd) b n st = emptied m b n st.
Proof.
  unfold emptied. rewrite rewarded_trove, decide_True by done. cbn [t_arrayIndex].
  unfold rewarded, _updateTroveRewardSnapshots, set_snapshot, set_trove, set_totalStakes. cbn.
  by rewrite !insert_insert_eq.
Qed.

(** What a liquidation of [b] leaves alone. *)
Record seized (b : address) (s s' : System) : Prop := {
  z_wiring : wiring s' = wiring s;
  z_params : params s' = params s;
  z_zusd : zusd s' = zusd s;
  z_surplus : surplus s' = surplus s;
  z_stability : stability s' = stability s;
  z_touched : touched b (manager s) (manager s');
  z_closed : t_status (trove (manager s') b) = closedByLiquidation_;
  z_coll : system_coll s' = system_coll s;
  z_debt : system_debt s' = system_debt s }.

Lemma seize_books dc dd ds s b debt coll pd pe u1 s1 u2 s2 : books dc dd ds s -> dc <= 0 -> is_active (manager s) b = true ->
  getEntireDebtAndColl (manager s) b = Ok (debt, coll, pd, pe) -> unstake b pd pe s = Ok (u1, s1) ->
  TroveManager._closeTrove b closedByLiquidation_ s1 = Ok (u2, s2) ->
  books (dc - coll) (dd - debt) ds s2 /\ seized b s s2.
Proof.
  intros B Hdc A He H1 H2. pose proof (i_manager _ _ _ _ B) as M. pose proof (i_pools _ _ _ _ B) as P.
  destruct (entire_Ok _ _ _ _ _ _ M He) as (Upd & Upe & Le & -> & -> & Udebt & Ucoll).
  unfold unstake in H1. run H1 as x sm Hm. apply bind_Ok_inv in H1 as (m1 & H1 & [= <- <-]).
  destruct (move_Ok s pd pe x sm (b_active_ETH _ _ _ _ P) (b_active_debt _ _ _ _ P) (b_default_ETH _ _ _ _ P)
    (b_default_debt _ _ _ _ P) Upd Upe Hm) as (_ & Em & _).
  apply (move_manager (rewarded (manager s) b pe pd)) in Hm.
  destruct (rewarded_books _ _ _ _ _ _ _ _ _ B A Upe Upd Le Ucoll Udebt Hm) as [Br [Fr Mr Ar Dr]].
  set (m := manager s) in *. set (sr := with_manager sm (rewarded m b pe pd)) in *. rewrite Em in H1.
  pose proof (m_troves _ M b) as T. unfold _removeStake in H1. inv_result. safe_math.
  unfold TroveManager._closeTrove in H2. inv_result. read_storage.
  rewrite trove_set, decide_True in * by done. unfold set_stake in *. cbn [t_stake t_arrayIndex] in *. rewrite set_trove_twice in *.
  match goal with E : _removeTroveOwner _ _ _ = Ok ?x, E3 : SortedTroves.remove _ _ _ = Ok ?y |- _ =>
    destruct (closed_books dc dd ds sr b Br ltac:(by rewrite <- A; apply rewarded_active) (owners_bound _ _ _ _ Br Hdc)
      (totalStakes m - t_stake (trove m b)) closedByLiquidation_ x y (with_sorted (with_manager sr x) y)) as (B' & F' & T' & S') end.
  - cbn [manager sr with_manager]. by rewrite rewarded_trove, decide_True.
  - done.
  - done.
  - cbn [manager sr with_manager]. rewrite emptied_rewarded. eassumption.
  - eassumption.
  - done.
  - cbn [manager sr with_manager] in B'. rewrite rewarded_trove, decide_True in B' by done. cbn [t_coll t_debt] in B'. split; [exact B'|].
    destruct F', Fr. split; unfold system_coll, system_debt; try done; try congruence.
    + etrans; [apply (rewarded_touched m b pe pd)|done].
    + cbn [active_pool default_pool with_sorted with_manager sr] in *. rewrite Ar, Dr. cbn. lia.
    + cbn [active_pool default_pool with_sorted with_manager sr] in *. rewrite Ar, Dr. cbn. lia.
Qed.

(** ** How collateral and debt are shared *)

(** Collateral goes to the liquidator, the Stability Pool, the other Troves and the
    owners; debt is offset or redistributed; no collateral goes where no debt went. *)
Record shares (t : LiquidationTotals) : Prop := {
  v_coll : totalCollInSequence t = totalCollGasCompensation t + totalCollToSendToSP t + totalCollToRedistribute t
                                   + totalCollSurplus t;
  v_debt : totalDebtInSequence t = totalDebtToOffset t + totalDebtToRedistribute t;
  v_coll_uint : is_uint (totalCollInSequence t);
  v_debt_uint : is_uint (totalDebtInSequence t);
  v_gas_uint : is_uint (totalCollGasCompensation t);
  v_zusd_uint : is_uint (totalZUSDGasCompensation t);
  v_offset_uint : is_uint (totalDebtToOffset t);
  v_sp_uint : is_uint (totalCollToSendToSP t);
  v_debt_rest_uint : is_uint (totalDebtToRedistribute t);
  v_coll_rest_uint : is_uint (totalCollToRedistribute t);
  v_surplus_uint : is_uint (totalCollSurplus t);
  v_no_offset : totalDebtToOffset t = 0 -> totalCollToSendToSP t = 0;
  v_no_rest : totalDebtToRedistribute t = 0 -> totalCollToRedistribute t = 0 }.

#[export] Hint Resolve v_coll_uint v_debt_uint v_gas_uint v_zusd_uint v_offset_uint v_sp_uint v_debt_rest_uint v_coll_rest_uint
  v_surplus_uint : uint.

(** The totals of a single liquidation. *)
Definition single (v : LiquidationValues) : LiquidationTotals :=
  mkLiquidationTotals (entireTroveColl v) (entireTroveDebt v) (collGasCompensation v) (ZUSDGasCompensation v)
    (debtToOffset v) (collToSendToSP v) (debtToRedistribute v) (collToRedistribute v) (collSurplus v).

Definition sum (t u : LiquidationTotals) : LiquidationTotals :=
  mkLiquidationTotals (totalCollInSequence t + totalCollInSequence u) (totalDebtInSequence t + totalDebtInSequence u)
    (totalCollGasCompensation t + totalCollGasCompensation u) (totalZUSDGasCompensation t + totalZUSDGasCompensation u)
    (totalDebtToOffset t + totalDebtToOffset u) (totalCollToSendToSP t + totalCollToSendToSP u)
    (totalDebtToRedistribute t + totalDebtToRedistribute u) (totalCollToRedistribute t + totalCollToRedistribute u)
    (totalCollSurplus t + totalCollSurplus u).

Lemma shares_zero : shares zeroTotals.
Proof. split; cbn; try done; apply zero_uint. Qed.

Lemma add_totals t v t' : shares t -> shares (single v) -> _addLiquidationValuesToTotals t v = Ok t' ->
  t' = sum t (single v) /\ shares t'.
Proof.
  intros A B H. unfold _addLiquidationValuesToTotals in H. inv_result.
  pose proof A as [Ac Ad ? ? ? ? Uo ? Ur ? ? Ao Ar]. pose proof B as [Bc Bd ? ? ? ? Vo ? Vr ? ? Bo Br].
  unfold single in *. cbn -[is_uint] in *. safe_math. split; [done|]. unfold is_uint in Uo, Ur, Vo, Vr.
  split; cbn -[is_uint]; try assumption; lia.
Qed.

Lemma offset_vals debt coll k r : is_uint debt -> is_uint coll -> is_uint k -> 0 < debt ->
  _getOffsetAndRedistributionVals debt coll k = Ok r ->
  let '(toOffset, toSP, debtRest, collRest) := r in
  is_uint toOffset /\ is_uint toSP /\ is_uint debtRest /\ is_uint collRest /\
  debt = toOffset + debtRest /\ coll = toSP + collRest /\
  (toOffset = 0 -> toSP = 0) /\ (debtRest = 0 -> collRest = 0).
Proof.
  intros Ud Uc Uk Pd H. unfold _getOffsetAndRedistributionVals in H. destruct (Z.ltb_spec 0 k) as [Pk|Pk].
  - assert (is_uint (_min debt k) /\ 0 < _min debt k) as [Um Pm] by (unfold _min; case_match; split; done || lia).
    inv_result. safe_math. cbv zeta. split_and!; try assumption; try lia.
    intros Z0. assert (_min debt k = debt) as E by lia. rewrite E in *. rewrite Z.div_mul by lia. lia.
  - injection H as <-. split_and!; try done; try apply zero_uint; lia.
Qed.

Lemma offset_exact debt coll k r : is_uint debt -> is_uint coll -> is_uint k -> 0 < debt ->
  _getOffsetAndRedistributionVals debt coll k = Ok r ->
  r = (Z.min debt k, coll * Z.min debt k / debt, debt - Z.min debt k, coll - coll * Z.min debt k / debt).
Proof.
  intros Ud Uc Uk Pd H. unfold _getOffsetAndRedistributionVals in H. assert (_min debt k = Z.min debt k) as Em by (unfold _min; case_Zb; lia).
  rewrite Em in H. assert (is_uint (Z.min debt k)) as Um by (unfold is_uint in *; lia). destruct (Z.ltb_spec 0 k) as [Pk|Pk].
  - inv_result. by safe_math.
  - injection H as <-. assert (Z.min debt k = 0) as -> by (unfold is_uint in Uk; lia). by rewrite Z.mul_0_r, Z.div_0_l, !Z.sub_0_r by lia.
Qed.

Lemma gas_exact s c g : _getCollGasCompensation s c = Ok g -> g = c / PERCENT_DIVISOR (params s).
Proof. unfold _getCollGasCompensation. case_match; [done|]. by intros [= <-]. Qed.

(** ** The rules *)

(** A Trove whose debt is offset against deposits of [k] as far as they go: the liquidator gets a share of its collateral, the
    Stability Pool the part of the rest that belongs to the debt it takes over. *)
Definition even_split (p : Params) (k debt coll : Z) : LiquidationValues :=
  let gas := coll / PERCENT_DIVISOR p in
  let toOffset := Z.min debt k in
  let toSP := (coll - gas) * toOffset / debt in
  mkLiquidationValues debt coll gas ZUSD_GAS_COMPENSATION toOffset toSP (debt - toOffset) (coll - gas - toSP) 0.

(** A Trove whose debt is taken over at the minimum ratio, the rest of its collateral being left to its owner. *)
Definition capped_split (p : Params) (price debt coll : Z) : LiquidationValues :=
  let c := debt * MCR p / price in
  mkLiquidationValues debt coll (c / PERCENT_DIVISOR p) ZUSD_GAS_COMPENSATION debt (c - c / PERCENT_DIVISOR p) 0 0 (coll - c).

(** How [a] is liquidated when deposits of [k] are left: with its pending rewards, by its ratio. *)
Definition liquidation_rule (m : Manager) (p : Params) (price : Z) (mode : bool) (k : Z) (a : address) (v : LiquidationValues) : Prop :=
  is_active m a = true /\ exists ICR debt coll pd pe,
  _getCurrentICR m a price = Ok ICR /\ getEntireDebtAndColl m a = Ok (debt, coll, pd, pe) /\
  (ICR < MCR p /\ v = even_split p k debt coll \/
   mode = true /\ ICR <= _100pct /\ v = even_split p 0 debt coll \/
   mode = true /\ MCR p <= ICR < CCR p /\ debt <= k /\ v = capped_split p price debt coll).

Lemma gas_Ok s c g : params_ok (params s) -> is_uint c -> _getCollGasCompensation s c = Ok g -> is_uint g.
Proof.
  intros P U H. pose proof (p_divisor _ P). unfold _getCollGasCompensation in H. destruct (Z.eqb_spec (PERCENT_DIVISOR (params s)) 0); [done|].
  injection H as <-. unfold is_uint in *. split; [apply Z.div_pos; lia|]. apply Z.le_lt_trans with c; [|lia]. apply Z.div_le_upper_bound; nia.
Qed.

(** ** One Trove *)

(** [b] with collateral [coll] and debt [debt] is taken from its owner. *)
Definition taken (b : address) (debt coll : Z) (s s' : System) : Prop :=
  exists pd pe u1 s1 u2, getEntireDebtAndColl (manager s) b = Ok (debt, coll, pd, pe) /\
    unstake b pd pe s = Ok (u1, s1) /\ TroveManager._closeTrove b closedByLiquidation_ s1 = Ok (u2, s').

Lemma active_debt m b debt coll pd pe : manager_ok m -> is_active m b = true ->
  getEntireDebtAndColl m b = Ok (debt, coll, pd, pe) -> 0 < debt /\ is_uint debt /\ is_uint coll.
Proof.
  intros M A H. destruct (entire_Ok _ _ _ _ _ _ M H) as (Upd & _ & _ & -> & _ & U1 & U2). split_and!; try done.
  pose proof (t_backed _ _ (m_troves _ M b) A). unfold is_uint, MIN_NET_DEBT, ZUSD_GAS_COMPENSATION in *. lia.
Qed.

Lemma move_params pd pe s u s' : _movePendingTroveRewardsToActivePool pd pe s = Ok (u, s') ->
  params s' = params s /\ wiring s' = wiring s.
Proof.
  intros H. unfold _movePendingTroveRewardsToActivePool, DefaultPool.decreaseZUSDDebt, ActivePool.increaseZUSDDebt,
    DefaultPool.sendETHToActivePool in H. inv_call. inv_result. apply or_revert_Ok in H. inv_call.
  match goal with H : pay _ _ _ _ = Ok _ |- _ => apply pay_Ok in H as (_ & e & -> & _) end.
  unfold ActivePool.receive in H. inv_result. done.
Qed.

Lemma unstake_params b pd pe s u s' : unstake b pd pe s = Ok (u, s') -> params s' = params s /\ wiring s' = wiring s.
Proof.
  intros H. unfold unstake in H. run H as x s1 H1. apply move_params in H1 as [<- <-]. by apply bind_Ok_inv in H as (m & _ & [= _ <-]).
Qed.

(** The shares of a Trove whose debt is offset as far as possible. *)
Lemma full_shares s debt coll g c r : params_ok (params s) -> is_uint debt -> is_uint coll -> 0 < debt ->
  _getCollGasCompensation s coll = Ok g -> SafeMath.sub coll g = Ok c ->
  (let '(toOffset, toSP, debtRest, collRest) := r in
   is_uint toOffset /\ is_uint toSP /\ is_uint debtRest /\ is_uint collRest /\
   debt = toOffset + debtRest /\ c = toSP + collRest /\ (toOffset = 0 -> toSP = 0) /\ (debtRest = 0 -> collRest = 0)) ->
  let '(toOffset, toSP, debtRest, collRest) := r in
  shares (single (mkLiquidationValues debt coll g ZUSD_GAS_COMPENSATION toOffset toSP debtRest collRest 0)).
Proof.
  intros P Ud Uc Pd Hg Hc. pose proof (gas_Ok _ _ _ P Uc Hg) as Ug. safe_math. destruct r as [[[a b] d] e].
  intros (U1 & U2 & U3 & U4 & Ed & Ec & Z1 & Z2). split; cbn -[is_uint]; try assumption; try lia; uint.
Qed.

Section One.
Context (s : System) (b : address) (k : Z).
Context (M : manager_ok (manager s)) (P : params_ok (params s)) (A : is_active (manager s) b = true) (Uk : is_uint k).

Lemma normal_values v s' : _liquidateNormalMode b k s = Ok (v, s') ->
  taken b (entireTroveDebt v) (entireTroveColl v) s s' /\ shares (single v) /\ collSurplus v = 0 /\
  exists debt coll pd pe, getEntireDebtAndColl (manager s) b = Ok (debt, coll, pd, pe) /\ v = even_split (params s) k debt coll.
Proof.
  intros H. unfold _liquidateNormalMode in H. view H as e He. destruct e as [[[debt coll] pd] pe].
  destruct (active_debt _ _ _ _ _ _ M A He) as (Pd & Ud & Uc).
  run H as u1 s1 H1. destruct (unstake_params _ _ _ _ _ _ H1) as [Ep _]. view H as g Hg. pure H as c Hc. pure H as r Hr.
  rewrite <- Ep in P. pose proof (gas_Ok _ _ _ P Uc Hg) as Ug. assert (is_uint c) as Ucl by (by safe_math).
  pose proof (offset_vals _ _ _ _ Ud Ucl Uk Pd Hr) as Hv.
  pose proof (full_shares _ _ _ _ _ r P Ud Uc Pd Hg Hc) as Hs. pose proof (offset_exact _ _ _ _ Ud Ucl Uk Pd Hr) as Er.
  apply gas_exact in Hg as Eg. rewrite Ep in Eg. safe_math. destruct r as [[[a x] d] e].
  run H as u2 s2 H2. injection H as <- <-. split_and!; [|by apply Hs|done|].
  - by exists pd, pe, u1, s1, u2.
  - exists debt, coll, pd, pe. split; [done|]. injection Er as -> -> -> ->. unfold even_split. by rewrite <- Eg.
Qed.

(** Collateral left to the owner is accounted. *)
Definition accounted (n : Z) (s s' : System) : Prop :=
  (n = 0 /\ s' = s) \/
  exists x, SafeMath.add (getCollateral s b) n = Ok x /\
    s' = with_surplus s (mkSurplus (surplus_ETH (surplus s)) (<[b := x]> (surplus_balances (surplus s)))).

Lemma capped_shares price debt coll v : is_uint debt -> is_uint coll -> 0 < debt ->
  _getCappedOffsetVals s debt coll price = Ok v ->
  shares (single v) /\ entireTroveDebt v = debt /\ entireTroveColl v = coll /\ v = capped_split (params s) price debt coll.
Proof.
  intros Ud Uc Pd H. unfold _getCappedOffsetVals in H. inv_result. pose proof (p_MCR _ P).
  match goal with E : SafeMath.mul _ _ = Ok _ |- _ => pose proof (mul_word _ _ _ E); apply mul_Ok in E as (-> & _); [|done|done] end.
  match goal with E : SafeMath.div ?a _ = Ok _, V : is_uint ?a |- _ => destruct (div_Ok a _ _ V E) as (-> & _ & Uo) end.
  match goal with E : _getCollGasCompensation _ _ = Ok _ |- _ => pose proof (gas_Ok _ _ _ P Uo E) as Ug; apply gas_exact in E as Eg end.
  safe_math. split_and!; [|done|done|by rewrite Eg]. split; cbn -[is_uint]; try assumption; try lia; uint.
Qed.

Lemma recovery_values ICR TCR price v s' : _liquidateRecoveryMode b ICR k TCR price s = Ok (v, s') ->
  v = zeroVals /\ s' = s \/
  shares (single v) /\
  (exists debt coll pd pe, getEntireDebtAndColl (manager s) b = Ok (debt, coll, pd, pe) /\
    (ICR < MCR (params s) /\ v = even_split (params s) k debt coll \/ ICR <= _100pct /\ v = even_split (params s) 0 debt coll \/
     MCR (params s) <= ICR < TCR /\ debt <= k /\ v = capped_split (params s) price debt coll)) /\
  exists s2, taken b (entireTroveDebt v) (entireTroveColl v) s s2 /\ accounted (collSurplus v) s2 s'.
Proof.
  intros H. unfold _liquidateRecoveryMode in H. view H as n Hn. destruct (n <=? 1); [left; by injection H as <- <-|].
  view H as e He. destruct e as [[[debt coll] pd] pe]. destruct (active_debt _ _ _ _ _ _ M A He) as (Pd & Ud & Uc).
  view H as g Hg. pure H as c Hc. view H as minimum Hmin. injection Hmin as <-.
  pose proof (gas_Ok _ _ _ P Uc Hg) as Ug. assert (is_uint c) as Ucl by (by safe_math). pose proof (gas_exact _ _ _ Hg) as Eg.
  assert (c = coll - g) as Ec by (by safe_math).
  destruct (Z.leb_spec ICR _100pct) as [L|L].
  { right. run H as u1 s1 H1. run H as u2 s2 H2. injection H as <- <-. split_and!; [| |].
    - apply (full_shares _ _ _ _ _ (0, 0, debt, c) P Ud Uc Pd Hg Hc). split_and!; try done; try apply zero_uint; lia.
    - exists debt, coll, pd, pe. split; [done|]. right. left. split; [done|]. unfold even_split.
      by rewrite Z.min_r, Z.mul_0_r, Z.div_0_l, !Z.sub_0_r, <- Eg, Ec by lia.
    - exists s2. split; [by exists pd, pe, u1, s1, u2|by left]. }
  destruct ((_100pct <? ICR) && (ICR <? MCR (params s))) eqn:E2.
  { right. apply andb_prop in E2 as [_ E2%Z.ltb_lt]. run H as u1 s1 H1. pure H as r Hr.
    pose proof (offset_vals _ _ _ _ Ud Ucl Uk Pd Hr) as Hv.
    pose proof (full_shares _ _ _ _ _ r P Ud Uc Pd Hg Hc) as Hs. pose proof (offset_exact _ _ _ _ Ud Ucl Uk Pd Hr) as Er. destruct r as [[[a x] d] e].
    run H as u2 s2 H2. injection H as <- <-. split_and!; [by apply Hs| |].
    { exists debt, coll, pd, pe. split; [done|]. left. split; [done|]. injection Er as -> -> -> ->. unfold even_split. by rewrite <- Eg, Ec. }
    exists s2. split; [by exists pd, pe, u1, s1, u2|by left]. }
  destruct ((MCR (params s) <=? ICR) && (ICR <? TCR) && (debt <=? k)) eqn:E3; [|left; by injection H as <- <-].
  right. apply andb_prop in E3 as [[E4%Z.leb_le E3%Z.ltb_lt]%andb_prop E5%Z.leb_le]. run H as x sm Hm. pure H as ok Hok. run H as y s1 H1.
  destruct (move_params _ _ _ _ _ Hm) as [Ep Ew]. apply bind_Ok_inv in H1 as (m1 & H1 & [= <- <-]).
  view H as w Hw. run H as u2 s2 H2. view H as me Hme. run H as z s3 H3. injection H as <- <-.
  assert (_getCappedOffsetVals s debt coll price = Ok w) as Hw'.
  { rewrite <- Hw. unfold _getCappedOffsetVals, _getCollGasCompensation. by rewrite <- Ep. }
  destruct (capped_shares _ _ _ _ Ud Uc Pd Hw') as (Hs & -> & -> & Ew'). split_and!; [done| |].
  { exists debt, coll, pd, pe. split; [done|]. right. right. by split_and!. }
  exists s2. split.
  - exists pd, pe, tt, (with_manager sm m1), u2. split_and!; try done. unfold unstake, call_bind. rewrite Hm. cbn. by rewrite H1.
  - destruct (Z.ltb_spec 0 (collSurplus w)).
    + right. unfold accountSurplus in H3. inv_result. eexists. split; [eassumption|done].
    + left. injection H3 as _ <-. pose proof (v_surplus_uint _ Hs) as U. unfold is_uint in U. cbn in U. split; [lia|done].
Qed.
End One.

(** ** Sequences of Troves *)

Lemma ICR_like m m' a price : like (trove m' a) (trove m a) -> snapshot m' a = snapshot m a ->
  L_ETH m' = L_ETH m -> L_ZUSDDebt m' = L_ZUSDDebt m -> _getCurrentICR m' a price = _getCurrentICR m a price.
Proof.
  intros (L1 & L2 & L3 & L4) Es E1 E2.
  unfold _getCurrentICR, _getCurrentTroveAmounts, _getPendingETHReward, _getPendingZUSDDebtReward, pending, is_active.
  by rewrite L1, L2, L3, L4, Es, E1, E2.
Qed.

Lemma pending_inactive m a term snap p : is_active m a = false -> pending m a term snap = Ok p -> p = 0.
Proof. intros A H. unfold pending in H. inv_result. rewrite A, orb_true_r in H. by injection H as <-. Qed.

Lemma inactive_ICR m a price x : manager_ok m -> is_active m a = false -> _getCurrentICR m a price = Ok x -> x = MAX_UINT.
Proof.
  intros M A H. destruct (t_closed _ _ (m_troves _ M a) A) as (Ec & Ed & _).
  unfold _getCurrentICR, _getCurrentTroveAmounts in H. inv_result.
  match goal with E : _getPendingETHReward _ _ = Ok _, F : _getPendingZUSDDebtReward _ _ = Ok _ |- _ =>
    apply pending_inactive in E as ->; [|done]; apply pending_inactive in F as ->; [|done] end.
  rewrite Ec, Ed in *. safe_math. cbn [fst snd] in H. by injection H as <-.
Qed.

Lemma computeCR_max coll debt price x : _computeCR coll debt price = Ok x -> x <= MAX_UINT.
Proof.
  unfold _computeCR. destruct (0 <? debt); [|by intros [= <-]]. intros H. inv_result.
  match goal with E : SafeMath.mul _ _ = Ok _ |- _ => apply mul_word in E; destruct (div_Ok _ _ _ E H) as (_ & _ & U) end.
  unfold is_uint, MAX_UINT in *. lia.
Qed.

Lemma entire_like m m' a : like (trove m' a) (trove m a) -> snapshot m' a = snapshot m a ->
  L_ETH m' = L_ETH m -> L_ZUSDDebt m' = L_ZUSDDebt m -> getEntireDebtAndColl m' a = getEntireDebtAndColl m a.
Proof.
  intros (L1 & L2 & L3 & L4) Es E1 E2. unfold getEntireDebtAndColl, _getPendingETHReward, _getPendingZUSDDebtReward, pending, is_active.
  by rewrite L1, L2, L3, L4, Es, E1, E2.
Qed.

Lemma rule_like m m' p price mode k a v : like (trove m' a) (trove m a) -> snapshot m' a = snapshot m a ->
  L_ETH m' = L_ETH m -> L_ZUSDDebt m' = L_ZUSDDebt m -> liquidation_rule m' p price mode k a v -> liquidation_rule m p price mode k a v.
Proof.
  intros Lk Es E1 E2. unfold liquidation_rule. rewrite (ICR_like _ _ _ _ Lk Es E1 E2), (entire_like _ _ _ Lk Es E1 E2).
  unfold is_active. by destruct Lk as (_ & _ & _ & ->).
Qed.

(** ** Lists of liquidated Troves *)

Abbreviation liquidations := (list (address * LiquidationValues)).

Definition totals_of (l : liquidations) : LiquidationTotals := foldr (fun x t => sum (single x.2) t) zeroTotals l.

(** One Trove after the other, each against the deposits that the ones before it have left. *)
Fixpoint by_rules (m : Manager) (p : Params) (price : Z) (mode : bool) (k : Z) (l : liquidations) : Prop :=
  match l with
  | [] => True
  | (a, v) :: l => liquidation_rule m p price mode k a v /\ by_rules m p price mode (k - debtToOffset v) l
  end.

Lemma totals_of_snoc l x : totals_of (l ++ [x]) = sum (totals_of l) (single x.2).
Proof.
  unfold totals_of. induction l as [|y l IH]; cbn [foldr app].
  - unfold sum, single. cbn. by rewrite !Z.add_0_r.
  - rewrite IH. unfold sum. cbn. by rewrite !Z.add_assoc.
Qed.

Lemma by_rules_snoc m p price mode k l a v : by_rules m p price mode k l ->
  liquidation_rule m p price mode (k - totalDebtToOffset (totals_of l)) a v -> by_rules m p price mode k (l ++ [(a, v)]).
Proof.
  revert k. induction l as [|[b w] l IH]; intros k; cbn [by_rules app totals_of foldr].
  - cbn. rewrite Z.sub_0_r. by split.
  - intros [H1 H2] H. split; [done|]. apply IH; [done|]. cbn in H. unfold totals_of. by rewrite <- Z.sub_add_distr.
Qed.

Lemma by_rules_elem m p price mode k l a v : by_rules m p price mode k l -> (a, v) ∈ l -> exists k', liquidation_rule m p price mode k' a v.
Proof.
  revert k. induction l as [|[b w] l IH]; intros k; [by intros _ H%not_elem_of_nil|].
  intros [H1 H2] [[= -> ->]|H]%elem_of_cons; [by exists k|]. by eapply IH.
Qed.

Section Sequences.
Context (pool price : Z) (mode : bool) (s0 : System) (I0 : inv s0).

(** The ratios at which a Trove may be liquidated. *)
Definition eligible (ICR : Z) : Prop :=
  ICR < MCR (params s0) \/ mode = true /\ (ICR < CCR (params s0) \/ ICR <= _100pct).

(** A Trove is as it was, or has been liquidated for its ratio. *)
Definition visited (s : System) (a : address) : Prop :=
  like (trove (manager s) a) (trove (manager s0) a) /\ snapshot (manager s) a = snapshot (manager s0) a \/
  is_active (manager s0) a = true /\ t_status (trove (manager s) a) = closedByLiquidation_ /\
  exists ICR, _getCurrentICR (manager s0) a price = Ok ICR /\ eligible ICR.

(** The Troves of [l] have been closed by the rules, and what is left to their owners is accounted; all others are as they were. *)
Record recorded (l : liquidations) (t : LiquidationTotals) (s : System) : Prop := {
  lr_nodup : NoDup l.*1;
  lr_totals : t = totals_of l;
  lr_rules : by_rules (manager s0) (params s0) price mode pool l;
  lr_closed : forall a v, (a, v) ∈ l ->
    t_status (trove (manager s) a) = closedByLiquidation_ /\ getCollateral s a = getCollateral s0 a + collSurplus v;
  lr_others : forall a, a ∉ l.*1 -> like (trove (manager s) a) (trove (manager s0) a) /\
    snapshot (manager s) a = snapshot (manager s0) a /\ getCollateral s a = getCollateral s0 a }.

Lemma recorded_visited l t s a : recorded l t s -> visited s a.
Proof.
  intros R. destruct (decide (a ∈ l.*1)) as [H|H]; [right|left; by destruct (lr_others _ _ _ R a H) as (? & ? & _)].
  apply list_elem_of_fmap in H as ([a' v] & -> & H). cbn. destruct (by_rules_elem _ _ _ _ _ _ _ _ (lr_rules _ _ _ R) H) as (k & A & ICR & d & c & x & y & HI & _ & Hr).
  split_and!; [done|by apply (lr_closed _ _ _ R a' v)|]. exists ICR. split; [done|]. unfold eligible. destruct Hr as [[? _]|[(? & ? & _)|(? & ? & _)]]; [tauto|tauto|].
  right. split; [done|]. left. lia.
Qed.

Record progress (q : Sequence) (s : System) : Prop := {
  g_shares : shares (totals q);
  g_pool : remainingZUSDInStabPool q + totalDebtToOffset (totals q) = pool;
  g_rest : is_uint (remainingZUSDInStabPool q);
  g_mode : mode = true -> backToNormalMode q = false ->
           exists TCR, _computeCR (entireSystemColl q) (entireSystemDebt q) price = Ok TCR /\ TCR < CCR (params s0);
  g_books : books (- totalCollInSequence (totals q)) (- totalDebtInSequence (totals q)) 0 (with_surplus s (surplus s0));
  g_entries : forall a, is_uint (getCollateral s a);
  g_surplus_ETH : surplus_ETH (surplus s) = surplus_ETH (surplus s0);
  g_surplus : total (fun _ n => n) (surplus_balances (surplus s)) = surplus_ETH (surplus s0) + totalCollSurplus (totals q);
  g_wiring : wiring s = wiring s0;
  g_params : params s = params s0;
  g_zusd : zusd s = zusd s0;
  g_stability : stability s = stability s0;
  g_L_ETH : L_ETH (manager s) = L_ETH (manager s0);
  g_L_debt : L_ZUSDDebt (manager s) = L_ZUSDDebt (manager s0);
  g_eth_error : lastETHError_Redistribution (manager s) = lastETHError_Redistribution (manager s0);
  g_debt_error : lastZUSDDebtError_Redistribution (manager s) = lastZUSDDebtError_Redistribution (manager s0);
  g_record : exists l, recorded l (totals q) s;
  g_coll : system_coll s = system_coll s0;
  g_debt : system_debt s = system_debt s0 }.

(** The state before the surplus is accounted, with the surplus pool of the start. *)
Lemma taken_books q s b debt coll s2 : progress q s -> is_active (manager s) b = true -> taken b debt coll s s2 ->
  books (- totalCollInSequence (totals q) - coll) (- totalDebtInSequence (totals q) - debt) 0 (with_surplus s2 (surplus s0)) /\
  seized b (with_surplus s (surplus s0)) (with_surplus s2 (surplus s0)) /\ surplus s2 = surplus s.
Proof.
  intros G A (pd & pe & u1 & s1 & u2 & He & H1 & H2). pose proof (g_books _ _ G) as B. pose proof (v_coll_uint _ (g_shares _ _ G)) as [Uc _].
  assert (surplus s2 = surplus s) as Es.
  { pose proof (unstake_surplus (surplus s) b pd pe _ _ _ H1) as K1. pose proof (close_surplus (surplus s) b _ _ _ _ H2) as K2. cbn in K1, K2.
    replace (with_surplus s (surplus s)) with s in K1 by (by destruct s). rewrite H1 in K1. injection K1 as K1.
    rewrite <- K1, H2 in K2. injection K2 as K2. by rewrite K2. }
  apply (unstake_surplus (surplus s0)) in H1. apply (close_surplus (surplus s0)) in H2.
  destruct (seize_books _ _ _ _ _ _ _ _ _ _ _ _ _ B ltac:(lia) A He H1 H2) as [B' F]. by split_and!.
Qed.

(** The entries of the surplus pool after an account of [n]. *)
Lemma accounted_surplus b n s s' : (forall a, is_uint (getCollateral s a)) -> is_uint n -> accounted b n s s' ->
  (forall a, is_uint (getCollateral s' a)) /\ surplus_ETH (surplus s') = surplus_ETH (surplus s) /\
  total (fun _ n => n) (surplus_balances (surplus s')) = total (fun _ n => n) (surplus_balances (surplus s)) + n /\
  (forall a, getCollateral s' a = getCollateral s a + (if decide (a = b) then n else 0)) /\
  (forall p, with_surplus s' p = with_surplus s p) /\ manager s' = manager s /\ wiring s' = wiring s /\ params s' = params s /\
  zusd s' = zusd s /\ stability s' = stability s /\ active_pool s' = active_pool s /\ default_pool s' = default_pool s.
Proof.
  intros E U [[-> ->]|(x & H & ->)]; [split_and!; try done; try lia; intros a; case_decide; lia|]. pose proof (E b). safe_math. split_and!; try done.
  - intros a. unfold getCollateral. cbn. rewrite default_insert. case_decide; [done|apply E].
  - cbn. rewrite (total_insert _ _ _ _ 0) by done. unfold getCollateral. lia.
  - intros a. unfold getCollateral. cbn. rewrite default_insert. case_decide; [by subst|lia].
Qed.

Lemma record_step q s b v s' t' : progress q s -> is_active (manager s) b = true ->
  liquidation_rule (manager s) (params s0) price mode (remainingZUSDInStabPool q) b v -> t' = sum (totals q) (single v) ->
  touched b (manager s) (manager s') -> t_status (trove (manager s') b) = closedByLiquidation_ ->
  (forall a, getCollateral s' a = getCollateral s a + (if decide (a = b) then collSurplus v else 0)) ->
  exists l, recorded l t' s'.
Proof.
  intros G A R -> T St C. destruct (g_record _ _ G) as [l [Nd Et Rs Cl Ot]].
  assert (b ∉ l.*1) as Nb.
  { intros ([b' w] & -> & H)%list_elem_of_fmap. destruct (Cl _ _ H) as [E _]. unfold is_active in A. cbn in A. by rewrite E in A. }
  destruct (Ot b Nb) as (Lk & Sn & Cb). exists (l ++ [(b, v)]). split.
  - rewrite fmap_app. apply NoDup_app. split_and!; [done| |apply NoDup_singleton]. intros x Hx ->%list_elem_of_singleton. done.
  - by rewrite totals_of_snoc, Et.
  - apply by_rules_snoc; [done|]. apply (rule_like _ _ _ _ _ _ _ _ Lk Sn (g_L_ETH _ _ G) (g_L_debt _ _ G)).
    rewrite <- Et. replace (pool - _) with (remainingZUSDInStabPool q) by (pose proof (g_pool _ _ G); lia). done.
  - intros a w [H|[= -> ->]%list_elem_of_singleton]%elem_of_app; rewrite C.
    + assert (a <> b) as N by (intros ->; apply Nb, list_elem_of_fmap; by exists (b, w)). destruct (Cl _ _ H) as [E1 E2].
      destruct (h_trove _ _ _ T a N) as (_ & _ & _ & ->). rewrite decide_False by done. split; [done|lia].
    + rewrite decide_True by done. split; [done|lia].
  - intros a. rewrite fmap_app. intros [H N]%not_elem_of_app. assert (a <> b) as N' by (intros ->; apply N, list_elem_of_singleton; done).
    destruct (Ot a H) as (L1 & S1 & C1). rewrite C, decide_False by done. rewrite (h_snapshot _ _ _ T a N').
    split_and!; [eapply like_trans; [by apply T|done]|done|lia].
Qed.

Lemma seize_step q s b v s2 s' t' k' back d c : progress q s -> is_active (manager s) b = true ->
  taken b (entireTroveDebt v) (entireTroveColl v) s s2 -> shares (single v) -> accounted b (collSurplus v) s2 s' ->
  liquidation_rule (manager s) (params s0) price mode (remainingZUSDInStabPool q) b v ->
  _addLiquidationValuesToTotals (totals q) v = Ok t' -> SafeMath.sub (remainingZUSDInStabPool q) (debtToOffset v) = Ok k' ->
  (mode = true -> back = false -> exists TCR, _computeCR c d price = Ok TCR /\ TCR < CCR (params s0)) ->
  progress (mkSequence k' back d c t') s'.
Proof.
  intros G A T S Ac R Ht Hk Hm. destruct (add_totals _ _ _ (g_shares _ _ G) S Ht) as [Et St].
  destruct (taken_books _ _ _ _ _ _ G A T) as (B2 & F2 & Es2). pose proof (v_offset_uint _ S) as Uo. pose proof (v_surplus_uint _ S) as Us.
  pose proof (g_rest _ _ G) as Ur. cbn [single totalDebtToOffset totalCollSurplus] in Uo, Us. safe_math.
  assert (forall a, is_uint (getCollateral s2 a)) as E2 by (unfold getCollateral; rewrite Es2; apply G).
  destruct (accounted_surplus _ _ _ _ E2 Us Ac) as (E3 & X1 & X2 & Xc & X3 & Xm & Xw & Xp & Xz & Xs & Xa & Xd).
  destruct F2 as [Fw Fp Fz _ Fs Ft Fc Fl Fd]. cbn [wiring params zusd stability manager with_surplus] in *.
  assert (exists l, recorded l t' s') as Hl.
  { apply (record_step q s b v); rewrite ?Xm; try done. intros a. rewrite Xc. unfold getCollateral. by rewrite Es2. }
  subst t'. pose proof (g_pool _ _ G). split; cbn [totals remainingZUSDInStabPool backToNormalMode entireSystemColl entireSystemDebt]; try done;
    rewrite ?Xm, ?Xw, ?Xp, ?Xz, ?Xs.
  - cbn. lia.
  - rewrite X3. cbn [sum single totalCollInSequence totalDebtInSequence]. eqbooks B2.
  - by rewrite X1, Es2, (g_surplus_ETH _ _ G).
  - rewrite X2, Es2, (g_surplus _ _ G). cbn. lia.
  - by rewrite Fw, (g_wiring _ _ G).
  - by rewrite Fp, (g_params _ _ G).
  - by rewrite Fz, (g_zusd _ _ G).
  - by rewrite Fs, (g_stability _ _ G).
  - by rewrite (h_L_ETH _ _ _ Ft), (g_L_ETH _ _ G).
  - by rewrite (h_L_debt _ _ _ Ft), (g_L_debt _ _ G).
  - by rewrite (h_eth_error _ _ _ Ft), (g_eth_error _ _ G).
  - by rewrite (h_debt_error _ _ _ Ft), (g_debt_error _ _ G).
  - rewrite <- (g_coll _ _ G). unfold system_coll in *. by rewrite Xa, Xd.
  - rewrite <- (g_debt _ _ G). unfold system_debt in *. by rewrite Xa, Xd.
Qed.

Lemma below_active q s b ICR : progress q s -> _getCurrentICR (manager s) b price = Ok ICR -> ICR < MCR (params s0) ->
  is_active (manager s) b = true.
Proof.
  intros G HI L. destruct (is_active (manager s) b) eqn:A; [done|]. pose proof (i_manager _ _ _ _ (g_books _ _ G)) as M.
  rewrite (inactive_ICR _ _ _ _ M A HI) in L. pose proof (p_MCR _ (i_params _ _ _ _ I0)). unfold is_uint, MAX_UINT in *. lia.
Qed.

Lemma progress_params q s : progress q s -> params_ok (params s).
Proof. intros G. rewrite (g_params _ _ G). apply I0. Qed.

Lemma normal_step q s b ICR q' s' : progress q s -> _getCurrentICR (manager s) b price = Ok ICR -> ICR < MCR (params s0) ->
  (mode = true -> backToNormalMode q = true) -> liquidate_normal q b s = Ok (q', s') -> progress q' s'.
Proof.
  intros G HI L Hb H. pose proof (below_active _ _ _ _ G HI L) as A. pose proof (i_manager _ _ _ _ (g_books _ _ G)) as M.
  unfold liquidate_normal in H. run H as v s1 Hv. pure H as k Hk. pure H as t Ht. injection H as <- <-.
  destruct (normal_values s b _ M (progress_params _ _ G) A (g_rest _ _ G) v s1 Hv) as (T & S & E & debt & coll & pd & pe & He & Ev).
  rewrite (g_params _ _ G) in Ev. apply (seize_step q s b v s1 s1 t k _ _ _); try done; [left; done| |].
  - split; [done|]. exists ICR, debt, coll, pd, pe. split_and!; try done. by left.
  - intros Em F. by rewrite Hb in F.
Qed.

(** A Trove that is left alone adds nothing. *)
Lemma idle_step q s k back d c t : progress q s -> SafeMath.sub (remainingZUSDInStabPool q) 0 = Ok k ->
  _addLiquidationValuesToTotals (totals q) zeroVals = Ok t ->
  (mode = true -> back = false -> exists TCR, _computeCR c d price = Ok TCR /\ TCR < CCR (params s0)) ->
  progress (mkSequence k back d c t) s.
Proof.
  intros G Hk Ht Hm. destruct (add_totals _ zeroVals _ (g_shares _ _ G) shares_zero Ht) as [-> St].
  pose proof (g_rest _ _ G). safe_math. rewrite Z.sub_0_r in *.
  assert (sum (totals q) (single zeroVals) = totals q) as E.
  { unfold sum. cbn. rewrite !Z.add_0_r. by destruct (totals q). }
  rewrite E in *. destruct G. by split.
Qed.

Lemma recovery_idle b ICR k TCR s v s' : ICR = MAX_UINT -> TCR <= MAX_UINT -> params_ok (params s) ->
  _liquidateRecoveryMode b ICR k TCR price s = Ok (v, s') -> v = zeroVals /\ s' = s.
Proof.
  intros -> L P H. unfold _liquidateRecoveryMode in H. view H as n Hn. destruct (n <=? 1); [by injection H as <- <-|].
  view H as e He. destruct e as [[[debt coll] pd] pe]. view H as g Hg. pure H as c Hc. view H as minimum Hmin. injection Hmin as <-.
  pose proof (p_MCR _ P) as U. unfold is_uint in U. pose proof UINT256_big as G.
  assert (_100pct < MAX_UINT) as L1 by (unfold MAX_UINT, _100pct; lia).
  assert (MCR (params s) <= MAX_UINT) as L2 by (unfold MAX_UINT; lia).
  apply Z.leb_gt in L1. apply Z.ltb_ge in L2, L. rewrite L1, L2, L, !andb_false_r in H.
  injection H as <- <-. split; reflexivity.
Qed.

Lemma recovery_step ws q s b ICR q' s' : mode = true -> progress q s -> backToNormalMode q = false ->
  _getCurrentICR (manager s) b price = Ok ICR -> liquidate_recovery ws price q b ICR s = Ok (q', s') -> progress q' s'.
Proof.
  intros Em G Hb HI H. pose proof (i_manager _ _ _ _ (g_books _ _ G)) as M. pose proof (progress_params _ _ G) as P.
  unfold liquidate_recovery in H. pure H as TCR HT. run H as v s1 Hv. pure H as k Hk. pure H as d Hd. pure H as c1 Hc1.
  pure H as c Hc. pure H as t Ht. view H as rec Hr. injection H as <- <-.
  assert (progress (mkSequence k true d c t) s1) as G1.
  { destruct (is_active (manager s) b) eqn:A.
    - destruct (recovery_values s b _ M P A (g_rest _ _ G) _ _ _ _ _ Hv) as [[-> ->]|(S & (debt & coll & pd & pe & He & El) & s2 & T & Ac)].
      + by apply (idle_step q).
      + apply (seize_step q s b v s2 s1 t k true d c); try done.
        destruct (g_mode _ _ G Em Hb) as (x & Hx & Lx). rewrite HT in Hx. injection Hx as ->. rewrite (g_params _ _ G) in El.
        split; [done|]. exists ICR, debt, coll, pd, pe. split_and!; try done.
        destruct El as [El|[El|(L1 & L2 & El)]]; [by left|by right; left|right; right]. split_and!; try done; lia.
    - destruct (recovery_idle _ _ _ _ _ _ _ (inactive_ICR _ _ _ _ M A HI) (computeCR_max _ _ _ _ HT) P Hv) as [-> ->].
      by apply (idle_step q). }
  destruct G1. split; try done. intros _ Hn. cbn in Hn |- *. apply negb_false_iff in Hn. subst rec.
  unfold _checkPotentialRecoveryMode in Hr. cbn in g_params0. rewrite g_params0 in Hr. inv_result. eexists. split; [eassumption|]. by apply Z.ltb_lt.
Qed.

(** What a visit of the next Trove leads to. *)
Definition visit_ok (s : System) (r : visit) (s' : System) : Prop :=
  match r with Liquidated q => progress q s' | Skipped => s' = s end.

Lemma visit_normal_ok q s b r s' : mode = false -> progress q s -> visit_normal price q b s = Ok (r, s') -> visit_ok s r s'.
Proof.
  intros Em G H. unfold visit_normal in H. view H as ICR HI. view H as minimum Hmin. injection Hmin as <-.
  rewrite (g_params _ _ G) in H. destruct (Z.ltb_spec ICR (MCR (params s0))); [|by injection H as <- <-].
  run H as q' s1 H1. injection H as <- <-. apply (normal_step q s b ICR); try done. by rewrite Em.
Qed.

Lemma visit_recovery_ok ws q s b r s' : mode = true -> progress q s -> visit_recovery ws price q b s = Ok (r, s') -> visit_ok s r s'.
Proof.
  intros Em G H. unfold visit_recovery in H. view H as ICR HI. view H as minimum Hmin. injection Hmin as <-.
  rewrite (g_params _ _ G) in H. destruct (backToNormalMode q) eqn:Eb; cbn [negb andb] in H.
  - destruct (Z.ltb_spec ICR (MCR (params s0))); [|by injection H as <- <-].
    run H as q' s1 H1. injection H as <- <-. by apply (normal_step q s b ICR).
  - destruct (_ && _); [by injection H as <- <-|]. run H as q' s1 H1. injection H as <- <-. by apply (recovery_step ws q s b ICR).
Qed.

Lemma normal_loop_ok gas n q s q' s' : mode = false -> progress q s -> normal_loop gas price n q s = Ok (q', s') -> progress q' s'.
Proof.
  intros Em. revert n q s. induction gas as [|gas IH]; intros n q s G H; cbn [normal_loop] in H;
    (destruct (0 <? n); [|by injection H as <- <-]); [done|].
  view H as user Hu. run H as v s1 Hv. pose proof (visit_normal_ok _ _ _ _ _ Em G Hv) as V. destruct v; cbn in V.
  - by apply (IH _ _ _ V H).
  - subst s1. by injection H as <- <-.
Qed.

Lemma recovery_loop_ok gas n first user q s q' s' : mode = true -> progress q s ->
  recovery_loop gas price n first user q s = Ok (q', s') -> progress q' s'.
Proof.
  intros Em. revert n user q s. induction gas as [|gas IH]; intros n user q s G H; cbn [recovery_loop] in H;
    (destruct (_ && _); [|by injection H as <- <-]); [done|].
  view H as next Hn. run H as v s1 Hv. pose proof (visit_recovery_ok _ _ _ _ _ _ Em G Hv) as V. destruct v; cbn in V.
  - by apply (IH _ _ _ _ V H).
  - subst s1. by injection H as <- <-.
Qed.

Lemma normal_batch_ok l q s q' s' : mode = false -> progress q s -> normal_batch price l q s = Ok (q', s') -> progress q' s'.
Proof.
  intros Em. revert q s. induction l as [|user l IH]; intros q s G H; cbn [normal_batch] in H; [by injection H as <- <-|].
  run H as v s1 Hv. pose proof (visit_normal_ok _ _ _ _ _ Em G Hv) as V. destruct v; cbn in V; [|subst s1]; by eapply IH.
Qed.

Lemma recovery_batch_ok l q s q' s' : mode = true -> progress q s -> recovery_batch price l q s = Ok (q', s') -> progress q' s'.
Proof.
  intros Em. revert q s. induction l as [|user l IH]; intros q s G H; cbn [recovery_batch] in H; [by injection H as <- <-|].
  view H as act Ha. destruct (negb act); [by eapply IH|].
  run H as v s1 Hv. pose proof (visit_recovery_ok _ _ _ _ _ _ Em G Hv) as V. destruct v; cbn in V; [|subst s1]; by eapply IH.
Qed.

Lemma start_progress q : totals q = zeroTotals -> remainingZUSDInStabPool q = pool -> pool = totalZUSDDeposits (stability s0) ->
  (mode = true -> exists TCR, _computeCR (entireSystemColl q) (entireSystemDebt q) price = Ok TCR /\ TCR < CCR (params s0)) ->
  progress q s0.
Proof.
  intros Et Ek Ep Hm. pose proof (i_surplus _ _ _ _ I0) as S. split; rewrite ?Et, ?Ek; cbn [zeroTotals totalCollInSequence totalDebtInSequence totalDebtToOffset totalCollSurplus];
    try done; try lia.
  - rewrite Ep. apply (y_total _ (i_stability _ _ _ _ I0)).
  - auto.
  - replace (with_surplus s0 (surplus s0)) with s0 by (by destruct s0). exact I0.
  - intros a. pose proof (u_entry _ S a). pose proof (claimable_le _ a S). pose proof (u_ETH _ S). unfold getCollateral, is_uint in *. lia.
  - rewrite (u_total _ S). lia.
  - exists []. split; try done; [apply NoDup_nil_2|]. by intros a v ?%not_elem_of_nil.
Qed.
End Sequences.
