(* ===== verification/LiquidationSettle.v ===== *)
(** * Liquidations: what happens to the totals

    The debt that is not offset is redistributed: the running terms grow so that the
    default pool covers what every Trove is owed. *)

From S2P Require Import Prelude Solidity Ledger SortedTroves SortedTrovesFacts ChainState ZUSDToken.
From S2P Require Import ActivePool DefaultPool CollSurplusPool Outside FeeDistributor TroveManager BorrowerOperations.
From S2P Require Import StabilityPool Liquidations Invariant InvariantFacts TroveSteps BorrowerSteps BorrowerFacts.
From S2P Require Import PoolSteps LiquidationFacts.
Import LiquityMath.
Local Open Scope Z_scope.

(** ** The surplus pool is not looked at *)

Section Blind.
Context (recv : address -> address -> Z -> call System unit) (w : Wiring) (N : NoDup (core w)) (p : Surplus).

Definition unseen {A} (m : call System A) : Prop :=
  forall s r s', wiring s = w -> m s = Ok (r, s') -> wiring s' = w /\ m (with_surplus s p) = Ok (r, with_surplus s' p).

Lemma unseen_bind {A B} (m : call System A) (k : A -> call System B) :
  unseen m -> (forall a, unseen (k a)) -> unseen (call_bind m k).
Proof.
  intros M K s r s' E H. run H as a s1 H1. destruct (M _ _ _ E H1) as [E1 F1]. destruct (K a _ _ _ E1 H) as [E2 F2].
  split; [done|]. unfold call_bind. rewrite F1. exact F2.
Qed.

Lemma unseen_view {A} (f : System -> result A) : (forall s, f (with_surplus s p) = f s) -> unseen (view_call f).
Proof. intros E s r s' Ew [H ->]%view_call_Ok. split; [done|]. apply view_call_Ok. by rewrite E. Qed.

(** A view that determines its answer. *)
Lemma unseen_read {A B} (f : System -> result A) (k : A -> call System B) :
  (forall s, f (with_surplus s p) = f s) -> (forall a s, wiring s = w -> f s = Ok a -> unseen (k a)) ->
  unseen (call_bind (view_call f) k).
Proof.
  intros E K s r s' Ew H. run H as a s1 H1. apply view_call_Ok in H1 as [Ha ->]. destruct (K a s Ew Ha _ _ _ Ew H) as [E2 F2].
  split; [done|]. unfold call_bind, view_call. rewrite E, Ha. exact F2.
Qed.

Lemma unseen_ret {A} (a : A) : unseen (call_ret a).
Proof. intros s r s' E [= <- <-]. done. Qed.

Lemma unseen_pool f : unseen (pool_call f).
Proof.
  intros s r s' E H. apply pool_call_Ok in H as (q & Hq & ->). split; [done|]. unfold pool_call. cbn [stability with_surplus].
  rewrite Hq. by destruct r.
Qed.

Lemma unseen_token g msg f : unseen (token_call g msg f).
Proof.
  intros s r s' E H. unfold token_call in *. cbn [wiring zusd with_surplus]. apply bind_Ok_inv in H as (x & Hx & H).
  rewrite Hx. cbn [bind]. apply bind_Ok_inv in H as (t & Ht & [= <- <-]). by rewrite Ht.
Qed.

Lemma unseen_decrease me n : unseen (ActivePool.decreaseZUSDDebt me n).
Proof.
  intros s r s' E H. unfold ActivePool.decreaseZUSDDebt in *. cbn [wiring active_pool with_surplus]. apply bind_Ok_inv in H as (x & Hx & H).
  rewrite Hx. cbn [bind]. apply bind_Ok_inv in H as (t & Ht & [= <- <-]). by rewrite Ht.
Qed.

Lemma unseen_pay from to n : unseen (pay from to n).
Proof.
  intros s r s' E H. unfold pay, ether_of in *. cbn [ether with_surplus]. case_match; [done|]. injection H as <- <-. done.
Qed.

Lemma unseen_receive from to n : to <> collSurplusPool w -> unseen (receive_core from to n).
Proof.
  intros Nc s r s' E H. unfold receive_core in *. cbv zeta in *. change (wiring (with_surplus s p)) with (wiring s). rewrite E in *.
  assert (same to (collSurplusPool w) = false) as Ec by (by apply bool_decide_eq_false). rewrite Ec in *.
  unfold ActivePool.receive, DefaultPool.receive in *.
  repeat (case_match; [repeat (let Q := fresh "Q" in apply bind_Ok_inv in H as (? & Q & H);
    cbn [wiring with_surplus active_pool default_pool stability] in *; rewrite Q; cbn [bind]); injection H as <- <-; done|]). done.
Qed.

Lemma unseen_send me to n : to ∈ core w -> to <> collSurplusPool w -> unseen (ActivePool.sendETH (transfer recv) me to n).
Proof.
  intros Hc Nc. apply unseen_bind.
  - intros s r s' E H. cbn [wiring active_pool with_surplus]. apply bind_Ok_inv in H as (x & Hx & H).
    rewrite Hx. cbn [bind]. apply bind_Ok_inv in H as (t & Ht & [= <- <-]). by rewrite Ht.
  - intros _ s r s' E H. apply or_revert_Ok in H.
    assert (unseen (transfer recv (activePool (wiring s)) to n)) as T.
    { apply unseen_bind; [apply unseen_pay|]. intros _ s1 r1 s1' E1 H1. change (is_core (with_surplus s1 p) to) with (is_core s1 to).
      assert (is_core s1 to = true) as C by (apply bool_decide_eq_true; by rewrite E1). rewrite C in *. by apply unseen_receive. }
    destruct (T _ _ _ E H) as [E' H']. split; [done|]. unfold or_revert. change (wiring (with_surplus s p)) with (wiring s). by rewrite H'.
Qed.

Lemma unseen_offset W me debt coll : unseen (offset W recv me debt coll).
Proof.
  apply unseen_bind; [by apply unseen_view|intros _]. apply unseen_bind; [by apply unseen_view|intros n].
  case_match; [apply unseen_ret|]. apply unseen_bind; [apply unseen_pool|intros _]. apply unseen_bind; [apply unseen_pool|intros _].
  apply unseen_read; [done|]. intros me' s1 E [= <-]. rewrite E. apply unseen_bind; [apply unseen_decrease|intros _].
  apply unseen_bind; [apply unseen_pool|intros _]. apply unseen_bind; [apply unseen_token|intros _].
  apply unseen_send; [unfold core; rewrite !elem_of_cons; tauto|]. apply same_false. by decide_core N.
Qed.

Lemma unseen_redistribute debt coll : unseen (_redistributeDebtAndColl recv debt coll).
Proof.
  intros s r s' E H. unfold _redistributeDebtAndColl in *. case_match; [by injection H as <- <-|].
  apply bind_Ok_inv in H as (et & He & H). apply bind_Ok_inv in H as (zt & Hz & H). cbn [manager wiring with_surplus with_manager] in *.
  rewrite He. cbn [bind]. rewrite Hz. cbn [bind]. rewrite E in *.
  match type of H with ?m ?x = _ => assert (unseen m) as U end.
  { apply unseen_bind; [apply unseen_decrease|intros _]. apply unseen_bind.
    - intros s1 r1 s1' E1 H1. unfold DefaultPool.increaseZUSDDebt in *. cbn [wiring default_pool with_surplus]. apply bind_Ok_inv in H1 as (x & Hx & H1).
      rewrite Hx. cbn [bind]. apply bind_Ok_inv in H1 as (t & Ht & [= <- <-]). by rewrite Ht.
    - intros _. apply unseen_send; [unfold core; rewrite !elem_of_cons; tauto|]. apply same_false. by decide_core N. }
  destruct (U (with_manager s (set_terms (manager s) (fst et) (fst zt) (snd et) (snd zt))) r s' E H) as [E' H']. split; [done|]. exact H'.
Qed.
End Blind.

(** ** Redistribution *)

Lemma reward_term_Ok amount err stakes term r : is_uint amount -> is_uint err -> is_uint stakes -> is_uint term ->
  reward_term amount err stakes term = Ok r ->
  exists per, 0 <= per /\ fst r = term + per /\ per * stakes + snd r = amount * DECIMAL_PRECISION + err /\
    is_uint (fst r) /\ is_uint (snd r).
Proof.
  intros Ua Ue Us Ut H. unfold reward_term in H. inv_result. safe_math. eexists. split_and!; [|reflexivity|cbn; lia|done|done].
  match goal with U : is_uint (_ / _) |- _ => apply U end.
Qed.

(** What [amount] adds to a running term per unit of stake, with what the last division left over. *)
Definition grown (amount stakes term err term' err' : Z) : Prop :=
  term' = term + (amount * DECIMAL_PRECISION + err) / stakes /\ err' = (amount * DECIMAL_PRECISION + err) mod stakes.

Lemma reward_term_grown amount err stakes term r : is_uint amount -> is_uint err -> is_uint stakes -> is_uint term ->
  reward_term amount err stakes term = Ok r -> 0 < stakes /\ grown amount stakes term err (fst r) (snd r).
Proof.
  intros Ua Ue Us Ut H. unfold reward_term in H. inv_result. safe_math. split; [unfold is_uint in Us; lia|]. split; [done|]. cbn. rewrite Z.mod_eq by lia. lia.
Qed.

(** The running terms when [debt] and [coll] have been redistributed to the stakes there are. *)
Definition redistribution (debt coll : Z) (m m' : Manager) : Prop :=
  if decide (debt = 0)
  then L_ETH m' = L_ETH m /\ L_ZUSDDebt m' = L_ZUSDDebt m /\ lastETHError_Redistribution m' = lastETHError_Redistribution m /\
       lastZUSDDebtError_Redistribution m' = lastZUSDDebtError_Redistribution m
  else 0 < totalStakes m' /\
       grown coll (totalStakes m') (L_ETH m) (lastETHError_Redistribution m) (L_ETH m') (lastETHError_Redistribution m') /\
       grown debt (totalStakes m') (L_ZUSDDebt m) (lastZUSDDebtError_Redistribution m) (L_ZUSDDebt m') (lastZUSDDebtError_Redistribution m').

Lemma terms_trove m l d e f : trove (set_terms m l d e f) = trove m /\ snapshot (set_terms m l d e f) = snapshot m /\
  is_active (set_terms m l d e f) = is_active m.
Proof. done. Qed.

Lemma terms_due m l d e f : eth_due (set_terms m l d e f) = eth_due m + (l - L_ETH m) * stakes m.
Proof.
  unfold eth_due, stakes. rewrite <- total_scale, <- total_add. apply total_ext. intros a t _.
  destruct (terms_trove m l d e f) as (_ & -> & _). cbn. lia.
Qed.

Lemma terms_ok m l d e f : manager_ok m -> L_ETH m <= l -> L_ZUSDDebt m <= d -> is_uint l -> is_uint d -> is_uint e -> is_uint f ->
  manager_ok (set_terms m l d e f).
Proof.
  intros M Ll Ld Ul Ud Ue Uf. pose proof (m_troves _ M) as T. destruct M. split; try done.
  intros a. destruct (T a). destruct (terms_trove m l d e f) as (E1 & E2 & E3). split; rewrite ?E1, ?E2, ?E3; try done; cbn; lia.
Qed.

(** The storage when collateral and debt have moved to the default pool. *)
Definition redistributed (s : System) (et zt : Z * Z) (debt coll : Z) (e : gmap address Z) : System :=
  with_default (paid_out (DefaultPool.set_debt (ActivePool.set_debt
      (with_manager s (set_terms (manager s) (fst et) (fst zt) (snd et) (snd zt)))
      (pool_ZUSDDebt (active_pool s) - debt)) (pool_ZUSDDebt (default_pool s) + debt)) coll e)
    (mkPool (pool_ETH (default_pool s) + coll) (pool_ZUSDDebt (default_pool s) + debt)).

Section Redistribute.
Context (recv : address -> address -> Z -> call System unit) (dc dd ds : Z) (s : System) (B : books dc dd ds s).
Context (debt coll : Z) (Ud : is_uint debt) (Uc : is_uint coll).

Lemma redistribute_inv u s' : debt <> 0 -> _redistributeDebtAndColl recv debt coll s = Ok (u, s') ->
  exists et zt e, reward_term coll (lastETHError_Redistribution (manager s)) (totalStakes (manager s)) (L_ETH (manager s)) = Ok et /\
    reward_term debt (lastZUSDDebtError_Redistribution (manager s)) (totalStakes (manager s)) (L_ZUSDDebt (manager s)) = Ok zt /\
    s' = redistributed s et zt debt coll e /\ debt <= pool_ZUSDDebt (active_pool s) /\ coll <= pool_ETH (active_pool s) /\
    is_uint (pool_ETH (default_pool s) + coll) /\ is_uint (pool_ZUSDDebt (default_pool s) + debt) /\
    total (fun _ n => n) e = total (fun _ n => n) (ether s) /\
    (forall a, default 0 (e !! a) = ether_of s a - (if decide (a = activePool (wiring s)) then coll else 0)
                                    + (if decide (a = defaultPool (wiring s)) then coll else 0)).
Proof.
  intros N0 H. pose proof (i_pools _ _ _ _ B) as P. pose proof (w_nodup _ (i_wired _ _ _ _ B)) as N. destruct P as [P1 P2 P3 P4 _ _ _ _].
  unfold _redistributeDebtAndColl in H. rewrite (proj2 (Z.eqb_neq _ _) N0) in H.
  apply bind_Ok_inv in H as (et & He & H). apply bind_Ok_inv in H as (zt & Hz & H). exists et, zt.
  run H as u1 s1 H1. unfold ActivePool.decreaseZUSDDebt, ActivePool.by_BO_TM_SP in H1. inv_result. read_storage. safe_math.
  run H as u2 s2 H2. unfold DefaultPool.increaseZUSDDebt, by_TM in H2. inv_result. read_storage. safe_math.
  apply sendETH_core in H as (e & Ln & Te & Ee & H); [|done|done|cbn; unfold core; rewrite !elem_of_cons; tauto].
  unfold receive_core in H. cbv zeta in H. cbn [wiring paid_out with_ether ActivePool.set_ETH with_active DefaultPool.set_debt with_default ActivePool.set_debt with_manager] in H.
  revert H. decide_core N. intros H. unfold DefaultPool.receive in H. inv_result. read_storage. safe_math.
  exists e. split_and!; done.
Qed.

Lemma redistributed_books et zt e : 
  reward_term coll (lastETHError_Redistribution (manager s)) (totalStakes (manager s)) (L_ETH (manager s)) = Ok et ->
  reward_term debt (lastZUSDDebtError_Redistribution (manager s)) (totalStakes (manager s)) (L_ZUSDDebt (manager s)) = Ok zt ->
  debt <= pool_ZUSDDebt (active_pool s) -> coll <= pool_ETH (active_pool s) ->
  is_uint (pool_ETH (default_pool s) + coll) -> is_uint (pool_ZUSDDebt (default_pool s) + debt) ->
  total (fun _ n => n) e = total (fun _ n => n) (ether s) ->
  (forall a, default 0 (e !! a) = ether_of s a - (if decide (a = activePool (wiring s)) then coll else 0)
                                  + (if decide (a = defaultPool (wiring s)) then coll else 0)) ->
  books (dc + coll) (dd + debt) ds (redistributed s et zt debt coll e).
Proof.
  intros He Hz Ld Lc Ue' Ud' Te Ee. pose proof (i_manager _ _ _ _ B) as M. pose proof (i_pools _ _ _ _ B) as P.
  pose proof (w_nodup _ (i_wired _ _ _ _ B)) as N. pose proof (i_funded _ _ _ _ B) as F.
  destruct (reward_term_Ok _ _ _ _ _ Uc (m_eth_error _ M) (m_stakes_uint _ M) (m_L_ETH _ M) He) as (pe & Pe & E1 & E2 & V1 & V2).
  destruct (reward_term_Ok _ _ _ _ _ Ud (m_debt_error _ M) (m_stakes_uint _ M) (m_L_debt _ M) Hz) as (pz & Pz & E3 & E4 & V3 & V4).
  set (s' := redistributed s et zt debt coll e).
  assert (manager s' = set_terms (manager s) (fst et) (fst zt) (snd et) (snd zt)) as Em by done.
  destruct (paid_ether s s' (activePool (wiring s)) (defaultPool (wiring s)) coll) as (Q0 & Q1 & Q2 & Q3).
  { intros a. unfold s', redistributed. apply Ee. } { apply same_false; by decide_core N. } { apply Uc. } { pose proof (f_active _ F). lia. } { apply F. }
  split; try apply B.
  - destruct (i_wired _ _ _ _ B). by split.
  - rewrite Em. apply terms_ok; try done; lia.
  - destruct P as [P1 P2 P3 P4 P5 P6 P7 P8]. unfold is_uint in P1, P2. unfold is_uint in Ud, Uc.
    split; try (rewrite Em, terms_due); try done; cbn [s' redistributed with_default paid_out with_ether ActivePool.set_ETH with_active
      DefaultPool.set_debt ActivePool.set_debt with_manager active_pool default_pool zusd manager pool_ETH pool_ZUSDDebt]; try (unfold is_uint; lia).
    + change (colls (set_terms _ _ _ _ _)) with (colls (manager s)). lia.
    + change (debts (set_terms _ _ _ _ _)) with (debts (manager s)). lia.
    + change (lastETHError_Redistribution (set_terms _ _ _ _ _)) with (snd et). rewrite <- (m_stakes _ M), E1. lia.
  - destruct (i_listed _ _ _ _ B). by split.
  - apply (funded_update s); try done; cbn [s' redistributed with_default paid_out with_ether ActivePool.set_ETH with_active
      DefaultPool.set_debt ActivePool.set_debt with_manager active_pool default_pool surplus stability pool_ETH]; fold s';
      rewrite ?Q1, ?Q2, ?Q3; try lia; apply same_false; by decide_core N.
Qed.

Lemma redistribute_books u s' : (debt = 0 -> coll = 0) -> _redistributeDebtAndColl recv debt coll s = Ok (u, s') ->
  books (dc + coll) (dd + debt) ds s' /\ wiring s' = wiring s /\ params s' = params s /\ zusd s' = zusd s /\
  surplus s' = surplus s /\ stability s' = stability s /\ system_coll s' = system_coll s /\ system_debt s' = system_debt s /\
  (forall a, trove (manager s') a = trove (manager s) a /\ snapshot (manager s') a = snapshot (manager s) a) /\
  redistribution debt coll (manager s) (manager s').
Proof.
  intros Z0 H. unfold redistribution. destruct (decide (debt = 0)) as [E|N0].
  - unfold _redistributeDebtAndColl in H. rewrite (proj2 (Z.eqb_eq _ _) E) in H. injection H as _ <-. rewrite Z0 by done. subst debt.
    rewrite !Z.add_0_r. by split_and!.
  - destruct (redistribute_inv _ _ N0 H) as (et & zt & e & He & Hz & -> & L1 & L2 & U1 & U2 & Te & Ee).
    split; [by apply redistributed_books|]. pose proof (i_manager _ _ _ _ B) as M.
    destruct (reward_term_grown _ _ _ _ _ Uc (m_eth_error _ M) (m_stakes_uint _ M) (m_L_ETH _ M) He) as [Ps Ge].
    destruct (reward_term_grown _ _ _ _ _ Ud (m_debt_error _ M) (m_stakes_uint _ M) (m_L_debt _ M) Hz) as [_ Gz].
    unfold system_coll, system_debt. split_and!; try done; cbn; lia.
Qed.
End Redistribute.

(** ** Settlement *)

(** What the liquidation of the Troves of [l], with totals [t], has done. *)
Record liquidated (sender : address) (l : liquidations) (t : LiquidationTotals) (price : Z) (mode : bool) (s s' : System) : Prop := {
  lq_shares : shares t;
  lq_some : 0 < totalDebtInSequence t;
  lq_recorded : recorded (totalZUSDDeposits (stability s)) price mode s l t s';
  lq_terms : redistribution (totalDebtToRedistribute t) (totalCollToRedistribute t) (manager s) (manager s');
  lq_snapshots : totalStakesSnapshot (manager s') = totalStakes (manager s') /\ totalCollateralSnapshot (manager s') = system_coll s';
  lq_balances : forall a, balance (zusd s') a = balance (zusd s) a
    - (if decide (a = stabilityPool (wiring s)) then totalDebtToOffset t else 0)
    - (if decide (a = gasPool (wiring s)) then totalZUSDGasCompensation t else 0)
    + (if decide (a = sender) then totalZUSDGasCompensation t else 0);
  lq_wiring : wiring s' = wiring s;
  lq_params : params s' = params s;
  lq_coll : system_coll s' = system_coll s - totalCollToSendToSP t - totalCollSurplus t - totalCollGasCompensation t;
  lq_debt : system_debt s' = system_debt s - totalDebtToOffset t;
  lq_deposits : totalZUSDDeposits (stability s') = totalZUSDDeposits (stability s) - totalDebtToOffset t;
  lq_gains : sp_ETH (stability s') = sp_ETH (stability s) + totalCollToSendToSP t;
  lq_surplus : surplus_ETH (surplus s') = surplus_ETH (surplus s) + totalCollSurplus t }.

(** The liquidator is paid last, and may run code on being paid. *)
Definition compensated (recv : address -> address -> Z -> call System unit) (sender : address) (e : Z) (s : System) (u : unit) (s' : System) : Prop :=
  if 0 <? e then recv (activePool (wiring s)) sender e s = Ok (u, s') else s' = s.

Lemma snapshots_books dc dd ds n s u s' : books dc dd ds s -> is_uint n ->
  _updateSystemSnapshots_excludeCollRemainder n s = Ok (u, s') ->
  books dc dd ds s' /\ s' = with_manager s (set_system_snapshots (manager s) (totalStakes (manager s)) (system_coll s - n)).
Proof.
  intros B Un H. unfold _updateSystemSnapshots_excludeCollRemainder in H. inv_result. pose proof (i_pools _ _ _ _ B) as P.
  pose proof (i_manager _ _ _ _ B) as M. destruct P as [P1 P2 P3 P4 P5 P6 P7 P8]. safe_math.
  split; [|f_equal; f_equal; unfold system_coll; lia]. destruct (i_wired _ _ _ _ B), (i_listed _ _ _ _ B), (i_funded _ _ _ _ B).
  split; try apply B; try by split. destruct M as [T ? ? ? ? ? ? ? ? ? ?]. split; try done. intros a. by destruct (T a).
Qed.

Lemma compensate_books recv dc dd ds s sender z e u s' : books dc dd ds s -> is_uint z -> is_uint e -> outsider (wiring s) sender ->
  _sendGasCompensation recv sender z e s = Ok (u, s') ->
  exists s1, books (dc + e) dd ds s1 /\ beside s s1 /\ settled recv sender s1 u s' /\ compensated recv sender e s1 u s' /\
    (forall a, balance (zusd s1) a = balance (zusd s) a - (if decide (a = gasPool (wiring s)) then z else 0) + (if decide (a = sender) then z else 0)) /\
    active_pool s1 = mkPool (pool_ETH (active_pool s) - e) (pool_ZUSDDebt (active_pool s)).
Proof.
  intros B Uz Ue Ho H. unfold _sendGasCompensation in H. view H as me Hme. view H as pool Hpool. injection Hpool as <-. run H as u1 s1 H1.
  assert (books dc dd ds s1 /\ beside s s1 /\ active_pool s1 = active_pool s /\
    forall a, balance (zusd s1) a = balance (zusd s) a - (if decide (a = gasPool (wiring s)) then z else 0) + (if decide (a = sender) then z else 0)) as (B1 & F1 & A1 & K1).
  { destruct (Z.ltb_spec 0 z); [|injection H1 as _ <-; split_and!; try done; intros a; unfold is_uint in Uz; repeat case_decide; lia].
    pose proof (return_moves _ _ _ _ _ _ _ (i_token _ _ _ _ B) Uz H1) as K1. unfold returnFromPool in H1.
    destruct (token_beside _ _ _ _ _ _ H1) as [F1 A1]. split_and!; try done.
    destruct (quietly_moves _ _ _ _ _ Uz _ _ _ _ _ _ B H1) as [B1 _]. by rewrite Z.add_0_r in B1. }
  rewrite <- (be_wiring _ _ F1) in Ho. unfold compensated. destruct (Z.ltb_spec 0 e).
  - destruct (sendETH_books recv _ _ _ _ B1 me sender _ _ _ Ue Ho H) as (s2 & B2 & F2 & E2 & Z2 & H2).
    exists s2. split_and!; [done|by etrans| |by rewrite (be_wiring _ _ F2)|by rewrite Z2|by rewrite E2, A1]. right. eexists _, _. split; [|exact H2]. by rewrite (be_wiring _ _ F2).
  - injection H as _ <-. assert (e = 0) as -> by (unfold is_uint in Ue; lia). exists s1. rewrite Z.add_0_r, Z.sub_0_r, A1.
    split_and!; try done; [by left|by destruct (active_pool s)].
Qed.

Section Settle.
Context (W : World) (recv : address -> address -> Z -> call System unit).

(** Debt and collateral leave the active pool for the Stability Pool and the other Troves. *)
Lemma spread_books dc dd p s me a b c d u1 s1 u2 s2 : books dc dd 0 (with_surplus s p) ->
  is_uint a -> is_uint b -> is_uint c -> is_uint d -> (a = 0 -> b = 0) -> (c = 0 -> d = 0) -> a <= totalZUSDDeposits (stability s) ->
  offset W recv me a b s = Ok (u1, s1) -> _redistributeDebtAndColl recv c d s1 = Ok (u2, s2) ->
  books (dc + b + d) (dd + a + c) 0 (with_surplus s2 p) /\ surplus s2 = surplus s /\
  wiring s2 = wiring s /\ params s2 = params s /\
  totalZUSDDeposits (stability s2) = totalZUSDDeposits (stability s) - a /\
  sp_ETH (stability s2) = sp_ETH (stability s) + b /\
  system_coll s2 = system_coll s - b /\ system_debt s2 = system_debt s - a /\
  (forall x, trove (manager s2) x = trove (manager s) x /\ snapshot (manager s2) x = snapshot (manager s) x) /\
  redistribution c d (manager s) (manager s2) /\
  (forall x, balance (zusd s2) x = balance (zusd s) x - (if decide (x = stabilityPool (wiring s)) then a else 0)).
Proof.
  intros B Ua Ub Uc Ud Zb Zd La H1 H2. pose proof (w_nodup _ (i_wired _ _ _ _ B)) as N. cbn [wiring with_surplus] in N.
  destruct (unseen_offset recv _ N (surplus s) W me a b s u1 s1 eq_refl H1) as [W1 K1].
  destruct (unseen_redistribute recv _ N (surplus s1) c d s1 u2 s2 W1 H2) as [_ K2].
  replace (with_surplus s (surplus s)) with s in K1 by (by destruct s). replace (with_surplus s1 (surplus s1)) with s1 in K2 by (by destruct s1).
  assert (surplus s1 = surplus s) as E1 by (rewrite H1 in K1; injection K1 as K1; by rewrite K1).
  assert (surplus s2 = surplus s1) as E2 by (rewrite H2 in K2; injection K2 as K2; by rewrite K2).
  destruct (unseen_offset recv _ N p W me a b s u1 s1 eq_refl H1) as [_ H1'].
  destruct (unseen_redistribute recv _ N p c d s1 u2 s2 W1 H2) as [W2 H2'].
  destruct (offset_books W recv _ _ _ _ _ _ _ _ _ B Ub Ua Zb La H1') as [B1 [O1 O2 O3 O4 O5 O6 O7 O8 O9 O10]].
  destruct (redistribute_books recv _ _ _ _ B1 _ _ Uc Ud _ _ Zd H2') as (B2 & R1 & R2 & R3 & R4 & R5 & R6 & R7 & R8 & R9).
  unfold system_coll, system_debt in *. cbn [wiring params manager active_pool default_pool stability zusd with_surplus] in *.
  split_and!; try done; try congruence.
  - rewrite R6, O5, O7. cbn. lia.
  - rewrite R7, O5, O7. cbn. lia.
  - intros x. rewrite <- O3. apply R8.
  - intros x. by rewrite R3, O10.
Qed.

(** The owners' surplus follows what was accounted. *)
Lemma surplus_books dc dd s p me n u s' : books dc dd 0 (with_surplus s p) -> is_uint n ->
  surplus_ETH (surplus s) = surplus_ETH p -> (forall a, is_uint (getCollateral s a)) ->
  total (fun _ n => n) (surplus_balances (surplus s)) = surplus_ETH p + n ->
  (if 0 <? n then ActivePool.sendETH (transfer recv) me (collSurplusPool (wiring s)) n else call_ret tt) s = Ok (u, s') ->
  books (dc + n) dd 0 s' /\ sent n s s' /\ default_pool s' = default_pool s /\ stability s' = stability s /\
  surplus_ETH (surplus s') = surplus_ETH p + n /\ surplus_balances (surplus s') = surplus_balances (surplus s).
Proof.
  intros B Un E1 E2 E3 H. assert (forall a, 0 <= default 0 (surplus_balances (surplus s) !! a)) as Pos by (intros a; apply (E2 a)).
  destruct (Z.ltb_spec 0 n).
  - rewrite <- E1 in E3. destruct (send_surplus recv _ _ _ _ _ _ _ _ _ B Un E1 Pos E3 H) as (B1 & S1 & D1 & Y1 & X1).
    split_and!; try done; rewrite X1; cbn; [lia|done].
  - injection H as _ <-. assert (n = 0) as -> by (unfold is_uint in Un; lia). rewrite !Z.add_0_r in *. split_and!; try done.
    + replace s with (with_surplus (with_surplus s p) (surplus s)) by (by destruct s). apply books_surplus; [done| |].
      * split; [rewrite E1; apply (i_surplus _ _ _ _ B)|done|by rewrite E1].
      * rewrite E1. apply (f_surplus _ (i_funded _ _ _ _ B)).
    + split; rewrite ?Z.sub_0_r; try done. by destruct (active_pool s).
Qed.

Lemma settle_books pool price mode s0 q s sender u s' : inv s0 -> progress pool price mode s0 q s -> pool = totalZUSDDeposits (stability s0) ->
  outsider (wiring s0) sender -> settle_liquidation W recv sender (totals q) s = Ok (u, s') ->
  exists s1 l, inv s1 /\ settled recv sender s1 u s' /\ compensated recv sender (totalCollGasCompensation (totals q)) s1 u s' /\
    liquidated sender l (totals q) price mode s0 s1.
Proof.
  intros I0 G Ep Ho H. set (t := totals q) in *. pose proof (g_shares _ _ _ _ _ _ G) as Sh. fold t in Sh. pose proof (g_books _ _ _ _ _ _ G) as B.
  unfold settle_liquidation in H. view H as me Hme. pure H as ok Hok. apply require_Ok, Z.ltb_lt in Hok.
  run H as u1 s1 H1. run H as u2 s2 H2. pose proof (g_rest _ _ _ _ _ _ G) as [Ur _]. pose proof (g_pool _ _ _ _ _ _ G) as Gp. fold t in B, Gp.
  destruct (spread_books _ _ _ _ _ _ _ _ _ _ _ _ _ B (v_offset_uint _ Sh) (v_sp_uint _ Sh) (v_debt_rest_uint _ Sh) (v_coll_rest_uint _ Sh)
    (v_no_offset _ Sh) (v_no_rest _ Sh) ltac:(rewrite (g_stability _ _ _ _ _ _ G); lia) H1 H2) as (B2 & X2 & W2 & P2 & Y2 & Z2 & C2 & D2 & T2 & R2 & K2).
  view H as sp Hsp. injection Hsp as <-. run H as u3 s3 H3.
  destruct (surplus_books _ _ s2 (surplus s0) me _ u3 s3 B2 (v_surplus_uint _ Sh)) as (B3 & N3 & D3 & Y3 & X3 & G3).
  { rewrite X2. apply G. } { intros a. unfold getCollateral. rewrite X2. apply (g_entries _ _ _ _ _ _ G). } { rewrite X2. apply G. } { exact H3. }
  run H as u4 s4 H4. destruct (snapshots_books _ _ _ _ _ _ _ B3 (v_gas_uint _ Sh) H4) as (B4 & E4).
  pure H as n1 Hn1. pure H as n2 Hn2. destruct N3 as [Nw Np Nm Ns Nz Na].
  assert (wiring s4 = wiring s0) as W4 by (rewrite E4; cbn [wiring with_manager]; by rewrite Nw, W2, (g_wiring _ _ _ _ _ _ G)).
  rewrite <- W4 in Ho.
  destruct (compensate_books recv _ _ _ _ _ _ _ _ _ B4 (v_zusd_uint _ Sh) (v_gas_uint _ Sh) Ho H) as (s5 & B5 & [F1 F2 F3 F4 F5 F6 F7] & S5 & V5 & K5 & A5).
  pose proof (v_coll _ Sh). pose proof (v_debt _ Sh). destruct (g_record _ _ _ _ _ _ G) as [l R]. fold t in R.
  assert (system_coll s5 = system_coll s3 - totalCollGasCompensation t) as C5
    by (unfold system_coll; rewrite A5, F4, E4; cbn; lia).
  exists s5, l. split_and!; [eqbooks B5|done|done|]. split; try done.
  - subst pool. destruct R as [R1 R2' R3 R4 R5]. split; try done; rewrite F3, E4; cbn [manager with_manager]; intros a; 
      change (trove (set_system_snapshots ?m _ _)) with (trove m); change (snapshot (set_system_snapshots ?m _ _)) with (snapshot m); destruct (T2 a) as [Ta Tb];
      assert (getCollateral s5 a = getCollateral s a) as Ec by (unfold getCollateral; rewrite F6, E4; cbn [surplus with_manager]; rewrite G3; by rewrite X2);
      rewrite Ec, Nm, Ta, ?Tb; apply R4 || apply R5.
  - rewrite F3, E4. cbn [manager with_manager]. rewrite Nm. unfold redistribution in *. rewrite (g_L_ETH _ _ _ _ _ _ G), (g_L_debt _ _ _ _ _ _ G),
      (g_eth_error _ _ _ _ _ _ G), (g_debt_error _ _ _ _ _ _ G) in R2. exact R2.
  - rewrite C5, F3, E4. done.
  - intros a. rewrite K5, W4, E4. cbn [zusd with_manager]. rewrite Nz, K2, (g_zusd _ _ _ _ _ _ G), (g_wiring _ _ _ _ _ _ G). done.
  - by rewrite F1.
  - rewrite F2, E4. cbn [params with_manager]. by rewrite Np, P2, (g_params _ _ _ _ _ _ G).
  - unfold system_coll. rewrite A5, F4, E4. cbn [active_pool default_pool with_manager pool_ETH]. rewrite D3, Na. cbn [pool_ETH].
    unfold system_coll in *. pose proof (g_coll _ _ _ _ _ _ G) as Gc. unfold system_coll in Gc. lia.
  - unfold system_debt. rewrite A5, F4, E4. cbn [active_pool default_pool with_manager pool_ZUSDDebt]. rewrite D3, Na. cbn [pool_ZUSDDebt].
    unfold system_debt in *. pose proof (g_debt _ _ _ _ _ _ G) as Gd. unfold system_debt in Gd. lia.
  - rewrite F7, E4. cbn [stability with_manager]. by rewrite Y3, Y2, (g_stability _ _ _ _ _ _ G).
  - rewrite F7, E4. cbn [stability with_manager]. by rewrite Y3, Z2, (g_stability _ _ _ _ _ _ G).
  - rewrite F6, E4. cbn [surplus with_manager]. done.
Qed.

Lemma below_CCR s price mode : _checkRecoveryMode s price = Ok mode -> mode = true ->
  exists coll debt TCR, getEntireSystemColl s = Ok coll /\ getEntireSystemDebt s = Ok debt /\ _computeCR coll debt price = Ok TCR /\ TCR < CCR (params s).
Proof.
  unfold _checkRecoveryMode, _getTCR. intros H ->. inv_result. match goal with E : (_ <? _) = true |- _ => apply Z.ltb_lt in E end. by eexists _, _, _.
Qed.

(** What a liquidation has done, from the storage before the price was fetched. *)
Definition liquidation (sender : address) (s : System) (u : unit) (s' : System) : Prop :=
  exists s1 price s0 mode t, fetchPrice W s = Ok (price, s0) /\ _checkRecoveryMode s price = Ok mode /\ inv s1 /\
    settled recv sender s1 u s' /\ exists l, compensated recv sender (totalCollGasCompensation t) s1 u s' /\ liquidated sender l t price mode s s1.

(** The end of a liquidation, for every way through the Troves. *)
Lemma liquidation_end sender s price s0 mode q s1 u s' : inv s -> outsider (wiring s) sender ->
  fetchPrice W s = Ok (price, s0) -> _checkRecoveryMode s0 price = Ok mode ->
  (inv s0 -> progress (totalZUSDDeposits (stability s0)) price mode s0 q s1) -> settle_liquidation W recv sender (totals q) s1 = Ok (u, s') ->
  liquidation sender s u s'.
Proof.
  intros B Ho Hp Hm Hq H. destruct (fetchPrice_books _ _ _ _ _ _ _ B Hp) as (_ & B0 & F0). rewrite <- (fr_wiring _ _ F0) in Ho.
  destruct (settle_books _ _ _ _ _ _ _ _ _ B0 (Hq B0) eq_refl Ho H) as (s2 & l & B2 & S2 & V2 & [L1 L2 L3 L4 L5 L6 L7 L8 L9 L10 L11 L12 L13]).
  rewrite (mode_frame _ s s0 F0) in Hm. exists s2, price, s0, mode, (totals q). split_and!; try done. exists l. split; [done|].
  destruct F0 as [Fw Fp _ Fa Fd Fs Fu Fb Fh]. unfold system_coll, system_debt in *. pose proof (fetchPrice_manager W _ _ _ Hp) as Em. pose proof (fetchPrice_zusd W _ _ _ Hp) as Ez.
  destruct L3 as [R1 R2 R3 R4 R5]. unfold getCollateral in R4, R5. rewrite Fw, Fp, Fa, Fd, Fu, Fb, Em, Ez in *. by split.
Qed.

Lemma recovery_start s price q s' : inv s -> _checkRecoveryMode s price = Ok true -> start_recovery (totalZUSDDeposits (stability s)) s = Ok (q, s') ->
  s' = s /\ progress (totalZUSDDeposits (stability s)) price true s q s.
Proof.
  unfold start_recovery. intros B Hm [H ->]%view_call_Ok. split; [done|]. destruct (below_CCR _ _ _ Hm eq_refl) as (c & d & TCR & Hc & Hd & HT & L).
  rewrite Hd, Hc in H. cbn [bind] in H. injection H as <-. apply start_progress; try done. intros _. by exists TCR.
Qed.

Lemma normal_start s price : inv s -> progress (totalZUSDDeposits (stability s)) price false s (start_normal (totalZUSDDeposits (stability s))) s.
Proof. intros B. by apply start_progress. Qed.

Lemma liquidateTroves_books s sender n u s' : inv s -> outsider (wiring s) sender ->
  liquidateTroves W recv sender n s = Ok (u, s') -> liquidation sender s u s'.
Proof.
  intros B Ho H. unfold liquidateTroves in H. run H as price s0 Hp. view H as k Hk. injection Hk as <-. view H as mode Hm. run H as q s1 Hq.
  apply (liquidation_end _ _ price s0 mode q s1); try done. intros B0. destruct mode.
  - run Hq as q0 s2 Hs. destruct (recovery_start _ _ _ _ B0 Hm Hs) as [-> G]. view Hq as user Hu. view Hq as first Hf.
    by apply (recovery_loop_ok _ _ _ _ B0 _ _ _ _ _ _ _ _ eq_refl G Hq).
  - by apply (normal_loop_ok _ _ _ _ B0 _ _ _ _ _ _ eq_refl (normal_start _ _ B0) Hq).
Qed.

Lemma batchLiquidate_books s sender l u s' : inv s -> outsider (wiring s) sender ->
  batchLiquidateTroves W recv sender l s = Ok (u, s') -> liquidation sender s u s'.
Proof.
  intros B Ho H. unfold batchLiquidateTroves in H. pure H as ok Hok. run H as price s0 Hp. view H as k Hk. injection Hk as <-. view H as mode Hm. run H as q s1 Hq.
  apply (liquidation_end _ _ price s0 mode q s1); try done. intros B0. destruct mode.
  - run Hq as q0 s2 Hs. destruct (recovery_start _ _ _ _ B0 Hm Hs) as [-> G].
    by apply (recovery_batch_ok _ _ _ _ B0 _ _ _ _ _ eq_refl G Hq).
  - by apply (normal_batch_ok _ _ _ _ B0 _ _ _ _ _ eq_refl (normal_start _ _ B0) Hq).
Qed.

Lemma liquidate_books s sender b u s' : inv s -> outsider (wiring s) sender ->
  liquidate W recv sender b s = Ok (u, s') -> liquidation sender s u s'.
Proof. intros B Ho H. unfold liquidate in H. view H as ok Hok. by apply batchLiquidate_books in H. Qed.
End Settle.
