(* ===== verification/RedemptionFacts.v ===== *)
(** * Redemptions keep the books, and take no more than face value from a Trove *)

From S2P Require Import Prelude Solidity Ledger SortedTroves SortedTrovesFacts ChainState ZUSDToken.
From S2P Require Import ActivePool DefaultPool CollSurplusPool Outside FeeDistributor TroveManager BorrowerOperations.
From S2P Require Import StabilityPool Redemptions Invariant InvariantFacts TroveSteps BorrowerSteps BorrowerFacts PoolSteps.
Import LiquityMath.
Local Open Scope Z_scope.

(** ** Small facts *)

Lemma manager_call_Ok f s u s' : manager_call f s = Ok (u, s') -> exists m, f (manager s) = Ok m /\ s' = with_manager s m.
Proof. unfold manager_call. intros H. inv_result. by eexists. Qed.

(** [e] is what [z] buys at [price]. *)
Definition face_value (price z e : Z) : Prop := 0 <= e /\ e * price <= z * DECIMAL_PRECISION.

Lemma lot_Ok z price n e : is_uint z -> is_uint price -> SafeMath.mul z DECIMAL_PRECISION = Ok n -> SafeMath.div n price = Ok e ->
  is_uint e /\ face_value price z e.
Proof.
  intros Uz Up H1 H2. safe_math. unfold face_value.
  match goal with U : is_uint (_ / _) |- _ => pose proof U as [P0 _] end. split; [done|]. split; [done|].
  rewrite Z.mul_comm. by apply Z.mul_div_le.
Qed.

Lemma face_value_add price z e z' e' : face_value price z e -> face_value price z' e' -> face_value price (z + z') (e + e').
Proof. unfold face_value. lia. Qed.

Lemma apply_inactive b s u s' : is_active (manager s) b = false -> _applyPendingRewards b s = Ok (u, s') -> s' = s.
Proof. intros A H. unfold _applyPendingRewards, _hasPendingRewards in H. rewrite A in H. by injection H as _ <-. Qed.

Lemma close_sorted b st s u s' : TroveManager._closeTrove b st s = Ok (u, s') ->
  SortedTroves.remove (sorted s) (troveManager (wiring s)) b = Ok (sorted s').
Proof. intros H. unfold TroveManager._closeTrove in H. inv_result. done. Qed.

(** ** One Trove *)

Section One.
Context (W : World) (recv : address -> address -> Z -> call System unit).

Lemma redeemClose_books dc dd ds s b n u s' : books dc dd ds s -> is_uint n ->
  _redeemCloseTrove recv b ZUSD_GAS_COMPENSATION n s = Ok (u, s') ->
  books (dc + n) (dd + ZUSD_GAS_COMPENSATION) ds s' /\ wiring s' = wiring s /\ params s' = params s /\ manager s' = manager s /\ sorted s' = sorted s /\
  default_pool s' = default_pool s /\ stability s' = stability s /\
  pool_ETH (active_pool s') = pool_ETH (active_pool s) - n /\ surplus_ETH (surplus s') = surplus_ETH (surplus s) + n /\
  forall a, getCollateral s' a = getCollateral s a + if decide (a = b) then n else 0.
Proof.
  intros B Un H. unfold _redeemCloseTrove, this_manager in H. view H as me Hme. view H as gas Hgas.
  run H as u1 s1 H1. destruct (quietly_burn _ _ _ compensation_uint _ _ _ _ _ _ B H1) as [B1 _]. apply token_beside in H1 as [F1 A1].
  run H as u2 s2 H2. destruct (decreaseDebt_books _ _ _ _ _ _ _ _ B1 compensation_uint H2) as [B2 E2].
  assert (manager s2 = manager s /\ wiring s2 = wiring s /\ params s2 = params s /\ default_pool s2 = default_pool s /\
    stability s2 = stability s /\ surplus s2 = surplus s /\ pool_ETH (active_pool s2) = pool_ETH (active_pool s) /\ sorted s2 = sorted s) as (Q1 & Q2 & Q3 & Q4 & Q5 & Q6 & Q7 & Q8).
  { destruct F1. rewrite E2. split_and!; try done. cbn. congruence. }
  clear E2. run H as u3 s3 H3. unfold accountSurplus in H3. inv_result. view H as sp Hsp. injection Hsp as <-.
  pose proof (i_surplus _ _ _ _ B2) as S. pose proof (claimable_le _ b S) as Lb. pose proof (u_entry _ S b) as Pb. pose proof (u_ETH _ S) as US.
  assert (is_uint (getCollateral s2 b)) as Ub by (unfold getCollateral, is_uint in *; lia). safe_math.
  set (s3 := with_surplus s2 _) in *.
  destruct (send_surplus recv _ _ _ s3 (surplus s2) (troveManager (wiring s)) n u s' ltac:(replace (with_surplus s3 (surplus s2)) with s2 by (by destruct s2); exact B2) Un)
    as (B4 & [Nw Np Nm Ns Nz Na] & Ed & Ey & Eu); [done| | |exact H|].
  - intros a. unfold s3. cbn [surplus with_surplus surplus_balances]. rewrite default_insert. pose proof (u_entry _ S a). pose proof (proj1 Un).
    case_decide; [unfold getCollateral in *; lia|done].
  - unfold s3. cbn [surplus with_surplus surplus_balances surplus_ETH]. rewrite (total_insert _ _ _ _ 0), (u_total _ S) by done. unfold getCollateral. lia.
  - split; [eqbooks B4|].
    rewrite Nw, Np, Nm, Ns, Ed, Ey, Na, Eu. unfold s3. cbn [wiring params manager sorted default_pool stability with_surplus surplus surplus_ETH active_pool pool_ETH].
    rewrite Q6, Q7. split_and!; try done. intros a. unfold getCollateral at 1. rewrite Eu. unfold s3. cbn [surplus with_surplus surplus_balances].
    rewrite default_insert. unfold getCollateral. rewrite Q6. case_decide; [by subst|lia].
Qed.

(** What the redemption of [z] for [e] from the Trove of [b] has done to it. *)
Definition redeemed_trove (b : address) (coll debt z e : Z) (s s' : System) : Prop :=
  t_status (trove (manager s') b) = closedByRedemption_ /\ z = debt - ZUSD_GAS_COMPENSATION /\
    getCollateral s' b = getCollateral s b + (coll - e) /\ e <= coll \/
  is_active (manager s') b = true /\ current (manager s') b /\ getCollateral s' b = getCollateral s b /\
    t_debt (trove (manager s') b) = debt - z /\ t_coll (trove (manager s') b) = coll - e.

Record redeemed (b : address) (coll debt z e : Z) (s s' : System) : Prop := {
  rd_wiring : wiring s' = wiring s;
  rd_params : params s' = params s;
  rd_stability : stability s' = stability s;
  rd_touched : touched b (manager s) (manager s');
  rd_trove : redeemed_trove b coll debt z e s s';
  rd_sorted : t_status (trove (manager s') b) = closedByRedemption_ ->
    SortedTroves.remove (sorted s) (troveManager (wiring s)) b = Ok (sorted s');
  rd_others : forall a, a <> b -> getCollateral s' a = getCollateral s a;
  rd_coll : system_coll s' + surplus_ETH (surplus s') = system_coll s + surplus_ETH (surplus s) }.

Section FromTrove.
Context (dc dd ds : Z) (s : System) (b : address) (B : books dc dd ds s) (A : is_active (manager s) b = true) (C : current (manager s) b) (Hdc : dc <= 0).
Abbreviation t := (trove (manager s) b).

(** The debt is redeemed in full. *)
Lemma redeem_full z e u1 s1 u2 s2 u3 s' : t_debt t - z = ZUSD_GAS_COMPENSATION -> e <= t_coll t -> 0 <= e ->
  manager_call (fun m => _removeStake m b) s = Ok (u1, s1) ->
  TroveManager._closeTrove b closedByRedemption_ s1 = Ok (u2, s2) ->
  _redeemCloseTrove recv b ZUSD_GAS_COMPENSATION (t_coll t - e) s2 = Ok (u3, s') ->
  books (dc - e) (dd - z) ds s' /\ redeemed b (t_coll t) (t_debt t) z e s s'.
Proof.
  intros Ez Le Pe H1 H2 H3. apply manager_call_Ok in H1 as (m1 & H1 & ->).
  destruct (end_block _ _ _ _ _ B A (owners_bound _ _ _ _ B Hdc) _ _ _ _ H1 H2 ltac:(done)) as (B2 & F2 & T2 & S2).
  pose proof (t_coll_uint _ _ (m_troves _ (i_manager _ _ _ _ B) b)) as Uc.
  assert (is_uint (t_coll t - e)) as Ul by (unfold is_uint in *; lia). destruct (redeemClose_books _ _ _ _ _ _ _ _ B2 Ul H3) as (B3 & Ew & Ep & Em & El & Ed & Es & Ea & Eu & Ec).
  split; [eqbooks B3|]. destruct F2. unfold getCollateral in Ec.
  split; rewrite ?Ew, ?Ep, ?Es, ?Em; try done.
  - left. rewrite Em. unfold getCollateral. rewrite Ec, decide_True by done. split_and!; try done; [lia|]. by rewrite as_surplus.
  - intros _. rewrite El. apply close_sorted in H2. done.
  - intros a Ha. unfold getCollateral. rewrite Ec, decide_False by done. rewrite as_surplus. lia.
  - unfold system_coll. rewrite Ea, Ed, Eu, as_surplus, as_active, as_default. lia.
Qed.

(** The debt is redeemed in part. *)
Lemma redeem_part z e n up low u1 s1 u2 s2 u3 s' : is_uint (t_debt t - z) -> is_uint (t_coll t - e) ->
  _computeNominalCR (t_coll t - e) (t_debt t - z) = Ok n -> MIN_NET_DEBT + ZUSD_GAS_COMPENSATION <= t_debt t - z ->
  reInsert_partial W b n up low s = Ok (u1, s1) ->
  manager_call (fun m => let m := set_trove m b (set_debt_ (trove m b) (t_debt t - z)) in
                         Ok (set_trove m b (set_coll (trove m b) (t_coll t - e)))) s1 = Ok (u2, s2) ->
  manager_call (fun m => let! r := _updateStakeAndTotalStakes m b in Ok (snd r)) s2 = Ok (u3, s') ->
  books (dc - e) (dd - z) ds s' /\ redeemed b (t_coll t) (t_debt t) z e s s'.
Proof.
  intros Ud Uc Hn Hmin H1 H2 H3. pose proof (i_listed _ _ _ _ B) as L. destruct (o_list _ L) as (l & R & Pl).
  pose proof (i_manager _ _ _ _ B) as M. pose proof (m_troves _ M b) as T.
  unfold reInsert_partial in H1. apply bind_Ok_inv in H1 as (st & H1 & [= <- <-]).
  destruct (reInsert_rep _ _ _ _ _ _ _ _ _ l R (o_size _ L) H1) as (l' & R' & Pl' & Pn & Us & So). rewrite Pl in Pl'.
  apply manager_call_Ok in H2 as (m2 & H2 & ->). cbv zeta in H2. read_storage. injection H2 as <-.
  rewrite trove_set, decide_True, set_trove_twice in H3 by done. cbn [set_debt_ set_coll t_debt t_stake t_status t_arrayIndex] in H3.
  apply manager_call_Ok in H3 as (m3 & H3 & ->). read_storage. apply bind_Ok_inv in H3 as ([k m4] & H3 & [= <-]). cbn [snd].
  unfold _updateStakeAndTotalStakes in H3. rewrite trove_set, decide_True in H3 by done. cbn [set_debt_ set_coll t_coll t_stake t_debt t_status t_arrayIndex] in H3.
  inv_result. match goal with E : _computeNewStake _ _ = Ok _ |- _ => pose proof (newStake_uint _ _ _ Uc E) as Uk end.
  change (totalStakes (set_trove ?x _ _)) with (totalStakes x) in *. safe_math. rewrite set_trove_twice.
  unfold set_debt_, set_coll, set_stake. cbn [t_coll t_stake t_debt t_status t_arrayIndex].
  assert (0 < t_coll t - e) as Pc by (apply (nominal_positive _ _ n Uc Ud); try done; unfold MIN_NET_DEBT, ZUSD_GAS_COMPENSATION in *; lia).
  destruct (restaked_books _ _ _ _ _ B A C _ _ _ _ _ _ Uc Ud Uk Pc Hmin eq_refl ltac:(eassumption) R' Pl' Us So) as (B' & F & Ht & E1 & E2).
  split; [eqbooks B'|]. split; try done; unfold redeemed_trove, is_active in *; cbn [manager with_manager with_sorted];
    change (trove (set_totalStakes ?x _)) with (trove x); rewrite trove_set, decide_True by done; cbn [t_status t_debt t_coll].
  - by right.
  - intros St. by rewrite St in A.
Qed.

Lemma redeem_from max price up low hint z e cancelled s' : is_uint max -> is_uint price ->
  _redeemCollateralFromTrove W recv b max price up low hint s = Ok (z, e, cancelled, s') ->
  is_uint z /\ is_uint e /\ face_value price z e /\
  if cancelled then s' = s else books (dc - e) (dd - z) ds s' /\ redeemed b (t_coll t) (t_debt t) z e s s'.
Proof.
  intros Um Up H. pose proof (i_manager _ _ _ _ B) as M. pose proof (m_troves _ M b) as T. pose proof (t_debt_uint _ _ T) as Ut. pose proof (t_coll_uint _ _ T) as Uc.
  unfold _redeemCollateralFromTrove in H. view H as x Hx. injection Hx as <-. pure H as net Hnet.
  destruct (sub_Ok _ _ _ Ut compensation_uint Hnet) as (En & _ & Un).
  assert (is_uint (_min max net)) as Uz by (unfold _min; by case_match). set (z0 := _min max net) in *. clearbody z0.
  pure H as n Hn. pure H as e0 He. destruct (lot_Ok _ _ _ _ Uz Up Hn He) as [Ue Fv].
  pure H as d Hd. destruct (sub_Ok _ _ _ Ut Uz Hd) as (-> & Lz & Ud). pure H as c Hc. destruct (sub_Ok _ _ _ Uc Ue Hc) as (-> & Le & Ucl).
  destruct (Z.eqb_spec (t_debt t - z0) ZUSD_GAS_COMPENSATION) as [Ez|Nz].
  - run H as u1 s1 H1. run H as u2 s2 H2. run H as u3 s3 H3. injection H as <- <- <- <-. do 3 (split; [done|]).
    exact (redeem_full _ _ _ _ _ _ _ _ Ez Le (proj1 Ue) H1 H2 H3).
  - pure H as k Hk. pure H as stop Hs. destruct stop; [by injection H as <- <- <- <-|].
    destruct (negb (k =? hint)); [done|]. apply bind_Ok_inv in Hs as (rest & Hr & [= Hs]). apply Z.ltb_ge in Hs.
    unfold _getNetDebt in Hr. destruct (sub_Ok _ _ _ Ud compensation_uint Hr) as (-> & _ & _).
    run H as u1 s1 H1. run H as u2 s2 H2. run H as u3 s3 H3. injection H as <- <- <- <-. do 3 (split; [done|]).
    exact (redeem_part _ _ _ _ _ _ _ _ _ _ _ Ud Ucl Hk ltac:(lia) H1 H2 H3).
Qed.
End FromTrove.
End One.

(** ** The loop *)

Lemma applied_amounts_like m m' a : like (trove m' a) (trove m a) -> snapshot m' a = snapshot m a ->
  L_ETH m' = L_ETH m -> L_ZUSDDebt m' = L_ZUSDDebt m -> applied_amounts m' a = applied_amounts m a.
Proof.
  intros (L1 & L2 & L3 & L4) Es E1 E2.
  unfold applied_amounts, _hasPendingRewards, _getCurrentTroveAmounts, _getPendingETHReward, _getPendingZUSDDebtReward, pending, is_active.
  by rewrite L1, L2, L3, L4, Es, E1, E2.
Qed.

Lemma applied_amounts_current m a : current m a -> applied_amounts m a = Ok (t_coll (trove m a), t_debt (trove m a)).
Proof.
  intros C. unfold applied_amounts, _hasPendingRewards. unfold current in C.
  rewrite C, Z.ltb_irrefl, andb_false_r. done.
Qed.

Lemma like_active m m' a : like (trove m' a) (trove m a) -> is_active m' a = is_active m a.
Proof. intros (_ & _ & _ & E). unfold is_active. by rewrite E. Qed.

(** Rewards are applied, then the Trove is redeemed from. *)
Lemma redeemed_after_apply b s s1 s2 z e : applied b s s1 ->
  redeemed b (t_coll (trove (manager s1) b)) (t_debt (trove (manager s1) b)) z e s1 s2 ->
  exists coll debt, applied_amounts (manager s) b = Ok (coll, debt) /\ redeemed b coll debt z e s s2.
Proof.
  intros P [R1 R2 R3 R4 R5 R8 R6 R7]. pose proof (ap_elsewhere _ _ _ P) as E. eexists _, _. split; [apply P|].
  unfold redeemed_trove, getCollateral, system_coll in *. rewrite (e_surplus _ _ E) in *. split; unfold redeemed_trove, getCollateral, system_coll.
  - by rewrite R1, (e_wiring _ _ E).
  - by rewrite R2, (e_params _ _ E).
  - by rewrite R3, (e_stability _ _ E).
  - etrans; [apply P|done].
  - done.
  - by rewrite <- (e_sorted _ _ E), <- (e_wiring _ _ E).
  - done.
  - rewrite R7, (ap_colls _ _ _ P). done.
Qed.

(** Nothing but the rewards is applied. *)
Lemma applied_redeemed dc dd ds b s s1 : books dc dd ds s1 -> applied b s s1 -> is_active (manager s) b = true ->
  exists coll debt, applied_amounts (manager s) b = Ok (coll, debt) /\ redeemed b coll debt 0 0 s s1.
Proof.
  intros B1 P A. apply (redeemed_after_apply b s s1 s1 0 0 P). rewrite <- (ap_active _ _ _ P b) in A. split; try done.
  - right. rewrite !Z.sub_0_r. split_and!; try done. apply P.
  - intros St. unfold is_active in A. by rewrite St in A.
Qed.

Section Loop.
Context (W : World) (recv : address -> address -> Z -> call System unit) (price amount : Z) (Up : is_uint price) (s0 : System).

(** A Trove is as it was, or rewards were applied and at most face value was drawn from it. *)
Definition drawn_from (s : System) (a : address) : Prop :=
  like (trove (manager s) a) (trove (manager s0) a) /\ snapshot (manager s) a = snapshot (manager s0) a /\
    getCollateral s a = getCollateral s0 a \/
  is_active (manager s0) a = true /\ exists coll debt z e, applied_amounts (manager s0) a = Ok (coll, debt) /\
    0 <= z /\ face_value price z e /\ redeemed_trove a coll debt z e s0 s.

(** The Troves with an entry [(z, e)] in [d] had [z] of their debt redeemed for [e] of their collateral; all others are as they were. *)
Definition drawn_by (d : gmap address (Z * Z)) (s : System) : Prop := forall a,
  match d !! a with
  | None => like (trove (manager s) a) (trove (manager s0) a) /\ snapshot (manager s) a = snapshot (manager s0) a /\
            getCollateral s a = getCollateral s0 a
  | Some (z, e) => is_active (manager s0) a = true /\ exists coll debt, applied_amounts (manager s0) a = Ok (coll, debt) /\
            0 <= z /\ face_value price z e /\ redeemed_trove a coll debt z e s0 s
  end.

Definition redeemed_sum (d : gmap address (Z * Z)) : Z := total (fun _ x => fst x) d.
Definition drawn_sum (d : gmap address (Z * Z)) : Z := total (fun _ x => snd x) d.

Lemma drawn_by_from d s a : drawn_by d s -> drawn_from s a.
Proof.
  intros D. specialize (D a). destruct (d !! a) as [[z e]|]; [right|by left]. destruct D as (A & coll & debt & D). split; [done|]. by exists coll, debt, z, e.
Qed.

Record redeeming (t : RedemptionTotals) (s : System) : Prop := {
  rg_books : books (- totalETHDrawn t) (- totalZUSDToRedeem t) 0 s;
  rg_amount : remainingZUSD t + totalZUSDToRedeem t = amount;
  rg_left : is_uint (remainingZUSD t);
  rg_redeemed : is_uint (totalZUSDToRedeem t);
  rg_drawn : is_uint (totalETHDrawn t);
  rg_value : face_value price (totalZUSDToRedeem t) (totalETHDrawn t);
  rg_wiring : wiring s = wiring s0;
  rg_params : params s = params s0;
  rg_stability : stability s = stability s0;
  rg_L_ETH : L_ETH (manager s) = L_ETH (manager s0);
  rg_L_debt : L_ZUSDDebt (manager s) = L_ZUSDDebt (manager s0);
  rg_coll : system_coll s + surplus_ETH (surplus s) = system_coll s0 + surplus_ETH (surplus s0);
  rg_troves : exists d, drawn_by d s /\ redeemed_sum d = totalZUSDToRedeem t /\ drawn_sum d = totalETHDrawn t }.

(** More is drawn from [b]. *)
Definition draw (d : gmap address (Z * Z)) (b : address) (z e : Z) : gmap address (Z * Z) :=
  let x := default (0, 0) (d !! b) in <[b := (fst x + z, snd x + e)]> d.

Lemma draw_sums d b z e : redeemed_sum (draw d b z e) = redeemed_sum d + z /\ drawn_sum (draw d b z e) = drawn_sum d + e.
Proof.
  unfold redeemed_sum, drawn_sum, draw. cbv zeta. set (x := default (0, 0) (d !! b)).
  rewrite (total_insert (fun _ x => fst x) d b _ (0, 0)), (total_insert (fun _ x => snd x) d b _ (0, 0)) by done. fold x. cbn [fst snd]. lia.
Qed.

Lemma drawn_step d b coll debt z e s s' : redeemed b coll debt z e s s' -> 0 <= z -> face_value price z e ->
  is_active (manager s) b = true -> applied_amounts (manager s) b = Ok (coll, debt) ->
  L_ETH (manager s) = L_ETH (manager s0) -> L_ZUSDDebt (manager s) = L_ZUSDDebt (manager s0) ->
  drawn_by d s -> drawn_by (draw d b z e) s'.
Proof.
  intros R Pz Fv A Ha E1 E2 D a. pose proof (rd_touched _ _ _ _ _ _ _ R) as T. unfold draw. destruct (decide (a = b)) as [->|N].
  - rewrite lookup_insert_eq. pose proof (rd_trove _ _ _ _ _ _ _ R) as Q. unfold redeemed_trove in *. specialize (D b).
    destruct (d !! b) as [[z1 e1]|]; cbn [default from_option id fst snd].
    + destruct D as (A0 & c & x & H0 & P1 & F1 & [(St & _)|(A1 & C1 & G1 & D1 & X1)]); [unfold is_active in A; by rewrite St in A|].
      split; [done|]. rewrite (applied_amounts_current _ _ C1) in Ha. injection Ha as <- <-. exists c, x.
      split_and!; try done; [lia|by apply face_value_add|]. unfold redeemed_trove. rewrite G1, D1, X1 in Q.
      destruct Q as [(? & ? & ? & ?)|(? & ? & ? & ? & ?)]; [left|right]; split_and!; done || lia.
    + destruct D as (Lk & Sn & Eg). rewrite (applied_amounts_like _ _ _ Lk Sn E1 E2) in Ha. rewrite (like_active _ _ _ Lk) in A. split; [done|].
      exists coll, debt. rewrite !Z.add_0_l. split_and!; try done. unfold redeemed_trove. by rewrite Eg in Q.
  - rewrite lookup_insert_ne by done. pose proof (h_trove _ _ _ T a N) as Lk. pose proof (h_snapshot _ _ _ T a N) as Sn.
    pose proof (rd_others _ _ _ _ _ _ _ R a N) as Eg. specialize (D a). destruct (d !! a) as [[z1 e1]|].
    + destruct D as (A0 & c & x & H0 & P1 & F1 & Q). split; [done|]. exists c, x. split_and!; try done. unfold redeemed_trove, current in *.
      rewrite (like_active _ _ _ Lk), Sn, (h_L_ETH _ _ _ T), Eg. destruct Lk as (-> & -> & _ & ->). done.
    + destruct D as (Lk' & Sn' & Eg'). split_and!; [by eapply like_trans|by rewrite Sn|by rewrite Eg].
Qed.

(** Only an active Trove has the debt that is reserved for its liquidation. *)
Lemma visited_active dc dd ds b s u s1 max up low hint r s2 : books dc dd ds s -> _applyPendingRewards b s = Ok (u, s1) ->
  _redeemCollateralFromTrove W recv b max price up low hint s1 = Ok (r, s2) -> is_active (manager s) b = true.
Proof.
  intros B H1 H2. destruct (is_active (manager s) b) eqn:A; [done|]. rewrite (apply_inactive _ _ _ _ A H1) in H2.
  destruct (t_closed _ _ (m_troves _ (i_manager _ _ _ _ B) b) A) as (_ & E & _).
  unfold _redeemCollateralFromTrove in H2. view H2 as t Ht. injection Ht as <-. pure H2 as net Hnet. by rewrite E in Hnet.
Qed.

Lemma redeem_step b t s u s1 up low hint z e cancelled s2 : redeeming t s -> _applyPendingRewards b s = Ok (u, s1) ->
  _redeemCollateralFromTrove W recv b (remainingZUSD t) price up low hint s1 = Ok (z, e, cancelled, s2) ->
  if cancelled then redeeming t s2
  else forall k d x, SafeMath.add (totalZUSDToRedeem t) z = Ok k -> SafeMath.add (totalETHDrawn t) e = Ok d ->
         SafeMath.sub (remainingZUSD t) z = Ok x -> redeeming (mkRedemptionTotals x k d) s2.
Proof.
  intros G H1 H2. pose proof (rg_books _ _ G) as B. pose proof (visited_active _ _ _ _ _ _ _ _ _ _ _ _ _ B H1 H2) as A.
  destruct (apply_applied _ _ _ _ _ _ _ B A H1) as [B1 P]. pose proof (proj1 (rg_drawn _ _ G)) as Pd.
  assert (is_active (manager s1) b = true) as A1 by (by rewrite (ap_active _ _ _ P)).
  destruct (redeem_from W recv _ _ _ _ _ B1 A1 (ap_current _ _ _ P) ltac:(lia) _ _ _ _ _ _ _ _ _ (rg_left _ _ G) Up H2) as (Uz & Ue & Fv & R).
  destruct cancelled.
  - subst s2. destruct (applied_redeemed _ _ _ _ _ _ B1 P A) as (coll & debt & Ha & R). destruct (rg_troves _ _ G) as (dr & D0 & S1 & S2).
    pose proof (drawn_step _ _ _ _ _ _ _ _ R ltac:(done) ltac:(done) A Ha (rg_L_ETH _ _ G) (rg_L_debt _ _ G) D0) as D.
    destruct (draw_sums dr b 0 0) as [X1 X2]. rewrite !Z.add_0_r in X1, X2.
    destruct G, R as [? ? ? T ? ? ? ?], T. split; try done; try congruence. exists (draw dr b 0 0). split_and!; [done|by rewrite X1|by rewrite X2].
  - intros k d x Hk Hd Hx. destruct R as [B2 R]. destruct (redeemed_after_apply _ _ _ _ _ _ P R) as (coll & debt & Ha & R').
    destruct (rg_troves _ _ G) as (dr & D0 & S1 & S2). destruct (draw_sums dr b z e) as [X1 X2].
    pose proof (drawn_step _ _ _ _ _ _ _ _ R' (proj1 Uz) Fv A Ha (rg_L_ETH _ _ G) (rg_L_debt _ _ G) D0) as D.
    pose proof (rg_redeemed _ _ G). pose proof (rg_drawn _ _ G). pose proof (rg_left _ _ G). safe_math.
    destruct G, R' as [? ? ? T ? ? ? ?], T. split; cbn [totalETHDrawn totalZUSDToRedeem remainingZUSD]; try done; try congruence.
    + eqbooks B2.
    + lia.
    + by apply face_value_add.
    + exists (draw dr b z e). split_and!; [done|lia|lia].
Qed.

Lemma redeem_loop_ok gas up low hint n b t s t' s' : redeeming t s ->
  redeem_loop W recv gas price up low hint n b t s = Ok (t', s') -> redeeming t' s'.
Proof.
  revert n b t s. induction gas as [|gas IH]; intros n b t s G H; cbn [redeem_loop] in H;
    (destruct (_ && _); [|by injection H as <- <-]); [done|].
  view H as next Hn. run H as u s1 H1. run H as r s2 H2. destruct r as [[z e] cancelled].
  pose proof (redeem_step _ _ _ _ _ _ _ _ _ _ _ _ G H1 H2) as G2. destruct cancelled; [by injection H as <- <-|].
  pure H as k Hk. pure H as d Hd. pure H as x Hx. by apply (IH _ _ _ _ (G2 _ _ _ Hk Hd Hx) H).
Qed.

Lemma redeeming_start : inv s0 -> is_uint amount -> redeeming (mkRedemptionTotals amount 0 0) s0.
Proof.
  intros B Ua. split; cbn; try done; try apply zero_uint; [lia|]. exists ∅. split; [intros a; by rewrite lookup_empty|done].
Qed.
End Loop.

(** ** The whole call *)

Section Redeem.
Context (W : World) (recv : address -> address -> Z -> call System unit) (Unow : is_uint (now W)).

Lemma capped_rate r : 0 < _min r DECIMAL_PRECISION -> is_uint (_min r DECIMAL_PRECISION) /\ _min r DECIMAL_PRECISION <= DECIMAL_PRECISION.
Proof. pose proof precision_uint as U. unfold _min, is_uint in *. destruct (Z.ltb_spec r DECIMAL_PRECISION); lia. Qed.

Lemma redemptionRate_books dc dd ds s drawn price supply u s' : books dc dd ds s ->
  _updateBaseRateFromRedemption W drawn price supply s = Ok (u, s') -> books dc dd ds s' /\ frame s s'.
Proof.
  intros B H. unfold _updateBaseRateFromRedemption in H. apply manager_call_Ok in H as (m & H & ->). inv_result.
  match goal with H : _calcDecayedBaseRate _ _ = Ok _ |- _ => pose proof (decayed_uint _ _ _ H) as Ur end.
  match goal with E : (0 <? ?r) = true |- _ => set (rate := r) in *; apply Z.ltb_lt in E; assert (is_uint rate /\ rate <= DECIMAL_PRECISION) as [Uq Lq] end.
  { by apply capped_rate. }
  unfold _updateLastFeeOpTime in *. inv_result. pose proof (m_time _ (i_manager _ _ _ _ B)).
  destruct (SECONDS_IN_ONE_MINUTE <=? _).
  - change (set_rate (set_rate ?m _ _) ?r ?t) with (set_rate m r t). by apply rate_books.
  - by apply rate_books.
Qed.

(** What a redemption of at most [amount] has done before the redeemer is paid. *)
Record redemption (amount price redeemed drawn fee maxFee : Z) (s s' : System) : Prop := {
  rp_some : 0 < drawn;
  rp_amount : 0 <= redeemed <= amount;
  rp_value : drawn * price <= redeemed * DECIMAL_PRECISION;
  rp_fee : 0 <= fee < drawn;
  rp_accepted : _requireUserAcceptsFee fee drawn maxFee = Ok tt;
  rp_TCR : exists TCR, _getTCR s price = Ok TCR /\ MCR (params s) <= TCR;
  rp_wiring : wiring s' = wiring s;
  rp_params : params s' = params s;
  rp_stability : stability s' = stability s;
  rp_coll : system_coll s' + surplus_ETH (surplus s') = system_coll s + surplus_ETH (surplus s) - drawn;
  rp_troves : exists d, drawn_by price s d s' /\ redeemed_sum d = redeemed /\ drawn_sum d = drawn }.

(** Nothing of the Troves and the surplus is changed. *)
Definition same_troves (s s' : System) : Prop := (exists r t, manager s' = set_rate (manager s) r t) /\ surplus s' = surplus s.

Lemma drawn_same price s0 s1 s s' d : manager s1 = manager s0 -> surplus s1 = surplus s0 -> same_troves s s' ->
  drawn_by price s1 d s -> drawn_by price s0 d s'.
Proof.
  intros Em Eu [(r & x & E) Es]. unfold drawn_by, redeemed_trove, getCollateral, current, is_active.
  rewrite E, Es, Em, Eu. change (trove (set_rate ?m _ _)) with (trove m). change (snapshot (set_rate ?m _ _)) with (snapshot m). done.
Qed.

Lemma redemptionFee_Ok s drawn fee : _getRedemptionFee s drawn = Ok fee -> is_uint fee /\ fee < drawn.
Proof.
  unfold _getRedemptionFee, _calcRedemptionFee. intros H. inv_result.
  match goal with E : SafeMath.mul _ _ = Ok _, F : SafeMath.div _ _ = Ok _ |- _ =>
    apply mul_word in E; destruct (div_Ok _ _ _ E F) as (_ & _ & U) end.
  split; [done|]. by apply Z.ltb_lt.
Qed.

Lemma TCR_frame s s' price : frame s s' -> _getTCR s' price = _getTCR s price.
Proof. intros F. unfold _getTCR, getEntireSystemColl, getEntireSystemDebt. by rewrite (fr_active _ _ F), (fr_default _ _ F). Qed.

(** The redeemed tokens are burnt, and the drawn ether leaves the active pool. *)
Lemma redeem_tail s sender me redeemed drawn fee u s' : books (- drawn) (- redeemed) 0 s -> is_uint drawn -> is_uint redeemed -> is_uint fee ->
  outsider (wiring s) sender ->
  (let$ distributor := view_call (fun s => Ok (feeDistributor (wiring s))) in
   let$ _ := ActivePool.sendETH (transfer recv) me distributor fee in
   let$ _ := distributeFees W recv me in
   let$ rest := pure_call (SafeMath.sub drawn fee) in
   let$ _ := burn me sender redeemed in
   let$ _ := ActivePool.decreaseZUSDDebt me redeemed in
   ActivePool.sendETH (transfer recv) me sender rest) s = Ok (u, s') ->
  exists s1, inv s1 /\ recv (activePool (wiring s)) sender (drawn - fee) s1 = Ok (u, s') /\ outsider (wiring s1) sender /\
    wiring s1 = wiring s /\ params s1 = params s /\ stability s1 = stability s /\ same_troves s s1 /\
    system_coll s1 = system_coll s - drawn.
Proof.
  intros B Ud Ur Uf Ho H. view H as dist Hdist. injection Hdist as <-. run H as u1 s1 H1.
  destruct (send_distributor recv _ _ _ _ _ _ _ _ B Uf H1) as (B1 & [Nw Np Nm Ns Nz Na] & D1 & X1 & Y1).
  run H as u2 s2 H2. destruct (quietly_distribute W recv me _ _ _ _ _ _ B1 H2) as [B2 F2]. pure H as rest Hrest. safe_math.
  run H as u3 s3 H3. destruct (quietly_burn _ _ _ Ur _ _ _ _ _ _ B2 H3) as [B3 _]. apply token_beside in H3 as [F3 A3].
  run H as u4 s4 H4. destruct (decreaseDebt_books _ _ _ _ _ _ _ _ B3 Ur H4) as [B4 E4].
  assert (wiring s4 = wiring s) as W4 by (rewrite E4; cbn; by rewrite (be_wiring _ _ F3), (fr_wiring _ _ F2), Nw).
  rewrite <- W4 in Ho. destruct (sendETH_books recv _ _ _ _ B4 me sender _ _ _ ltac:(eassumption) Ho H) as (s5 & B5 & F5 & A5 & Z5 & H5).
  rewrite W4 in *. exists s5. destruct F2 as [Fw Fp (r & x & Fm) Fa Fd _ Fu Fs _], F3 as [Bw Bp Bm Bd _ Bu Bs], F5 as [Cw Cp Cm Cd _ Cu Cs].
  rewrite E4 in *. cbn [wiring params manager default_pool surplus stability active_pool with_active ActivePool.set_debt pool_ETH] in *.
  split; [eqbooks B5|]. split; [done|]. split; [congruence|]. split; [congruence|]. split; [congruence|]. split; [congruence|]. split.
  - split; [exists r, x|]; congruence.
  - unfold system_coll. rewrite A5, Cd, Bd, Fd, D1, A3, Fa, Na. cbn [pool_ETH]. lia.
Qed.

Lemma fetchPrice_surplus s price s' : fetchPrice W s = Ok (price, s') -> surplus s' = surplus s.
Proof. intros H. unfold fetchPrice, answer, _storePrice in H. inv_call; repeat (case_match; inv_call); inv_result; done. Qed.

Lemma redeem_books s sender amount first up low hint iterations maxFee u s' : inv s -> is_uint amount -> outsider (wiring s) sender ->
  _redeemCollateral W recv sender amount first up low hint iterations maxFee s = Ok (u, s') ->
  exists s1 price s0 redeemed drawn fee, fetchPrice W s = Ok (price, s0) /\ inv s1 /\ outsider (wiring s1) sender /\
    recv (activePool (wiring s)) sender (drawn - fee) s1 = Ok (u, s') /\
    redemption amount price redeemed drawn fee maxFee s s1 /\
    exists b t sl, first_borrower (walk_gas W) s0 first price = Ok b /\
      redeem_loop W recv (walk_gas W) price up low hint (if iterations =? 0 then MAX_UINT else iterations) b
        (mkRedemptionTotals amount 0 0) s0 = Ok (t, sl) /\ totalZUSDToRedeem t = redeemed.
Proof.
  intros B Ua Ho H. unfold _redeemCollateral, this_manager in H. view H as me Hme. view H as x1 K1. view H as x2 K2.
  run H as price s0 Hp. destruct (fetchPrice_books _ _ _ _ _ _ _ B Hp) as (Up & B0 & F0).
  view H as x3 HT. pure H as x4 K3. view H as x5 K4. view H as supply K5. view H as x6 K6. view H as b K7. cbv zeta in H.
  run H as t s1 Hl. pose proof (redeem_loop_ok W recv price amount Up s0 _ _ _ _ _ _ _ _ _ _ (redeeming_start _ _ _ B0 Ua) Hl) as G.
  pure H as x7 Hs. apply require_Ok, Z.ltb_lt in Hs. run H as x8 s2 H2. destruct (redemptionRate_books _ _ _ _ _ _ _ _ _ (rg_books _ _ _ _ _ G) H2) as [B2 F2].
  view H as fee Hf. destruct (redemptionFee_Ok _ _ _ Hf) as [Uf Lf]. pure H as x9 Hx.
  assert (wiring s2 = wiring s) as W2 by (by rewrite (fr_wiring _ _ F2), (rg_wiring _ _ _ _ _ G), (fr_wiring _ _ F0)). rewrite <- W2 in Ho.
  destruct (redeem_tail _ _ _ _ _ _ _ _ B2 (rg_drawn _ _ _ _ _ G) (rg_redeemed _ _ _ _ _ G) Uf Ho H) as (s3 & B3 & H3 & Ho3 & W3 & P3 & Y3 & [M3 U3] & C3).
  exists s3, price, s0, (totalZUSDToRedeem t), (totalETHDrawn t), fee. rewrite W2 in H3. split_and!; try done; [|by eexists _, _, _].
  pose proof (rg_amount _ _ _ _ _ G). pose proof (rg_left _ _ _ _ _ G) as [? _]. pose proof (rg_redeemed _ _ _ _ _ G) as [? _]. pose proof (proj1 Uf).
  unfold _requireTCRoverMCR in HT. apply bind_Ok_inv in HT as (TCR & HT & Hm). apply require_Ok, Z.leb_le in Hm. rewrite (TCR_frame _ _ _ F0) in HT.
  split; try done; try lia.
  - apply (rg_value _ _ _ _ _ G).
  - by destruct x9.
  - exists TCR. by rewrite <- (fr_params _ _ F0).
  - by rewrite W3.
  - by rewrite P3, (fr_params _ _ F2), (rg_params _ _ _ _ _ G), (fr_params _ _ F0).
  - by rewrite Y3, (fr_stability _ _ F2), (rg_stability _ _ _ _ _ G), (fr_stability _ _ F0).
  - rewrite C3, U3. pose proof (rg_coll _ _ _ _ _ G) as Gc. unfold system_coll in *.
    rewrite (fr_active _ _ F2), (fr_default _ _ F2), (fr_surplus _ _ F2). rewrite (fr_active _ _ F0), (fr_default _ _ F0), (fr_surplus _ _ F0) in Gc. lia.
  - destruct (rg_troves _ _ _ _ _ G) as (d & D & S1 & S2). exists d. split; [|done].
    apply (drawn_same price s s0 s1 s3); [by apply (fetchPrice_manager W _ price)|by apply (fetchPrice_surplus _ price)| |done].
    destruct (fr_manager _ _ F2) as (r & y & E2), M3 as (r' & y' & E3). split; [exists r', y'; by rewrite E3, E2|by rewrite U3, (fr_surplus _ _ F2)].
Qed.
End Redeem.
