(* ===== verification/StabilityFacts.v ===== *)
(** * The operations of the Stability Pool keep the books *)

From S2P Require Import Prelude Solidity Ledger SortedTroves SortedTrovesFacts ChainState ZUSDToken.
From S2P Require Import ActivePool DefaultPool CollSurplusPool Outside FeeDistributor TroveManager BorrowerOperations.
From S2P Require Import StabilityPool Invariant InvariantFacts TroveSteps BorrowerSteps BorrowerFacts PoolSteps.
Import LiquityMath.
Local Open Scope Z_scope.

(** ** Reading the storage *)

(** What gains of ether and compounded stakes are computed from. *)
Record same_stakes (p p' : Stability) : Prop := {
  ss_deposits : deposits p' = deposits p;
  ss_snapshots : depositSnapshots p' = depositSnapshots p;
  ss_frontEnds : frontEnds p' = frontEnds p;
  ss_stakes : frontEndStakes p' = frontEndStakes p;
  ss_stakeSnapshots : frontEndSnapshots p' = frontEndSnapshots p;
  ss_P : sp_P p' = sp_P p;
  ss_scale : currentScale p' = currentScale p;
  ss_epoch : currentEpoch p' = currentEpoch p;
  ss_sums : epochToScaleToSum p' = epochToScaleToSum p }.

Lemma same_stakes_gain p p' a : same_stakes p p' -> getDepositorETHGain p' a = getDepositorETHGain p a.
Proof.
  intros [Ed Es _ _ _ _ _ _ Em]. unfold getDepositorETHGain, _getETHGainFromSnapshots, deposit_of, snapshots_of. by rewrite Ed, Es, Em.
Qed.

Lemma same_stakes_compounded p p' a : same_stakes p p' -> getCompoundedZUSDDeposit p' a = getCompoundedZUSDDeposit p a.
Proof.
  intros [Ed Es _ _ _ EP Ec Ee _]. unfold getCompoundedZUSDDeposit, _getCompoundedStakeFromSnapshots, deposit_of, snapshots_of.
  by rewrite Ed, Es, EP, Ec, Ee.
Qed.

(** ZERO has been issued up to [now] and shared among the deposits; the errors of the other sums stay. *)
Definition zero_issued (now : Z) (p p' : Stability) : Prop := exists issuance c q,
  issueZERO (community p) now = Ok (issuance, c) /\ _updateG (set_community p c) issuance = Ok q /\
  community p' = c /\ epochToScaleToG p' = epochToScaleToG q /\ lastZEROError p' = lastZEROError q /\
  lastETHError_Offset p' = lastETHError_Offset p /\ lastZUSDLossError_Offset p' = lastZUSDLossError_Offset p.

Lemma issuance_Ok W dc dd ds s u s' : books dc dd ds s -> _triggerZEROIssuance W s = Ok (u, s') ->
  books dc dd ds s' /\ exists p, s' = with_stability s p /\ same_trackers (stability s) p /\ same_stakes (stability s) p /\
    zero_issued (now W) (stability s) p.
Proof.
  intros B H. destruct (issuance_books _ _ _ _ _ _ _ B H) as [B' (p & E & T)]. split; [done|]. exists p. split; [done|]. split; [done|].
  unfold _triggerZEROIssuance in H. apply pool_call_Ok in H as (p' & H & ->). apply (f_equal stability) in E. cbn in E. subst p'.
  apply bind_Ok_inv in H as ([n c] & Hi & H). pose proof H as G. unfold _updateG, _computeZEROPerUnitStaked in H. cbn [fst snd] in *.
  destruct (_ || _); [injection H as <-|inv_result]; (split; [done|]); by exists n, c; eexists.
Qed.

Lemma gain_uint p a g : getDepositorETHGain p a = Ok g -> is_uint g.
Proof.
  unfold getDepositorETHGain, _getETHGainFromSnapshots, gain_from_snapshots. case_match; [intros [= <-]; apply zero_uint|]. intros H0. inv_result.
  match goal with E : SafeMath.mul _ _ = Ok ?x, F : SafeMath.div ?x _ = Ok ?y, G : SafeMath.div ?y _ = Ok _ |- _ =>
    apply mul_word in E; destruct (div_Ok _ _ _ E F) as (_ & _ & U); by destruct (div_Ok _ _ _ U G) as (_ & _ & ?) end.
Qed.

Lemma compounded_stake_uint p n r c : _getCompoundedStakeFromSnapshots p n r = Ok c -> is_uint c.
Proof.
  unfold _getCompoundedStakeFromSnapshots. case_match; [intros [= <-]; apply zero_uint|]. intros H1. apply bind_Ok_inv in H1 as (d & _ & H1). apply bind_Ok_inv in H1 as (c0 & Hc & H1).
  apply bind_Ok_inv in H1 as (l & _ & [= <-]). assert (is_uint c0) as U.
  { destruct (d =? 0); [|destruct (d =? 1); [|injection Hc as <-; apply zero_uint]]; inv_result;
      match goal with E : SafeMath.mul _ _ = Ok _ |- _ => apply mul_word in E end.
    - by destruct (div_Ok _ _ _ ltac:(eassumption) Hc) as (_ & _ & ?).
    - match goal with E : is_uint ?x, F : SafeMath.div ?x _ = Ok ?y |- _ =>
        destruct (div_Ok _ _ _ E F) as (_ & _ & U) end. by destruct (div_Ok _ _ _ U Hc) as (_ & _ & ?). }
  destruct (c0 <? l); [apply zero_uint|done].
Qed.

Lemma compounded_uint p a c : getCompoundedZUSDDeposit p a = Ok c -> is_uint c.
Proof. unfold getCompoundedZUSDDeposit. case_match; [intros [= <-]; apply zero_uint|apply compounded_stake_uint]. Qed.
Lemma front_stake_uint p a c : getCompoundedFrontEndStake p a = Ok c -> is_uint c.
Proof. unfold getCompoundedFrontEndStake. case_match; [intros [= <-]; apply zero_uint|apply compounded_stake_uint]. Qed.

(** ** What the operations leave alone *)

(** Everything but the storage of the pool, the tokens, the ether and the last price. *)
Record tended (s s' : System) : Prop := {
  td_wiring : wiring s' = wiring s;
  td_params : params s' = params s;
  td_manager : manager s' = manager s;
  td_active : active_pool s' = active_pool s;
  td_default : default_pool s' = default_pool s;
  td_sorted : sorted s' = sorted s;
  td_surplus : surplus s' = surplus s }.

#[export] Instance tended_preorder : PreOrder tended.
Proof. split; [by intros s; split|]. intros s1 s2 s3 H1 H2. destruct H1, H2. split; congruence. Qed.

Lemma tended_stability s p : tended s (with_stability s p).
Proof. done. Qed.

Lemma tended_token g msg f s u s' : token_call g msg f s = Ok (u, s') -> tended s s' /\ stability s' = stability s /\ ether s' = ether s.
Proof. unfold token_call. intros H. inv_result. by split. Qed.

(** The deposits and snapshots of the others. *)
Definition others_kept (who : address) (p p' : Stability) : Prop :=
  forall a, a <> who -> deposit_of p' a = deposit_of p a /\ snapshots_of p' a = snapshots_of p a.

Section Operations.
Context (W : World) (recv : address -> address -> Z -> call System unit) (Unow : is_uint (now W)).

(** Ether gained goes to the depositor, whose code runs last. *)
Lemma sendGain_books dc dd ds s sender n u s' : books dc dd ds s -> is_uint n -> outsider (wiring s) sender ->
  _sendETHGainTo recv sender n sender s = Ok (u, s') ->
  exists s1, books dc dd ds s1 /\ settled recv sender s1 u s' /\ tended s s1 /\ zusd s1 = zusd s /\
    (forall a, ether_of s1 a = ether_of s a - (if decide (a = stabilityPool (wiring s)) then n else 0) + (if decide (a = sender) then n else 0)) /\
    n <= sp_ETH (stability s) /\ stability s1 = set_sp_ETH (stability s) (sp_ETH (stability s) - n) /\
    (if n =? 0 then s' = s1 else recv (stabilityPool (wiring s)) sender n s1 = Ok (u, s')).
Proof.
  intros B Un Ho H. unfold _sendETHGainTo, this_pool in H. pure H as x Hx. pose proof (i_stability _ _ _ _ B) as Y. pose proof (y_ETH _ Y) as UE.
  destruct (Z.eqb_spec n 0) as [->|N0].
  { injection H as _ <-. exists s. rewrite Z.sub_0_r. split_and!; try done; [by left| |apply UE|by destruct (stability s)].
    intros a. repeat case_decide; lia. }
  view H as me Hme. injection Hme as <-. run H as u1 s1 H1. apply pool_call_Ok in H1 as (p & H1 & ->). inv_result. safe_math.
  apply or_revert_Ok in H. run H as u2 s2 H2. apply pay_Ok in H2 as (_ & e & -> & Te & Ee). read_storage.
  match type of H with context [is_core ?x sender] =>
    assert (is_core x sender = false) as Nc by (by apply bool_decide_eq_false_2); rewrite Nc in H end.
  set (s1 := with_ether _ e) in *. pose proof (i_funded _ _ _ _ B) as F. pose proof (f_stability _ F). pose proof (w_nodup _ (i_wired _ _ _ _ B)) as N.
  assert (funded s1) as F1.
  { apply (funded_out s s1 (stabilityPool (wiring s)) sender n); try done; try (apply Un || lia);
      (by rewrite decide_True) || by rewrite decide_False, Z.sub_0_r by (apply same_false; by decide_core N). }
  exists s1. split_and!; try done.
  - destruct (i_wired _ _ _ _ B), (i_pools _ _ _ _ B), (i_listed _ _ _ _ B). split; try apply B; try done; by split; try apply Y.
  - right. by eexists _, _.
Qed.

(** A change of the storage that leaves the trackers and the deposits alone. *)
Lemma keep_books dc dd ds f s u s' : books dc dd ds s -> pool_call f s = Ok (u, s') ->
  (forall p', f (stability s) = Ok p' -> same_trackers (stability s) p') ->
  books dc dd ds s' /\ tended s s' /\ zusd s' = zusd s /\ ether s' = ether s /\ same_trackers (stability s) (stability s') /\
  f (stability s) = Ok (stability s').
Proof.
  intros B H Hf. destruct (pool_books _ _ _ _ _ _ _ B H Hf) as (B' & p & E & -> & T). split_and!; try done; apply T.
Qed.

Lemma moves_books dc dd ds g msg from to n s u s' : books dc dd ds s -> is_uint n ->
  token_call g msg (fun t => _transfer t from to n) s = Ok (u, s') ->
  books dc dd ds s' /\ tended s s' /\ stability s' = stability s /\ ether s' = ether s /\
  forall a, balance (zusd s') a = balance (zusd s) a - (if decide (a = from) then n else 0) + (if decide (a = to) then n else 0).
Proof.
  intros B Un H. destruct (quietly_moves _ _ _ _ _ Un _ _ _ _ _ _ B H) as [B' _]. rewrite Z.add_0_r in B'.
  destruct (tended_token _ _ _ _ _ _ H) as (T & Es & Ee). split_and!; try done. unfold token_call in H. inv_result.
  match goal with E : _transfer _ _ _ _ = Ok _ |- _ => by apply (transfer_balances _ _ _ _ _ (i_token _ _ _ _ B) Un) in E as (_ & _ & ?) end.
Qed.

(** The deposits are as they were. *)
Definition same_deposits (p p' : Stability) : Prop := deposits p' = deposits p /\ depositSnapshots p' = depositSnapshots p.

Lemma frontStake_keeps p a n : same_trackers p (_updateFrontEndStakeAndSnapshots p a n) /\
  same_deposits p (_updateFrontEndStakeAndSnapshots p a n).
Proof. unfold _updateFrontEndStakeAndSnapshots. by destruct (n =? 0). Qed.

Lemma deposit_updated p a n : same_trackers p (_updateDepositAndSnapshots p a n) /\
  initialValue (deposit_of (_updateDepositAndSnapshots p a n) a) = n /\ others_kept a p (_updateDepositAndSnapshots p a n).
Proof.
  unfold _updateDepositAndSnapshots. destruct (Z.eqb_spec n 0) as [->|N]; (split; [done|]; split);
    unfold deposit_of, snapshots_of, others_kept; cbn [deposits depositSnapshots set_deposits].
  1, 3: by rewrite lookup_insert_eq.
  all: intros b Nb; unfold deposit_of, snapshots_of; cbn [deposits depositSnapshots set_deposits]; by rewrite !lookup_insert_ne.
Qed.

(** The sums and the product of now, as a snapshot with [S]. *)
Definition snapshots_now (p : Stability) (S : Z) : Snapshots :=
  mkSnapshots S (sp_P p) (sum_at (epochToScaleToG p) (currentEpoch p) (currentScale p)) (currentScale p) (currentEpoch p).

(** The records of the pool after a deposit of [amount]: ZERO has been issued, only a new depositor chooses the tag, the depositor's
    snapshots are of now, and the front end that is the tag has the amount added to its compounded stake, with snapshots of now. *)
Record credited (sender : address) (amount : Z) (tag : address) (p p' : Stability) : Prop := {
  cr_issued : zero_issued (now W) p p';
  cr_tag : frontEndTag (deposit_of p' sender) = (if initialValue (deposit_of p sender) =? 0 then tag else frontEndTag (deposit_of p sender));
  cr_snapshots : snapshots_of p' sender = snapshots_now p' (sum_at (epochToScaleToSum p) (currentEpoch p) (currentScale p));
  cr_stake : let frontEnd := frontEndTag (deposit_of p' sender) in
    exists stake, getCompoundedFrontEndStake p frontEnd = Ok stake /\ front_end_stake p' frontEnd = stake + amount /\
    front_end_snapshots p' frontEnd = snapshots_now p' (snap_S (front_end_snapshots p frontEnd)) /\
    forall a, a <> frontEnd -> front_end_stake p' a = front_end_stake p a /\ front_end_snapshots p' a = front_end_snapshots p a;
  cr_kept : sp_P p' = sp_P p /\ currentScale p' = currentScale p /\ currentEpoch p' = currentEpoch p /\
    epochToScaleToSum p' = epochToScaleToSum p /\ frontEnds p' = frontEnds p }.

(** What a deposit of [amount] has done before the gain is paid. *)
Record supplied (sender : address) (amount : Z) (tag : address) (gain compounded : Z) (s s' : System) : Prop := {
  su_tended : tended s s';
  su_credited : credited sender amount tag (stability s) (stability s');
  su_gain : getDepositorETHGain (stability s) sender = Ok gain;
  su_compounded : getCompoundedZUSDDeposit (stability s) sender = Ok compounded;
  su_total : totalZUSDDeposits (stability s') = totalZUSDDeposits (stability s) + amount;
  su_ETH : sp_ETH (stability s') = sp_ETH (stability s) - gain;
  su_deposit : initialValue (deposit_of (stability s') sender) = compounded + amount;
  su_others : others_kept sender (stability s) (stability s');
  su_ether : forall a, ether_of s' a = ether_of s a - (if decide (a = stabilityPool (wiring s)) then gain else 0)
                                       + (if decide (a = sender) then gain else 0);
  su_tokens : forall a, balance (zusd s') a = balance (zusd s) a - (if decide (a = sender) then amount else 0)
                                              + (if decide (a = stabilityPool (wiring s)) then amount else 0) }.

(** The storage of the pool after a deposit, from that after the issuance. *)
Definition tagged (p : Stability) (a tag : address) (new : bool) : Stability := if new then _setFrontEndTag p a tag else p.
Definition provided (p : Stability) (a frontEnd : address) (stake deposit total eth : Z) : Stability :=
  set_sp_ETH (_updateDepositAndSnapshots (set_totalDeposits (_updateFrontEndStakeAndSnapshots p frontEnd stake) total) a deposit) eth.

Lemma tagged_reads p a tag new : tagged p a tag new = set_deposits p (deposits (tagged p a tag new)) (depositSnapshots p) /\
  frontEndTag (deposit_of (tagged p a tag new) a) = if new then tag else frontEndTag (deposit_of p a).
Proof. destruct new; cbn; [|by destruct p]. unfold deposit_of. cbn. by rewrite lookup_insert_eq. Qed.

Lemma provided_reads p a fe stake deposit total eth : 0 < stake -> 0 < deposit -> let q := provided p a fe stake deposit total eth in
  (community q = community p /\ epochToScaleToG q = epochToScaleToG p /\ lastZEROError q = lastZEROError p /\
   lastETHError_Offset q = lastETHError_Offset p /\ lastZUSDLossError_Offset q = lastZUSDLossError_Offset p) /\
  frontEndTag (deposit_of q a) = frontEndTag (deposit_of p a) /\
  snapshots_of q a = snapshots_now q (sum_at (epochToScaleToSum p) (currentEpoch p) (currentScale p)) /\
  front_end_stake q fe = stake /\ front_end_snapshots q fe = snapshots_now q (snap_S (front_end_snapshots p fe)) /\
  (forall b, b <> fe -> front_end_stake q b = front_end_stake p b /\ front_end_snapshots q b = front_end_snapshots p b) /\
  sp_P q = sp_P p /\ currentScale q = currentScale p /\ currentEpoch q = currentEpoch p /\ epochToScaleToSum q = epochToScaleToSum p /\
  frontEnds q = frontEnds p.
Proof.
  intros Ps Pd. cbv zeta. unfold provided, _updateFrontEndStakeAndSnapshots, _updateDepositAndSnapshots.
  rewrite !(proj2 (Z.eqb_neq _ 0)) by lia. unfold deposit_of, snapshots_of, front_end_stake, front_end_snapshots, snapshots_now.
  split_and!; cbn; rewrite ?lookup_insert_eq; try done. intros b Nb. by rewrite !lookup_insert_ne.
Qed.

Lemma same_stakes_front p p' a : same_stakes p p' -> getCompoundedFrontEndStake p' a = getCompoundedFrontEndStake p a /\
  front_end_stake p' a = front_end_stake p a /\ front_end_snapshots p' a = front_end_snapshots p a.
Proof.
  intros [_ _ _ Es En EP Ec Ee _]. unfold getCompoundedFrontEndStake, _getCompoundedStakeFromSnapshots, front_end_stake, front_end_snapshots.
  by rewrite Es, En, EP, Ec, Ee.
Qed.

Lemma provided_credited p p1 sender amount tag cs deposit total eth : same_stakes p p1 -> zero_issued (now W) p p1 -> 0 < amount -> 0 < deposit ->
  let p2 := tagged p1 sender tag (initialValue (deposit_of p sender) =? 0) in let fe := frontEndTag (deposit_of p2 sender) in
  getCompoundedFrontEndStake p2 fe = Ok cs -> credited sender amount tag p (provided p2 sender fe (cs + amount) deposit total eth).
Proof.
  intros S I Pa Pd p2 fe Hc. destruct (tagged_reads p1 sender tag (initialValue (deposit_of p sender) =? 0)) as [Et Ef]. fold p2 in Et, Ef.
  pose proof (proj1 (front_stake_uint _ _ _ Hc)) as Pc.
  destruct (provided_reads p2 sender fe (cs + amount) deposit total eth) as ((C1 & C2 & C3 & C4 & C5) & R1 & R2 & R3 & R4 & R5 & K1 & K2 & K3 & K4 & K5); [lia|done|].
  set (q := provided _ _ _ _ _ _ _) in *. clearbody q.
  assert (forall a, getCompoundedFrontEndStake p2 a = getCompoundedFrontEndStake p a /\ front_end_stake p2 a = front_end_stake p a /\
    front_end_snapshots p2 a = front_end_snapshots p a) as F.
  { intros a. rewrite Et. change (getCompoundedFrontEndStake (set_deposits p1 _ _) a) with (getCompoundedFrontEndStake p1 a).
    exact (same_stakes_front _ _ a S). }
  destruct S as [Sd _ Sf _ _ SP Sc Se Ss]. split.
  - destruct I as (i & c & g & I1 & I2 & I3 & I4 & I5 & I6 & I7). exists i, c, g. rewrite C1, C2, C3, C4, C5, Et. by cbn.
  - rewrite R1, Ef. unfold deposit_of. by rewrite Sd.
  - rewrite R2, Et. cbn. by rewrite Ss, Sc, Se.
  - rewrite R1. fold fe. exists cs. destruct (F fe) as (F1 & _ & F3). rewrite <- F1, <- F3. split_and!; try done.
    intros a Na. destruct (F a) as (_ & <- & <-). by apply R5.
  - rewrite K1, K2, K3, K4, K5, Et. cbn. by rewrite SP, Sc, Se, Ss, Sf.
Qed.

(** The tag of a new depositor changes neither gain nor compounded deposit. *)
Lemma tag_gain p a tag : initialValue (deposit_of p a) = 0 ->
  getDepositorETHGain (_setFrontEndTag p a tag) a = getDepositorETHGain p a /\
  getCompoundedZUSDDeposit (_setFrontEndTag p a tag) a = getCompoundedZUSDDeposit p a /\ others_kept a p (_setFrontEndTag p a tag).
Proof.
  intros E. assert (initialValue (deposit_of (_setFrontEndTag p a tag) a) = 0) as E'.
  { unfold deposit_of, _setFrontEndTag in *. cbn [deposits set_deposits]. by rewrite lookup_insert_eq. }
  unfold getDepositorETHGain, getCompoundedZUSDDeposit. rewrite E, E'. split_and!; try done.
  intros b Nb. unfold deposit_of, snapshots_of, _setFrontEndTag. cbn [deposits depositSnapshots set_deposits]. by rewrite lookup_insert_ne.
Qed.

(** Issuance, and the tag of a new depositor. *)
Lemma provide_start s sender tag u1 s1 u2 s2 : inv s -> _triggerZEROIssuance W s = Ok (u1, s1) ->
  (if initialValue (deposit_of (stability s) sender) =? 0 then pool_call (fun p => Ok (_setFrontEndTag p sender tag)) else call_ret tt) s1 = Ok (u2, s2) ->
  inv s2 /\ tended s s2 /\ zusd s2 = zusd s /\ ether s2 = ether s /\ same_trackers (stability s) (stability s2) /\
  getDepositorETHGain (stability s2) sender = getDepositorETHGain (stability s) sender /\
  getCompoundedZUSDDeposit (stability s2) sender = getCompoundedZUSDDeposit (stability s) sender /\
  others_kept sender (stability s) (stability s2) /\
  exists p, same_stakes (stability s) p /\ zero_issued (now W) (stability s) p /\
    stability s2 = tagged p sender tag (initialValue (deposit_of (stability s) sender) =? 0).
Proof.
  intros B H1 H2. destruct (issuance_Ok _ _ _ _ _ _ _ B H1) as (B1 & p1 & -> & T1 & S1 & I1). pose proof S1 as [Sd Ss _ _ _ _ _ _ _].
  assert (others_kept sender (stability s) p1) as O1 by (intros a _; unfold deposit_of, snapshots_of; by rewrite Sd, Ss).
  destruct (Z.eqb_spec (initialValue (deposit_of (stability s) sender)) 0) as [E0|N0].
  - destruct (keep_books _ _ _ _ _ _ _ B1 H2) as (B2 & D2 & Z2 & E2 & T2 & K2); [by intros p' [= <-]|]. injection K2 as K2. cbn [stability with_stability] in *.
    destruct (tag_gain p1 sender tag) as (G1 & G2 & G3); [unfold deposit_of in *; by rewrite Sd|].
    rewrite <- K2, G1, G2, (same_stakes_gain _ _ _ S1), (same_stakes_compounded _ _ _ S1).
    split; [done|]. split; [by etrans; [apply (tended_stability s p1)|]|]. do 2 (split; [done|]). split; [by destruct T1; split|]. do 2 (split; [done|]).
    split; [intros a Ha; by destruct (G3 a Ha) as [-> ->], (O1 a Ha) as [-> ->]|by exists p1].
  - injection H2 as _ <-. cbn [stability with_stability]. rewrite (same_stakes_gain _ _ _ S1), (same_stakes_compounded _ _ _ S1). split_and!; try done; try apply T1.
    by exists p1.
Qed.

(** Tokens go to the pool, which counts them. *)
Lemma supply_books s sender amount u s' : inv s -> is_uint amount -> _sendZUSDtoStabilityPool sender amount s = Ok (u, s') ->
  inv s' /\ tended s s' /\ ether s' = ether s /\ stability s' = set_totalDeposits (stability s) (totalZUSDDeposits (stability s) + amount) /\
  forall a, balance (zusd s') a = balance (zusd s) a - (if decide (a = sender) then amount else 0)
                                  + (if decide (a = stabilityPool (wiring s)) then amount else 0).
Proof.
  intros B Ua H. unfold _sendZUSDtoStabilityPool, this_pool in H. view H as me Hme. injection Hme as <-. run H as u1 s1 H1.
  destruct (moves_books _ _ _ _ _ _ _ _ _ _ _ B Ua H1) as (B1 & D1 & S1 & E1 & T1). apply pool_call_Ok in H as (p & H & ->). inv_result.
  pose proof (i_stability _ _ _ _ B1) as Y. safe_math. rewrite S1 in *.
  split; [|split; [by etrans; [exact D1|]|by split_and!]]. apply books_stability; [done| |].
  - split; [apply Y|done].
  - cbn. rewrite <- S1. apply (i_funded _ _ _ _ B1).
Qed.

Lemma provide_books s sender amount tag u s' : inv s -> is_uint amount -> outsider (wiring s) sender ->
  _provideToSP W recv sender amount tag s = Ok (u, s') ->
  exists s1 gain compounded, inv s1 /\ settled recv sender s1 u s' /\ 0 < amount /\ supplied sender amount tag gain compounded s s1 /\
    (if gain =? 0 then s' = s1 else recv (stabilityPool (wiring s)) sender gain s1 = Ok (u, s')).
Proof.
  intros B Ua Ho H. unfold _provideToSP, pool_view in H. view H as x1 K1. view H as x2 K2. pure H as x3 K3. apply require_Ok, Z.ltb_lt in K3.
  view H as init Hi. injection Hi as <-. run H as u1 s1 H1. run H as u2 s2 H2.
  destruct (provide_start _ _ _ _ _ _ _ B H1 H2) as (B2 & D2 & Z2 & E2 & T2 & G2 & C2 & O2 & p1 & S1 & I1 & Q2).
  view H as gain Hg. view H as comp Hc. rewrite G2 in Hg. rewrite C2 in Hc. pure H as loss Hl. view H as fe Hfe. unfold _payOutZEROGains in H. view H as x4 K4. view H as cs Hcs.
  pure H as ns Hns. run H as u3 s3 H3. destruct (keep_books _ _ _ _ _ _ _ B2 H3) as (B3 & D3 & Z3 & E3 & T3 & Q3); [intros p' [= <-]; apply frontStake_keeps|].
  injection Q3 as Q3. destruct (frontStake_keeps (stability s2) fe ns) as [_ [X3 X3']]. rewrite Q3 in X3, X3'.
  run H as u4 s4 H4. destruct (supply_books _ _ _ _ _ B3 Ua H4) as (B4 & D4 & E4 & X4 & T4). pure H as nd Hnd.
  pose proof (compounded_uint _ _ _ Hc) as Uc. pose proof (gain_uint _ _ _ Hg) as Ug. pose proof (front_stake_uint _ _ _ Hcs) as Us. safe_math.
  run H as u5 s5 H5. destruct (deposit_updated (stability s4) sender (comp + amount)) as (V5 & V5' & V5'').
  destruct (keep_books _ _ _ _ _ _ _ B4 H5) as (B5 & D5 & Z5 & E5 & T5 & Q5); [by intros p' [= <-]|]. injection Q5 as Q5. rewrite Q5 in V5', V5''.
  assert (tended s s5) as D by (do 3 (etrans; [|eassumption]); done). rewrite <- (td_wiring _ _ D) in Ho.
  destruct (sendGain_books _ _ _ _ _ _ _ _ B5 Ug Ho H) as (s6 & B6 & S6 & D6 & Z6 & E6 & _ & P6 & Y6). rewrite (td_wiring _ _ D) in E6, Y6.
  exists s6, gain, comp. split; [done|]. split; [done|]. split; [done|]. split; [|done].
  injection Hfe as Hfe. rewrite Q2 in Hfe, Hcs. subst fe. pose proof (provided_credited _ _ sender amount tag _ (comp + amount)
    (totalZUSDDeposits (stability s3) + amount) (sp_ETH (stability s5) - gain) S1 I1 K3 ltac:(unfold is_uint in Uc; lia) Hcs) as Cr.
  unfold provided in Cr. rewrite Q2 in Q3. rewrite Q3, <- X4, Q5, <- P6 in Cr.
  destruct T2 as [T2 T2'], T3 as [T3 T3'], T5 as [T5 T5']. rewrite X4 in T5, T5'. cbn [sp_ETH totalZUSDDeposits set_totalDeposits] in T5, T5'.
  split; try done; rewrite ?P6; cbn [totalZUSDDeposits sp_ETH set_sp_ETH]; try lia.
  - by etrans.
  - exact V5'.
  - intros a Ha. destruct (V5'' a Ha) as [V1 V2], (O2 a Ha) as [W1 W2].
    change (deposit_of (set_sp_ETH ?p _)) with (deposit_of p). change (snapshots_of (set_sp_ETH ?p _)) with (snapshots_of p).
    rewrite V1, V2, <- W1, <- W2, X4. unfold deposit_of, snapshots_of. cbn. by rewrite X3, X3'.
  - intros a. rewrite E6. unfold ether_of. by rewrite E5, E4, E3, E2.
  - intros a. by rewrite Z6, Z5, T4, Z3, Z2, (td_wiring _ _ D3), (td_wiring _ _ D2).
Qed.

(** *** Withdrawals *)

Lemma fetchPrice_tended s price s' : fetchPrice W s = Ok (price, s') ->
  tended s s' /\ stability s' = stability s /\ zusd s' = zusd s /\ ether s' = ether s.
Proof. intros H. unfold fetchPrice, answer, _storePrice in H. inv_call; repeat (case_match; inv_call); inv_result; done. Qed.

(** The Trove with the lowest ratio is not to be liquidated. *)
Definition no_low_trove (s : System) : Prop := exists price s0 ICR, fetchPrice W s = Ok (price, s0) /\
  _getCurrentICR (manager s) (getLast (data (sorted s))) price = Ok ICR /\ MCR (params s) <= ICR.

Lemma check_books s amount u s' : inv s ->
  (if negb (amount =? 0) then _requireNoUnderCollateralizedTroves W else call_ret tt) s = Ok (u, s') ->
  inv s' /\ tended s s' /\ stability s' = stability s /\ zusd s' = zusd s /\ ether s' = ether s /\ (amount <> 0 -> no_low_trove s).
Proof.
  intros B H. destruct (Z.eqb_spec amount 0) as [->|N]; cbn [negb] in H; [by injection H as _ <-|].
  unfold _requireNoUnderCollateralizedTroves in H. run H as price s1 Hp. apply view_call_Ok in H as [H ->].
  destruct (fetchPrice_books _ _ _ _ _ _ _ B Hp) as (_ & B1 & _). destruct (fetchPrice_tended _ _ _ Hp) as (D & ? & ? & ?). split_and!; try done.
  intros _. exists price, s1. destruct D as [_ Dp Dm _ _ Ds _]. rewrite Dp, Dm, Ds in H. inv_result. eexists. split_and!; try done. by apply Z.leb_le.
Qed.

(** What a withdrawal of [n] to [receiver] has done before the gain is paid. *)
Record withdrawn (sender receiver : address) (n gain compounded : Z) (s s' : System) : Prop := {
  wd_tended : tended s s';
  wd_gain : getDepositorETHGain (stability s) sender = Ok gain;
  wd_compounded : getCompoundedZUSDDeposit (stability s) sender = Ok compounded;
  wd_total : totalZUSDDeposits (stability s') = totalZUSDDeposits (stability s) - n;
  wd_ETH : sp_ETH (stability s') = sp_ETH (stability s) - gain;
  wd_deposit : initialValue (deposit_of (stability s') sender) = compounded - n;
  wd_others : others_kept sender (stability s) (stability s');
  wd_ether : forall a, ether_of s' a = ether_of s a - (if decide (a = stabilityPool (wiring s)) then gain else 0)
                                       + (if decide (a = sender) then gain else 0);
  wd_tokens : forall a, balance (zusd s') a = balance (zusd s) a - (if decide (a = stabilityPool (wiring s)) then n else 0)
                                              + (if decide (a = receiver) then n else 0) }.

Lemma return_books s receiver n u s' : inv s -> is_uint n -> _sendZUSDToDepositor receiver n s = Ok (u, s') ->
  inv s' /\ tended s s' /\ ether s' = ether s /\ same_deposits (stability s) (stability s') /\
  sp_ETH (stability s') = sp_ETH (stability s) /\ totalZUSDDeposits (stability s') = totalZUSDDeposits (stability s) - n /\
  forall a, balance (zusd s') a = balance (zusd s) a - (if decide (a = stabilityPool (wiring s)) then n else 0)
                                  + (if decide (a = receiver) then n else 0).
Proof.
  intros B Un H. unfold _sendZUSDToDepositor, this_pool in H. destruct (Z.eqb_spec n 0) as [->|N].
  { injection H as _ <-. split_and!; try done; [lia|]. intros a. repeat case_decide; lia. }
  view H as me Hme. injection Hme as <-. run H as u1 s1 H1.
  destruct (moves_books _ _ _ _ _ _ _ _ _ _ _ B Un H1) as (B1 & D1 & S1 & E1 & T1).
  destruct (decreaseZUSD_books _ _ _ _ _ _ _ B1 Un H) as (B2 & _ & ->). rewrite S1.
  split; [by rewrite S1 in B2|]. split; [by etrans; [exact D1|]|by split_and!].
Qed.

Lemma withdraw_books s sender amount receiver n s' : inv s -> is_uint amount -> outsider (wiring s) sender ->
  _withdrawFromSpTo W recv sender amount receiver s = Ok (n, s') ->
  exists s1 gain compounded, inv s1 /\ settled recv sender s1 tt s' /\ is_uint n /\ n = Z.min amount compounded /\
    (amount <> 0 -> no_low_trove s) /\ withdrawn sender receiver n gain compounded s s1.
Proof.
  intros B Ua Ho H. unfold _withdrawFromSpTo, pool_view in H. pure H as x1 K1. run H as u0 s0 H0.
  destruct (check_books _ _ _ _ B H0) as (B0 & D0 & P0 & Z0 & E0 & L0). view H as init Hi. injection Hi as <-. pure H as x2 K2.
  run H as u1 s1 H1. destruct (issuance_Ok _ _ _ _ _ _ _ B0 H1) as (B1 & p1 & -> & T1 & S1 & I1). pose proof S1 as [Sd Ss _ _ _ _ _ _ _].
  view H as gain Hg. view H as comp Hc. cbn [stability with_stability] in Hg, Hc.
  rewrite (same_stakes_gain _ _ _ S1), P0 in Hg. rewrite (same_stakes_compounded _ _ _ S1), P0 in Hc. cbv zeta in H.
  pose proof (compounded_uint _ _ _ Hc) as Uc. pose proof (gain_uint _ _ _ Hg) as Ug.
  assert (is_uint (_min amount comp) /\ _min amount comp = Z.min amount comp) as [Uw Ew].
  { unfold _min. destruct (Z.ltb_spec amount comp); (split; [done|lia]). }
  set (w := _min amount comp) in *. clearbody w. pure H as loss Hl. view H as fe Hfe. unfold _payOutZEROGains in H. view H as x4 K4. view H as cs Hcs.
  pure H as ns Hns. run H as u3 s3 H3. destruct (keep_books _ _ _ _ _ _ _ B1 H3) as (B3 & D3 & Z3 & E3 & T3 & Q3); [intros p' [= <-]; apply frontStake_keeps|].
  injection Q3 as Q3. cbn [stability with_stability] in Q3, T3. destruct (frontStake_keeps p1 fe ns) as [_ [X3 X3']]. rewrite Q3 in X3, X3'.
  run H as u4 s4 H4. destruct (return_books _ _ _ _ _ B3 Uw H4) as (B4 & D4 & E4 & [X4 X4'] & Y4 & N4 & T4). pure H as nd Hnd.
  safe_math. run H as u5 s5 H5. destruct (deposit_updated (stability s4) sender (comp - w)) as (V5 & V5' & V5'').
  destruct (keep_books _ _ _ _ _ _ _ B4 H5) as (B5 & D5 & Z5 & E5 & T5 & Q5); [by intros p' [= <-]|]. injection Q5 as Q5. rewrite Q5 in V5', V5''.
  assert (tended s s5) as D by (etrans; [exact D0|]; do 3 (etrans; [|eassumption]); done). rewrite <- (td_wiring _ _ D) in Ho.
  run H as u6 s6' H6. injection H as <- <-.
  destruct (sendGain_books _ _ _ _ _ _ _ _ B5 Ug Ho H6) as (s6 & B6 & S6 & D6 & Z6 & E6 & _ & P6 & _).
  exists s6, gain, comp. split; [done|]. split; [by destruct u6|]. split; [done|]. split; [done|]. split; [done|].
  destruct T1 as [T1 T1'], T3 as [T3 T3'], T5 as [T5 T5']. rewrite P0 in T1, T1'.
  split; try done; rewrite ?P6; cbn [totalZUSDDeposits sp_ETH set_sp_ETH]; try lia.
  - by etrans.
  - exact V5'.
  - intros a Ha. destruct (V5'' a Ha) as [V1 V2].
    change (deposit_of (set_sp_ETH ?p _)) with (deposit_of p). change (snapshots_of (set_sp_ETH ?p _)) with (snapshots_of p).
    rewrite V1, V2. unfold deposit_of, snapshots_of. by rewrite X4, X4', X3, X3', Sd, Ss, P0.
  - intros a. rewrite E6, (td_wiring _ _ D). unfold ether_of. by rewrite E5, E4, E3, <- E0.
  - intros a. rewrite Z6, Z5, T4, Z3, <- Z0, (td_wiring _ _ D3). cbn [wiring with_stability]. by rewrite (td_wiring _ _ D0).
Qed.

(** *** The gain as collateral *)

(** The pool pays BorrowerOperations what it no longer records. *)
Lemma gain_moved s p n e : inv s -> stability_ok p -> sp_ETH p = sp_ETH (stability s) - n -> is_uint n ->
  total (fun _ n => n) e = total (fun _ n => n) (ether s) -> n <= ether_of s (stabilityPool (wiring s)) ->
  (forall a, default 0 (e !! a) = ether_of s a - (if decide (a = stabilityPool (wiring s)) then n else 0)
                                  + (if decide (a = borrowerOperations (wiring s)) then n else 0)) ->
  inv (with_ether (with_stability s p) e).
Proof.
  intros B Y En Un Te Ln Ee. set (s1 := with_ether _ _). pose proof (i_funded _ _ _ _ B) as F. pose proof (w_nodup _ (i_wired _ _ _ _ B)) as N.
  assert (forall a, ether_of s1 a = ether_of s a - (if decide (a = stabilityPool (wiring s)) then n else 0)
                                    + (if decide (a = borrowerOperations (wiring s)) then n else 0)) as Eo.
  { intros a. unfold s1. by rewrite ether_with, Ee. }
  assert (funded s1) as F1.
  { destruct (paid_ether s s1 _ _ n Eo) as (Q0 & Q1 & Q2 & Q3); [apply same_false; by decide_core N|apply Un|done|apply F|].
    apply (funded_update s); try done; cbn [active_pool default_pool surplus stability s1 with_ether with_stability]; fold s1;
      rewrite ?Q1, ?Q2, ?Q3, ?En; try lia; apply same_false; by decide_core N. }
  destruct (i_wired _ _ _ _ B), (i_pools _ _ _ _ B), (i_listed _ _ _ _ B). split; try apply B; done || by split.
Qed.

Lemma gainToTrove_books s sender up low u s' : inv s -> withdrawETHGainToTrove W recv sender up low s = Ok (u, s') ->
  inv s' /\ exists s1 price s0 mode gain, inv s1 /\ tended s s1 /\ fetchPrice W s1 = Ok (price, s0) /\
    getDepositorETHGain (stability s) sender = Ok gain /\ 0 < gain /\
    sp_ETH (stability s1) = sp_ETH (stability s) - gain /\ adjusting sender gain 0 price mode s1 s'.
Proof.
  intros B H. unfold withdrawETHGainToTrove, pool_view, this_pool in H. view H as init Hi. injection Hi as <-. pure H as x1 K1. view H as x2 K2. view H as x3 K3.
  run H as u1 s1 H1. destruct (issuance_Ok _ _ _ _ _ _ _ B H1) as (B1 & p1 & -> & T1 & S1 & _).
  view H as gain Hg. view H as comp Hc. cbn [stability with_stability] in Hg, Hc. rewrite (same_stakes_gain _ _ _ S1) in Hg.
  pose proof (gain_uint _ _ _ Hg) as Ug. unfold _requireUserHasETHGain in K3. rewrite Hg in K3. cbn [bind] in K3. apply require_Ok, Z.ltb_lt in K3.
  pure H as loss Hl. view H as fe Hfe. unfold _payOutZEROGains in H. view H as x4 K4. view H as cs Hcs.
  run H as u2 s2 H2. destruct (keep_books _ _ _ _ _ _ _ B1 H2) as (B2 & D2 & Z2 & E2 & T2 & _); [intros p' [= <-]; apply frontStake_keeps|].
  run H as u3 s3 H3. destruct (keep_books _ _ _ _ _ _ _ B2 H3) as (B3 & D3 & Z3 & E3 & T3 & _); [intros p' [= <-]; apply deposit_updated|].
  run H as u4 s4 H4. apply pool_call_Ok in H4 as (p4 & H4 & ->). inv_result. pose proof (i_stability _ _ _ _ B3) as Y. pose proof (y_ETH _ Y). safe_math.
  view H as me Hme. injection Hme as <-. unfold moveETHGainToTrove, payable, this in H. view H as bo Hbo. injection Hbo as <-.
  run H as u5 s5 H5. apply pay_Ok in H5 as (Lp & e & -> & Te & Ee). read_storage. view H as x5 K5. unfold _adjustTrove in H.
  set (p4 := set_sp_ETH _ _) in *.
  assert (inv (with_ether (with_stability s3 p4) e)) as B5.
  { apply (gain_moved s3 p4 gain e); try done. split; [done|apply Y]. }
  destruct (adjustTrove_books W recv Unow _ _ _ _ _ _ _ _ _ _ _ _ _ B5 Ug zero_uint zero_uint (or_intror (conj eq_refl eq_refl)) H)
    as (s6 & price & s0 & mode & fee & Hp & B6 & S6 & Pf & Hch & Ad & _).
  assert (s' = s6) as ->.
  { destruct S6 as [->|(from & n & O & _)]; [done|]. exfalso. apply O. rewrite (ad_wiring _ _ _ _ _ _ _ Ad). unfold core. cbn. rewrite !elem_of_cons. tauto. }
  split; [done|]. exists (with_ether (with_stability s3 p4) e), price, s0, mode, gain.
  cbn in Hch. subst fee. cbn [signed] in Ad. rewrite Z.sub_0_r in Ad. split; [done|]. split.
  { etrans; [apply (tended_stability s p1)|]. etrans; [exact D2|]. by etrans; [exact D3|]. }
  split_and!; try done. destruct T1 as [T1 _], T2 as [T2 _], T3 as [T3 _]. unfold p4. cbn [stability with_ether with_stability sp_ETH set_sp_ETH] in *. lia.
Qed.

Lemma registerFrontEnd_books s sender rate u s' : inv s -> registerFrontEnd sender rate s = Ok (u, s') -> inv s'.
Proof.
  intros B H. unfold registerFrontEnd, pool_view in H. view H as x1 K1. view H as x2 K2. pure H as x3 K3.
  by destruct (keep_books _ _ _ _ _ _ _ B H) as (B' & _); [intros p' [= <-]|].
Qed.
End Operations.
