(* ===== verification/StakingFacts.v ===== *)
(** * Staking keeps the books and pays what it says *)

From S2P Require Import Prelude Solidity Ledger SortedTroves SortedTrovesFacts ChainState ZUSDToken.
From S2P Require Import ActivePool DefaultPool CollSurplusPool Outside FeeDistributor ZEROStaking Governance TroveManager BorrowerOperations.
From S2P Require Import StabilityPool Invariant InvariantFacts TroveSteps BorrowerSteps BorrowerFacts PoolSteps RedemptionFacts StabilityFacts.
Import LiquityMath.
Local Open Scope Z_scope.

(** ** Small facts *)

Lemma staking_call_Ok f s u s' : staking_call f s = Ok (u, s') -> exists k, f (staking s) = Ok k /\ s' = with_staking s k.
Proof. unfold staking_call. intros H. inv_result. by eexists. Qed.

Lemma pending_gain_Ok st F sn g : is_uint st -> is_uint F -> is_uint sn -> pending_gain st F sn = Ok g ->
  is_uint g /\ sn <= F /\ g = st * (F - sn) / DECIMAL_PRECISION.
Proof. intros U1 U2 U3 H. unfold pending_gain in H. inv_result. safe_math. by split_and!. Qed.

Lemma pending_gain_word st F sn g : pending_gain st F sn = Ok g -> is_uint g.
Proof.
  intros H. unfold pending_gain in H. inv_result.
  match goal with E : SafeMath.mul _ _ = Ok _ |- _ => apply mul_word in E; by destruct (div_Ok _ _ _ E H) as (_ & _ & ?) end.
Qed.

(** What a call leaves alone that only pays and changes stakes. *)
Definition beside_staking (s s' : System) : Prop :=
  wiring s' = wiring s /\ params s' = params s /\ manager s' = manager s /\ active_pool s' = active_pool s /\
  default_pool s' = default_pool s /\ sorted s' = sorted s /\ surplus s' = surplus s /\ stability s' = stability s /\ zero s' = zero s.

Lemma staking_outside w : NoDup (core w) -> zeroStaking w ∉ pools w.
Proof.
  intros N. unfold pools. rewrite !not_elem_of_cons.
  split_and!; [apply same_false; by decide_core N..|apply not_elem_of_nil].
Qed.

Section Pay.
Context (recv : address -> address -> Z -> call System unit).

(** The gains go to the staker, whose code runs last. *)
Lemma payout_books dc dd ds s sender gz ge u s' : books dc dd ds s -> is_uint gz -> is_uint ge -> outsider (wiring s) sender ->
  (let$ _ := token_transfer (zeroStaking (wiring s)) sender gz in _sendETHGainToUser recv sender ge) s = Ok (u, s') ->
  exists s1, books dc dd ds s1 /\ recv (zeroStaking (wiring s)) sender ge s1 = Ok (u, s') /\ beside_staking s s1 /\ staking s1 = staking s /\
    balanceOf s1 sender = balanceOf s sender + gz /\ balanceOf s1 (zeroStaking (wiring s)) = balanceOf s (zeroStaking (wiring s)) - gz /\
    ether_of s1 sender = ether_of s sender + ge /\ ether_of s1 (zeroStaking (wiring s)) = ether_of s (zeroStaking (wiring s)) - ge.
Proof.
  intros B Uz Ue Ho H. run H as x s1 H1. destruct (quietly_transfer _ _ _ Uz _ _ _ _ _ _ B H1) as [B1 F1]. rewrite Z.add_0_r in B1.
  unfold token_transfer, token_call in H1. apply bind_Ok_inv in H1 as (y & _ & H1). apply bind_Ok_inv in H1 as (t & Ht & [= _ <-]).
  destruct (transfer_balances _ _ _ _ _ (i_token _ _ _ _ B) Uz Ht) as (_ & _ & Eb).
  unfold _sendETHGainToUser, this_staking in H. view H as me Hme. injection Hme as <-. apply or_revert_Ok in H. unfold transfer in H. run H as z s2 H2.
  destruct (pay_books _ _ _ _ _ _ _ _ _ B1 H2 (proj1 Ue)) as [B2 F2].
  { apply staking_outside, (i_wired _ _ _ _ B). }
  apply pay_Ok in H2 as (_ & e & -> & _ & Ee).
  assert (sender <> zeroStaking (wiring s)) as Ns by (intros ->; apply Ho; unfold core; rewrite !elem_of_cons; tauto).
  assert (is_core (with_ether (with_zusd s t) e) sender = false) as Nc by (by apply bool_decide_eq_false_2). rewrite Nc in H.
  eexists. split; [exact B2|]. split; [exact H|]. split; [by unfold beside_staking|]. split; [done|].
  unfold balanceOf, ether_of in *. cbn [zusd with_zusd with_ether ether wiring] in *.
  rewrite !Eb, !Ee. repeat case_decide; try done; split_and!; lia.
Qed.
End Pay.

(** ** Stakes *)

(** A staker has a stake of [new] now and was paid the gains of the old one. *)
Record stake_changed (sender : address) (new total_ gE gZ : Z) (s s1 : System) : Prop := {
  ch_beside : beside_staking s s1;
  ch_staking : staking s1 = set_stakes (_updateUserSnapshots (staking s) sender) (<[sender := new]> (zero_stakes (staking s))) total_;
  ch_zusd : balanceOf s1 sender = balanceOf s sender + gZ /\
            balanceOf s1 (zeroStaking (wiring s)) = balanceOf s (zeroStaking (wiring s)) - gZ;
  ch_ether : ether_of s1 sender = ether_of s sender + gE /\
             ether_of s1 (zeroStaking (wiring s)) = ether_of s (zeroStaking (wiring s)) - gE }.

Lemma quietly_staking f : quietly (fun _ => 0) (staking_call f).
Proof. intros dc dd ds s r s' B H. apply staking_call_Ok in H as (k & _ & ->). by apply staking_books. Qed.

Section Stakes.
Context (recv : address -> address -> Z -> call System unit) (sender : address).

Lemma staking_inv s k : inv s -> inv (with_staking s k).
Proof. intros I. destruct (staking_books _ _ _ _ k I) as [B _]. exact B. Qed.

Lemma stake_books s n u s' : inv s -> outsider (wiring s) sender -> stake recv sender n s = Ok (u, s') ->
  exists s1 gE gZ new total_, inv s1 /\ settled recv sender s1 u s' /\ 0 < n /\
    SafeMath.add (stake_of (staking s) sender) n = Ok new /\ SafeMath.add (totalZEROStaked (staking s)) n = Ok total_ /\
    (if stake_of (staking s) sender =? 0 then gE = 0 /\ gZ = 0
     else _getPendingETHGain (staking s) sender = Ok gE /\ _getPendingZUSDGain (staking s) sender = Ok gZ) /\
    stake_changed sender new total_ gE gZ s s1.
Proof.
  intros I Ho H. unfold stake, this_staking, sendToZEROStaking in H. view H as me Hme. injection Hme as <-. pure H as x1 Hn. apply require_Ok, Z.ltb_lt in Hn.
  view H as old Hold. injection Hold as <-. view H as gE HE. view H as gZ HZ. run H as x2 s1 H1. apply staking_call_Ok in H1 as (k1 & [= <-] & ->).
  pure H as new Hnew. run H as x3 s2 H2. apply staking_call_Ok in H2 as (k2 & H2 & ->). apply bind_Ok_inv in H2 as (total_ & Htot & [= <-]).
  view H as x4 K4. read_storage. set (k := set_stakes _ _ _) in *.
  pose proof (staking_inv _ k (staking_inv _ (_updateUserSnapshots (staking s) sender) I)) as I2.
  destruct (Z.eqb_spec (stake_of (staking s) sender) 0) as [E0|N0]; cbn [negb] in *.
  - injection HE as <-. injection HZ as <-. injection H as _ <-. eexists _, 0, 0, new, total_. split_and!; try done; [by left|].
    split; try done; unfold balanceOf, ether_of; cbn; lia.
  - destruct (payout_books recv _ _ _ _ sender gZ gE u s' I2 (pending_gain_word _ _ _ _ HZ) (pending_gain_word _ _ _ _ HE) Ho H)
      as (s1 & I1 & H1 & Bs & Ek & B1 & B2 & E1 & E2).
    exists s1, gE, gZ, new, total_. split_and!; try done. right. eexists _, _. split; [|exact H1]. destruct Bs as (-> & _). exact Ho.
Qed.

(** The part of [unstake] that changes the stake. *)
Lemma unstake_stakes s n x s2 : 0 < stake_of (staking s) sender ->
  (if 0 <? n then
     let ZEROToWithdraw := _min n (stake_of (staking s) sender) in
     let$ newStake := pure_call (SafeMath.sub (stake_of (staking s) sender) ZEROToWithdraw) in
     let$ _ := staking_call (fun k =>
       let! n := SafeMath.sub (totalZEROStaked k) ZEROToWithdraw in
       Ok (set_stakes k (<[sender := newStake]> (zero_stakes k)) n)) in
     transferZERO sender
   else call_ret tt) (with_staking s (_updateUserSnapshots (staking s) sender)) = Ok (x, s2) ->
  exists new total_, s2 = with_staking s (set_stakes (_updateUserSnapshots (staking s) sender) (<[sender := new]> (zero_stakes (staking s))) total_) /\
    (let out := if 0 <? n then _min n (stake_of (staking s) sender) else 0 in
     SafeMath.sub (stake_of (staking s) sender) out = Ok new /\ SafeMath.sub (totalZEROStaked (staking s)) out = Ok total_ \/
     out = 0 /\ new = stake_of (staking s) sender /\ total_ = totalZEROStaked (staking s)).
Proof.
  intros Hn H2. unfold transferZERO in H2. destruct (0 <? n).
  - pure H2 as new Hnew. run H2 as x4 s3 H3. apply staking_call_Ok in H3 as (k2 & H3 & ->). apply bind_Ok_inv in H3 as (total_ & Htot & [= <-]).
    apply view_call_Ok in H2 as [_ ->]. exists new, total_. split; [by destruct s|]. by left.
  - injection H2 as _ <-. exists (stake_of (staking s) sender), (totalZEROStaked (staking s)). split; [|by right].
    unfold stake_of in *. destruct (zero_stakes (staking s) !! sender) as [y|] eqn:E; [|done]. cbn [default] in *.
    f_equal. unfold set_stakes. cbn [_updateUserSnapshots set_stake_snapshots F_ETH F_ZUSD stake_snapshots zero_stakes totalZEROStaked]. by rewrite insert_id.
Qed.

Lemma unstake_books s n u s' : inv s -> outsider (wiring s) sender -> ZEROStaking.unstake recv sender n s = Ok (u, s') ->
  exists s1 gE gZ new total_, inv s1 /\ settled recv sender s1 u s' /\ 0 < stake_of (staking s) sender /\
    (let out := if 0 <? n then _min n (stake_of (staking s) sender) else 0 in
     SafeMath.sub (stake_of (staking s) sender) out = Ok new /\ SafeMath.sub (totalZEROStaked (staking s)) out = Ok total_ \/
     out = 0 /\ new = stake_of (staking s) sender /\ total_ = totalZEROStaked (staking s)) /\
    _getPendingETHGain (staking s) sender = Ok gE /\ _getPendingZUSDGain (staking s) sender = Ok gZ /\
    stake_changed sender new total_ gE gZ s s1.
Proof.
  intros I Ho H. unfold ZEROStaking.unstake, this_staking in H. view H as me Hme. injection Hme as <-. view H as old Hold. injection Hold as <-.
  pure H as x1 Hn. apply require_Ok, Z.ltb_lt in Hn. view H as gE HE. view H as gZ HZ. run H as x2 s1 H1. apply staking_call_Ok in H1 as (k1 & [= <-] & ->).
  run H as x3 s2 H2. destruct (unstake_stakes s n x3 s2 Hn H2) as (new & total_ & -> & Hout).
  set (k := set_stakes _ _ _) in *. pose proof (staking_inv _ k I) as I2.
  destruct (payout_books recv _ _ _ _ sender gZ gE u s' I2 (pending_gain_word _ _ _ _ HZ) (pending_gain_word _ _ _ _ HE) Ho H)
    as (s1 & I1 & H1 & Bs & Ek & B1 & B2 & E1 & E2).
  exists s1, gE, gZ, new, total_. split_and!; try done. right. eexists _, _. split; [|exact H1]. destruct Bs as (-> & _). exact Ho.
Qed.
End Stakes.

(** ** Owners *)

(** The storage is another one, but everything the books are about can be read as before. *)
Ltac same_books I := destruct I as [[] ? ? ? ? [] ? ? [] []]; split; try done; by split.

Lemma zero_inv s t : inv s -> inv (with_zero s t).
Proof. intros I. same_books I. Qed.
Lemma owners_inv s m : inv s -> inv (with_owners s m).
Proof. intros I. same_books I. Qed.
Lemma params_inv s p : inv s -> params_ok p -> inv (with_params s p).
Proof. intros I ?. same_books I. Qed.
Lemma share_inv s n : inv s -> is_uint n -> inv (with_share s n).
Proof. intros I ?. same_books I. Qed.

Lemma zero_call_inv f s u s' : inv s -> zero_call f s = Ok (u, s') -> inv s' /\ wiring s' = wiring s.
Proof. intros I H. unfold zero_call in H. inv_result. split; [by apply zero_inv|done]. Qed.

Lemma setOwner_inv contract sender owner s u s' : inv s -> setOwner contract sender owner s = Ok (u, s') -> inv s'.
Proof. intros I H. unfold setOwner in H. inv_result. by apply owners_inv. Qed.

Lemma setParams_inv sender f s u s' : inv s -> (forall p, params_ok p -> params_ok (f p)) -> set_params sender f s = Ok (u, s') -> inv s'.
Proof. intros I F H. unfold set_params, onlyOwner in H. inv_result. apply params_inv; [done|]. apply F, I. Qed.

Lemma setShare_inv sender n s u s' : inv s -> is_uint n -> setFeeToFeeSharingCollector sender n s = Ok (u, s') -> inv s'.
Proof. intros I U H. unfold setFeeToFeeSharingCollector, onlyOwner in H. inv_result. by apply share_inv. Qed.

Lemma transferFromZERO_inv sender owner recipient n s u s' : inv s -> transferFromZERO sender owner recipient n s = Ok (u, s') -> inv s'.
Proof. intros I H. unfold transferFromZERO, transferZERO in H. view H as x Hx. by destruct (zero_call_inv _ _ _ _ I H). Qed.

Lemma receiveZero_inv now account n s u s' : inv s -> receiveZero now account n s = Ok (u, s') -> inv s'.
Proof.
  intros I H. unfold receiveZero in H. view H as x1 K1. view H as x2 K2. view H as me K3. run H as x3 s1 H1.
  apply transferFromZERO_inv in H1; [|done]. apply update_call_Ok in H as ->. apply books_stability; [done| |].
  - by split; apply (i_stability _ _ _ _ H1).
  - apply (i_funded _ _ _ _ H1).
Qed.
