(* ===== verification/TransactionFacts.v ===== *)
(** * Every history of transactions keeps the books *)

From S2P Require Import Prelude Solidity Ledger SortedTroves SortedTrovesFacts ChainState ZUSDToken.
From S2P Require Import ActivePool DefaultPool CollSurplusPool Outside FeeDistributor TroveManager BorrowerOperations.
From S2P Require Import StabilityPool Liquidations Redemptions Transactions Invariant InvariantFacts TroveSteps BorrowerSteps BorrowerFacts.
From S2P Require Import PoolSteps LiquidationFacts LiquidationSettle RedemptionFacts StabilityFacts.
From S2P Require Import ZEROStaking Governance StakingFacts.
Import LiquityMath.
Local Open Scope Z_scope.

Lemma is_word_uint n : is_word n = true -> is_uint n.
Proof. intros [H1%Z.leb_le H2%Z.ltb_lt]%andb_prop. done. Qed.

Abbreviation silent := (quietly (fun _ => 0)).

(** ** Calls of an account *)

Section Keeps.
Context (W : World) (recv : address -> address -> Z -> call System unit) (sender : address).
Context (Unow : is_uint (now W)).
Context (Hrecv : forall from to n s u s', inv s -> outsider (wiring s) to -> recv from to n s = Ok (u, s') -> inv s').

Definition keeps {A} (m : call System A) : Prop :=
  forall s r s', inv s -> outsider (wiring s) sender -> m s = Ok (r, s') -> inv s'.

Lemma silent_inv {A} (m : call System A) s r s' : silent m -> inv s -> m s = Ok (r, s') -> inv s' /\ frame s s'.
Proof. intros M B H. destruct (M _ _ _ _ _ _ B H) as [B' F]. by rewrite Z.add_0_r in B'. Qed.

Lemma keeps_silent {A} (m : call System A) : silent m -> keeps m.
Proof. intros M s r s' B _ H. by destruct (silent_inv _ _ _ _ M B H). Qed.

Lemma keeps_after {A B} (m : call System A) (f : A -> call System B) :
  silent m -> (forall a, keeps (f a)) -> keeps (call_bind m f).
Proof.
  intros M F s r s' I O H. run H as a s1 H1. destruct (silent_inv _ _ _ _ M I H1) as [I1 F1].
  apply (F a s1 r); try done. by rewrite (fr_wiring _ _ F1).
Qed.

Lemma keeps_then {A B} (m : call System A) (f : A -> call System B) :
  keeps m -> (forall a, silent (f a)) -> keeps (call_bind m f).
Proof.
  intros M F s r s' I O H. run H as a s1 H1. pose proof (M _ _ _ I O H1) as I1.
  by destruct (silent_inv _ _ _ _ (F a) I1 H).
Qed.

Lemma settled_inv s1 u s' : inv s1 -> settled recv sender s1 u s' -> inv s'.
Proof. intros I [->|(from & n & O & H)]; [done|]. by apply (Hrecv from sender n s1 u). Qed.

Lemma keeps_payable value m : is_uint value -> keeps m -> keeps (payable sender value m).
Proof.
  intros U M s r s' I O H. unfold payable, this in H. view H as me Eme. run H as x s1 H1.
  assert (sender ∉ pools (wiring s)) as Np by (intros P; by apply O, pools_core).
  destruct (pay_books _ _ _ _ _ _ _ _ _ I H1 (proj1 U) Np) as [I1 F1].
  apply (M s1 r); try done. by rewrite (fr_wiring _ _ F1).
Qed.

Lemma keeps_open value f n up low rec : is_uint value -> is_uint n ->
  keeps (_openTrove W recv sender value f n up low rec).
Proof. intros Uv Un s r s' I O H. by destruct (openTrove_books W recv Unow _ _ _ _ _ _ _ _ _ _ I Uv Un H). Qed.

Lemma keeps_adjust value b cw zc di up low f rec : is_uint value -> is_uint cw -> is_uint zc ->
  keeps (_adjustSenderTrove W recv sender value b cw zc di up low f rec).
Proof.
  intros Uv Uw Uz s r s' I O H.
  destruct (adjustTrove_books W recv Unow _ _ _ _ _ _ _ _ _ _ _ _ _ I Uv Uw Uz (or_introl O) H)
    as (s1 & price & s0 & mode & fee & _ & I1 & S & _). by apply (settled_inv s1 r).
Qed.

Lemma keeps_close : keeps (BorrowerOperations._closeTrove W recv sender).
Proof.
  intros s r s' I O H. destruct (closeTrove_books W recv _ _ _ _ I O H) as (s1 & price & s0 & _ & I1 & S & _).
  by apply (settled_inv s1 r).
Qed.

Lemma keeps_claim : keeps (claimCollateral recv sender).
Proof. intros s r s' I O H. destruct (claim_books recv _ _ _ _ I O H) as (s1 & I1 & S & _). by apply (settled_inv s1 r). Qed.

(** *** Mynt *)

Lemma silent_bind {A B} (m : call System A) (f : A -> call System B) : silent m -> (forall a, silent (f a)) -> silent (call_bind m f).
Proof. apply quietly_bind0. Qed.

Lemma silent_mint_DLLR me masset n : is_uint n -> silent (mint_DLLR W me masset sender n).
Proof.
  intros U. apply silent_bind; [by apply quietly_approve|intros _].
  apply quietly_answer.
Qed.

Lemma silent_redeem me n : silent (redeemZusdFromDllrWithPermit W me sender n).
Proof.
  apply silent_bind; [apply quietly_view|intros x].
  apply silent_bind; [apply quietly_outside|intros _]. apply silent_bind; [apply quietly_view|intros y].
  apply silent_bind; [apply quietly_pure|intros z]. apply silent_bind; [apply quietly_pure|intros _]. apply quietly_answer.
Qed.

Lemma silent_masset : silent masset_set.
Proof.
  apply silent_bind; [apply quietly_view|intros m]. apply silent_bind; [apply quietly_pure|intros _]. apply quietly_ret.
Qed.

Lemma keeps_adjustNue value f cw zc di up low : is_uint value -> is_uint cw -> is_uint zc ->
  keeps (_adjustNueTrove W recv sender value f cw zc di up low).
Proof.
  intros Uv Uw Uz. apply keeps_after; [apply quietly_view|intros me]. apply keeps_after; [apply silent_masset|intros masset].
  apply keeps_after; [destruct (_ && _); [apply silent_redeem|apply quietly_ret]|intros _].
  apply keeps_then; [by apply keeps_adjust|intros _].
  apply silent_bind; [destruct (_ && _); [by apply silent_mint_DLLR|apply quietly_ret]|intros _]. apply quietly_ret.
Qed.

Lemma keeps_openNue value f n up low : is_uint value -> is_uint n ->
  keeps (openNueTrove W recv sender value f n up low).
Proof.
  intros Uv Un. apply keeps_payable; [done|]. apply keeps_after; [apply quietly_view|intros me].
  apply keeps_after; [apply silent_masset|intros masset]. apply keeps_then; [by apply keeps_open|intros _].
  apply silent_bind; [by apply silent_mint_DLLR|intros _; apply quietly_ret].
Qed.

Lemma keeps_convert f n up low : is_uint n -> keeps (withdrawZusdAndConvertToDLLR W recv sender f n up low).
Proof.
  intros Un. apply keeps_after; [apply quietly_view|intros me]. apply keeps_after; [apply quietly_view|intros x].
  apply keeps_then; [apply keeps_adjust; uint|intros _]. apply silent_bind; [apply quietly_pure|intros y].
  apply silent_bind; [apply quietly_view|intros _]. apply silent_bind; [apply quietly_view|intros masset].
  by apply silent_mint_DLLR.
Qed.

Lemma keeps_closeNue : keeps (closeNueTrove W recv sender).
Proof.
  apply keeps_after; [apply quietly_view|intros me]. apply keeps_after; [apply silent_masset|intros _].
  apply keeps_after; [apply quietly_view|intros d].
  apply keeps_after; [apply quietly_pure|intros n]. apply keeps_after; [apply silent_redeem|intros _]. apply keeps_close.
Qed.

Lemma keeps_gain value b up low : is_uint value -> keeps (moveETHGainToTrove W recv sender value b up low).
Proof.
  intros U. apply keeps_payable; [done|]. apply keeps_after; [apply quietly_view|intros _]. apply keeps_adjust; uint.
Qed.

(** *** The Stability Pool *)

(** What Mynt answers is a word. *)
Lemma answer_uint f s n s' : outside_answer f s = Ok (n, s') -> is_uint n.
Proof. unfold outside_answer. intros H. run H as r s1 H1. run H as u s2 H2. apply pure_call_Ok in H as [H _]. by apply word_Ok in H as [-> ?]. Qed.

Lemma redeem_uint me n s k s' : redeemZusdFromDllrWithPermit W me sender n s = Ok (k, s') -> is_uint k.
Proof.
  unfold redeemZusdFromDllrWithPermit. intros H. view H as x1 K1. run H as x2 s1 K2. view H as x3 K3. pure H as x4 K4. pure H as x5 K5.
  by apply answer_uint in H.
Qed.

(** An amount from Mynt that is used at once. *)
Lemma keeps_redeemed {A} me n (f : Z -> call System A) : (forall k, is_uint k -> keeps (f k)) ->
  keeps (let$ k := redeemZusdFromDllrWithPermit W me sender n in f k).
Proof.
  intros F s r s' I O H. run H as k s1 H1. destruct (silent_inv _ _ _ _ (silent_redeem me n) I H1) as [I1 F1].
  apply (F k (redeem_uint _ _ _ _ _ H1) s1 r); try done. by rewrite (fr_wiring _ _ F1).
Qed.

Lemma keeps_provide n tag : is_uint n -> keeps (_provideToSP W recv sender n tag).
Proof.
  intros U s r s' I O H. destruct (provide_books W recv _ _ _ _ _ _ I U O H) as (s1 & g & c & I1 & S & _). by apply (settled_inv s1 r).
Qed.

Lemma keeps_withdraw n rec : is_uint n -> keeps (_withdrawFromSpTo W recv sender n rec).
Proof.
  intros U s r s' I O H. destruct (withdraw_books W recv _ _ _ _ _ _ I U O H) as (s1 & g & c & I1 & S & _). by apply (settled_inv s1 tt).
Qed.

Lemma keeps_withdrawConvert n : is_uint n -> keeps (withdrawFromSpAndConvertToDLLR W recv sender n).
Proof.
  intros U s r s' I O H. unfold withdrawFromSpAndConvertToDLLR, this_pool in H. view H as me Hme. view H as masset Hm. run H as k s1 H1.
  pose proof (keeps_withdraw _ _ U _ _ _ I O H1) as I1. destruct (withdraw_books W recv _ _ _ _ _ _ I U O H1) as (s2 & g & c & _ & _ & Uk & _).
  run H as x s3 H3. injection H as _ <-. by destruct (silent_inv _ _ _ _ (silent_mint_DLLR me masset k Uk) I1 H3).
Qed.

(** *** Liquidations and redemptions *)

Lemma keeps_liquidation (m : call System unit) :
  (forall s u s', inv s -> outsider (wiring s) sender -> m s = Ok (u, s') -> liquidation W recv sender s u s') -> keeps m.
Proof. intros M s r s' I O H. destruct (M _ _ _ I O H) as (s1 & price & s0 & mode & t & _ & _ & I1 & S & _). by apply (settled_inv s1 r). Qed.

Lemma keeps_redemption n first up low h i f : is_uint n -> keeps (_redeemCollateral W recv sender n first up low h i f).
Proof.
  intros U s r s' I O H. destruct (redeem_books W recv Unow _ _ _ _ _ _ _ _ _ _ _ I U O H) as (s1 & price & s0 & z & e & fee & _ & I1 & O1 & H1 & _).
  by apply (Hrecv _ _ _ _ _ _ I1 O1 H1).
Qed.

(** *** Staking and owners *)

Lemma keeps_stake n : keeps (stake recv sender n).
Proof. intros s r s' I O H. destruct (stake_books recv _ _ _ _ _ I O H) as (s1 & gE & gZ & k & t & I1 & S & _). by apply (settled_inv s1 r). Qed.
Lemma keeps_unstake n : keeps (ZEROStaking.unstake recv sender n).
Proof. intros s r s' I O H. destruct (unstake_books recv _ _ _ _ _ I O H) as (s1 & gE & gZ & k & t & I1 & S & _). by apply (settled_inv s1 r). Qed.
Lemma keeps_zero f : keeps (zero_call f).
Proof. intros s r s' I O H. by destruct (zero_call_inv _ _ _ _ I H). Qed.
Lemma keeps_params f : (forall p, params_ok p -> params_ok (f p)) -> keeps (set_params sender f).
Proof. intros F s r s' I O H. by apply setParams_inv in H. Qed.

Lemma keeps_dispatch op : Forall is_uint (amounts op) -> keeps (dispatch W recv sender op).
Proof.
  intros U. destruct op; cbn [amounts] in U; rewrite ?Forall_cons in U; cbn [dispatch].
  - apply keeps_payable; [tauto|]. apply keeps_open; tauto.
  - apply keeps_openNue; tauto.
  - apply keeps_payable; [tauto|]. apply keeps_adjust; uint || tauto.
  - apply keeps_gain; tauto.
  - apply keeps_adjust; uint || tauto.
  - apply keeps_adjust; uint || tauto.
  - apply keeps_then; [apply keeps_convert; tauto|intros _; apply quietly_ret].
  - apply keeps_adjust; uint || tauto.
  - apply keeps_adjustNue; uint || tauto.
  - apply keeps_payable; [tauto|]. apply keeps_adjust; tauto.
  - apply keeps_payable; [tauto|]. apply keeps_adjustNue; tauto.
  - apply keeps_close.
  - apply keeps_closeNue.
  - apply keeps_claim.
  - apply keeps_provide; tauto.
  - apply keeps_after; [apply quietly_view|intros me]. apply keeps_redeemed. intros k U'. by apply keeps_provide.
  - apply keeps_then; [apply keeps_withdraw; tauto|intros _; apply quietly_ret].
  - apply keeps_withdrawConvert; tauto.
  - intros s r s' I O H. by destruct (gainToTrove_books W recv Unow _ _ _ _ _ _ I H).
  - intros s r s' I O H. by apply registerFrontEnd_books in H.
  - apply keeps_liquidation. intros s u s' I O H. by apply liquidate_books in H.
  - apply keeps_liquidation. intros s u s' I O H. by apply liquidateTroves_books in H.
  - apply keeps_liquidation. intros s u s' I O H. by apply batchLiquidate_books in H.
  - apply keeps_redemption; tauto.
  - apply keeps_after; [apply quietly_view|intros me]. apply keeps_redeemed. intros k U'. by apply keeps_redemption.
  - apply keeps_stake.
  - apply keeps_unstake.
  - apply keeps_zero.
  - intros s r s' I O H. by apply transferFromZERO_inv in H.
  - apply keeps_zero.
  - apply keeps_zero.
  - apply keeps_zero.
  - intros s r s' I O H. by apply receiveZero_inv in H.
  - intros s r s' I O H. by apply setOwner_inv in H.
  - apply keeps_params. intros p []. split; try done; tauto.
  - apply keeps_params. intros p []. by split.
  - apply keeps_params. intros p []. split; try done; tauto.
  - apply keeps_params. intros p []. split; try done; tauto.
  - apply keeps_params. intros p []. by split.
  - apply keeps_params. intros p []. split; try done; tauto.
  - intros s r s' I O H. apply setShare_inv in H; tauto.
  - intros s r s' I O H. run H as p s1 H1. injection H as _ <-. by destruct (fetchPrice_books _ _ _ _ _ _ _ I H1) as (_ & ? & _).
  - apply keeps_silent, quietly_action.
Qed.
End Keeps.

(** ** Histories *)

Section Histories.
Context (recv : address -> address -> Z -> call System unit).
Context (Hrecv : forall from to n s u s', inv s -> outsider (wiring s) to -> recv from to n s = Ok (u, s') -> inv s').

Lemma attempt_inv s c : inv s -> inv (attempt recv s c).
Proof.
  intros I. unfold attempt. destruct (execute recv c s) as [[u s']|] eqn:H; [|done].
  unfold execute, from_outside in H. destruct (is_core s (c_sender c)) eqn:Hc; [done|].
  destruct (is_word _ && forallb _ _) eqn:Hw; [|done]. apply andb_prop in Hw as [Hn Ha].
  apply (keeps_dispatch (c_world c) recv (c_sender c) (is_word_uint _ Hn) Hrecv (c_operation c)) with (s := s) (r := u); try done.
  - apply Forall_forall. intros n Hin. apply is_word_uint. rewrite forallb_forall in Ha. apply Ha. by apply list_elem_of_In.
  - by apply bool_decide_eq_false in Hc.
Qed.

Lemma attempts_inv calls s : inv s -> inv (fold_left (attempt recv) calls s).
Proof. revert s. induction calls as [|c calls IH]; intros s I; [done|]. cbn [fold_left]. by apply IH, attempt_inv. Qed.
End Histories.

Lemma paid_inv depth code from to n s u s' : inv s -> outsider (wiring s) to -> paid depth code from to n s = Ok (u, s') -> inv s'.
Proof.
  revert from to n s u s'. induction depth as [|d IH]; intros from to n s u s' I O; cbn [paid];
    (destruct (code from to n s) as [calls|]; [|done]); intros [= _ <-]; [done|]. apply attempts_inv; [|done].
  intros from' to' n' s1 u1 s1' I1 O1. apply (IH from' to' n' s1 u1 s1' I1 O1).
Qed.

Lemma history_inv depth txs s : inv s -> inv (history depth txs s).
Proof.
  unfold history. revert s. induction txs as [|tx txs IH]; intros s I; [done|]. cbn [fold_left]. apply IH.
  apply attempt_inv; [|done]. intros from to n s1 u s1'. apply paid_inv.
Qed.

(** ** From deployment *)

Lemma genesis_inv w p maxSize share price time c o e f :
  deployed w p share price time e = true -> inv (genesis w p maxSize share price time c o e f).
Proof.
  unfold deployed. intros H. rewrite !andb_true_iff, !bool_decide_eq_true, forallb_forall, Z.ltb_lt in H.
  destruct H as [[[[[[[[[[[[N Nz] Nc] Nm] HM] Hv] Hf] Hx] Hs] Hp] Ht] He] Hsum].
  apply is_word_uint in HM, Hv, Hf, Hx, Hs, Hp, Ht. pose proof zero_uint as U0.
  assert (forall a, 0 <= default 0 (e !! a)) as Pos.
  { intros a. destruct (e !! a) as [n|] eqn:E; [|done]. apply elem_of_map_to_list, list_elem_of_In, He in E. cbn in *. by apply Z.leb_le in E. }
  assert (manager_ok (empty_manager time)) as M.
  { split; done. }
  split; try done; (split; try done).
  - apply NoDup_nil_2.
  - intros a. change (TroveOwners _) with (@nil address). by rewrite elem_of_nil.
  - exists []. split; [apply empty_rep|done].
  - apply Pos.
  - apply Pos.
  - apply Pos.
  - apply Pos.
Qed.

Section Protocol.
Context (depth : nat) (txs : list (Code * Call)).
Context (w : Wiring) (p : Params) (maxSize share price time : Z) (c : Community) (o : gmap address address) (e : gmap address Z) (f : gmap string Z).
Context (D : deployed w p share price time e = true).
Abbreviation now_ := (history depth txs (genesis w p maxSize share price time c o e f)).

Lemma now_inv : inv now_.
Proof. by apply history_inv, genesis_inv. Qed.

(** C1: After any transactions of any accounts on freshly deployed contracts (calls of
    every external function of BorrowerOperations, of the Stability Pool and of the
    tokens, liquidations, redemptions, staking, changes of the parameters by their owner
    and payments; accounts that call the protocol again whenever they are paid
    included), the supply of ZUSD is the sum of all balances and equals the debt
    recorded by the two pools; the debts and the collateral of the Troves add up to what
    the active pool records; the default pool covers every reward of ether not yet
    applied; and every pool holds the ether it records. *)
Theorem protocol_solvent :
  _totalSupply (zusd now_) = system_debt now_ /\
  total (fun _ n => n) (_balances (zusd now_)) = _totalSupply (zusd now_) /\
  debts (manager now_) = pool_ZUSDDebt (active_pool now_) /\
  colls (manager now_) = pool_ETH (active_pool now_) /\
  pool_ETH (active_pool now_) <= ether_of now_ (activePool (wiring now_)) /\
  eth_due (manager now_) <= DECIMAL_PRECISION * pool_ETH (default_pool now_) /\
  pool_ETH (default_pool now_) <= ether_of now_ (defaultPool (wiring now_)) /\
  total (fun _ n => n) (surplus_balances (surplus now_)) <= ether_of now_ (collSurplusPool (wiring now_)) /\
  sp_ETH (stability now_) <= ether_of now_ (stabilityPool (wiring now_)).
Proof.
  pose proof now_inv as I. destruct (i_pools _ _ _ _ I), (i_funded _ _ _ _ I), (i_manager _ _ _ _ I).
  unfold system_debt, is_uint in *. split_and!; try done; try lia.
  - apply (i_token _ _ _ _ I).
  - by rewrite (u_total _ (i_surplus _ _ _ _ I)).
Qed.

(** C15: In every such state the array of owners and the sorted list hold the same addresses, each
    once, and these are the borrowers with an active Trove; every such Trove has
    collateral and at least the minimum debt, and every other one is empty. *)
Theorem protocol_troves :
  exists l, rep (data (sorted now_)) l /\ l ≡ₚ TroveOwners (manager now_) /\ NoDup l /\
  size (data (sorted now_)) = Z.of_nat (length l) /\
  forall a, let t := trove (manager now_) a in
    (a ∈ l <-> t_status t = active_) /\
    (t_status t = active_ -> 0 < t_coll t /\ MIN_NET_DEBT + ZUSD_GAS_COMPENSATION <= t_debt t /\
                             array_get (TroveOwners (manager now_)) (t_arrayIndex t) = Ok a) /\
    (t_status t <> active_ -> t_coll t = 0 /\ t_debt t = 0 /\ t_stake t = 0).
Proof.
  pose proof now_inv as I. pose proof (i_listed _ _ _ _ I) as L. pose proof (i_manager _ _ _ _ I) as M.
  destruct (o_list _ L) as (l & R & Pl). exists l. split; [done|]. split; [done|].
  split; [rewrite Pl; apply L|]. split; [by apply rep_length|]. intros a t.
  assert (is_active (manager now_) a = true <-> t_status t = active_) as E by (apply bool_decide_eq_true).
  split; [by rewrite Pl, (o_active _ L)|]. rewrite <- E. split.
  - intros A. destruct (t_backed _ _ (m_troves _ M a) A) as [P1 P2]. split_and!; try done.
    apply (o_active _ L), list_elem_of_lookup in A as [i Hi]. unfold t. rewrite (o_index _ L i a Hi).
    unfold array_get. rewrite (proj2 (Z.leb_le _ _)), (proj2 (Z.ltb_lt _ _)), Nat2Z.id by (apply lookup_lt_Some in Hi; lia).
    cbn. f_equal. by apply nth_lookup_Some.
  - intros A%not_true_is_false. destruct (t_closed _ _ (m_troves _ M a) A) as (? & ? & ?). done.
Qed.

End Protocol.

(** ** A concrete history *)

Definition sample_wiring : Wiring :=
  mkWiring "0xBO" "0xTM" "0xSP" "0xAP" "0xDP" "0xST" "0xCS" "0xGP" "0xFD" "0xZT" "0xZS" "0xFC" "0xMM" "0xZR" "0xLP" "0xCI" "0xFW" 0 0.

(** The price is 30,000; the collector takes the fee it was allowed. *)
Definition sample_world : World :=
  mkWorld 1600000000 (fun _ _ => Ok (30000 * 10 ^ 18, true))
    (fun n _ => Ok [TransferFromZUSD "0xFC" "0xFD" "0xFC" n]) (fun _ _ => Ok [])
    (fun n a _ => Ok (n, [WriteForeign a n])) (fun a s => Ok (default 0 (foreign s !! a)))
    (fun _ to n _ => Ok [WriteForeign to n]) (fun n _ _ => Ok (n, [])) 10.

(** [0xA] tries to close its Trove and to open another one when it is paid. *)
Definition sample_code : Code := fun _ to _ _ =>
  Some (if same to "0xA" then [mkCall sample_world "0xA" CloseTrove;
                               mkCall sample_world "0xA" (OpenTrove (10 ^ 18) (10 ^ 18) (300 * 10 ^ 18) "0xB" "0xB")]
        else []).

Definition sample_txs : list (Code * Call) :=
  map (fun c => (sample_code, c))
    [mkCall sample_world "0xA" (OpenTrove (10 ^ 18) (10 ^ 18) (200 * 10 ^ 18) address0 address0);
     mkCall sample_world "0xB" (OpenTrove (2 * 10 ^ 18) (10 ^ 18) (10000 * 10 ^ 18) "0xA" "0xA");
     mkCall sample_world "0xB" (Act (TransferZUSD "0xB" "0xA" (9000 * 10 ^ 18)));
     mkCall sample_world "0xA" (WithdrawColl (10 ^ 17) "0xB" "0xB")].

Definition sample_ether : gmap address Z := {[ "0xA"%string := 10 ^ 19; "0xB"%string := 10 ^ 19 ]}.

Definition sample_community : Community := mkCommunity (10 ^ 24) 0 1500000000.

Definition sample_genesis : System :=
  genesis sample_wiring initial_params 1000 (10 ^ 17) (20000 * 10 ^ 18) 1500000000 sample_community ∅ sample_ether ∅.

Lemma sample_deployed :
  deployed sample_wiring initial_params (10 ^ 17) (20000 * 10 ^ 18) 1500000000 sample_ether = true.
Proof. vm_compute. reflexivity. Qed.

Lemma sample_inv depth : inv (history depth sample_txs sample_genesis).
Proof. apply history_inv, genesis_inv, sample_deployed. Qed.

Abbreviation sample_now := (history 1 sample_txs
  (genesis sample_wiring initial_params 1000 (10 ^ 17) (20000 * 10 ^ 18) 1500000000 sample_community ∅ sample_ether ∅)).

Lemma protocol_solvent_witness :
  TroveOwners (manager sample_now) = ["0xB"%string; "0xA"%string] /\
  _totalSupply (zusd sample_now) = 10391500000000000000000 /\
  _totalSupply (zusd sample_now) = system_debt sample_now.
Proof.
  split; [vm_compute; reflexivity|]. split; [vm_compute; reflexivity|].
  destruct (protocol_solvent 1 sample_txs sample_wiring initial_params 1000 (10 ^ 17) (20000 * 10 ^ 18) 1500000000 sample_community ∅ sample_ether ∅)
    as [H _]; [vm_compute; reflexivity|exact H].
Defined.

Lemma protocol_troves_witness : exists l, rep (data (sorted sample_now)) l /\ NoDup l.
Proof.
  destruct (protocol_troves 1 sample_txs sample_wiring initial_params 1000 (10 ^ 17) (20000 * 10 ^ 18) 1500000000 sample_community ∅ sample_ether ∅)
    as (l & R & _ & N & _); [vm_compute; reflexivity|by exists l].
Defined.


(** ** What the operations do *)

Lemma opening_mode sender v d price s s' : inv s -> inv s' -> is_uint v -> is_uint d ->
  opening sender v d price false s s' -> _checkRecoveryMode s' price = Ok false.
Proof.
  intros I I' Uv Ud [_ _ Ea Ed _ Ep _ (ICR & _ & H)]. cbn [opening_allowed] in H.
  apply bind_Ok_inv in H as (x & _ & H). apply bind_Ok_inv in H as (TCR & HT & H).
  apply (normal_mode s' price TCR tt); [|by unfold _requireNewTCRisAboveCCR in *; rewrite Ep].
  apply (new_TCR _ _ _ _ _ _ _ _ _ true _ true _ _ (i_pools _ _ _ _ I) (i_pools _ _ _ _ I') Uv Ud HT);
    unfold system_coll, system_debt; rewrite Ea, Ed; cbn; lia.
Qed.

Section Effects.
Context (W : World) (recv : address -> address -> Z -> call System unit) (Unow : is_uint (now W)).

(** C2: [_openTrove] gives the sender, who had no Trove, an active one with exactly the ether sent
    and a debt of the amount drawn, the fee and the gas compensation; the fee is due at
    the decayed base rate and within the maximum accepted, and zero in recovery mode.  The totals
    of the system grow by these amounts and no other Trove changes.  From normal mode
    the system stays in normal mode at the same price; in recovery mode the Trove's own
    ratio is at least the critical one. *)
Theorem openTrove_effect s sender v maxFee n up low rec u s' : inv s -> is_uint v -> is_uint n ->
  _openTrove W recv sender v maxFee n up low rec s = Ok (u, s') ->
  inv s' /\ exists price s0 mode fee, fetchPrice W s = Ok (price, s0) /\ _checkRecoveryMode s price = Ok mode /\
  charged W s mode n maxFee fee /\ MIN_NET_DEBT <= n + fee /\
  let debt := n + fee + ZUSD_GAS_COMPENSATION in
  t_status (trove (manager s) sender) <> active_ /\
  t_status (trove (manager s') sender) = active_ /\ t_coll (trove (manager s') sender) = v /\
  t_debt (trove (manager s') sender) = debt /\
  (forall a, a <> sender -> trove (manager s') a = trove (manager s) a) /\
  system_coll s' = system_coll s + v /\ system_debt s' = system_debt s + debt /\
  (mode = false -> _checkRecoveryMode s' price = Ok false) /\
  (mode = true -> exists ICR, _computeCR v debt price = Ok ICR /\ CCR (params s) <= ICR).
Proof.
  intros I Uv Un H. destruct (openTrove_books W recv Unow _ _ _ _ _ _ _ _ _ _ I Uv Un H)
    as (I' & price & s0 & mode & fee & Hp & Hc & Hmin & O). split; [done|]. exists price, s0, mode, fee.
  pose proof O as [Hi (r & x & k & m & Em) Ea Ed Ew Ep Hm (ICR & HI & Hal)].
  pose proof (t_debt_uint _ _ (m_troves _ (i_manager _ _ _ _ I') sender)) as Ud.
  pose proof (fun a => opened_trove (set_rate (manager s) r x) sender v (n + fee + ZUSD_GAS_COMPENSATION) k m
    (Z.of_nat (length (TroveOwners (manager s)))) a) as Et. rewrite <- Em in Et.
  rewrite Et, decide_True in Ud |- * by done. unfold system_coll, system_debt. rewrite Ea, Ed.
  split_and!; try done; cbn [pool_ETH pool_ZUSDDebt]; try lia.
  - by apply bool_decide_eq_false in Hi.
  - intros a Ha. by rewrite Et, decide_False.
  - intros ->. by apply (opening_mode sender v _ price s s' I I' Uv Ud O).
  - intros ->. exists ICR. split; [done|]. by apply require_Ok, Z.leb_le in Hal.
Qed.

(** C18: [_adjustSenderTrove] changes the borrower's collateral and debt, rewards included, by exactly the
    requested amounts (and the fee on new debt), before the sender is paid; no other
    Trove changes, the totals of the system change by the same amounts, and the system stays in
    normal mode at the same price.  The payment that remains is one call of the sender's code. *)
Theorem adjustTrove_effect s sender v b cw n inc up low maxFee rec u s' : inv s -> is_uint v -> is_uint cw -> is_uint n ->
  outsider (wiring s) sender \/ cw = 0 /\ n = 0 ->
  _adjustSenderTrove W recv sender v b cw n inc up low maxFee rec s = Ok (u, s') ->
  exists s1 price s0 mode fee coll debt, fetchPrice W s = Ok (price, s0) /\ _checkRecoveryMode s price = Ok mode /\
  charged W s (negb (inc && negb mode)) n maxFee fee /\ inv s1 /\ settled recv sender s1 u s' /\
  t_status (trove (manager s) b) = active_ /\ applied_amounts (manager s) b = Ok (coll, debt) /\
  t_coll (trove (manager s1) b) = coll + v - cw /\
  t_debt (trove (manager s1) b) = (if inc then debt + n + fee else debt - n) /\
  (forall a, a <> b -> like (trove (manager s1) a) (trove (manager s) a)) /\
  system_coll s1 = system_coll s + v - cw /\
  system_debt s1 = (if inc then system_debt s + n + fee else system_debt s - n) /\
  (mode = false -> _checkRecoveryMode s1 price = Ok false).
Proof.
  intros I Uv Uw Un Ho H. destruct (adjustTrove_books W recv Unow _ _ _ _ _ _ _ _ _ _ _ _ _ I Uv Uw Un Ho H)
    as (s1 & price & s0 & mode & fee & Hp & I1 & S & Pf & Hc & [A (coll & debt & Hcd & Ec & Ed) Oth Sc Sd Ew Ep Hm Hr] & _).
  exists s1, price, s0, mode, fee, coll, debt. apply bool_decide_eq_true in A.
  assert (inc = false -> fee = 0) as Z0 by (intros ->; done).
  split_and!; try done; try lia; rewrite ?Ed, ?Sd; try (destruct inc; cbn [signed]; [lia|rewrite Z0 by done; lia]).
  intros a Ha. by apply Oth.
Qed.

(** [_closeTrove] ends the sender's Trove: its collateral and debt, rewards included, leave the system,
    which was in normal mode and stays in it; no other Trove changes. *)
Theorem closeTrove_effect s b u s' : inv s -> outsider (wiring s) b ->
  BorrowerOperations._closeTrove W recv b s = Ok (u, s') ->
  exists s1 price s0 coll debt, fetchPrice W s = Ok (price, s0) /\ inv s1 /\ settled recv b s1 u s' /\
  t_status (trove (manager s) b) = active_ /\ applied_amounts (manager s) b = Ok (coll, debt) /\
  t_status (trove (manager s1) b) <> active_ /\ t_coll (trove (manager s1) b) = 0 /\ t_debt (trove (manager s1) b) = 0 /\
  (forall a, a <> b -> like (trove (manager s1) a) (trove (manager s) a)) /\
  system_coll s1 = system_coll s - coll /\ system_debt s1 = system_debt s - debt /\
  _checkRecoveryMode s price = Ok false /\ _checkRecoveryMode s1 price = Ok false.
Proof.
  intros I Ho H. destruct (closeTrove_books W recv _ _ _ _ I Ho H)
    as (s1 & price & s0 & Hp & I1 & S & [A A1 (coll & debt & Hcd & Ec & Ed) Oth Ew Ep Hm Hr]).
  exists s1, price, s0, coll, debt. destruct (t_closed _ _ (m_troves _ (i_manager _ _ _ _ I1) b) A1) as (? & ? & _).
  apply bool_decide_eq_true in A. apply bool_decide_eq_false in A1. split_and!; try done. intros a Ha. by apply Oth.
Qed.
End Effects.

(** *** Concrete operations *)

(** BorrowerOperations holds the ether that [0xA] has sent it. *)
Definition sample_sent : gmap address Z := {[ "0xBO"%string := 10 ^ 18 ]}.
Definition sample_fresh : System :=
  genesis sample_wiring initial_params 1000 (10 ^ 17) (20000 * 10 ^ 18) 1500000000 sample_community ∅ sample_sent ∅.
(** Two Troves are open. *)
Definition sample_two : System := history 0 (take 3 sample_txs) sample_genesis.

Abbreviation sample_recv := (paid 0 sample_code).

Lemma openTrove_effect_witness : exists s' debt,
  _openTrove sample_world sample_recv "0xA" (10 ^ 18) (10 ^ 18) (200 * 10 ^ 18) address0 address0 "0xA" sample_fresh = Ok (tt, s') /\
  t_debt (trove (manager s') "0xA") = debt /\ debt = 221 * 10 ^ 18.
Proof.
  destruct (_openTrove sample_world sample_recv "0xA" (10 ^ 18) (10 ^ 18) (200 * 10 ^ 18) address0 address0 "0xA" sample_fresh)
    as [[[] s']|x] eqn:H; [|exfalso; vm_compute in H; discriminate H].
  exists s', (t_debt (trove (manager s') "0xA")). split; [reflexivity|]. split; [reflexivity|].
  destruct (openTrove_effect sample_world sample_recv ltac:(word_literal) sample_fresh "0xA" (10 ^ 18) (10 ^ 18) (200 * 10 ^ 18)
    address0 address0 "0xA" tt s') as (_ & price & s0 & mode & fee & Hp & Hm & Hc & _ & _ & _ & _ & Ed & _).
  - apply genesis_inv. vm_compute. reflexivity.
  - word_literal.
  - word_literal.
  - exact H.
  - rewrite Ed. assert (price = 30000 * 10 ^ 18) as -> by (vm_compute in Hp; injection Hp as <- _; reflexivity).
    assert (mode = false) as -> by (vm_compute in Hm; congruence).
    destruct Hc as (base & rate & Hb & Hr & Hf & _). assert (base = 0) as -> by (vm_compute in Hb; injection Hb as <-; reflexivity).
    assert (rate = 5 * 10 ^ 15) as -> by (vm_compute in Hr; injection Hr as <-; reflexivity).
    assert (fee = 10 ^ 18) as -> by (vm_compute in Hf; injection Hf as <-; reflexivity). reflexivity.
Defined.

Lemma two_inv : inv sample_two.
Proof. apply history_inv, genesis_inv. vm_compute. reflexivity. Qed.

Lemma adjustTrove_effect_witness : exists s' s1,
  _adjustSenderTrove sample_world sample_recv "0xA" 0 "0xA" (10 ^ 17) 0 false "0xB" "0xB" 0 "0xA" sample_two = Ok (tt, s') /\
  t_coll (trove (manager s1) "0xA") = 9 * 10 ^ 17.
Proof.
  destruct (_adjustSenderTrove sample_world sample_recv "0xA" 0 "0xA" (10 ^ 17) 0 false "0xB" "0xB" 0 "0xA" sample_two)
    as [[[] s']|x] eqn:H; [|exfalso; vm_compute in H; discriminate H].
  destruct (adjustTrove_effect sample_world sample_recv ltac:(word_literal) sample_two "0xA" 0 "0xA" (10 ^ 17) 0 false "0xB" "0xB"
    0 "0xA" tt s') as (s1 & price & s0 & mode & fee & coll & debt & _ & _ & _ & _ & _ & _ & Ha & Ec & _).
  - exact two_inv.
  - word_literal.
  - word_literal.
  - word_literal.
  - left. refine (bool_decide_eq_false_1 _ _). vm_compute. reflexivity.
  - exact H.
  - exists s', s1. split; [reflexivity|]. rewrite Ec. assert (coll = 10 ^ 18) as -> by (vm_compute in Ha; injection Ha as <- _; reflexivity). reflexivity.
Defined.

Lemma closeTrove_effect_witness : exists s' s1,
  BorrowerOperations._closeTrove sample_world sample_recv "0xA" sample_two = Ok (tt, s') /\
  t_coll (trove (manager s1) "0xA") = 0 /\ system_coll s1 = 2 * 10 ^ 18.
Proof.
  destruct (BorrowerOperations._closeTrove sample_world sample_recv "0xA" sample_two)
    as [[[] s']|x] eqn:H; [|exfalso; vm_compute in H; discriminate H].
  destruct (closeTrove_effect sample_world sample_recv sample_two "0xA" tt s')
    as (s1 & price & s0 & coll & debt & _ & _ & _ & _ & Ha & _ & Ec & _ & _ & Es & _).
  - exact two_inv.
  - refine (bool_decide_eq_false_1 _ _). vm_compute. reflexivity.
  - exact H.
  - exists s', s1. split; [reflexivity|]. split; [exact Ec|]. rewrite Es. assert (coll = 10 ^ 18) as -> by (vm_compute in Ha; injection Ha as <- _; reflexivity).
    vm_compute. reflexivity.
Defined.
