(* ===== verification/OperationFacts.v ===== *)
(** * What liquidations, redemptions and the Stability Pool do

    The effect of each operation on the whole storage, before the account it pays runs
    its code, and two histories in which the contracts behave worse than their
    comments say. *)

From S2P Require Import Prelude Solidity Ledger SortedTroves SortedTrovesFacts ChainState ZUSDToken.
From S2P Require Import ActivePool DefaultPool CollSurplusPool Outside FeeDistributor TroveManager BorrowerOperations.
From S2P Require Import StabilityPool Liquidations Redemptions Transactions Invariant InvariantFacts TroveSteps BorrowerSteps BorrowerFacts.
From S2P Require Import PoolSteps LiquidationFacts LiquidationSettle RedemptionFacts StabilityFacts TransactionFacts.
Import LiquityMath.
Local Open Scope Z_scope.

Section Effects.
Context (W : World) (recv : address -> address -> Z -> call System unit) (Unow : is_uint (now W)).



(** C4: A redemption draws from Troves at most the value of the ZUSD it redeems at the
    price, each Trove of it alone: a Trove is as it was, or its debt falls by some [z]
    and its collateral by at most [z] over the price, or it is closed with only the gas
    compensation left to burn and what remains of its collateral is claimable by its
    owner. The redeemer is paid what was drawn less a fee within the maximum accepted,
    and nothing else leaves the system. *)
Theorem redemption_effect sender n first up low hint iterations maxFee s u s' : inv s -> is_uint n -> outsider (wiring s) sender ->
  redeemCollateral W recv sender n first up low hint iterations maxFee s = Ok (u, s') ->
  exists s1 price s0 redeemed drawn fee, fetchPrice W s = Ok (price, s0) /\ inv s1 /\
  recv (activePool (wiring s)) sender (drawn - fee) s1 = Ok (u, s') /\
  0 < drawn /\ redeemed <= n /\ drawn * price <= redeemed * DECIMAL_PRECISION /\
  0 <= fee < drawn /\ _requireUserAcceptsFee fee drawn maxFee = Ok tt /\
  (exists TCR, _getTCR s price = Ok TCR /\ MCR (params s) <= TCR) /\
  (forall a, like (trove (manager s1) a) (trove (manager s) a) /\ getCollateral s1 a = getCollateral s a \/
    t_status (trove (manager s) a) = active_ /\
    exists coll debt z e, applied_amounts (manager s) a = Ok (coll, debt) /\ 0 <= z /\ 0 <= e /\ e * price <= z * DECIMAL_PRECISION /\
    (t_status (trove (manager s1) a) = closedByRedemption_ /\ z = debt - ZUSD_GAS_COMPENSATION /\
       getCollateral s1 a = getCollateral s a + (coll - e) \/
     t_status (trove (manager s1) a) = active_ /\ t_debt (trove (manager s1) a) = debt - z /\ t_coll (trove (manager s1) a) = coll - e /\
       getCollateral s1 a = getCollateral s a)) /\
  system_coll s1 + surplus_ETH (surplus s1) = system_coll s + surplus_ETH (surplus s) - drawn /\
  stability s1 = stability s.
Proof.
  intros I Un Ho H. destruct (redeem_books W recv Unow _ _ _ _ _ _ _ _ _ _ _ I Un Ho H)
    as (s1 & price & s0 & z & e & fee & Hp & I1 & O1 & H1 & [R1 R2 R3 R4 R5 R6 R7 R8 R9 R10 R11] & _).
  exists s1, price, s0, z, e, fee. split_and!; try done; try lia. intros a.
  destruct R11 as (dr & D & _). destruct (drawn_by_from _ _ _ _ a D) as [(? & _ & ?)|(A & c & d & k & x & Ha & Pk & [Px Fv] & Q)]; [by left|right]. apply bool_decide_eq_true in A. split; [done|].
  exists c, d, k, x. split_and!; try done. destruct Q as [(? & ? & ? & _)|(A1 & _ & ? & ? & ?)]; [by left|right].
  apply bool_decide_eq_true in A1. done.
Qed.

(** C21: A deposit that succeeds, made by an account that is none of the contracts, is
    of a positive amount. It moves exactly this amount of ZUSD from the depositor to the
    Stability Pool, whose total grows by it; the deposit becomes the compounded old one
    plus the amount, with snapshots of the sums and the product of now; the tag is the
    one asked for only when there was no deposit; the stake of the tagged front end
    becomes its compounded stake plus the amount, with snapshots of now; and ZERO is
    issued first. The ether gained so far leaves the pool for the depositor, whose code
    runs last. The other deposits, stakes and snapshots, the product and the sums of
    ether, every other balance and the Troves, pools and parameters stay as they were.
    *)
Theorem provideToSP_effect sender n tag s u s' : inv s -> is_uint n -> outsider (wiring s) sender ->
  provideToSP W recv sender n tag s = Ok (u, s') ->
  exists s1 gain compounded, inv s1 /\ 0 < n /\ supplied W sender n tag gain compounded s s1 /\
  (if gain =? 0 then s' = s1 else recv (stabilityPool (wiring s)) sender gain s1 = Ok (u, s')).
Proof. intros I Un Ho H. destruct (provide_books W recv _ _ _ tag _ _ I Un Ho H) as (s1 & g & c & I1 & _ & P & S & E). by exists s1, g, c. Qed.

(** A withdrawal takes the smaller of the amount asked for and the compounded deposit, never while the
    last Trove of the list is below the minimum ratio; the depositor receives exactly these tokens
    and the ether gained, and the deposit and the total shrink by the same. *)
Theorem withdrawFromSP_effect sender n s u s' : inv s -> is_uint n -> outsider (wiring s) sender ->
  withdrawFromSP W recv sender n s = Ok (u, s') ->
  exists s1 gain compounded, inv s1 /\ settled recv sender s1 u s' /\ (n <> 0 -> no_low_trove W s) /\
  withdrawn sender sender (Z.min n compounded) gain compounded s s1.
Proof.
  intros I Un Ho H. unfold withdrawFromSP in H. run H as k s2 H1. injection H as <- <-.
  destruct (withdraw_books W recv _ _ _ _ _ _ I Un Ho H1) as (s1 & g & c & I1 & S & Uk & -> & L & Wd). by exists s1, g, c.
Qed.

(** [withdrawETHGainToTrove] adds exactly the depositor's gain to the collateral of the depositor's
    own Trove; the debt of the Trove, the other Troves and the debt of the system stay. *)
Theorem gainToTrove_effect sender up low s u s' : inv s -> withdrawETHGainToTrove W recv sender up low s = Ok (u, s') ->
  inv s' /\ exists gain coll debt, getDepositorETHGain (stability s) sender = Ok gain /\ 0 < gain /\
  applied_amounts (manager s) sender = Ok (coll, debt) /\
  t_coll (trove (manager s') sender) = coll + gain /\ t_debt (trove (manager s') sender) = debt /\
  (forall a, a <> sender -> like (trove (manager s') a) (trove (manager s) a)) /\
  system_coll s' = system_coll s + gain /\ system_debt s' = system_debt s.
Proof.
  intros I H. destruct (gainToTrove_books W recv Unow _ _ _ _ _ _ I H) as (I' & s1 & price & s0 & mode & gain & I1 & T & Hp & Hg & Pg & E & Ad).
  split; [done|]. destruct Ad as [A (coll & debt & Ha & Ec & Ed) Oth Sc Sd _ _ _ _]. destruct T as [Tw Tp Tm Ta Td Ts Tu].
  unfold system_coll, system_debt in *. rewrite Tm, Ta, Td in *. exists gain, coll, debt. split_and!; try done; try lia. intros a Ha'. by apply Oth.
Qed.
End Effects.

(** ** Concrete operations *)

(** Prices are whole numbers; accounts accept ether and do nothing else. *)
Definition price_world (price : Z) : World :=
  mkWorld 1600000000 (fun _ _ => Ok (price * 10 ^ 18, true))
    (fun n _ => Ok [TransferFromZUSD "0xFC" "0xFD" "0xFC" n]) (fun _ _ => Ok [])
    (fun n a _ => Ok (n, [WriteForeign a n])) (fun a s => Ok (default 0 (foreign s !! a)))
    (fun _ to n _ => Ok [WriteForeign to n]) (fun n _ _ => Ok (n, [])) 20.
Definition idle : Code := fun _ _ _ _ => Some [].
Abbreviation idle_recv := (paid 0 idle).

Definition step : Type := (Z * address * operation)%type.
Definition tx_of (x : step) : Code * Call := let '(price, sender, op) := x in (idle, mkCall (price_world price) sender op).

Definition four_ether : gmap address Z :=
  {[ "0xA"%string := 10 ^ 21; "0xB"%string := 10 ^ 20; "0xC"%string := 10 ^ 20; "0xD"%string := 10 ^ 20 ]}.
Definition four_genesis : System :=
  genesis sample_wiring initial_params 1000 (10 ^ 17) (20000 * 10 ^ 18) 1500000000 sample_community ∅ four_ether ∅.

(** Four Troves at a price of 30,000. *)
Definition four_steps : list step :=
  [(30000, "0xA", OpenTrove (10 ^ 19) (10 ^ 18) (20000 * 10 ^ 18) address0 address0);
   (30000, "0xB", OpenTrove (10 ^ 18) (10 ^ 18) (10000 * 10 ^ 18) "0xA" "0xA");
   (30000, "0xC", OpenTrove (2 * 10 ^ 18) (10 ^ 18) (10000 * 10 ^ 18) "0xA" "0xA");
   (30000, "0xD", OpenTrove (10 ^ 19) (10 ^ 18) (20000 * 10 ^ 18) "0xA" "0xA")]%string.

Definition after (l : list step) : System := history 0 (map tx_of (four_steps ++ l)) four_genesis.

Lemma after_inv l : inv (after l).
Proof. apply history_inv, genesis_inv. vm_compute. reflexivity. Qed.

(** [0xA] has a deposit. *)
Definition with_deposit : System := after [(30000, "0xA"%string, ProvideToSP (15000 * 10 ^ 18) address0)].
(** A liquidation has used part of it. *)
Definition with_gain : System := after
  [(30000, "0xA", ProvideToSP (15000 * 10 ^ 18) address0); (10000, "0xD", Liquidate "0xB")]%string.

Lemma with_deposit_inv : inv with_deposit.
Proof. apply after_inv. Qed.
Lemma with_gain_inv : inv with_gain.
Proof. apply after_inv. Qed.

(** Run a call on a concrete storage without writing out the storage it leads to. *)
Definition succeeds {A} (r : result A) : bool := match r with Ok _ => true | Throw _ => false end.
Lemma succeeds_Ok {A} (r : result A) : succeeds r = true -> exists a, r = Ok a.
Proof. destruct r as [a|]; [by exists a|done]. Qed.
Definition answered {A} (x : A) (r : result (A * System)) : A := match r with Ok (a, _) => a | Throw _ => x end.
Ltac run_concrete c H := destruct (succeeds_Ok c) as [[[] ?s'] H]; [vm_compute; reflexivity|].
Ltac concrete_outsider := refine (bool_decide_eq_false_1 _ _); vm_compute; reflexivity.


Lemma redemption_effect_witness : exists s' s1 redeemed drawn,
  redeemCollateral (price_world 30000) idle_recv "0xD" (10050 * 10 ^ 18) "0xB" "0xB" "0xB" 0 0 (10 ^ 18) with_deposit = Ok (tt, s') /\
  drawn * (30000 * 10 ^ 18) <= redeemed * DECIMAL_PRECISION /\ stability s1 = stability with_deposit.
Proof.
  run_concrete (redeemCollateral (price_world 30000) idle_recv "0xD" (10050 * 10 ^ 18) "0xB" "0xB" "0xB" 0 0 (10 ^ 18) with_deposit) H.
  destruct (redemption_effect (price_world 30000) idle_recv ltac:(word_literal) "0xD" (10050 * 10 ^ 18) "0xB" "0xB" "0xB" 0 0 (10 ^ 18) with_deposit tt s')
    as (s1 & price & s0 & redeemed & drawn & fee & Hp & _ & _ & _ & _ & Hv & _ & _ & _ & _ & _ & Es).
  - exact with_deposit_inv.
  - word_literal.
  - concrete_outsider.
  - exact H.
  - exists s', s1, redeemed, drawn. split; [exact H|]. split; [|exact Es].
    apply (f_equal (answered 0)) in Hp. vm_compute in Hp. subst price. exact Hv.
Defined.

Lemma provideToSP_effect_witness : exists s' s1,
  provideToSP (price_world 30000) idle_recv "0xD" (10 ^ 18) address0 with_deposit = Ok (tt, s') /\
  totalZUSDDeposits (stability s1) = 15001 * 10 ^ 18.
Proof.
  run_concrete (provideToSP (price_world 30000) idle_recv "0xD" (10 ^ 18) address0 with_deposit) H.
  destruct (provideToSP_effect (price_world 30000) idle_recv "0xD" (10 ^ 18) address0 with_deposit tt s') as (s1 & g & c & _ & _ & E & _).
  - exact with_deposit_inv.
  - word_literal.
  - concrete_outsider.
  - exact H.
  - exists s', s1. split; [exact H|]. rewrite (su_total _ _ _ _ _ _ _ _ E). vm_compute. reflexivity.
Defined.

Lemma withdrawFromSP_effect_witness : exists s' s1 gain,
  withdrawFromSP (price_world 10000) idle_recv "0xA" (10 ^ 18) with_gain = Ok (tt, s') /\
  sp_ETH (stability s1) = sp_ETH (stability with_gain) - gain /\ gain = 994999999999995000.
Proof.
  run_concrete (withdrawFromSP (price_world 10000) idle_recv "0xA" (10 ^ 18) with_gain) H.
  destruct (withdrawFromSP_effect (price_world 10000) idle_recv "0xA" (10 ^ 18) with_gain tt s') as (s1 & g & c & _ & _ & _ & E).
  - exact with_gain_inv.
  - word_literal.
  - concrete_outsider.
  - exact H.
  - exists s', s1, g. split; [exact H|]. split; [exact (wd_ETH _ _ _ _ _ _ _ E)|].
    pose proof (wd_gain _ _ _ _ _ _ _ E) as G. vm_compute in G. injection G as <-. reflexivity.
Defined.

Lemma gainToTrove_effect_witness : exists s' gain,
  withdrawETHGainToTrove (price_world 10000) idle_recv "0xA" "0xD" "0xD" with_gain = Ok (tt, s') /\
  system_coll s' = system_coll with_gain + gain.
Proof.
  run_concrete (withdrawETHGainToTrove (price_world 10000) idle_recv "0xA" "0xD" "0xD" with_gain) H.
  destruct (gainToTrove_effect (price_world 10000) idle_recv ltac:(word_literal) "0xA" "0xD" "0xD" with_gain tt s')
    as (_ & g & c & d & _ & _ & _ & _ & _ & _ & E & _).
  - exact with_gain_inv.
  - exact H.
  - exists s', g. split; [exact H|exact E].
Defined.

(** ** A Trove that cannot be touched *)

(** The offset leaves 100,000 units of debt to redistribute with less ether than the
    stakes can share: only the debt's running term moves, and
    [_hasPendingRewards] does not see it. *)
Definition dust_steps : list step :=
  [(30000, "0xA", ProvideToSP (10070 * 10 ^ 18 - 100000) address0);
   (10000, "0xD", Liquidate "0xB");
   (10000, "0xA", AddColl (9 * 10 ^ 19) "0xD" "0xD");
   (5000, "0xD", Liquidate "0xC");
   (5000, "0xD", AddColl (10 ^ 18) "0xA" "0xA")]%string.

Lemma fetchPrice_cases W s price s' : fetchPrice W s = Ok (price, s') -> s' = s \/ exists p, s' = with_price s p.
Proof.
  intros H. unfold fetchPrice, answer, _storePrice in H. run H as main s1 H1. apply view_call_Ok in H1 as [_ ->]. destruct (snd main).
  - run H as x s2 H2. injection H2 as _ <-. injection H as _ <-. right. by eexists.
  - run H as backup s1 H1. apply view_call_Ok in H1 as [_ ->]. destruct (snd backup).
    + run H as x s2 H2. injection H2 as _ <-. injection H as _ <-. right. by eexists.
    + apply view_call_Ok in H as [_ ->]. by left.
Qed.

Lemma fails_not_Ok {A} (r : result A) a : succeeds r = false -> r <> Ok a.
Proof. by intros H ->. Qed.

(** The rewards of [b] cannot be applied at any price. *)
Definition stuck (s : System) (b : address) : Prop := forall W price s' u s1, fetchPrice W s = Ok (price, s') -> _applyPendingRewards b s' <> Ok (u, s1).

Lemma stuck_cases s b : succeeds (_applyPendingRewards b s) = false -> (forall p, succeeds (_applyPendingRewards b (with_price s p)) = false) -> stuck s b.
Proof.
  intros H0 H1 W price s' u s1 H. apply fails_not_Ok. by destruct (fetchPrice_cases _ _ _ _ H) as [->|[p ->]].
Qed.

Lemma stuck_adjust s b : stuck s b -> forall W recv sender v cw n inc up low maxFee rec u s',
  _adjustSenderTrove W recv sender v b cw n inc up low maxFee rec s <> Ok (u, s').
Proof.
  intros L W recv sender v cw n inc up low maxFee rec u s' H. unfold _adjustSenderTrove, this in H. view H as me Hme. run H as price s1 Hp.
  view H as mode Hm. view H as ok Hok. run H as x s2 Ha. unfold applyPendingRewards in Ha. apply bind_Ok_inv in Ha as (y & _ & Ha).
  by apply (L W price s1 x s2).
Qed.

Lemma stuck_close s b : stuck s b -> forall W recv u s', BorrowerOperations._closeTrove W recv b s <> Ok (u, s').
Proof.
  intros L W recv u s' H. unfold BorrowerOperations._closeTrove, this in H. view H as me Hme. view H as ok Hok. run H as price s1 Hp.
  view H as ok2 Hok2. run H as x s2 Ha. unfold applyPendingRewards in Ha. apply bind_Ok_inv in Ha as (y & _ & Ha).
  by apply (L W price s1 x s2).
Qed.

(** The rewards of [b] cannot leave the default pool. *)
Definition uncovered (s : System) (b : address) : bool :=
  match getEntireDebtAndColl (manager s) b with
  | Ok (_, _, pd, pe) => negb (succeeds (_movePendingTroveRewardsToActivePool pd pe s))
  | Throw _ => true
  end.

Lemma uncovered_move s b d c pd pe u s' : uncovered s b = true -> getEntireDebtAndColl (manager s) b = Ok (d, c, pd, pe) ->
  _movePendingTroveRewardsToActivePool pd pe s <> Ok (u, s').
Proof. unfold uncovered. intros H He E. by rewrite He, E in H. Qed.

Lemma uncovered_unstake s b d c pd pe u s' : uncovered s b = true -> getEntireDebtAndColl (manager s) b = Ok (d, c, pd, pe) ->
  unstake b pd pe s <> Ok (u, s').
Proof. intros H He E. unfold unstake in E. run E as x s1 E1. by apply (uncovered_move _ _ _ _ _ _ _ _ H He) in E1. Qed.

Lemma uncovered_normal s b : uncovered s b = true -> forall k v s', _liquidateNormalMode b k s <> Ok (v, s').
Proof.
  intros U k v s' H. unfold _liquidateNormalMode in H. view H as e He. destruct e as [[[d c] pd] pe].
  run H as u s1 H1. by apply (uncovered_unstake _ _ _ _ _ _ _ _ U He) in H1.
Qed.

Lemma uncovered_recovery s b : uncovered s b = true -> forall ICR k TCR price v s',
  _liquidateRecoveryMode b ICR k TCR price s = Ok (v, s') -> v = zeroVals /\ s' = s.
Proof.
  intros U ICR k TCR price v s' H. unfold _liquidateRecoveryMode in H. view H as n Hn. destruct (n <=? 1); [by injection H as <- <-|].
  view H as e He. destruct e as [[[d c] pd] pe]. view H as g Hg. pure H as cl Hcl. view H as minimum Hmin.
  destruct (ICR <=? _100pct); [run H as x s1 H1; by apply (uncovered_unstake _ _ _ _ _ _ _ _ U He) in H1|].
  destruct ((_100pct <? ICR) && _); [run H as x s1 H1; by apply (uncovered_unstake _ _ _ _ _ _ _ _ U He) in H1|].
  destruct (_ && _ && _); [run H as x s1 H1; by apply (uncovered_move _ _ _ _ _ _ _ _ U He) in H1|]. by injection H as <- <-.
Qed.

Lemma dust_stuck : stuck (after dust_steps) "0xA".
Proof. apply stuck_cases; [vm_compute; reflexivity|intros p; vm_compute; reflexivity]. Qed.

(** C37: Three accounts that trade as usual lead to a Trove whose rewards the default
    pool no longer covers: its owner can neither adjust nor close it, whatever the
    parameters and the price, and nobody can liquidate it. [_hasPendingRewards] compares
    the snapshot of ether only, so that a redistribution too small to move [L_ETH] but
    large enough to move [L_ZUSDDebt] is not applied before the stake grows. *)
Theorem dust_locks_trove : let s := after dust_steps in
  inv s /\ t_status (trove (manager s) "0xA") = active_ /\ t_coll (trove (manager s) "0xA") = 10 ^ 20 /\
  (forall W recv sender v cw n inc up low maxFee rec u s',
     _adjustSenderTrove W recv sender v "0xA" cw n inc up low maxFee rec s <> Ok (u, s')) /\
  (forall W recv u s', BorrowerOperations._closeTrove W recv "0xA" s <> Ok (u, s')) /\
  (forall k v s', _liquidateNormalMode "0xA" k s <> Ok (v, s')) /\
  (forall ICR k TCR price v s', _liquidateRecoveryMode "0xA" ICR k TCR price s = Ok (v, s') -> v = zeroVals /\ s' = s).
Proof.
  cbv zeta. assert (uncovered (after dust_steps) "0xA" = true) as U by (vm_compute; reflexivity).
  refine (conj (after_inv _) (conj _ (conj _ (conj (stuck_adjust _ _ dust_stuck) (conj (stuck_close _ _ dust_stuck)
    (conj (uncovered_normal _ _ U) (uncovered_recovery _ _ U))))))); vm_compute; reflexivity.
Qed.

(** ** A deposit that cannot be withdrawn *)

Definition excess_steps : list step :=
  [(30000, "0xA", ProvideToSP (15000 * 10 ^ 18) address0);
   (30000, "0xD", ProvideToSP (19000 * 10 ^ 18) address0);
   (10000, "0xD", Liquidate "0xB");
   (10000, "0xA", WithdrawFromSP (10 ^ 30));
   (5000, "0xD", Liquidate "0xC")]%string.

(** C38: After two liquidations and a withdrawal the only deposit that is left compounds
    to more than the total of the pool, so that it cannot be withdrawn in full; the
    rounding of the product [P] and of the loss per unit staked does not always favour
    the pool. *)
Theorem deposit_exceeds_pool : let s := after excess_steps in
  inv s /\ initialValue (deposit_of (stability s) "0xA") = 0 /\
  (exists compounded, getCompoundedZUSDDeposit (stability s) "0xD" = Ok compounded /\ totalZUSDDeposits (stability s) < compounded) /\
  execute idle_recv (mkCall (price_world 10000) "0xD" (WithdrawFromSP (10 ^ 30))) s = Throw (Error "SafeMath: subtraction overflow").
Proof.
  split; [apply after_inv|]. split; [vm_compute; reflexivity|]. split; [|vm_compute; reflexivity].
  eexists. split; [vm_compute; reflexivity|]. vm_compute. reflexivity.
Qed.
