(* ===== verification/HintHelpers.v ===== *)
(** * HintHelpers.sol: where redemptions and insertions should look

    Views that wallets call before they send a transaction, and that what they compute is
    what redemptions and insertions need.  The hash function of the machine is an argument;
    a walk along the list takes the gas it may use. *)

From S2P Require Import Prelude Solidity Ledger SortedTroves SortedTrovesFacts ChainState Outside TroveManager.
From S2P Require Import Redemptions Invariant InvariantFacts TroveSteps BorrowerSteps BorrowerFacts RedemptionFacts.
From S2P Require Import Transactions TransactionFacts OperationFacts.
Import LiquityMath.
Local Open Scope Z_scope.

(** ** Redemption hints *)

(** The second loop of [getRedemptionHints]: the nominal ratio of the last Trove and
    the amount that cannot be redeemed. *)
Fixpoint hint_loop (gas : nat) (s : System) (price maxIterations : Z) (currentTroveuser : address) (remainingZUSD : Z)
    : result (Z * Z) :=
  if negb (is_zero currentTroveuser) && (0 <? remainingZUSD) && (0 <? maxIterations) then
    let m := manager s in
    let! net := _getNetDebt (t_debt (trove m currentTroveuser)) in
    let! pendingDebt := _getPendingZUSDDebtReward m currentTroveuser in
    let! netZUSDDebt := SafeMath.add net pendingDebt in
    if remainingZUSD <? netZUSDDebt then
      if MIN_NET_DEBT <? netZUSDDebt then
        let! room := SafeMath.sub netZUSDDebt MIN_NET_DEBT in
        let maxRedeemableZUSD := _min remainingZUSD room in
        let! pendingETH := _getPendingETHReward m currentTroveuser in
        let! ETH := SafeMath.add (t_coll (trove m currentTroveuser)) pendingETH in
        let! n := SafeMath.mul maxRedeemableZUSD DECIMAL_PRECISION in
        let! lot := SafeMath.div n price in
        let! newColl := SafeMath.sub ETH lot in
        let! newDebt := SafeMath.sub netZUSDDebt maxRedeemableZUSD in
        let! compositeDebt := _getCompositeDebt newDebt in
        let! NICR := _computeNominalCR newColl compositeDebt in
        let! rest := SafeMath.sub remainingZUSD maxRedeemableZUSD in
        Ok (NICR, rest)
      else Ok (0, remainingZUSD)
    else
      let! rest := SafeMath.sub remainingZUSD netZUSDDebt in
      match gas with
      | O => out_of_gas
      | S gas => hint_loop gas s price (maxIterations - 1) (getPrev (data (sorted s)) currentTroveuser) rest
      end
  else Ok (0, remainingZUSD).

(** [(firstRedemptionHint, partialRedemptionHintNICR, truncatedZUSDamount)] *)
Definition getRedemptionHints (gas : nat) (s : System) (ZUSDamount price maxIterations : Z) : result (address * Z * Z) :=
  let! firstRedemptionHint := first_redeemable gas s price (getLast (data (sorted s))) in
  let iterations := if maxIterations =? 0 then MAX_UINT else maxIterations in
  let! r := hint_loop gas s price iterations firstRedemptionHint ZUSDamount in
  let! truncatedZUSDamount := SafeMath.sub ZUSDamount (snd r) in
  Ok (firstRedemptionHint, fst r, truncatedZUSDamount).

(** ** Approximate insertion hints *)

Section Approx.
Variable keccak256 : Z -> Z.

(** The loop over the trials that are left. *)
Fixpoint approx_loop (trials : nat) (m : Manager) (CR : Z) (best : address * Z) (seed : Z) : result (address * Z * Z) :=
  match trials with
  | O => Ok (best, seed)
  | S trials =>
      let latestRandomSeed := keccak256 seed in
      let arrayIndex := latestRandomSeed mod Z.of_nat (length (TroveOwners m)) in
      let! currentAddress := array_get (TroveOwners m) arrayIndex in
      let! currentNICR := getNominalICR m currentAddress in
      let! currentDiff := _getAbsoluteDifference currentNICR CR in
      approx_loop trials m CR (if currentDiff <? snd best then (currentAddress, currentDiff) else best) latestRandomSeed
  end.

(** [(hintAddress, diff, latestRandomSeed)] *)
Definition getApproxHint (s : System) (CR numTrials inputRandomSeed : Z) : result (address * Z * Z) :=
  let m := manager s in
  if Z.of_nat (length (TroveOwners m)) =? 0 then Ok (address0, 0, inputRandomSeed)
  else
    let hintAddress := getLast (data (sorted s)) in
    let! NICR := getNominalICR m hintAddress in
    let! diff := _getAbsoluteDifference CR NICR in
    approx_loop (Z.to_nat (numTrials - 1)) m CR (hintAddress, diff) inputRandomSeed.
End Approx.

Definition computeNominalCR (coll debt : Z) : result Z := _computeNominalCR coll debt.
Definition computeCR (coll debt price : Z) : result Z := _computeCR coll debt price.

(** ** The walk along the list *)

Lemma prev_rep d l1 a l2 : rep d (l1 ++ a :: l2) -> getPrev d a = last0 l1.
Proof. intros R. unfold getPrev. by rewrite (rep_node _ _ R l1 a l2). Qed.

Lemma next_rep d l1 a l2 : rep d (l1 ++ a :: l2) -> getNext d a = hd0 l2.
Proof. intros R. unfold getNext. by rewrite (rep_node _ _ R l1 a l2). Qed.

(** The last element of a list that is not empty comes after the others. *)
Lemma snoc_cases (l : list address) : l = [] \/ exists k a, l = k ++ [a].
Proof. destruct l as [|a k _] using rev_ind; [by left|right]. by eexists _, _. Qed.

(** The walk stops at a Trove whose successor, if any, is below the minimum. *)
Lemma first_redeemable_stops price s l : rep (data (sorted s)) l -> forall gas l1 l2 b,
  l = l1 ++ l2 -> (l2 = [] \/ exists ICR, _getCurrentICR (manager s) (hd0 l2) price = Ok ICR /\ ICR < MCR (params s)) ->
  first_redeemable gas s price (last0 l1) = Ok b ->
  b = address0 \/ exists k1 k2 ICR, l = k1 ++ b :: k2 /\ _getCurrentICR (manager s) b price = Ok ICR /\ MCR (params s) <= ICR /\
    (k2 = [] \/ exists ICR', _getCurrentICR (manager s) (hd0 k2) price = Ok ICR' /\ ICR' < MCR (params s)).
Proof.
  intros R. induction gas as [|gas IH]; intros l1 l2 b El Hn H.
  all: destruct (snoc_cases l1) as [->|(k & a & ->)]; [cbn in H; injection H as <-; by left|].
  all: rewrite last0_snoc in H; cbn [first_redeemable] in H; rewrite <- app_assoc in El; cbn [app] in El.
  all: rewrite (is_zero_elem _ l) in H by (done || (rewrite El, elem_of_app, elem_of_cons; tauto)).
  all: apply bind_Ok_inv in H as (ICR & HI & H); destruct (Z.ltb_spec ICR (MCR (params s))) as [Lt|Ge].
  all: try (injection H as <-; right; by exists k, l2, ICR).
  - done.
  - rewrite El in R. rewrite (prev_rep _ _ _ _ R) in H. rewrite <- El in R. refine (IH k (a :: l2) b El _ H). right. by exists ICR.
Qed.

(** [redeemCollateral] starts at the Trove [getRedemptionHints] names. *)
Lemma hint_accepted gas s price l b : rep (data (sorted s)) l ->
  first_redeemable gas s price (getLast (data (sorted s))) = Ok b -> first_borrower gas s b price = Ok b.
Proof.
  intros R H. unfold first_borrower. pose proof H as H'. unfold getLast in H'. rewrite (rep_tl _ _ R) in H'.
  apply (first_redeemable_stops price s l R _ l []) in H'; [|by rewrite app_nil_r|by left].
  unfold _isValidFirstRedemptionHint. destruct H' as [->|(k1 & k2 & ICR & El & HI & Ge & Hn)]; [by cbn|].
  assert (b ∈ l) as Hb by (rewrite El, elem_of_app, elem_of_cons; tauto).
  rewrite (is_zero_elem _ _ _ R Hb), (contains_rep _ _ _ R), bool_decide_eq_true_2 by done. cbn [negb orb].
  rewrite HI. cbn [bind]. rewrite (proj2 (Z.ltb_ge _ _)) by done. pose proof R as R'. rewrite El in R'. rewrite (next_rep _ _ _ _ R').
  destruct Hn as [->|(ICR' & HI' & Lt)]; [by cbn|]. destruct (is_zero (hd0 k2)); [done|]. rewrite HI'. cbn [bind].
  by rewrite (proj2 (Z.ltb_lt _ _)).
Qed.

(** ** One Trove *)

(** What [hint_loop] reads of an active Trove is what it has when its rewards are applied. *)
Lemma hint_amounts m b net pd n : manager_ok m -> is_active m b = true -> in_step m b ->
  _getNetDebt (t_debt (trove m b)) = Ok net -> _getPendingZUSDDebtReward m b = Ok pd -> SafeMath.add net pd = Ok n ->
  is_uint n /\ forall coll debt, applied_amounts m b = Ok (coll, debt) -> n = debt - ZUSD_GAS_COMPENSATION /\
  forall pe e, _getPendingETHReward m b = Ok pe -> SafeMath.add (t_coll (trove m b)) pe = Ok e -> e = coll.
Proof.
  intros M A St Hnet Hpd Hn. pose proof (m_troves _ M b) as T. pose proof (t_debt_uint _ _ T) as Ut. pose proof compensation_uint as Ug.
  destruct (pending_Ok _ _ _ _ _ M (m_L_debt _ M) (t_snap_debt _ _ T) Hpd) as [Ud _].
  unfold _getNetDebt in Hnet. destruct (sub_Ok _ _ _ Ut Ug Hnet) as (-> & _ & Un). destruct (add_Ok _ _ _ Un Ud Hn) as [-> Us]. split; [done|].
  intros coll debt Ha. rewrite (applied_in_step _ _ M A St) in Ha.
  unfold _getCurrentTroveAmounts in Ha. rewrite Hpd in Ha. apply bind_Ok_inv in Ha as (pe0 & Hpe0 & Ha). cbn [bind] in Ha.
  apply bind_Ok_inv in Ha as (c0 & Hc0 & Ha). apply bind_Ok_inv in Ha as (d0 & Hd0 & Ha). injection Ha as <- <-.
  destruct (add_Ok _ _ _ Ut Ud Hd0) as [-> _]. split; [lia|]. intros pe e Hpe He. congruence.
Qed.

(** The amount redeemed from a Trove, and why it is cancelled. *)
Lemma redeem_from_amount W recv b max price up low hint s z e c s' : is_uint max -> is_uint (t_debt (trove (manager s) b)) ->
  _redeemCollateralFromTrove W recv b max price up low hint s = Ok (z, e, c, s') ->
  let t := trove (manager s) b in
  z = Z.min max (t_debt t - ZUSD_GAS_COMPENSATION) /\
  (c = true -> t_debt t - z <> ZUSD_GAS_COMPENSATION /\
     exists n coll NICR, SafeMath.mul z DECIMAL_PRECISION = Ok n /\ SafeMath.div n price = Ok e /\
       SafeMath.sub (t_coll t) e = Ok coll /\ _computeNominalCR coll (t_debt t - z) = Ok NICR /\
       (NICR <> hint \/ t_debt t - z - ZUSD_GAS_COMPENSATION < MIN_NET_DEBT)).
Proof.
  intros Um Ut H. cbv zeta. pose proof compensation_uint as Ug. unfold _redeemCollateralFromTrove in H. view H as x Hx. injection Hx as <-. pure H as net Hnet.
  destruct (sub_Ok _ _ _ Ut Ug Hnet) as (En & _ & Un).
  assert (_min max net = Z.min max net) as Em by (unfold _min; destruct (Z.ltb_spec max net); lia). rewrite Em in H.
  assert (is_uint (Z.min max net)) as Uz by (unfold is_uint in *; lia). rewrite En in *. set (z0 := Z.min _ _) in *. clearbody z0.
  pure H as n Hn. pure H as e0 He. pure H as d Hd. destruct (sub_Ok _ _ _ Ut Uz Hd) as (-> & Lz & Ud). pure H as coll Hc.
  destruct (Z.eqb_spec (t_debt (trove (manager s) b) - z0) ZUSD_GAS_COMPENSATION) as [Ez|Nz].
  - run H as u1 s1 H1. run H as u2 s2 H2. run H as u3 s3 H3. by injection H as <- <- <- <-.
  - pure H as k Hk. pure H as stop Hs. destruct stop.
    + injection H as <- <- <- <-. split; [done|]. intros _. split; [done|]. exists n, coll, k. split_and!; try done.
      destruct (Z.eqb_spec k hint) as [->|]; [right|by left]. cbn [negb] in Hs. apply bind_Ok_inv in Hs as (rest & Hr & [= Hs]). apply Z.ltb_lt in Hs.
      unfold _getNetDebt in Hr. destruct (sub_Ok _ _ _ Ud Ug Hr) as (-> & _ & _). lia.
    + run H as u1 s1 H1. run H as u2 s2 H2. run H as u3 s3 H3. by injection H as <- <- <- <-.
Qed.

(** ** The whole redemption *)

Section Hints.
Context (W : World) (recv : address -> address -> Z -> call System unit) (price : Z) (Up : is_uint price).
Context (s0 : System) (I0 : inv s0) (Step : forall b, is_active (manager s0) b = true -> in_step (manager s0) b).

(** The redemption has not come to [b] and the Troves before it yet. *)
Record ahead (pre : list address) (b : address) (s : System) : Prop := {
  ah_before : exists post, rep (data (sorted s0)) (pre ++ b :: post);
  ah_now : exists post, rep (data (sorted s)) (pre ++ b :: post);
  ah_same : forall a, a ∈ pre ++ [b] -> like (trove (manager s) a) (trove (manager s0) a) /\ snapshot (manager s) a = snapshot (manager s0) a }.

Definition on_path (b : address) (s : System) : Prop := b = address0 \/ exists pre, ahead pre b s.

(** When [b] is closed the redemption goes on with the Trove before it. *)
Lemma ahead_next amount pre b t coll debt z e s s' : redeeming price amount s0 t s -> ahead pre b s -> redeemed b coll debt z e s s' ->
  t_status (trove (manager s') b) = closedByRedemption_ ->
  getPrev (data (sorted s)) b = getPrev (data (sorted s0)) b /\ on_path (getPrev (data (sorted s)) b) s'.
Proof.
  intros G [(p0 & R0) (p1 & R1) Hs] Rd St. rewrite (prev_rep _ _ _ _ R0), (prev_rep _ _ _ _ R1). split; [done|].
  pose proof (rd_sorted _ _ _ _ _ _ _ Rd St) as Hr. pose proof (rep_nodup _ _ R1) as Nd.
  assert (exists l2, rep (data (sorted s')) (pre ++ l2)) as (l2 & R').
  { unfold SortedTroves.remove in Hr. apply bind_Ok_inv in Hr as (x & _ & Hr). apply bind_Ok_inv in Hr as (d & Hr & [= <-]).
    destruct (remove_rep _ _ _ _ R1 (o_size _ (i_listed _ _ _ _ (rg_books _ _ _ _ _ G)))) as (d' & Hr' & R' & _).
    rewrite Hr in Hr'. injection Hr' as <-. by exists p1. }
  assert (b ∉ pre) as Nb by (intros Hb; apply NoDup_app in Nd as (_ & Nd & _); apply (Nd b Hb); by left).
  destruct (snoc_cases pre) as [->|(k & a & ->)]; [by left|]. rewrite last0_snoc. right. exists k. split.
  - exists (b :: p0). by rewrite <- app_assoc in R0.
  - exists l2. by rewrite <- app_assoc in R'.
  - intros x Hx. assert (x <> b) as N by congruence. pose proof (rd_touched _ _ _ _ _ _ _ Rd) as T.
    destruct (Hs x) as [L1 L2]; [by apply elem_of_app; left|]. split; [|by rewrite (h_snapshot _ _ _ T x N)].
    eapply like_trans; [by apply (h_trove _ _ _ T)|done].
Qed.

(** What one round of [hint_loop] does. *)
Definition partial_hint (coll debt x NICR rest : Z) : Prop :=
  let z := x - rest in
  0 < z <= x /\ x < debt - ZUSD_GAS_COMPENSATION /\ MIN_NET_DEBT <= debt - ZUSD_GAS_COMPENSATION - z /\
  exists n lot c, SafeMath.mul z DECIMAL_PRECISION = Ok n /\ SafeMath.div n price = Ok lot /\ SafeMath.sub coll lot = Ok c /\
    _computeNominalCR c (debt - z) = Ok NICR.

Lemma hint_partial coll debt x room NICR rest : is_uint x -> is_uint (debt - ZUSD_GAS_COMPENSATION) -> 0 < x -> x < debt - ZUSD_GAS_COMPENSATION -> MIN_NET_DEBT < debt - ZUSD_GAS_COMPENSATION ->
  SafeMath.sub (debt - ZUSD_GAS_COMPENSATION) MIN_NET_DEBT = Ok room ->
  (let! n := SafeMath.mul (_min x room) DECIMAL_PRECISION in
   let! lot := SafeMath.div n price in
   let! newColl := SafeMath.sub coll lot in
   let! newDebt := SafeMath.sub (debt - ZUSD_GAS_COMPENSATION) (_min x room) in
   let! compositeDebt := _getCompositeDebt newDebt in
   let! NICR := _computeNominalCR newColl compositeDebt in
   let! rest := SafeMath.sub x (_min x room) in Ok (NICR, rest)) = Ok (NICR, rest) ->
  partial_hint coll debt x NICR rest.
Proof.
  intros Ux Un Px Lt Lm Hroom H. assert (is_uint MIN_NET_DEBT) as Um by word_literal. pose proof compensation_uint as Ug.
  destruct (sub_Ok _ _ _ Un Um Hroom) as (-> & _ & Ur).
  assert (_min x (debt - ZUSD_GAS_COMPENSATION - MIN_NET_DEBT) = Z.min x (debt - ZUSD_GAS_COMPENSATION - MIN_NET_DEBT)) as Em
    by (unfold _min; destruct (Z.ltb_spec x (debt - ZUSD_GAS_COMPENSATION - MIN_NET_DEBT)); lia).
  rewrite Em in H. clear Em. set (z := Z.min _ _) in *.
  assert (is_uint z /\ 0 < z <= x /\ z <= debt - ZUSD_GAS_COMPENSATION - MIN_NET_DEBT) as (Uz & Pz & Lz) by (unfold is_uint in *; lia). clearbody z.
  apply bind_Ok_inv in H as (n & Hn & H). apply bind_Ok_inv in H as (lot & Hl & H). apply bind_Ok_inv in H as (c & Hc & H).
  apply bind_Ok_inv in H as (d & Hd & H). apply bind_Ok_inv in H as (cd & Hcd & H). apply bind_Ok_inv in H as (k & Hk & H).
  apply bind_Ok_inv in H as (rs & Hr & [= <- <-]). destruct (sub_Ok _ _ _ Un Uz Hd) as (-> & _ & Ud). destruct (sub_Ok _ _ _ Ux Uz Hr) as (-> & _ & _).
  unfold _getCompositeDebt in Hcd. destruct (add_Ok _ _ _ Ud Ug Hcd) as [-> _].
  unfold partial_hint. replace (x - (x - z)) with z by lia. split_and!; try lia. exists n, lot, c. split_and!; try done.
  rewrite <- Hk. f_equal. lia.
Qed.

Lemma hint_round gas n b x NICR rest : is_uint x -> hint_loop gas s0 price n b x = Ok (NICR, rest) ->
  rest = x \/ (negb (is_zero b) && (0 <? x) && (0 <? n) = true /\
  exists coll debt, (forall c d, applied_amounts (manager s0) b = Ok (c, d) -> d = debt /\ (x < debt - ZUSD_GAS_COMPENSATION -> c = coll)) /\
    is_uint (debt - ZUSD_GAS_COMPENSATION) /\
    (partial_hint coll debt x NICR rest \/
     debt - ZUSD_GAS_COMPENSATION <= x /\
     exists gas', gas = S gas' /\ hint_loop gas' s0 price (n - 1) (getPrev (data (sorted s0)) b) (x - (debt - ZUSD_GAS_COMPENSATION)) = Ok (NICR, rest))).
Proof.
  intros Ux H. pose proof (i_manager _ _ _ _ I0) as M.
  assert (hint_loop gas s0 price n b x = if negb (is_zero b) && (0 <? x) && (0 <? n) then _ else _) as E by (by destruct gas).
  rewrite E in H. clear E. destruct (negb (is_zero b) && (0 <? x) && (0 <? n)) eqn:Cond; [|injection H as _ <-; by left].
  apply bind_Ok_inv in H as (net & Hnet & H). apply bind_Ok_inv in H as (pd & Hpd & H). apply bind_Ok_inv in H as (d & Hd & H).
  assert (is_active (manager s0) b = true) as A by
    (destruct (is_active (manager s0) b) eqn:A; [done|]; destruct (t_closed _ _ (m_troves _ M b) A) as (_ & E & _); by rewrite E in Hnet).
  destruct (hint_amounts _ _ _ _ _ M A (Step b A) Hnet Hpd Hd) as [Ud Ha]. clear Hnet Hpd Hd.
  replace d with (d + ZUSD_GAS_COMPENSATION - ZUSD_GAS_COMPENSATION) in Ha, H, Ud by lia. set (debt := d + ZUSD_GAS_COMPENSATION) in *. clearbody debt. clear d net pd.
  pose proof Cond as [[_ Px]%andb_prop _]%andb_prop. apply Z.ltb_lt in Px.
  destruct (Z.ltb_spec x (debt - ZUSD_GAS_COMPENSATION)) as [Lt|Ge].
  - destruct (Z.ltb_spec MIN_NET_DEBT (debt - ZUSD_GAS_COMPENSATION)) as [Lm|Gm]; [|injection H as _ <-; by left]. right. split; [done|].
    apply bind_Ok_inv in H as (room & Hroom & H). apply bind_Ok_inv in H as (pe & Hpe & H). apply bind_Ok_inv in H as (coll & Hcoll & H).
    exists coll, debt. split; [|split; [done|left; by apply (hint_partial _ _ _ room)]].
    intros c d' Hc. destruct (Ha _ _ Hc) as [E1 E2]. split; [lia|]. intros _. symmetry. by apply (E2 pe).
  - right. split; [done|]. exists 0, debt. split; [|split; [done|right; split; [done|]]].
    + intros c d' Hc. destruct (Ha _ _ Hc) as [E1 _]. split; lia.
    + apply bind_Ok_inv in H as (r & Hr & H). destruct (sub_Ok _ _ _ Ux Ud Hr) as (-> & _ & _). destruct gas as [|gas]; [done|]. by exists gas.
Qed.

(** The hints never ask for more than the amount. *)
Lemma hint_rest gas n b x NICR rest : is_uint x -> hint_loop gas s0 price n b x = Ok (NICR, rest) -> 0 <= rest <= x.
Proof.
  revert n b x. induction gas as [|gas IH]; intros n b x Ux H; pose proof (proj1 Ux) as P0;
    destruct (hint_round _ _ _ _ _ _ Ux H) as [->|(Cond & coll & debt & _ & Ud & [Q|(Le & g & Eg & H')])]; try done; try lia;
    try (unfold partial_hint in Q; lia).
  injection Eg as ->. pose proof (proj1 Ud). apply IH in H'; unfold is_uint in *; lia.
Qed.

(** A Trove ahead has the amounts the hints saw. *)
Lemma ahead_amounts amount t pre b s u s1 : redeeming price amount s0 t s -> ahead pre b s -> is_active (manager s) b = true ->
  _applyPendingRewards b s = Ok (u, s1) ->
  applied b s s1 /\ applied_amounts (manager s0) b = Ok (t_coll (trove (manager s1) b), t_debt (trove (manager s1) b)).
Proof.
  intros G [_ _ Hs] A H. destruct (Hs b) as [L1 L2]; [by apply elem_of_app; right; left|].
  destruct (apply_applied _ _ _ _ _ _ _ (rg_books _ _ _ _ _ G) A H) as [_ P]. split; [done|].
  rewrite <- (ap_amounts _ _ _ P). symmetry. apply applied_amounts_like; try done; apply G.
Qed.

(** A Trove that the hints redeem in full is closed. *)
Lemma closed_in_full amount pre b t s u s1 up low NICR e s2 k d x : redeeming price amount s0 t s -> ahead pre b s -> is_active (manager s) b = true ->
  _applyPendingRewards b s = Ok (u, s1) ->
  _redeemCollateralFromTrove W recv b (remainingZUSD t) price up low NICR s1 = Ok (t_debt (trove (manager s1) b) - ZUSD_GAS_COMPENSATION, e, false, s2) ->
  redeeming price amount s0 (mkRedemptionTotals x k d) s2 ->
  getPrev (data (sorted s)) b = getPrev (data (sorted s0)) b /\ on_path (getPrev (data (sorted s)) b) s2.
Proof.
  intros G Ah A H1 H2 G2. destruct (apply_applied _ _ _ _ _ _ _ (rg_books _ _ _ _ _ G) A H1) as [B1 P]. pose proof (proj1 (rg_drawn _ _ _ _ _ G)).
  assert (is_active (manager s1) b = true) as A1 by (by rewrite (ap_active _ _ _ P)).
  destruct (redeem_from W recv _ _ _ _ _ B1 A1 (ap_current _ _ _ P) ltac:(lia) _ _ _ _ _ _ _ _ _ (rg_left _ _ _ _ _ G) Up H2) as (_ & _ & _ & _ & R).
  destruct (redeemed_after_apply _ _ _ _ _ _ P R) as (c & d' & _ & R'). apply (ahead_next _ _ _ _ _ _ _ _ _ _ G Ah R').
  destruct (rd_trove _ _ _ _ _ _ _ R) as [(St & _)|(A2 & _ & _ & E & _)]; [done|].
  pose proof (t_backed _ _ (m_troves _ (i_manager _ _ _ _ (rg_books _ _ _ _ _ G2)) b) A2) as [_ Hm]. rewrite E in Hm. unfold MIN_NET_DEBT in Hm. lia.
Qed.

(** The redemption of what the hints leave to redeem leaves nothing. *)
Lemma redeems_all amount up low t' s' : forall gas gas' n b x NICR rest t s, redeeming price amount s0 t s -> on_path b s -> is_uint x ->
  hint_loop gas' s0 price n b x = Ok (NICR, rest) -> remainingZUSD t = x - rest ->
  redeem_loop W recv gas price up low NICR n b t s = Ok (t', s') -> remainingZUSD t' = 0.
Proof.
  induction gas as [|gas IH]; intros gas' n b x NICR rest t s G Pb Ux Hh Ex H; cbn [redeem_loop] in H.
  all: pose proof (hint_rest _ _ _ _ _ _ Ux Hh) as Hr; destruct (hint_round _ _ _ _ _ _ Ux Hh) as [->|(Cond & coll & debt & Ha & Ud & Q)];
    [replace (0 <? remainingZUSD t) with false in H by (symmetry; apply Z.ltb_ge; lia); rewrite andb_false_r in H; injection H as <- <-; lia|].
  all: destruct (Z.ltb_spec 0 (remainingZUSD t)) as [Pr|Nr]; [|rewrite andb_false_r in H; injection H as <- <-; pose proof (proj1 (rg_left _ _ _ _ _ G)); lia].
  all: apply andb_prop in Cond as [[Nb _]%andb_prop Pn]; rewrite Nb, Pn in H; cbn [andb] in H; try done.
  destruct Pb as [->|(pre & Ah)]; [discriminate Nb|].
  view H as next Hn. injection Hn as <-. run H as u s1 H1. run H as r s2 H2. destruct r as [[z e] c].
  pose proof (visited_active _ _ _ _ _ _ _ _ _ _ _ _ _ _ _ _ (rg_books _ _ _ _ _ G) H1 H2) as A.
  destruct (ahead_amounts _ _ _ _ _ _ _ G Ah A H1) as [P Ea]. destruct (Ha _ _ Ea) as [Ed Ec]. clear Ha.
  pose proof (redeem_step W recv price amount Up s0 _ _ _ _ _ _ _ _ _ _ _ _ G H1 H2) as G2.
  pose proof (rg_left _ _ _ _ _ G) as Ul. destruct (redeem_from_amount _ _ _ _ _ _ _ _ _ _ _ _ _ Ul ltac:(apply (t_debt_uint _ _ (m_troves _ (i_manager _ _ _ _ (proj1 (apply_applied _ _ _ _ _ _ _ (rg_books _ _ _ _ _ G) A H1))) b))) H2) as [Ez Hc].
  cbv zeta in Ez, Hc. rewrite Ed in Ez, Hc. destruct Q as [(Pz & Lt & Lm & n1 & lot & c1 & Q1 & Q2 & Q3 & Q4)|(Le & g & -> & Hh')].
  - assert (z = x - rest) as -> by lia. assert (c = false) as ->.
    { destruct c; [|done]. destruct (Hc eq_refl) as (Nf & n2 & c2 & k & K1 & K2 & K3 & K4 & [K5|K5]); [|lia].
      rewrite Q1 in K1. injection K1 as <-. rewrite Q2 in K2. injection K2 as <-. rewrite (Ec Lt), Q3 in K3. injection K3 as <-. congruence. }
    pure H as k Hk. pure H as d Hd. pure H as y Hy. rewrite Ex in Ul, Hy. destruct (sub_Ok _ _ _ Ul Ul Hy) as (-> & _ & _).
    destruct gas; cbn [redeem_loop remainingZUSD] in H; rewrite Z.sub_diag in H; change (0 <? 0) with false in H; rewrite andb_false_r in H;
      injection H as <- _; cbn [remainingZUSD]; done.
  - assert (is_uint (x - (debt - ZUSD_GAS_COMPENSATION))) as Uy by (unfold is_uint in *; lia).
    pose proof (hint_rest _ _ _ _ _ _ Uy Hh'). assert (z = debt - ZUSD_GAS_COMPENSATION) as -> by lia.
    assert (c = false) as -> by (destruct c; [destruct (Hc eq_refl) as [Nf _]; lia|done]).
    pure H as k Hk. pure H as d Hd. pure H as y Hy. specialize (G2 _ _ _ Hk Hd Hy). destruct (sub_Ok _ _ _ Ul Ud Hy) as (-> & _ & _).
    rewrite <- Ed in H2. destruct (closed_in_full _ _ _ _ _ _ _ _ _ _ _ _ _ _ _ G Ah A H1 H2 G2) as [Eg Pn']. rewrite <- Eg in Hh'.
    refine (IH g _ _ _ _ _ _ _ G2 Pn' Uy Hh' _ H). cbn [remainingZUSD]. lia.
Qed.
End Hints.

Lemma hints_frame s s' gas amount price iterations : sorted s' = sorted s -> params s' = params s -> manager s' = manager s ->
  getRedemptionHints gas s' amount price iterations = getRedemptionHints gas s amount price iterations.
Proof.
  intros E1 E2 E3. unfold getRedemptionHints. rewrite E1.
  assert (forall gas b, first_redeemable gas s' price b = first_redeemable gas s price b) as F.
  { clear gas. induction gas as [|gas IH]; intros b; cbn [first_redeemable]; rewrite E2, E3; [done|]. by rewrite E1, IH. }
  assert (forall gas n b x, hint_loop gas s' price n b x = hint_loop gas s price n b x) as L.
  { clear gas. induction gas as [|gas IH]; intros n b x; cbn [hint_loop]; rewrite E3; [done|]. rewrite E1. repeat case_match; try done.
    repeat (apply bind_ext; intros ?; repeat case_match; try done). }
  rewrite F. apply bind_ext. intros b. by rewrite L.
Qed.

(** C7: Redemption hints are exact. Suppose no active Trove has rewards of debt without
    rewards of ether, and an account that is none of the contracts redeems the amount
    [getRedemptionHints] returned, with the hints it returned, in the same state and at
    the same price. Then the Trove to start from is accepted, and if the redemption
    succeeds it redeems all of that amount and not less: there is a map [d] from Troves
    to what was redeemed of their debt and drawn of their collateral, which accounts for
    every Trove, and what was redeemed adds up to the amount; so the last Trove is never
    skipped for a wrong ratio. What was drawn adds up to what the redeemer is paid plus
    the fee. *)
Theorem redemption_hints_exact W recv s sender amount price s0 iterations first NICR truncated up low maxFee u s' : is_uint (now W) -> inv s -> is_uint amount ->
  (forall b, is_active (manager s) b = true -> in_step (manager s) b) -> outsider (wiring s) sender -> fetchPrice W s = Ok (price, s0) ->
  getRedemptionHints (walk_gas W) s amount price iterations = Ok (first, NICR, truncated) ->
  redeemCollateral W recv sender truncated first up low NICR iterations maxFee s = Ok (u, s') ->
  0 <= truncated <= amount /\ first_borrower (walk_gas W) s first price = Ok first /\
  exists s1 d drawn fee, inv s1 /\ recv (activePool (wiring s)) sender (drawn - fee) s1 = Ok (u, s') /\
    drawn_by price s d s1 /\ redeemed_sum d = truncated /\ drawn_sum d = drawn /\
    redemption truncated price truncated drawn fee maxFee s s1.
Proof.
  intros Unow I Ua St Ho Hp Hh H. destruct (fetchPrice_books _ _ _ _ _ _ _ I Hp) as (Up & I0 & F0). pose proof (fetchPrice_manager _ _ _ _ Hp) as Em.
  pose proof Hh as Hs. rewrite <- (hints_frame s s0) in Hh by (done || apply F0). rewrite <- Em in St.
  destruct (o_list _ (i_listed _ _ _ _ I)) as (l & R & _). destruct (o_list _ (i_listed _ _ _ _ I0)) as (l0 & R0 & _).
  unfold getRedemptionHints in Hs. apply bind_Ok_inv in Hs as (b & Hb & Hs). apply bind_Ok_inv in Hs as (r & _ & Hs). apply bind_Ok_inv in Hs as (x & _ & [= -> _ _]).
  pose proof (hint_accepted _ _ _ _ _ R Hb) as Hf. clear Hb r x.
  unfold getRedemptionHints in Hh. apply bind_Ok_inv in Hh as (b & Hb & Hh). apply bind_Ok_inv in Hh as ([k rest] & Hl & Hh). apply bind_Ok_inv in Hh as (x & Hx & [= -> -> ->]).
  cbn [snd] in Hx. pose proof (hint_rest price s0 I0 St _ _ _ _ _ _ Ua Hl) as Lr.
  assert (is_uint rest) as Ur by (unfold is_uint in *; lia). destruct (sub_Ok _ _ _ Ua Ur Hx) as (-> & _ & Ut).
  unfold redeemCollateral in H. destruct (redeem_books W recv Unow _ _ _ _ _ _ _ _ _ _ _ I Ut Ho H)
    as (s1 & price' & s0' & z & e & fee & Hp' & I1 & O1 & H1 & Rd & b' & t & sl & Hf' & Hloop & Ez).
  rewrite Hp in Hp'. injection Hp' as <- <-. rewrite (hint_accepted _ _ _ _ _ R0 Hb) in Hf'. injection Hf' as <-.
  assert (on_path s0 first s0) as Pf.
  { unfold getLast in Hb. rewrite (rep_tl _ _ R0) in Hb. apply (first_redeemable_stops price s0 l0 R0 _ l0 []) in Hb; [|by rewrite app_nil_r|by left].
    destruct Hb as [->|(k1 & k2 & _ & -> & _)]; [by left|]. right. exists k1. split; [by eexists|by eexists|done]. }
  pose proof (redeeming_start price _ _ I0 Ut) as G0. pose proof (redeems_all W recv price Up s0 I0 St _ _ _ _ _ _ _ _ _ _ _ _ _ _ G0 Pf Ua Hl eq_refl Hloop) as Z.
  pose proof (rg_amount _ _ _ _ _ (redeem_loop_ok W recv price _ Up s0 _ _ _ _ _ _ _ _ _ _ G0 Hloop)) as Ea. assert (z = amount - rest) as -> by lia.
  pose proof Rd as Rd'. destruct (rp_troves _ _ _ _ _ _ _ _ Rd') as (d & D & S1 & S2).
  split; [|split; [done|by exists s1, d, e, fee]]. destruct (rp_amount _ _ _ _ _ _ _ _ Rd) as [? _]. lia.
Qed.

(** Before any redistribution the rewards are in step. *)
Lemma nothing_redistributed s b : inv s -> L_ZUSDDebt (manager s) = 0 -> in_step (manager s) b.
Proof. intros I E _. pose proof (t_snap_debt _ _ (m_troves _ (i_manager _ _ _ _ I) b)). lia. Qed.

Lemma redemption_hints_exact_witness : exists s' s1 d drawn fee,
  getRedemptionHints 20 with_deposit (10500 * 10 ^ 18) (30000 * 10 ^ 18) 0 = Ok ("0xB"%string, 20634095634095634, 10500 * 10 ^ 18) /\
  redeemCollateral (price_world 30000) idle_recv "0xD" (10500 * 10 ^ 18) "0xB" "0xC" "0xC" 20634095634095634 0 (10 ^ 18) with_deposit = Ok (tt, s') /\
  redeemed_sum d = 10500 * 10 ^ 18 /\
  redemption (10500 * 10 ^ 18) (30000 * 10 ^ 18) (10500 * 10 ^ 18) drawn fee (10 ^ 18) with_deposit s1.
Proof.
  assert (getRedemptionHints 20 with_deposit (10500 * 10 ^ 18) (30000 * 10 ^ 18) 0 = Ok ("0xB"%string, 20634095634095634, 10500 * 10 ^ 18)) as Hh
    by (vm_compute; reflexivity).
  run_concrete (redeemCollateral (price_world 30000) idle_recv "0xD" (10500 * 10 ^ 18) "0xB" "0xC" "0xC" 20634095634095634 0 (10 ^ 18) with_deposit) H.
  destruct (succeeds_Ok (fetchPrice (price_world 30000) with_deposit)) as [[price s0] Hp]; [vm_compute; reflexivity|].
  pose proof (f_equal (answered 0) Hp) as Ep. vm_compute in Ep. subst price.
  destruct (redemption_hints_exact (price_world 30000) idle_recv with_deposit "0xD" (10500 * 10 ^ 18) (30000 * 10 ^ 18) s0 0 "0xB" 20634095634095634
    (10500 * 10 ^ 18) "0xC" "0xC" (10 ^ 18) tt s') as (_ & _ & s1 & d & drawn & fee & _ & _ & _ & E & _ & R).
  - word_literal.
  - exact with_deposit_inv.
  - word_literal.
  - intros b _. apply nothing_redistributed; [exact with_deposit_inv|vm_compute; reflexivity].
  - concrete_outsider.
  - exact Hp.
  - exact Hh.
  - exact H.
  - exists s', s1, d, drawn, fee. split; [exact Hh|]. split; [exact H|]. split; [exact E|exact R].
Defined.

(** ** Approximate hints *)

Lemma absolute_difference a b : is_uint a -> is_uint b -> _getAbsoluteDifference a b = Ok (Z.abs (a - b)).
Proof.
  intros Ua Ub. unfold _getAbsoluteDifference. destruct (Z.leb_spec b a); rewrite sub_fits by (done || lia); f_equal; lia.
Qed.

Section Approximate.
Context (keccak256 : Z -> Z) (s : System) (I : inv s) (nicr : address -> Z) (CR : Z) (UCR : is_uint CR).
Context (Hn : forall a, is_active (manager s) a = true -> getNominalICR (manager s) a = Ok (nicr a) /\ is_uint (nicr a)).
Abbreviation owners := (TroveOwners (manager s)).

(** The owner a seed selects. *)
Definition selected (seed : Z) : address := nth (Z.to_nat (seed mod Z.of_nat (length owners))) owners address0.
Definition distance (a : address) : Z := Z.abs (CR - nicr a).

Lemma selected_owner seed : owners <> [] -> array_get owners (seed mod Z.of_nat (length owners)) = Ok (selected seed) /\ selected seed ∈ owners.
Proof.
  intros Ne. assert (0 < Z.of_nat (length owners)) as Pl by (destruct owners; [done|cbn [length]; lia]).
  pose proof (Z.mod_pos_bound seed _ Pl) as B. unfold array_get, selected.
  rewrite (proj2 (Z.leb_le _ _)), (proj2 (Z.ltb_lt _ _)) by lia. split; [done|]. apply list_elem_of_In, nth_In. lia.
Qed.

Lemma approx_loop_best n : forall a seed, owners <> [] -> is_active (manager s) a = true ->
  exists b, approx_loop keccak256 n (manager s) CR (a, distance a) seed = Ok (b, distance b, Nat.iter n keccak256 seed) /\
    is_active (manager s) b = true /\ distance b <= distance a /\
    forall i, (i < n)%nat -> distance b <= distance (selected (Nat.iter (S i) keccak256 seed)).
Proof.
  induction n as [|n IH]; intros a seed Ne A; cbn [approx_loop].
  - exists a. split_and!; try done; try lia.
  - destruct (selected_owner (keccak256 seed) Ne) as [-> Hc]. cbn [bind]. apply (o_active _ (i_listed _ _ _ _ I)) in Hc as Ac.
    set (c := selected (keccak256 seed)) in *. destruct (Hn c Ac) as [-> Uc]. cbn [bind snd]. rewrite absolute_difference by done. cbn [bind].
    replace (Z.abs (nicr c - CR)) with (distance c) by (unfold distance; lia). rewrite Nat.iter_succ_r.
    assert (exists d, (if distance c <? distance a then (c, distance c) else (a, distance a)) = (d, distance d) /\ is_active (manager s) d = true /\
      distance d <= distance a /\ distance d <= distance c) as (d & -> & Ad & L1 & L2).
    { destruct (Z.ltb_spec (distance c) (distance a)); [exists c|exists a]; split_and!; done || lia. }
    destruct (IH d (keccak256 seed) Ne Ad) as (b & E & Ab & Lb & Hb). exists b. split_and!; try done; [lia|].
    intros [|i] Hi; [cbn; fold c; lia|]. rewrite Nat.iter_succ_r. apply Hb. lia.
Qed.

Lemma owners_last : owners <> [] -> is_active (manager s) (getLast (data (sorted s))) = true.
Proof.
  intros Ne. destruct (o_list _ (i_listed _ _ _ _ I)) as (l & R & P). apply (o_active _ (i_listed _ _ _ _ I)).
  rewrite <- P. unfold getLast. rewrite (rep_tl _ _ R). apply last0_elem. intros ->. by apply Permutation_nil_l in P.
Qed.

(** C26: While there is no Trove, [getApproxHint] returns the zero address, no distance
    and the random number it was given. Otherwise, provided [getNominalICR] answers with
    a word for every active Trove, it returns, and the Trove it names is active and,
    among the last Trove of the list and the Troves that its random numbers select, one
    whose nominal ratio is closest to the one asked for; it also returns the distance
    and the last random number. *)
Theorem approx_hint_best numTrials seed :
  (owners = [] -> getApproxHint keccak256 s CR numTrials seed = Ok (address0, 0, seed)) /\
  (owners <> [] -> exists hint,
   getApproxHint keccak256 s CR numTrials seed = Ok (hint, distance hint, Nat.iter (Z.to_nat (numTrials - 1)) keccak256 seed) /\
   is_active (manager s) hint = true /\ distance hint <= distance (getLast (data (sorted s))) /\
   forall i, (i < Z.to_nat (numTrials - 1))%nat -> distance hint <= distance (selected (Nat.iter (S i) keccak256 seed))).
Proof.
  unfold getApproxHint. split; [by intros ->|]. intros Ne. pose proof (owners_last Ne) as A.
  replace (Z.of_nat (length owners) =? 0) with false by (destruct owners; [done|]; symmetry; apply Z.eqb_neq; cbn [length]; lia).
  destruct (Hn _ A) as [-> Uc]. cbn [bind]. rewrite absolute_difference by done. cbn [bind]. by apply approx_loop_best.
Qed.
End Approximate.

(** Ratios of the sample Troves. *)
Definition sample_nicr (a : address) : Z := match getNominalICR (manager with_deposit) a with Ok n => n | Throw _ => 0 end.

Lemma sample_ratios a : is_active (manager with_deposit) a = true ->
  getNominalICR (manager with_deposit) a = Ok (sample_nicr a) /\ is_uint (sample_nicr a).
Proof.
  intros A. apply (o_active _ (i_listed _ _ _ _ with_deposit_inv)) in A.
  assert (TroveOwners (manager with_deposit) = ["0xA"; "0xB"; "0xC"; "0xD"]%string) as E by (vm_compute; reflexivity). rewrite E in A.
  rewrite !elem_of_cons, elem_of_nil in A.
  destruct A as [->|[->|[->|[->|[]]]]]; (split; [vm_compute; reflexivity|]); unfold sample_nicr; word_literal.
Qed.

Lemma approx_hint_best_witness :
  getApproxHint (fun x => x * x + 1) with_deposit (2 * 10 ^ 16) 4 7 = Ok ("0xC"%string, 139026812313804, 6255002) /\
  exists hint, is_active (manager with_deposit) hint = true.
Proof.
  split; [vm_compute; reflexivity|].
  destruct (approx_hint_best (fun x => x * x + 1) with_deposit with_deposit_inv sample_nicr (2 * 10 ^ 16) ltac:(word_literal) sample_ratios 4 7)
    as [_ H]. destruct H as (hint & _ & A & _); [vm_compute; discriminate|]. by exists hint.
Defined.
