(* ===== verification/CallWalk.v ===== *)
(** * Walking through the calls of the protocol

    Calls that touch neither tokens, stakes, the total of deposits nor the ether of the
    stakers, and changes of the token that neither the Stability Pool nor the staking
    contract loses by. *)

From S2P Require Import Prelude Solidity Ledger SortedTroves SortedTrovesFacts ChainState ZUSDToken.
From S2P Require Import ActivePool DefaultPool CollSurplusPool Outside FeeDistributor ZEROStaking Governance TroveManager BorrowerOperations.
From S2P Require Import StabilityPool Liquidations Redemptions Transactions Invariant InvariantFacts TroveSteps BorrowerSteps BorrowerFacts.
From S2P Require Import PoolSteps LiquidationFacts RedemptionFacts StabilityFacts StakingFacts TransactionFacts.
Import LiquityMath.
Local Open Scope Z_scope.

Create HintDb inert.
Create HintDb safe.

(** A call that computes a result and writes one part of the storage. *)
Ltac inert_write := intros ? ? ? ? ?; inv_result; done.

Lemma add_grows a b c : SafeMath.add a b = Ok c -> a <= c /\ is_uint c.
Proof. unfold SafeMath.add. intros H. inv_result. split; [by apply Z.leb_le|apply wrap_uint]. Qed.

Lemma sub_word a b c : SafeMath.sub a b = Ok c -> is_uint c.
Proof. unfold SafeMath.sub. intros H. inv_result. apply wrap_uint. Qed.

Lemma balance_set_other t a n b : b <> a -> balance (set_balance t a n) b = balance t b.
Proof. intros Nb. unfold balance, set_balance. cbn. by rewrite lookup_insert_ne. Qed.
Lemma balance_set_same t a n : balance (set_balance t a n) a = n.
Proof. unfold balance, set_balance. cbn. by rewrite lookup_insert_eq. Qed.

Lemma allowance_set t a n b c : allowance (set_balance t a n) b c = allowance t b c.
Proof. done. Qed.

Lemma allowance_supply t n b c : allowance (set_supply t n) b c = allowance t b c.
Proof. done. Qed.

Lemma allowance_approved t owner spender n t' a b : _approve t owner spender n = Ok t' ->
  balance t' = balance t /\ allowance t' a b = if decide ((a, b) = (owner, spender)) then n else allowance t a b.
Proof.
  unfold _approve. intros H. inv_result. split; [done|]. unfold allowance. cbn [_allowances].
  case_decide as D; [rewrite D; by rewrite lookup_insert_eq|by rewrite lookup_insert_ne].
Qed.

Section Walk.
Context (w : Wiring) (N : NoDup (core w)).
Abbreviation pool := (stabilityPool w).
Abbreviation stakers := (zeroStaking w).

(** ** Contracts and accounts *)

(** Neither the Stability Pool nor the staking contract, whose holdings are accounted for. *)
Definition unaccounted (a : address) : Prop := a <> pool /\ a <> stakers.

Lemma outsider_unaccounted a : outsider w a -> unaccounted a.
Proof. intros O. split; intros ->; apply O; unfold core; rewrite !elem_of_cons; tauto. Qed.

Lemma pool_stakers : pool <> stakers.
Proof. apply same_false. by decide_core N. Qed.
Lemma active_stakers : activePool w <> stakers.
Proof. apply same_false. by decide_core N. Qed.
Lemma default_stakers : defaultPool w <> stakers.
Proof. apply same_false. by decide_core N. Qed.
Lemma surplus_stakers : collSurplusPool w <> stakers.
Proof. apply same_false. by decide_core N. Qed.
Lemma gasPool_unaccounted : unaccounted (gasPool w).
Proof. split; apply same_false; by decide_core N. Qed.
Lemma bo_unaccounted : unaccounted (borrowerOperations w).
Proof. split; apply same_false; by decide_core N. Qed.
Lemma distributor_unaccounted : unaccounted (feeDistributor w).
Proof. split; apply same_false; by decide_core N. Qed.
Lemma active_distributor : activePool w <> feeDistributor w.
Proof. apply same_false. by decide_core N. Qed.
Lemma surplus_distributor : collSurplusPool w <> feeDistributor w.
Proof. apply same_false. by decide_core N. Qed.
Lemma pool_distributor : pool <> feeDistributor w.
Proof. apply same_false. by decide_core N. Qed.

Lemma bo_distributor : borrowerOperations w <> feeDistributor w.
Proof. apply same_false. by decide_core N. Qed.
Lemma bo_stakers : borrowerOperations w <> stakers.
Proof. apply bo_unaccounted. Qed.

(** ** Calls that touch nothing of it *)

(** Tokens, stakes, the ether of the stakers and the total of deposits are as they were. *)
Definition same_funds (s s' : System) : Prop :=
  wiring s' = w /\ zusd s' = zusd s /\ ether_of s' stakers = ether_of s stakers /\ staking s' = staking s /\
  totalZUSDDeposits (stability s') = totalZUSDDeposits (stability s).

Lemma same_funds_refl s : wiring s = w -> same_funds s s.
Proof. by intros E. Qed.
Lemma same_funds_trans s1 s2 s3 : same_funds s1 s2 -> same_funds s2 s3 -> same_funds s1 s3.
Proof. intros (? & ? & ? & ? & ?) (? & ? & ? & ? & ?). unfold same_funds. split_and!; congruence. Qed.

Definition inert {A} (m : call System A) : Prop := forall s r s', wiring s = w -> m s = Ok (r, s') -> same_funds s s'.

Lemma inert_bind {A B} (m : call System A) (k : A -> call System B) : inert m -> (forall a, inert (k a)) -> inert (call_bind m k).
Proof.
  intros M K s r s' E H. run H as a s1 H1. pose proof (M _ _ _ E H1) as F. apply (same_funds_trans _ s1); [done|]. apply (K a _ r); [apply F|done].
Qed.

Lemma inert_view {A} (f : System -> result A) : inert (view_call f).
Proof. by intros s r s' E [_ ->]%view_call_Ok. Qed.
Lemma inert_pure {A} (x : result A) : inert (pure_call x).
Proof. by intros s r s' E [_ ->]%pure_call_Ok. Qed.
Lemma inert_ret {A} (a : A) : inert (call_ret a).
Proof. by intros s r s' E [= _ <-]. Qed.
Lemma inert_guarded sender f : inert (guarded sender f).
Proof. intros s r s' E H. by apply guarded_Ok in H as (m & _ & ->). Qed.
Lemma inert_manager f : inert (manager_call f).
Proof. intros s r s' E H. by apply manager_call_Ok in H as (m & _ & ->). Qed.
Lemma inert_pool f : (forall p p', f p = Ok p' -> totalZUSDDeposits p' = totalZUSDDeposits p) -> inert (pool_call f).
Proof. intros F s r s' E H. apply pool_call_Ok in H as (p & H & ->). split_and!; try done. by apply F. Qed.
Lemma inert_pay from to n : from <> stakers -> to <> stakers -> inert (pay from to n).
Proof.
  intros Nf Nt s r s' E H. apply pay_Ok in H as (_ & e & -> & _ & Ee). split_and!; try done. change (default 0 (e !! stakers) = ether_of s stakers).
  rewrite Ee, !decide_False by done. lia.
Qed.
Lemma inert_or_revert msg (m : call System unit) : inert m -> inert (or_revert msg m).
Proof. intros M s r s' E H. apply or_revert_Ok in H. by apply (M _ r). Qed.
#[local] Hint Resolve inert_bind inert_view inert_pure inert_ret inert_guarded inert_manager inert_pay inert_or_revert : inert.

Lemma inert_increase me n : inert (ActivePool.increaseZUSDDebt me n).
Proof. unfold ActivePool.increaseZUSDDebt. inert_write. Qed.
Lemma inert_decrease me n : inert (ActivePool.decreaseZUSDDebt me n).
Proof. unfold ActivePool.decreaseZUSDDebt. inert_write. Qed.
Lemma inert_default_increase me n : inert (DefaultPool.increaseZUSDDebt me n).
Proof. unfold DefaultPool.increaseZUSDDebt. inert_write. Qed.
Lemma inert_default_decrease me n : inert (DefaultPool.decreaseZUSDDebt me n).
Proof. unfold DefaultPool.decreaseZUSDDebt. inert_write. Qed.
Lemma inert_surplus me a n : inert (accountSurplus me a n).
Proof. unfold accountSurplus. inert_write. Qed.
Lemma inert_sorted_insert W id n up low : inert (sorted_insert W id n up low).
Proof. unfold sorted_insert. inert_write. Qed.
Lemma inert_sorted_reInsert W id n up low : inert (sorted_reInsert W id n up low).
Proof. unfold sorted_reInsert. inert_write. Qed.
Lemma inert_reInsert W id n up low : inert (reInsert_partial W id n up low).
Proof. unfold reInsert_partial. inert_write. Qed.
Lemma inert_closeTrove b st : inert (TroveManager._closeTrove b st).
Proof. unfold TroveManager._closeTrove. inert_write. Qed.
Lemma inert_close me b : inert (TroveManager.closeTrove me b).
Proof. intros s r s' E H. unfold TroveManager.closeTrove in H. inv_result. by apply (inert_closeTrove b closedByOwner_ s r). Qed.
Lemma inert_snapshots n : inert (_updateSystemSnapshots_excludeCollRemainder n).
Proof. unfold _updateSystemSnapshots_excludeCollRemainder. inert_write. Qed.
Lemma inert_zero f : inert (zero_call f).
Proof. unfold zero_call. inert_write. Qed.
Lemma inert_owner contract sender owner : inert (setOwner contract sender owner).
Proof. unfold setOwner. inert_write. Qed.
Lemma inert_params sender f : inert (set_params sender f).
Proof. unfold set_params, onlyOwner. inert_write. Qed.
Lemma inert_share sender n : inert (setFeeToFeeSharingCollector sender n).
Proof. unfold setFeeToFeeSharingCollector, onlyOwner. inert_write. Qed.
#[local] Hint Resolve inert_increase inert_decrease inert_default_increase inert_default_decrease inert_surplus inert_sorted_insert
  inert_sorted_reInsert inert_reInsert inert_closeTrove inert_close inert_snapshots inert_zero inert_owner inert_params inert_share : inert.

Lemma inert_fetchPrice W : inert (fetchPrice W).
Proof.
  intros s r s' E H. unfold fetchPrice, answer, _storePrice in H. inv_call. destruct (snd _); [by inv_call|]. inv_call. destruct (snd _); by inv_call.
Qed.

Lemma inert_receive from to n : inert (receive_core from to n).
Proof.
  intros s r s' E H. unfold receive_core, ActivePool.receive, DefaultPool.receive, CollSurplusPool.receive in H. cbv zeta in H.
  repeat (case_match; [inv_result; done|]). done.
Qed.

Lemma inert_issuance W : inert (_triggerZEROIssuance W).
Proof. apply inert_pool. intros p p' H. inv_result. by apply updateG_trackers in H as [_ ?]. Qed.

Lemma inert_remove b : inert (fun s => let! m := _removeStake (manager s) b in Ok (tt, with_manager s m)).
Proof. inert_write. Qed.
#[local] Hint Resolve inert_fetchPrice inert_receive inert_issuance inert_remove : inert.

(** A call that reads addresses and checks its caller first. *)
Ltac inert_at_wiring f :=
  let s := fresh "s" in let r := fresh "r" in let s' := fresh "s'" in let E := fresh "E" in let H := fresh "H" in
  intros s r s' E H; unfold f in H; rewrite ?E in H; inv_result; revert H;
  match goal with |- ?m _ = _ -> _ => let M := fresh "M" in assert (inert m) as M; [|exact (M s r s' E)] end.

Lemma inert_send_active me n : inert (DefaultPool.sendETHToActivePool me n).
Proof.
  apply inert_bind; [inert_write|intros _]. intros s r s' E H. apply or_revert_Ok in H. rewrite E in H. revert s r s' E H.
  apply inert_bind; [apply inert_pay; [apply default_stakers|apply active_stakers]|intros _]. unfold ActivePool.receive. inert_write.
Qed.

Lemma inert_move zusd eth : inert (_movePendingTroveRewardsToActivePool zusd eth).
Proof.
  inert_at_wiring (@_movePendingTroveRewardsToActivePool). apply (inert_bind _ _ (inert_default_decrease _ _)). intros _.
  apply inert_bind; [apply inert_increase|intros _; apply inert_send_active].
Qed.

Lemma inert_apply b : inert (_applyPendingRewards b).
Proof.
  intros s r s' E H. unfold _applyPendingRewards in H. case_match; [|by injection H as _ <-]. inv_result. by apply (inert_move _ _ _ r) in H.
Qed.

Lemma inert_applyPending me b : inert (applyPendingRewards me b).
Proof. intros s r s' E H. unfold applyPendingRewards in H. inv_result. by apply (inert_apply b s r). Qed.

Lemma inert_unstake b pd pe : inert (Liquidations.unstake b pd pe).
Proof. apply inert_bind; [apply inert_move|intros _]. inert_write. Qed.
#[local] Hint Resolve inert_move inert_apply inert_applyPending inert_unstake : inert.

Lemma inert_receiveZero now account n : inert (receiveZero now account n).
Proof.
  unfold receiveZero, transferFromZERO, transferZERO. repeat (apply inert_bind; [auto with inert|intros ?]).
  intros s r s' E H. by apply update_call_Ok in H as ->.
Qed.

Lemma inert_register sender rate : inert (registerFrontEnd sender rate).
Proof. unfold registerFrontEnd, pool_view. repeat (apply inert_bind; [auto with inert|intros ?]). apply inert_pool. by intros p p' [= <-]. Qed.

(** *** Liquidating a Trove *)

Lemma inert_normal b k : inert (_liquidateNormalMode b k).
Proof.
  unfold _liquidateNormalMode. apply inert_bind; [auto with inert|]. intros [[[d c] pd] pe]. do 3 (apply inert_bind; [auto with inert|intros ?]).
  apply inert_bind; [auto with inert|]. intros [[[x y] z] v]. apply inert_bind; auto with inert.
Qed.

Lemma inert_recovery b ICR k TCR price : inert (_liquidateRecoveryMode b ICR k TCR price).
Proof.
  unfold _liquidateRecoveryMode. apply inert_bind; [auto with inert|intros n]. destruct (n <=? 1); [auto with inert|].
  apply inert_bind; [auto with inert|]. intros [[[d c] pd] pe]. do 3 (apply inert_bind; [auto with inert|intros ?]).
  destruct (ICR <=? _100pct); [do 2 (apply inert_bind; [auto with inert|intros ?]); auto with inert|].
  destruct ((_100pct <? ICR) && _).
  { do 2 (apply inert_bind; [auto with inert|]; intros ?). case_match. case_match. case_match. apply inert_bind; auto with inert. }
  destruct (_ && _ && _); [|auto with inert]. do 2 (apply inert_bind; [auto with inert|intros ?]). apply inert_bind; [apply inert_remove|intros _].
  do 3 (apply inert_bind; [auto with inert|intros ?]). apply inert_bind; [destruct (0 <? _); auto with inert|intros _]. auto with inert.
Qed.
#[local] Hint Resolve inert_normal inert_recovery : inert.

Lemma inert_liquidate_normal q b : inert (liquidate_normal q b).
Proof. unfold liquidate_normal. repeat (apply inert_bind; [auto with inert|intros ?]). auto with inert. Qed.
Lemma inert_liquidate_recovery x price q b ICR : inert (liquidate_recovery x price q b ICR).
Proof. unfold liquidate_recovery. repeat (apply inert_bind; [auto with inert|intros ?]). auto with inert. Qed.
#[local] Hint Resolve inert_liquidate_normal inert_liquidate_recovery : inert.

Lemma inert_visit_normal price q b : inert (visit_normal price q b).
Proof.
  unfold visit_normal. do 2 (apply inert_bind; [auto with inert|intros ?]). case_match; [|auto with inert]. apply inert_bind; auto with inert.
Qed.
Lemma inert_visit_recovery x price q b : inert (visit_recovery x price q b).
Proof.
  unfold visit_recovery. do 2 (apply inert_bind; [auto with inert|intros ?]).
  repeat (case_match; try (apply inert_bind; auto with inert); auto with inert).
Qed.
#[local] Hint Resolve inert_visit_normal inert_visit_recovery : inert.

(** The debt to offset stays a word. *)
Definition counted (q : Sequence) : Prop := is_uint (totalDebtToOffset (totals q)).

Lemma added_counted t v t' : _addLiquidationValuesToTotals t v = Ok t' -> is_uint (totalDebtToOffset t').
Proof.
  unfold _addLiquidationValuesToTotals. intros H. inv_result. cbn.
  match goal with E : SafeMath.add (totalDebtToOffset t) _ = Ok _ |- _ => by apply add_grows in E as [_ ?] end.
Qed.

Definition visit_counted (r : visit) : Prop := match r with Liquidated q => counted q | Skipped => True end.

Lemma liquidate_counted q b s q' s' : liquidate_normal q b s = Ok (q', s') -> counted q'.
Proof. unfold liquidate_normal. intros H. run H as v s1 H1. pure H as k K1. pure H as t Ht. injection H as <- _. by apply added_counted in Ht. Qed.

Lemma recovery_counted x price q b ICR s q' s' : liquidate_recovery x price q b ICR s = Ok (q', s') -> counted q'.
Proof.
  unfold liquidate_recovery. intros H. pure H as T K0. run H as v s1 H1. pure H as k K1. pure H as d K2. pure H as c K3. pure H as c' K4. pure H as t Ht.
  view H as r K5. injection H as <- _. by apply added_counted in Ht.
Qed.

(** ** Changes of the token that no accounted holder loses by *)

(** The pool and the stakers hold at least what they held, and allow what they allowed. *)
Definition tame (f : Token -> result Token) : Prop := forall t t' h, h = pool \/ h = stakers -> is_uint (balance t h) -> f t = Ok t' ->
  is_uint (balance t' h) /\ balance t h <= balance t' h /\ forall a, allowance t' h a = allowance t h a.

Lemma unaccounted_holder a h : unaccounted a -> h = pool \/ h = stakers -> h <> a.
Proof. intros [Np Ns] [-> | ->]; congruence. Qed.

Lemma tame_transfer a b n : unaccounted a -> tame (fun t => _transfer t a b n).
Proof.
  intros Ua t t' h Hh U H. pose proof (unaccounted_holder _ _ Ua Hh) as Na. unfold _transfer in H. inv_result.
  match goal with E : SafeMath.add _ _ = Ok _ |- _ => apply add_grows in E as [G1 G2] end.
  destruct (decide (h = b)) as [->|Nb].
  - rewrite balance_set_same. rewrite balance_set_other in G1 by done. by split_and!.
  - by rewrite !balance_set_other by done.
Qed.

Lemma tame_mint a n : tame (fun t => _mint t a n).
Proof.
  intros t t' h Hh U H. unfold _mint in H. inv_result.
  match goal with E : SafeMath.add (balance _ _) _ = Ok _ |- _ => apply add_grows in E as [G1 G2] end. change (balance (set_supply ?t _)) with (balance t) in *.
  destruct (decide (h = a)) as [->|Nb]; [rewrite balance_set_same|rewrite balance_set_other by done]; change (balance (set_supply ?t _)) with (balance t); by split_and!.
Qed.

Lemma tame_burn a n : unaccounted a -> tame (fun t => _burn t a n).
Proof.
  intros Ua t t' h Hh U H. pose proof (unaccounted_holder _ _ Ua Hh) as Na. unfold _burn in H. inv_result. change (balance (set_supply ?t _)) with (balance t).
  by rewrite balance_set_other by done.
Qed.

Lemma tame_approve owner spender n : unaccounted owner -> tame (fun t => _approve t owner spender n).
Proof.
  intros Uo t t' h Hh U H. pose proof (unaccounted_holder _ _ Uo Hh) as Na. pose proof (fun a b => proj2 (allowance_approved _ _ _ _ _ a b H)) as E.
  destruct (allowance_approved _ _ _ _ _ h h H) as [-> _]. split_and!; try done. intros b. by rewrite E, decide_False by congruence.
Qed.

(** An amount is computed first. *)
Lemma tame_computed (g : Token -> result Z) (f : Z -> Token -> result Token) :
  (forall n, tame (f n)) -> tame (fun t => let! n := g t in f n t).
Proof. intros F t t' h Hh U H. apply bind_Ok_inv in H as (n & _ & H). by apply (F n t t' h). Qed.

Lemma tame_permit recovered owner spender n : unaccounted owner -> tame (fun t =>
  let nonce := default 0 (_nonces t !! owner) in
  let t := mkToken (_totalSupply t) (_balances t) (_allowances t) (<[owner := wrap (nonce + 1)]> (_nonces t)) in
  let! _ := require (same (recovered nonce) owner) "ZUSD: invalid signature" in
  _approve t owner spender n).
Proof.
  intros Uo t t' h Hh U H. cbv zeta in H. apply bind_Ok_inv in H as (x & _ & H). by apply (tame_approve owner spender n Uo _ t' h Hh) in H.
Qed.
End Walk.

#[export] Hint Resolve inert_bind inert_view inert_pure inert_ret inert_guarded inert_manager inert_pay inert_or_revert
  inert_increase inert_decrease inert_default_increase inert_default_decrease inert_surplus inert_sorted_insert inert_sorted_reInsert
  inert_reInsert inert_closeTrove inert_close inert_snapshots inert_zero inert_owner inert_params inert_share inert_fetchPrice inert_receive
  inert_issuance inert_remove inert_move inert_apply inert_applyPending inert_unstake inert_receiveZero inert_register
  inert_visit_normal inert_visit_recovery : inert.
#[export] Hint Resolve outsider_unaccounted gasPool_unaccounted bo_unaccounted distributor_unaccounted active_stakers default_stakers
  surplus_stakers pool_stakers active_distributor surplus_distributor pool_distributor
  bo_distributor bo_stakers : safe.
#[export] Hint Resolve tame_transfer tame_mint tame_burn tame_approve tame_computed tame_permit : safe.
