(* ===== verification/OperationWalk.v ===== *)
(** * Walking through the operations of the protocol

    An assertion about what the Stability Pool and the staking contract hold is kept by
    every operation when it is kept by the few calls that write what it is about.
    [Guarded] and [Accounted] list these calls for an assertion [ok] and a relation
    [step] between storages; the lemmas follow the code of all other operations down to
    them, and the history of the protocol with the code of the accounts that it pays. *)

From S2P Require Import Prelude Solidity Ledger SortedTroves SortedTrovesFacts ChainState ZUSDToken.
From S2P Require Import ActivePool DefaultPool CollSurplusPool Outside FeeDistributor ZEROStaking Governance TroveManager BorrowerOperations.
From S2P Require Import StabilityPool Liquidations Redemptions Transactions Invariant InvariantFacts TroveSteps BorrowerSteps BorrowerFacts.
From S2P Require Import PoolSteps LiquidationFacts RedemptionFacts StabilityFacts StakingFacts TransactionFacts CallWalk.
Import LiquityMath.
Local Open Scope Z_scope.

Abbreviation anything := (fun _ => True).

(** From a storage where [ok] holds, the call leads to one where it holds, by a [step], with a result that satisfies [Q]. *)
Definition leads (ok : System -> Prop) (step : System -> System -> Prop) {A} (Q : A -> Prop) (m : call System A) : Prop :=
  forall s r s', ok s -> m s = Ok (r, s') -> ok s' /\ step s s' /\ Q r.

(** What an assertion about the funds has to say about the calls that write them. *)
Class Guarded (w : Wiring) (ok : System -> Prop) (step : System -> System -> Prop) : Prop := {
  gu_refl s : step s s;
  gu_trans s1 s2 s3 : step s1 s2 -> step s2 s3 -> step s1 s3;
  gu_wiring s : ok s -> wiring s = w;
  gu_same s s' : ok s -> same_funds w s s' -> ok s' /\ step s s';
  gu_income from to n : from <> zeroStaking w -> 0 <= n -> leads ok step anything (pay from to n);
  gu_tame g msg f : tame w f -> leads ok step anything (token_call g msg f);
  gu_transferFrom spender a b n : is_uint n -> leads ok step anything (transferFrom spender a b n) }.

(** The operations of the accounted holders: what each of them says about one that pays to any account. *)
Class Accounted (w : Wiring) (ok : System -> Prop) (step : System -> System -> Prop) : Prop := {
  ac_guarded :: Guarded w ok step;
  ac_burnNothing : leads ok step anything (_burnZusdAndDecreaseActivePoolDebt (stabilityPool w) 0);
  ac_supply sender n : unaccounted w sender -> is_uint n -> leads ok step anything (_sendZUSDtoStabilityPool sender n);
  ac_offset W recv me debt coll : (forall from to n, leads ok step anything (recv from to n)) -> is_uint debt ->
    leads ok step anything (offset W recv me debt coll);
  ac_withdraw W recv sender n : (forall from to n, leads ok step anything (recv from to n)) -> is_uint n ->
    leads ok step anything (withdrawFromSP W recv sender n);
  ac_convert W recv sender n : (forall from to n, leads ok step anything (recv from to n)) -> is_uint n ->
    leads ok step anything (withdrawFromSpAndConvertToDLLR W recv sender n);
  ac_distribute W recv me : (forall from to n, leads ok step anything (recv from to n)) -> leads ok step anything (distributeFees W recv me);
  ac_stake recv sender n : (forall from to n, leads ok step anything (recv from to n)) -> outsider w sender -> is_uint n ->
    leads ok step anything (stake recv sender n);
  ac_unstake recv sender n : (forall from to n, leads ok step anything (recv from to n)) -> outsider w sender -> is_uint n ->
    leads ok step anything (ZEROStaking.unstake recv sender n) }.

(** A call that reads addresses and checks its caller first. *)
Ltac at_wiring w f :=
  match goal with |- leads ?ok ?step ?Q _ =>
    let s := fresh "s" in let r := fresh "r" in let s' := fresh "s'" in let S := fresh "S" in let H := fresh "H" in
    intros s r s' S H; unfold f in H; rewrite ?(gu_wiring (w := w) (ok := ok) (step := step) s S) in H; inv_result; revert H;
    match goal with |- ?m _ = _ -> _ => let M := fresh "M" in assert (leads ok step Q m) as M; [|exact (M s r s' S)] end
  end.

Section Guarded.
Context (w : Wiring) (N : NoDup (core w)) (ok : System -> Prop) (step : System -> System -> Prop) {G : Guarded w ok step}.
Abbreviation pool := (stabilityPool w).
Abbreviation stakers := (zeroStaking w).
Abbreviation good := (leads ok step).
Abbreviation safe := (leads ok step anything).

Lemma good_bind {A B} (Q : A -> Prop) (R : B -> Prop) (m : call System A) k : good Q m -> (forall a, Q a -> good R (k a)) -> good R (call_bind m k).
Proof.
  intros M K s r s' S H. run H as a s1 H1. destruct (M _ _ _ S H1) as (S1 & L1 & Qa), (K _ Qa _ _ _ (proj1 (M _ _ _ S H1)) H) as (S2 & L2 & Rr).
  split_and!; try done. by apply (gu_trans (w := w) _ s1).
Qed.

Lemma safe_bind {A B} (m : call System A) (k : A -> call System B) : safe m -> (forall a, safe (k a)) -> safe (call_bind m k).
Proof. intros M K. exact (good_bind anything anything m k M (fun a _ => K a)). Qed.

Lemma good_safe {A} (Q : A -> Prop) (m : call System A) : good Q m -> safe m.
Proof. intros M s r s' S H. destruct (M _ _ _ S H) as (? & ? & _). by split_and!. Qed.

Lemma inert_good {A} (Q : A -> Prop) (m : call System A) : inert w m -> (forall s r s', m s = Ok (r, s') -> Q r) -> good Q m.
Proof.
  intros M HQ s r s' S H. destruct (gu_same (w := w) (ok := ok) (step := step) s s' S) as [? ?]; [|split_and!; eauto].
  apply (M s r s'); [by apply (gu_wiring (w := w) (step := step))|done].
Qed.
Lemma inert_safe {A} (m : call System A) : inert w m -> safe m.
Proof. intros M. by apply inert_good. Qed.

(** The call runs after a change that touches none of the funds. *)
Lemma safe_after {A} (m : call System A) s s1 r s' : safe m -> ok s -> same_funds w s s1 -> m s1 = Ok (r, s') -> ok s' /\ step s s' /\ True.
Proof.
  intros M S F H. destruct (gu_same (w := w) (ok := ok) (step := step) s s1 S F) as [S1 L1], (M _ _ _ S1 H) as (S2 & L2 & _).
  split_and!; try done. by apply (gu_trans (w := w) _ s1).
Qed.

(** A view and a computation whose result is used. *)
Lemma view_good {A} (f : System -> result A) (Q : A -> Prop) : (forall s a, f s = Ok a -> Q a) -> good Q (view_call f).
Proof. intros F. apply inert_good; [apply inert_view|]. intros s r s' [H _]%view_call_Ok. by apply (F s). Qed.
Lemma pure_good {A} (x : result A) (Q : A -> Prop) : (forall a, x = Ok a -> Q a) -> good Q (pure_call x).
Proof. intros F. apply inert_good; [apply inert_pure|]. intros s r s' [H _]%pure_call_Ok. by apply F. Qed.
Lemma ret_good {A} (a : A) (Q : A -> Prop) : Q a -> good Q (call_ret a).
Proof. intros H. apply inert_good; [apply inert_ret|]. by intros s r s' [= <- _]. Qed.

(** The address of a contract is read. *)
Lemma good_contract {A B} (f : Wiring -> A) (k : A -> call System B) (Q : B -> Prop) :
  good Q (k (f w)) -> good Q (let$ a := view_call (fun s => Ok (f (wiring s))) in k a).
Proof.
  intros K s r s' S H. view H as a Ha. injection Ha as <-. rewrite (gu_wiring (w := w) (step := step) s S) in H. by apply (K s r s').
Qed.
Lemma safe_contract {A B} (f : Wiring -> A) (k : A -> call System B) : safe (k (f w)) -> safe (let$ a := view_call (fun s => Ok (f (wiring s))) in k a).
Proof. apply good_contract. Qed.

Lemma safe_or_revert msg (m : call System unit) : safe m -> safe (or_revert msg m).
Proof. intros M s r s' S H. apply or_revert_Ok in H. by apply (M s r). Qed.

(** ** The token *)

Lemma safe_mint me a n : safe (mint me a n).
Proof. apply (gu_tame (w := w)), tame_mint. Qed.
Lemma safe_burn me a n : unaccounted w a -> safe (burn me a n).
Proof. intros Ua. by apply (gu_tame (w := w)), tame_burn. Qed.
Lemma safe_moves g msg a b n : unaccounted w a -> safe (token_call g msg (fun t => _transfer t a b n)).
Proof. intros Ua. by apply (gu_tame (w := w)), tame_transfer. Qed.
Lemma safe_approve a b n : unaccounted w a -> safe (approve a b n).
Proof. intros Ua. by apply (gu_tame (w := w)), tame_approve. Qed.

(** ** Accounts outside of the protocol *)

Lemma safe_from_outside a m : (outsider w a -> safe m) -> safe (from_outside a m).
Proof.
  intros M s r s' S H. unfold from_outside, is_core in H. rewrite (gu_wiring (w := w) (step := step) s S) in H.
  destruct (bool_decide (a ∈ core w)) eqn:E; [done|]. apply bool_decide_eq_false in E. by apply (M E s r).
Qed.

Lemma safe_word n (f : Z -> call System unit) : (is_uint n -> safe (f n)) -> safe (let$ k := pure_call (word n) in f k).
Proof. intros M s r s' S H. pure H as k Hk. apply word_Ok in Hk as [-> U]. by apply (M U s r). Qed.

Lemma safe_action a : safe (run_action a).
Proof.
  destruct a; cbn [run_action]; try (apply safe_from_outside; intros O; apply safe_word; intros U; pose proof (outsider_unaccounted w _ O) as Ua).
  - by apply safe_moves.
  - by apply (gu_transferFrom (w := w)).
  - by apply safe_approve.
  - apply (gu_tame (w := w)), (tame_computed w (fun t => SafeMath.add (allowance t owner spender) addedValue)). intros n. by apply tame_approve.
  - apply (gu_tame (w := w)), (tame_computed w (fun t => SafeMath.sub (allowance t owner spender) subtractedValue)). intros n. by apply tame_approve.
  - by apply (gu_tame (w := w)), tame_permit.
  - apply (gu_income (w := w)); [apply Ua|apply U].
  - apply inert_safe. intros s r s' E H. by apply update_call_Ok in H as ->.
Qed.

Lemma safe_actions l : safe (run_actions l).
Proof. induction l as [|a l IH]; cbn [run_actions]; [apply inert_safe, inert_ret|]. apply safe_bind; [apply safe_action|done]. Qed.

Lemma safe_outside f : safe (outside_call f).
Proof. apply safe_bind; [apply inert_safe, inert_view|intros l; apply safe_actions]. Qed.

Lemma answer_good f : good is_uint (outside_answer f).
Proof.
  apply (good_bind anything); [apply inert_safe, inert_view|intros r _]. apply (good_bind anything); [apply safe_actions|intros _ _].
  apply pure_good. intros a H. by apply word_Ok in H as [-> ?].
Qed.

(** *** Mynt *)

Lemma redeemed_good W me sender n : good is_uint (redeemZusdFromDllrWithPermit W me sender n).
Proof.
  unfold redeemZusdFromDllrWithPermit. do 5 (apply (good_bind anything); [solve [apply safe_outside|apply inert_safe; auto with inert]|intros ? _]).
  apply answer_good.
Qed.

Lemma safe_mint_DLLR W me a sender n : unaccounted w me -> safe (mint_DLLR W me a sender n).
Proof. intros Ue. unfold mint_DLLR. apply safe_bind; [by apply safe_approve|intros _; apply (good_safe is_uint), answer_good]. Qed.

(** ** Payments *)

Section Payments.
Context (recv : address -> address -> Z -> call System unit) (Hrecv : forall from to n, safe (recv from to n)).

(** Nobody but FeeDistributor pays the stakers. *)
Lemma safe_transfer from to n : from <> stakers -> from <> feeDistributor w -> safe (transfer recv from to n).
Proof.
  intros Nf Nd. destruct (decide (to = stakers)) as [->|Nt].
  - intros s r s' S H. pose proof (gu_wiring (w := w) (step := step) s S) as E. unfold transfer in H. run H as x s1 H1.
    apply pay_Ok in H1 as (_ & e & -> & _).
    assert (is_core (with_ether s e) stakers = true) as C by (apply bool_decide_eq_true_2; cbn [wiring with_ether]; rewrite E; unfold core; rewrite !elem_of_cons; tauto).
    rewrite C in H. unfold receive_core in H. cbn [wiring with_ether] in H. rewrite E in H. cbv zeta in H.
    revert H. decide_core N. assert (same from (feeDistributor w) = false) as F by (by apply bool_decide_eq_false_2). by rewrite F.
  - apply safe_bind; [by apply inert_safe, inert_pay|intros _]. intros s r s' S H. destruct (is_core s to); [|by apply (Hrecv from to n s r)].
    by apply (inert_safe _ (inert_receive w from to n) s r).
Qed.

Lemma safe_sendETH me to n : safe (ActivePool.sendETH (transfer recv) me to n).
Proof.
  apply safe_bind; [apply inert_safe; inert_write|intros _]. intros s r s' S H. apply or_revert_Ok in H.
  rewrite (gu_wiring (w := w) (step := step) s S) in H.
  exact (safe_transfer _ _ _ (active_stakers w N) (active_distributor w N) _ _ _ S H).
Qed.

#[local] Hint Resolve inert_safe safe_sendETH safe_transfer safe_mint safe_burn safe_moves safe_approve safe_outside safe_or_revert : safe.
#[local] Hint Extern 2 (leads _ _ _ _) => (apply inert_safe; solve [eauto 8 with inert safe]) : safe.
#[local] Hint Extern 1 (unaccounted _ _) => solve [eauto with safe] : safe.

(** One call after the other. *)
Ltac walk := repeat match goal with |- leads _ _ _ (call_bind _ _) => apply safe_bind; [solve [auto with safe]|intros ?] end.

Lemma safe_sendGain sender n receiver : safe (_sendETHGainTo recv sender n receiver).
Proof.
  unfold _sendETHGainTo, this_pool. walk. destruct (n =? 0); [auto with safe|]. apply (safe_contract stabilityPool).
  apply safe_bind; [apply inert_safe, inert_pool; intros p p' H; by inv_result|intros _]. auto with safe.
Qed.
Lemma safe_frontStake a n : safe (pool_call (fun p => Ok (_updateFrontEndStakeAndSnapshots p a n))).
Proof. apply inert_safe, inert_pool. intros p p' [= <-]. apply frontStake_keeps. Qed.
Lemma safe_deposit a n : safe (pool_call (fun p => Ok (_updateDepositAndSnapshots p a n))).
Proof. apply inert_safe, inert_pool. intros p p' [= <-]. apply deposit_updated. Qed.
Lemma safe_tag a tag : safe (pool_call (fun p => Ok (_setFrontEndTag p a tag))).
Proof. apply inert_safe, inert_pool. by intros p p' [= <-]. Qed.
#[local] Hint Resolve safe_sendGain safe_frontStake safe_deposit safe_tag : safe.

Context (W : World).

Lemma safe_check n : safe (if negb (n =? 0) then _requireNoUnderCollateralizedTroves W else call_ret tt).
Proof. destruct (negb _); [|auto with safe]. unfold _requireNoUnderCollateralizedTroves. walk. auto with safe. Qed.

(** ** The operations *)

Context {Acc : Accounted w ok step}.

Lemma safe_distribute me : safe (distributeFees W recv me).
Proof. by apply (ac_distribute (w := w)). Qed.
#[local] Hint Resolve safe_distribute : safe.

(** *** BorrowerOperations *)

Lemma safe_fee n f : safe (_triggerBorrowingFee W recv n f).
Proof. unfold _triggerBorrowingFee, decayBaseRateFromBorrowing, this. walk. auto with safe. Qed.
Lemma safe_addColl n : safe (_activePoolAddColl recv n).
Proof. unfold _activePoolAddColl, this. apply (safe_contract borrowerOperations). walk. auto with safe. Qed.
Lemma safe_mintDebt a n k : safe (_mintZusdAndIncreaseActivePoolDebt a n k).
Proof. unfold _mintZusdAndIncreaseActivePoolDebt, this. walk. auto with safe. Qed.
Lemma safe_burnDebt a n : unaccounted w a -> safe (_burnZusdAndDecreaseActivePoolDebt a n).
Proof. intros Na. unfold _burnZusdAndDecreaseActivePoolDebt, this. walk. auto with safe. Qed.

#[local] Hint Resolve safe_fee safe_addColl safe_mintDebt safe_burnDebt : safe.

Lemma safe_open sender v f n up low rec : safe (_openTrove W recv sender v f n up low rec).
Proof.
  unfold _openTrove, this, setTroveStatus, increaseTroveColl, increaseTroveDebt, updateTroveRewardSnapshots, updateStakeAndTotalStakes, addTroveOwnerToArray.
  do 5 (apply safe_bind; [solve [auto with safe]|intros ?]). apply safe_bind; [|intros ?].
  - destruct a1; [auto with safe|]. walk. auto with safe.
  - walk. auto with safe.
Qed.

Lemma safe_adjust sender v b cw n inc up low f rec : unaccounted w sender \/ sender = pool /\ inc = false /\ n = 0 ->
  safe (_adjustSenderTrove W recv sender v b cw n inc up low f rec).
Proof.
  intros Ho. unfold _adjustSenderTrove, this. do 5 (apply safe_bind; [solve [auto with safe]|intros ?]).
  destruct (_getCollChange v cw) as [cc ci]. apply safe_bind; [|intros ?].
  { destruct (_ && _); [|auto with safe]. walk. auto with safe. }
  do 6 (apply safe_bind; [solve [auto with safe]|intros ?]). apply safe_bind.
  { unfold _updateTroveFromAdjustment, this, increaseTroveColl, decreaseTroveColl, increaseTroveDebt, decreaseTroveDebt. walk.
    apply safe_bind; [destruct ci; auto with safe|intros ?]. apply safe_bind; [destruct inc; auto with safe|intros ?]. auto with safe. }
  intros ?. unfold updateStakeAndTotalStakes. walk. unfold _moveTokensAndETHfromAdjustment. apply safe_bind; [|intros ?].
  - destruct inc; [auto with safe|]. destruct Ho as [Ho|(-> & _ & ->)]; [auto with safe|apply (ac_burnNothing (w := w))].
  - destruct ci; [auto with safe|]. unfold this. walk. auto with safe.
Qed.

Lemma safe_close sender : unaccounted w sender -> safe (BorrowerOperations._closeTrove W recv sender).
Proof.
  intros Ns. unfold BorrowerOperations._closeTrove, this, removeStake. do 13 (apply safe_bind; [solve [auto with safe]|intros ?]).
  apply (safe_contract gasPool). pose proof (gasPool_unaccounted w N). walk. auto with safe.
Qed.

Lemma safe_claim sender : safe (claimCollateral recv sender).
Proof.
  unfold claimCollateral, this. walk. intros s r s' S H. unfold claimColl in H. inv_result. apply or_revert_Ok in H.
  pose proof (gu_wiring (w := w) (step := step) s S) as E. cbn [wiring with_surplus] in H. rewrite E in H.
  by apply (safe_after _ s _ r s' (safe_transfer _ _ _ (surplus_stakers w N) (surplus_distributor w N)) S) in H.
Qed.

Lemma safe_payable sender v m : sender <> stakers -> safe m -> safe (payable sender v m).
Proof. intros Ns M. unfold payable, this. apply (safe_contract borrowerOperations). apply safe_bind; [|done]. apply inert_safe, inert_pay; [done|apply bo_stakers, N]. Qed.

(** *** Mynt *)

Lemma safe_redeemed me sender n : safe (redeemZusdFromDllrWithPermit W me sender n).
Proof. apply (good_safe is_uint), redeemed_good. Qed.

Lemma safe_masset : safe masset_set.
Proof. unfold masset_set. walk. auto with safe. Qed.
#[local] Hint Resolve safe_redeemed safe_mint_DLLR safe_masset : safe.

Lemma safe_adjustNue sender v f cw n inc up low : unaccounted w sender -> safe (_adjustNueTrove W recv sender v f cw n inc up low).
Proof.
  intros Ns. unfold _adjustNueTrove, this. apply (safe_contract borrowerOperations). pose proof (bo_unaccounted w N). walk.
  apply safe_bind; [destruct (_ && _); auto with safe|intros ?]. apply safe_bind; [apply safe_adjust; by left|intros ?].
  apply safe_bind; [destruct (_ && _); auto with safe|intros ?]. auto with safe.
Qed.

Lemma safe_openNue sender v f n up low : sender <> stakers -> safe (openNueTrove W recv sender v f n up low).
Proof.
  intros Ns. unfold openNueTrove, this. apply (safe_payable _ _ _ Ns), (safe_contract borrowerOperations). pose proof (bo_unaccounted w N). walk.
  apply safe_bind; [apply safe_open|intros ?]. walk. auto with safe.
Qed.

Lemma safe_convert sender f n up low : unaccounted w sender -> safe (withdrawZusdAndConvertToDLLR W recv sender f n up low).
Proof.
  intros Ns. unfold withdrawZusdAndConvertToDLLR, this. apply (safe_contract borrowerOperations). pose proof (bo_unaccounted w N). walk.
  apply safe_bind; [apply safe_adjust; by left|intros ?]. walk. apply safe_mint_DLLR; auto with safe.
Qed.

Lemma safe_closeNue sender : unaccounted w sender -> safe (closeNueTrove W recv sender).
Proof. intros Ns. unfold closeNueTrove, this. walk. by apply safe_close. Qed.

(** *** The Stability Pool *)

Lemma safe_supply sender n : unaccounted w sender -> is_uint n -> safe (_sendZUSDtoStabilityPool sender n).
Proof. by apply (ac_supply (w := w)). Qed.
#[local] Hint Resolve safe_supply : safe.

Lemma safe_provide sender n tag : unaccounted w sender -> is_uint n -> safe (_provideToSP W recv sender n tag).
Proof.
  intros Ns Un. unfold _provideToSP, pool_view, _payOutZEROGains. do 5 (apply safe_bind; [solve [auto with safe]|intros ?]).
  apply safe_bind; [case_match; auto with safe|intros ?]. walk. auto with safe.
Qed.

Lemma safe_gainToTrove sender up low : safe (withdrawETHGainToTrove W recv sender up low).
Proof.
  unfold withdrawETHGainToTrove, pool_view, _payOutZEROGains. walk.
  apply safe_bind; [apply inert_safe, inert_pool; intros p p' H; by inv_result|intros _]. apply (safe_contract stabilityPool).
  unfold moveETHGainToTrove, _adjustTrove. apply (safe_payable _ _ _ (pool_stakers w N)). walk. apply safe_adjust. by right.
Qed.

(** *** Liquidations *)

Lemma safe_redistribute debt coll : safe (_redistributeDebtAndColl recv debt coll).
Proof.
  intros s r s' S H. unfold _redistributeDebtAndColl in H. destruct (debt =? 0); [by apply (ret_good tt anything I s r) in H|].
  apply bind_Ok_inv in H as (et & _ & H). apply bind_Ok_inv in H as (zt & _ & H). pose proof (gu_wiring (w := w) (step := step) s S) as E.
  match type of H with ?m _ = _ => assert (safe m) as M by (walk; auto with safe) end. by apply (safe_after _ s _ r s' M S) in H.
Qed.

Lemma visit_normal_good price q b : good visit_counted (visit_normal price q b).
Proof.
  apply inert_good; [auto with inert|]. unfold visit_normal. intros s r s' H. view H as ICR K1. view H as m K2.
  case_match; [|by injection H as <- _]. run H as q' s1 H1. injection H as <- _. by apply liquidate_counted in H1.
Qed.

Lemma visit_recovery_good x price q b : good visit_counted (visit_recovery x price q b).
Proof.
  apply inert_good; [auto with inert|]. unfold visit_recovery. intros s r s' H. view H as ICR K1. view H as m K2.
  destruct (negb _); [destruct (_ && _)|destruct (_ && _)]; try (by injection H as <- _); run H as q' s1 H1; injection H as <- _.
  - by apply recovery_counted in H1.
  - by apply liquidate_counted in H1.
Qed.

Lemma throw_good {A} (x : js_error) (Q : A -> Prop) : good Q (pure_call (Throw x)).
Proof. by apply pure_good. Qed.

Lemma normal_loop_good gas price n q : counted q -> good counted (normal_loop gas price n q).
Proof.
  revert n q. induction gas as [|gas IH]; intros n q C; cbn [normal_loop]; (destruct (0 <? n); [|by apply ret_good]); [apply throw_good|].
  apply (good_bind anything); [apply inert_safe, inert_view|intros b _]. apply (good_bind _ _ _ _ (visit_normal_good price q b)).
  intros [q'|] V; [by apply IH|by apply ret_good].
Qed.

Lemma recovery_loop_good gas price n first b q : counted q -> good counted (recovery_loop gas price n first b q).
Proof.
  revert n b q. induction gas as [|gas IH]; intros n b q C; cbn [recovery_loop]; (destruct (_ && _); [|by apply ret_good]); [apply throw_good|].
  apply (good_bind anything); [apply inert_safe, inert_view|intros next _]. apply (good_bind _ _ _ _ (visit_recovery_good true price q b)).
  intros [q'|] V; [by apply IH|by apply ret_good].
Qed.

Lemma normal_batch_good price l q : counted q -> good counted (normal_batch price l q).
Proof.
  revert q. induction l as [|b l IH]; intros q C; cbn [normal_batch]; [by apply ret_good|].
  apply (good_bind _ _ _ _ (visit_normal_good price q b)). intros [q'|] V; by apply IH.
Qed.

Lemma recovery_batch_good price l q : counted q -> good counted (recovery_batch price l q).
Proof.
  revert q. induction l as [|b l IH]; intros q C; cbn [recovery_batch]; [by apply ret_good|].
  apply (good_bind anything); [apply inert_safe, inert_view|intros act _]. destruct (negb act); [by apply IH|].
  apply (good_bind _ _ _ _ (visit_recovery_good false price q b)). intros [q'|] V; by apply IH.
Qed.

Lemma safe_settle sender t : is_uint (totalDebtToOffset t) -> safe (settle_liquidation W recv sender t).
Proof.
  intros U. unfold settle_liquidation. walk. apply safe_bind; [by apply (ac_offset (w := w))|intros ?]. apply safe_bind; [apply safe_redistribute|intros ?]. walk.
  apply safe_bind; [destruct (0 <? _); auto with safe|intros ?]. walk. unfold _sendGasCompensation. apply (safe_contract troveManager), (safe_contract gasPool).
  apply safe_bind; [destruct (0 <? _); [apply safe_moves; by apply gasPool_unaccounted|auto with safe]|intros ?]. destruct (0 <? _); auto with safe.
Qed.

Lemma start_counted k s q s' : start_recovery k s = Ok (q, s') -> counted q.
Proof. unfold start_recovery. intros [H _]%view_call_Ok. inv_result. apply zero_uint. Qed.

Lemma safe_liquidateTroves sender n : safe (liquidateTroves W recv sender n).
Proof.
  unfold liquidateTroves. walk. apply (good_bind counted); [|intros q C; by apply safe_settle]. destruct a1.
  - apply (good_bind counted); [apply inert_good; [apply inert_view|apply start_counted]|intros q C].
    do 2 (apply (good_bind anything); [apply inert_safe, inert_view|intros ? _]). by apply recovery_loop_good.
  - apply normal_loop_good, zero_uint.
Qed.

Lemma safe_batch sender l : safe (batchLiquidateTroves W recv sender l).
Proof.
  unfold batchLiquidateTroves. walk. apply (good_bind counted); [|intros q C; by apply safe_settle]. destruct a2.
  - apply (good_bind counted); [apply inert_good; [apply inert_view|apply start_counted]|intros q C]. by apply recovery_batch_good.
  - apply normal_batch_good, zero_uint.
Qed.

Lemma safe_liquidate sender b : safe (liquidate W recv sender b).
Proof. unfold liquidate. walk. apply safe_batch. Qed.

(** *** Redemptions *)

Lemma safe_redeemClose b z e : safe (_redeemCloseTrove recv b z e).
Proof.
  unfold _redeemCloseTrove, this_manager. apply (safe_contract troveManager), (safe_contract gasPool). pose proof (gasPool_unaccounted w N). walk. auto with safe.
Qed.

Lemma safe_redeemFrom b max price up low hint : safe (_redeemCollateralFromTrove W recv b max price up low hint).
Proof.
  unfold _redeemCollateralFromTrove. do 6 (apply safe_bind; [solve [auto with safe]|intros ?]). case_match.
  - walk. apply safe_bind; [apply safe_redeemClose|intros _]. auto with safe.
  - do 2 (apply safe_bind; [solve [auto with safe]|intros ?]). case_match; [auto with safe|]. walk. auto with safe.
Qed.

Lemma safe_redeem_loop gas price up low hint n b t : safe (redeem_loop W recv gas price up low hint n b t).
Proof.
  revert n b t. induction gas as [|gas IH]; intros n b t; cbn [redeem_loop]; (destruct (_ && _); [|auto with safe]); [auto with safe|]. walk.
  apply safe_bind; [apply safe_redeemFrom|]. intros [[z e] []]; [auto with safe|]. walk. apply IH.
Qed.

Lemma safe_redeem sender n first up low hint i f : unaccounted w sender -> safe (_redeemCollateral W recv sender n first up low hint i f).
Proof.
  intros Ns. unfold _redeemCollateral, this_manager. do 10 (apply safe_bind; [solve [auto with safe]|intros ?]). cbv zeta.
  apply safe_bind; [apply safe_redeem_loop|intros t]. unfold _updateBaseRateFromRedemption. walk. auto with safe.
Qed.

(** *** All of them *)

Lemma safe_dispatch sender op : outsider w sender -> Forall is_uint (amounts op) -> safe (dispatch W recv sender op).
Proof.
  intros O U. pose proof (outsider_unaccounted w sender O) as Ns. assert (forall (P : Prop), unaccounted w sender \/ P) as L by (by left). pose proof (proj2 Ns) as Nt.
  destruct op; cbn [amounts] in U; rewrite ?Forall_cons in U; cbn [dispatch]; try (apply inert_safe; solve [apply inert_zero|apply inert_params]).
  - apply safe_payable, safe_open; done.
  - by apply safe_openNue.
  - by apply safe_payable, safe_adjust.
  - unfold moveETHGainToTrove. apply safe_payable; [done|]. walk. by apply safe_adjust.
  - by apply safe_adjust.
  - by apply safe_adjust.
  - apply safe_bind; [by apply safe_convert|intros ?; auto with safe].
  - by apply safe_adjust.
  - by apply safe_adjustNue.
  - by apply safe_payable, safe_adjust.
  - by apply safe_payable, safe_adjustNue.
  - by apply safe_close.
  - by apply safe_closeNue.
  - apply safe_claim.
  - apply safe_provide; tauto.
  - unfold provideToSpFromDLLR, this_pool. apply (safe_contract stabilityPool). apply (good_bind is_uint); [apply redeemed_good|]. intros k Uk. by apply safe_provide.
  - apply (ac_withdraw (w := w)); tauto.
  - apply (ac_convert (w := w)); tauto.
  - apply safe_gainToTrove.
  - apply inert_safe, inert_register.
  - apply safe_liquidate.
  - apply safe_liquidateTroves.
  - apply safe_batch.
  - by apply safe_redeem.
  - unfold redeemCollateralViaDLLR, this_manager. walk. by apply safe_redeem.
  - apply (ac_stake (w := w)); tauto.
  - apply (ac_unstake (w := w)); tauto.
  - unfold transferFromZERO, transferZERO. walk. apply inert_safe, inert_zero.
  - apply inert_safe, inert_receiveZero.
  - apply inert_safe, inert_owner.
  - apply inert_safe, inert_share.
  - apply safe_bind; [apply inert_safe, inert_fetchPrice|intros ?; auto with safe].
  - apply safe_action.
Qed.
End Payments.
End Guarded.

(** ** Histories *)

Section Histories.
Context (w : Wiring) (N : NoDup (core w)) (ok : System -> Prop) (step : System -> System -> Prop) {Acc : Accounted w ok step}.
Abbreviation safe := (leads ok step anything).

Lemma attempt_ok recv c s : (forall from to n, safe (recv from to n)) -> ok s -> ok (attempt recv s c) /\ step s (attempt recv s c).
Proof.
  intros R S. unfold attempt. destruct (execute recv c s) as [[u s']|] eqn:H; [|split; [done|apply (gu_refl (w := w) (ok := ok))]].
  assert (safe (execute recv c)) as M.
  { apply (safe_from_outside w ok step). intros O. destruct (is_word _ && forallb _ _) eqn:Hw; [|apply (inert_safe w ok step), inert_pure]. apply andb_prop in Hw as [_ Ha].
    apply (safe_dispatch w N ok step); [done|done|done|]. apply Forall_forall. intros n Hn. apply is_word_uint. rewrite forallb_forall in Ha. apply Ha. by apply list_elem_of_In. }
  destruct (M _ _ _ S H) as (S' & L & _). by split.
Qed.

Lemma fold_ok {X} (f : System -> X -> System) (l : list X) s :
  (forall s x, ok s -> ok (f s x) /\ step s (f s x)) -> ok s -> ok (fold_left f l s) /\ step s (fold_left f l s).
Proof.
  intros F. revert s. induction l as [|x l IH]; intros s S; [split; [done|apply (gu_refl (w := w) (ok := ok))]|]. cbn [fold_left].
  destruct (F s x S) as [S1 L1], (IH _ S1) as [S2 L2]. split; [done|]. by apply (gu_trans (w := w) (ok := ok) _ (f s x)).
Qed.

Lemma safe_paid depth code from to n : safe (paid depth code from to n).
Proof.
  revert from to n. induction depth as [|d IH]; intros from to n s r s' S H; cbn [paid] in H; (destruct (code from to n s) as [calls|]; [|done]); injection H as _ <-.
  - split_and!; [done|apply (gu_refl (w := w) (ok := ok))|done].
  - destruct (fold_ok (attempt (paid d code)) calls s) as [S' L]; [intros s1 c S1; by apply attempt_ok|done|]. by split_and!.
Qed.

(** After any history the assertion holds, and every step was taken. *)
Lemma history_ok depth txs s : ok s -> ok (history depth txs s) /\ step s (history depth txs s).
Proof. intros S. apply fold_ok; [|done]. intros s1 tx S1. apply attempt_ok; [apply safe_paid|done]. Qed.
End Histories.
