(* ===== verification/PoolBacking.v ===== *)
(** * The Stability Pool holds the tokens of its deposits

    [slack] is what the pool holds beyond its total of deposits and beyond what it lets
    Mynt take.  No call of any account lowers it. *)

From S2P Require Import Prelude Solidity Ledger SortedTroves SortedTrovesFacts ChainState ZUSDToken.
From S2P Require Import ActivePool DefaultPool CollSurplusPool Outside FeeDistributor ZEROStaking Governance TroveManager BorrowerOperations.
From S2P Require Import StabilityPool Liquidations Redemptions Transactions Invariant InvariantFacts TroveSteps BorrowerSteps BorrowerFacts.
From S2P Require Import PoolSteps LiquidationFacts RedemptionFacts StabilityFacts StakingFacts TransactionFacts CallWalk OperationWalk.
Import LiquityMath.
Local Open Scope Z_scope.

Section Backing.
Context (w : Wiring) (N : NoDup (core w)).
Abbreviation pool := (stabilityPool w).
Abbreviation masset := (massetManager w).

Definition slack (s : System) : Z := balance (zusd s) pool - totalZUSDDeposits (stability s) - allowance (zusd s) pool masset.

(** What the pool holds, owes and allows are words, and it allows nobody but Mynt. *)
Record sound (s : System) : Prop := {
  so_wiring : wiring s = w;
  so_balance : is_uint (balance (zusd s) pool);
  so_total : is_uint (totalZUSDDeposits (stability s));
  so_allowance : forall a, is_uint (allowance (zusd s) pool a);
  so_none : forall a, a <> masset -> allowance (zusd s) pool a = 0 }.

Abbreviation steady := (fun s s' => slack s <= slack s').
Abbreviation safe := (leads sound steady anything).

(** The slack grows by at least [d], and the result satisfies [Q]. *)
Definition gains {A} (d : Z) (Q : A -> Prop) (m : call System A) : Prop := forall s r s', sound s -> m s = Ok (r, s') ->
  sound s' /\ slack s + d <= slack s' /\ Q r.

Lemma leads_gains {A} (Q : A -> Prop) (m : call System A) : leads sound steady Q m -> gains 0 Q m.
Proof. intros M s r s' S H. destruct (M _ _ _ S H) as (S1 & L & Qr). split_and!; [done|lia|done]. Qed.

Lemma gains_leads {A} d (Q : A -> Prop) (m : call System A) : gains d Q m -> 0 <= d -> leads sound steady Q m.
Proof. intros M L s r s' S H. destruct (M _ _ _ S H) as (S1 & L1 & Qr). split_and!; [done|lia|done]. Qed.

Lemma gains_bind {A B} d e (Q : A -> Prop) (R : B -> Prop) (m : call System A) k :
  gains d Q m -> (forall a, Q a -> gains e R (k a)) -> gains (d + e) R (call_bind m k).
Proof.
  intros M K s r s' S H. run H as a s1 H1. destruct (M _ _ _ S H1) as (S1 & L1 & Qa), (K _ Qa _ _ _ (proj1 (M _ _ _ S H1)) H) as (S2 & L2 & Rr).
  split_and!; try done. lia.
Qed.

Lemma gains_weaken {A} d e (Q R : A -> Prop) (m : call System A) : gains d Q m -> e <= d -> (forall a, Q a -> R a) -> gains e R m.
Proof. intros M L QR s r s' S H. destruct (M _ _ _ S H) as (S1 & L1 & Qa). split_and!; [done|lia|auto]. Qed.

Lemma same_sound s s' : sound s -> same_funds w s s' -> sound s' /\ slack s <= slack s'.
Proof. intros [] (E1 & E2 & _ & _ & E3). unfold slack. rewrite E2, E3. split; [|lia]. split; rewrite ?E1, ?E2, ?E3; done. Qed.

(** *** The token *)

(** What a change of the token may do to the pool. *)
Definition token_gains (d : Z) (f : Token -> result Token) : Prop := forall t t',
  is_uint (balance t pool) -> (forall a, is_uint (allowance t pool a)) -> (forall a, a <> masset -> allowance t pool a = 0) -> f t = Ok t' ->
  is_uint (balance t' pool) /\ (forall a, is_uint (allowance t' pool a)) /\ (forall a, a <> masset -> allowance t' pool a = 0) /\
  balance t pool - allowance t pool masset + d <= balance t' pool - allowance t' pool masset.

Lemma gains_token d g msg f : token_gains d f -> gains d anything (token_call g msg f).
Proof.
  intros F s r s' S H. unfold token_call in H. inv_result. destruct S as [S1 S2 S3 S4 S5].
  match goal with E : f _ = Ok ?t |- _ => destruct (F _ _ S2 S4 S5 E) as (F1 & F2 & F3 & F4) end.
  split_and!; [by split| |done]. unfold slack. cbn [zusd stability with_zusd]. lia.
Qed.

Lemma tame_gains f : tame w f -> token_gains 0 f.
Proof.
  intros F t t' U1 U2 U3 H. destruct (F t t' pool (or_introl eq_refl) U1 H) as (V1 & V2 & V3). setoid_rewrite V3. split_and!; try done. lia.
Qed.

(** Tokens of somebody else move, to the pool or elsewhere. *)
Lemma transfer_gains a b n : a <> pool -> token_gains 0 (fun t => _transfer t a b n).
Proof.
  intros Na t t' U1 U2 U3 H. unfold _transfer in H. inv_result.
  match goal with E : SafeMath.add _ _ = Ok _ |- _ => apply add_grows in E as [G1 G2] end.
  destruct (decide (b = pool)) as [->|Nb].
  - rewrite balance_set_same. rewrite balance_set_other in G1 by done. split_and!; try done. rewrite ?allowance_set, ?allowance_supply. lia.
  - rewrite !balance_set_other by done. split_and!; try done. rewrite ?allowance_set, ?allowance_supply. lia.
Qed.

Lemma burn_pool_gains n : is_uint n -> token_gains (- n) (fun t => _burn t pool n).
Proof.
  intros Un t t' U1 U2 U3 H. unfold _burn in H. inv_result. change (balance (set_supply ?t _)) with (balance t).
  match goal with E : SafeMath.sub (balance _ _) _ = Ok _ |- _ => destruct (sub_Ok _ _ _ U1 Un E) as (-> & L & U) end.
  rewrite balance_set_same. split_and!; try done. rewrite ?allowance_set, ?allowance_supply, ?allowance_set. lia.
Qed.

(** The pool sends tokens. *)
Lemma return_gains b n : is_uint n -> token_gains (if decide (b = pool) then 0 else - n) (fun t => _transfer t pool b n).
Proof.
  intros Un t t' U1 U2 U3 H. unfold _transfer in H. inv_result.
  match goal with E : SafeMath.sub (balance _ _) _ = Ok _ |- _ => destruct (sub_Ok _ _ _ U1 Un E) as (-> & L & U) end.
  case_decide as Eb.
  - subst b. match goal with E : SafeMath.add _ _ = Ok _ |- _ => rewrite balance_set_same in E; destruct (add_Ok _ _ _ U Un E) as (-> & V) end.
    rewrite balance_set_same. split_and!; try done. rewrite ?allowance_set, ?allowance_supply. lia.
  - rewrite balance_set_other, balance_set_same by done. split_and!; try done. rewrite ?allowance_set, ?allowance_supply. lia.
Qed.

(** Tokens come to the pool. *)
Lemma send_gains a n : a <> pool -> is_uint n -> token_gains n (fun t => _transfer t a pool n).
Proof.
  intros Na Un t t' U1 U2 U3 H. unfold _transfer in H. inv_result.
  match goal with E : SafeMath.add _ _ = Ok _ |- _ => rewrite balance_set_other in E by done; destruct (add_Ok _ _ _ U1 Un E) as (-> & V) end.
  rewrite balance_set_same. split_and!; try done. rewrite ?allowance_set, ?allowance_supply. lia.
Qed.

Lemma approve_gains owner spender n : owner <> pool -> token_gains 0 (fun t => _approve t owner spender n).
Proof.
  intros No t t' U1 U2 U3 H. pose proof (fun a b => proj2 (allowance_approved _ _ _ _ _ a b H)) as E.
  destruct (allowance_approved _ _ _ _ _ pool pool H) as [-> _].
  assert (forall b, allowance t' pool b = allowance t pool b) as E' by (intros b; by rewrite E, decide_False by congruence).
  setoid_rewrite E'. split_and!; try done. lia.
Qed.

(** The pool lets Mynt take [n]. *)
Lemma approve_pool_gains n : is_uint n -> token_gains (- n) (fun t => _approve t pool masset n).
Proof.
  intros Un t t' U1 U2 U3 H. pose proof (fun a b => proj2 (allowance_approved _ _ _ _ _ a b H)) as E.
  destruct (allowance_approved _ _ _ _ _ pool pool H) as [-> _]. pose proof (proj1 (U2 masset)).
  split_and!; [done|..].
  - intros a. rewrite E. by case_decide.
  - intros a Na. rewrite E, decide_False by congruence. by apply U3.
  - rewrite E, decide_True by done. lia.
Qed.

Lemma transferFrom_gains spender a b n : is_uint n -> token_gains 0 (fun t =>
  let! t := _transfer t a b n in let! k := SafeMath.sub (allowance t a spender) n in _approve t a spender k).
Proof.
  intros Un t t' U1 U2 U3 H. apply bind_Ok_inv in H as (t1 & H1 & H). apply bind_Ok_inv in H as (k & Hk & H).
  destruct (decide (a = pool)) as [->|Na].
  - destruct (return_gains b n Un t t1 U1 U2 U3 H1) as (V1 & V2 & V3 & V4). destruct (sub_Ok _ _ _ (V2 spender) Un Hk) as (-> & L & Uk).
    pose proof (fun x y => proj2 (allowance_approved _ _ _ _ _ x y H)) as E. destruct (allowance_approved _ _ _ _ _ pool pool H) as [-> _].
    pose proof (proj1 Un). assert (balance t pool - allowance t pool masset - n <= balance t1 pool - allowance t1 pool masset) as V5 by (case_decide; lia). clear V4.
    split_and!; [done|..].
    + intros x. rewrite E. case_decide; [done|apply V2].
    + intros x Nx. rewrite E. case_decide as D; [|by apply V3]. injection D as ->. rewrite V3 in * by done. unfold is_uint in *. lia.
    + rewrite E. case_decide as D; [injection D as D; rewrite <- D in *; lia|]. assert (n <= 0) by (rewrite V3 in L by congruence; lia). lia.
  - destruct (transfer_gains a b n Na t t1 U1 U2 U3 H1) as (V1 & V2 & V3 & V4).
    destruct (approve_gains a spender k Na t1 t' V1 V2 V3 H) as (W1 & W2 & W3 & W4). split_and!; try done. lia.
Qed.

(** *** The total of deposits *)

Lemma total_gains f d : (forall p p', is_uint (totalZUSDDeposits p) -> f p = Ok p' ->
    is_uint (totalZUSDDeposits p') /\ totalZUSDDeposits p' <= totalZUSDDeposits p - d) -> gains d anything (pool_call f).
Proof.
  intros F s r s' S H. apply pool_call_Ok in H as (p & H & ->). destruct (F _ _ (so_total _ S) H) as [U L]. destruct S.
  split_and!; [by split| |done]. unfold slack. cbn [zusd stability with_stability]. lia.
Qed.

Lemma decrease_gains n : is_uint n -> gains n anything (_decreaseZUSD n).
Proof. intros Un. apply total_gains. intros p p' U H. inv_result. safe_math. split; [done|cbn; lia]. Qed.

Lemma increase_gains n : is_uint n ->
  gains (- n) anything (pool_call (fun p => let! k := SafeMath.add (totalZUSDDeposits p) n in Ok (set_totalDeposits p k))).
Proof. intros Un. apply total_gains. intros p p' U H. inv_result. safe_math. split; [done|cbn; lia]. Qed.

(** ** The operations *)

#[export] Instance pool_guarded : Guarded w sound steady.
Proof.
  split.
  - done.
  - intros s1 s2 s3 L1 L2. lia.
  - apply so_wiring.
  - apply same_sound.
  - intros from to n _ _ s r s' S H. apply pay_Ok in H as (_ & e & -> & _). split_and!; [|done|done]. by destruct S.
  - intros g msg f F. apply (gains_leads 0); [|done]. by apply gains_token, tame_gains.
  - intros spender a b n U. apply (gains_leads 0); [|done]. by apply gains_token, transferFrom_gains.
Qed.

Section Operations.
Context (W : World) (recv : address -> address -> Z -> call System unit).
Context (Hrecv : forall from to n, safe (recv from to n)).

Lemma safe_gains {A} (m : call System A) : safe m -> gains 0 anything m.
Proof. apply leads_gains. Qed.

#[local] Hint Extern 1 (leads _ _ _ _) => (apply (inert_safe w sound steady); solve [eauto 8 with inert safe]) : safe.
#[local] Hint Extern 2 (leads _ _ _ _) => (apply (safe_sendETH w N sound steady recv Hrecv)) : safe.
#[local] Hint Extern 2 (leads _ _ _ _) => (apply (safe_sendGain w N sound steady recv Hrecv)) : safe.
#[local] Hint Extern 2 (leads _ _ _ _) => (apply (safe_frontStake w sound steady)) : safe.
#[local] Hint Extern 2 (leads _ _ _ _) => (apply (safe_deposit w sound steady)) : safe.
#[local] Hint Extern 2 (leads _ _ _ _) => (apply (safe_check w sound steady)) : safe.
#[local] Hint Extern 2 (leads _ _ _ _) => (apply (safe_outside w sound steady)) : safe.

(** One call after the other. *)
Ltac walk := repeat match goal with |- leads _ _ _ (call_bind _ _) => apply (safe_bind w sound steady); [solve [auto with safe]|intros ?] end.

(** *** Fees and stakes *)

Lemma steady_F_ETH me n : safe (increaseF_ETH me n).
Proof. intros s r s' S H. unfold increaseF_ETH in H. inv_result. split_and!; [by destruct S|done|done]. Qed.
Lemma steady_F_ZUSD me n : safe (increaseF_ZUSD me n).
Proof. intros s r s' S H. unfold increaseF_ZUSD in H. inv_result. split_and!; [by destruct S|done|done]. Qed.
Lemma steady_staking f : safe (staking_call f).
Proof. intros s r s' S H. apply staking_call_Ok in H as (k & _ & ->). split_and!; [by destruct S|done|done]. Qed.

(** Ether does not matter here. *)
Lemma steady_pay from to n : safe (pay from to n).
Proof. intros s r s' S H. apply pay_Ok in H as (_ & e & -> & _). split_and!; [by destruct S|done|done]. Qed.

Lemma steady_transfer from to n : safe (transfer recv from to n).
Proof.
  apply (safe_bind w sound steady); [apply steady_pay|intros _]. intros s r s' S H. destruct (is_core s to); [|by apply (Hrecv from to n s r)].
  by apply (inert_safe w sound steady _ (inert_receive w from to n) s r).
Qed.

Lemma steady_moves g msg a b n : a <> pool -> safe (token_call g msg (fun t => _transfer t a b n)).
Proof. intros Na. apply (gains_leads 0); [|done]. by apply gains_token, transfer_gains. Qed.
#[local] Hint Resolve steady_F_ETH steady_F_ZUSD steady_staking steady_transfer steady_moves steady_pay : safe.
#[local] Hint Extern 2 (leads _ _ _ _) => (apply (safe_or_revert sound steady)) : safe.

Lemma steady_distributeZUSD n : safe (_distributeZUSD W n).
Proof.
  at_wiring w (@_distributeZUSD). pose proof (distributor_unaccounted w N) as Ud. walk. apply (safe_bind w sound steady); [by apply (safe_approve w sound steady)|intros _]. walk.
  destruct (negb _); [|auto with safe]. apply (safe_bind w sound steady); [by apply steady_moves, Ud|intros _; auto with safe].
Qed.

Lemma steady_distributeRBTC n : safe (_distributeRBTC W recv n).
Proof. at_wiring w (@_distributeRBTC). walk. destruct (negb _); [|auto with safe]. walk. auto with safe. Qed.

Lemma steady_distribute me : safe (distributeFees W recv me).
Proof.
  at_wiring w (@distributeFees). apply (safe_bind w sound steady); [|intros _]; (destruct (negb _); [|auto with safe]);
    [apply steady_distributeZUSD|apply steady_distributeRBTC].
Qed.

Lemma steady_payout sender gz ge : safe (let$ _ := token_transfer (zeroStaking w) sender gz in _sendETHGainToUser recv sender ge).
Proof.
  pose proof (pool_stakers w N) as Ns. apply (safe_bind w sound steady); [apply steady_moves; congruence|intros _].
  unfold _sendETHGainToUser, this_staking. walk. auto with safe.
Qed.

Lemma steady_stake sender n : safe (stake recv sender n).
Proof.
  unfold stake, this_staking, sendToZEROStaking. apply (safe_contract w sound steady zeroStaking). walk. destruct (negb _); [apply steady_payout|auto with safe].
Qed.

Lemma steady_unstake sender n : safe (ZEROStaking.unstake recv sender n).
Proof.
  unfold ZEROStaking.unstake, this_staking, transferZERO. apply (safe_contract w sound steady zeroStaking). walk.
  apply (safe_bind w sound steady); [destruct (0 <? n); [walk|]; auto with safe|intros _]. apply steady_payout.
Qed.

(** *** The pool's own *)

(** The pool burns none of its tokens when it moves a gain. *)
Lemma steady_burnNothing : safe (_burnZusdAndDecreaseActivePoolDebt pool 0).
Proof.
  unfold _burnZusdAndDecreaseActivePoolDebt, this. walk. apply (gains_leads 0); [|done]. apply gains_token. exact (burn_pool_gains 0 zero_uint).
Qed.

Lemma steady_supply sender n : unaccounted w sender -> is_uint n -> safe (_sendZUSDtoStabilityPool sender n).
Proof.
  intros [Ns _] Un. unfold _sendZUSDtoStabilityPool, this_pool. apply (safe_contract w sound steady stabilityPool). apply (gains_leads (n + - n)); [|lia].
  refine (gains_bind n (- n) anything _ _ _ (gains_token _ _ _ _ (send_gains sender n Ns Un)) _). intros _ _. by apply increase_gains.
Qed.

Lemma return_gained receiver n : is_uint n -> gains (if decide (receiver = pool) then n else 0) anything (_sendZUSDToDepositor receiver n).
Proof.
  intros Un. unfold _sendZUSDToDepositor, this_pool. destruct (Z.eqb_spec n 0) as [->|_].
  { apply (gains_weaken 0 _ anything); [apply safe_gains; auto with safe|case_decide; lia|done]. }
  apply (gains_weaken ((if decide (receiver = pool) then 0 else - n) + n) _ anything); [|case_decide; lia|done].
  intros s r s' S H. view H as a Ha. injection Ha as <-. rewrite (so_wiring _ S) in H. revert s r s' S H.
  refine (gains_bind _ n anything _ _ _ (gains_token _ _ _ _ (return_gains receiver n Un)) _). intros _ _. by apply decrease_gains.
Qed.

(** The slack grows by a share of the result. *)
Definition yields (d : Z -> Z) (m : call System Z) : Prop := forall s r s', sound s -> m s = Ok (r, s') ->
  sound s' /\ slack s + d r <= slack s' /\ is_uint r.

Lemma yields_after {A} d (Q : A -> Prop) (m : call System A) k : leads sound steady Q m -> (forall a, Q a -> yields d (k a)) -> yields d (call_bind m k).
Proof.
  intros M K s r s' S H. run H as a s1 H1. destruct (M _ _ _ S H1) as (S1 & L1 & Qa), (K a Qa _ _ _ (proj1 (M _ _ _ S H1)) H) as (S2 & L2 & U).
  split_and!; try done. lia.
Qed.

Lemma yields_safe d (m : call System Z) : yields d m -> (forall r, is_uint r -> 0 <= d r) -> safe m.
Proof. intros M D s r s' S H. destruct (M _ _ _ S H) as (S1 & L1 & U). pose proof (D r U). split_and!; [done|lia|done]. Qed.

Lemma withdraw_yields sender n receiver : is_uint n ->
  yields (fun r => if decide (receiver = pool) then r else 0) (_withdrawFromSpTo W recv sender n receiver).
Proof.
  intros Un. unfold _withdrawFromSpTo, pool_view, _payOutZEROGains.
  do 6 (refine (yields_after _ anything _ _ (_ : safe _) _); [solve [auto with safe]|intros ? _]).
  refine (yields_after _ is_uint _ _ (view_good w sound steady _ _ _) _); [intros s c; apply compounded_uint|]. intros c Uc. cbv zeta.
  assert (is_uint (_min n c)) as Uw by (unfold _min; by case_match). set (x := _min n c) in *. clearbody x.
  do 6 (refine (yields_after _ anything _ _ (_ : safe _) _); [solve [auto with safe]|intros ? _]).
  intros s r s' S H. run H as u s1 H1. destruct (return_gained receiver x Uw _ _ _ S H1) as (S1 & L1 & _).
  assert (leads sound steady (fun k => k = x) (let$ newDeposit := pure_call (SafeMath.sub c x) in
    let$ _ := pool_call (fun p => Ok (_updateDepositAndSnapshots p sender newDeposit)) in
    let$ _ := _sendETHGainTo recv sender a4 sender in call_ret x)) as M.
  { do 3 (apply (good_bind w sound steady anything); [solve [auto with safe]|intros ? _]).
    by apply (ret_good w sound steady). }
  destruct (M _ _ _ S1 H) as (S2 & L2 & ->). split_and!; [done|case_decide; lia|done].
Qed.

(** What the pool has withdrawn it may let Mynt take. *)
Lemma mint_pool_gains sender n : is_uint n -> gains (- n) anything (mint_DLLR W pool masset sender n).
Proof.
  intros Un. unfold mint_DLLR. replace (- n) with (- n + 0) by lia. refine (gains_bind _ _ anything _ _ _ _ _); [by apply gains_token, approve_pool_gains|].
  intros _ _. apply safe_gains, (good_safe sound steady is_uint), (answer_good w sound steady).
Qed.

Lemma steady_convert sender n : is_uint n -> safe (withdrawFromSpAndConvertToDLLR W recv sender n).
Proof.
  intros Un. unfold withdrawFromSpAndConvertToDLLR, this_pool. apply (safe_contract w sound steady stabilityPool), (safe_contract w sound steady massetManager).
  intros s r s' S H. run H as k s1 H1. destruct (withdraw_yields sender n pool Un _ _ _ S H1) as (S1 & L1 & Uk). rewrite decide_True in L1 by done.
  run H as x s2 H2. injection H as _ <-. destruct (mint_pool_gains sender k Uk _ _ _ S1 H2) as (S2 & L2 & _). split_and!; [done|lia|done].
Qed.

Lemma steady_withdraw sender n : is_uint n -> safe (withdrawFromSP W recv sender n).
Proof.
  intros Un. apply (safe_bind w sound steady); [|intros ?; auto with safe].
  apply (yields_safe _ _ (withdraw_yields sender n sender Un)). intros r Ur. case_decide; [apply Ur|done].
Qed.

Lemma steady_offset me debt coll : is_uint debt -> safe (offset W recv me debt coll).
Proof.
  intros Ud. unfold offset, pool_view. walk. case_match; [auto with safe|]. walk.
  apply (safe_bind w sound steady); [apply (inert_safe w sound steady), inert_pool; intros p p' E; by apply product_trackers in E as [_ ?]|intros ?].
  unfold _moveOffsetCollAndDebt, this_pool. apply (safe_contract w sound steady stabilityPool). walk. apply (gains_leads (debt + (- debt + 0))); [|lia].
  refine (gains_bind _ _ anything _ _ _ (decrease_gains debt Ud) _). intros _ _.
  refine (gains_bind _ _ anything _ _ _ (gains_token _ _ _ _ (burn_pool_gains debt Ud)) _). intros _ _. apply safe_gains. auto with safe.
Qed.

End Operations.

#[export] Instance pool_accounted : Accounted w sound steady.
Proof.
  split.
  - apply pool_guarded.
  - apply steady_burnNothing.
  - apply steady_supply.
  - intros W recv me debt coll R. by apply steady_offset.
  - intros W recv sender n R. by apply steady_withdraw.
  - intros W recv sender n R. by apply steady_convert.
  - intros W recv me R. by apply steady_distribute.
  - intros recv sender n R _ _. by apply steady_stake.
  - intros recv sender n R _ _. by apply steady_unstake.
Qed.
End Backing.

(** ** From deployment *)

Lemma genesis_sound w p maxSize share price time c o e f : sound w (genesis w p maxSize share price time c o e f).
Proof. by split. Qed.

(** C5: After any transactions of any accounts on freshly deployed contracts the
    Stability Pool holds at least the tokens of its recorded total of deposits, beyond
    whatever it currently lets Mynt take, and nobody else may take any. *)
Theorem deposits_backed depth txs w p maxSize share price time c o e f : deployed w p share price time e = true ->
  let now_ := history depth txs (genesis w p maxSize share price time c o e f) in
  totalZUSDDeposits (stability now_) + allowance (zusd now_) (stabilityPool w) (massetManager w) <= balance (zusd now_) (stabilityPool w) /\
  forall a, a <> massetManager w -> allowance (zusd now_) (stabilityPool w) a = 0.
Proof.
  intros D now_. unfold deployed in D. rewrite !andb_true_iff, !bool_decide_eq_true in D. destruct D as [[[[[[[[[[[[N _] _] _] _] _] _] _] _] _] _] _] _].
  pose proof (pool_accounted w N) as Acc.
  destruct (history_ok w N _ _ depth txs _ (genesis_sound w p maxSize share price time c o e f)) as [[_ _ _ _ S] L].
  split; [|done]. fold now_ in L. assert (slack w (genesis w p maxSize share price time c o e f) = 0) as E0 by done.
  rewrite E0 in L. unfold slack in L. lia.
Qed.

(** The pool holds a deposit, part of which was converted. *)
Definition backed_txs : list (Code * Call) :=
  map (fun op => (sample_code, mkCall sample_world "0xB" op))
    [OpenTrove (2 * 10 ^ 18) (10 ^ 18) (10000 * 10 ^ 18) address0 address0; ProvideToSP (5000 * 10 ^ 18) address0;
     WithdrawFromSpAndConvertToDLLR (1000 * 10 ^ 18)].

Lemma deposits_backed_witness :
  let now_ := history 1 backed_txs (genesis sample_wiring initial_params 1000 (10 ^ 17) (20000 * 10 ^ 18) 1500000000 sample_community ∅ sample_ether ∅) in
  totalZUSDDeposits (stability now_) = 4000 * 10 ^ 18 /\ totalZUSDDeposits (stability now_) <= balance (zusd now_) "0xSP" - 1000 * 10 ^ 18.
Proof.
  intros now_. split; [vm_compute; reflexivity|].
  destruct (deposits_backed 1 backed_txs sample_wiring initial_params 1000 (10 ^ 17) (20000 * 10 ^ 18) 1500000000 sample_community ∅ sample_ether ∅) as [H _];
    [vm_compute; reflexivity|]. fold now_ in H. assert (allowance (zusd now_) "0xSP" "0xMM" = 1000 * 10 ^ 18) as E by (vm_compute; reflexivity).
  cbn [stabilityPool massetManager sample_wiring] in H. rewrite E in H. lia.
Defined.
