(* ===== verification/StakingBacking.v ===== *)
(** * The staking contract holds what it owes to the stakers of ZERO

    A stake earns its share of every fee distributed since the staker's snapshot.  The
    tokens and the ether of the contract cover the sum of these shares, whatever the
    accounts of the protocol do and whatever their code does when they are paid. *)

From S2P Require Import Prelude Solidity Ledger SortedTroves SortedTrovesFacts ChainState ZUSDToken.
From S2P Require Import ActivePool DefaultPool CollSurplusPool Outside FeeDistributor ZEROStaking Governance TroveManager BorrowerOperations.
From S2P Require Import StabilityPool Liquidations Redemptions Transactions Invariant InvariantFacts TroveSteps BorrowerSteps BorrowerFacts.
From S2P Require Import PoolSteps LiquidationFacts RedemptionFacts StabilityFacts StakingFacts TransactionFacts CallWalk OperationWalk.
Import LiquityMath.
Local Open Scope Z_scope.

(** ** What the stakers are entitled to *)

(** The sum over the stakes of what a running sum [F] has grown by since the snapshot, scaled by [DECIMAL_PRECISION]. *)
Definition entitled (F : Z) (sn : StakeSnapshot -> Z) (k : Staking) : Z :=
  total (fun a n => n * (F - sn (stake_snapshot k a))) (zero_stakes k).

(** A stake changes and its snapshot is taken anew. *)
Definition restaked (k : Staking) (sender : address) (new n : Z) : Staking :=
  set_stakes (_updateUserSnapshots k sender) (<[sender := new]> (zero_stakes k)) n.

Lemma snapshot_restaked k sender new n a :
  stake_snapshot (restaked k sender new n) a = if decide (a = sender) then mkStakeSnapshot (F_ETH k) (F_ZUSD k) else stake_snapshot k a.
Proof.
  unfold stake_snapshot, restaked. cbn [set_stakes _updateUserSnapshots set_stake_snapshots stake_snapshots].
  case_decide as D; [subst; by rewrite lookup_insert_eq|by rewrite lookup_insert_ne].
Qed.

(** The others keep their shares, the staker's is settled. *)
Lemma entitled_restaked F sn k sender new n : sn (mkStakeSnapshot (F_ETH k) (F_ZUSD k)) = F ->
  entitled F sn (restaked k sender new n) = entitled F sn k - stake_of k sender * (F - sn (stake_snapshot k sender)).
Proof.
  intros E. unfold entitled. cbn [restaked set_stakes zero_stakes]. set (f := fun a m => m * (F - sn (stake_snapshot k a))).
  assert (total (fun a m => m * (F - sn (stake_snapshot (restaked k sender new n) a))) (<[sender := new]> (zero_stakes k))
    = total f (<[sender := 0]> (zero_stakes k))) as ->.
  - set (f' := fun a m => _). assert (forall m, f' sender m = 0) as Z0 by (intros m; unfold f'; rewrite snapshot_restaked, decide_True, E by done; lia).
    transitivity (total f' (<[sender := 0]> (zero_stakes k))); [rewrite !(total_insert f' _ _ _ 0), !Z0 by apply Z0; lia|].
    apply total_ext. intros a x Hx. destruct (decide (a = sender)) as [->|Na]; [|unfold f', f; by rewrite snapshot_restaked, decide_False by done].
    rewrite lookup_insert_eq in Hx. injection Hx as <-. rewrite Z0. unfold f. lia.
  - rewrite (total_insert f _ _ _ 0) by (unfold f; lia). unfold f at 2 3, stake_of. lia.
Qed.

(** The running sum grows. *)
Lemma entitled_grown F per sn k k' : zero_stakes k' = zero_stakes k -> stake_snapshots k' = stake_snapshots k ->
  entitled (F + per) sn k' = entitled F sn k + per * total (fun _ n => n) (zero_stakes k).
Proof.
  intros E1 E2. unfold entitled. rewrite E1, <- total_scale, <- total_add. apply total_ext. intros a x _.
  replace (stake_snapshot k' a) with (stake_snapshot k a) by (unfold stake_snapshot; by rewrite E2). lia.
Qed.

(** The fee per stake, times the stakes, is at most the fee. *)
Lemma per_share fee n : 0 <= fee -> 0 < n -> fee * DECIMAL_PRECISION / n * n <= DECIMAL_PRECISION * fee.
Proof. intros Hf Hn. pose proof (Z.mul_div_le (fee * DECIMAL_PRECISION) n Hn). lia. Qed.

(** What is paid for a share is at most the share. *)
Lemma share_paid x : DECIMAL_PRECISION * (x / DECIMAL_PRECISION) <= x.
Proof. by apply Z.mul_div_le. Qed.

(** ** The assertion *)

Section Backing.
Context (w : Wiring) (N : NoDup (core w)) (Nc : feeSharingCollector w ∉ core w).
Abbreviation stakers := (zeroStaking w).

Record stakes_ok (k : Staking) : Prop := {
  st_word a : is_uint (stake_of k a);
  st_total : totalZEROStaked k = total (fun _ n => n) (zero_stakes k);
  st_total_word : is_uint (totalZEROStaked k);
  st_F_ETH : is_uint (F_ETH k);
  st_F_ZUSD : is_uint (F_ZUSD k);
  st_ETH_snapshot a : 0 <= F_ETH_Snapshot (stake_snapshot k a) <= F_ETH k;
  st_ZUSD_snapshot a : 0 <= F_ZUSD_Snapshot (stake_snapshot k a) <= F_ZUSD k }.

(** The contract holds what it owes and [dz] tokens and [de] of ether more. *)
Record backed (dz de : Z) (s : System) : Prop := {
  ba_wiring : wiring s = w;
  ba_stakes : stakes_ok (staking s);
  ba_balance : is_uint (balance (zusd s) stakers);
  ba_none a : allowance (zusd s) stakers a = 0;
  ba_ZUSD : entitled (F_ZUSD (staking s)) F_ZUSD_Snapshot (staking s) + DECIMAL_PRECISION * dz <= DECIMAL_PRECISION * balance (zusd s) stakers;
  ba_ETH : entitled (F_ETH (staking s)) F_ETH_Snapshot (staking s) + DECIMAL_PRECISION * de <= DECIMAL_PRECISION * ether_of s stakers }.

Abbreviation ok := (backed 0 0).
Abbreviation step := (fun _ _ : System => True).
Abbreviation safe := (leads ok step anything).

(** *** The token *)

(** What a change of the token may do to the contract: it gains [d]. *)
Definition token_pays (d : Z) (f : Token -> result Token) : Prop := forall t t',
  is_uint (balance t stakers) -> (forall a, allowance t stakers a = 0) -> f t = Ok t' ->
  is_uint (balance t' stakers) /\ (forall a, allowance t' stakers a = 0) /\ balance t stakers + d <= balance t' stakers.

Lemma token_backed d dz de g msg f s r s' : token_pays d f -> backed dz de s -> token_call g msg f s = Ok (r, s') -> backed (dz + d) de s'.
Proof.
  intros F B H. unfold token_call in H. inv_result. destruct B as [B1 B2 B3 B4 B5 B6].
  match goal with E : f _ = Ok ?t |- _ => destruct (F _ _ B3 B4 E) as (F1 & F2 & F3) end. split; try done. cbn [staking zusd with_zusd]. unfold DECIMAL_PRECISION in *. lia.
Qed.

Lemma safe_pays d g msg f : token_pays d f -> 0 <= d -> safe (token_call g msg f).
Proof.
  intros F Hd s r s' B H. split_and!; [|done|done]. pose proof (token_backed _ _ _ _ _ _ _ _ _ F B H) as [B1 B2 B3 B4 B5 B6]. split; try done.
  unfold DECIMAL_PRECISION in *. lia.
Qed.

Lemma tame_pays f : tame w f -> token_pays 0 f.
Proof. intros F t t' U1 U2 H. destruct (F t t' stakers (or_intror eq_refl) U1 H) as (V1 & V2 & V3). setoid_rewrite V3. split_and!; (done || lia). Qed.

Lemma transfer_pays a b n : a <> stakers -> token_pays 0 (fun t => _transfer t a b n).
Proof.
  intros Na t t' U1 U2 H. unfold _transfer in H. inv_result. match goal with E : SafeMath.add _ _ = Ok _ |- _ => apply add_grows in E as [G1 G2] end.
  destruct (decide (b = stakers)) as [->|Nb].
  - rewrite balance_set_same. rewrite balance_set_other in G1 by done. split_and!; (done || lia).
  - rewrite !balance_set_other by done. split_and!; (done || lia).
Qed.

Lemma burn_pays a n : a <> stakers -> token_pays 0 (fun t => _burn t a n).
Proof.
  intros Na t t' U1 U2 H. unfold _burn in H. inv_result. change (balance (set_supply ?t _)) with (balance t). rewrite balance_set_other by done. split_and!; (done || lia).
Qed.

Lemma approve_pays owner spender n : owner <> stakers -> token_pays 0 (fun t => _approve t owner spender n).
Proof.
  intros No t t' U1 U2 H. pose proof (fun b => proj2 (allowance_approved _ _ _ _ _ stakers b H)) as E.
  destruct (allowance_approved _ _ _ _ _ stakers stakers H) as [-> _]. split_and!; [done| |lia]. intros b. by rewrite E, decide_False by congruence.
Qed.

(** Fees arrive, gains are paid. *)
Lemma receive_pays a n : a <> stakers -> is_uint n -> token_pays n (fun t => _transfer t a stakers n).
Proof.
  intros Na Un t t' U1 U2 H. unfold _transfer in H. inv_result.
  match goal with E : SafeMath.add _ _ = Ok _ |- _ => rewrite balance_set_other in E by done; destruct (add_Ok _ _ _ U1 Un E) as (-> & V) end.
  rewrite balance_set_same. split_and!; (done || lia).
Qed.

Lemma payment_pays b n : b <> stakers -> is_uint n -> token_pays (- n) (fun t => _transfer t stakers b n).
Proof.
  intros Nb Un t t' U1 U2 H. unfold _transfer in H. inv_result.
  match goal with E : SafeMath.sub (balance _ _) _ = Ok _ |- _ => destruct (sub_Ok _ _ _ U1 Un E) as (-> & L & U) end.
  rewrite balance_set_other, balance_set_same by done. split_and!; (done || lia).
Qed.

(** Nobody may take tokens of the contract. *)
Lemma transferFrom_pays spender a b n : is_uint n -> token_pays 0 (fun t =>
  let! t := _transfer t a b n in let! k := SafeMath.sub (allowance t a spender) n in _approve t a spender k).
Proof.
  intros Un t t' U1 U2 H. apply bind_Ok_inv in H as (t1 & H1 & H). apply bind_Ok_inv in H as (k & Hk & H).
  destruct (decide (a = stakers)) as [->|Na].
  - assert (_allowances t1 = _allowances t) as Ea by (unfold _transfer in H1; by inv_result).
    assert (allowance t1 stakers spender = 0) as A0 by (unfold allowance; rewrite Ea; apply U2).
    rewrite A0 in Hk. destruct (sub_Ok _ _ _ zero_uint Un Hk) as (-> & L & Uk). assert (n = 0) as -> by (unfold is_uint in Un; lia).
    assert (is_uint (balance t1 stakers) /\ balance t stakers <= balance t1 stakers) as [V1 V2].
    { destruct (decide (b = stakers)) as [->|Nb].
      - unfold _transfer in H1. inv_result. match goal with E : SafeMath.add _ _ = Ok _ |- _ => apply add_grows in E as [G1 G2] end.
        match goal with E : SafeMath.sub _ _ = Ok _ |- _ => destruct (sub_Ok _ _ _ U1 Un E) as (-> & _) end. rewrite balance_set_same in *. split; [done|lia].
      - destruct (payment_pays b 0 Nb Un t t1 U1 U2 H1) as (V1 & _ & V2). split; [done|lia]. }
    pose proof (fun x => proj2 (allowance_approved _ _ _ _ _ stakers x H)) as E. destruct (allowance_approved _ _ _ _ _ stakers stakers H) as [-> _].
    split_and!; [done| |lia]. intros x. rewrite E. case_decide; [lia|]. unfold allowance. rewrite Ea. apply U2.
  - destruct (transfer_pays a b n Na t t1 U1 U2 H1) as (V1 & V2 & V4). destruct (approve_pays a spender k Na t1 t' V1 V2 H) as (W1 & W2 & W4).
    split_and!; (done || lia).
Qed.

(** *** Stakes and fees *)

(** A stake changes: what its holder is paid is free now. *)
Lemma backed_restaked s sender new n gE gZ : ok s -> is_uint new -> is_uint n -> n = totalZEROStaked (staking s) - stake_of (staking s) sender + new ->
  DECIMAL_PRECISION * gE <= stake_of (staking s) sender * (F_ETH (staking s) - F_ETH_Snapshot (stake_snapshot (staking s) sender)) ->
  DECIMAL_PRECISION * gZ <= stake_of (staking s) sender * (F_ZUSD (staking s) - F_ZUSD_Snapshot (stake_snapshot (staking s) sender)) ->
  backed gZ gE (with_staking s (restaked (staking s) sender new n)).
Proof.
  intros [B1 [K1 K2 K3 K4 K5 K6 K7] B3 B4 B5 B6] Un Ut En HE HZ. split; try done; cbn [staking with_staking zusd].
  - split; try done.
    + intros a. unfold stake_of, restaked. cbn [set_stakes zero_stakes]. destruct (decide (a = sender)) as [->|Na]; [by rewrite lookup_insert_eq|].
      rewrite lookup_insert_ne by done. apply K1.
    + cbn [restaked set_stakes totalZEROStaked zero_stakes]. rewrite (total_insert _ _ _ _ 0) by done. rewrite En, K2. unfold stake_of. lia.
    + intros a. rewrite snapshot_restaked. cbn [restaked set_stakes _updateUserSnapshots set_stake_snapshots F_ETH]. case_decide; [|apply K6].
      cbn. unfold is_uint in K4. lia.
    + intros a. rewrite snapshot_restaked. cbn [restaked set_stakes _updateUserSnapshots set_stake_snapshots F_ZUSD]. case_decide; [|apply K7].
      cbn. unfold is_uint in K5. lia.
  - cbn [restaked set_stakes _updateUserSnapshots set_stake_snapshots F_ZUSD]. change (set_stakes _ _ _) with (restaked (staking s) sender new n).
    rewrite entitled_restaked by done. lia.
  - cbn [restaked set_stakes _updateUserSnapshots set_stake_snapshots F_ETH]. change (set_stakes _ _ _) with (restaked (staking s) sender new n).
    rewrite entitled_restaked by done. change (ether_of (with_staking s _)) with (ether_of s). lia.
Qed.

Lemma snapshot_word F sn : is_uint F -> 0 <= sn <= F -> is_uint sn.
Proof. unfold is_uint. lia. Qed.

Lemma pending_covered st F sn g : is_uint st -> is_uint F -> 0 <= sn <= F -> pending_gain st F sn = Ok g -> DECIMAL_PRECISION * g <= st * (F - sn).
Proof. intros U1 U2 Hs H. destruct (pending_gain_Ok _ _ _ _ U1 U2 (snapshot_word _ _ U2 Hs) H) as (_ & _ & ->). apply share_paid. Qed.

(** The shares of a fee are at most the fee. *)
Lemma per_bound s fee per : is_uint fee -> is_uint (totalZEROStaked (staking s)) -> per_ZERO s fee = Ok per ->
  is_uint per /\ per * totalZEROStaked (staking s) <= DECIMAL_PRECISION * fee.
Proof.
  intros Uf Ut Hp. unfold per_ZERO in Hp. destruct (Z.ltb_spec 0 (totalZEROStaked (staking s))) as [L|L].
  - inv_result. safe_math. split; [done|]. apply per_share; [apply Uf|done].
  - injection Hp as <-. split; [apply zero_uint|]. unfold is_uint, DECIMAL_PRECISION in *. lia.
Qed.

(** A fee that has arrived is shared. *)
Lemma backed_F_ZUSD s me fee r s' : is_uint fee -> backed fee 0 s -> increaseF_ZUSD me fee s = Ok (r, s') -> ok s'.
Proof.
  intros Uf [B1 [K1 K2 K3 K4 K5 K6 K7] B3 B4 B5 B6] H. unfold increaseF_ZUSD in H. apply bind_Ok_inv in H as (x & _ & H).
  apply bind_Ok_inv in H as (per & Hp & H). apply bind_Ok_inv in H as (n & Hn & [= <- <-]).
  destruct (per_bound s fee per Uf K3 Hp) as [Up Lp].
  destruct (add_Ok _ _ _ K5 Up Hn) as (-> & Un). split; try done; cbn [staking with_staking].
  - split; try done. intros a. specialize (K7 a). unfold is_uint in Up. cbn [set_F_ZUSD F_ZUSD]. change (stake_snapshot (set_F_ZUSD _ _)) with (stake_snapshot (staking s)). lia.
  - cbn [set_F_ZUSD F_ZUSD]. rewrite (entitled_grown _ _ _ (staking s)), <- K2 by done. cbn [zusd with_staking]. lia.
Qed.

Lemma backed_F_ETH s me fee r s' : is_uint fee -> backed 0 fee s -> increaseF_ETH me fee s = Ok (r, s') -> ok s'.
Proof.
  intros Uf [B1 [K1 K2 K3 K4 K5 K6 K7] B3 B4 B5 B6] H. unfold increaseF_ETH in H. apply bind_Ok_inv in H as (x & _ & H).
  apply bind_Ok_inv in H as (per & Hp & H). apply bind_Ok_inv in H as (n & Hn & [= <- <-]).
  destruct (per_bound s fee per Uf K3 Hp) as [Up Lp].
  destruct (add_Ok _ _ _ K4 Up Hn) as (-> & Un). split; try done; cbn [staking with_staking].
  - split; try done. intros a. specialize (K6 a). unfold is_uint in Up. cbn [set_F_ETH F_ETH]. change (stake_snapshot (set_F_ETH _ _)) with (stake_snapshot (staking s)). lia.
  - cbn [set_F_ETH F_ETH]. rewrite (entitled_grown _ _ _ (staking s)), <- K2 by done. change (ether_of (with_staking s _)) with (ether_of s). lia.
Qed.

(** ** The operations *)

Lemma same_backed s s' : ok s -> same_funds w s s' -> ok s'.
Proof. intros [] (E1 & E2 & E3 & E4 & _). split; rewrite ?E2, ?E3, ?E4; done. Qed.

(** The ether of the contract changes. *)
Lemma pay_backed dz de from to n s r s' : backed dz de s -> pay from to n s = Ok (r, s') ->
  backed dz (de - (if decide (from = stakers) then n else 0) + (if decide (to = stakers) then n else 0)) s'.
Proof.
  intros [B1 B2 B3 B4 B5 B6] H. apply pay_Ok in H as (_ & e & -> & _ & Ee). split; try done. cbn [staking with_ether].
  change (ether_of (with_ether s e) stakers) with (default 0 (e !! stakers)). rewrite Ee.
  repeat case_decide; try congruence; unfold DECIMAL_PRECISION in *; lia.
Qed.

#[export] Instance stakers_guarded : Guarded w ok step.
Proof.
  split; try done.
  - apply ba_wiring.
  - intros s s' B F. split; [by apply (same_backed s)|done].
  - intros from to n Nf Hn s r s' B H. split_and!; [|done|done]. apply (pay_backed _ _ _ _ _ _ _ _ B) in H as [C1 C2 C3 C4 C5 C6]. split; try done.
    rewrite decide_False in C6 by done. unfold DECIMAL_PRECISION in *. case_decide; lia.
  - intros g msg f F. by apply (safe_pays 0), Z.le_refl; apply tame_pays.
  - intros spender a b n U. by apply (safe_pays 0), Z.le_refl; apply transferFrom_pays.
Qed.

Section Operations.
Context (W : World) (recv : address -> address -> Z -> call System unit).
Context (Hrecv : forall from to n, safe (recv from to n)).

(** Deposits do not matter here. *)
Lemma calm_pool f : safe (pool_call f).
Proof. intros s r s' B H. apply pool_call_Ok in H as (p & _ & ->). split_and!; [by destruct B|done|done]. Qed.
Lemma calm_moves g msg a b n : a <> stakers -> safe (token_call g msg (fun t => _transfer t a b n)).
Proof. intros Na. apply (safe_pays 0); [|done]. by apply transfer_pays. Qed.
Lemma calm_burn me a n : a <> stakers -> safe (burn me a n).
Proof. intros Na. apply (safe_pays 0); [|done]. by apply burn_pays. Qed.
Lemma calm_approve a b n : a <> stakers -> safe (approve a b n).
Proof. intros Na. apply (safe_pays 0); [|done]. by apply approve_pays. Qed.

#[local] Hint Resolve calm_pool calm_moves calm_burn calm_approve : safe.
#[local] Hint Extern 1 (leads _ _ _ _) => (apply (inert_safe w ok step); solve [eauto 8 with inert safe]) : safe.
#[local] Hint Extern 2 (leads _ _ _ _) => (apply (safe_sendETH w N ok step recv Hrecv)) : safe.
#[local] Hint Extern 2 (leads _ _ _ _) => (apply (safe_sendGain w N ok step recv Hrecv)) : safe.
#[local] Hint Extern 2 (leads _ _ _ _) => (apply (safe_check w ok step)) : safe.
#[local] Hint Extern 2 (leads _ _ _ _) => (apply (safe_outside w ok step)) : safe.

(** One call after the other. *)
Ltac walk := repeat match goal with |- leads _ _ _ (call_bind _ _) => apply (safe_bind w ok step); [solve [auto with safe]|intros ?] end.

(** *** The Stability Pool *)

Lemma calm_burnNothing : safe (_burnZusdAndDecreaseActivePoolDebt (stabilityPool w) 0).
Proof. unfold _burnZusdAndDecreaseActivePoolDebt, this. walk. apply calm_burn, pool_stakers, N. Qed.

Lemma calm_supply sender n : unaccounted w sender -> safe (_sendZUSDtoStabilityPool sender n).
Proof. intros [_ Ns]. unfold _sendZUSDtoStabilityPool, this_pool, sendToPool. walk. apply calm_pool. Qed.

Lemma calm_return receiver n : safe (_sendZUSDToDepositor receiver n).
Proof.
  unfold _sendZUSDToDepositor, this_pool. destruct (n =? 0); [auto with safe|]. apply (safe_contract w ok step stabilityPool).
  pose proof (pool_stakers w N). apply (safe_bind w ok step); [by apply calm_moves|intros _; apply calm_pool].
Qed.
#[local] Hint Resolve calm_return : safe.

Lemma calm_offset me debt coll : safe (offset W recv me debt coll).
Proof.
  unfold offset, pool_view. walk. case_match; [auto with safe|]. walk. unfold _moveOffsetCollAndDebt, this_pool. apply (safe_contract w ok step stabilityPool).
  pose proof (pool_stakers w N). walk. apply (safe_bind w ok step); [apply calm_pool|intros _]. walk. auto with safe.
Qed.

Lemma calm_withdrawTo sender n receiver : safe (_withdrawFromSpTo W recv sender n receiver).
Proof. unfold _withdrawFromSpTo, pool_view, _payOutZEROGains. cbv zeta. walk. auto with safe. Qed.

Lemma calm_convert sender n : safe (withdrawFromSpAndConvertToDLLR W recv sender n).
Proof.
  unfold withdrawFromSpAndConvertToDLLR, this_pool. apply (safe_contract w ok step stabilityPool). walk. pose proof (pool_stakers w N).
  apply (safe_bind w ok step); [apply calm_withdrawTo|intros ?]. unfold mint_DLLR. apply (safe_bind w ok step); [|intros ?; auto with safe].
  apply (safe_bind w ok step); [by apply calm_approve|intros ?]. apply (good_safe ok step is_uint), (answer_good w ok step).
Qed.

(** *** Fees *)

Lemma collector_stakers : feeSharingCollector w <> stakers.
Proof. intros E. apply Nc. rewrite E. unfold core. rewrite !elem_of_cons. tauto. Qed.

(** The stakers' part arrives and is shared. *)
Lemma calm_distributeZUSD n : safe (_distributeZUSD W n).
Proof.
  at_wiring w (@_distributeZUSD). pose proof (distributor_unaccounted w N) as Ud. walk. apply (safe_bind w ok step); [by apply calm_approve, Ud|intros _].
  apply (safe_bind w ok step); [solve [auto with safe]|intros _].
  intros s1 r1 s1' B H. pure H as rest Hr. apply sub_word in Hr. destruct (negb _); [|by injection H as _ <-].
  run H as x s2 H2. split_and!; [|done|done]. apply (token_backed rest 0 0) in H2; [|apply receive_pays; [apply Ud|done]|done].
  by apply (backed_F_ZUSD _ _ _ _ _ Hr H2 H).
Qed.

Lemma calm_distributeRBTC n : safe (_distributeRBTC W recv n).
Proof.
  at_wiring w (@_distributeRBTC). pose proof (distributor_unaccounted w N) as Ud. walk.
  apply (safe_bind w ok step); [apply (inert_safe w ok step), inert_pay; [apply Ud|apply collector_stakers]|intros _].
  apply (safe_bind w ok step); [solve [auto with safe]|intros _].
  intros s1 r1 s1' B H. pure H as rest Hr. apply sub_word in Hr. destruct (negb _); [|by injection H as _ <-].
  run H as x s2 H2. split_and!; [|done|done]. apply or_revert_Ok in H2. unfold transfer in H2. run H2 as y s3 H3.
  apply (pay_backed _ _ _ _ _ _ _ _ B) in H3. rewrite decide_False, decide_True in H3 by (done || apply Ud).
  assert (s2 = s3) as ->.
  { assert (is_core s3 stakers = true) as C by (apply bool_decide_eq_true_2; rewrite (ba_wiring _ _ _ H3); unfold core; rewrite !elem_of_cons; tauto).
    rewrite C in H2. unfold receive_core in H2. rewrite (ba_wiring _ _ _ H3) in H2. cbv zeta in H2. revert H2. decide_core N. cbn. congruence. }
  by apply (backed_F_ETH _ _ _ _ _ Hr H3 H).
Qed.

Lemma calm_distribute me : safe (distributeFees W recv me).
Proof.
  at_wiring w (@distributeFees). apply (safe_bind w ok step); [|intros _]; (destruct (negb _); [|auto with safe]);
    [apply calm_distributeZUSD|apply calm_distributeRBTC].
Qed.

(** *** Stakes *)

Lemma calm_payout sender gz ge s r s' : outsider w sender -> is_uint gz -> backed gz ge s ->
  (let$ _ := token_transfer stakers sender gz in _sendETHGainToUser recv sender ge) s = Ok (r, s') -> ok s'.
Proof.
  intros O Uz B H. pose proof (proj2 (outsider_unaccounted w sender O)) as Ns. run H as x s1 H1.
  apply (token_backed (- gz) _ _ _ _ _ _ _ _ (payment_pays sender gz Ns Uz) B) in H1. rewrite Z.add_opp_diag_r in H1.
  unfold _sendETHGainToUser, this_staking in H. view H as me Hme. injection Hme as <-. rewrite (ba_wiring _ _ _ H1) in H. apply or_revert_Ok in H.
  unfold transfer in H. run H as y s2 H2. apply (pay_backed _ _ _ _ _ _ _ _ H1) in H2. rewrite decide_True, decide_False, Z.sub_diag in H2 by done.
  assert (is_core s2 sender = false) as C by (apply bool_decide_eq_false_2; by rewrite (ba_wiring _ _ _ H2)). rewrite C in H.
  by apply (Hrecv stakers sender ge s2 r).
Qed.

Lemma calm_stake sender n : outsider w sender -> is_uint n -> safe (stake recv sender n).
Proof.
  intros O Un s r s' B H. split_and!; [|done|done]. unfold stake, this_staking, sendToZEROStaking in H. view H as me Hme. injection Hme as <-.
  rewrite (ba_wiring _ _ _ B) in H. pure H as x1 Hn. view H as old Hold. injection Hold as <-. view H as gE HE. view H as gZ HZ.
  run H as x2 s1 H1. apply staking_call_Ok in H1 as (k1 & [= <-] & ->). pure H as new Hnew. run H as x3 s2 H2.
  apply staking_call_Ok in H2 as (k2 & H2 & ->). apply bind_Ok_inv in H2 as (total_ & Htot & [= <-]). view H as x4 K4. destruct (ba_stakes _ _ _ B) as [K1 K2 K3 _ _ K6 K7].
  destruct (add_Ok _ _ _ (K1 sender) Un Hnew) as (-> & Unew), (add_Ok _ _ _ K3 Un Htot) as (-> & Utot).
  pose proof (fun gE gZ => backed_restaked s sender _ _ gE gZ B Unew Utot ltac:(cbn; lia)) as R.
  destruct (Z.eqb_spec (stake_of (staking s) sender) 0) as [E0|N0]; cbn [negb] in *.
  - injection HE as <-. injection HZ as <-. injection H as _ <-. apply (R 0 0); rewrite E0; lia.
  - apply (calm_payout sender gZ gE _ r s' O (pending_gain_word _ _ _ _ HZ)) in H; [done|].
    apply R; [apply pending_covered; [..|exact HE]|apply pending_covered; [..|exact HZ]]; (apply B || apply K1 || apply K6 || apply K7).
Qed.

Lemma calm_unstake sender n : outsider w sender -> is_uint n -> safe (ZEROStaking.unstake recv sender n).
Proof.
  intros O Un s r s' B H. split_and!; [|done|done]. unfold ZEROStaking.unstake, this_staking in H. view H as me Hme. injection Hme as <-.
  rewrite (ba_wiring _ _ _ B) in H. view H as old Hold. injection Hold as <-. pure H as x1 Hn. apply require_Ok, Z.ltb_lt in Hn.
  view H as gE HE. view H as gZ HZ. run H as x2 s1 H1. apply staking_call_Ok in H1 as (k1 & [= <-] & ->). run H as x3 s2 H2.
  destruct (unstake_stakes sender s n x3 s2 Hn H2) as (new & total_ & -> & Hout). destruct (ba_stakes _ _ _ B) as [K1 K2 K3 K4 K5 K6 K7].
  assert (is_uint new /\ is_uint total_ /\ total_ = totalZEROStaked (staking s) - stake_of (staking s) sender + new) as (U1 & U2 & E).
  { cbv zeta in Hout. destruct Hout as [[H3 H4]|(_ & -> & ->)]; [|split_and!; [apply K1|done|lia]]. set (out := if 0 <? n then _ else 0) in *.
    assert (is_uint out) as Uo by (unfold out, _min; repeat case_match; try apply K1; done || apply zero_uint).
    destruct (sub_Ok _ _ _ (K1 sender) Uo H3) as (-> & _ & U1), (sub_Ok _ _ _ K3 Uo H4) as (-> & _ & U2). split_and!; try done. lia. }
  apply (calm_payout sender gZ gE _ r s' O (pending_gain_word _ _ _ _ HZ)) in H; [done|]. apply (backed_restaked s sender new total_ gE gZ B U1 U2 E);
    [apply pending_covered; [..|exact HE]|apply pending_covered; [..|exact HZ]]; (done || apply K1 || apply K6 || apply K7).
Qed.
End Operations.

#[export] Instance stakers_accounted : Accounted w ok step.
Proof.
  split.
  - apply stakers_guarded.
  - apply calm_burnNothing.
  - intros sender n U _. by apply calm_supply.
  - intros W recv me debt coll R _. by apply calm_offset.
  - intros W recv sender n R _. apply (safe_bind w ok step); [by apply calm_withdrawTo|intros ?]. by apply (ret_good w ok step).
  - intros W recv sender n R _. by apply calm_convert.
  - intros W recv me R. by apply calm_distribute.
  - intros recv sender n R. by apply calm_stake.
  - intros recv sender n R. by apply calm_unstake.
Qed.
End Backing.

(** ** From deployment *)

(** What the views of the contract answer for a staker. *)
Definition answered_gain (r : result Z) : Z := match r with Ok g => g | Throw _ => 0 end.

Lemma total_le {A} (f g : address -> A -> Z) (m : gmap address A) : (forall a x, m !! a = Some x -> f a x <= g a x) -> total f m <= total g m.
Proof.
  intros H. enough (0 <= total (fun a x => g a x + -1 * f a x) m) as L by (rewrite total_add, total_scale in L; lia).
  apply total_nonneg. intros a x Hx. specialize (H a x Hx). lia.
Qed.

(** The answers add up to at most what all are entitled to. *)
Lemma answered_entitled (F : Z) (sn : StakeSnapshot -> Z) k : (forall a, is_uint (stake_of k a)) -> is_uint F -> (forall a, 0 <= sn (stake_snapshot k a) <= F) ->
  DECIMAL_PRECISION * total (fun a _ => answered_gain (pending_gain (stake_of k a) F (sn (stake_snapshot k a)))) (zero_stakes k) <= entitled F sn k.
Proof.
  intros U UF Hs. unfold entitled. rewrite <- total_scale. apply total_le. intros a x Hx. assert (stake_of k a = x) as E by (unfold stake_of; by rewrite Hx).
  rewrite <- E. destruct (pending_gain _ _ _) as [g|] eqn:G; cbn [answered_gain]; [by apply (pending_covered _ _ _ g)|].
  pose proof (proj1 (U a)). specialize (Hs a). nia.
Qed.

Lemma genesis_backed w p maxSize share price time c o e f : 0 <= default 0 (e !! zeroStaking w) ->
  backed w 0 0 (genesis w p maxSize share price time c o e f).
Proof.
  intros E. pose proof zero_uint. split; try done. cbn [genesis staking]. unfold entitled. cbn [empty_staking zero_stakes]. rewrite total_empty.
  unfold ether_of. cbn [genesis ether]. unfold DECIMAL_PRECISION. lia.
Qed.

(** C6: After any transactions of any accounts on freshly deployed contracts, with the
    code of any account that is paid, the staking contract holds the ZUSD and the ether
    that its views promise to all stakers together, its recorded total is the sum of the
    stakes, and nobody may take its tokens. *)
Theorem stakers_backed depth txs w p maxSize share price time c o e f : deployed w p share price time e = true ->
  let now_ := history depth txs (genesis w p maxSize share price time c o e f) in
  let k := staking now_ in
  total (fun a _ => answered_gain (_getPendingZUSDGain k a)) (zero_stakes k) <= balance (zusd now_) (zeroStaking w) /\
  total (fun a _ => answered_gain (_getPendingETHGain k a)) (zero_stakes k) <= ether_of now_ (zeroStaking w) /\
  totalZEROStaked k = total (fun _ n => n) (zero_stakes k) /\
  forall a, allowance (zusd now_) (zeroStaking w) a = 0.
Proof.
  intros D now_ k. unfold deployed in D. rewrite !andb_true_iff, !bool_decide_eq_true in D. destruct D as [[[[[[[[[[[[N _] Nc] _] _] _] _] _] _] _] _] He] _].
  assert (0 <= default 0 (e !! zeroStaking w)) as E.
  { destruct (e !! zeroStaking w) as [x|] eqn:Hx; [|done]. rewrite forallb_forall in He. apply Z.leb_le. cbn.
    apply (He (zeroStaking w, x)). by apply list_elem_of_In, elem_of_map_to_list. }
  pose proof (stakers_accounted w N Nc) as Acc. destruct (history_ok w N _ _ depth txs _ (genesis_backed w p maxSize share price time c o e f E)) as [B _].
  fold now_ in B. destruct B as [_ [K1 K2 K3 K4 K5 K6 K7] B3 B4 B5 B6].
  pose proof (answered_entitled _ _ k K1 K5 K7) as Lz. pose proof (answered_entitled _ _ k K1 K4 K6) as Le.
  unfold k in *. unfold _getPendingZUSDGain, _getPendingETHGain. unfold DECIMAL_PRECISION in *. split_and!; [lia|lia|done|done].
Qed.

(** Two stakers share a borrowing fee; one of them has left. *)
Definition staking_txs : list (Code * Call) :=
  map (fun x => (sample_code, mkCall sample_world (fst x) (snd x)))
    [("0xS", Stake 300); ("0xT", Stake 100); ("0xB", OpenTrove (2 * 10 ^ 18) (10 ^ 18) (10000 * 10 ^ 18) address0 address0); ("0xS", Unstake 300)].

Lemma stakers_backed_witness :
  let now_ := history 1 staking_txs (genesis sample_wiring initial_params 1000 (10 ^ 17) (20000 * 10 ^ 18) 1500000000 sample_community ∅ sample_ether ∅) in
  0 < answered_gain (_getPendingZUSDGain (staking now_) "0xT") <= balance (zusd now_) "0xZS" /\ 0 < balance (zusd now_) "0xS".
Proof.
  intros now_. split; [|by vm_compute]. split; [by vm_compute|].
  destruct (stakers_backed 1 staking_txs sample_wiring initial_params 1000 (10 ^ 17) (20000 * 10 ^ 18) 1500000000 sample_community ∅ sample_ether ∅) as [H _];
    [vm_compute; reflexivity|]. fold now_ in H. revert H. vm_compute. done.
Defined.

(** C39: Staking costs nothing: an account without a stake may stake any amount that
    does not overflow the total, whatever it owns, and nothing but the records of the
    stakes changes. *)
Theorem stake_costs_nothing recv sender n s : 0 < n -> is_uint n -> is_uint (totalZEROStaked (staking s)) ->
  totalZEROStaked (staking s) + n < UINT256 -> stake_of (staking s) sender = 0 ->
  stake recv sender n s = Ok (tt, with_staking s (restaked (staking s) sender n (totalZEROStaked (staking s) + n))).
Proof.
  intros Hn Un Ut L E. assert (SafeMath.add 0 n = Ok n) as A0 by (rewrite add_cases by (done || apply zero_uint); case_Zb; [done|unfold is_uint in Un; lia]).
  assert (SafeMath.add (totalZEROStaked (staking s)) n = Ok (totalZEROStaked (staking s) + n)) as A1 by (rewrite add_cases by done; case_Zb; [done|lia]).
  apply Z.ltb_lt in Hn. unfold stake, this_staking, staking_call, sendToZEROStaking, call_bind, view_call, pure_call. cbn.
  rewrite Hn. cbn. rewrite E. cbn. rewrite A0. cbn. rewrite A1. cbn. by rewrite same_refl.
Qed.

Lemma stake_costs_nothing_witness :
  stake (fun _ _ _ => call_ret tt) "0xZ" (10 ^ 30) sample_genesis = Ok (tt, with_staking sample_genesis (restaked (staking sample_genesis) "0xZ" (10 ^ 30) (10 ^ 30))).
Proof.
  apply (stake_costs_nothing (fun _ _ _ => call_ret tt) "0xZ" (10 ^ 30) sample_genesis); [done|by apply is_word_uint|apply zero_uint| |done].
  by apply Z.ltb_lt; vm_compute.
Defined.
