(* ===== verification/Setters.v ===== *)
(** * Contracts before they are connected

    What a network keeps of a contract until the protocol runs: its code, the
    implementation a proxy delegates to (Proxy/Proxy.sol, Proxy/UpgradableProxy.sol), its
    owner (Dependencies/Ownable.sol), whether it is initialized
    (Dependencies/Initializable.sol) and the addresses and numbers that the functions of
    this file set: one definition per [setAddresses], [setParams] or [initialize]. *)

From S2P Require Import Prelude Solidity SortedTroves ChainState.
Import LiquityMath.
Local Open Scope Z_scope.

(** The contracts of the protocol, as keys of the deployment. *)
Inductive Contract : Type :=
| ActivePool_ | BorrowerOperations_ | TroveManager_ | TroveManagerRedeemOps_ | CollSurplusPool_ | CommunityIssuance_
| DefaultPool_ | HintHelpers_ | ZEROStaking_ | PriceFeed_ | SortedTroves_ | StabilityPool_ | GasPool_ | LiquityBaseParams_
| FeeDistributor_ | ZUSDToken_ | ZEROToken_ | MultiTroveGetter_.

#[export] Instance Contract_eq : EqDecision Contract.
Proof. solve_decision. Defined.

(** What runs at an address. *)
Inductive Bytecode : Type :=
| Logic (c : Contract)
| PriceFeedTestnet_
| UpgradableProxy_
| Other (name : string).

Record Account : Type := mkAccount {
  bytecode : Bytecode;
  implementation : address;
  owner : address;
  initialized : bool;
  slots : gmap string address;
  numbers : gmap string Z }.

Definition set_implementation (x : Account) (a : address) : Account :=
  mkAccount (bytecode x) a (owner x) (initialized x) (slots x) (numbers x).
Definition set_owner (x : Account) (a : address) : Account :=
  mkAccount (bytecode x) (implementation x) a (initialized x) (slots x) (numbers x).
Definition set_initialized (x : Account) : Account :=
  mkAccount (bytecode x) (implementation x) (owner x) true (slots x) (numbers x).

(** Storage is written one variable after the other. *)
Definition write_slots (x : Account) (l : list (string * address)) : Account :=
  mkAccount (bytecode x) (implementation x) (owner x) (initialized x)
    (fold_left (fun m p => <[p.1 := p.2]> m) l (slots x)) (numbers x).
Definition write_numbers (x : Account) (l : list (string * Z)) : Account :=
  mkAccount (bytecode x) (implementation x) (owner x) (initialized x) (slots x)
    (fold_left (fun m p => <[p.1 := p.2]> m) l (numbers x)).

(** ** Modifiers and checks *)

(** The constructor of Ownable makes the deployer the owner. *)
Definition ownable (b : Bytecode) : bool :=
  match b with
  | Logic GasPool_ | Logic ZEROToken_ | PriceFeedTestnet_ | Other _ => false
  | _ => true
  end.

Definition only_owner (sender : address) (x : Account) : result unit := require (same sender (owner x)) "Ownable:: access denied".

(** [present] are the accounts with code. *)
Definition checkContract (present : gset address) (a : address) : result unit :=
  let! _ := require (negb (is_zero a)) "Account cannot be zero address" in
  require (bool_decide (a ∈ present)) "Account code size cannot be zero".

Fixpoint checkContracts (present : gset address) (l : list address) : result unit :=
  match l with
  | [] => Ok tt
  | a :: l => let! _ := checkContract present a in checkContracts present l
  end.

(** The modifier [initializer]: no initializer of the protocol calls another one. *)
Definition initializer (x : Account) : result Account :=
  let! _ := require (negb (initialized x)) "Contract instance has already been initialized" in Ok (set_initialized x).

(** Only the owner may set addresses; those in [checked] must be contracts. *)
Definition configure (present : gset address) (sender : address) (x : Account) (checked : list address) (l : list (string * address))
    : result Account :=
  let! _ := only_owner sender x in
  let! _ := checkContracts present checked in
  Ok (write_slots x l).

(** ** The setters *)

Section Setters.
Variables (present : gset address) (sender : address) (x : Account).

Definition activePool_setAddresses (bo tm sp dp : address) : result Account :=
  configure present sender x [bo; tm; sp; dp]
    [("borrowerOperationsAddress", bo); ("troveManagerAddress", tm); ("stabilityPoolAddress", sp); ("defaultPoolAddress", dp)].

Definition defaultPool_setAddresses (tm ap : address) : result Account :=
  configure present sender x [tm; ap] [("troveManagerAddress", tm); ("activePoolAddress", ap)].

Definition collSurplusPool_setAddresses (bo tm ap : address) : result Account :=
  configure present sender x [bo; tm; ap] [("borrowerOperationsAddress", bo); ("troveManagerAddress", tm); ("activePoolAddress", ap)].

Definition sortedTroves_setParams (size : Z) (tm bo : address) : result Account :=
  let! _ := only_owner sender x in
  let! _ := require (0 <? size) "SortedTroves: Size can’t be zero" in
  let! _ := checkContracts present [tm; bo] in
  Ok (write_numbers (write_slots x [("troveManager", tm); ("borrowerOperationsAddress", bo)]) [("data.maxSize", size)]).

Definition hintHelpers_setAddresses (lp st tm : address) : result Account :=
  configure present sender x [lp; st; tm] [("liquityBaseParams", lp); ("sortedTroves", st); ("troveManager", tm)].

(** Nothing is checked. *)
Definition multiTroveGetter_setAddresses (tm st : address) : result Account :=
  configure present sender x [] [("troveManager", tm); ("sortedTroves", st)].

Definition feeDistributor_setAddresses (fc zs bo tm wr zt ap : address) : result Account :=
  let! x := configure present sender x [fc; zs; bo; tm; wr; zt; ap]
    [("feeSharingCollector", fc); ("zeroStaking", zs); ("borrowerOperations", bo); ("troveManager", tm); ("wrbtc", wr);
     ("zusdToken", zt); ("activePoolAddress", ap)] in
  Ok (write_numbers x [("FEE_TO_FEE_SHARING_COLLECTOR", DECIMAL_PRECISION)]).

Definition borrowerOperations_setAddresses (fd lp tm ap dp sp gp cs pf st zt zs : address) : result Account :=
  configure present sender x [fd; lp; tm; ap; dp; sp; gp; cs; pf; st; zt; zs]
    [("feeDistributor", fd); ("liquityBaseParams", lp); ("troveManager", tm); ("activePool", ap); ("defaultPool", dp);
     ("stabilityPoolAddress", sp); ("gasPoolAddress", gp); ("collSurplusPool", cs); ("priceFeed", pf); ("sortedTroves", st);
     ("zusdToken", zt); ("zeroStakingAddress", zs); ("zeroStaking", zs)].

Definition borrowerOperations_setMassetManagerAddress (mm : address) : result Account :=
  configure present sender x [] [("massetManager", mm)].

Definition stabilityPool_setAddresses (lp bo tm ap zt st pf ci : address) : result Account :=
  let! x := configure present sender x [lp; bo; tm; ap; zt; st; pf; ci]
    [("liquityBaseParams", lp); ("borrowerOperations", bo); ("troveManager", tm); ("activePool", ap); ("zusdToken", zt);
     ("sortedTroves", st); ("priceFeed", pf); ("communityIssuance", ci)] in
  Ok (write_numbers x [("P", DECIMAL_PRECISION)]).

(** TroveManagerInitAddressesParams *)
Definition troveManager_setAddresses (fd ro lp bo ap dp sp gp cs pf zt st zr zs : address) : result Account :=
  configure present sender x [fd; ro; lp; bo; ap; dp; sp; gp; cs; pf; zt; st; zr; zs]
    [("feeDistributor", fd); ("troveManagerRedeemOps", ro); ("liquityBaseParams", lp); ("borrowerOperationsAddress", bo);
     ("activePool", ap); ("defaultPool", dp); ("_stabilityPool", sp); ("gasPoolAddress", gp); ("collSurplusPool", cs);
     ("priceFeed", pf); ("_zusdToken", zt); ("sortedTroves", st); ("_zeroToken", zr); ("_zeroStaking", zs)].

Definition troveManager_setTroveManagerRedeemOps (ro : address) : result Account :=
  configure present sender x [ro] [("troveManagerRedeemOps", ro)].

Definition zusdToken_initialize (tm sp bo : address) : result Account :=
  let! x := initializer x in
  configure present sender x [tm; sp; bo]
    [("troveManagerAddress", tm); ("stabilityPoolAddress", sp); ("borrowerOperationsAddress", bo)].

(** Anybody may call it, once. *)
Definition zeroToken_initialize (now : Z) (zs mm presale : address) : result Account :=
  let! x := initializer x in
  Ok (write_numbers (write_slots x [("zeroStakingAddress", zs); ("marketMakerAddress", mm); ("presale", presale)])
        [("deploymentStartTime", now)]).

Definition zeroStaking_setAddresses (zr zt fd ap : address) : result Account :=
  configure present sender x [zr; zt; fd; ap]
    [("zeroToken", zr); ("zusdToken", zt); ("feeDistributorAddress", fd); ("activePoolAddress", ap)].

Definition communityIssuance_initialize (zr pot wallet : address) : result Account :=
  configure present sender x [zr; pot] [("zeroToken", zr); ("communityPotAddress", pot); ("fundingWalletAddress", wallet)].

Definition liquityBaseParams_initialize : result Account :=
  let! x := initializer x in
  let! _ := only_owner sender x in
  Ok (write_numbers x
        [("MCR", MCR initial_params); ("CCR", CCR initial_params); ("PERCENT_DIVISOR", PERCENT_DIVISOR initial_params);
         ("BORROWING_FEE_FLOOR", BORROWING_FEE_FLOOR initial_params); ("REDEMPTION_FEE_FLOOR", REDEMPTION_FEE_FLOOR initial_params);
         ("MAX_BORROWING_FEE", MAX_BORROWING_FEE initial_params)]).
End Setters.

(** An oracle has to answer when it is set; [answer] is what it says. *)
Definition priceFeed_setAddress (present : gset address) (answer : address -> result (Z * bool)) (sender : address) (x : Account)
    (slot : string) (feed : address) : result (Account * Z) :=
  let! x := configure present sender x [feed] [(slot, feed)] in
  let! r := answer feed in
  let! _ := require (snd r) "PriceFeed: Price feed must be working" in
  Ok (x, fst r).

Definition priceFeed_setAddresses (present : gset address) (answer : address -> result (Z * bool)) (sender : address) (x : Account)
    (main backup : address) : result Account :=
  let! r := priceFeed_setAddress present answer sender x "priceFeeds[0]" main in
  let! r' := priceFeed_setAddress present answer sender (fst r) "priceFeeds[1]" backup in
  Ok (write_numbers (fst r') [("lastGoodPrice", snd r)]).

(** ** Calls *)

Inductive Method : Type :=
| SetOwner_ (a : address)
| SetImplementation (a : address)
| ActivePool_setAddresses (bo tm sp dp : address)
| DefaultPool_setAddresses (tm ap : address)
| CollSurplusPool_setAddresses (bo tm ap : address)
| SortedTroves_setParams (size : Z) (tm bo : address)
| HintHelpers_setAddresses (lp st tm : address)
| MultiTroveGetter_setAddresses (tm st : address)
| FeeDistributor_setAddresses (fc zs bo tm wr zt ap : address)
| BorrowerOperations_setAddresses (fd lp tm ap dp sp gp cs pf st zt zs : address)
| BorrowerOperations_setMassetManagerAddress (mm : address)
| StabilityPool_setAddresses (lp bo tm ap zt st pf ci : address)
| TroveManager_setAddresses (fd ro lp bo ap dp sp gp cs pf zt st zr zs : address)
| TroveManager_setTroveManagerRedeemOps (ro : address)
| ZUSDToken_initialize (tm sp bo : address)
| ZEROToken_initialize (zs mm presale : address)
| ZEROStaking_setAddresses (zr zt fd ap : address)
| CommunityIssuance_initialize (zr pot wallet : address)
| LiquityBaseParams_initialize
| PriceFeed_setAddresses (main backup : address).

(** Code that has no such function reverts. *)
Definition no_function {A} : result A := Throw (Rejected EmptyString).

(** [setOwner] of Ownable. *)
Definition ownable_setOwner (sender : address) (x : Account) (a : address) : result Account :=
  let! _ := only_owner sender x in
  let! _ := require (negb (is_zero a)) "Ownable::setOwner: invalid address" in
  Ok (set_owner x a).

(** [setImplementation] of UpgradableProxy. *)
Definition proxy_setImplementation (sender : address) (x : Account) (a : address) : result Account :=
  let! _ := only_owner sender x in
  let! _ := require (negb (is_zero a)) "Proxy::setImplementation: invalid address" in
  Ok (set_implementation x a).

(** The code [logic] runs a method on the storage of [x]. *)
Definition run_logic (present : gset address) (answer : address -> result (Z * bool)) (now : Z) (sender : address) (logic : Bytecode)
    (m : Method) (x : Account) : result Account :=
  match logic, m with
  | Logic ActivePool_, ActivePool_setAddresses bo tm sp dp => activePool_setAddresses present sender x bo tm sp dp
  | Logic DefaultPool_, DefaultPool_setAddresses tm ap => defaultPool_setAddresses present sender x tm ap
  | Logic CollSurplusPool_, CollSurplusPool_setAddresses bo tm ap => collSurplusPool_setAddresses present sender x bo tm ap
  | Logic SortedTroves_, SortedTroves_setParams n tm bo => sortedTroves_setParams present sender x n tm bo
  | Logic HintHelpers_, HintHelpers_setAddresses lp st tm => hintHelpers_setAddresses present sender x lp st tm
  | Logic MultiTroveGetter_, MultiTroveGetter_setAddresses tm st => multiTroveGetter_setAddresses present sender x tm st
  | Logic FeeDistributor_, FeeDistributor_setAddresses fc zs bo tm wr zt ap =>
      feeDistributor_setAddresses present sender x fc zs bo tm wr zt ap
  | Logic BorrowerOperations_, BorrowerOperations_setAddresses fd lp tm ap dp sp gp cs pf st zt zs =>
      borrowerOperations_setAddresses present sender x fd lp tm ap dp sp gp cs pf st zt zs
  | Logic BorrowerOperations_, BorrowerOperations_setMassetManagerAddress mm => borrowerOperations_setMassetManagerAddress present sender x mm
  | Logic StabilityPool_, StabilityPool_setAddresses lp bo tm ap zt st pf ci =>
      stabilityPool_setAddresses present sender x lp bo tm ap zt st pf ci
  | Logic TroveManager_, TroveManager_setAddresses fd ro lp bo ap dp sp gp cs pf zt st zr zs =>
      troveManager_setAddresses present sender x fd ro lp bo ap dp sp gp cs pf zt st zr zs
  | Logic TroveManager_, TroveManager_setTroveManagerRedeemOps ro => troveManager_setTroveManagerRedeemOps present sender x ro
  | Logic ZUSDToken_, ZUSDToken_initialize tm sp bo => zusdToken_initialize present sender x tm sp bo
  | Logic ZEROToken_, ZEROToken_initialize zs mm presale => zeroToken_initialize x now zs mm presale
  | Logic ZEROStaking_, ZEROStaking_setAddresses zr zt fd ap => zeroStaking_setAddresses present sender x zr zt fd ap
  | Logic CommunityIssuance_, CommunityIssuance_initialize zr pot wallet => communityIssuance_initialize present sender x zr pot wallet
  | Logic LiquityBaseParams_, LiquityBaseParams_initialize => liquityBaseParams_initialize sender x
  | Logic PriceFeed_, PriceFeed_setAddresses main backup => priceFeed_setAddresses present answer sender x main backup
  | _, _ => no_function
  end.

(** A call of the account [x]; [logic] is the code behind a proxy, if there is any. *)
Definition run_account (present : gset address) (answer : address -> result (Z * bool)) (now : Z) (sender : address) (logic : option Bytecode)
    (m : Method) (x : Account) : result Account :=
  match m with
  | SetOwner_ a => if ownable (bytecode x) then ownable_setOwner sender x a else no_function
  | SetImplementation a => match bytecode x with UpgradableProxy_ => proxy_setImplementation sender x a | _ => no_function end
  | _ =>
      match bytecode x with
      | UpgradableProxy_ =>
          let! _ := require (negb (is_zero (implementation x))) "Proxy::(): implementation not found" in
          match logic with Some b => run_logic present answer now sender b m x | None => Ok x end
      | b => run_logic present answer now sender b m x
      end
  end.
