(* ===== verification/Deployment.v ===== *)
(** * lib-ethers/utils/deploy.ts: deploying and connecting the contracts

    The script as a sequence of transactions of the deployer.  [create n] is the address
    of the contract that the deployer's transaction of nonce [n] makes, [timestamp n] and
    [block n] belong to the block it is mined in, [answer] is what an oracle says. *)

From S2P Require Import Prelude Solidity SortedTroves ChainState Setters.
Local Open Scope Z_scope.

Record Net : Type := mkNet { accounts : gmap address Account; txCount : Z }.

(** An argument that may be [undefined]; the empty string is falsy too. *)
Definition truthy (o : option string) : bool := match o with Some s => negb (bool_decide (s = EmptyString)) | None => false end.

Definition ONE_DAY_IN_SECONDS : Z := 86400.
Definition ONE_MINUTE : Z := 60.
Definition TWO_WEEKS : Z := 14 * ONE_DAY_IN_SECONDS.

Record OracleAddresses : Type := mkOracleAddresses { mocOracleAddress : address; rskOracleAddress : address }.

Section Script.
Variables (deployer : address) (create : Z -> address) (timestamp block : Z -> Z) (answer : address -> result (Z * bool)).

(** ** Transactions *)

(** The address of a contract, and the number of the block it was deployed in; [args] are
    the immutable numbers that its constructor sets. *)
Definition deployContractAndGetBlockNumber (b : Bytecode) (args : gmap string Z) : call Net (address * Z) := fun net =>
  let a := create (txCount net) in
  let x := mkAccount b address0 (if ownable b then deployer else address0) false ∅ args in
  Ok ((a, block (txCount net)), mkNet (<[a := x]> (accounts net)) (txCount net + 1)).

Definition deployContract (b : Bytecode) (args : gmap string Z) : call Net address :=
  let$ r := deployContractAndGetBlockNumber b args in call_ret (fst r).

(** A method is called; an account without code accepts anything. *)
Definition send (to : address) (m : Method) : call Net unit := fun net =>
  match accounts net !! to with
  | None => Ok (tt, mkNet (accounts net) (txCount net + 1))
  | Some x =>
      let! x' := run_account (dom (accounts net)) answer (timestamp (txCount net)) deployer
                   (option_map bytecode (accounts net !! implementation x)) m x in
      Ok (tt, mkNet (<[to := x']> (accounts net)) (txCount net + 1))
  end.

(** A transaction with a nonce of its own is accepted when it is the next one. *)
Definition send_at (nonce : Z) (to : address) (m : Method) : call Net unit := fun net =>
  if nonce =? txCount net then send to m net else Throw (Rejected "nonce").

Definition deployContractWithProxy (b : Bytecode) (args : gmap string Z) : call Net address :=
  let$ contract := deployContract b args in
  let$ proxyContract := deployContract UpgradableProxy_ ∅ in
  let$ _ := send proxyContract (SetImplementation contract) in
  call_ret proxyContract.

(** One transaction after the other: the network that is reached, and why the rest was not sent. *)
Fixpoint send_all (nonce : Z) (l : list (address * Method)) (net : Net) : Net * option js_error :=
  match l with
  | [] => (net, None)
  | (to, m) :: l =>
      match send_at nonce to m net with
      | Ok (_, net') => send_all (nonce + 1) l net'
      | Throw e => (net, Some e)
      end
  end.

(** ** deployContracts *)

(** A property of the object [addresses]: how its contract is deployed. *)
Record Planned : Type := mkPlanned { pl_key : Contract; pl_proxied : bool; pl_code : Bytecode; pl_args : gmap string Z }.

Definition proxied (c : Contract) : Planned := mkPlanned c true (Logic c) ∅.

Definition bootstrap_period (isMainnet notTestnet : bool) : Z := if isMainnet || notTestnet then TWO_WEEKS else ONE_MINUTE.

Definition addresses_plan (priceFeedIsTestnet : bool) (period : Z) : list Planned :=
  [proxied ActivePool_; proxied BorrowerOperations_;
   mkPlanned TroveManager_ true (Logic TroveManager_) {[ "BOOTSTRAP_PERIOD" := period ]};
   mkPlanned TroveManagerRedeemOps_ false (Logic TroveManagerRedeemOps_) {[ "BOOTSTRAP_PERIOD" := period ]};
   proxied CollSurplusPool_; proxied CommunityIssuance_; proxied DefaultPool_; proxied HintHelpers_; proxied ZEROStaking_;
   if priceFeedIsTestnet then mkPlanned PriceFeed_ false PriceFeedTestnet_ ∅ else proxied PriceFeed_;
   proxied SortedTroves_; proxied StabilityPool_; proxied LiquityBaseParams_; proxied FeeDistributor_].

Definition deploy_planned (p : Planned) : call Net address :=
  if pl_proxied p then deployContractWithProxy (pl_code p) (pl_args p) else deployContract (pl_code p) (pl_args p).

Fixpoint deploy_plan (l : list Planned) : call Net (list (Contract * address)) :=
  match l with
  | [] => call_ret []
  | p :: l =>
      let$ a := deploy_planned p in
      let$ r := deploy_plan l in
      call_ret ((pl_key p, a) :: r)
  end.

(** The addresses, and the first block. *)
Definition deployContracts (priceFeedIsTestnet : bool) (zusdTokenAddress : option address) (isMainnet notTestnet : bool)
    : call Net (list (Contract * address) * Z) :=
  let$ g := deployContractAndGetBlockNumber (Logic GasPool_) ∅ in
  let$ l := deploy_plan (addresses_plan priceFeedIsTestnet (bootstrap_period isMainnet notTestnet)) in
  let$ z := (match zusdTokenAddress with Some a => call_ret a | None => deploy_planned (proxied ZUSDToken_) end) in
  let$ l' := deploy_plan [proxied ZEROToken_; proxied MultiTroveGetter_] in
  call_ret ((GasPool_, fst g) :: l ++ (ZUSDToken_, z) :: l', snd g).

(** ** connectContracts *)

Section Connect.
Variable k : Contract -> address.

Definition connections (governanceAddress feeSharingCollectorAddress wrbtcAddress presaleAddress : address)
    (marketMakerAddress : option address) : list (Contract * Method) :=
  [(LiquityBaseParams_, LiquityBaseParams_initialize);
   (ZEROToken_, ZEROToken_initialize (k ZEROStaking_)
      (if truthy marketMakerAddress then default EmptyString marketMakerAddress else k GasPool_) presaleAddress);
   (SortedTroves_, SortedTroves_setParams 1000000 (k TroveManager_) (k BorrowerOperations_));
   (TroveManager_, TroveManager_setAddresses (k FeeDistributor_) (k TroveManagerRedeemOps_) (k LiquityBaseParams_) (k BorrowerOperations_)
      (k ActivePool_) (k DefaultPool_) (k StabilityPool_) (k GasPool_) (k CollSurplusPool_) (k PriceFeed_) (k ZUSDToken_) (k SortedTroves_)
      (k ZEROToken_) (k ZEROStaking_));
   (BorrowerOperations_, BorrowerOperations_setAddresses (k FeeDistributor_) (k LiquityBaseParams_) (k TroveManager_) (k ActivePool_)
      (k DefaultPool_) (k StabilityPool_) (k GasPool_) (k CollSurplusPool_) (k PriceFeed_) (k SortedTroves_) (k ZUSDToken_) (k ZEROStaking_));
   (StabilityPool_, StabilityPool_setAddresses (k LiquityBaseParams_) (k BorrowerOperations_) (k TroveManager_) (k ActivePool_)
      (k ZUSDToken_) (k SortedTroves_) (k PriceFeed_) (k CommunityIssuance_));
   (ActivePool_, ActivePool_setAddresses (k BorrowerOperations_) (k TroveManager_) (k StabilityPool_) (k DefaultPool_));
   (DefaultPool_, DefaultPool_setAddresses (k TroveManager_) (k ActivePool_));
   (CollSurplusPool_, CollSurplusPool_setAddresses (k BorrowerOperations_) (k TroveManager_) (k ActivePool_));
   (HintHelpers_, HintHelpers_setAddresses (k LiquityBaseParams_) (k SortedTroves_) (k TroveManager_));
   (ZEROStaking_, ZEROStaking_setAddresses (k ZEROToken_) (k ZUSDToken_) (k FeeDistributor_) (k ActivePool_));
   (CommunityIssuance_, CommunityIssuance_initialize (k ZEROToken_) (k StabilityPool_) governanceAddress);
   (MultiTroveGetter_, MultiTroveGetter_setAddresses (k TroveManager_) (k SortedTroves_));
   (FeeDistributor_, FeeDistributor_setAddresses feeSharingCollectorAddress (k ZEROStaking_) (k BorrowerOperations_) (k TroveManager_)
      wrbtcAddress (k ZUSDToken_) (k ActivePool_))].

(** An existing token is not initialized again. *)
Definition all_connections (governanceAddress feeSharingCollectorAddress wrbtcAddress presaleAddress : address)
    (marketMakerAddress myntMassetManagerAddress zusdTokenAddress : option address) : list (Contract * Method) :=
  let l := connections governanceAddress feeSharingCollectorAddress wrbtcAddress presaleAddress marketMakerAddress in
  let l := if negb (truthy zusdTokenAddress)
           then (ZUSDToken_, ZUSDToken_initialize (k TroveManager_) (k StabilityPool_) (k BorrowerOperations_)) :: l else l in
  if truthy myntMassetManagerAddress
  then (BorrowerOperations_, BorrowerOperations_setMassetManagerAddress (default EmptyString myntMassetManagerAddress)) :: l else l.

Definition at_addresses (l : list (Contract * Method)) : list (address * Method) := map (fun p => (k (fst p), snd p)) l.

Definition connectContracts (l : list (Contract * Method)) : call Net unit := fun net =>
  match send_all (txCount net) (at_addresses l) net with
  | (net', None) => Ok (tt, net')
  | (_, Some e) => Throw e
  end.

(** ** transferOwnership *)

Definition ownership_transfers (governanceAddress : address) (priceFeedIsTestnet : bool) : list (Contract * Method) :=
  map (fun c => (c, SetOwner_ governanceAddress))
    ([ActivePool_; BorrowerOperations_; FeeDistributor_; TroveManager_; TroveManagerRedeemOps_; ZUSDToken_; ZEROToken_; CollSurplusPool_;
      CommunityIssuance_; DefaultPool_; HintHelpers_; ZEROStaking_; MultiTroveGetter_; StabilityPool_; SortedTroves_; LiquityBaseParams_]
     ++ (if priceFeedIsTestnet then [] else [PriceFeed_])).

(** The caller catches the error and goes on. *)
Definition transferOwnership (governanceAddress : address) (priceFeedIsTestnet : bool) : call Net unit := fun net =>
  Ok (tt, fst (send_all (txCount net) (at_addresses (ownership_transfers governanceAddress priceFeedIsTestnet)) net)).
End Connect.

(** ** deployAndSetupContracts *)

Record Options : Type := mkOptions {
  o_provider : bool;
  o_externalPriceFeeds : option OracleAddresses;
  o_isDev : bool;
  o_governanceAddress : option address;
  o_feeSharingCollectorAddress : option address;
  o_wrbtcAddress : option address;
  o_presaleAddress : option address;
  o_marketMakerAddress : option address;
  o_zusdTokenAddress : option address;
  o_myntMassetManagerAddress : option address;
  o_myntNueTokenAddress : option address;
  o_isMainnet : bool;
  o_notTestnet : bool }.

(** What the script returns, without the network's id and the version. *)
Record LiquityDeployment : Type := mkLiquityDeployment {
  d_addresses : list (Contract * address);
  d_startBlock : Z;
  d_deploymentDate : Z;
  d_bootstrapPeriod : Z;
  d_governanceAddress : address;
  d_feeSharingCollectorAddress : address;
  d_wrbtcAddress : address;
  d_presaleAddress : address;
  d_marketMakerAddress : address;
  d_myntMassetManagerAddress : option address;
  d_myntNueTokenAddress : option address;
  d_priceFeedIsTestnet : bool;
  d_isDev : bool }.

(** The object [addresses]. *)
Fixpoint address_of (l : list (Contract * address)) (c : Contract) : address :=
  match l with
  | [] => EmptyString
  | (c', a) :: l => if decide (c' = c) then a else address_of l c
  end.

(** [??=] with the deployment of a mock. *)
Definition or_deployed (o : option address) (name : string) : call Net address :=
  match o with Some a => call_ret a | None => deployContract (Other name) ∅ end.

(** A number that a view reads: of the storage, or of the code for an immutable one. *)
Definition read_number (net : Net) (a : address) (name : string) : result Z :=
  match accounts net !! a with Some x => Ok (default 0 (numbers x !! name)) | None => Throw (Rejected "call revert exception") end.
Definition read_immutable (net : Net) (a : address) (name : string) : result Z :=
  match accounts net !! a with
  | Some x => match bytecode x with UpgradableProxy_ => read_number net (implementation x) name | _ => read_number net a name end
  | None => Throw (Rejected "call revert exception")
  end.

(** The oracles are deployed and set. *)
Definition hook_oracles (k : Contract -> address) (o : option OracleAddresses) : call Net unit :=
  match o with
  | None => call_ret tt
  | Some _ =>
      let$ mocMedianizerAddress := deployContract (Other "MoCMedianizer") ∅ in
      let$ rskPriceFeedAddress := deployContract (Other "RskOracle") ∅ in
      send (k PriceFeed_) (PriceFeed_setAddresses mocMedianizerAddress rskPriceFeedAddress)
  end.

Definition deployAndSetupContracts (o : Options) : call Net LiquityDeployment :=
  let$ _ := pure_call (require (o_provider o) "Signer must have a provider.") in
  let$ _ := pure_call (require (negb (o_isMainnet o && negb (truthy (o_feeSharingCollectorAddress o) && truthy (o_wrbtcAddress o))))
              "Mainnet requires feeSharingCollectorAddress and wrbtcAddress.") in
  let governanceAddress := default deployer (o_governanceAddress o) in
  let$ feeSharingCollectorAddress := or_deployed (o_feeSharingCollectorAddress o) "MockFeeSharingCollector" in
  let$ wrbtcAddress := or_deployed (o_wrbtcAddress o) "WRBTCTokenTester" in
  let$ presaleAddress := or_deployed (o_presaleAddress o) "MockBalanceRedirectPresale" in
  let$ marketMakerAddress := or_deployed (o_marketMakerAddress o) "MockBalanceRedirectPresale" in
  let priceFeedIsTestnet := bool_decide (o_externalPriceFeeds o = None) in
  let$ r := deployContracts priceFeedIsTestnet (o_zusdTokenAddress o) (o_isMainnet o) (o_notTestnet o) in
  let k := address_of (fst r) in
  let$ _ := connectContracts k (all_connections k governanceAddress feeSharingCollectorAddress wrbtcAddress presaleAddress
              (Some marketMakerAddress) (o_myntMassetManagerAddress o) (o_zusdTokenAddress o)) in
  let$ _ := hook_oracles k (o_externalPriceFeeds o) in
  let$ _ := (if negb (bool_decide (governanceAddress = EmptyString)) && negb (same governanceAddress deployer)
             then transferOwnership k governanceAddress priceFeedIsTestnet else call_ret tt) in
  let$ zeroTokenDeploymentTime := view_call (fun net => read_number net (k ZEROToken_) "deploymentStartTime") in
  let$ bootstrapPeriod := view_call (fun net => read_immutable net (k TroveManager_) "BOOTSTRAP_PERIOD") in
  call_ret (mkLiquityDeployment (fst r) (snd r) (zeroTokenDeploymentTime * 1000) bootstrapPeriod governanceAddress
    feeSharingCollectorAddress wrbtcAddress presaleAddress marketMakerAddress (o_myntMassetManagerAddress o) (o_myntNueTokenAddress o)
    priceFeedIsTestnet (o_isDev o)).
End Script.
