(* ===== verification/DeploymentFacts.v ===== *)
(** * The deployment script connects the contracts *)

From stdpp Require Import pretty.
From S2P Require Import Prelude Solidity SortedTroves SortedTrovesFacts ChainState Outside Transactions Invariant InvariantFacts TransactionFacts Setters Deployment.
Local Open Scope Z_scope.

(** The body of a setter. *)
Ltac unfold_setters :=
  unfold activePool_setAddresses, defaultPool_setAddresses, collSurplusPool_setAddresses, sortedTroves_setParams, hintHelpers_setAddresses,
    multiTroveGetter_setAddresses, feeDistributor_setAddresses, borrowerOperations_setAddresses, borrowerOperations_setMassetManagerAddress,
    stabilityPool_setAddresses, troveManager_setAddresses, troveManager_setTroveManagerRedeemOps, zusdToken_initialize, zeroToken_initialize, zeroStaking_setAddresses,
    communityIssuance_initialize, liquityBaseParams_initialize, initializer.

(** ** What a setter leaves alone *)

Definition same_code (x x' : Account) : Prop := bytecode x' = bytecode x /\ implementation x' = implementation x.

Lemma run_account_code present answer now sender logic m x x' : (forall a, m <> SetImplementation a) ->
  run_account present answer now sender logic m x = Ok x' -> same_code x x'.
Proof.
  intros Hm H. assert (forall b, run_logic present answer now sender b m x = Ok x' -> same_code x x') as L.
  { intros b. destruct b as [c| | |]; [|done..]. destruct c, m; cbn [run_logic]; try done;
      unfold_setters; unfold priceFeed_setAddresses, priceFeed_setAddress, configure; intros E; inv_result; done. }
  unfold run_account in H. destruct m; try (exfalso; by eapply Hm).
  1: { destruct (ownable _); [|done]. unfold ownable_setOwner in H. inv_result. done. }
  all: destruct (bytecode x) eqn:Eb; try (by apply (L _ H)); apply bind_Ok_inv in H as (u & _ & H);
    destruct logic as [b|]; [by apply (L b H)|by injection H as <-].
Qed.

Lemma call_then {S A B} (m : call S A) (f : A -> call S B) s a s1 : m s = Ok (a, s1) -> call_bind m f s = f a s1.
Proof. intros H. unfold call_bind. by rewrite H. Qed.

(** ** What is expected of the storage *)

(** Mynt's address, when one was given. *)
Definition chosen (masset : option address) : option address := if truthy masset then masset else None.

(** What a variable of a contract stands for, by its name. *)
Definition meant (k : Contract -> address) (governance collector wrbtc presale marketMaker : address) (masset : option address) (name : string) : option address :=
  if bool_decide (name ∈ ["borrowerOperations"; "borrowerOperationsAddress"]) then Some (k BorrowerOperations_)
  else if bool_decide (name ∈ ["troveManager"; "troveManagerAddress"]) then Some (k TroveManager_)
  else if bool_decide (name ∈ ["_stabilityPool"; "stabilityPoolAddress"; "communityPotAddress"]) then Some (k StabilityPool_)
  else if bool_decide (name ∈ ["activePool"; "activePoolAddress"]) then Some (k ActivePool_)
  else if bool_decide (name ∈ ["defaultPool"; "defaultPoolAddress"]) then Some (k DefaultPool_)
  else if bool_decide (name ∈ ["zusdToken"; "_zusdToken"]) then Some (k ZUSDToken_)
  else if bool_decide (name ∈ ["zeroToken"; "_zeroToken"]) then Some (k ZEROToken_)
  else if bool_decide (name ∈ ["zeroStaking"; "_zeroStaking"; "zeroStakingAddress"]) then Some (k ZEROStaking_)
  else if bool_decide (name ∈ ["feeDistributor"; "feeDistributorAddress"]) then Some (k FeeDistributor_)
  else if bool_decide (name = "troveManagerRedeemOps") then Some (k TroveManagerRedeemOps_)
  else if bool_decide (name = "liquityBaseParams") then Some (k LiquityBaseParams_)
  else if bool_decide (name = "sortedTroves") then Some (k SortedTroves_)
  else if bool_decide (name = "collSurplusPool") then Some (k CollSurplusPool_)
  else if bool_decide (name = "priceFeed") then Some (k PriceFeed_)
  else if bool_decide (name = "gasPoolAddress") then Some (k GasPool_)
  else if bool_decide (name = "communityIssuance") then Some (k CommunityIssuance_)
  else if bool_decide (name = "fundingWalletAddress") then Some governance
  else if bool_decide (name = "feeSharingCollector") then Some collector
  else if bool_decide (name = "wrbtc") then Some wrbtc
  else if bool_decide (name = "presale") then Some presale
  else if bool_decide (name = "marketMakerAddress") then Some marketMaker
  else if bool_decide (name = "massetManager") then chosen masset
  else None.

(** The variables of a contract that hold addresses (the Storage contracts of the sources).  The two feeds of PriceFeed are
    contracts that the script makes for it, see [fed]. *)
Definition needs (c : Contract) : list string :=
  match c with
  | ActivePool_ => ["borrowerOperationsAddress"; "troveManagerAddress"; "stabilityPoolAddress"; "defaultPoolAddress"]
  | BorrowerOperations_ => ["feeDistributor"; "liquityBaseParams"; "troveManager"; "activePool"; "defaultPool"; "stabilityPoolAddress";
      "gasPoolAddress"; "collSurplusPool"; "priceFeed"; "sortedTroves"; "zusdToken"; "zeroStakingAddress"; "zeroStaking"; "massetManager"]
  | TroveManager_ => ["feeDistributor"; "troveManagerRedeemOps"; "liquityBaseParams"; "borrowerOperationsAddress"; "activePool"; "defaultPool";
      "_stabilityPool"; "gasPoolAddress"; "collSurplusPool"; "priceFeed"; "_zusdToken"; "sortedTroves"; "_zeroToken"; "_zeroStaking"]
  | CollSurplusPool_ => ["borrowerOperationsAddress"; "troveManagerAddress"; "activePoolAddress"]
  | CommunityIssuance_ => ["zeroToken"; "communityPotAddress"; "fundingWalletAddress"]
  | DefaultPool_ => ["troveManagerAddress"; "activePoolAddress"]
  | HintHelpers_ => ["liquityBaseParams"; "sortedTroves"; "troveManager"]
  | ZEROStaking_ => ["zeroToken"; "zusdToken"; "feeDistributorAddress"; "activePoolAddress"]
  | SortedTroves_ => ["troveManager"; "borrowerOperationsAddress"]
  | StabilityPool_ => ["liquityBaseParams"; "borrowerOperations"; "troveManager"; "activePool"; "zusdToken"; "sortedTroves"; "priceFeed"; "communityIssuance"]
  | FeeDistributor_ => ["feeSharingCollector"; "zeroStaking"; "borrowerOperations"; "troveManager"; "wrbtc"; "zusdToken"; "activePoolAddress"]
  | ZUSDToken_ => ["troveManagerAddress"; "stabilityPoolAddress"; "borrowerOperationsAddress"]
  | ZEROToken_ => ["zeroStakingAddress"; "marketMakerAddress"; "presale"]
  | MultiTroveGetter_ => ["troveManager"; "sortedTroves"]
  | TroveManagerRedeemOps_ | PriceFeed_ | GasPool_ | LiquityBaseParams_ => []
  end.

(** The numbers that are set; [time] is when ZERO was initialized. *)
Definition starts (time : Z) (c : Contract) : list (string * Z) :=
  match c with
  | SortedTroves_ => [("data.maxSize", 1000000)]
  | ZEROToken_ => [("deploymentStartTime", time)]
  | StabilityPool_ => [("P", LiquityMath.DECIMAL_PRECISION)]
  | FeeDistributor_ => [("FEE_TO_FEE_SHARING_COLLECTOR", LiquityMath.DECIMAL_PRECISION)]
  | LiquityBaseParams_ =>
      [("MCR", MCR initial_params); ("CCR", CCR initial_params); ("PERCENT_DIVISOR", PERCENT_DIVISOR initial_params);
       ("BORROWING_FEE_FLOOR", BORROWING_FEE_FLOOR initial_params); ("REDEMPTION_FEE_FLOOR", REDEMPTION_FEE_FLOOR initial_params);
       ("MAX_BORROWING_FEE", MAX_BORROWING_FEE initial_params)]
  | _ => []
  end.

Section Script.
Context (deployer : address) (create : Z -> address) (timestamp block : Z -> Z) (answer : address -> result (Z * bool)).
Context (create_inj : forall m n, create m = create n -> m = n) (create_some : forall n, create n <> address0).

(** ** Deploying *)

(** The addresses of contracts to come are free. *)
Definition tidy (net : Net) : Prop := forall n, txCount net <= n -> accounts net !! create n = None.
Definition keeps_accounts (net net' : Net) : Prop := forall a x, accounts net !! a = Some x -> accounts net' !! a = Some x.

Lemma keeps_accounts_trans a b c : keeps_accounts a b -> keeps_accounts b c -> keeps_accounts a c.
Proof. intros F G x y H. by apply G, F. Qed.

Definition new_account (b : Bytecode) (args : gmap string Z) : Account :=
  mkAccount b address0 (if ownable b then deployer else address0) false ∅ args.

Lemma deploy_Ok b args net : tidy net -> exists net', deployContract deployer create block b args net = Ok (create (txCount net), net') /\
  tidy net' /\ keeps_accounts net net' /\ accounts net !! create (txCount net) = None /\ accounts net' !! create (txCount net) = Some (new_account b args) /\
  (forall a, a <> create (txCount net) -> accounts net' !! a = accounts net !! a) /\ txCount net' = txCount net + 1.
Proof.
  intros T. exists (mkNet (<[create (txCount net) := new_account b args]> (accounts net)) (txCount net + 1)). split; [reflexivity|]. cbn [accounts txCount]. pose proof (T (txCount net) ltac:(lia)) as E. split_and!; try done.
  - intros n Hn. cbn [accounts txCount] in *. rewrite lookup_insert_ne; [apply T; lia|]. intros C%create_inj. lia.
  - intros a x H. cbn [accounts]. rewrite lookup_insert_ne; [done|]. intros <-. congruence.
  - by rewrite lookup_insert_eq.
  - intros a Na. by rewrite lookup_insert_ne by congruence.
Qed.

(** The account behind a planned contract. *)
Definition made (net : Net) (p : Planned) (a : address) : Prop :=
  if pl_proxied p then
    exists i, i <> address0 /\ accounts net !! a = Some (mkAccount UpgradableProxy_ i deployer false ∅ ∅) /\
      accounts net !! i = Some (new_account (pl_code p) (pl_args p))
  else accounts net !! a = Some (new_account (pl_code p) (pl_args p)).

Lemma made_keeps net net' p a : keeps_accounts net net' -> made net p a -> made net' p a.
Proof. intros K. unfold made. destruct (pl_proxied p); [|apply K]. intros (i & Hi & H1 & H2). exists i. split_and!; auto. Qed.

Lemma deploy_planned_Ok p net : tidy net -> exists a net', deploy_planned deployer create timestamp block answer p net = Ok (a, net') /\
  tidy net' /\ keeps_accounts net net' /\ accounts net !! a = None /\ a <> address0 /\ made net' p a.
Proof.
  intros T. unfold deploy_planned, made. destruct (pl_proxied p).
  - destruct (deploy_Ok (pl_code p) (pl_args p) net T) as (n1 & H1 & T1 & K1 & _ & A1 & O1 & C1).
    destruct (deploy_Ok UpgradableProxy_ ∅ n1 T1) as (n2 & H2 & T2 & K2 & F2 & A2 & O2 & C2).
    assert (create (txCount net) <> create (txCount n1)) as Nc by (intros E%create_inj; lia).
    exists (create (txCount n1)), (mkNet (<[create (txCount n1) := mkAccount UpgradableProxy_ (create (txCount net)) deployer false ∅ ∅]> (accounts n2)) (txCount n2 + 1)).
    split_and!.
    + unfold deployContractWithProxy. rewrite (call_then _ _ _ _ _ H1), (call_then _ _ _ _ _ H2). unfold call_bind, send. rewrite A2. cbn [run_account new_account bytecode].
      unfold proxy_setImplementation, only_owner, same, is_zero. cbn [owner ownable]. rewrite bool_decide_eq_true_2, bool_decide_eq_false_2 by (done || apply create_some). done.
    + intros n Hn. cbn [accounts txCount] in *. rewrite lookup_insert_ne; [apply T2; lia|]. intros E%create_inj. lia.
    + intros a x Ha. cbn [accounts]. rewrite lookup_insert_ne; [by apply K2, K1|]. intros <-. apply K1 in Ha. congruence.
    + rewrite <- O1; [done|]. congruence.
    + apply create_some.
    + exists (create (txCount net)). cbn [accounts]. rewrite lookup_insert_eq, lookup_insert_ne by done. split_and!; [apply create_some|done|]. by apply K2.
  - destruct (deploy_Ok (pl_code p) (pl_args p) net T) as (n1 & H1 & T1 & K1 & F1 & A1 & _). eauto 10.
Qed.

Lemma deploy_plan_Ok l net : tidy net -> exists r net', deploy_plan deployer create timestamp block answer l net = Ok (r, net') /\
  tidy net' /\ keeps_accounts net net' /\ map fst r = map pl_key l /\ NoDup (map snd r) /\
  Forall (fun p => accounts net !! p.2 = None /\ p.2 <> address0) r /\ Forall2 (fun p q => made net' p q.2) l r.
Proof.
  revert net. induction l as [|p l IH]; intros net T.
  { exists [], net. split_and!; try done; [by intros a x|constructor..]. }
  destruct (deploy_planned_Ok p net T) as (a & n1 & H1 & T1 & K1 & F1 & Z1 & M1). destruct (IH n1 T1) as (r & n2 & H2 & T2 & K2 & E2 & N2 & F2 & M2).
  exists ((pl_key p, a) :: r), n2. split_and!.
  - cbn [deploy_plan]. by rewrite (call_then _ _ _ _ _ H1), (call_then _ _ _ _ _ H2).
  - done.
  - by apply (keeps_accounts_trans _ n1).
  - cbn. by rewrite E2.
  - cbn. constructor; [|done]. intros (q & -> & Hq)%list_elem_of_fmap. rewrite Forall_forall in F2. destruct (F2 q Hq) as [Fq _].
    assert (is_Some (accounts n1 !! q.2)) as [x Hx]; [|congruence]. unfold made in M1. destruct (pl_proxied p); [destruct M1 as (i & _ & M1 & _)|]; by eexists.
  - constructor; [done|]. apply (Forall_impl _ _ _ F2). intros q [Fq Zq]. split; [|done]. destruct (accounts net !! q.2) as [x|] eqn:E; [|done].
    apply K1 in E. congruence.
  - constructor; [|done]. by apply (made_keeps n1).
Qed.

Lemma deploy_plan_split l1 l2 net r n2 : deploy_plan deployer create timestamp block answer (l1 ++ l2) net = Ok (r, n2) ->
  exists r1 n1 r2, deploy_plan deployer create timestamp block answer l1 net = Ok (r1, n1) /\
    deploy_plan deployer create timestamp block answer l2 n1 = Ok (r2, n2) /\ r = r1 ++ r2.
Proof.
  revert net r. induction l1 as [|p l1 IH]; intros net r H; [by exists [], net, r|]. cbn [deploy_plan app] in *.
  apply call_bind_Ok in H as (a & m1 & Ha & H). apply call_bind_Ok in H as (q & m2 & Hq & H). injection H as <- <-.
  destruct (IH _ _ Hq) as (r1 & n1 & r2 & H1 & H2 & ->). exists ((pl_key p, a) :: r1), n1, r2.
  split; [|done]. by rewrite (call_then _ _ _ _ _ Ha), (call_then _ _ _ _ _ H1).
Qed.

(** All contracts, in the order of their deployment. *)
Definition full_plan (testnet : bool) (period : Z) : list Planned :=
  mkPlanned GasPool_ false (Logic GasPool_) ∅ :: addresses_plan testnet period ++ [proxied ZUSDToken_] ++ [proxied ZEROToken_; proxied MultiTroveGetter_].

Definition plan_of (testnet : bool) (period : Z) (c : Contract) : Planned :=
  match c with
  | GasPool_ => mkPlanned GasPool_ false (Logic GasPool_) ∅
  | TroveManager_ => mkPlanned TroveManager_ true (Logic TroveManager_) {[ "BOOTSTRAP_PERIOD" := period ]}
  | TroveManagerRedeemOps_ => mkPlanned TroveManagerRedeemOps_ false (Logic TroveManagerRedeemOps_) {[ "BOOTSTRAP_PERIOD" := period ]}
  | PriceFeed_ => if testnet then mkPlanned PriceFeed_ false PriceFeedTestnet_ ∅ else proxied PriceFeed_
  | c => proxied c
  end.

Lemma plan_of_in testnet period c : plan_of testnet period c ∈ full_plan testnet period /\ pl_key (plan_of testnet period c) = c.
Proof.
  split; [|by destruct c, testnet]. unfold full_plan, addresses_plan. cbn [app]. rewrite !elem_of_cons. destruct c, testnet; cbn [plan_of]; tauto.
Qed.

Lemma full_plan_keys testnet period : NoDup (map pl_key (full_plan testnet period)).
Proof. apply (bool_decide_eq_true_1 (NoDup (map pl_key (full_plan testnet period)))). by destruct testnet. Qed.

Lemma address_of_in l c a : NoDup (map fst l) -> (c, a) ∈ l -> address_of l c = a.
Proof.
  induction l as [|[c' a'] l IH]; intros N H; [by apply not_elem_of_nil in H|]. cbn [address_of map] in *. apply NoDup_cons in N as [N1 N2].
  apply elem_of_cons in H as [[= <- <-]|H]; [by rewrite decide_True|]. rewrite decide_False; [by apply IH|]. intros ->. apply N1.
  apply list_elem_of_fmap. by exists (c, a).
Qed.

(** Every contract has an address of its own and is what it should be. *)
Record deployed_as (testnet : bool) (period : Z) (net : Net) (k : Contract -> address) : Prop := {
  da_made c : made net (plan_of testnet period c) (k c);
  da_some c : k c <> address0;
  da_inj c c' : k c = k c' -> c = c' }.

Lemma plan_deployed testnet period net0 net r : map fst r = map pl_key (full_plan testnet period) -> NoDup (map snd r) ->
  Forall (fun p => accounts net0 !! p.2 = None /\ p.2 <> address0) r -> Forall2 (fun p q => made net p q.2) (full_plan testnet period) r ->
  deployed_as testnet period net (address_of r) /\ forall c, accounts net0 !! address_of r c = None.
Proof.
  intros E N F M. assert (NoDup (map fst r)) as Nf by (rewrite E; apply full_plan_keys).
  assert (forall c, exists i a, r !! i = Some (c, a) /\ address_of r c = a /\ made net (plan_of testnet period c) a) as H.
  { intros c. destruct (plan_of_in testnet period c) as [I K]. apply list_elem_of_lookup in I as [i Hi].
    destruct (Forall2_lookup_l _ _ _ _ _ M Hi) as ([c' a] & Hr & Ma). assert (c' = c) as ->.
    { assert (map fst r !! i = Some c') as E1 by (by rewrite list_lookup_fmap, Hr). rewrite E, list_lookup_fmap, Hi in E1. cbn in E1. congruence. }
    exists i, a. split_and!; try done. apply address_of_in; [done|]. by apply list_elem_of_lookup_2 in Hr. }
  split; [split|intros c; destruct (H c) as (i & a & Hi & -> & _); rewrite Forall_forall in F; by destruct (F (c, a) (list_elem_of_lookup_2 _ _ _ Hi))].
  - intros c. by destruct (H c) as (i & a & _ & -> & Hm).
  - intros c. destruct (H c) as (i & a & Hi & -> & _). rewrite Forall_forall in F. by destruct (F (c, a) (list_elem_of_lookup_2 _ _ _ Hi)).
  - intros c c' Ec. destruct (H c) as (i & a & Hi & Ea & _), (H c') as (j & a' & Hj & Ea' & _). assert (a' = a) as -> by congruence.
    assert (i = j) as ->; [|congruence]. apply (NoDup_lookup (map snd r) i j a N); by rewrite list_lookup_fmap, ?Hi, ?Hj.
Qed.

Lemma deployContracts_Ok testnet mainnet notTestnet net : tidy net -> exists r net',
  deployContracts deployer create timestamp block answer testnet None mainnet notTestnet net = Ok ((r, block (txCount net)), net') /\
  tidy net' /\ keeps_accounts net net' /\ deployed_as testnet (bootstrap_period mainnet notTestnet) net' (address_of r) /\
  forall c, accounts net !! address_of r c = None.
Proof.
  intros T. destruct (deploy_plan_Ok (full_plan testnet (bootstrap_period mainnet notTestnet)) net T) as (r & net' & H & T' & K & E & N & F & M).
  exists r, net'. split; [|split; [done|split; [done|by apply (plan_deployed _ _ net)]]]. unfold full_plan in H. cbn [deploy_plan] in H.
  apply call_bind_Ok in H as (a & n1 & Ha & H). apply call_bind_Ok in H as (q & n2 & Hq & H). injection H as <- <-.
  apply deploy_plan_split in Hq as (q1 & n3 & q2 & H1 & H2 & ->). apply deploy_plan_split in H2 as (q3 & n4 & q4 & H2 & H3 & ->).
  cbn [deploy_plan] in H2. apply call_bind_Ok in H2 as (z & n5 & Hz & H2). apply call_bind_Ok in H2 as (q5 & n6 & H5 & H2). injection H5 as <- <-. injection H2 as <- <-.
  unfold deployContracts. unfold deploy_planned in Ha. cbn [pl_proxied pl_code pl_args] in Ha. unfold deployContract in Ha.
  apply call_bind_Ok in Ha as (g & n7 & Hg & Ha). injection Ha as <- <-.
  rewrite (call_then _ _ _ _ _ Hg), (call_then _ _ _ _ _ H1), (call_then _ _ _ _ _ Hz), (call_then _ _ _ _ _ H3).
  unfold deployContractAndGetBlockNumber in Hg. injection Hg as <- _. done.
Qed.

(** ** Calling *)

(** The accounts of the contracts, and the code behind their proxies. *)
Record standing (k : Contract -> address) (net : Net) (acc : Contract -> Account) (logic : Contract -> option Bytecode) : Prop := {
  sd_account c : accounts net !! k c = Some (acc c);
  sd_logic c : option_map bytecode (accounts net !! implementation (acc c)) = logic c }.

(** The calls of a list that are for one contract. *)
Definition key (c : Contract) : nat :=
  match c with
  | ActivePool_ => 0 | BorrowerOperations_ => 1 | TroveManager_ => 2 | TroveManagerRedeemOps_ => 3 | CollSurplusPool_ => 4 | CommunityIssuance_ => 5
  | DefaultPool_ => 6 | HintHelpers_ => 7 | ZEROStaking_ => 8 | PriceFeed_ => 9 | SortedTroves_ => 10 | StabilityPool_ => 11 | GasPool_ => 12
  | LiquityBaseParams_ => 13 | FeeDistributor_ => 14 | ZUSDToken_ => 15 | ZEROToken_ => 16 | MultiTroveGetter_ => 17
  end.

Lemma key_eqb c c' : Nat.eqb (key c) (key c') = bool_decide (c = c').
Proof. by destruct c, c'. Qed.

Fixpoint run_own (present : gset address) (n : Z) (logic : option Bytecode) (c : Contract) (x : Account) (l : list (Contract * Method)) : result Account :=
  match l with
  | [] => Ok x
  | (c', m) :: l =>
      if Nat.eqb (key c') (key c)
      then let! x' := run_account present answer (timestamp n) deployer logic m x in run_own present (n + 1) logic c x' l
      else run_own present (n + 1) logic c x l
  end.

Definition setter (m : Method) : Prop := forall a, m <> SetImplementation a.

Lemma send_one k net acc logic c m x' : (forall c c', k c = k c' -> c = c') -> standing k net acc logic -> setter m ->
  run_account (dom (accounts net)) answer (timestamp (txCount net)) deployer (logic c) m (acc c) = Ok x' ->
  exists net', send_at deployer timestamp answer (txCount net) (k c) m net = Ok (tt, net') /\
    standing k net' (fun c' => if decide (c = c') then x' else acc c') logic /\ dom (accounts net') = dom (accounts net) /\
    txCount net' = txCount net + 1 /\ (forall a, option_map bytecode (accounts net' !! a) = option_map bytecode (accounts net !! a)) /\
    (forall a, (forall c, a <> k c) -> accounts net' !! a = accounts net !! a).
Proof.
  intros Ki [S1 S2] Hm H. destruct (run_account_code _ _ _ _ _ _ _ _ Hm H) as [E1 E2].
  exists (mkNet (<[k c := x']> (accounts net)) (txCount net + 1)).
  assert (forall a, option_map bytecode (<[k c := x']> (accounts net) !! a) = option_map bytecode (accounts net !! a)) as B.
  { intros a. destruct (decide (k c = a)) as [<-|Na]; [rewrite lookup_insert_eq, S1; cbn; by rewrite E1|by rewrite lookup_insert_ne]. }
  split_and!; try done.
  - unfold send_at, send. rewrite Z.eqb_refl, S1, S2, H. done.
  - split; intros c'; cbn [accounts].
    + case_decide as D; [subst c'; by rewrite lookup_insert_eq|]. rewrite lookup_insert_ne; [done|]. by intros ?%Ki.
    + rewrite B. case_decide as D; [subst c'; rewrite E2|]; apply S2.
  - cbn [accounts]. rewrite dom_insert_lookup_L; [done|]. by eexists.
  - intros a Na. cbn [accounts]. rewrite lookup_insert_ne; [done|]. intros <-. by apply (Na c).
Qed.

Lemma send_all_own k l net acc acc' logic : (forall c c', k c = k c' -> c = c') -> standing k net acc logic -> Forall (fun p => setter (snd p)) l ->
  (forall c, run_own (dom (accounts net)) (txCount net) (logic c) c (acc c) l = Ok (acc' c)) ->
  exists net', send_all deployer timestamp answer (txCount net) (at_addresses k l) net = (net', None) /\
    standing k net' acc' logic /\ dom (accounts net') = dom (accounts net) /\ txCount net' = txCount net + Z.of_nat (length l) /\
    (forall a, (forall c, a <> k c) -> accounts net' !! a = accounts net !! a).
Proof.
  intros Ki. revert net acc. induction l as [|[c m] l IH]; intros net acc S F R.
  { exists net. cbn [at_addresses map send_all length]. split_and!; try done; [|lia]. destruct S as [S1 S2].
    split; intros c; pose proof (R c) as E; cbn [run_own] in E; injection E as <-; done. }
  apply Forall_cons in F as [Fm F]. pose proof (R c) as Rc. cbn [run_own] in Rc. rewrite Nat.eqb_refl in Rc. apply bind_Ok_inv in Rc as (x' & Hx & Rc).
  destruct (send_one k net acc logic c m x' Ki S Fm Hx) as (n1 & H1 & S1 & D1 & C1 & B1 & O1). destruct (IH n1 _ S1 F) as (n2 & H2 & S2 & D2 & C2 & O2).
  { intros c'. rewrite D1, C1. case_decide as D; [by subst c'|]. pose proof (R c') as E. cbn [run_own] in E. by rewrite key_eqb, bool_decide_eq_false_2 in E by done. }
  exists n2. split_and!; try done.
  - cbn [at_addresses map send_all]. cbn [fst snd]. rewrite H1, <- C1. exact H2.
  - by rewrite D2.
  - cbn [length]. lia.
  - intros a Na. by rewrite O2, O1.
Qed.

(** ** Connecting *)

Lemma checkContracts_Ok present l : Forall (fun a => a <> address0 /\ a ∈ present) l -> checkContracts present l = Ok tt.
Proof.
  induction 1 as [|a l [Na Pa] _ IH]; [done|]. cbn [checkContracts]. unfold checkContract, is_zero.
  by rewrite bool_decide_eq_false_2, bool_decide_eq_true_2 by done.
Qed.

Lemma configure_Ok present x checked l : owner x = deployer -> Forall (fun a => a <> address0 /\ a ∈ present) checked ->
  configure present deployer x checked l = Ok (write_slots x l).
Proof. intros E F. unfold configure, only_owner, same. rewrite E, bool_decide_eq_true_2, checkContracts_Ok by done. done. Qed.

(** What the contract has when its calls are done. *)
Definition settled_as (k : Contract -> address) (governance collector wrbtc presale marketMaker : address) (masset : option address) (time : Z)
    (c : Contract) (x : Account) : Prop :=
  Forall (fun name => slots x !! name = meant k governance collector wrbtc presale marketMaker masset name) (needs c) /\
  match c with GasPool_ | TroveManagerRedeemOps_ | PriceFeed_ => True | _ => numbers x = list_to_map (starts time c) end.

Lemma settled_time k governance collector wrbtc presale marketMaker masset t t' c x : c <> ZEROToken_ ->
  settled_as k governance collector wrbtc presale marketMaker masset t c x -> settled_as k governance collector wrbtc presale marketMaker masset t' c x.
Proof. by destruct c. Qed.

Section Connecting.
Context (k : Contract -> address) (present : gset address) (governance collector wrbtc presale marketMaker : address).
Context (Hk : forall c, k c <> address0 /\ k c ∈ present) (Hc : collector <> address0 /\ collector ∈ present).
Context (Hw : wrbtc <> address0 /\ wrbtc ∈ present).

(** The proxy of a contract before it is called. *)
Definition untouched (c : Contract) (logic : option Bytecode) (x : Account) : Prop :=
  match c with
  | GasPool_ | TroveManagerRedeemOps_ | PriceFeed_ => True
  | _ => logic = Some (Logic c) /\ exists i, i <> address0 /\ x = mkAccount UpgradableProxy_ i deployer false ∅ ∅
  end.

Lemma connected_own (masset : option address) n c logic x : untouched c logic x -> marketMaker <> EmptyString -> exists x' time,
  run_own present n logic c x (all_connections k governance collector wrbtc presale (Some marketMaker) masset None) = Ok x' /\
  same_code x x' /\ owner x' = owner x /\ settled_as k governance collector wrbtc presale marketMaker masset time c x'.
Proof.
  intros U Hm. assert (truthy (Some marketMaker) = true) as Em by (cbn; by rewrite bool_decide_eq_false_2).
  unfold all_connections, connections, settled_as, meant, chosen. rewrite Em. change (truthy None) with false. cbn [negb default].
  destruct (truthy masset) eqn:Et; [destruct masset as [mynt|]; [cbn [default]; clear Et|done]|].
  all: destruct c; cbn [untouched] in U; try destruct U as (-> & i & Hi & ->); cbn [run_own key Nat.eqb].
  all: try (eexists _, 0; split_and!; [reflexivity|done..|constructor|done]).
  all: assert (is_zero i = false) as Ei by (by apply bool_decide_eq_false_2); cbn [run_account bytecode implementation]; rewrite Ei; cbn [negb require bind run_logic].
  all: unfold_setters.
  all: unfold only_owner, same; cbn [owner initialized set_initialized negb require bind]; rewrite ?bool_decide_eq_true_2 by done; cbn [require bind].
  all: repeat (rewrite configure_Ok by (done || solve [repeat (constructor; [solve [auto]|]); constructor]); cbn [bind write_slots bytecode implementation]; rewrite ?Ei; cbn [negb require bind]).
  all: try (rewrite checkContracts_Ok by solve [repeat (constructor; [solve [auto]|]); constructor]; cbn [bind]).
  all: lazymatch goal with
       | |- context [starts _ ZEROToken_] => eexists _, (timestamp _)
       | |- _ => eexists _, 0
       end.
  all: split; [reflexivity|]; split; [done|]; split; [done|]; cbn [slots numbers write_slots write_numbers set_initialized].
  all: split; [|cbn [fold_left fst snd starts]; reflexivity].
  all: repeat (constructor; [vm_compute; reflexivity|]); constructor.
Qed.
End Connecting.

(** ** The script *)

(** The code that runs at an account, behind its proxy if it is one. *)
Definition behind (net : Net) (x : Account) : option Bytecode :=
  match bytecode x with UpgradableProxy_ => option_map bytecode (accounts net !! implementation x) | b => Some b end.

Section Phases.
Context (testnet : bool) (period : Z) (k : Contract -> address).

(** Who owns a contract when only the deployer was there. *)
Definition first_owner (c : Contract) : address :=
  if pl_proxied (plan_of testnet period c) || ownable (pl_code (plan_of testnet period c)) then deployer else address0.

(** The contracts stand, run their code, and the one of TroveManager keeps its period. *)
Record in_place (net : Net) (acc : Contract -> Account) (logic : Contract -> option Bytecode) : Prop := {
  ip_standing : standing k net acc logic;
  ip_tidy : tidy net;
  ip_code c : match bytecode (acc c) with UpgradableProxy_ => logic c | b => Some b end = Some (pl_code (plan_of testnet period c));
  ip_behind c : bytecode (acc c) = UpgradableProxy_ -> implementation (acc c) <> address0;
  ip_known c n : txCount net <= n -> implementation (acc c) <> create n;
  ip_proxied c : pl_proxied (plan_of testnet period c) = true -> bytecode (acc c) = UpgradableProxy_;
  ip_period : (forall c, implementation (acc TroveManager_) <> k c) /\
    accounts net !! implementation (acc TroveManager_) = Some (new_account (Logic TroveManager_) {[ "BOOTSTRAP_PERIOD" := period ]}) }.

Lemma deployed_in_place net : tidy net -> deployed_as testnet period net k -> exists acc logic, in_place net acc logic /\
  forall c, untouched c (logic c) (acc c) /\ owner (acc c) = first_owner c.
Proof.
  intros T [M S I]. exists (fun c => default (new_account UpgradableProxy_ ∅) (accounts net !! k c)).
  exists (fun c => option_map bytecode (accounts net !! implementation (default (new_account UpgradableProxy_ ∅) (accounts net !! k c)))).
  assert (forall c, is_Some (accounts net !! k c)) as E.
  { intros c. specialize (M c). unfold made in M. destruct (pl_proxied _); [destruct M as (i & _ & M & _)|]; by eexists. }
  split; [split|].
  - split; [|done]. intros c. destruct (E c) as [x Hx]. by rewrite Hx.
  - done.
  - intros c. specialize (M c). unfold made in M. destruct (pl_proxied _) eqn:P; [destruct M as (i & _ & M1 & M2)|]; rewrite ?M, ?M1; cbn; rewrite ?M2; [done|].
    by destruct c, testnet.
  - intros c. specialize (M c). unfold made in M. destruct (pl_proxied _) eqn:P; [destruct M as (i & Hi & M1 & M2)|]; rewrite ?M, ?M1; cbn; [done|].
    by destruct c, testnet.
  - intros c n Hn Ei. specialize (M c). unfold made in M. destruct (pl_proxied _); [destruct M as (i & Hi & M1 & M2); rewrite M1 in Ei; cbn in Ei; subst i; rewrite (T n Hn) in M2; done|].
    rewrite M in Ei. by destruct (create_some n).
  - intros c Hp. specialize (M c). unfold made in M. rewrite Hp in M. destruct M as (i & _ & M1 & _). by rewrite M1.
  - pose proof (M TroveManager_) as Mt. unfold made in Mt. cbn in Mt. destruct Mt as (i & Hi & M1 & M2). rewrite M1. cbn. split; [|done].
    intros c ->. specialize (M c). unfold made in M. destruct (pl_proxied (plan_of testnet period c)) eqn:P; [destruct M as (j & _ & M3 & _); by rewrite M3 in M2|].
    rewrite M in M2. by destruct c, testnet.
  - intros c. specialize (M c). unfold made, untouched, first_owner in *. destruct c, testnet; cbn in *; try (destruct M as (i & Hi & M1 & M2); rewrite M1; cbn; rewrite M2; split; [split; [done|by exists i]|done]);
      try (destruct M as (i & Hi & M1 & M2); by rewrite M1); by rewrite M.
Qed.

Lemma run_own_code present n logic c x l x' : Forall (fun p => setter (snd p)) l -> run_own present n logic c x l = Ok x' -> same_code x x'.
Proof.
  revert n x. induction l as [|[c' m] l IH]; intros n x F H; [by injection H as <-|]. apply Forall_cons in F as [Fm F]. cbn [run_own] in H.
  destruct (Nat.eqb _ _); [|by apply (IH (n + 1))]. apply bind_Ok_inv in H as (y & Hy & H). destruct (run_account_code _ _ _ _ _ _ _ _ Fm Hy) as [E1 E2].
  destruct (IH (n + 1) y F H) as [E3 E4]. split; congruence.
Qed.

(** Calls that succeed for every contract on its own succeed one after the other. *)
Lemma calls_in_place net acc logic l acc' : (forall c c', k c = k c' -> c = c') -> in_place net acc logic -> Forall (fun p => setter (snd p)) l ->
  (forall c, run_own (dom (accounts net)) (txCount net) (logic c) c (acc c) l = Ok (acc' c)) ->
  exists net', send_all deployer timestamp answer (txCount net) (at_addresses k l) net = (net', None) /\ in_place net' acc' logic /\
    dom (accounts net') = dom (accounts net) /\ (forall a, (forall c, a <> k c) -> accounts net' !! a = accounts net !! a).
Proof.
  intros Ki [S T C B Kn P Q] F R. destruct (send_all_own k l net acc acc' logic Ki S F R) as (net' & H & S' & D & Ct & O).
  assert (forall c, same_code (acc c) (acc' c)) as Sc by (intros c; by apply (run_own_code _ _ _ _ _ _ _ F (R c))).
  exists net'. split_and!; try done. split; try done.
  - intros n Hn. apply not_elem_of_dom. rewrite D. apply not_elem_of_dom, T. lia.
  - intros c. destruct (Sc c) as [-> _]. apply C.
  - intros c. destruct (Sc c) as [-> ->]. apply B.
  - intros c n Hn. destruct (Sc c) as [_ ->]. apply Kn. lia.
  - intros c Hc. destruct (Sc c) as [-> _]. by apply P.
  - destruct (Sc TroveManager_) as [_ ->]. destruct Q as [Q1 Q2]. split; [done|]. by rewrite O.
Qed.

(** *** Connecting *)

Lemma connect_in_place net acc logic governance collector wrbtc presale marketMaker masset : (forall c c', k c = k c' -> c = c') ->
  (forall c, k c <> address0) -> in_place net acc logic -> (forall c, untouched c (logic c) (acc c) /\ owner (acc c) = first_owner c) ->
  collector <> address0 /\ collector ∈ dom (accounts net) -> wrbtc <> address0 /\ wrbtc ∈ dom (accounts net) -> marketMaker <> EmptyString ->
  exists net' acc' time, connectContracts deployer timestamp answer k (all_connections k governance collector wrbtc presale (Some marketMaker) masset None) net
      = Ok (tt, net') /\ in_place net' acc' logic /\ dom (accounts net') = dom (accounts net) /\
    forall c, settled_as k governance collector wrbtc presale marketMaker masset time c (acc' c) /\ owner (acc' c) = first_owner c.
Proof.
  intros Ki Kz P U Hc Hw Hm. set (l := all_connections k governance collector wrbtc presale (Some marketMaker) masset None).
  assert (forall c, k c <> address0 /\ k c ∈ dom (accounts net)) as Hk.
  { intros c. split; [done|]. apply elem_of_dom. eexists. apply (sd_account _ _ _ _ (ip_standing _ _ _ P)). }
  set (acc' c := match run_own (dom (accounts net)) (txCount net) (logic c) c (acc c) l with Ok y => y | Throw _ => acc c end).
  assert (forall c, run_own (dom (accounts net)) (txCount net) (logic c) c (acc c) l = Ok (acc' c) /\
    (exists time, settled_as k governance collector wrbtc presale marketMaker masset time c (acc' c)) /\ owner (acc' c) = first_owner c) as R.
  { intros c. destruct (U c) as [Uc Oc]. destruct (connected_own k (dom (accounts net)) governance collector wrbtc presale marketMaker Hk Hc Hw masset
      (txCount net) c (logic c) (acc c) Uc Hm) as (x' & time & Hx & _ & Ho & Hs). change (all_connections _ _ _ _ _ _ _ _) with l in Hx. unfold acc'. rewrite Hx. split_and!; [done|by exists time|congruence]. }
  assert (Forall (fun p => setter (snd p)) l) as F.
  { unfold l, all_connections. repeat case_match; repeat constructor; intros a; discriminate. }
  destruct (calls_in_place net acc logic l acc' Ki P F (fun c => proj1 (R c))) as (net' & H & P' & D & _).
  destruct (R ZEROToken_) as (_ & (time & Hs) & _). exists net', acc', time.
  unfold connectContracts. rewrite H. split_and!; try done. intros c. destruct (R c) as (_ & (time' & Hs') & Ho). split; [|done].
  destruct (decide (c = ZEROToken_)) as [->|Nc]; [done|by apply (settled_time _ _ _ _ _ _ _ time')].
Qed.

(** *** Oracles *)

Lemma deploy_in_place b args net acc logic : in_place net acc logic -> exists a net', deployContract deployer create block b args net = Ok (a, net') /\
  in_place net' acc logic /\ a <> address0 /\ a ∈ dom (accounts net') /\ dom (accounts net) ⊆ dom (accounts net') /\
  accounts net !! a = None /\ option_map bytecode (accounts net' !! a) = Some b /\ keeps_accounts net net'.
Proof.
  intros [[S1 S2] T C B Kn P [Q1 Q2]]. destruct (deploy_Ok b args net T) as (net' & H & T' & K & F & A & O & Ct).
  exists (create (txCount net)), net'. split; [done|]. split; [|split_and!].
  - split; try done.
    + split; intros c; [by apply K|]. rewrite O; [done|]. apply Kn. lia.
    + intros c n Hn. apply Kn. lia.
    + split; [done|by apply K].
  - apply create_some.
  - apply elem_of_dom. by eexists.
  - intros a. rewrite !elem_of_dom. intros [x Hx]. exists x. by apply K.
  - done.
  - by rewrite A.
  - done.
Qed.

(** PriceFeed has the price of its first feed; both feeds are contracts of their own. *)
Definition fed (price : Z) (net : Net) (x : Account) : Prop := exists main backup,
  slots x !! "priceFeeds[0]" = Some main /\ slots x !! "priceFeeds[1]" = Some backup /\ main <> backup /\ numbers x !! "lastGoodPrice" = Some price /\
  option_map bytecode (accounts net !! main) = Some (Other "MoCMedianizer") /\ option_map bytecode (accounts net !! backup) = Some (Other "RskOracle") /\
  forall c, main <> k c /\ backup <> k c.

Lemma hook_in_place oracles net acc logic price : (forall c c', k c = k c' -> c = c') -> in_place net acc logic ->
  testnet = bool_decide (oracles = None) -> (forall a, answer a = Ok (price, true)) -> (forall c, owner (acc c) = first_owner c) ->
  exists net' acc', hook_oracles deployer create timestamp block answer k oracles net = Ok (tt, net') /\ in_place net' acc' logic /\
    (forall c, owner (acc' c) = first_owner c) /\ (forall c, c <> PriceFeed_ -> acc' c = acc c) /\ (testnet = false -> fed price net' (acc' PriceFeed_)).
Proof.
  intros Ki P Et Ha Ho. destruct oracles as [o|]; cbn [hook_oracles].
  2: { exists net, acc. split_and!; try done. by rewrite Et. }
  destruct (deploy_in_place (Other "MoCMedianizer") ∅ net acc logic P) as (a1 & n1 & H1 & P1 & Z1 & D1 & _ & F1 & B1 & _).
  destruct (deploy_in_place (Other "RskOracle") ∅ n1 acc logic P1) as (a2 & n2 & H2 & P2 & Z2 & D2 & S2 & F2 & B2 & K2).
  rewrite (call_then _ _ _ _ _ H1), (call_then _ _ _ _ _ H2). pose proof (ip_code _ _ _ P2 PriceFeed_) as Hcode.
  rewrite bool_decide_eq_false_2 in Et by done. assert (bytecode (acc PriceFeed_) = UpgradableProxy_) as Hb by (apply (ip_proxied _ _ _ P2); by rewrite Et).
  pose proof (ip_behind _ _ _ P2 _ Hb) as Hi. rewrite Hb in Hcode. cbn [plan_of] in Hcode. rewrite Et in Hcode. cbn [proxied pl_code] in Hcode.
  assert (owner (acc PriceFeed_) = deployer) as Hd by (rewrite Ho; unfold first_owner; by rewrite Et).
  set (x' := write_numbers (write_slots (write_slots (acc PriceFeed_) [("priceFeeds[0]", a1)]) [("priceFeeds[1]", a2)]) [("lastGoodPrice", price)]).
  set (l := [(PriceFeed_, PriceFeed_setAddresses a1 a2)]). set (acc' c := if decide (c = PriceFeed_) then x' else acc c).
  destruct (calls_in_place n2 acc logic l acc' Ki P2) as (net' & H & P' & D & O).
  - repeat constructor. by intros a.
  - intros c. unfold l, acc'. cbn [run_own]. rewrite key_eqb. case_bool_decide as E; [|by rewrite decide_False by congruence]. subst c. rewrite decide_True by done.
    cbn [run_account]. rewrite Hb, Hcode. unfold is_zero. rewrite bool_decide_eq_false_2 by done. cbn [negb require bind run_logic].
    unfold priceFeed_setAddresses, priceFeed_setAddress. rewrite configure_Ok by (done || (constructor; [split; [done|by apply S2]|constructor])). cbn [bind]. rewrite Ha. cbn [require snd bind fst].
    rewrite configure_Ok by (done || (constructor; [done|constructor])). cbn [bind]. rewrite Ha. done.
  - exists net', acc'. cbn [at_addresses map l send_all fst snd] in H. unfold send_at in H. rewrite Z.eqb_refl in H.
    destruct (send _ _ _ _ _ n2) as [[[] n3]|] eqn:E3; [|done]. injection H as <-. split_and!; try done.
    + intros c. unfold acc'. case_decide; [subst c; exact (Ho PriceFeed_)|apply Ho].
    + intros c Hc. unfold acc'. by rewrite decide_False by done.
    + intros _. unfold acc'. rewrite decide_True by done. exists a1, a2. pose proof (sd_account _ _ _ _ (ip_standing _ _ _ P)) as Sa. pose proof (sd_account _ _ _ _ (ip_standing _ _ _ P1)) as Sb.
      assert (forall c, a1 <> k c) as N1 by (intros c ->; specialize (Sa c); congruence). assert (forall c, a2 <> k c) as N2 by (intros c ->; specialize (Sb c); congruence).
      apply elem_of_dom in D1 as [y1 Y1]. unfold x'. cbn [slots numbers write_slots write_numbers fold_left fst snd]. rewrite (O a1 N1), (O a2 N2), B2, (K2 _ _ Y1), <- Y1, B1.
      rewrite !lookup_insert_eq, lookup_insert_ne, lookup_insert_eq by done. split_and!; try done. congruence.
Qed.

(** *** Ownership *)

(** The contracts that get a new owner. *)
Definition handed_over (c : Contract) : bool :=
  match c with GasPool_ => false | PriceFeed_ => negb testnet | _ => true end.

Lemma ownership_own present n logic c x governance : governance <> address0 ->
  (handed_over c = true -> ownable (bytecode x) = true /\ owner x = deployer) ->
  run_own present n logic c x (ownership_transfers governance testnet) = Ok (if handed_over c then set_owner x governance else x).
Proof.
  intros Hg Hx. assert (ownable_setOwner deployer x governance = Ok (set_owner x governance) \/ handed_over c = false) as Hs.
  { destruct (handed_over c); [left|by right]. destruct (Hx eq_refl) as [_ Ho]. unfold ownable_setOwner, only_owner, same, is_zero.
    by rewrite Ho, bool_decide_eq_true_2, bool_decide_eq_false_2 by done. }
  revert Hx Hs. unfold ownership_transfers, handed_over. generalize testnet. intros b Hx Hs.
  destruct c, b; cbn [map app run_own key Nat.eqb negb] in *; try done; destruct Hs as [Hs|?]; try done;
    destruct (Hx eq_refl) as [Hb _]; cbn [run_account]; rewrite Hb, Hs; done.
Qed.

Lemma transfer_in_place net acc logic governance : (forall c c', k c = k c' -> c = c') -> in_place net acc logic -> governance <> address0 ->
  (forall c, owner (acc c) = first_owner c) -> exists net',
    transferOwnership deployer timestamp answer k governance testnet net = Ok (tt, net') /\
    in_place net' (fun c => if handed_over c then set_owner (acc c) governance else acc c) logic /\
    (forall a, (forall c, a <> k c) -> accounts net' !! a = accounts net !! a).
Proof.
  intros Ki P Hg Ho. destruct (calls_in_place net acc logic (ownership_transfers governance testnet)
    (fun c => if handed_over c then set_owner (acc c) governance else acc c) Ki P) as (net' & H & P' & _ & O).
  - unfold ownership_transfers. apply Forall_fmap, Forall_forall. intros c _ a. done.
  - intros c. apply ownership_own; [done|]. intros Hc. pose proof (ip_code _ _ _ P c) as Ic. pose proof (ip_proxied _ _ _ P c) as Ip. rewrite Ho. unfold first_owner.
    destruct (pl_proxied (plan_of testnet period c)) eqn:Ep; [rewrite (Ip eq_refl); by split|].
    clear Ip. revert Hc Ep Ic. unfold handed_over. generalize testnet. intros b Hc Ep Ic. split; [|by destruct c, b].
    by destruct c, b; cbn in *; try done; destruct (bytecode _) as [[]| | |].
  - exists net'. split; [|done]. unfold transferOwnership. by rewrite H.
Qed.
End Phases.

(** ** The result *)

Record connected (o : Options) (net0 : Net) (price : Z) (d : LiquityDeployment) (net : Net) : Prop := {
  co_some c : address_of (d_addresses d) c <> address0;
  co_inj c c' : address_of (d_addresses d) c = address_of (d_addresses d) c' -> c = c';
  co_fresh c a : is_Some (accounts net0 !! a) \/ a = d_feeSharingCollectorAddress d -> address_of (d_addresses d) c <> a;
  co_account c : exists x, accounts net !! address_of (d_addresses d) c = Some x /\
    behind net x = Some (match c with PriceFeed_ => if d_priceFeedIsTestnet d then PriceFeedTestnet_ else Logic c | _ => Logic c end) /\
    settled_as (address_of (d_addresses d)) (d_governanceAddress d) (d_feeSharingCollectorAddress d) (d_wrbtcAddress d) (d_presaleAddress d)
      (d_marketMakerAddress d) (o_myntMassetManagerAddress o) (d_deploymentDate d / 1000) c x /\
    (handed_over (d_priceFeedIsTestnet d) c = true -> owner x = d_governanceAddress d);
  co_testnet : d_priceFeedIsTestnet d = bool_decide (o_externalPriceFeeds o = None);
  co_feeds : d_priceFeedIsTestnet d = false ->
    exists x, accounts net !! address_of (d_addresses d) PriceFeed_ = Some x /\ fed (address_of (d_addresses d)) price net x;
  co_period : d_bootstrapPeriod d = bootstrap_period (o_isMainnet o) (o_notTestnet o) }.

(** An address that is given must be that of a contract; a missing one is made. *)
Lemma or_deployed_Ok o name net : tidy net -> exists a net', or_deployed deployer create block o name net = Ok (a, net') /\
  tidy net' /\ keeps_accounts net net' /\ (o = Some a \/ a <> address0 /\ a ∈ dom (accounts net') /\ exists n, a = create n).
Proof.
  intros T. destruct o as [a|]; cbn [or_deployed].
  - exists a, net. split_and!; try done; [by intros b x|by left].
  - destruct (deploy_Ok (Other name) ∅ net T) as (net' & H & T' & K & _ & A & _). exists (create (txCount net)), net'. split_and!; try done. right.
    split_and!; [apply create_some|apply elem_of_dom; by eexists|by eexists].
Qed.

Definition contract_given (net : Net) (o : option address) : Prop := forall a, o = Some a -> a <> address0 /\ a ∈ dom (accounts net).

Lemma keeps_dom net net' a : keeps_accounts net net' -> a ∈ dom (accounts net) -> a ∈ dom (accounts net').
Proof. intros K. rewrite !elem_of_dom. intros [x Hx]. exists x. by apply K. Qed.

Lemma given_good net0 net o a : contract_given net0 o -> keeps_accounts net0 net ->
  o = Some a \/ a <> address0 /\ a ∈ dom (accounts net) /\ (exists n, a = create n) -> a <> address0 /\ a ∈ dom (accounts net).
Proof. intros G K [H|(H1 & H2 & _)]; [|done]. destruct (G a H). split; [done|]. by apply (keeps_dom net0). Qed.

(** The last steps: oracles, owners, what is read back. *)
Definition finish (o : Options) (governance : address) (k : Contract -> address) : call Net (Z * Z) :=
  let$ _ := hook_oracles deployer create timestamp block answer k (o_externalPriceFeeds o) in
  let$ _ := (if negb (bool_decide (governance = EmptyString)) && negb (same governance deployer)
             then transferOwnership deployer timestamp answer k governance (bool_decide (o_externalPriceFeeds o = None)) else call_ret tt) in
  let$ t := view_call (fun net => read_number net (k ZEROToken_) "deploymentStartTime") in
  let$ b := view_call (fun net => read_immutable net (k TroveManager_) "BOOTSTRAP_PERIOD") in
  call_ret (t, b).

Lemma finish_Ok o governance k period net acc logic price : (forall c c', k c = k c' -> c = c') ->
  in_place (bool_decide (o_externalPriceFeeds o = None)) period k net acc logic -> governance <> address0 -> governance <> EmptyString ->
  (forall a, answer a = Ok (price, true)) -> (forall c, owner (acc c) = first_owner (bool_decide (o_externalPriceFeeds o = None)) period c) ->
  exists net' acc' t, finish o governance k net = Ok ((t, period), net') /\
    in_place (bool_decide (o_externalPriceFeeds o = None)) period k net' acc' logic /\
    (forall c, c <> PriceFeed_ -> slots (acc' c) = slots (acc c) /\ numbers (acc' c) = numbers (acc c)) /\
    (forall c, handed_over (bool_decide (o_externalPriceFeeds o = None)) c = true -> owner (acc' c) = governance) /\
    t = default 0 (numbers (acc ZEROToken_) !! "deploymentStartTime") /\
    (bool_decide (o_externalPriceFeeds o = None) = false -> fed k price net' (acc' PriceFeed_)).
Proof.
  intros Ki P Hg He Ha Ho. set (testnet := bool_decide _) in *.
  destruct (hook_in_place testnet period k (o_externalPriceFeeds o) net acc logic price Ki P eq_refl Ha Ho) as (n1 & a1 & H1 & P1 & O1 & E1 & Fd).
  assert (exists n2 a2, (if negb (bool_decide (governance = EmptyString)) && negb (same governance deployer)
             then transferOwnership deployer timestamp answer k governance testnet else call_ret tt) n1 = Ok (tt, n2) /\
    in_place testnet period k n2 a2 logic /\ (forall c, slots (a2 c) = slots (a1 c) /\ numbers (a2 c) = numbers (a1 c)) /\
    (forall c, handed_over testnet c = true -> owner (a2 c) = governance) /\
    (forall a, (forall c, a <> k c) -> accounts n2 !! a = accounts n1 !! a)) as (n2 & a2 & H2 & P2 & E2 & O2 & K2).
  { rewrite (bool_decide_eq_false_2 (governance = EmptyString)) by done. unfold same. case_bool_decide as D; cbn [negb andb].
    - exists n1, a1. split_and!; try done. intros c Hc. rewrite O1, D. unfold first_owner. revert Hc. generalize testnet. by intros [] ?; destruct c.
    - destruct (transfer_in_place testnet period k n1 a1 logic governance Ki P1 Hg O1) as (n2 & H2 & P2 & K2).
      exists n2, (fun c => if handed_over testnet c then set_owner (a1 c) governance else a1 c). split_and!; try done.
      + intros c. by destruct (handed_over testnet c).
      + intros c ->. done. }
  exists n2, a2, (default 0 (numbers (a2 ZEROToken_) !! "deploymentStartTime")). split; [|split_and!; try done].
  - unfold finish. rewrite (call_then _ _ _ _ _ H1). fold testnet. rewrite (call_then _ _ _ _ _ H2). destruct P2 as [[S1 S2] _ C _ _ Pp [_ Q2]].
    unfold call_bind, view_call, read_immutable. unfold read_number at 1. rewrite (S1 ZEROToken_). cbn [bind fst snd]. rewrite (S1 TroveManager_), (Pp TroveManager_) by done.
    unfold read_number. rewrite Q2. done.
  - intros c Hc. destruct (E2 c) as [-> ->]. by rewrite E1.
  - destruct (E2 ZEROToken_) as [_ ->]. by rewrite E1.
  - intros Ht. destruct (Fd Ht) as (main & backup & F1 & F2 & F3 & F4 & F5 & F6 & F7). exists main, backup. destruct (E2 PriceFeed_) as [-> ->].
    rewrite !K2 by (intros c; apply F7). by split_and!.
Qed.

Lemma deployment_connects o net0 price : tidy net0 -> o_provider o = true ->
  (o_isMainnet o = true -> truthy (o_feeSharingCollectorAddress o) && truthy (o_wrbtcAddress o) = true) ->
  default deployer (o_governanceAddress o) <> address0 -> default deployer (o_governanceAddress o) <> EmptyString ->
  contract_given net0 (o_feeSharingCollectorAddress o) -> contract_given net0 (o_wrbtcAddress o) -> o_marketMakerAddress o <> Some EmptyString ->
  o_zusdTokenAddress o = None -> (forall n, create n <> EmptyString) -> (forall a, answer a = Ok (price, true)) ->
  exists d net, deployAndSetupContracts deployer create timestamp block answer o net0 = Ok (d, net) /\ connected o net0 price d net.
Proof.
  intros T Hp Hmn Hg He Gc Gw Hmm Hz Hce Ha. unfold deployAndSetupContracts. rewrite Hp.
  assert (o_isMainnet o && negb (truthy (o_feeSharingCollectorAddress o) && truthy (o_wrbtcAddress o)) = false) as Em.
  { destruct (o_isMainnet o); [by rewrite Hmn|done]. }
  rewrite Em. cbv zeta. set (governance := default deployer (o_governanceAddress o)) in *.
  destruct (or_deployed_Ok (o_feeSharingCollectorAddress o) "MockFeeSharingCollector" net0 T) as (fc & n1 & H1 & T1 & K1 & F1).
  destruct (or_deployed_Ok (o_wrbtcAddress o) "WRBTCTokenTester" n1 T1) as (wr & n2 & H2 & T2 & K2 & F2).
  destruct (or_deployed_Ok (o_presaleAddress o) "MockBalanceRedirectPresale" n2 T2) as (ps & n3 & H3 & T3 & K3 & _).
  destruct (or_deployed_Ok (o_marketMakerAddress o) "MockBalanceRedirectPresale" n3 T3) as (mm & n4 & H4 & T4 & K4 & F4).
  set (testnet := bool_decide (o_externalPriceFeeds o = None)). set (period := bootstrap_period (o_isMainnet o) (o_notTestnet o)).
  destruct (deployContracts_Ok testnet (o_isMainnet o) (o_notTestnet o) n4 T4) as (r & n5 & H5 & T5 & K5 & D5 & New5). fold period in D5.
  destruct (deployed_in_place testnet period (address_of r) n5 T5 D5) as (acc & logic & P5 & U5). set (k := address_of r) in *.
  assert (keeps_accounts n1 n4) as K14 by (apply (keeps_accounts_trans _ n2); [done|]; by apply (keeps_accounts_trans _ n3)).
  assert (fc <> address0 /\ fc ∈ dom (accounts n1)) as [Zf Df] by (by apply (given_good net0 n1 _ fc Gc)).
  assert (wr <> address0 /\ wr ∈ dom (accounts n2)) as [Zw Dw] by (apply (given_good net0 n2 _ wr Gw); [by apply (keeps_accounts_trans _ n1)|done]).
  assert (mm <> EmptyString) as Em' by (destruct F4 as [F4|(_ & _ & n & ->)]; [intros ->; by apply Hmm|apply Hce]).
  destruct (connect_in_place testnet period k n5 acc logic governance fc wr ps mm (o_myntMassetManagerAddress o) (da_inj _ _ _ _ D5) (da_some _ _ _ _ D5) P5 U5)
    as (n6 & a6 & time & H6 & P6 & D6 & S6); [split; [done|]|split; [done|]|done|].
  { apply (keeps_dom n4); [done|]. by apply (keeps_dom n1). }
  { apply (keeps_dom n4); [done|]. apply (keeps_dom n2); [|done]. by apply (keeps_accounts_trans _ n3). }
  destruct (finish_Ok o governance k period n6 a6 logic price (da_inj _ _ _ _ D5) P6 Hg He Ha (fun c => proj2 (S6 c))) as (n7 & a7 & t & H7 & P7 & E7 & O7 & Et & Fd).
  assert (t = time) as -> by (rewrite Et; destruct (S6 ZEROToken_) as [[_ ->] _]; done).
  eexists (mkLiquityDeployment r _ _ period governance fc wr ps mm _ _ testnet _), n7. split.
  - cbn [negb require]. rewrite !(call_then (pure_call (Ok tt)) _ net0 tt net0 eq_refl), (call_then _ _ _ _ _ H1), (call_then _ _ _ _ _ H2), (call_then _ _ _ _ _ H3), (call_then _ _ _ _ _ H4), Hz, (call_then _ _ _ _ _ H5).
    cbn [fst snd]. fold k. rewrite (call_then _ _ _ _ _ H6). unfold finish in H7. fold testnet in H7.
    apply call_bind_Ok in H7 as ([] & m1 & G1 & H7). apply call_bind_Ok in H7 as ([] & m2 & G2 & H7). apply call_bind_Ok in H7 as (t' & m3 & G3 & H7).
    apply call_bind_Ok in H7 as (b & m4 & G4 & H7). injection H7 as -> -> ->.
    rewrite (call_then _ _ _ _ _ G1), (call_then _ _ _ _ _ G2), (call_then _ _ _ _ _ G3), (call_then _ _ _ _ _ G4). reflexivity.
  - split; cbn [d_addresses d_feeSharingCollectorAddress d_priceFeedIsTestnet d_governanceAddress d_wrbtcAddress d_presaleAddress d_marketMakerAddress d_bootstrapPeriod d_deploymentDate].
    + apply (da_some _ _ _ _ D5).
    + apply (da_inj _ _ _ _ D5).
    + intros c a Hin E. pose proof (New5 c) as N5. unfold k in N5. rewrite E in N5. destruct Hin as [[x Hx]| ->].
      * apply K1, K14 in Hx. congruence.
      * apply (keeps_dom n1 n4) in Df; [|done]. apply elem_of_dom in Df as [x Hx]. congruence.
    + intros c. destruct P7 as [[S1 S2] _ C _ _ _ _]. exists (a7 c). split_and!; [apply S1| | |].
      * unfold behind. specialize (C c). rewrite <- (S2 c) in C. rewrite C. f_equal. fold testnet. generalize testnet. by intros []; destruct c.
      * destruct (decide (c = PriceFeed_)) as [->|Hc]; [split; constructor|]. destruct (E7 c Hc) as [E1 E2]. unfold settled_as. rewrite E1, E2, Z.div_mul by done. apply S6.
      * apply O7.
    + done.
    + intros Ht. exists (a7 PriceFeed_). split; [apply (sd_account _ _ _ _ (ip_standing _ _ _ _ _ _ P7))|by apply Fd].
    + done.
Qed.

(** C8: The deployment script succeeds when it is run with a provider by an account
    whose next contracts get different, unused addresses; when the fee collector and
    WRBTC, given on mainnet and optional elsewhere, are contracts; when no market maker
    or governance address that is given is empty or zero; when the script makes the ZUSD
    token itself; and when both oracles answer with a price. The contracts get fresh,
    different addresses and run their code; every variable of theirs that holds an
    address holds the one it is named after, Mynt's included when it is given; PriceFeed
    reads two oracles made for it and starts from their price; all other numbers are
    those the protocol starts from; and every contract that can be owned belongs to the
    governance address. *)
Theorem deployment_connected o net0 price : tidy net0 -> o_provider o = true ->
  (o_isMainnet o = true -> truthy (o_feeSharingCollectorAddress o) && truthy (o_wrbtcAddress o) = true) ->
  default deployer (o_governanceAddress o) <> address0 -> default deployer (o_governanceAddress o) <> EmptyString ->
  contract_given net0 (o_feeSharingCollectorAddress o) -> contract_given net0 (o_wrbtcAddress o) -> o_marketMakerAddress o <> Some EmptyString ->
  o_zusdTokenAddress o = None -> (forall n, create n <> EmptyString) -> (forall a, answer a = Ok (price, true)) ->
  exists d net, deployAndSetupContracts deployer create timestamp block answer o net0 = Ok (d, net) /\ connected o net0 price d net.
Proof. apply deployment_connects. Qed.

(** ** A token that belongs to somebody else *)

Lemma send_all_app n l1 l2 net : send_all deployer timestamp answer n (l1 ++ l2) net =
  match send_all deployer timestamp answer n l1 net with
  | (net1, None) => send_all deployer timestamp answer (n + Z.of_nat (length l1)) l2 net1
  | r => r
  end.
Proof.
  revert n net. induction l1 as [|[a m] l1 IH]; intros n net; cbn [send_all app length]; [by rewrite Z.add_0_r|].
  destruct (send_at _ _ _ _ _ _ net) as [[u net1]|]; [|done]. rewrite IH. by replace (n + 1 + Z.of_nat (length l1)) with (n + Z.of_nat (S (length l1))) by lia.
Qed.

(** The contracts that come before the token. *)
Definition before_token : list Contract := [ActivePool_; BorrowerOperations_; FeeDistributor_; TroveManager_; TroveManagerRedeemOps_].

Lemma before_token_calls present n logic c x governance : run_own present n logic c x (map (fun c => (c, SetOwner_ governance)) before_token) =
  if decide (c ∈ before_token) then let! x' := run_account present answer (timestamp n) deployer logic (SetOwner_ governance) x in Ok x' else Ok x.
Proof. by destruct c. Qed.

(** C40: When the ZUSD token is one that the deployer does not own, handing over the
    contracts stops at it: five contracts get their new owner, all others stay with the
    deployer, and the script goes on as if nothing had happened. *)
Theorem handover_stops testnet k net acc logic governance : (forall c c', k c = k c' -> c = c') -> standing k net acc logic -> governance <> address0 ->
  (forall c, c ∈ before_token -> ownable (bytecode (acc c)) = true /\ owner (acc c) = deployer) -> owner (acc ZUSDToken_) <> deployer ->
  exists net', transferOwnership deployer timestamp answer k governance testnet net = Ok (tt, net') /\
    forall c, accounts net' !! k c = Some (if decide (c ∈ before_token) then set_owner (acc c) governance else acc c).
Proof.
  intros Ki S Hg Hb Hz. set (l := map (fun c => (c, SetOwner_ governance)) before_token).
  destruct (send_all_own k l net acc (fun c => if decide (c ∈ before_token) then set_owner (acc c) governance else acc c) logic Ki S) as (n1 & H1 & S1 & D1 & C1 & _).
  - unfold l. apply Forall_fmap, Forall_forall. intros c _ a. done.
  - intros c. assert (c ∈ before_token -> run_account (dom (accounts net)) answer (timestamp (txCount net)) deployer (logic c) (SetOwner_ governance) (acc c) = Ok (set_owner (acc c) governance)) as R.
    { intros Hc. destruct (Hb c Hc) as [B O]. cbn [run_account]. rewrite B. unfold ownable_setOwner, only_owner, same, is_zero.
      by rewrite O, bool_decide_eq_true_2, bool_decide_eq_false_2 by done. }
    unfold l. rewrite before_token_calls. case_decide as Hc; [|done]. by rewrite R.
  - exists n1. split; [|intros c; apply (sd_account _ _ _ _ S1)]. unfold transferOwnership, ownership_transfers.
    match goal with |- context [at_addresses k (map ?f ?x)] => change (map f x) with (l ++ map f (drop 5 x)) end.
    unfold at_addresses. rewrite map_app, send_all_app. fold (at_addresses k l). rewrite H1. cbn [fst snd map drop app send_all].
    assert (forall n, exists e, send_at deployer timestamp answer n (k ZUSDToken_) (SetOwner_ governance) n1 = Throw e) as E;
      [|match goal with |- context [send_at _ _ _ ?n (k ZUSDToken_) _ n1] => by destruct (E n) as [e ->] end].
    intros n. unfold send_at, send. rewrite (sd_account _ _ _ _ S1 ZUSDToken_), decide_False by (apply (bool_decide_eq_false_1 (ZUSDToken_ ∈ before_token)); done).
    destruct (_ =? _); [|by eexists]. cbn [run_account]. destruct (ownable _); [|by eexists].
    unfold ownable_setOwner, only_owner, same. rewrite bool_decide_eq_false_2 by congruence. by eexists.
Qed.
End Script.

(** ** The protocol that starts *)

(** What a variable of a contract holds on the network. *)
Definition slot_at (net : Net) (a : address) (name : string) : address :=
  match accounts net !! a with Some x => default address0 (slots x !! name) | None => address0 end.
Definition number_at (net : Net) (a : address) (name : string) : Z :=
  match accounts net !! a with Some x => default 0 (numbers x !! name) | None => 0 end.

Section Started.
Context (d : LiquityDeployment) (net : Net).
Abbreviation k := (address_of (d_addresses d)).

(** The addresses that the contracts have of each other. *)
Definition wiring_in : Wiring :=
  mkWiring (slot_at net (k TroveManager_) "borrowerOperationsAddress") (slot_at net (k BorrowerOperations_) "troveManager")
    (slot_at net (k TroveManager_) "_stabilityPool") (slot_at net (k TroveManager_) "activePool") (slot_at net (k TroveManager_) "defaultPool")
    (slot_at net (k TroveManager_) "sortedTroves") (slot_at net (k TroveManager_) "collSurplusPool") (slot_at net (k TroveManager_) "gasPoolAddress")
    (slot_at net (k TroveManager_) "feeDistributor") (slot_at net (k TroveManager_) "_zusdToken") (slot_at net (k TroveManager_) "_zeroStaking")
    (slot_at net (k FeeDistributor_) "feeSharingCollector") (slot_at net (k BorrowerOperations_) "massetManager")
    (slot_at net (k TroveManager_) "_zeroToken") (slot_at net (k TroveManager_) "liquityBaseParams")
    (slot_at net (k StabilityPool_) "communityIssuance") (slot_at net (k CommunityIssuance_) "fundingWalletAddress")
    (d_bootstrapPeriod d) (number_at net (k ZEROToken_) "deploymentStartTime").

Definition params_in : Params :=
  mkParams (number_at net (k LiquityBaseParams_) "MCR") (number_at net (k LiquityBaseParams_) "CCR") (number_at net (k LiquityBaseParams_) "PERCENT_DIVISOR")
    (number_at net (k LiquityBaseParams_) "BORROWING_FEE_FLOOR") (number_at net (k LiquityBaseParams_) "REDEMPTION_FEE_FLOOR")
    (number_at net (k LiquityBaseParams_) "MAX_BORROWING_FEE").

(** The storage of the protocol as it is on the network, with the ether [e] of the accounts and what other contracts store.  No setter
    writes a mapping or an array. *)
Definition system_in (e : gmap address Z) (f : gmap string Z) : System :=
  let n c name := number_at net (k c) name in
  mkSystem wiring_in params_in
    (mkManager (n TroveManager_ "baseRate") (n TroveManager_ "lastFeeOperationTime") ∅ (n TroveManager_ "totalStakes") (n TroveManager_ "totalStakesSnapshot")
       (n TroveManager_ "totalCollateralSnapshot") (n TroveManager_ "L_ETH") (n TroveManager_ "L_ZUSDDebt") ∅ []
       (n TroveManager_ "lastETHError_Redistribution") (n TroveManager_ "lastZUSDDebtError_Redistribution"))
    (mkPool (n ActivePool_ "ETH") (n ActivePool_ "ZUSDDebt")) (mkPool (n DefaultPool_ "ETH") (n DefaultPool_ "ZUSDDebt"))
    (mkSortedTroves address0 (slot_at net (k SortedTroves_) "borrowerOperationsAddress") (slot_at net (k SortedTroves_) "troveManager")
       (mkData address0 address0 (n SortedTroves_ "data.maxSize") (n SortedTroves_ "data.size") ∅))
    (mkToken (n ZUSDToken_ "_totalSupply") ∅ ∅ ∅) (mkSurplus (n CollSurplusPool_ "ETH") ∅)
    (mkStability (n StabilityPool_ "ETH") (n StabilityPool_ "totalZUSDDeposits") ∅ ∅ ∅ ∅ ∅ (n StabilityPool_ "P") (n StabilityPool_ "currentScale")
       (n StabilityPool_ "currentEpoch") ∅ ∅ (n StabilityPool_ "lastZEROError") (n StabilityPool_ "lastETHError_Offset") (n StabilityPool_ "lastZUSDLossError_Offset")
       (mkCommunity (n CommunityIssuance_ "ZEROSupplyCap") (n CommunityIssuance_ "totalZEROIssued") (n CommunityIssuance_ "deploymentTime")))
    (mkStaking ∅ (n ZEROStaking_ "totalZEROStaked") (n ZEROStaking_ "F_ETH") (n ZEROStaking_ "F_ZUSD") ∅) (mkZeroToken ∅ ∅) (owner <$> accounts net) (n FeeDistributor_ "FEE_TO_FEE_SHARING_COLLECTOR") (n PriceFeed_ "lastGoodPrice") e f.

Section Connected.
Context (o : Options) (net0 : Net) (price : Z) (C : connected o net0 price d net).

Lemma slot_meant c name : name ∈ needs c -> slot_at net (k c) name
  = default address0 (meant k (d_governanceAddress d) (d_feeSharingCollectorAddress d) (d_wrbtcAddress d) (d_presaleAddress d) (d_marketMakerAddress d)
      (o_myntMassetManagerAddress o) name).
Proof. intros Hn. destruct (co_account _ _ _ _ _ C c) as (x & Hx & _ & [F _] & _). unfold slot_at. rewrite Hx. rewrite Forall_forall in F. by rewrite (F name Hn). Qed.

Lemma number_started c name : match c with GasPool_ | TroveManagerRedeemOps_ | PriceFeed_ => False | _ => True end ->
  number_at net (k c) name = default 0 ((list_to_map (starts (d_deploymentDate d / 1000) c) : gmap string Z) !! name).
Proof. intros Hc. destruct (co_account _ _ _ _ _ C c) as (x & Hx & _ & [_ N] & _). unfold number_at. rewrite Hx. by destruct c; try rewrite N. Qed.

Definition core_contracts : list Contract :=
  [BorrowerOperations_; TroveManager_; StabilityPool_; ActivePool_; DefaultPool_; SortedTroves_; CollSurplusPool_; GasPool_; FeeDistributor_;
   ZUSDToken_; ZEROStaking_].

Ltac read_slot := rewrite slot_meant by (apply (bool_decide_eq_true_1 (_ ∈ needs _)); vm_compute; reflexivity).

Lemma wiring_read : core wiring_in = map k core_contracts /\ feeSharingCollector wiring_in = d_feeSharingCollectorAddress d /\
  massetManager wiring_in = default address0 (chosen (o_myntMassetManagerAddress o)).
Proof. unfold core, wiring_in. cbn [borrowerOperations troveManager stabilityPool activePool defaultPool sortedTroves collSurplusPool gasPool feeDistributor zusdToken zeroStaking feeSharingCollector massetManager]. repeat read_slot. done. Qed.

Lemma system_read e f : d_priceFeedIsTestnet d = false -> system_in e f
  = genesis wiring_in initial_params 1000000 LiquityMath.DECIMAL_PRECISION price 0 (mkCommunity 0 0 0) (owner <$> accounts net) e f.
Proof.
  intros Ht. destruct (co_feeds _ _ _ _ _ C Ht) as (x & Hx & main & backup & _ & _ & _ & Hp & _).
  unfold system_in, genesis, params_in, empty_manager, empty_pool, empty_staking.
  assert (number_at net (k PriceFeed_) "lastGoodPrice" = price) as -> by (unfold number_at; by rewrite Hx, Hp).
  rewrite !number_started by done.
  assert (slot_at net (k SortedTroves_) "borrowerOperationsAddress" = borrowerOperations wiring_in) as ->.
  { unfold wiring_in. cbn [borrowerOperations]. by repeat read_slot. }
  assert (slot_at net (k SortedTroves_) "troveManager" = troveManager wiring_in) as ->; [|reflexivity].
  unfold wiring_in. cbn [troveManager]. by repeat read_slot.
Qed.

(** The core contracts have different addresses, none of which is zero, the fee collector's or Mynt's. *)
Lemma connected_deployed e : (forall a, o_myntMassetManagerAddress o = Some a -> is_Some (accounts net0 !! a)) ->
  is_word price && forallb (fun x => 0 <=? snd x) (map_to_list e) && (map_fold (fun _ n t => n + t) 0 e <? 2 ^ 128) = true ->
  deployed wiring_in initial_params LiquityMath.DECIMAL_PRECISION price 0 e = true.
Proof.
  intros M W. rewrite !andb_true_iff in W. destruct W as [[W1 W3] W4]. unfold deployed. destruct wiring_read as (-> & -> & ->).
  assert (forall a, (forall c, k c <> a) -> a ∉ map k core_contracts) as Out.
  { intros a Ha (c & -> & _)%list_elem_of_fmap. by apply (Ha c). }
  rewrite !andb_true_iff. split_and!; try done; apply bool_decide_eq_true.
  - apply NoDup_fmap_2; [intros c c'; apply (co_inj _ _ _ _ _ C)|]. by apply (bool_decide_eq_true_1 (NoDup core_contracts)).
  - apply Out, (co_some _ _ _ _ _ C).
  - apply Out. intros c. apply (co_fresh _ _ _ _ _ C). by right.
  - apply Out. intros c. unfold chosen. destruct (truthy _) eqn:E; [|apply (co_some _ _ _ _ _ C)].
    destruct (o_myntMassetManagerAddress o) as [a|]; [|done]. apply (co_fresh _ _ _ _ _ C). left. by apply M.
Qed.
End Connected.
End Started.

(** C19: The deployment script starts the protocol. Let it be run with a provider by an
    account whose next contracts get different, unused addresses, with external price
    feeds that answer with a word; with the addresses of the fee collector, WRBTC and
    Mynt, where they are given (the first two must be on mainnet), being those of
    contracts; with no empty market maker or governance address; and without a ZUSD
    token from elsewhere. Then the script succeeds, and what the contracts hold on the
    network is the state [genesis] that the theorems about the protocol start from, with
    the addresses found in the storage of the contracts and the parameters and the price
    that the script has set. So, whatever ether the accounts have, as long as it fits in
    128 bits, the books of the protocol are right after any transactions that follow. *)
Theorem deployment_starts_protocol deployer create timestamp block answer o net0 price e f :
  (forall m n, create m = create n -> m = n) -> (forall n, create n <> address0 /\ create n <> EmptyString) -> tidy create net0 -> o_provider o = true ->
  (o_isMainnet o = true -> truthy (o_feeSharingCollectorAddress o) && truthy (o_wrbtcAddress o) = true) ->
  default deployer (o_governanceAddress o) <> address0 -> default deployer (o_governanceAddress o) <> EmptyString ->
  contract_given net0 (o_feeSharingCollectorAddress o) -> contract_given net0 (o_wrbtcAddress o) -> o_marketMakerAddress o <> Some EmptyString ->
  o_zusdTokenAddress o = None -> (forall a, answer a = Ok (price, true)) -> o_externalPriceFeeds o <> None ->
  (forall a, o_myntMassetManagerAddress o = Some a -> is_Some (accounts net0 !! a)) ->
  is_word price && forallb (fun x => 0 <=? snd x) (map_to_list e) && (map_fold (fun _ n t => n + t) 0 e <? 2 ^ 128) = true ->
  exists d net, deployAndSetupContracts deployer create timestamp block answer o net0 = Ok (d, net) /\
    system_in d net e f = genesis (wiring_in d net) initial_params 1000000 LiquityMath.DECIMAL_PRECISION price 0 (mkCommunity 0 0 0) (owner <$> accounts net) e f /\
    forall depth txs, inv (history depth txs (system_in d net e f)).
Proof.
  intros Hi Hs T Hp Hmn Hg He Gc Gw Hmm Hz Ha Hx M W.
  destruct (deployment_connects deployer create timestamp block answer Hi (fun n => proj1 (Hs n)) o net0 price T Hp Hmn Hg He Gc Gw Hmm Hz (fun n => proj2 (Hs n)) Ha)
    as (d & net & H & C). exists d, net.
  assert (d_priceFeedIsTestnet d = false) as Ht by (rewrite (co_testnet _ _ _ _ _ C); by apply bool_decide_eq_false_2).
  rewrite (system_read d net o net0 price C e f Ht). split_and!; [done|done|]. intros depth txs. apply history_inv, genesis_inv. by apply (connected_deployed d net o net0).
Qed.

(** ** A concrete deployment *)

(** On a development chain, with a governance address and Mynt. *)
Definition sample_create (n : Z) : address := String "c" (pretty n).
Definition sample_net : Net := mkNet {[ "mynt" := mkAccount (Other "MassetManager") address0 address0 false ∅ ∅ ]} 0.
Definition sample_options : Options :=
  mkOptions true (Some (mkOracleAddresses "moc" "rsk")) true (Some "gov") None None None None None (Some "mynt") None false true.
Definition sample_answer (a : address) : result (Z * bool) := Ok (20000 * 10 ^ 18, true).

Lemma sample_create_inj m n : sample_create m = sample_create n -> m = n.
Proof. intros [= E]. by apply (inj pretty) in E. Qed.

Definition sample_run : result (LiquityDeployment * Net) :=
  deployAndSetupContracts "0xD" sample_create (fun n => 1600000000 + n) id sample_answer sample_options sample_net.

Lemma sample_tidy : tidy sample_create sample_net.
Proof. intros n _. unfold sample_net. cbn [accounts]. by rewrite lookup_singleton_ne. Qed.

Lemma sample_some n : sample_create n <> address0.
Proof. done. Qed.

Lemma deployment_connected_witness : exists d net, sample_run = Ok (d, net) /\ connected sample_options sample_net (20000 * 10 ^ 18) d net /\ d_bootstrapPeriod d = TWO_WEEKS.
Proof.
  destruct (deployment_connected "0xD" sample_create (fun n => 1600000000 + n) id sample_answer sample_create_inj sample_some
    sample_options sample_net (20000 * 10 ^ 18) sample_tidy eq_refl) as (d & net & H & C); [done..|].
  exists d, net. split_and!; [exact H|exact C|]. exact (co_period _ _ _ _ _ C).
Defined.

Lemma deployment_starts_protocol_witness : exists d net, sample_run = Ok (d, net) /\
  forall depth txs, inv (history depth txs (system_in d net {[ "0xA" := 10 ^ 21 ]} ∅)).
Proof.
  destruct (deployment_starts_protocol "0xD" sample_create (fun n => 1600000000 + n) id sample_answer sample_options sample_net (20000 * 10 ^ 18) {[ "0xA" := 10 ^ 21 ]} ∅)
    as (d & net & H & _ & I).
  - exact sample_create_inj.
  - intros n. split; done.
  - exact sample_tidy.
  - reflexivity.
  - done.
  - done.
  - done.
  - done.
  - done.
  - done.
  - reflexivity.
  - reflexivity.
  - done.
  - intros a [= <-]. eexists. reflexivity.
  - vm_compute. reflexivity.
  - exists d, net. split; [exact H|exact I].
Defined.

(** The token belongs to an earlier deployment. *)
Definition shared_k (c : Contract) : address := String "k" (pretty (key c)).
Definition shared_account (c : Contract) : Account :=
  mkAccount UpgradableProxy_ "logic" (if decide (c = ZUSDToken_) then "0xElse" else "0xD") false ∅ ∅.
Definition all_contracts : list Contract :=
  [ActivePool_; BorrowerOperations_; TroveManager_; TroveManagerRedeemOps_; CollSurplusPool_; CommunityIssuance_; DefaultPool_; HintHelpers_;
   ZEROStaking_; PriceFeed_; SortedTroves_; StabilityPool_; GasPool_; LiquityBaseParams_; FeeDistributor_; ZUSDToken_; ZEROToken_; MultiTroveGetter_].
Definition shared_net : Net := mkNet (list_to_map (map (fun c => (shared_k c, shared_account c)) all_contracts)) 7.

Lemma shared_k_inj c c' : shared_k c = shared_k c' -> c = c'.
Proof. intros [= E]. apply (inj pretty) in E. by destruct c, c'. Qed.

Lemma handover_stops_witness : exists net', transferOwnership "0xD" id (fun _ => Throw TypeError) shared_k "gov" false shared_net = Ok (tt, net') /\
  option_map owner (accounts net' !! shared_k TroveManager_) = Some "gov" /\ option_map owner (accounts net' !! shared_k StabilityPool_) = Some "0xD".
Proof.
  destruct (handover_stops "0xD" id (fun _ => Throw TypeError) false shared_k shared_net shared_account (fun _ => None) "gov" shared_k_inj) as (net' & H & O).
  - split; intros c; by destruct c.
  - done.
  - intros c Hc. split; [done|]. cbn. case_decide as D; [|done]. subst c. by apply (bool_decide_eq_true_2 (ZUSDToken_ ∈ before_token)) in Hc.
  - done.
  - exists net'. split; [exact H|]. split; [rewrite (O TroveManager_)|rewrite (O StabilityPool_)]; reflexivity.
Defined.
