(* ===== verification/ProxyScripts.v ===== *)
(** * Proxy: the scripts that a user's proxy runs

    contracts/Proxy/*Script.sol.  The proxy of a user delegates calls to the scripts, so that
    they run with the address [me] of the proxy, which owns the Trove, the deposit and the
    stake.  The ether sent along has arrived at the proxy before its script runs.
    What a script does when it reverts is undone. *)

From S2P Require Import Prelude Solidity SortedTroves ChainState ZUSDToken ActivePool DefaultPool CollSurplusPool.
From S2P Require Import Outside FeeDistributor TroveManager BorrowerOperations StabilityPool Liquidations Redemptions.
From S2P Require Import ZEROStaking Governance Transactions.
Local Open Scope Z_scope.

Section Scripts.
Variable W : World.
Variable receive_outside : address -> address -> Z -> call System unit.
Variable me : address.

Definition own_ether : call System Z := view_call (fun s => Ok (ether_of s me)).
Definition own_ZUSD : call System Z := view_call (fun s => Ok (balanceOf s me)).
(** No function of ZEROToken.sol writes a balance. *)
Definition own_ZERO : call System Z := call_ret 0.

(** ** BorrowerWrappersScript.sol *)

Definition _requireUserHasTrove (depositor : address) : call System unit :=
  view_call (fun s => require (is_active (manager s) depositor) "BorrowerWrappersScript: caller must have an active trove").

Definition _getNetZUSDAmount (collateral : Z) : call System Z :=
  let$ price := fetchPrice W in
  let$ ICR := view_call (fun s => _getCurrentICR (manager s) me price) in
  let$ n := pure_call (SafeMath.mul collateral price) in
  let$ ZUSDAmount := pure_call (SafeMath.div n ICR) in
  let$ borrowingRate := view_call (fun s => getBorrowingRateWithDecay s (now W)) in
  let$ n := pure_call (SafeMath.mul ZUSDAmount LiquityMath.DECIMAL_PRECISION) in
  let$ d := pure_call (SafeMath.add LiquityMath.DECIMAL_PRECISION borrowingRate) in
  pure_call (SafeMath.div n d).

Definition claimCollateralAndOpenTrove (value maxFee ZUSDAmount : Z) (upperHint lowerHint : address) : call System unit :=
  let$ balanceBefore := own_ether in
  let$ _ := claimCollateral receive_outside me in
  let$ balanceAfter := own_ether in
  let$ _ := pure_call (sol_assert (balanceBefore <? balanceAfter)) in
  let$ n := pure_call (SafeMath.sub balanceAfter balanceBefore) in
  let$ totalCollateral := pure_call (SafeMath.add n value) in
  openTrove W receive_outside me totalCollateral maxFee ZUSDAmount upperHint lowerHint.

(** The collateral goes to the Trove, and ZUSD is drawn so that the ratio stays. *)
Definition top_up (maxFee collateral : Z) (upperHint lowerHint : address) : call System Z :=
  let$ _ := _requireUserHasTrove me in
  let$ ZUSDAmount := _getNetZUSDAmount collateral in
  let$ _ := adjustTrove W receive_outside me collateral maxFee 0 ZUSDAmount true upperHint lowerHint in
  call_ret ZUSDAmount.

Definition stake_claimed (claimedZERO : Z) : call System unit :=
  if 0 <? claimedZERO then stake receive_outside me claimedZERO else call_ret tt.

Definition claimSPRewardsAndRecycle (maxFee : Z) (upperHint lowerHint : address) : call System unit :=
  let$ collBalanceBefore := own_ether in
  let$ zeroBalanceBefore := own_ZERO in
  let$ _ := withdrawFromSP W receive_outside me 0 in
  let$ collBalanceAfter := own_ether in
  let$ zeroBalanceAfter := own_ZERO in
  let$ claimedCollateral := pure_call (SafeMath.sub collBalanceAfter collBalanceBefore) in
  let$ _ := (if 0 <? claimedCollateral then
               let$ ZUSDAmount := top_up maxFee claimedCollateral upperHint lowerHint in
               if 0 <? ZUSDAmount then provideToSP W receive_outside me ZUSDAmount address0 else call_ret tt
             else call_ret tt) in
  let$ claimedZERO := pure_call (SafeMath.sub zeroBalanceAfter zeroBalanceBefore) in
  stake_claimed claimedZERO.

Definition claimStakingGainsAndRecycle (maxFee : Z) (upperHint lowerHint : address) : call System unit :=
  let$ collBalanceBefore := own_ether in
  let$ zusdBalanceBefore := own_ZUSD in
  let$ zeroBalanceBefore := own_ZERO in
  let$ _ := ZEROStaking.unstake receive_outside me 0 in
  let$ collBalanceAfter := own_ether in
  let$ gainedCollateral := pure_call (SafeMath.sub collBalanceAfter collBalanceBefore) in
  let$ zusdBalanceAfter := own_ZUSD in
  let$ gainedZUSD := pure_call (SafeMath.sub zusdBalanceAfter zusdBalanceBefore) in
  let$ netZUSDAmount := (if 0 <? gainedCollateral then top_up maxFee gainedCollateral upperHint lowerHint else call_ret 0) in
  let$ totalZUSD := pure_call (SafeMath.add gainedZUSD netZUSDAmount) in
  if 0 <? totalZUSD then
    let$ _ := provideToSP W receive_outside me totalZUSD address0 in
    let$ zeroBalanceAfter := own_ZERO in
    let$ claimedZERO := pure_call (SafeMath.sub zeroBalanceAfter zeroBalanceBefore) in
    stake_claimed claimedZERO
  else call_ret tt.

(** ** ETHTransferScript.sol *)

(** Whether the payment succeeded. *)
Definition transferETH (recipient : address) (amount : Z) : call System bool := fun s =>
  match transfer receive_outside me recipient amount s with
  | Ok (_, s') => Ok (true, s')
  | Throw _ => Ok (false, s)
  end.
End Scripts.

(** ** All functions *)

(** The other scripts pass one call on: the functions of BorrowerOperationsScript.sol,
    StabilityPoolScript.sol, TroveManagerScript.sol and ZEROStakingScript.sol, and those of TokenScript.sol for the two tokens. *)
Inductive Script : Type :=
| OpenTroveScript (value maxFee ZUSDAmount : Z) (upperHint lowerHint : address)
| AddCollScript (value : Z) (upperHint lowerHint : address)
| WithdrawCollScript (amount : Z) (upperHint lowerHint : address)
| WithdrawZUSDScript (maxFee amount : Z) (upperHint lowerHint : address)
| RepayZUSDScript (amount : Z) (upperHint lowerHint : address)
| CloseTroveScript
| AdjustTroveScript (value maxFee collWithdrawal debtChange : Z) (isDebtIncrease : bool) (upperHint lowerHint : address)
| ClaimCollateralScript
| ProvideToSPScript (amount : Z) (frontEndTag : address)
| WithdrawFromSPScript (amount : Z)
| WithdrawETHGainToTroveScript (upperHint lowerHint : address)
| RedeemCollateralScript (ZUSDAmount : Z) (firstRedemptionHint upperHint lowerHint : address) (hintNICR maxIterations maxFee : Z)
| StakeScript (ZEROamount : Z)
| TransferScript (recipient : address) (amount : Z)
| ApproveScript (spender : address) (amount : Z)
| TransferFromScript (sender recipient : address) (amount : Z)
| IncreaseAllowanceScript (spender : address) (addedValue : Z)
| DecreaseAllowanceScript (spender : address) (subtractedValue : Z)
| ApproveZEROScript (spender : address) (amount : Z)
| TransferFromZEROScript (sender recipient : address) (amount : Z)
| IncreaseAllowanceZEROScript (spender : address) (addedValue : Z)
| DecreaseAllowanceZEROScript (spender : address) (subtractedValue : Z)
| ClaimCollateralAndOpenTrove (value maxFee ZUSDAmount : Z) (upperHint lowerHint : address)
| ClaimSPRewardsAndRecycle (maxFee : Z) (upperHint lowerHint : address)
| ClaimStakingGainsAndRecycle (maxFee : Z) (upperHint lowerHint : address).

(** The call that a script passes on. *)
Definition passed_on (me : address) (f : Script) : option operation :=
  match f with
  | OpenTroveScript v m n up low => Some (OpenTrove v m n up low)
  | AddCollScript v up low => Some (AddColl v up low)
  | WithdrawCollScript n up low => Some (WithdrawColl n up low)
  | WithdrawZUSDScript m n up low => Some (WithdrawZUSD m n up low)
  | RepayZUSDScript n up low => Some (RepayZUSD n up low)
  | CloseTroveScript => Some CloseTrove
  | AdjustTroveScript v m c n inc up low => Some (AdjustTrove v m c n inc up low)
  | ClaimCollateralScript => Some ClaimCollateral
  | ProvideToSPScript n tag => Some (ProvideToSP n tag)
  | WithdrawFromSPScript n => Some (WithdrawFromSP n)
  | WithdrawETHGainToTroveScript up low => Some (WithdrawETHGainToTrove up low)
  | RedeemCollateralScript n first up low h i m => Some (RedeemCollateral n first up low h i m)
  | StakeScript n => Some (Stake n)
  | TransferScript to n => Some (Act (TransferZUSD me to n))
  | ApproveScript spender n => Some (Act (ApproveZUSD me spender n))
  | TransferFromScript from to n => Some (Act (TransferFromZUSD me from to n))
  | IncreaseAllowanceScript spender n => Some (Act (IncreaseAllowanceZUSD me spender n))
  | DecreaseAllowanceScript spender n => Some (Act (DecreaseAllowanceZUSD me spender n))
  | ApproveZEROScript spender n => Some (ApproveZERO spender n)
  | TransferFromZEROScript from to n => Some (TransferFromZERO from to n)
  | IncreaseAllowanceZEROScript spender n => Some (IncreaseAllowanceZERO spender n)
  | DecreaseAllowanceZEROScript spender n => Some (DecreaseAllowanceZERO spender n)
  | ClaimCollateralAndOpenTrove _ _ _ _ _ | ClaimSPRewardsAndRecycle _ _ _ | ClaimStakingGainsAndRecycle _ _ _ => None
  end.

(** The numbers that a wrapper is called with. *)
Definition script_amounts (f : Script) : list Z :=
  match f with
  | ClaimCollateralAndOpenTrove v m n _ _ => [v; m; n]
  | ClaimSPRewardsAndRecycle m _ _ | ClaimStakingGainsAndRecycle m _ _ => [m]
  | _ => []
  end.

Definition run_script (W : World) (receive_outside : address -> address -> Z -> call System unit) (me : address) (f : Script)
    : call System unit :=
  match f with
  | ClaimCollateralAndOpenTrove v m n up low => claimCollateralAndOpenTrove W receive_outside me v m n up low
  | ClaimSPRewardsAndRecycle m up low => claimSPRewardsAndRecycle W receive_outside me m up low
  | ClaimStakingGainsAndRecycle m up low => claimStakingGainsAndRecycle W receive_outside me m up low
  | _ => match passed_on me f with
         | Some op => execute receive_outside (mkCall W me op)
         | None => call_ret tt
         end
  end.
