(* ===== verification/ScriptFacts.v ===== *)
(** * What the scripts of a proxy do

    A script is a sequence of operations of the protocol, so that what holds after every history
    holds after scripts too; the scripts that recycle gains keep the ratio of the Trove. *)

From S2P Require Import Prelude Solidity Ledger SortedTroves SortedTrovesFacts ChainState ZUSDToken.
From S2P Require Import ActivePool DefaultPool CollSurplusPool Outside FeeDistributor ZEROStaking Governance TroveManager BorrowerOperations.
From S2P Require Import StabilityPool Liquidations Redemptions Transactions Invariant InvariantFacts TroveSteps BorrowerSteps BorrowerFacts.
From S2P Require Import PoolSteps LiquidationFacts RedemptionFacts StabilityFacts StakingFacts TransactionFacts OperationFacts CallWalk OperationWalk.
From S2P Require Import ProxyScripts.
Import LiquityMath.
Local Open Scope Z_scope.

(** ** The addresses do not change *)

Section Wired.
Context (w : Wiring) (N : NoDup (core w)).
Definition placed (s : System) : Prop := wiring s = w.
Abbreviation whatever := (fun _ _ : System => True).
Abbreviation safe := (leads placed whatever anything).

Lemma placed_token g msg f : safe (token_call g msg f).
Proof. intros s r s' S H. unfold token_call in H. inv_result. done. Qed.
Lemma placed_pay from to n : safe (pay from to n).
Proof. intros s r s' S H. apply pay_Ok in H as (_ & e & -> & _). done. Qed.
Lemma placed_pool f : safe (pool_call f).
Proof. intros s r s' S H. apply pool_call_Ok in H as (p & _ & ->). done. Qed.
Lemma placed_staking f : safe (staking_call f).
Proof. intros s r s' S H. apply staking_call_Ok in H as (k & _ & ->). done. Qed.
Lemma placed_F_ETH me n : safe (increaseF_ETH me n).
Proof. intros s r s' S H. unfold increaseF_ETH in H. inv_result. done. Qed.
Lemma placed_F_ZUSD me n : safe (increaseF_ZUSD me n).
Proof. intros s r s' S H. unfold increaseF_ZUSD in H. inv_result. done. Qed.

#[export] Instance placed_guarded : Guarded w placed whatever.
Proof.
  split; try done.
  - intros s s' S (E & _). by split.
  - intros from to n _ _. apply placed_pay.
  - intros g msg f _. apply placed_token.
  - intros spender a b n _. apply placed_token.
Qed.

Section Operations.
Context (W : World) (recv : address -> address -> Z -> call System unit).
Context (Hrecv : forall from to n, safe (recv from to n)).

Lemma placed_transfer from to n : safe (transfer recv from to n).
Proof.
  apply (safe_bind w placed whatever); [apply placed_pay|intros _]. intros s r s' S H. destruct (is_core s to); [|by apply (Hrecv from to n s r)].
  by apply (inert_safe w placed whatever _ (inert_receive w from to n) s r).
Qed.

#[local] Hint Resolve placed_token placed_pay placed_pool placed_staking placed_F_ETH placed_F_ZUSD placed_transfer : safe.
#[local] Hint Extern 1 (leads _ _ _ _) => (apply (inert_safe w placed whatever); solve [eauto 8 with inert safe]) : safe.
#[local] Hint Extern 2 (leads _ _ _ _) => (apply (safe_sendETH w N placed whatever recv Hrecv)) : safe.
#[local] Hint Extern 2 (leads _ _ _ _) => (apply (safe_sendGain w N placed whatever recv Hrecv)) : safe.
#[local] Hint Extern 2 (leads _ _ _ _) => (apply (safe_check w placed whatever)) : safe.
#[local] Hint Extern 2 (leads _ _ _ _) => (apply (safe_outside w placed whatever)) : safe.
#[local] Hint Extern 2 (leads _ _ _ _) => (apply (safe_or_revert placed whatever)) : safe.

Ltac walk := repeat match goal with |- leads _ _ _ (call_bind _ _) => apply (safe_bind w placed whatever); [solve [auto with safe]|intros ?] end.

Lemma placed_distribute me : safe (distributeFees W recv me).
Proof.
  at_wiring w (@distributeFees). apply (safe_bind w placed whatever); [|intros _]; (destruct (negb _); [|auto with safe]).
  - at_wiring w (@_distributeZUSD). unfold approve, token_transfer. walk. destruct (negb _); [|auto with safe]. walk. auto with safe.
  - at_wiring w (@_distributeRBTC). walk. destruct (negb _); [|auto with safe]. walk. auto with safe.
Qed.

Lemma placed_payout sender gz ge : safe (let$ _ := token_transfer (zeroStaking w) sender gz in _sendETHGainToUser recv sender ge).
Proof. unfold token_transfer, _sendETHGainToUser, this_staking. walk. auto with safe. Qed.

Lemma placed_stake sender n : safe (stake recv sender n).
Proof.
  unfold stake, this_staking, sendToZEROStaking. apply (safe_contract w placed whatever zeroStaking). walk. destruct (negb _); [apply placed_payout|auto with safe].
Qed.

Lemma placed_unstake sender n : safe (ZEROStaking.unstake recv sender n).
Proof.
  unfold ZEROStaking.unstake, this_staking, transferZERO. apply (safe_contract w placed whatever zeroStaking). walk.
  apply (safe_bind w placed whatever); [destruct (0 <? n); [walk|]; auto with safe|intros _]. apply placed_payout.
Qed.

Lemma placed_withdrawTo sender n receiver : safe (_withdrawFromSpTo W recv sender n receiver).
Proof.
  unfold _withdrawFromSpTo, pool_view, _payOutZEROGains. walk. cbv zeta. walk. apply (safe_bind w placed whatever); [|intros ?; walk; auto with safe].
  unfold _sendZUSDToDepositor, this_pool, returnFromPool, _decreaseZUSD. destruct (_ =? 0); [auto with safe|]. walk. auto with safe.
Qed.

Lemma placed_offset me debt coll : safe (offset W recv me debt coll).
Proof.
  unfold offset, pool_view. walk. case_match; [auto with safe|]. unfold _moveOffsetCollAndDebt, this_pool, _decreaseZUSD, burn. walk. auto with safe.
Qed.
End Operations.

#[export] Instance placed_accounted : Accounted w placed whatever.
Proof.
  split.
  - apply placed_guarded.
  - apply (safe_bind w placed whatever); [apply (inert_safe w placed whatever), inert_view|intros ?].
    apply (safe_bind w placed whatever); [apply (inert_safe w placed whatever), inert_decrease|intros ?; apply placed_token].
  - intros sender n _ _. apply (safe_bind w placed whatever); [apply (inert_safe w placed whatever), inert_view|intros ?].
    apply (safe_bind w placed whatever); [apply placed_token|intros ?; apply placed_pool].
  - intros W recv me debt coll R _. by apply placed_offset.
  - intros W recv sender n R _. apply (safe_bind w placed whatever); [by apply placed_withdrawTo|intros ?; apply (inert_safe w placed whatever), inert_ret].
  - intros W recv sender n R _. do 2 (apply (safe_bind w placed whatever); [apply (inert_safe w placed whatever), inert_view|intros ?]).
    apply (safe_bind w placed whatever); [by apply placed_withdrawTo|intros k]. apply (safe_bind w placed whatever); [|intros ?; apply (inert_safe w placed whatever), inert_ret].
    apply (safe_bind w placed whatever); [apply placed_token|intros ?]. apply (good_safe placed whatever is_uint), (answer_good w placed whatever).
  - intros W recv me R. by apply placed_distribute.
  - intros recv sender n R _ _. by apply placed_stake.
  - intros recv sender n R _ _. by apply placed_unstake.
Qed.
End Wired.

Lemma history_placed depth txs s : inv s -> wiring (history depth txs s) = wiring s.
Proof.
  intros I. pose proof (w_nodup _ (i_wired _ _ _ _ I)) as N. pose proof (placed_accounted (wiring s) N) as Acc.
  by destruct (history_ok (wiring s) N (placed (wiring s)) (fun _ _ => True) depth txs s eq_refl) as [E _].
Qed.

(** ** What a script draws *)

Section Net.
Context (W : World) (me : address).

Lemma borrowing_rate_ok p base rate : params_ok p -> _calcBorrowingRate p base = Ok rate -> 0 <= rate <= MAX_BORROWING_FEE p.
Proof.
  intros Pm H. unfold _calcBorrowingRate in H. inv_result. match goal with E : SafeMath.add _ _ = Ok _ |- _ => apply add_grows in E as [_ [U _]] end.
  pose proof (proj1 (p_max _ Pm)). unfold _min. case_match eqn:E; [apply Z.ltb_lt in E|apply Z.ltb_ge in E]; lia.
Qed.

Lemma getNet_Ok s c net s' : inv s -> is_uint c -> _getNetZUSDAmount W me c s = Ok (net, s') ->
  exists price ICR base rate, fetchPrice W s = Ok (price, s') /\ is_uint price /\ inv s' /\ frame s s' /\ _getCurrentICR (manager s) me price = Ok ICR /\ 0 < ICR /\
    _calcDecayedBaseRate (manager s) (now W) = Ok base /\ _calcBorrowingRate (params s) base = Ok rate /\ 0 <= rate <= MAX_BORROWING_FEE (params s) /\
    net = c * price / ICR * DECIMAL_PRECISION / (DECIMAL_PRECISION + rate) /\ is_uint net.
Proof.
  intros I Uc H. unfold _getNetZUSDAmount in H. run H as price s0 Hp. destruct (fetchPrice_books _ _ _ _ _ _ _ I Hp) as (Up & I0 & F0).
  view H as ICR HI. pure H as n Hn. pure H as X HX. view H as rate Hr. pure H as n2 Hn2. pure H as d Hd. apply pure_call_Ok in H as [H ->].
  destruct (mul_Ok _ _ _ Uc Up Hn) as [-> Un]. destruct (div_Ok _ _ _ Un HX) as (-> & PI & UX).
  destruct (mul_Ok _ _ _ UX precision_uint Hn2) as [-> Un2]. destruct (div_Ok _ _ _ Un2 H) as (-> & _ & Unet).
  unfold getBorrowingRateWithDecay in Hr. apply bind_Ok_inv in Hr as (base & Hb & Hr). pose proof (fr_params _ _ F0) as Ep. rewrite (fetchPrice_manager W _ _ _ Hp) in HI, Hb. rewrite Ep in Hr.
  pose proof (borrowing_rate_ok _ _ _ (i_params _ _ _ _ I) Hr) as Lr. exists price, ICR, base, rate. split_and!; try done; try lia.
  assert (rate < UINT256) as Lm by (pose proof (proj2 (p_max _ (i_params _ _ _ _ I))); lia).
  destruct (add_Ok _ _ _ precision_uint (conj (proj1 Lr) Lm) Hd) as [-> _]. done.
Qed.

End Net.

(** ** Scripts as operations *)

(** The ZUSD that [collateral] allows to draw, net of the fee, at the price and the ratio of the moment. *)
Definition net_for (W : World) (me : address) (s : System) (collateral n : Z) : Prop := exists price s' ICR rate,
  fetchPrice W s = Ok (price, s') /\ _getCurrentICR (manager s) me price = Ok ICR /\ getBorrowingRateWithDecay s (now W) = Ok rate /\
  n = collateral * price / ICR * DECIMAL_PRECISION / (DECIMAL_PRECISION + rate).

Section Operations.
Context (depth : nat) (code : Code) (W : World) (me : address) (Hnow : is_word (now W) = true).
Abbreviation recv := (paid depth code).
Abbreviation after ops := (history depth (map (fun op => (code, mkCall W me op)) ops)).

(** The operations of a script in the state [s], with the amounts that it finds: ether and ZUSD that the claim brought, and what may be drawn for the ether. *)
Definition operations_of (f : Script) (s : System) (ops : list operation) : Prop :=
  match f with
  | ClaimCollateralAndOpenTrove v m n up low =>
      let s1 := after [ClaimCollateral] s in
      ether_of s me < ether_of s1 me /\ ops = [ClaimCollateral; OpenTrove (ether_of s1 me - ether_of s me + v) m n up low]
  | ClaimSPRewardsAndRecycle m up low =>
      let s1 := after [WithdrawFromSP 0] s in
      let c := ether_of s1 me - ether_of s me in
      0 <= c /\ if 0 <? c
      then is_active (manager s1) me = true /\ exists n, net_for W me s1 c n /\
        ops = [WithdrawFromSP 0; FetchPrice; AdjustTrove c m 0 n true up low] ++ (if 0 <? n then [ProvideToSP n address0] else [])
      else ops = [WithdrawFromSP 0]
  | ClaimStakingGainsAndRecycle m up low =>
      let s1 := after [Unstake 0] s in
      let c := ether_of s1 me - ether_of s me in
      let z := balance (zusd s1) me - balance (zusd s) me in
      0 <= c /\ 0 <= z /\ exists n, (if 0 <? c then is_active (manager s1) me = true /\ net_for W me s1 c n else n = 0) /\
        ops = [Unstake 0] ++ (if 0 <? c then [FetchPrice; AdjustTrove c m 0 n true up low] else [])
              ++ (if 0 <? z + n then [ProvideToSP (z + n) address0] else [])
  | f => exists op, passed_on me f = Some op /\ ops = [op]
  end.

Lemma uint_is_word n : is_uint n -> is_word n = true.
Proof. intros [? ?]. unfold is_word. apply andb_true_intro. split; [by apply Z.leb_le|by apply Z.ltb_lt]. Qed.

Lemma run_operation op s u s' : outsider (wiring s) me -> Forall is_uint (amounts op) -> dispatch W recv me op s = Ok (u, s') -> s' = after [op] s.
Proof.
  intros O U H. unfold history. cbn [map fold_left]. unfold transact, attempt, execute, from_outside. cbn [fst snd c_sender c_world c_operation].
  assert (is_core s me = false) as -> by (by apply bool_decide_eq_false_2). rewrite Hnow.
  assert (forallb is_word (amounts op) = true) as ->.
  { apply forallb_forall. intros n Hn. apply list_elem_of_In in Hn. rewrite Forall_forall in U. by apply uint_is_word, U. }
  cbn [andb]. by rewrite H.
Qed.

Lemma after_app l1 l2 s : after (l1 ++ l2) s = after l2 (after l1 s).
Proof. unfold history. by rewrite map_app, fold_left_app. Qed.

Lemma after_cons op l s : after (op :: l) s = after l (after [op] s).
Proof. done. Qed.

(** An operation leads from a state that keeps the books to one that does. *)
Lemma run_next op s u s' : inv s -> outsider (wiring s) me -> Forall is_uint (amounts op) -> dispatch W recv me op s = Ok (u, s') ->
  s' = after [op] s /\ inv s' /\ outsider (wiring s') me.
Proof.
  intros I O U H. pose proof (run_operation op s u s' O U H) as E. split; [done|]. rewrite E. split; [by apply history_inv|by rewrite history_placed].
Qed.

Ltac words := cbn [amounts]; repeat (apply Forall_cons_2; [first [assumption|apply zero_uint]|]); apply Forall_nil_2.

Lemma run_top_up maxFee c up low s n s' : inv s -> outsider (wiring s) me -> is_uint maxFee -> is_uint c ->
  top_up W recv me maxFee c up low s = Ok (n, s') ->
  is_active (manager s) me = true /\ net_for W me s c n /\ is_uint n /\ s' = after [FetchPrice; AdjustTrove c maxFee 0 n true up low] s /\
  inv s' /\ outsider (wiring s') me.
Proof.
  intros I O Um Uc H. unfold top_up, _requireUserHasTrove in H. view H as x Hx. apply require_Ok in Hx. run H as k s1 H1. run H as u s2 H2. injection H as -> ->.
  destruct (getNet_Ok W me _ _ _ _ I Uc H1) as (price & ICR & base & rate & Hp & _ & _ & _ & HI & _ & Hb & Hr & _ & En & Un).
  destruct (run_next FetchPrice s tt s1 I O) as (-> & I1 & O1); [words| |]. { cbn [dispatch]. unfold call_bind. by rewrite Hp. }
  destruct (run_next (AdjustTrove c maxFee 0 n true up low) _ u s' I1 O1) as (-> & I2 & O2); [words|done|].
  split_and!; try done. exists price, (after [FetchPrice] s), ICR, rate. split_and!; try done. unfold getBorrowingRateWithDecay. rewrite Hb. done.
Qed.

Lemma run_reopen v m n up low s u s' : inv s -> outsider (wiring s) me -> is_uint v -> is_uint m -> is_uint n ->
  claimCollateralAndOpenTrove W recv me v m n up low s = Ok (u, s') ->
  exists ops, operations_of (ClaimCollateralAndOpenTrove v m n up low) s ops /\ s' = after ops s.
Proof.
  intros I O Uv Um Un H. unfold claimCollateralAndOpenTrove, own_ether in H. view H as b0 Hb. injection Hb as <-. run H as x s1 H1.
  destruct (run_next ClaimCollateral s x s1 I O) as (E1 & I1 & O1); [words|done|]. view H as b1 Hb. injection Hb as <-.
  pure H as y Hy. pure H as k Hk. pure H as c Hc. unfold sol_assert in Hy. destruct (_ <? _) eqn:Lt in Hy; [|done]. apply Z.ltb_lt in Lt.
  pose proof (ether_uint _ _ _ _ me I) as U0. pose proof (ether_uint _ _ _ _ me I1) as U1. safe_math.
  destruct (run_next (OpenTrove (ether_of s1 me - ether_of s me + v) m n up low) s1 u s' I1 O1) as (E2 & _ & _); [words|done|].
  eexists. cbn [operations_of]. rewrite <- E1. split; [split; [done|reflexivity]|].
  rewrite after_cons, <- E1. exact E2.
Qed.

Lemma run_recycleSP m up low s u s' : inv s -> outsider (wiring s) me -> is_uint m -> claimSPRewardsAndRecycle W recv me m up low s = Ok (u, s') ->
  exists ops, operations_of (ClaimSPRewardsAndRecycle m up low) s ops /\ s' = after ops s.
Proof.
  intros I O Um H. unfold claimSPRewardsAndRecycle, own_ether, own_ZERO in H. view H as b0 Hb. injection Hb as <-. run H as k0 t0 Hk. injection Hk as <- <-.
  run H as x s1 H1. destruct (run_next (WithdrawFromSP 0) s x s1 I O) as (E1 & I1 & O1); [words|done|].
  view H as b1 Hb. injection Hb as <-. run H as k1 t1 Hk. injection Hk as <- <-. pure H as c Hc.
  pose proof (ether_uint _ _ _ _ me I) as U0. pose proof (ether_uint _ _ _ _ me I1) as U1. destruct (sub_Ok _ _ _ U1 U0 Hc) as (Ec & Lc & Uc).
  run H as y s2 H2. pure H as k Hk. injection Hk as <-. injection H as _ <-. cbn [operations_of]. rewrite <- E1, <- Ec.
  destruct (0 <? c); [|injection H2 as _ <-; exists [WithdrawFromSP 0]; split; [split; [lia|done]|done]].
  run H2 as n s3 H3. destruct (run_top_up _ _ _ _ _ _ _ I1 O1 Um Uc H3) as (A & Nf & Un & E3 & I3 & O3).
  exists ([WithdrawFromSP 0; FetchPrice; AdjustTrove c m 0 n true up low] ++ (if 0 <? n then [ProvideToSP n address0] else [])).
  split; [split; [lia|split; [done|by exists n]]|].
  rewrite after_app, after_cons, <- E1, <- E3.
  destruct (0 <? n); [|injection H2 as _ <-; done]. apply (run_next (ProvideToSP n address0) s3 y s2 I3 O3); [words|done].
Qed.

Lemma run_recycleStaking m up low s u s' : inv s -> outsider (wiring s) me -> is_uint m -> claimStakingGainsAndRecycle W recv me m up low s = Ok (u, s') ->
  exists ops, operations_of (ClaimStakingGainsAndRecycle m up low) s ops /\ s' = after ops s.
Proof.
  intros I O Um H. unfold claimStakingGainsAndRecycle, own_ether, own_ZUSD, own_ZERO in H. view H as b0 Hb. injection Hb as <-. view H as z0 Hz. injection Hz as <-.
  run H as k0 t0 Hk. injection Hk as <- <-. run H as x s1 H1. destruct (run_next (Unstake 0) s x s1 I O) as (E1 & I1 & O1); [words|done|].
  view H as b1 Hb. injection Hb as <-. pure H as c Hc. view H as z1 Hz. injection Hz as <-. pure H as z Hz.
  pose proof (ether_uint _ _ _ _ me I) as U0. pose proof (ether_uint _ _ _ _ me I1) as U1. destruct (sub_Ok _ _ _ U1 U0 Hc) as (Ec & Lc & Uc).
  destruct (sub_Ok _ _ _ (balance_uint _ (i_token _ _ _ _ I1) me) (balance_uint _ (i_token _ _ _ _ I) me) Hz) as (Ez & Lz & Uz).
  run H as n s2 H2. pure H as t Ht. cbn [operations_of]. rewrite <- E1, <- Ec, <- Ez.
  assert ((if 0 <? c then is_active (manager s1) me = true /\ net_for W me s1 c n else n = 0) /\ is_uint n /\ inv s2 /\ outsider (wiring s2) me /\
    s2 = after (if 0 <? c then [FetchPrice; AdjustTrove c m 0 n true up low] else []) s1) as (Nf & Un & I2 & O2 & E2).
  { destruct (0 <? c); [|injection H2 as <- <-; by split_and!; try apply zero_uint]. by destruct (run_top_up _ _ _ _ _ _ _ I1 O1 Um Uc H2) as (A & Nf & Un & E3 & I3 & O3). }
  destruct (add_Ok _ _ _ Uz Un Ht) as [-> Ut]. eexists. split; [split; [lia|]; split; [lia|]; exists n; split; [done|reflexivity]|].
  rewrite !after_app, <- E1, <- E2. destruct (0 <? z + n); [|by injection H as _ <-].
  run H as y s3 H3. destruct (run_next (ProvideToSP (z + n) address0) s2 y s3 I2 O2) as (E3 & _); [words|done|]. rewrite <- E3.
  run H as k1 t1 Hk. injection Hk as <- <-. pure H as k Hk. injection Hk as <-. by injection H as _ <-.
Qed.

Lemma script_operations f s u s' : inv s -> outsider (wiring s) me -> Forall is_uint (script_amounts f) -> run_script W recv me f s = Ok (u, s') ->
  exists ops, operations_of f s ops /\ s' = after ops s.
Proof.
  intros I O. assert (forall op, passed_on me f = Some op -> execute recv (mkCall W me op) s = Ok (u, s') -> s' = after [op] s) as E.
  { intros op _ H. unfold history. cbn [map fold_left]. unfold transact, attempt. cbn [fst snd]. by rewrite H. }
  destruct f; cbn [script_amounts run_script passed_on] in *; rewrite ?Forall_cons; intros U H.
  23: { apply (run_reopen _ _ _ _ _ _ u); tauto. }
  23: { apply (run_recycleSP _ _ _ _ u); tauto. }
  23: { apply (run_recycleStaking _ _ _ _ u); tauto. }
  all: eexists; split; [by eexists|]; by apply E.
Qed.
End Operations.

(** C9: A script that a proxy runs, after any transactions on freshly deployed contracts
    and with whatever code the accounts run that it gets paid, leaves exactly the
    storage that certain operations of the proxy leave, made one after the other. A
    script that passes a call on is that one operation. [claimCollateralAndOpenTrove]
    claims the surplus and opens a Trove with the ether that brought and the ether sent
    along; [claimSPRewardsAndRecycle] withdraws nothing from the Stability Pool, adds
    the ether that brought to the Trove, draws for it what keeps the ratio after the
    fee, and deposits what was drawn; [claimStakingGainsAndRecycle] does the same after
    unstaking nothing and deposits the ZUSD that brought too. *)
Theorem scripts_are_operations depth txs code W me f u s' w p maxSize share price time c o e k : deployed w p share price time e = true ->
  outsider w me -> is_word (now W) = true -> forallb is_word (script_amounts f) = true ->
  let s := history depth txs (genesis w p maxSize share price time c o e k) in
  run_script W (paid depth code) me f s = Ok (u, s') ->
  exists ops, operations_of depth code W me f s ops /\
    s' = history depth (txs ++ map (fun op => (code, mkCall W me op)) ops) (genesis w p maxSize share price time c o e k).
Proof.
  intros D O Hn Ha s H. pose proof (genesis_inv w p maxSize share price time c o e k D) as I.
  destruct (script_operations depth code W me Hn f s u s') as (ops & F & ->).
  - by apply history_inv.
  - unfold s. by rewrite history_placed.
  - apply Forall_forall. intros n Hin. apply is_word_uint. rewrite forallb_forall in Ha. apply Ha. by apply list_elem_of_In.
  - done.
  - exists ops. split; [done|]. unfold s, history. by rewrite fold_left_app.
Qed.

(** ** The ratio *)

(** The amount drawn and its fee add to the debt what the collateral is worth at the ratio [R], less what rounding takes. *)
Lemma drawn_debt R c P r fee : 0 < R -> 0 <= c -> 0 <= P -> 0 <= r ->
  let D := DECIMAL_PRECISION in let net := c * P / R * D / (D + r) in fee = 0 \/ fee = r * net / D ->
  0 <= net /\ R * (net + fee) <= c * P /\ (fee = r * net / D -> r <= D -> c * P < R * (net + fee + 3)).
Proof.
  intros HR Hc HP Hr D net Hf. assert (D = 10 ^ 18) as HD by done. set (X := c * P / R) in *.
  assert (0 <= X) as X0 by (apply Z.div_pos; [nia|done]). pose proof (Z.mul_div_le (c * P) R HR) as X1. fold X in X1.
  pose proof (Z.mul_succ_div_gt (c * P) R HR) as X2. fold X in X2.
  assert (0 < D + r) as HDr by lia. pose proof (Z.mul_div_le (X * D) (D + r) HDr) as N1. fold net in N1.
  pose proof (Z.mul_succ_div_gt (X * D) (D + r) HDr) as N2. fold net in N2.
  assert (0 <= net) as N0 by (apply Z.div_pos; nia). assert (0 < D) as D0 by lia. clearbody D net X.
  pose proof (Z.mul_div_le (r * net) D D0) as F1. pose proof (Z.mul_succ_div_gt (r * net) D D0) as F2.
  assert (net + fee <= X) as L by (destruct Hf as [->| ->]; nia). split_and!; [done|nia|].
  intros -> HrD. assert (X <= net + r * net / D + 2) as G by nia. nia.
Qed.

(** The main oracle answers [price] throughout the transaction. *)
Definition answers (W : World) (price : Z) : Prop := is_uint price /\ forall s, latestAnswer W 0 s = Ok (price, true).

Lemma answers_fetch W price s : answers W price -> fetchPrice W s = Ok (price, with_price s price).
Proof.
  intros [U A]. unfold fetchPrice, answer, _storePrice, call_bind, view_call. rewrite A. cbn [bind fst snd]. unfold word.
  rewrite (proj2 (Z.leb_le _ _) (proj1 U)), (proj2 (Z.ltb_lt _ _) (proj2 U)). done.
Qed.

Section Recycling.
Context (W : World) (recv : address -> address -> Z -> call System unit) (Unow : is_uint (now W)) (me : address).

(** What becomes of the Trove of the proxy, of which the ratio was [ICR], when [collateral] is added to it. *)
Record recycled (s : System) (collateral price : Z) (mode : bool) (ICR : Z) (s' : System) : Prop := {
  rc_mode : _checkRecoveryMode s price = Ok mode;
  rc_ratio : _getCurrentICR (manager s) me price = Ok ICR;
  rc_amounts : exists coll debt, _getCurrentTroveAmounts (manager s) me = Ok (coll, debt) /\
    t_coll (trove (manager s') me) = coll + collateral /\ debt <= t_debt (trove (manager s') me);
  rc_kept : ICR * t_debt (trove (manager s') me) <= t_coll (trove (manager s') me) * price;
  rc_close : mode = false -> MAX_BORROWING_FEE (params s) <= DECIMAL_PRECISION ->
    t_coll (trove (manager s') me) * price < (ICR + 1) * (t_debt (trove (manager s') me) + 3) }.

Lemma recycled_amounts c price ICR coll debt rate fee net coll' debt' : 0 <= c -> 0 <= price -> 0 < ICR -> 0 <= rate -> 0 < debt ->
  is_uint coll -> is_uint price -> _computeCR coll debt price = Ok ICR ->
  net = c * price / ICR * DECIMAL_PRECISION / (DECIMAL_PRECISION + rate) -> fee = 0 \/ fee = rate * net / DECIMAL_PRECISION ->
  coll' = coll + c -> debt' = debt + (net + fee) ->
  ICR * debt' <= coll' * price /\
  (fee = rate * net / DECIMAL_PRECISION -> rate <= DECIMAL_PRECISION -> coll' * price < (ICR + 1) * (debt' + 3)).
Proof.
  intros Hc HP HI Hr Hd Uc Up HR -> Hf -> ->. destruct (drawn_debt ICR c price rate fee HI Hc HP Hr Hf) as (N0 & L & G).
  set (net := c * price / ICR * DECIMAL_PRECISION / (DECIMAL_PRECISION + rate)) in *. unfold _computeCR in HR.
  assert ((0 <? debt) = true) as E by (by apply Z.ltb_lt). rewrite E in HR. apply bind_Ok_inv in HR as (n & Hn & HR).
  destruct (mul_Ok _ _ _ Uc Up Hn) as [-> Un]. destruct (div_Ok _ _ _ Un HR) as (EI & _ & _).
  pose proof (Z.mul_div_le (coll * price) debt Hd) as A1. pose proof (Z.mul_succ_div_gt (coll * price) debt Hd) as A2. rewrite <- EI in A1, A2.
  split; [nia|]. intros Ef Hr'. specialize (G Ef Hr'). assert (0 <= fee) by (destruct Hf as [->| ->]; [done|apply Z.div_pos; [nia|done]]). nia.
Qed.

Lemma amounts_ok m b c d : manager_ok m -> is_active m b = true -> _getCurrentTroveAmounts m b = Ok (c, d) -> is_uint c /\ 0 < d.
Proof.
  intros M A H. unfold _getCurrentTroveAmounts in H. apply bind_Ok_inv in H as (x & _ & H). apply bind_Ok_inv in H as (y & _ & H).
  apply bind_Ok_inv in H as (c' & Hc & H). apply bind_Ok_inv in H as (d' & Hd & H). injection H as <- <-.
  apply add_grows in Hc as [_ Uc], Hd as [Ld _]. split; [done|]. destruct (t_backed _ _ (m_troves _ M b) A) as [_ L].
  assert (0 < MIN_NET_DEBT + ZUSD_GAS_COMPENSATION) by done. lia.
Qed.

Lemma charged_fee s free n maxFee fee base rate : is_uint n -> 0 <= rate < UINT256 -> _calcDecayedBaseRate (manager s) (now W) = Ok base ->
  _calcBorrowingRate (params s) base = Ok rate -> charged W s free n maxFee fee -> if free then fee = 0 else fee = rate * n / DECIMAL_PRECISION.
Proof.
  intros Un Ur Hb Hr H. unfold charged in H. destruct free; [done|]. destruct H as (b' & r' & Hb' & Hr' & Hf & _).
  rewrite Hb in Hb'. injection Hb' as <-. rewrite Hr in Hr'. injection Hr' as <-. unfold _calcBorrowingFee in Hf. apply bind_Ok_inv in Hf as (k & Hk & Hf).
  destruct (mul_Ok _ _ _ Ur Un Hk) as [-> Uk]. by destruct (div_Ok _ _ _ Uk Hf) as (-> & _).
Qed.

Lemma top_up_recycled price s maxFee c up low net s' : answers W price -> inv s -> outsider (wiring s) me -> in_step (manager s) me -> is_uint c -> 0 < c ->
  top_up W recv me maxFee c up low s = Ok (net, s') ->
  exists mode ICR, recycled s c price mode ICR s' /\ inv s' /\ wiring s' = wiring s /\ is_uint net.
Proof.
  intros St I O Is Uc Pc H. unfold top_up, _requireUserHasTrove in H. view H as x1 A. apply require_Ok in A. run H as n s0 H0.
  destruct (getNet_Ok W me _ _ _ _ I Uc H0) as (price' & ICR & base & rate & Hp & Up & I0 & F0 & HI & PI & Hb & Hr & Lr & En & Un).
  rewrite (answers_fetch _ _ _ St) in Hp. injection Hp as <- Es. run H as x2 s1 H1. injection H as -> ->. unfold adjustTrove, payable, this in H1. view H1 as bo Hbo. run H1 as x3 s2 H2.
  assert (me ∉ pools (wiring s0)) as Np by (rewrite (fr_wiring _ _ F0); intros P; by apply O, pools_core).
  destruct (pay_books _ _ _ _ _ _ _ _ _ I0 H2 (proj1 Uc) Np) as [I2 F2]. pose proof (transitivity F0 F2) as F.
  apply pay_Ok in H2 as (_ & e & E2 & _). assert (manager s2 = manager s) as Em by (by rewrite E2, <- Es).
  rewrite <- (fr_wiring _ _ F) in O. unfold _adjustTrove in H1.
  destruct (adjustTrove_books W recv Unow _ _ _ _ _ _ _ _ _ _ _ _ _ I2 Uc zero_uint Un (or_introl O) H1)
    as (s4 & price' & s5 & mode & fee & Hp' & I4 & S4 & Pf & Hc & Ad & Q4). rewrite (answers_fetch _ _ _ St) in Hp'. injection Hp' as <- <-.
  rewrite Q4 by lia. destruct Ad as [_ (coll & debt & Ha & Ec & Ed) _ _ _ Ew _ Hm _]. rewrite Em in Ha.
  rewrite (applied_in_step _ _ (i_manager _ _ _ _ I) A Is) in Ha. exists mode, ICR. rewrite Ew, (fr_wiring _ _ F).
  split_and!; try done. rewrite (mode_frame _ s s2 F) in Hm. cbn [signed andb] in Ed, Hc. rewrite negb_involutive in Hc.
  assert (0 <= rate < UINT256) as Ur by (pose proof (proj2 (p_max _ (i_params _ _ _ _ I))); lia).
  pose proof (charged_fee s2 mode net maxFee fee base rate Un Ur) as Hfee. rewrite Em, (fr_params _ _ F) in Hfee. specialize (Hfee Hb Hr Hc).
  destruct (amounts_ok _ _ _ _ (i_manager _ _ _ _ I) A Ha) as [Ucoll Pd]. pose proof HI as HI'. unfold _getCurrentICR in HI'. rewrite Ha in HI'.
  destruct (recycled_amounts c price ICR coll debt rate fee net (t_coll (trove (manager s4) me)) (t_debt (trove (manager s4) me))) as [K1 K2];
    try done; try lia; try apply Uc; try apply Up; [by destruct mode; auto|].
  split; try done.
  - exists coll, debt. split_and!; [done|lia|]. pose proof (proj1 Un). lia.
  - intros -> Hmax. apply K2; [done|lia].
Qed.

(** The code of the proxy does nothing when it is paid. *)
Definition quiet : Prop := forall from n s, recv from me n s = Ok (tt, s).

Lemma quiet_settled s1 u s' : quiet -> settled recv me s1 u s' -> s' = s1.
Proof. intros Q [->|(from & n & _ & H)]; [done|]. rewrite Q in H. by injection H as _ <-. Qed.

Lemma nothing_staked s u s' : stake_claimed recv me 0 s = Ok (u, s') -> s' = s.
Proof. by intros [= _ <-]. Qed.

(** The ratio is that of the storage before the claim, which does not touch Troves. *)
Lemma recycled_from s s1 c price mode ICR s2 s' : manager s1 = manager s -> params s1 = params s -> active_pool s1 = active_pool s ->
  default_pool s1 = default_pool s -> manager s' = manager s2 -> recycled s1 c price mode ICR s2 -> recycled s c price mode ICR s'.
Proof.
  intros Em Ep Ea Ed Em' [R1 R2 R3 R4 R5]. unfold _checkRecoveryMode, _getTCR, getEntireSystemColl, getEntireSystemDebt in R1.
  rewrite Ep, Ea, Ed in R1. rewrite Em in R2, R3. rewrite Ep in R5. split; rewrite ?Em'; done.
Qed.

(** C20: [claimSPRewardsAndRecycle] adds all of the gain to the Trove of the proxy and
    draws so much ZUSD that the ratio of the Trove does not fall, and outside of
    recovery mode rises by no more than the last digit and three units of debt make up
    for, when the proxy does nothing on being paid, the oracle answers throughout and
    the rewards of the Trove are in step. *)
Theorem sp_rewards_recycled price maxFee gain up low s u s' : answers W price -> quiet -> inv s -> outsider (wiring s) me ->
  in_step (manager s) me -> getDepositorETHGain (stability s) me = Ok gain -> 0 < gain ->
  claimSPRewardsAndRecycle W recv me maxFee up low s = Ok (u, s') ->
  exists mode ICR, recycled s gain price mode ICR s'.
Proof.
  intros A Q I O Is Hg Pg H. unfold claimSPRewardsAndRecycle, own_ether in H. view H as b0 Hb. injection Hb as <-. run H as z0 s0 H0. injection H0 as <- <-.
  run H as x1 s1 H1. unfold withdrawFromSP in H1. run H1 as n1 s1' H1'. injection H1 as _ ->.
  destruct (withdraw_books W recv _ _ _ _ _ _ I zero_uint O H1') as (s2 & g & c & I2 & S2 & _ & _ & _ & Wd).
  rewrite (quiet_settled _ _ _ Q S2) in H. clear S2 H1'. pose proof (wd_tended _ _ _ _ _ _ _ Wd) as T.
  pose proof (wd_gain _ _ _ _ _ _ _ Wd) as G. rewrite Hg in G. injection G as <-. pose proof (wd_ether _ _ _ _ _ _ _ Wd) as E.
  view H as b1 Hb. injection Hb as <-. run H as z1 s3 H3. injection H3 as <- <-. pure H as c1 Hc.
  destruct (sub_Ok _ _ _ (ether_uint _ _ _ _ _ I2) (ether_uint _ _ _ _ _ I) Hc) as (-> & _ & Uc). assert (ether_of s2 me = ether_of s me + gain) as E'.
  { rewrite E, decide_False, decide_True by (done || (intros ->; apply O; unfold core; rewrite !elem_of_cons; tauto)). lia. }
  rewrite E' in H, Uc.
  replace (ether_of s me + gain - ether_of s me) with gain in H, Uc by lia. assert ((0 <? gain) = true) as Eg by (by apply Z.ltb_lt). rewrite Eg in H.
  run H as x4 s4 H4. pure H as z Hz. injection Hz as <-. apply nothing_staked in H as ->. run H4 as net s5 H5.
  rewrite <- (td_wiring _ _ T) in O. rewrite <- (td_manager _ _ T) in Is.
  destruct (top_up_recycled price _ _ _ _ _ _ _ A I2 O Is Uc Pg H5) as (mode & ICR & R & I5 & W5 & Un). exists mode, ICR.
  apply (recycled_from s s2 gain price mode ICR s5); try apply T; [|done]. destruct (0 <? net); [|by injection H4 as _ <-].
  rewrite <- W5 in O. destruct (provide_books W recv _ _ _ _ _ _ I5 Un O H4) as (s6 & g6 & c6 & _ & S6 & _ & Su & _).
  rewrite (quiet_settled _ _ _ Q S6). apply (td_manager _ _ (su_tended _ _ _ _ _ _ _ _ Su)).
Qed.

(** [claimStakingGainsAndRecycle] does the same as [claimSPRewardsAndRecycle] with the ether that staking has gained. *)
Theorem staking_gains_recycled price maxFee gain up low s u s' : answers W price -> quiet -> inv s -> outsider (wiring s) me ->
  in_step (manager s) me -> _getPendingETHGain (staking s) me = Ok gain -> 0 < gain ->
  claimStakingGainsAndRecycle W recv me maxFee up low s = Ok (u, s') ->
  exists mode ICR, recycled s gain price mode ICR s'.
Proof.
  intros A Q I O Is Hg Pg H. unfold claimStakingGainsAndRecycle, own_ether, own_ZUSD in H. view H as b0 Hb. injection Hb as <-. view H as k0 Hk. injection Hk as <-.
  run H as z0 s0 H0. injection H0 as <- <-. run H as x1 s1 H1.
  destruct (unstake_books recv me _ _ _ _ I O H1) as (s2 & gE & gZ & new & tot & I2 & S2 & _ & _ & G & _ & Ch).
  rewrite (quiet_settled _ _ _ Q S2) in H. clear S2 H1. rewrite Hg in G. injection G as <-.
  destruct (ch_beside _ _ _ _ _ _ _ Ch) as (Ew & Ep & Em & Ea & Ed & _). destruct (ch_ether _ _ _ _ _ _ _ Ch) as [E _].
  view H as b1 Hb. injection Hb as <-. pure H as c1 Hc.
  destruct (sub_Ok _ _ _ (ether_uint _ _ _ _ _ I2) (ether_uint _ _ _ _ _ I) Hc) as (-> & _ & Uc). rewrite E in H, Uc.
  replace (ether_of s me + gain - ether_of s me) with gain in H, Uc by lia. assert ((0 <? gain) = true) as Eg by (by apply Z.ltb_lt). rewrite Eg in H.
  view H as k1 Hk. injection Hk as <-. pure H as gz Hz. apply sub_word in Hz as Uz. run H as net s5 H5. pure H as tz Ht.
  rewrite <- Ew in O. rewrite <- Em in Is. destruct (top_up_recycled price _ _ _ _ _ _ _ A I2 O Is Uc Pg H5) as (mode & ICR & R & I5 & W5 & Un). exists mode, ICR.
  apply (recycled_from s s2 gain price mode ICR s5); try done. destruct (0 <? tz); [|by injection H as _ <-].
  run H as x6 s6 H6. rewrite <- W5 in O. destruct (add_Ok _ _ _ Uz Un Ht) as [_ Ut].
  destruct (provide_books W recv _ _ _ _ _ _ I5 Ut O H6) as (s7 & g7 & c7 & _ & S7 & _ & Su & _). rewrite (quiet_settled _ _ _ Q S7) in H.
  run H as z7 s8 H8. injection H8 as <- <-. pure H as z Hz'. injection Hz' as <-. apply nothing_staked in H as ->.
  apply (td_manager _ _ (su_tended _ _ _ _ _ _ _ _ Su)).
Qed.

Lemma charged_nonneg s free n maxFee fee : charged W s free n maxFee fee -> 0 <= fee.
Proof.
  unfold charged. destruct free; [lia|]. intros (base & rate & _ & _ & Hf & _). unfold _calcBorrowingFee in Hf. apply bind_Ok_inv in Hf as (k & Hk & Hf).
  apply mul_word in Hk. destruct (div_Ok _ _ _ Hk Hf) as (_ & _ & U). apply U.
Qed.

(** [claimCollateralAndOpenTrove] opens a Trove for the proxy with its claimable surplus and the ether sent along. *)
Theorem surplus_reopened value maxFee n up low s u s' : quiet -> inv s -> outsider (wiring s) me -> is_uint value -> is_uint n ->
  claimCollateralAndOpenTrove W recv me value maxFee n up low s = Ok (u, s') ->
  inv s' /\ 0 < getCollateral s me /\ t_status (trove (manager s') me) = active_ /\
  t_coll (trove (manager s') me) = getCollateral s me + value /\ n + ZUSD_GAS_COMPENSATION <= t_debt (trove (manager s') me).
Proof.
  intros Q I O Uv Un H. unfold claimCollateralAndOpenTrove, own_ether in H. view H as b0 Hb. injection Hb as <-. run H as x1 s1 H1.
  destruct (claim_books recv _ _ _ _ I O H1) as (s2 & I2 & S2 & Pc & _ & E & Ew). rewrite (quiet_settled _ _ _ Q S2) in H. clear S2 H1.
  view H as b1 Hb. injection Hb as <-. pure H as x3 K3. pure H as c1 Hc. pure H as v Hv.
  destruct (sub_Ok _ _ _ (ether_uint _ _ _ _ _ I2) (ether_uint _ _ _ _ _ I) Hc) as (-> & _ & Uc). rewrite E in Hv, Uc.
  replace (ether_of s me + getCollateral s me - ether_of s me) with (getCollateral s me) in Hv, Uc by lia.
  destruct (add_Ok _ _ _ Uc Uv Hv) as [-> Ut]. unfold openTrove, payable, this in H. view H as bo Hbo. run H as x4 s4 H4.
  assert (me ∉ pools (wiring s2)) as Np by (rewrite Ew; intros P; by apply O, pools_core).
  destruct (pay_books _ _ _ _ _ _ _ _ _ I2 H4 (proj1 Ut) Np) as [I4 F4].
  destruct (openTrove_books W recv Unow _ _ _ _ _ _ _ _ _ _ I4 Ut Un H) as (I' & price & s0 & mode & fee & _ & Hc' & _ & [_ (r & x & k & m & Em) _ _ _ _ _ _]).
  pose proof (charged_nonneg _ _ _ _ _ Hc') as Pf. rewrite Em, opened_trove, decide_True by done. cbn [t_status t_coll t_debt]. split_and!; try done. lia.
Qed.
End Recycling.

(** ** Concrete scripts *)

(** [0xA] has a Trove, a deposit with a gain, and a stake; the Trove of [0xB] was redeemed. *)
Definition rich_steps : list step :=
  [(30000, "0xA", ProvideToSP (15000 * 10 ^ 18) address0); (5000, "0xD", Liquidate "0xC"); (30000, "0xA", Stake 100);
   (30000, "0xD", RedeemCollateral (10050 * 10 ^ 18) "0xB" "0xB" "0xB" 0 0 (10 ^ 18))]%string.
Definition rich : System := after rich_steps.

Lemma rich_inv : inv rich.
Proof. apply after_inv. Qed.

Lemma rich_answers : answers (price_world 30000) (30000 * 10 ^ 18).
Proof. split; [word_literal|]. intros s. reflexivity. Qed.

Lemma idle_quiet me : quiet idle_recv me.
Proof. intros from n s. reflexivity. Qed.

Lemma rich_in_step : in_step (manager rich) "0xA".
Proof. intros _. vm_compute. reflexivity. Qed.

Abbreviation four_now txs := (history 0 txs (genesis sample_wiring initial_params 1000 (10 ^ 17) (20000 * 10 ^ 18) 1500000000 sample_community ∅ four_ether ∅)).

Lemma scripts_are_operations_witness : exists s' ops,
  run_script (price_world 30000) idle_recv "0xA" (ClaimSPRewardsAndRecycle (10 ^ 18) "0xD" "0xD") (four_now (map tx_of (four_steps ++ rich_steps))) = Ok (tt, s') /\
  operations_of 0 idle (price_world 30000) "0xA" (ClaimSPRewardsAndRecycle (10 ^ 18) "0xD" "0xD") (four_now (map tx_of (four_steps ++ rich_steps))) ops /\
  s' = four_now (map tx_of (four_steps ++ rich_steps) ++ map (fun op => (idle, mkCall (price_world 30000) "0xA"%string op)) ops).
Proof.
  run_concrete (run_script (price_world 30000) idle_recv "0xA" (ClaimSPRewardsAndRecycle (10 ^ 18) "0xD" "0xD") (four_now (map tx_of (four_steps ++ rich_steps)))) H.
  destruct (scripts_are_operations 0 (map tx_of (four_steps ++ rich_steps)) idle (price_world 30000) "0xA" (ClaimSPRewardsAndRecycle (10 ^ 18) "0xD" "0xD") tt s'
    sample_wiring initial_params 1000 (10 ^ 17) (20000 * 10 ^ 18) 1500000000 sample_community ∅ four_ether ∅) as (ops & F & E).
  - vm_compute. reflexivity.
  - concrete_outsider.
  - vm_compute. reflexivity.
  - vm_compute. reflexivity.
  - exact H.
  - exists s', ops. split; [exact H|]. split; [exact F|exact E].
Defined.

Lemma sp_rewards_recycled_witness : exists s' mode ICR,
  claimSPRewardsAndRecycle (price_world 30000) idle_recv "0xA" (10 ^ 18) "0xD" "0xD" rich = Ok (tt, s') /\
  recycled "0xA" rich 1989999999999990000 (30000 * 10 ^ 18) mode ICR s'.
Proof.
  run_concrete (claimSPRewardsAndRecycle (price_world 30000) idle_recv "0xA" (10 ^ 18) "0xD" "0xD" rich) H.
  destruct (sp_rewards_recycled (price_world 30000) idle_recv ltac:(word_literal) "0xA" (30000 * 10 ^ 18) (10 ^ 18)
    1989999999999990000 "0xD" "0xD" rich tt s') as (mode & ICR & R).
  - exact rich_answers.
  - apply idle_quiet.
  - exact rich_inv.
  - concrete_outsider.
  - exact rich_in_step.
  - vm_compute. reflexivity.
  - vm_compute. reflexivity.
  - exact H.
  - exists s', mode, ICR. split; [exact H|exact R].
Defined.

Lemma staking_gains_recycled_witness : exists s' mode ICR,
  claimStakingGainsAndRecycle (price_world 30000) idle_recv "0xA" (10 ^ 18) "0xD" "0xD" rich = Ok (tt, s') /\
  recycled "0xA" rich 31621542933810375 (30000 * 10 ^ 18) mode ICR s'.
Proof.
  run_concrete (claimStakingGainsAndRecycle (price_world 30000) idle_recv "0xA" (10 ^ 18) "0xD" "0xD" rich) H.
  destruct (staking_gains_recycled (price_world 30000) idle_recv ltac:(word_literal) "0xA" (30000 * 10 ^ 18) (10 ^ 18)
    31621542933810375 "0xD" "0xD" rich tt s') as (mode & ICR & R).
  - exact rich_answers.
  - apply idle_quiet.
  - exact rich_inv.
  - concrete_outsider.
  - exact rich_in_step.
  - vm_compute. reflexivity.
  - reflexivity.
  - exact H.
  - exists s', mode, ICR. split; [exact H|exact R].
Defined.

Lemma surplus_reopened_witness : exists s',
  claimCollateralAndOpenTrove (price_world 30000) idle_recv "0xB" (10 ^ 18) (10 ^ 18) (5000 * 10 ^ 18) "0xD" "0xD" rich = Ok (tt, s') /\
  t_coll (trove (manager s') "0xB") = 1665000000000000000.
Proof.
  run_concrete (claimCollateralAndOpenTrove (price_world 30000) idle_recv "0xB" (10 ^ 18) (10 ^ 18) (5000 * 10 ^ 18) "0xD" "0xD" rich) H.
  destruct (surplus_reopened (price_world 30000) idle_recv ltac:(word_literal) "0xB" (10 ^ 18) (10 ^ 18) (5000 * 10 ^ 18) "0xD" "0xD" rich tt s')
    as (_ & _ & _ & E & _).
  - apply idle_quiet.
  - exact rich_inv.
  - concrete_outsider.
  - word_literal.
  - word_literal.
  - exact H.
  - exists s'. split; [exact H|]. rewrite E. vm_compute. reflexivity.
Defined.
