(* ===== verification/LibConstants.v ===== *)
(** * Protocol constants (lib-base/src/constants.ts) *)

From S2P Require Import Prelude JsNumber LibDecimal.
Local Open Scope Z_scope.

(** [Decimal.from(<numeric literal>)] *)
Definition constant (literal : string) : Decimal :=
  evaluated Decimal.ZERO (from (Num literal)).

Definition CRITICAL_COLLATERAL_RATIO : Decimal := Eval vm_compute in constant "1.5".
Definition MINIMUM_COLLATERAL_RATIO : Decimal := Eval vm_compute in constant "1.1".
Definition ZUSD_LIQUIDATION_RESERVE : Decimal := Eval vm_compute in constant "20".
Definition ZUSD_MINIMUM_NET_DEBT : Decimal := Eval vm_compute in constant "180".
Definition ZUSD_MINIMUM_DEBT : Decimal := Eval vm_compute in
  evaluated Decimal.ZERO (Decimal.add ZUSD_LIQUIDATION_RESERVE ZUSD_MINIMUM_NET_DEBT).
Definition MINIMUM_BORROWING_RATE : Decimal := Eval vm_compute in constant "0.05".
Definition MAXIMUM_BORROWING_RATE : Decimal := Eval vm_compute in constant "0.075".
Definition MINIMUM_REDEMPTION_RATE : Decimal := Eval vm_compute in constant "0.019".

(** The initialisers parse: their values in units of [DIGITS / 1000]. *)
Lemma constants_evaluated :
  1000 * bn CRITICAL_COLLATERAL_RATIO = 1500 * DIGITS /\
  1000 * bn MINIMUM_COLLATERAL_RATIO = 1100 * DIGITS /\
  bn ZUSD_LIQUIDATION_RESERVE = 20 * DIGITS /\
  bn ZUSD_MINIMUM_NET_DEBT = 180 * DIGITS /\
  bn ZUSD_MINIMUM_DEBT = 200 * DIGITS /\
  1000 * bn MINIMUM_BORROWING_RATE = 50 * DIGITS /\
  1000 * bn MAXIMUM_BORROWING_RATE = 75 * DIGITS /\
  1000 * bn MINIMUM_REDEMPTION_RATE = 19 * DIGITS.
Proof. rewrite DIGITS_eq. repeat split. Qed.
