(* ===== verification/LibDifference.v ===== *)
(** * [Difference] and [Percent] (lib-base/src/Decimal.ts)

    Signed differences of decimals, with a value for "not available", and the
    percentages printed from anything that has the members of [Ratio]. *)

From S2P Require Import Prelude JsString JsNumber LibDecimal DecimalText.
Local Open Scope Z_scope.

Inductive sign : Type := Same | Plus | Minus.

#[export] Instance sign_eq_dec : EqDecision sign.
Proof. solve_decision. Defined.

(** The string literals of the type: [""], ["+"] and ["-"]. *)
Definition sign_text (s : sign) : string :=
  match s with Same => EmptyString | Plus => "+" | Minus => "-" end.

Record DifferenceRepresentation : Type := mkRepresentation {
  rep_sign : sign;
  rep_absoluteValue : Decimal }.

Record Difference : Type := mkDifference { _number : option DifferenceRepresentation }.

Module Difference.

Definition between (d1 d2 : option Decimalish) : result Difference :=
  match d1, d2 with
  | Some d1, Some d2 =>
      let! d1 := from d1 in
      let! d2 := from d2 in
      match Decimal.infinite d1, Decimal.infinite d2 with
      | Some _, Some _ => Ok (mkDifference None)
      | Some _, None => Ok (mkDifference (Some (mkRepresentation Plus d1)))
      | None, Some _ => Ok (mkDifference (Some (mkRepresentation Minus d2)))
      | None, None =>
          let! greater := Decimal.gt d1 d2 in
          if greater then
            let! a := Decimal.sub d1 d2 in
            Ok (mkDifference (Some (mkRepresentation Plus a)))
          else
            let! smaller := Decimal.gt d2 d1 in
            if smaller then
              let! a := Decimal.sub d2 d1 in
              Ok (mkDifference (Some (mkRepresentation Minus a)))
            else Ok (mkDifference (Some (mkRepresentation Same Decimal.ZERO)))
      end
  | _, _ => Ok (mkDifference None)
  end.

Definition toString (this : Difference) (precision : option Z) : result string :=
  match _number this with
  | None => Ok "N/A"
  | Some n =>
      let! s := Decimal.toString (rep_absoluteValue n) precision in
      Ok (sign_text (rep_sign n) +:+ s)
  end.

Definition prettify (this : Difference) (precision : option Z) : result string :=
  match _number this with
  | None => toString this None
  | Some n =>
      let! s := Decimal.prettify (rep_absoluteValue n) precision in
      Ok (sign_text (rep_sign n) +:+ s)
  end.

Definition mul (this : Difference) (multiplier : Decimalish) : result Difference :=
  match _number this with
  | None => Ok (mkDifference None)
  | Some n =>
      let! a := Decimal.mul (rep_absoluteValue n) multiplier in
      Ok (mkDifference (Some (mkRepresentation (rep_sign n) a)))
  end.

Definition absoluteValue (this : Difference) : option Decimal :=
  rep_absoluteValue <$> _number this.

Definition nonZero (this : Difference) : option Difference :=
  match absoluteValue this ≫= Decimal.nonZero with Some _ => Some this | None => None end.

Definition positive (this : Difference) : option Difference :=
  if bool_decide (rep_sign <$> _number this = Some Plus) then Some this else None.

Definition negative (this : Difference) : option Difference :=
  if bool_decide (rep_sign <$> _number this = Some Minus) then Some this else None.

Definition infinite (this : Difference) : option Difference :=
  match absoluteValue this ≫= Decimal.infinite with Some _ => Some this | None => None end.

Definition finite (this : Difference) : option Difference :=
  match absoluteValue this ≫= Decimal.finite with Some _ => Some this | None => None end.

End Difference.

(** ** [Percent]

    The members a ratio must have; both [Decimal] and [Difference] have them. *)
Class Ratio (T : Type) : Type := {
  ratio_infinite : T -> option T;
  ratio_absoluteValue : T -> option Decimal;
  ratio_mul : option (T -> Decimalish -> result T);
  ratio_toString : T -> option Z -> result string }.

#[export] Instance Decimal_ratio : Ratio Decimal := {|
  ratio_infinite := Decimal.infinite;
  ratio_absoluteValue := Some;
  ratio_mul := Some Decimal.mul;
  ratio_toString := Decimal.toString |}.

#[export] Instance Difference_ratio : Ratio Difference := {|
  ratio_infinite := Difference.infinite;
  ratio_absoluteValue := Difference.absoluteValue;
  ratio_mul := Some Difference.mul;
  ratio_toString := Difference.toString |}.

Record Percent (T : Type) : Type := mkPercent { _percent : T }.
Arguments mkPercent {T} _percent.
Arguments _percent {T} _.

Module Percent.
Section Percent.
Context {T : Type} `{Ratio T}.

Definition new_Percent (ratio : T) : result (Percent T) :=
  match ratio_infinite ratio, ratio_mul with
  | Some r, _ => Ok (mkPercent r)
  | None, Some mul => let! p := mul ratio (Num "100") in Ok (mkPercent p)
  | None, None => Ok (mkPercent ratio)
  end.

(** [`0.${"0".repeat(precision)}5`] *)
Definition zeroish (precision : Z) : result string :=
  if precision <? 0 then Throw RangeError
  else Ok (text ("0"%char :: "."%char :: replicate (Z.to_nat precision) "0"%char ++ ["5"%char])).

(** [this._percent.absoluteValue?.gte(bound)] *)
Definition at_least (this : Percent T) (bound : Decimalish) : result bool :=
  match ratio_absoluteValue (_percent this) with
  | Some a => Decimal.gte a bound
  | None => Ok false
  end.

Definition nonZeroish (this : Percent T) (precision : Z) : result (option (Percent T)) :=
  let! z := zeroish precision in
  let! b := at_least this (DString z) in
  Ok (if b then Some this else None).

Definition percent_toString (this : Percent T) (precision : Z) : result string :=
  let! s := ratio_toString (_percent this) (Some precision) in
  Ok (s +:+ match ratio_absoluteValue (_percent this), ratio_infinite (_percent this) with
            | Some _, None => "%"%string
            | _, _ => EmptyString
            end).

Definition percent_prettify (this : Percent T) : result string :=
  let! thousands := at_least this (DString "1000") in
  if thousands then percent_toString this 0
  else
    let! tens := at_least this (DString "10") in
    percent_toString this (if tens then 1 else 2).

End Percent.
End Percent.

(** Evaluations. *)
Example difference_prints :
  (let! d := Difference.between (Some (Num "1.5")) (Some (Num "2")) in Difference.toString d None)
  = Ok "-0.5"%string.
Proof. vm_compute. reflexivity. Qed.

Example percent_prints :
  (let! r := from (Num "0.0725") in
   let! p := Percent.new_Percent r in Percent.percent_prettify p) = Ok "7.25%"%string.
Proof. vm_compute. reflexivity. Qed.

(** ** Correctness *)

(** The integer a representation stands for. *)
Definition signed_value (r : DifferenceRepresentation) : Z :=
  match rep_sign r with
  | Same => 0
  | Plus => bn (rep_absoluteValue r)
  | Minus => - bn (rep_absoluteValue r)
  end.

Lemma infinite_None (d : Decimal) : bn d <> bn Decimal.INFINITY -> Decimal.infinite d = None.
Proof. intros. unfold Decimal.infinite. by case_Zb. Qed.

(** The difference of two finite decimals is available, has the sign of the
    comparison and denotes exactly [d1 - d2]. *)
Theorem between_difference (d1 d2 : Decimal) :
  bn d1 <> bn Decimal.INFINITY -> bn d2 <> bn Decimal.INFINITY ->
  exists r, Difference.between (Some (DDecimal d1)) (Some (DDecimal d2)) = Ok (mkDifference (Some r)) /\
    signed_value r = bn d1 - bn d2 /\
    (rep_sign r = Plus <-> bn d2 < bn d1) /\ (rep_sign r = Minus <-> bn d1 < bn d2) /\
    bn (rep_absoluteValue r) = Z.abs (bn d1 - bn d2).
Proof.
  intros H1 H2. unfold Difference.between. autorewrite with zero.
  rewrite !infinite_None by done. autorewrite with zero.
  case_Zb; [|case_Zb]; rewrite ?DecimalFacts.sub_decimal by lia; cbn [bind];
    eexists; split; [done| |done| |done|];
    unfold signed_value; cbn [rep_sign rep_absoluteValue]; rewrite ?bn_dec, ?bn_ZERO by lia;
    repeat split; intros; first [lia | done].
Qed.

Lemma between_difference_witness :
  exists r, Difference.between (Some (DDecimal Decimal.HALF)) (Some (DDecimal Decimal.ONE))
      = Ok (mkDifference (Some r)) /\
    signed_value r = bn Decimal.HALF - bn Decimal.ONE /\
    (rep_sign r = Plus <-> bn Decimal.ONE < bn Decimal.HALF) /\
    (rep_sign r = Minus <-> bn Decimal.HALF < bn Decimal.ONE) /\
    bn (rep_absoluteValue r) = Z.abs (bn Decimal.HALF - bn Decimal.ONE).
Proof. apply between_difference; vm_compute; discriminate. Defined.

(** The threshold of [nonZeroish] is half a unit of the last printed digit. *)
Lemma zeroish_value p :
  0 <= p < 18 -> exists z, Percent.zeroish p = Ok z /\ fromString z = Ok (dec (5 * 10 ^ (17 - p))).
Proof.
  intros Hp. unfold Percent.zeroish. rewrite (proj2 (Z.ltb_ge _ _)) by lia.
  eexists. split; [done|]. apply fromString_representation, representation_coefficient.
  assert (0 < 10 ^ (17 - p)) by (apply Z.pow_pos_nonneg; lia). rewrite bn_dec by lia.
  set (m := replicate (Z.to_nat p) "0"%char ++ ["5"%char]).
  assert (Hv : parse_dec m = 5).
  { unfold m, parse_dec. rewrite parse_base_app, parse_base_zeros by lia. reflexivity. }
  assert (Hl : Z.of_nat (length m) = p + 1).
  { unfold m. rewrite length_app, length_replicate. cbn [length]. lia. }
  pose proof (coefficient_point ["0"%char] m) as Hc. rewrite Hv, Hl in Hc.
  replace (parse_dec ["0"%char] * DIGITS + 5 * DIGITS / 10 ^ (p + 1)) with (5 * 10 ^ (17 - p)) in Hc.
  - apply Hc; [by repeat constructor|]. apply Forall_app. split; [|by repeat constructor].
    by apply Forall_replicate.
  - change (parse_dec ["0"%char]) with 0. rewrite DIGITS_eq.
    replace (10 ^ 18) with (10 ^ (17 - p) * 10 ^ (p + 1)) by (rewrite <- Z.pow_add_r by lia; f_equal; lia).
    rewrite (Z.mul_assoc 5), Z.div_mul by (apply Z.pow_nonzero; lia). lia.
Qed.

Section PercentPrinting.
Context {T : Type} `{Ratio T}.

(** A percentage counts as non-zero at a precision exactly when the absolute
    value printed with that many fractional digits is not zero. *)
Theorem nonZeroish_printed (this : Percent T) (d : Decimal) (p : Z) :
  ratio_absoluteValue (_percent this) = Some d -> bn d <> bn Decimal.INFINITY -> 0 <= p < 18 ->
  exists r, (let! s := Decimal.toString d (Some p) in fromString s) = Ok r /\
    Percent.nonZeroish this p = Ok (if Decimal.isZero r then None else Some this).
Proof.
  intros Ha Hfin Hp. destruct (zeroish_value p Hp) as (z & Hz & Hzv).
  destruct (rounded_representation d p Hp) as (l & Hl & Hr).
  pose proof (representation_nonneg _ _ Hr) as Hnn.
  exists (dec (rounded d p)). split.
  - unfold Decimal.toString, Decimal.toString_chars. rewrite infinite_None by done.
    rewrite bool_decide_false by (by intros [? [=]]). rewrite Hl. cbn [fmap result_fmap bind].
    apply fromString_representation. by rewrite bn_dec.
  - unfold Percent.nonZeroish, Percent.at_least. rewrite Hz, bind_Ok, Ha.
    unfold Decimal.gte. cbn [from]. rewrite Hzv, !bind_Ok. do 2 f_equal.
    destruct (precision_unit p Hp) as (_ & Hg & Hu). bn_pos.
    unfold Decimal.isZero, rounded, getDigits in *. set (g := 10 ^ (17 - p)) in *.
    rewrite !bn_dec by lia. rewrite <- Hu.
    pose proof (Z.div_mod (bn d + 5 * g) (g * 10) ltac:(lia)).
    pose proof (Z.mod_pos_bound (bn d + 5 * g) (g * 10) ltac:(lia)).
    destruct (Z.leb_spec (5 * g) (bn d)).
    + rewrite (proj2 (Z.eqb_neq _ _)) by lia. done.
    + rewrite (Z.div_small (bn d + 5 * g)) by lia. done.
Qed.
End PercentPrinting.

Lemma nonZeroish_printed_witness :
  exists r, (let! s := Decimal.toString (dec 4999999999999999) (Some 2) in fromString s) = Ok r /\
    Percent.nonZeroish (mkPercent (dec 4999999999999999)) 2
    = Ok (if Decimal.isZero r then None else Some (mkPercent (dec 4999999999999999))).
Proof. apply nonZeroish_printed; [reflexivity | vm_compute; discriminate | lia]. Defined.
