(* ===== verification/LibTrove.v ===== *)
(** * [Trove] and its changes (lib-base/src/Trove.ts)

    A parameter object arrives as its [Object.entries]: a list of keys with
    possibly [undefined] values.  Optional arguments are options. *)

From S2P Require Import Prelude JsString JsNumber LibDecimal LibConstants.
Local Open Scope Z_scope.

(** ** Parameters *)

Record TroveCreationParams (T : Type) : Type := mkCreationParams {
  creation_depositCollateral : T;
  creation_borrowZUSD : T }.
Arguments mkCreationParams {T} _ _.
Arguments creation_depositCollateral {T} _.
Arguments creation_borrowZUSD {T} _.

Record TroveClosureParams (T : Type) : Type := mkClosureParams {
  closure_withdrawCollateral : T;
  closure_repayZUSD : option T }.
Arguments mkClosureParams {T} _ _.
Arguments closure_withdrawCollateral {T} _.
Arguments closure_repayZUSD {T} _.

Inductive _CollateralChange (T : Type) : Type :=
| CollateralDeposit (depositCollateral : T)
| CollateralWithdrawal (withdrawCollateral : T).
Arguments CollateralDeposit {T} _.
Arguments CollateralWithdrawal {T} _.

Inductive _DebtChange (T : Type) : Type :=
| ZUSDBorrowing (borrowZUSD : T)
| ZUSDRepayment (repayZUSD : T).
Arguments ZUSDBorrowing {T} _.
Arguments ZUSDRepayment {T} _.

(** The three alternatives of the union, each a spread of its parts. *)
Inductive TroveAdjustmentParams (T : Type) : Type :=
| OnlyCollateral (c : _CollateralChange T)
| OnlyDebt (d : _DebtChange T)
| CollateralAndDebt (c : _CollateralChange T) (d : _DebtChange T).
Arguments OnlyCollateral {T} _.
Arguments OnlyDebt {T} _.
Arguments CollateralAndDebt {T} _ _.

Definition collateral_part {T} (p : TroveAdjustmentParams T) : option (_CollateralChange T) :=
  match p with OnlyCollateral c | CollateralAndDebt c _ => Some c | OnlyDebt _ => None end.
Definition debt_part {T} (p : TroveAdjustmentParams T) : option (_DebtChange T) :=
  match p with OnlyDebt d | CollateralAndDebt _ d => Some d | OnlyCollateral _ => None end.

(** Property reads of an adjustment object; an absent property is [undefined]. *)
Definition depositCollateral {T} (p : TroveAdjustmentParams T) : option T :=
  match collateral_part p with Some (CollateralDeposit x) => Some x | _ => None end.
Definition withdrawCollateral {T} (p : TroveAdjustmentParams T) : option T :=
  match collateral_part p with Some (CollateralWithdrawal x) => Some x | _ => None end.
Definition borrowZUSD {T} (p : TroveAdjustmentParams T) : option T :=
  match debt_part p with Some (ZUSDBorrowing x) => Some x | _ => None end.
Definition repayZUSD {T} (p : TroveAdjustmentParams T) : option T :=
  match debt_part p with Some (ZUSDRepayment x) => Some x | _ => None end.

(** ** Normalisation *)

Definition entries (T : Type) : Type := list (string * T).

(** [Object.entries(params).filter(valueIsDefined)] *)
Definition definedEntries {T} (params : entries (option T)) : entries T :=
  omap (fun '(k, v) => pair k <$> v) params.

Definition quoted (k : string) : string := "'" +:+ k +:+ "'".
Definition join_keys (ks : list string) : string := String.concat ", " (map quoted ks).

Definition allowedTroveCreationKeys : list string := ["depositCollateral"; "borrowZUSD"]%string.

Definition allowedTroveAdjustmentKeys : list string :=
  ["depositCollateral"; "withdrawCollateral"; "borrowZUSD"; "repayZUSD"]%string.

Definition badKeys {T} (allowed : list string) (es : entries T) : list string :=
  filter (fun k => k ∉ allowed) (map fst es).

Definition checkAllowedTroveCreationKeys {T} (es : entries T) : result unit :=
  match badKeys allowedTroveCreationKeys es with
  | [] => Ok tt
  | bad => Throw (Error ("TroveCreationParams: property " +:+ join_keys bad +:+ " not allowed"))
  end.

Definition checkAllowedTroveAdjustmentKeys {T} (es : entries T) : result unit :=
  match badKeys allowedTroveAdjustmentKeys es with
  | [] => Ok tt
  | bad => Throw (Error ("TroveAdjustmentParams: property " +:+ join_keys bad +:+ " not allowed"))
  end.

(** [Object.fromEntries]: the last entry of a key wins. *)
Definition fromEntries {T} (es : entries T) : gmap string T := list_to_map (reverse es).

Definition troveCreationParamsFromEntries {T} (es : entries T) : result (TroveCreationParams T) :=
  let params := fromEntries es in
  match params !! "depositCollateral"%string, params !! "borrowZUSD"%string with
  | Some d, Some b => Ok (mkCreationParams d b)
  | _, _ =>
      let missingKeys := filter (fun k => params !! k = None) allowedTroveCreationKeys in
      Throw (Error ("TroveCreationParams: property " +:+ join_keys missingKeys +:+ " missing"))
  end.

Definition decimalize (e : string * Decimalish) : result (string * Decimal) :=
  let! d := from (snd e) in Ok (fst e, d).

Definition nonZero (e : string * Decimal) : bool := negb (Decimal.isZero (snd e)).

Definition _normalizeTroveCreation (params : entries (option Decimalish))
    : result (TroveCreationParams Decimal) :=
  let defined := definedEntries params in
  let! _ := checkAllowedTroveCreationKeys defined in
  let! nonZeroEntries := traverse decimalize defined in
  troveCreationParamsFromEntries nonZeroEntries.

Definition collateralChangeFrom {T} (params : gmap string T) : result (option (_CollateralChange T)) :=
  match params !! "depositCollateral"%string, params !! "withdrawCollateral"%string with
  | Some _, Some _ => Throw (Error ("TroveAdjustmentParams: 'depositCollateral' and " +:+
      "'withdrawCollateral' can't be present at the same time"))
  | Some x, None => Ok (Some (CollateralDeposit x))
  | None, Some x => Ok (Some (CollateralWithdrawal x))
  | None, None => Ok None
  end.

Definition debtChangeFrom {T} (params : gmap string T) : result (option (_DebtChange T)) :=
  match params !! "borrowZUSD"%string, params !! "repayZUSD"%string with
  | Some _, Some _ => Throw (Error ("TroveAdjustmentParams: 'borrowZUSD' and 'repayZUSD' " +:+
      "can't be present at the same time"))
  | Some x, None => Ok (Some (ZUSDBorrowing x))
  | None, Some x => Ok (Some (ZUSDRepayment x))
  | None, None => Ok None
  end.

Definition troveAdjustmentParamsFromEntries {T} (es : entries T) : result (TroveAdjustmentParams T) :=
  let params := fromEntries es in
  let! collateralChange := collateralChangeFrom params in
  let! debtChange := debtChangeFrom params in
  match collateralChange, debtChange with
  | Some c, Some d => Ok (CollateralAndDebt c d)
  | Some c, None => Ok (OnlyCollateral c)
  | None, Some d => Ok (OnlyDebt d)
  | None, None =>
      Throw (Error "TroveAdjustmentParams: must include at least one non-zero parameter")
  end.

Definition _normalizeTroveAdjustment (params : entries (option Decimalish))
    : result (TroveAdjustmentParams Decimal) :=
  let defined := definedEntries params in
  let! _ := checkAllowedTroveAdjustmentKeys defined in
  let! decimals := traverse decimalize defined in
  let nonZeroEntries := filter (fun e => nonZero e = true) decimals in
  troveAdjustmentParamsFromEntries nonZeroEntries.

(** ** Fees on borrowed amounts *)

Definition applyFee (borrowingRate : Decimalish) (debtIncrease : Decimal) : result Decimal :=
  let! factor := Decimal.add Decimal.ONE borrowingRate in Decimal.mul debtIncrease factor.

Definition unapplyFee (borrowingRate : Decimalish) (debtIncrease : Decimal) : result Decimal :=
  let! factor := Decimal.add Decimal.ONE borrowingRate in Decimal._divCeil debtIncrease factor.

Definition NOMINAL_COLLATERAL_RATIO_PRECISION : Decimal := Eval vm_compute in constant "100".

(** ** Troves *)

Record Trove : Type := mkTrove { collateral : Decimal; debt : Decimal }.

#[export] Instance Trove_eq_dec : EqDecision Trove.
Proof. solve_decision. Defined.

Definition _emptyTrove : Trove := mkTrove Decimal.ZERO Decimal.ZERO.

Inductive TroveCreationError : Type := missingLiquidationReserve.

Inductive zeroed : Type := ZeroCollateral | ZeroDebt.

#[export] Instance zeroed_eq_dec : EqDecision zeroed.
Proof. solve_decision. Defined.

Inductive TroveChange (T : Type) : Type :=
| invalidCreation (invalidTrove : Trove) (error : TroveCreationError)
| creation (params : TroveCreationParams T)
| closure (params : TroveClosureParams T)
| adjustment (params : TroveAdjustmentParams T) (setToZero : option zeroed).
Arguments invalidCreation {T} _ _.
Arguments creation {T} _.
Arguments closure {T} _.
Arguments adjustment {T} _ _.

Module Trove.

Definition isEmpty (this : Trove) : bool :=
  Decimal.isZero (collateral this) && Decimal.isZero (debt this).

(** [`${decimal}`] *)
Definition show (d : Decimal) : string := evaluated EmptyString (Decimal.toString d None).

Definition netDebt (this : Trove) : result Decimal :=
  let! below := Decimal.lt (debt this) ZUSD_LIQUIDATION_RESERVE in
  if below then
    Throw (Error ("netDebt should not be used when debt < " +:+ show ZUSD_LIQUIDATION_RESERVE))
  else Decimal.sub (debt this) ZUSD_LIQUIDATION_RESERVE.

Definition _nominalCollateralRatio (this : Trove) : result Decimal :=
  Decimal.mulDiv (collateral this) NOMINAL_COLLATERAL_RATIO_PRECISION (debt this).

Definition collateralRatio (this : Trove) (price : Decimalish) : result Decimal :=
  Decimal.mulDiv (collateral this) price (debt this).

Definition collateralRatioIsBelowMinimum (this : Trove) (price : Decimalish) : result bool :=
  let! r := collateralRatio this price in Decimal.lt r MINIMUM_COLLATERAL_RATIO.

Definition collateralRatioIsBelowCritical (this : Trove) (price : Decimalish) : result bool :=
  let! r := collateralRatio this price in Decimal.lt r CRITICAL_COLLATERAL_RATIO.

Definition isOpenableInRecoveryMode (this : Trove) (price : Decimalish) : result bool :=
  let! r := collateralRatio this price in Decimal.gte r CRITICAL_COLLATERAL_RATIO.

Definition toString (this : Trove) : string :=
  "{ collateral: " +:+ show (collateral this) +:+ ", debt: " +:+ show (debt this) +:+ " }".

(** [a && b] on results: [b] is evaluated only when [a] holds. *)
Definition and_then (a b : result bool) : result bool :=
  let! x := a in if x then b else Ok false.

Definition equals (this that : Trove) : result bool :=
  and_then (Decimal.eq (collateral this) (collateral that)) (Decimal.eq (debt this) (debt that)).

Definition add (this that : Trove) : result Trove :=
  let! c := Decimal.add (collateral this) (collateral that) in
  let! d := Decimal.add (debt this) (debt that) in
  Ok (mkTrove c d).

Definition addCollateral (this : Trove) (c : Decimalish) : result Trove :=
  let! c := Decimal.add (collateral this) c in Ok (mkTrove c (debt this)).

Definition addDebt (this : Trove) (d : Decimalish) : result Trove :=
  let! d := Decimal.add (debt this) d in Ok (mkTrove (collateral this) d).

(** [x.gt(y) ? x.sub(y) : Decimal.ZERO] *)
Definition saturating_sub (x : Decimal) (y : Decimalish) : result Decimal :=
  let! greater := Decimal.gt x y in
  if greater then Decimal.sub x y else Ok Decimal.ZERO.

Definition subtract (this that : Trove) : result Trove :=
  let! c := saturating_sub (collateral this) (collateral that) in
  let! d := saturating_sub (debt this) (debt that) in
  Ok (mkTrove c d).

Definition subtractCollateral (this : Trove) (c : Decimalish) : result Trove :=
  let! c := saturating_sub (collateral this) c in Ok (mkTrove c (debt this)).

Definition subtractDebt (this : Trove) (d : Decimalish) : result Trove :=
  let! d := saturating_sub (debt this) d in Ok (mkTrove (collateral this) d).

Definition multiply (this : Trove) (multiplier : Decimalish) : result Trove :=
  let! c := Decimal.mul (collateral this) multiplier in
  let! d := Decimal.mul (debt this) multiplier in
  Ok (mkTrove c d).

Definition setCollateral (this : Trove) (c : Decimalish) : result Trove :=
  let! c := from c in Ok (mkTrove c (debt this)).

Definition setDebt (this : Trove) (d : Decimalish) : result Trove :=
  let! d := from d in Ok (mkTrove (collateral this) d).

(** ** Differences between troves *)

Definition _debtChange (this that : Trove) (borrowingRate : Decimalish) : result (_DebtChange Decimal) :=
  let! increase := Decimal.gt (debt that) (debt this) in
  if increase then
    let! difference := Decimal.sub (debt that) (debt this) in
    let! borrow := unapplyFee borrowingRate difference in
    Ok (ZUSDBorrowing borrow)
  else
    let! repay := Decimal.sub (debt this) (debt that) in
    Ok (ZUSDRepayment repay).

Definition _collateralChange (this that : Trove) : result (_CollateralChange Decimal) :=
  let! increase := Decimal.gt (collateral that) (collateral this) in
  if increase then
    let! deposit := Decimal.sub (collateral that) (collateral this) in
    Ok (CollateralDeposit deposit)
  else
    let! withdraw := Decimal.sub (collateral this) (collateral that) in
    Ok (CollateralWithdrawal withdraw).

(** [x.zero && what] *)
Definition if_zero (x : Decimal) (what : zeroed) : option zeroed :=
  if Decimal.isZero x then Some what else None.

(** The default value of the [borrowingRate] parameters. *)
Definition rate_or_minimum (borrowingRate : option Decimalish) : Decimalish :=
  default (DDecimal MINIMUM_BORROWING_RATE) borrowingRate.

Definition whatChanged (this that : Trove) (borrowingRate : option Decimalish)
    : result (option (TroveChange Decimal)) :=
  let rate := rate_or_minimum borrowingRate in
  let! same := equals this that in
  if same then Ok None
  else if isEmpty this then
    let! below := Decimal.lt (debt that) ZUSD_LIQUIDATION_RESERVE in
    if below then Ok (Some (invalidCreation that missingLiquidationReserve))
    else
      let! net := netDebt that in
      let! borrow := unapplyFee rate net in
      Ok (Some (creation (mkCreationParams (collateral that) borrow)))
  else if isEmpty that then
    let! net := netDebt this in
    Ok (Some (closure (mkClosureParams (collateral this) (Decimal.nonZero net))))
  else
    let! sameCollateral := Decimal.eq (collateral this) (collateral that) in
    if sameCollateral then
      let! d := _debtChange this that rate in
      Ok (Some (adjustment (OnlyDebt d) (if_zero (debt that) ZeroDebt)))
    else
      let! sameDebt := Decimal.eq (debt this) (debt that) in
      if sameDebt then
        let! c := _collateralChange this that in
        Ok (Some (adjustment (OnlyCollateral c) (if_zero (collateral that) ZeroCollateral)))
      else
        let! d := _debtChange this that rate in
        let! c := _collateralChange this that in
        let setToZero := match if_zero (debt that) ZeroDebt with
                         | Some z => Some z
                         | None => if_zero (collateral that) ZeroCollateral
                         end in
        Ok (Some (adjustment (CollateralAndDebt c d) setToZero)).

Definition apply (this : Trove) (change : option (TroveChange Decimal))
    (borrowingRate : option Decimalish) : result Trove :=
  let rate := rate_or_minimum borrowingRate in
  match change with
  | None => Ok this
  | Some (invalidCreation invalidTrove _) =>
      if isEmpty this then Ok invalidTrove
      else Throw (Error "Can't create onto existing Trove")
  | Some (creation params) =>
      if isEmpty this then
        let! fee := applyFee rate (creation_borrowZUSD params) in
        let! d := Decimal.add ZUSD_LIQUIDATION_RESERVE fee in
        Ok (mkTrove (creation_depositCollateral params) d)
      else Throw (Error "Can't create onto existing Trove")
  | Some (closure _) =>
      if isEmpty this then Throw (Error "Can't close empty Trove") else Ok _emptyTrove
  | Some (adjustment params setToZero) =>
      let collateralDecrease := default Decimal.ZERO (withdrawCollateral params) in
      let collateralIncrease := default Decimal.ZERO (depositCollateral params) in
      let debtDecrease := default Decimal.ZERO (repayZUSD params) in
      let! debtIncrease := match borrowZUSD params with
                           | Some b => applyFee rate b
                           | None => Ok Decimal.ZERO
                           end in
      match setToZero with
      | Some ZeroCollateral =>
          let! t := setCollateral this Decimal.ZERO in
          let! t := addDebt t debtIncrease in
          subtractDebt t debtDecrease
      | Some ZeroDebt =>
          let! t := setDebt this Decimal.ZERO in
          let! t := addCollateral t collateralIncrease in
          subtractCollateral t collateralDecrease
      | None =>
          let! t := add this (mkTrove collateralIncrease debtIncrease) in
          subtract t (mkTrove collateralDecrease debtDecrease)
      end
  end.

Definition create (params : entries (option Decimalish)) (borrowingRate : option Decimalish)
    : result Trove :=
  let! p := _normalizeTroveCreation params in
  apply _emptyTrove (Some (creation p)) borrowingRate.

Definition recreate (that : Trove) (borrowingRate : option Decimalish)
    : result (TroveCreationParams Decimal) :=
  let! change := whatChanged _emptyTrove that borrowingRate in
  match change with
  | Some (creation params) => Ok params
  | _ => Throw AssertionError
  end.

Definition adjust (this : Trove) (params : entries (option Decimalish))
    (borrowingRate : option Decimalish) : result Trove :=
  let! p := _normalizeTroveAdjustment params in
  apply this (Some (adjustment p None)) borrowingRate.

Definition adjustTo (this that : Trove) (borrowingRate : option Decimalish)
    : result (TroveAdjustmentParams Decimal) :=
  let! change := whatChanged this that borrowingRate in
  match change with
  | Some (adjustment params _) => Ok params
  | _ => Throw AssertionError
  end.

End Trove.

(** ** Troves with an owner *)

Inductive UserTroveStatus : Type :=
| nonExistent | open | closedByOwner | closedByLiquidation | closedByRedemption.

#[export] Instance UserTroveStatus_eq_dec : EqDecision UserTroveStatus.
Proof. solve_decision. Defined.

Definition status_text (s : UserTroveStatus) : string :=
  match s with
  | nonExistent => "nonExistent"
  | open => "open"
  | closedByOwner => "closedByOwner"
  | closedByLiquidation => "closedByLiquidation"
  | closedByRedemption => "closedByRedemption"
  end.

Record UserTrove : Type := mkUserTrove {
  user_trove : Trove;
  ownerAddress : string;
  status : UserTroveStatus }.

#[export] Instance UserTrove_eq_dec : EqDecision UserTrove.
Proof. solve_decision. Defined.

Record TroveWithPendingRedistribution : Type := mkPending {
  pending_user : UserTrove;
  stake : Decimal;
  snapshotOfTotalRedistributed : Trove }.

#[export] Instance TroveWithPendingRedistribution_eq_dec : EqDecision TroveWithPendingRedistribution.
Proof. solve_decision. Defined.

Module UserTrove.

(** [new UserTrove(ownerAddress, status, collateral?, debt?)] *)
Definition new_UserTrove (owner : string) (st : UserTroveStatus) (c d : option Decimal) : UserTrove :=
  mkUserTrove (mkTrove (default Decimal.ZERO c) (default Decimal.ZERO d)) owner st.

Definition user_equals (this that : UserTrove) : result bool :=
  Trove.and_then (Trove.equals (user_trove this) (user_trove that))
    (Ok (bool_decide (ownerAddress this = ownerAddress that) &&
         bool_decide (status this = status that))).

Definition user_toString (this : UserTrove) : string :=
  "{ ownerAddress: " +:+ dquote +:+ ownerAddress this +:+ dquote +:+
  ", collateral: " +:+ Trove.show (collateral (user_trove this)) +:+
  ", debt: " +:+ Trove.show (debt (user_trove this)) +:+
  ", status: " +:+ dquote +:+ status_text (status this) +:+ dquote +:+ " }".

(** [new TroveWithPendingRedistribution(...)] with its default arguments. *)
Definition new_Pending (owner : string) (st : UserTroveStatus) (c d s : option Decimal)
    (snapshot : option Trove) : TroveWithPendingRedistribution :=
  mkPending (new_UserTrove owner st c d) (default Decimal.ZERO s) (default _emptyTrove snapshot).

Definition applyRedistribution (this : TroveWithPendingRedistribution) (totalRedistributed : Trove)
    : result UserTrove :=
  let! since := Trove.subtract totalRedistributed (snapshotOfTotalRedistributed this) in
  let! share := Trove.multiply since (stake this) in
  let! after := Trove.add (user_trove (pending_user this)) share in
  Ok (new_UserTrove (ownerAddress (pending_user this)) (status (pending_user this))
        (Some (collateral after)) (Some (debt after))).

Definition pending_equals (this that : TroveWithPendingRedistribution) : result bool :=
  Trove.and_then (user_equals (pending_user this) (pending_user that))
    (Trove.and_then (Decimal.eq (stake this) (stake that))
       (Trove.equals (snapshotOfTotalRedistributed this) (snapshotOfTotalRedistributed that))).

End UserTrove.
