(* ===== verification/TroveFacts.v ===== *)
(** * Properties of [Trove]

    Values of the operations on decimals, then what [whatChanged], [apply], the
    parameter normalisation and the ratio checks guarantee. *)

From S2P Require Import Prelude JsNumber LibDecimal LibConstants LibTrove.
Import Trove.
Local Open Scope Z_scope.

(** ** Values of the operations *)

Lemma Trove_ext (s t : Trove) :
  bn (collateral s) = bn (collateral t) -> bn (debt s) = bn (debt t) -> s = t.
Proof. destruct s, t. simpl. intros ?%bn_inj ?%bn_inj. by subst. Qed.

Lemma saturating_sub_decimal (x y : Decimal) :
  saturating_sub x y = Ok (dec (Z.max 0 (bn x - bn y))).
Proof.
  unfold saturating_sub. autorewrite with zero. case_Zb.
  - rewrite DecimalFacts.sub_decimal by lia. do 2 f_equal. lia.
  - rewrite Z.max_l by lia. done.
Qed.

Lemma fee_factor (rate : Decimal) : Decimal.add Decimal.ONE rate = Ok (dec (DIGITS + bn rate)).
Proof. apply DecimalFacts.add_decimal. Qed.

Lemma applyFee_decimal (rate x : Decimal) :
  applyFee rate x = Ok (dec (bn x * (DIGITS + bn rate) / DIGITS)).
Proof.
  unfold applyFee. rewrite fee_factor, bind_Ok, DecimalFacts.mul_decimal.
  pose proof DIGITS_pos. bn_pos. by rewrite (bn_dec (DIGITS + _)) by lia.
Qed.

Lemma unapplyFee_decimal (rate x : Decimal) :
  unapplyFee rate x =
  Ok (dec ((bn x * DIGITS + (DIGITS + bn rate - 1)) / (DIGITS + bn rate))).
Proof.
  unfold unapplyFee. pose proof DIGITS_pos. bn_pos.
  rewrite fee_factor, bind_Ok, DecimalFacts.divCeil_decimal; rewrite bn_dec by lia; [done | lia].
Qed.

Lemma equals_decimal (s t : Trove) : equals s t = Ok (bool_decide (s = t)).
Proof.
  unfold equals, and_then. autorewrite with zero.
  destruct (Z.eqb_spec (bn (collateral s)) (bn (collateral t))) as [E1|E1]; autorewrite with zero.
  - destruct (Z.eqb_spec (bn (debt s)) (bn (debt t))) as [E2|E2].
    + by rewrite bool_decide_true by by apply Trove_ext.
    + rewrite bool_decide_false; [done | congruence].
  - rewrite bool_decide_false; [done | congruence].
Qed.

Lemma isEmpty_spec (t : Trove) : isEmpty t = bool_decide (t = _emptyTrove).
Proof.
  unfold isEmpty, Decimal.isZero.
  destruct (Z.eqb_spec (bn (collateral t)) 0); destruct (Z.eqb_spec (bn (debt t)) 0); cbn [andb].
  1: { rewrite bool_decide_true; [done|]. by apply Trove_ext. }
  all: rewrite bool_decide_false; [done|]; intros ->; by match goal with H : _ <> 0 |- _ => apply H end.
Qed.

Lemma netDebt_decimal (t : Trove) :
  bn ZUSD_LIQUIDATION_RESERVE <= bn (debt t) ->
  netDebt t = Ok (dec (bn (debt t) - bn ZUSD_LIQUIDATION_RESERVE)).
Proof.
  intros H. unfold netDebt. autorewrite with zero. rewrite (proj2 (Z.ltb_ge _ _)) by done.
  by apply DecimalFacts.sub_decimal.
Qed.

#[export] Hint Rewrite saturating_sub_decimal applyFee_decimal unapplyFee_decimal equals_decimal : zero.

(** ** Fees round-trip *)

(** Charging the fee on what [unapplyFee] returns gives back the wanted amount,
    or one unit in the last place more. *)
Lemma fee_roundtrip (x r : Z) :
  0 <= x -> 0 <= r <= DIGITS ->
  let y := (x * DIGITS + (DIGITS + r - 1)) / (DIGITS + r) in
  let z := y * (DIGITS + r) / DIGITS in
  0 <= y /\ x <= z <= x + 1 /\ (r = 0 -> z = x).
Proof.
  intros Hx Hr y z. pose proof DIGITS_pos as HD.
  pose proof (div_ceil_bounds (x * DIGITS) (DIGITS + r) ltac:(lia)) as Hy. cbv zeta in Hy.
  replace (DIGITS + r - 1) with ((DIGITS + r) - 1) in y by lia. fold y in Hy.
  split; [apply Z.div_pos; nia|]. split; [split|].
  - apply le_div_iff; lia.
  - apply div_le_iff; lia.
  - intros ->. rewrite Z.add_0_r in *. unfold z. rewrite Z.div_mul by lia. nia.
Qed.

(** ** Applying adjustments *)

Definition amount (o : option Decimal) : Z := bn (default Decimal.ZERO o).

Lemma amount_nonneg o : 0 <= amount o.
Proof. apply bn_nonneg. Qed.

(** Amount owed for borrowing [b] at [rate]. *)
Definition owed (rate : Decimal) (b : Z) : Z := b * (DIGITS + bn rate) / DIGITS.

Lemma owed_nonneg rate b : 0 <= b -> 0 <= owed rate b.
Proof. intros. pose proof DIGITS_pos. bn_pos. apply Z.div_pos; nia. Qed.

Lemma owed_zero rate : owed rate 0 = 0.
Proof. apply Z.div_0_l. pose proof DIGITS_pos. lia. Qed.

Lemma apply_adjustment (this : Trove) p z (rate : Decimal) :
  apply this (Some (adjustment p z)) (Some (DDecimal rate)) =
  Ok (mkTrove
    (dec (if decide (z = Some ZeroCollateral) then 0 else
       Z.max 0 (bn (collateral this) + amount (depositCollateral p) - amount (withdrawCollateral p))))
    (dec (if decide (z = Some ZeroDebt) then 0 else
       Z.max 0 (bn (debt this) + owed rate (amount (borrowZUSD p)) - amount (repayZUSD p))))).
Proof.
  unfold apply, rate_or_minimum. cbn [default from_option id].
  assert (Hi : match borrowZUSD p with Some b => applyFee rate b | None => Ok Decimal.ZERO end
               = Ok (dec (owed rate (amount (borrowZUSD p))))).
  { destruct (borrowZUSD p) as [b|]; [apply applyFee_decimal|].
    change (amount None) with 0. by rewrite owed_zero. }
  rewrite Hi, bind_Ok. pose proof (owed_nonneg rate _ (amount_nonneg (borrowZUSD p))).
  fold (amount (depositCollateral p)).
  destruct z as [[]|]; repeat case_decide; try done;
    unfold setCollateral, setDebt, addDebt, addCollateral, subtractDebt, subtractCollateral, add, subtract;
    autorewrite with zero; cbn [collateral debt]; autorewrite with zero; cbn [collateral debt];
    autorewrite with zero; cbn [collateral debt];
    unfold amount in *; repeat f_equal; rewrite ?bn_dec by (bn_pos; lia); done.
Qed.

Lemma debtChange_value (this that : Trove) (rate : Decimal) :
  bn rate <= DIGITS ->
  exists d, _debtChange this that rate = Ok d /\
    let after := bn (debt this) + owed rate (amount (borrowZUSD (OnlyDebt d)))
                 - amount (repayZUSD (OnlyDebt d)) in
    bn (debt that) <= after <= bn (debt that) + 1 /\
    (bn (debt that) <= bn (debt this) \/ bn rate = 0 -> after = bn (debt that)).
Proof.
  intros Hr. unfold _debtChange. autorewrite with zero. bn_pos. case_Zb.
  - rewrite DecimalFacts.sub_decimal, bind_Ok, unapplyFee_decimal, bind_Ok by lia.
    eexists. split; [done|]. unfold borrowZUSD, repayZUSD, amount, owed.
    cbn [debt_part default from_option id]. rewrite bn_ZERO, (bn_dec (bn (debt that) - _)) by lia.
    destruct (fee_roundtrip (bn (debt that) - bn (debt this)) (bn rate)) as (Hy & Hz & Hz0); [lia..|].
    rewrite bn_dec by done. split; [lia|]. intros [?|Hr0]; [lia|]. rewrite (Hz0 Hr0). lia.
  - rewrite DecimalFacts.sub_decimal, bind_Ok by lia. eexists. split; [done|].
    unfold borrowZUSD, repayZUSD, amount. cbn [debt_part default from_option id].
    rewrite bn_ZERO, owed_zero, bn_dec by lia. lia.
Qed.

Lemma collateralChange_value (this that : Trove) :
  exists c, _collateralChange this that = Ok c /\
    bn (collateral this) + amount (depositCollateral (OnlyCollateral c))
      - amount (withdrawCollateral (OnlyCollateral c)) = bn (collateral that).
Proof.
  unfold _collateralChange. autorewrite with zero. bn_pos.
  case_Zb; rewrite DecimalFacts.sub_decimal, bind_Ok by lia; eexists; (split; [done|]);
    unfold depositCollateral, withdrawCollateral, amount;
    cbn [collateral_part default from_option id]; rewrite bn_ZERO, bn_dec by lia; lia.
Qed.

(** What "the change was applied" means up to the rounding of the fee. *)
Definition reaches (this that : Trove) (rate : Decimal) (t : Trove) : Prop :=
  collateral t = collateral that /\
  bn (debt that) <= bn (debt t) <= bn (debt that) + 1 /\
  (bn (debt that) <= bn (debt this) \/ bn rate = 0 -> t = that).

Lemma reaches_refl this that rate : reaches this that rate that.
Proof. split; [done|]. split; [lia | done]. Qed.

Lemma reaches_dec this that rate c d :
  bn (collateral that) = c -> bn (debt that) <= d <= bn (debt that) + 1 ->
  (bn (debt that) <= bn (debt this) \/ bn rate = 0 -> d = bn (debt that)) ->
  reaches this that rate (mkTrove (dec c) (dec d)).
Proof.
  intros <- Hd Hx. bn_pos. unfold reaches. cbn [collateral debt].
  rewrite dec_bn, bn_dec by lia. split; [done|]. split; [done|].
  intros H'%Hx. subst d. apply Trove_ext; cbn; by rewrite ?dec_bn.
Qed.

(** An adjustment with the right amounts reaches its target, whichever part is
    also forced to zero, as long as that part is zero in the target. *)
Lemma adjustment_reaches (this that : Trove) p z (rate : Decimal) :
  bn (collateral this) + amount (depositCollateral p) - amount (withdrawCollateral p)
    = bn (collateral that) ->
  (let after := bn (debt this) + owed rate (amount (borrowZUSD p)) - amount (repayZUSD p) in
   bn (debt that) <= after <= bn (debt that) + 1 /\
   (bn (debt that) <= bn (debt this) \/ bn rate = 0 -> after = bn (debt that))) ->
  (z = Some ZeroCollateral -> bn (collateral that) = 0) ->
  (z = Some ZeroDebt -> bn (debt that) = 0) ->
  exists t, apply this (Some (adjustment p z)) (Some (DDecimal rate)) = Ok t /\
    reaches this that rate t.
Proof.
  intros Hc [Hd Hx] Hz1 Hz2. rewrite apply_adjustment. eexists. split; [done|]. bn_pos.
  apply reaches_dec.
  - case_decide; [auto | lia].
  - case_decide as Hz; [specialize (Hz2 Hz) | ]; lia.
  - case_decide as Hz; [specialize (Hz2 Hz); lia | intros H'; specialize (Hx H'); lia].
Qed.

Lemma if_zero_Some x w w' : if_zero x w = Some w' -> w' = w /\ bn x = 0.
Proof.
  unfold if_zero. destruct (Decimal.isZero x) eqn:E; [|discriminate].
  apply DecimalFacts.isZero_true in E. intros [= <-]. done.
Qed.

(** The adjustment found by the last three branches of [whatChanged]. *)
Lemma whatChanged_adjustment (this that : Trove) (rate : Decimal) :
  this <> that -> this <> _emptyTrove -> that <> _emptyTrove -> bn rate <= DIGITS ->
  exists p z, whatChanged this that (Some (DDecimal rate)) = Ok (Some (adjustment p z)) /\
    (forall z', z' = z \/ z' = None ->
      exists t, apply this (Some (adjustment p z')) (Some (DDecimal rate)) = Ok t /\
        reaches this that rate t).
Proof.
  intros Hne He1 He2 Hr. unfold whatChanged. rewrite equals_decimal, bind_Ok, !isEmpty_spec.
  rewrite !bool_decide_false by done. cbn [rate_or_minimum default from_option id].
  destruct (debtChange_value this that rate Hr) as (d & -> & Hd).
  destruct (collateralChange_value this that) as (c & -> & Hc).
  autorewrite with zero. case_Zb; [|autorewrite with zero; case_Zb]; autorewrite with zero;
    do 2 eexists; (split; [done|]); intros z' Hz'; apply adjustment_reaches;
    first [exact Hd | exact Hc
      | intros ->; destruct Hz' as [Hz'|Hz']; [symmetry in Hz'|discriminate]
      | unfold depositCollateral, withdrawCollateral, borrowZUSD, repayZUSD;
        cbn [collateral_part debt_part]; change (amount None) with 0;
        rewrite ?owed_zero; lia];
    try (destruct (if_zero (debt that) ZeroDebt) eqn:E);
    repeat match goal with
    | H : if_zero _ _ = Some _ |- _ => apply if_zero_Some in H as [? ?]
    | H : Some _ = Some _ |- _ => inversion H; clear H; subst
    end; done.
Qed.

Lemma whatChanged_from_empty (that : Trove) (rate : Decimal) :
  that <> _emptyTrove ->
  whatChanged _emptyTrove that (Some (DDecimal rate)) =
  Ok (Some (if bn (debt that) <? bn ZUSD_LIQUIDATION_RESERVE
            then invalidCreation that missingLiquidationReserve
            else creation (mkCreationParams (collateral that)
              (dec (((bn (debt that) - bn ZUSD_LIQUIDATION_RESERVE) * DIGITS + (DIGITS + bn rate - 1))
                    / (DIGITS + bn rate)))))).
Proof.
  intros Hne. unfold whatChanged. rewrite equals_decimal, bind_Ok, bool_decide_false by done.
  rewrite isEmpty_spec, bool_decide_true by done. autorewrite with zero.
  case_Zb; [done|]. rewrite netDebt_decimal, bind_Ok by done.
  cbn [rate_or_minimum default from_option id]. rewrite unapplyFee_decimal, bind_Ok.
  by rewrite (bn_dec (_ - _)) by lia.
Qed.

Lemma creation_reaches (that : Trove) (rate : Decimal) :
  bn rate <= DIGITS -> bn ZUSD_LIQUIDATION_RESERVE <= bn (debt that) ->
  let net := bn (debt that) - bn ZUSD_LIQUIDATION_RESERVE in
  let borrow := dec ((net * DIGITS + (DIGITS + bn rate - 1)) / (DIGITS + bn rate)) in
  exists t, apply _emptyTrove (Some (creation (mkCreationParams (collateral that) borrow)))
      (Some (DDecimal rate)) = Ok t /\ reaches _emptyTrove that rate t.
Proof.
  intros Hr Hd net borrow. bn_pos.
  destruct (fee_roundtrip net (bn rate)) as (Hy & Hz & Hz0); [unfold net; lia..|].
  unfold apply. rewrite isEmpty_spec, bool_decide_true by done.
  cbn [rate_or_minimum default from_option id creation_borrowZUSD creation_depositCollateral].
  rewrite applyFee_decimal, bind_Ok, DecimalFacts.add_decimal, bind_Ok.
  unfold borrow. rewrite (bn_dec _ Hy). set (z := _ / DIGITS) in *. rewrite bn_dec by (unfold net in *; lia).
  eexists. split; [done|]. rewrite <- (dec_bn (collateral that)). unfold net in *.
  apply reaches_dec; [done | lia |].
  change (bn (debt _emptyTrove)) with 0. intros [H'|H'].
  - exfalso. assert (0 < bn ZUSD_LIQUIDATION_RESERVE) by reflexivity. lia.
  - rewrite (Hz0 H'). lia.
Qed.

Lemma whatChanged_reaches (this that : Trove) (rate : Decimal) (change : option (TroveChange Decimal)) :
  bn rate <= DIGITS ->
  whatChanged this that (Some (DDecimal rate)) = Ok change ->
  exists t, apply this change (Some (DDecimal rate)) = Ok t /\ reaches this that rate t.
Proof.
  intros Hr Hw.
  destruct (decide (this = that)) as [->|Hne].
  { unfold whatChanged in Hw. rewrite equals_decimal, bind_Ok, bool_decide_true in Hw by done.
    inversion Hw; subst. eexists. split; [done | apply reaches_refl]. }
  destruct (decide (this = _emptyTrove)) as [->|He1].
  { rewrite whatChanged_from_empty in Hw by done. inversion Hw; subst. case_Zb.
    - unfold apply. rewrite isEmpty_spec, bool_decide_true by done.
      eexists. split; [done | apply reaches_refl].
    - by apply creation_reaches. }
  destruct (decide (that = _emptyTrove)) as [->|He2].
  { unfold whatChanged in Hw. rewrite equals_decimal, bind_Ok, bool_decide_false in Hw by done.
    rewrite !isEmpty_spec, bool_decide_false, bool_decide_true in Hw by done. inv_ok.
    unfold apply. rewrite isEmpty_spec, bool_decide_false by done.
    eexists. split; [done | apply reaches_refl]. }
  destruct (whatChanged_adjustment this that rate) as (p & z & Hw' & Ht); [done..|].
  rewrite Hw' in Hw. inversion Hw; subst. apply Ht. by left.
Qed.

(** C11: applying the change computed by [whatChanged] leads to the other trove:
    the collateral is exact, the debt is exact when it does not grow or nothing
    is charged, and is otherwise at most one unit in the last place too high
    (never too low), for any borrowing rate up to 100%. *)
Theorem whatChanged_apply (this that : Trove) (rate : Decimal) (change : option (TroveChange Decimal)) :
  bn rate <= DIGITS ->
  whatChanged this that (Some (DDecimal rate)) = Ok change ->
  exists t, apply this change (Some (DDecimal rate)) = Ok t /\
    collateral t = collateral that /\
    bn (debt that) <= bn (debt t) <= bn (debt that) + 1 /\
    (bn (debt that) <= bn (debt this) \/ bn rate = 0 -> t = that).
Proof. apply whatChanged_reaches. Qed.

Lemma whatChanged_apply_witness :
  exists t, apply (mkTrove (dec 5) (dec (300 * DIGITS)))
      (Some (adjustment (OnlyDebt (ZUSDBorrowing (dec 95238095238095238096))) None))
      (Some (DDecimal MINIMUM_BORROWING_RATE)) = Ok t /\
    collateral t = collateral (mkTrove (dec 5) (dec (400 * DIGITS))) /\
    bn (debt (mkTrove (dec 5) (dec (400 * DIGITS)))) <= bn (debt t)
      <= bn (debt (mkTrove (dec 5) (dec (400 * DIGITS)))) + 1 /\
    (bn (debt (mkTrove (dec 5) (dec (400 * DIGITS)))) <= bn (debt (mkTrove (dec 5) (dec (300 * DIGITS))))
      \/ bn MINIMUM_BORROWING_RATE = 0 -> t = mkTrove (dec 5) (dec (400 * DIGITS))).
Proof. apply whatChanged_apply; [vm_compute; discriminate | vm_compute; reflexivity]. Defined.

Lemma whatChanged_error (this that : Trove) (rate : Decimal) (e : js_error) :
  bn rate <= DIGITS ->
  whatChanged this that (Some (DDecimal rate)) = Throw e <->
  this <> _emptyTrove /\ that = _emptyTrove /\
  bn (debt this) < bn ZUSD_LIQUIDATION_RESERVE /\
  e = Error "netDebt should not be used when debt < 20".
Proof.
  intros Hr. destruct (decide (this = that)) as [->|Hne].
  { unfold whatChanged. rewrite equals_decimal, bind_Ok, bool_decide_true by done.
    split; [discriminate | by intros (? & ? & _)]. }
  destruct (decide (this = _emptyTrove)) as [->|He1].
  { rewrite whatChanged_from_empty by done. split; [discriminate | by intros (? & _)]. }
  destruct (decide (that = _emptyTrove)) as [->|He2].
  - unfold whatChanged. rewrite equals_decimal, bind_Ok, bool_decide_false by done.
    rewrite !isEmpty_spec, bool_decide_false, bool_decide_true by done.
    unfold netDebt. autorewrite with zero. case_Zb.
    + cbn [bind]. split; [intros [= <-]; repeat split; try done | intros (_ & _ & _ & ->)];
        vm_compute; reflexivity.
    + rewrite DecimalFacts.sub_decimal, bind_Ok by done. split; [discriminate | lia].
  - destruct (whatChanged_adjustment this that rate) as (p & z & -> & _); [done..|].
    split; [discriminate | by intros (_ & ? & _)].
Qed.

(** [whatChanged] fails in one case only: closing a trove whose debt is below
    the liquidation reserve, where [netDebt] throws. *)
Theorem whatChanged_throws (this that : Trove) (rate : Decimal) (e : js_error) :
  bn rate <= DIGITS ->
  whatChanged this that (Some (DDecimal rate)) = Throw e <->
  this <> _emptyTrove /\ that = _emptyTrove /\
  bn (debt this) < bn ZUSD_LIQUIDATION_RESERVE /\
  e = Error "netDebt should not be used when debt < 20".
Proof. apply whatChanged_error. Qed.

Lemma whatChanged_throws_witness :
  whatChanged (mkTrove (dec 1) (dec 0)) _emptyTrove (Some (DDecimal Decimal.ZERO))
    = Throw (Error "netDebt should not be used when debt < 20") <->
  mkTrove (dec 1) (dec 0) <> _emptyTrove /\ _emptyTrove = _emptyTrove /\
  bn (debt (mkTrove (dec 1) (dec 0))) < bn ZUSD_LIQUIDATION_RESERVE /\
  Error "netDebt should not be used when debt < 20" = Error "netDebt should not be used when debt < 20".
Proof. apply whatChanged_throws. vm_compute. discriminate. Defined.

(** ** Normalisation of parameter objects *)

(** The entries of parameter objects. *)
Definition creation_entries (p : TroveCreationParams Decimal) : entries (option Decimalish) :=
  [("depositCollateral"%string, Some (DDecimal (creation_depositCollateral p)));
   ("borrowZUSD"%string, Some (DDecimal (creation_borrowZUSD p)))].

Definition adjustment_entries (p : TroveAdjustmentParams Decimal) : entries (option Decimalish) :=
  [("depositCollateral"%string, DDecimal <$> depositCollateral p);
   ("withdrawCollateral"%string, DDecimal <$> withdrawCollateral p);
   ("borrowZUSD"%string, DDecimal <$> borrowZUSD p);
   ("repayZUSD"%string, DDecimal <$> repayZUSD p)].

Definition params_nonzero (p : TroveAdjustmentParams Decimal) : Prop :=
  match collateral_part p with
  | Some (CollateralDeposit x | CollateralWithdrawal x) => 0 < bn x
  | None => True
  end /\
  match debt_part p with
  | Some (ZUSDBorrowing x | ZUSDRepayment x) => 0 < bn x
  | None => True
  end.

Lemma normalize_creation_entries p : _normalizeTroveCreation (creation_entries p) = Ok p.
Proof. destruct p. reflexivity. Qed.

Lemma normalize_adjustment_entries p :
  params_nonzero p -> _normalizeTroveAdjustment (adjustment_entries p) = Ok p.
Proof.
  intros [Hc Hd]. destruct p as [[x|x]|[x|x]|[x|x] [y|y]]; cbn in Hc, Hd;
    unfold _normalizeTroveAdjustment; cbn -[filter troveAdjustmentParamsFromEntries];
    repeat match goal with H : 0 < bn _ |- _ => apply DecimalFacts.isZero_false in H end;
    rewrite !filter_cons, filter_nil; unfold nonZero; cbn [snd];
    rewrite ?Hc, ?Hd; reflexivity.
Qed.

Lemma ceil_pos x r : 0 < x -> 0 <= r -> 0 < (x * DIGITS + (DIGITS + r - 1)) / (DIGITS + r).
Proof. intros. pose proof DIGITS_pos. apply Z.div_str_pos. nia. Qed.

Lemma debtChange_nonzero this that (rate : Decimal) d :
  bn (debt this) <> bn (debt that) -> _debtChange this that rate = Ok d ->
  match d with ZUSDBorrowing x | ZUSDRepayment x => 0 < bn x end.
Proof.
  intros Hne. unfold _debtChange. autorewrite with zero. bn_pos.
  case_Zb; rewrite DecimalFacts.sub_decimal, bind_Ok by lia;
    rewrite ?unapplyFee_decimal; cbn [bind]; intros [= <-];
    [|rewrite bn_dec; lia].
  rewrite (bn_dec (_ - _)) by lia.
  assert (0 < bn (debt that) - bn (debt this)) as Hpos by lia.
  pose proof (ceil_pos _ (bn rate) Hpos ltac:(apply bn_nonneg)). rewrite bn_dec; lia.
Qed.

Lemma collateralChange_nonzero this that c :
  bn (collateral this) <> bn (collateral that) -> _collateralChange this that = Ok c ->
  match c with CollateralDeposit x | CollateralWithdrawal x => 0 < bn x end.
Proof.
  intros Hne. unfold _collateralChange. autorewrite with zero. bn_pos.
  case_Zb; rewrite DecimalFacts.sub_decimal, bind_Ok by lia; intros [= <-]; rewrite bn_dec; lia.
Qed.

Lemma adjustTo_nonzero this that (rate : Decimal) p :
  adjustTo this that (Some (DDecimal rate)) = Ok p -> params_nonzero p.
Proof.
  unfold adjustTo, whatChanged. rewrite equals_decimal, bind_Ok.
  destruct (decide (this = that)) as [->|Hne]; [by rewrite bool_decide_true|].
  rewrite bool_decide_false by done. intros H.
  assert (Hd : bn (collateral this) = bn (collateral that) -> bn (debt this) <> bn (debt that)).
  { intros ? ?. by apply Hne, Trove_ext. }
  destruct (isEmpty this); [|destruct (isEmpty that)].
  { autorewrite with zero in H. destruct (_ <? _); [discriminate|]. by inv_ok. }
  { by inv_ok. }
  cbn [rate_or_minimum default from_option id] in H. autorewrite with zero in H.
  destruct (Z.eqb_spec (bn (collateral this)) (bn (collateral that))) as [E|E].
  { inv_ok. split; [done|]. eapply debtChange_nonzero; eauto. }
  autorewrite with zero in H. destruct (Z.eqb_spec (bn (debt this)) (bn (debt that))) as [E'|E'].
  { inv_ok. split; [|done]. eapply collateralChange_nonzero; eauto. }
  inv_ok. split; [eapply collateralChange_nonzero | eapply debtChange_nonzero]; eauto.
Qed.

(** The parameters computed by [adjustTo] bring [adjust] to the wanted trove,
    with the precision of [whatChanged]. *)
Theorem adjustTo_adjust (this that : Trove) (rate : Decimal) (p : TroveAdjustmentParams Decimal) :
  bn rate <= DIGITS -> adjustTo this that (Some (DDecimal rate)) = Ok p ->
  exists t, adjust this (adjustment_entries p) (Some (DDecimal rate)) = Ok t /\
    collateral t = collateral that /\
    bn (debt that) <= bn (debt t) <= bn (debt that) + 1 /\
    (bn (debt that) <= bn (debt this) \/ bn rate = 0 -> t = that).
Proof.
  intros Hr H. pose proof (adjustTo_nonzero _ _ _ _ H) as Hnz.
  unfold adjust. rewrite normalize_adjustment_entries, bind_Ok by done.
  unfold adjustTo in H. destruct (decide (this = that)) as [->|Hne].
  { unfold whatChanged in H. by rewrite equals_decimal, bind_Ok, bool_decide_true in H. }
  destruct (decide (this = _emptyTrove)) as [->|He1].
  { rewrite whatChanged_from_empty in H by done. by destruct (_ <? _). }
  destruct (decide (that = _emptyTrove)) as [->|He2].
  { unfold whatChanged in H. rewrite equals_decimal, bind_Ok, bool_decide_false in H by done.
    rewrite !isEmpty_spec, bool_decide_false, bool_decide_true in H by done.
    by inv_ok. }
  destruct (whatChanged_adjustment this that rate) as (q & z & Hw & Ht); [done..|].
  rewrite Hw in H. inversion H; subst. apply Ht. by right.
Qed.

Lemma adjustTo_adjust_witness :
  exists t, adjust (mkTrove (dec 5) (dec (300 * DIGITS)))
      (adjustment_entries (CollateralAndDebt (CollateralWithdrawal (dec 3)) (ZUSDBorrowing (dec 95238095238095238096))))
      (Some (DDecimal MINIMUM_BORROWING_RATE)) = Ok t /\
    collateral t = collateral (mkTrove (dec 2) (dec (400 * DIGITS))) /\
    bn (debt (mkTrove (dec 2) (dec (400 * DIGITS)))) <= bn (debt t)
      <= bn (debt (mkTrove (dec 2) (dec (400 * DIGITS)))) + 1 /\
    (bn (debt (mkTrove (dec 2) (dec (400 * DIGITS)))) <= bn (debt (mkTrove (dec 5) (dec (300 * DIGITS))))
      \/ bn MINIMUM_BORROWING_RATE = 0 -> t = mkTrove (dec 2) (dec (400 * DIGITS))).
Proof. apply adjustTo_adjust; [vm_compute; discriminate | vm_compute; reflexivity]. Defined.

(** [recreate] computes the parameters of a trove exactly when its debt covers
    the liquidation reserve, and [create] with them gives that trove back with a
    debt at most one unit in the last place too high. *)
Theorem recreate_create (that : Trove) (rate : Decimal) :
  bn rate <= DIGITS -> bn ZUSD_LIQUIDATION_RESERVE <= bn (debt that) ->
  exists p t, recreate that (Some (DDecimal rate)) = Ok p /\
    create (creation_entries p) (Some (DDecimal rate)) = Ok t /\
    collateral t = collateral that /\
    bn (debt that) <= bn (debt t) <= bn (debt that) + 1 /\
    (bn rate = 0 -> t = that).
Proof.
  intros Hr Hd. destruct (creation_reaches that rate Hr Hd) as (t & Ht & Hc & Hb & Hx).
  assert (that <> _emptyTrove) as Hne.
  { intros ->. by apply Hd. }
  unfold recreate. rewrite whatChanged_from_empty by done.
  rewrite (proj2 (Z.ltb_ge _ _)) by done. cbn [bind].
  do 2 eexists. split; [done|]. unfold create. rewrite normalize_creation_entries, bind_Ok.
  split; [exact Ht|]. auto.
Qed.

Lemma recreate_create_witness :
  exists p t, recreate (mkTrove (dec 7) (dec (250 * DIGITS))) (Some (DDecimal MAXIMUM_BORROWING_RATE)) = Ok p /\
    create (creation_entries p) (Some (DDecimal MAXIMUM_BORROWING_RATE)) = Ok t /\
    collateral t = collateral (mkTrove (dec 7) (dec (250 * DIGITS))) /\
    bn (debt (mkTrove (dec 7) (dec (250 * DIGITS)))) <= bn (debt t)
      <= bn (debt (mkTrove (dec 7) (dec (250 * DIGITS)))) + 1 /\
    (bn MAXIMUM_BORROWING_RATE = 0 -> t = mkTrove (dec 7) (dec (250 * DIGITS))).
Proof. apply recreate_create; vm_compute; discriminate. Defined.

Lemma fromEntries_lookup {T} (es : entries T) k x :
  NoDup es.*1 -> fromEntries es !! k = Some x <-> (k, x) ∈ es.
Proof.
  intros Hnd. unfold fromEntries. rewrite <- elem_of_list_to_map.
  - by rewrite elem_of_reverse.
  - by rewrite reverse_Permutation.
Qed.

(** The amount a parameter object gives for a key: defined, parsed, not zero. *)
Definition param (params : entries (option Decimalish)) (k : string) : option Decimal :=
  match fromEntries params !! k with
  | Some (Some x) => match from x with Ok d => Decimal.nonZero d | Throw _ => None end
  | _ => None
  end.

Lemma param_spec params k d :
  NoDup params.*1 ->
  param params k = Some d <-> exists x, (k, Some x) ∈ params /\ from x = Ok d /\ 0 < bn d.
Proof.
  intros Hnd. unfold param, Decimal.nonZero. split.
  - destruct (fromEntries params !! k) as [[x|]|] eqn:E; try discriminate.
    destruct (from x) as [d'|] eqn:Ex; [|discriminate].
    destruct (Decimal.isZero d') eqn:Ez; [discriminate|]. intros [= <-].
    apply fromEntries_lookup in E; [|done]. apply DecimalFacts.isZero_false in Ez. eauto.
  - intros (x & Hin & Hx & Hd). apply fromEntries_lookup in Hin; [|done].
    by rewrite Hin, Hx, (proj2 (DecimalFacts.isZero_false d) Hd).
Qed.

Lemma definedEntries_elem {T} (params : entries (option T)) k x :
  (k, x) ∈ definedEntries params <-> (k, Some x) ∈ params.
Proof.
  unfold definedEntries. rewrite list_elem_of_omap. split.
  - intros ([k' [y|]] & Hin & H); [|discriminate]. by inversion H; subst.
  - intros Hin. by exists (k, Some x).
Qed.

Lemma definedEntries_keys {T} (params : entries (option T)) :
  NoDup params.*1 -> NoDup (definedEntries params).*1.
Proof.
  induction params as [|[k o] l IH]; [done|]. cbn. intros [Hk Hl]%NoDup_cons.
  destruct o as [x|]; [|by apply IH]. cbn. apply NoDup_cons. split; [|by apply IH].
  intros ([k' y] & -> & Hin)%list_elem_of_fmap. apply Hk.
  apply list_elem_of_fmap. exists (k', Some y). split; [done|]. by apply definedEntries_elem.
Qed.

Lemma decimalized_spec es ds :
  traverse decimalize es = Ok ds ->
  ds.*1 = es.*1 /\ (forall k d, (k, d) ∈ ds <-> exists x, (k, x) ∈ es /\ from x = Ok d).
Proof.
  intros H%traverse_Forall2. induction H as [|[k x] [k' d] es ds Hkd H [IH1 IH2]].
  { split; [done|]. intros k d. rewrite elem_of_nil. split; [done|]. intros (x & ? & _). set_solver. }
  unfold decimalize in Hkd. cbn in Hkd. inv_ok. cbn [fst snd] in *. subst.
  split; [cbn; by f_equal|]. intros k d0. rewrite elem_of_cons, IH2. setoid_rewrite elem_of_cons.
  split.
  - intros [[= -> ->]|(y & Hy & Hf)]; eauto.
  - intros (y & [[= -> ->]|Hy] & Hf); [left; congruence | eauto].
Qed.

Lemma fromEntries_nonzero params ds k :
  NoDup params.*1 -> traverse decimalize (definedEntries params) = Ok ds ->
  fromEntries (filter (fun e => nonZero e = true) ds) !! k = param params k.
Proof.
  intros Hnd Hds. destruct (decimalized_spec _ _ Hds) as [Hk Hel].
  assert (Hnd' : NoDup ((filter (fun e => nonZero e = true) ds).*1)).
  { eapply sublist_NoDup; [|apply fmap_sublist, sublist_filter].
    rewrite Hk. by apply definedEntries_keys. }
  apply option_eq. intros d. rewrite fromEntries_lookup, param_spec by done.
  rewrite list_elem_of_filter, Hel. unfold nonZero. cbn [snd].
  rewrite negb_true_iff, DecimalFacts.isZero_false. setoid_rewrite definedEntries_elem.
  split; [intros [? (x & ? & ?)] | intros (x & ? & ? & ?)]; eauto.
Qed.

Lemma badKeys_nil {T} allowed (es : entries T) :
  badKeys allowed es = [] <-> forall k x, (k, x) ∈ es -> k ∈ allowed.
Proof.
  unfold badKeys. split.
  - intros H k x Hin. destruct (decide (k ∈ allowed)) as [|Hk]; [done|].
    assert (k ∈ filter (fun k => k ∉ allowed) (map fst es)) as Hel; [|by rewrite H in Hel; set_solver].
    apply list_elem_of_filter. split; [done|]. apply list_elem_of_fmap. by exists (k, x).
  - intros H. destruct (filter _ _) as [|k l] eqn:E; [done|]. exfalso.
    assert (k ∈ filter (fun k => k ∉ allowed) (map fst es)) as Hel by (rewrite E; set_solver).
    apply list_elem_of_filter in Hel as [Hk ([k' x] & -> & Hin)%list_elem_of_fmap]. eauto.
Qed.

Lemma checkAllowed_Ok {T} (es : entries T) u :
  checkAllowedTroveAdjustmentKeys es = Ok u <->
  forall k x, (k, x) ∈ es -> k ∈ allowedTroveAdjustmentKeys.
Proof.
  unfold checkAllowedTroveAdjustmentKeys. rewrite <- badKeys_nil. destruct u.
  by destruct (badKeys _ _).
Qed.

(** The four properties of an adjustment object determine it. *)
Lemma adjustment_from_reads {T} (es : entries T) (p : TroveAdjustmentParams T) :
  let m := fromEntries es in
  troveAdjustmentParamsFromEntries es = Ok p <->
  depositCollateral p = m !! "depositCollateral"%string /\
  withdrawCollateral p = m !! "withdrawCollateral"%string /\
  borrowZUSD p = m !! "borrowZUSD"%string /\ repayZUSD p = m !! "repayZUSD"%string.
Proof.
  intros m. unfold troveAdjustmentParamsFromEntries, collateralChangeFrom, debtChangeFrom. fold m.
  destruct (m !! "depositCollateral"%string), (m !! "withdrawCollateral"%string),
    (m !! "borrowZUSD"%string), (m !! "repayZUSD"%string); cbn;
    (split; [intros H; inversion H; subst; done|]);
    destruct p as [[?|?]|[?|?]|[?|?] [?|?]]; cbn; intros (? & ? & ? & ?); congruence.
Qed.

Lemma traverse_is_ok {A B} (f : A -> result B) l :
  (exists l', traverse f l = Ok l') <-> forall x, x ∈ l -> is_ok (f x) = true.
Proof.
  split.
  - intros [l' H%traverse_Forall2] x Hx. induction H; [set_solver|].
    apply elem_of_cons in Hx as [->|Hx]; [|auto]. by rewrite H.
  - induction l as [|x l IH]; intros H; [by exists []|].
    pose proof (H x ltac:(set_solver)) as Hx. cbn [traverse].
    destruct (f x) as [y|]; [|discriminate]. destruct IH as [ys Hys]; [set_solver|].
    exists (y :: ys). by rewrite bind_Ok, Hys.
Qed.

(** Normalising an adjustment object succeeds exactly when every defined
    property is one of the four allowed ones and parses, and the result holds the
    non-zero amounts of the object, no more than one of each opposite pair and at
    least one in total (by the type of the result). *)
Theorem normalizeTroveAdjustment_spec (params : entries (option Decimalish))
    (p : TroveAdjustmentParams Decimal) :
  NoDup params.*1 ->
  _normalizeTroveAdjustment params = Ok p <->
  (forall k x, (k, Some x) ∈ params -> k ∈ allowedTroveAdjustmentKeys /\ is_ok (from x) = true) /\
  depositCollateral p = param params "depositCollateral" /\
  withdrawCollateral p = param params "withdrawCollateral" /\
  borrowZUSD p = param params "borrowZUSD" /\
  repayZUSD p = param params "repayZUSD".
Proof.
  intros Hnd. unfold _normalizeTroveAdjustment. split.
  - intros H. apply bind_Ok_inv in H as ([] & Hc & H). apply bind_Ok_inv in H as (ds & Hds & H).
    apply adjustment_from_reads in H. rewrite !(fromEntries_nonzero params ds) in H by done.
    split; [|done]. intros k x Hin%definedEntries_elem.
    split; [by eapply (proj1 (checkAllowed_Ok _ tt) Hc)|].
    pose proof (proj1 (traverse_is_ok _ _) (ex_intro _ ds Hds) _ Hin) as Hok.
    unfold decimalize in Hok. cbn [snd] in Hok. by destruct (from x).
  - intros [Hall H].
    rewrite (proj2 (checkAllowed_Ok _ tt)), bind_Ok
      by (intros k x Hin%definedEntries_elem; by apply (Hall k x)).
    destruct (proj2 (traverse_is_ok decimalize (definedEntries params))) as [ds Hds].
    { intros [k x] Hin%definedEntries_elem. apply Hall in Hin as [_ Hok].
      unfold decimalize. cbn [snd]. by destruct (from x). }
    rewrite Hds, bind_Ok. apply adjustment_from_reads.
    by rewrite !(fromEntries_nonzero params ds).
Qed.

Lemma normalizeTroveAdjustment_spec_witness :
  let params := [("borrowZUSD"%string, Some (DNumber (lit "10.5"))); ("repayZUSD"%string, None);
                 ("withdrawCollateral"%string, Some (DString "0"))] in
  _normalizeTroveAdjustment params = Ok (OnlyDebt (ZUSDBorrowing (dec 10500000000000000000))) <->
  (forall k x, (k, Some x) ∈ params -> k ∈ allowedTroveAdjustmentKeys /\ is_ok (from x) = true) /\
  None = param params "depositCollateral" /\
  None = param params "withdrawCollateral" /\
  Some (dec 10500000000000000000) = param params "borrowZUSD" /\
  None = param params "repayZUSD".
Proof.
  intros params. apply (normalizeTroveAdjustment_spec params (OnlyDebt (ZUSDBorrowing (dec 10500000000000000000)))).
  apply (bool_decide_unpack _). vm_compute. exact I.
Defined.

(** ** Redistribution and ratios *)

Lemma ratio_total (this : Trove) (price : Decimal) : exists r, collateralRatio this price = Ok r.
Proof. unfold collateralRatio. rewrite DecimalFacts.mulDiv_decimal. by eexists. Qed.

Lemma below_critical_total (this : Trove) (price : Decimal) :
  exists b, collateralRatioIsBelowCritical this price = Ok b.
Proof.
  unfold collateralRatioIsBelowCritical. destruct (ratio_total this price) as [r ->]. by eexists.
Qed.

Lemma below_minimum_total (this : Trove) (price : Decimal) :
  exists b, collateralRatioIsBelowMinimum this price = Ok b.
Proof.
  unfold collateralRatioIsBelowMinimum. destruct (ratio_total this price) as [r ->]. by eexists.
Qed.

Lemma applyRedistribution_total this total :
  exists t, UserTrove.applyRedistribution this total = Ok t.
Proof.
  unfold UserTrove.applyRedistribution, subtract, multiply, add.
  repeat (progress autorewrite with zero; cbn [collateral debt]). by eexists.
Qed.

Lemma applyRedistribution_eq (this : TroveWithPendingRedistribution) (total : Trove) :
  let share now before := Z.max 0 (bn now - bn before) * bn (stake this) / DIGITS in
  let own := user_trove (pending_user this) in
  let snapshot := snapshotOfTotalRedistributed this in
  exists t, UserTrove.applyRedistribution this total
      = Ok (mkUserTrove t (ownerAddress (pending_user this)) (status (pending_user this))) /\
    bn (collateral t) = bn (collateral own) + share (collateral total) (collateral snapshot) /\
    bn (debt t) = bn (debt own) + share (debt total) (debt snapshot).
Proof.
  intros share own snapshot. unfold UserTrove.applyRedistribution, subtract, multiply, add.
  autorewrite with zero. cbn [collateral debt]. autorewrite with zero. cbn [collateral debt].
  autorewrite with zero. cbn [collateral debt].
  unfold UserTrove.new_UserTrove. cbn [default from_option id]. eexists. split; [done|].
  cbn [collateral debt]. unfold share. pose proof DIGITS_pos.
  assert (Hpos : forall x y, 0 <= Z.max 0 x * bn y / DIGITS) by (intros; bn_pos; apply Z.div_pos; nia).
  rewrite !(bn_dec (Z.max 0 _)), !(bn_dec (Z.max 0 _ * _ / _)) by first [lia | apply Hpos].
  rewrite !bn_dec by (apply Z.add_nonneg_nonneg; first [apply bn_nonneg | apply Hpos]). done.
Qed.

(** A redistribution never fails and adds the stake's share of what was
    redistributed since the snapshot, rounded down, to collateral and debt;
    owner and status stay. *)
Theorem applyRedistribution_value (this : TroveWithPendingRedistribution) (total : Trove) :
  let share now before := Z.max 0 (bn now - bn before) * bn (stake this) / DIGITS in
  let own := user_trove (pending_user this) in
  let snapshot := snapshotOfTotalRedistributed this in
  exists t, UserTrove.applyRedistribution this total
      = Ok (mkUserTrove t (ownerAddress (pending_user this)) (status (pending_user this))) /\
    bn (collateral t) = bn (collateral own) + share (collateral total) (collateral snapshot) /\
    bn (debt t) = bn (debt own) + share (debt total) (debt snapshot).
Proof. apply applyRedistribution_eq. Qed.

Lemma ratio_checks_value (this : Trove) (price : Decimal) :
  collateralRatioIsBelowMinimum this price =
    Ok (bn (collateral this) * bn price <? bn MINIMUM_COLLATERAL_RATIO * bn (debt this)) /\
  collateralRatioIsBelowCritical this price =
    Ok (bn (collateral this) * bn price <? bn CRITICAL_COLLATERAL_RATIO * bn (debt this)) /\
  isOpenableInRecoveryMode this price =
    Ok (bn CRITICAL_COLLATERAL_RATIO * bn (debt this) <=? bn (collateral this) * bn price).
Proof.
  unfold collateralRatioIsBelowMinimum, collateralRatioIsBelowCritical, isOpenableInRecoveryMode,
    collateralRatio. autorewrite with zero. bn_pos.
  destruct (Z.eqb_spec (bn (debt this)) 0) as [E|E].
  { rewrite E, !Z.mul_0_r. repeat split; f_equal; case_Zb; try done; nia. }
  set (q := bn (collateral this) * bn price). assert (0 <= q) by (unfold q; nia).
  assert (Hq : 0 <= q / bn (debt this)) by (apply Z.div_pos; lia).
  rewrite !bn_dec by done. set (m := bn MINIMUM_COLLATERAL_RATIO). set (c := bn CRITICAL_COLLATERAL_RATIO).
  pose proof (le_div_iff q (bn (debt this))) as Hle.
  repeat split; f_equal; case_Zb; case_Zb; try done; exfalso;
    match goal with
    | H : ?b <= _ / _, H' : _ < ?b * _ |- _ => apply Hle in H; lia
    | H : _ / _ < ?b, H' : ?b * _ <= _ |- _ => apply Hle in H'; lia
    end.
Qed.

(** The collateral ratio checks are exact despite the rounding of the ratio:
    they compare collateral times price with the threshold times debt. *)
Theorem ratio_checks_exact (this : Trove) (price : Decimal) :
  collateralRatioIsBelowMinimum this price =
    Ok (bn (collateral this) * bn price <? bn MINIMUM_COLLATERAL_RATIO * bn (debt this)) /\
  collateralRatioIsBelowCritical this price =
    Ok (bn (collateral this) * bn price <? bn CRITICAL_COLLATERAL_RATIO * bn (debt this)) /\
  isOpenableInRecoveryMode this price =
    Ok (bn CRITICAL_COLLATERAL_RATIO * bn (debt this) <=? bn (collateral this) * bn price).
Proof. apply ratio_checks_value. Qed.
