(* ===== verification/Liqbot.v ===== *)
(** * examples/src/liqbot.js: a bot that liquidates Troves

    The prices that the bot reads from the store, what the network answers and what comes
    of the transaction are arguments. *)

From Stdlib Require Import Sorted.
From S2P Require Import Prelude JsString JsNumber LibDecimal LibConstants LibTrove.
Local Open Scope Z_scope.

(** A list of which the predicate may throw. *)
Fixpoint filter_result {A} (f : A -> result bool) (l : list A) : result (list A) :=
  match l with
  | [] => Ok []
  | x :: l => let! b := f x in let! r := filter_result f l in Ok (if b then x :: r else r)
  end.

(** [Array.prototype.sort] is stable. *)
Fixpoint insert_by {A} (compare : A -> A -> Z) (x : A) (l : list A) : list A :=
  match l with
  | [] => [x]
  | y :: l => if compare x y <=? 0 then x :: y :: l else y :: insert_by compare x l
  end.
Definition sort_by {A} (compare : A -> A -> Z) (l : list A) : list A := foldr (insert_by compare) [] l.

Definition underCollateralized (price : Decimal) (trove : UserTrove) : result bool :=
  Trove.collateralRatioIsBelowMinimum (user_trove trove) price.

Definition byDescendingCollateral (x y : UserTrove) : Z :=
  let a := collateral (user_trove x) in
  let b := collateral (user_trove y) in
  if bn a <? bn b then 1 else if bn b <? bn a then -1 else 0.

(** The Troves the bot goes for. *)
Definition targets (price : Decimal) (riskiestTroves : list UserTrove) : result (list UserTrove) :=
  let! l := filter_result (underCollateralized price) riskiestTroves in
  Ok (take 40 (sort_by byDescendingCollateral l)).

(** What comes of the transaction. *)
Record BotReceipt : Type := mkBotReceipt {
  rc_failed : bool;
  rc_gasUsed : Z;
  rc_collateralGasCompensation : Decimal;
  rc_zusdGasCompensation : Decimal;
  rc_liquidatedAddresses : list string }.

Record BotLiquidation : Type := mkBotLiquidation { lq_gasLimit : Z; lq_receipt : result BotReceipt }.

(** What the bot does and says. *)
Inductive BotReport : Type :=
| Nothing
| TooExpensive (expectedCost expectedCompensation : Decimal)
| TxFailed
| Liquidated_ (profit : bool) (amount : Decimal) (count : nat)
| Unexpected (e : js_error).

Definition bot_number (n : Z) : result Decimalish := if Z.abs n <? 2 ^ 53 then Ok (DNumber (number_of_Z n)) else Throw NumericFault.

Definition reduce_add (t : UserTrove) (l : list UserTrove) : result Trove :=
  fold_left (fun acc u => let! a := acc in Trove.add a (user_trove u)) l (Ok (user_trove t)).

Section Bot.
Variables (gasPrice : result Decimal) (riskiestTroves : result (list UserTrove)).
Variables (price price' price'' : Decimal).
Variable populate : list string -> string -> result BotLiquidation.

Definition expected_compensation (troves : list UserTrove) (total : Trove) : result Decimal :=
  let! a := Decimal.mul (collateral total) (Num "0.005") in
  let! b := Decimal.mul a price' in
  let! n := bot_number (Z.of_nat (length troves)) in
  let! c := Decimal.mul ZUSD_LIQUIDATION_RESERVE n in
  Decimal.add b c.

(** The transaction is mined: what was gained. *)
Definition settle_bot (gasPrice : Decimal) (r : BotReceipt) : result BotReport :=
  if rc_failed r then Ok TxFailed
  else
    let! g := bot_number (rc_gasUsed r) in
    let! x := Decimal.mul gasPrice g in
    let! gasCost := Decimal.mul x price'' in
    let! y := Decimal.mul (rc_collateralGasCompensation r) price'' in
    let! totalCompensation := Decimal.add y (rc_zusdGasCompensation r) in
    let! b := Decimal.gte totalCompensation gasCost in
    let! d := (if b then Decimal.sub totalCompensation gasCost else Decimal.sub gasCost totalCompensation) in
    Ok (Liquidated_ b d (length (rc_liquidatedAddresses r))).

(** The body of the [try]: whether a transaction was sent, and the report. *)
Definition attempt_liquidation (gasPrice : Decimal) (t : UserTrove) (rest : list UserTrove) : bool * result BotReport :=
  let troves := t :: rest in
  let plan :=
    let! liquidation := populate (map ownerAddress troves) (Decimal.hex gasPrice) in
    let! n := bot_number (lq_gasLimit liquidation) in
    let! x := Decimal.mul gasPrice n in
    let! expectedCost := Decimal.mul x price' in
    let! total := reduce_add t rest in
    let! expectedCompensation := expected_compensation troves total in
    let! b := Decimal.gt expectedCost expectedCompensation in
    Ok (liquidation, b, expectedCost, expectedCompensation) in
  match plan with
  | Throw e => (false, Throw e)
  | Ok (liquidation, true, expectedCost, expectedCompensation) => (false, Ok (TooExpensive expectedCost expectedCompensation))
  | Ok (liquidation, false, _, _) => (true, let! r := lq_receipt liquidation in settle_bot gasPrice r)
  end.

(** Nothing is caught before the [try]. *)
Definition tryToLiquidate : bool * result BotReport :=
  match (let! g := gasPrice in let! l := riskiestTroves in let! troves := targets price l in Ok (g, troves)) with
  | Throw e => (false, Throw e)
  | Ok (_, []) => (false, Ok Nothing)
  | Ok (g, t :: rest) =>
      match attempt_liquidation g t rest with
      | (sent, Ok r) => (sent, Ok r)
      | (sent, Throw e) => (sent, Ok (Unexpected e))
      end
  end.
End Bot.

(** When the bot tries: once the store is loaded, and whenever the price drops. *)
Definition bot_listener (newPrice oldPrice : Decimal) : result bool := Decimal.lt newPrice oldPrice.

(** ** The choice *)

Lemma filter_result_Ok {A} (f : A -> result bool) l r : filter_result f l = Ok r -> forall x, x ∈ r <-> x ∈ l /\ f x = Ok true.
Proof.
  revert r. induction l as [|y l IH]; intros r H x; cbn [filter_result] in H.
  { injection H as <-. rewrite !elem_of_nil. tauto. }
  apply bind_Ok_inv in H as (b & Hb & H). apply bind_Ok_inv in H as (r' & Hr & H). injection H as <-. specialize (IH r' Hr x).
  destruct b; rewrite ?elem_of_cons, IH; split.
  - intros [->|[? ?]]; auto.
  - intros [[->|?] ?]; auto.
  - intros [? ?]. auto.
  - intros [[->|?] ?]; [congruence|auto].
Qed.

Section Sorting.
Context {A : Type} (compare : A -> A -> Z).

Lemma insert_by_perm x l : insert_by compare x l ≡ₚ x :: l.
Proof. induction l as [|y l IH]; cbn [insert_by]; [done|]. destruct (_ <=? 0); [done|]. rewrite IH. apply Permutation_swap. Qed.

Lemma sort_by_perm l : sort_by compare l ≡ₚ l.
Proof. induction l as [|x l IH]; [done|]. cbn [sort_by foldr]. rewrite insert_by_perm. by f_equiv. Qed.

Context (total_ : forall x y, 0 < compare x y -> compare y x <= 0) (trans_ : forall x y z, compare x y <= 0 -> compare y z <= 0 -> compare x z <= 0).

Lemma insert_by_sorted x l : StronglySorted (fun a b => compare a b <= 0) l -> StronglySorted (fun a b => compare a b <= 0) (insert_by compare x l).
Proof.
  induction 1 as [|y l S IH F]; cbn [insert_by]; [repeat constructor|]. destruct (Z.leb_spec (compare x y) 0) as [L|L].
  - constructor; [by constructor|]. constructor; [done|]. apply (Forall_impl _ _ _ F). intros z. by apply trans_.
  - constructor; [done|]. rewrite insert_by_perm. constructor; [by apply total_|done].
Qed.

Lemma sort_by_sorted l : StronglySorted (fun a b => compare a b <= 0) (sort_by compare l).
Proof. induction l as [|x l IH]; [constructor|]. by apply insert_by_sorted. Qed.
End Sorting.

Lemma byDescendingCollateral_le x y : byDescendingCollateral x y <= 0 <-> bn (collateral (user_trove y)) <= bn (collateral (user_trove x)).
Proof. unfold byDescendingCollateral. case_Zb; [lia|]. case_Zb; lia. Qed.

(** What is taken of a sorted list is before what is not. *)
Lemma taken_first {A} (R : A -> A -> Prop) n l x y : StronglySorted R l -> x ∈ take n l -> y ∈ drop n l -> R x y.
Proof.
  revert n. induction l as [|z l IH]; intros n S Hx Hy; [by rewrite take_nil in Hx; apply not_elem_of_nil in Hx|].
  apply StronglySorted_inv in S as [S F]. destruct n as [|n]; [by apply not_elem_of_nil in Hx|]. cbn [take drop firstn skipn] in *.
  apply elem_of_cons in Hx as [->|Hx]; [|by apply (IH n)]. rewrite Forall_forall in F. apply F. rewrite <- (take_drop n l). apply elem_of_app. by right.
Qed.

(** C33: The bot goes for at most forty Troves, all of them below the minimum ratio at
    the price it saw; when it leaves one out it has forty others with no less
    collateral. *)
Theorem targets_best price l r : targets price l = Ok r ->
  (length r <= 40)%nat /\ (forall t, t ∈ r -> t ∈ l /\ underCollateralized price t = Ok true) /\
  (forall t, t ∈ l -> underCollateralized price t = Ok true -> t ∉ r ->
     length r = 40%nat /\ forall u, u ∈ r -> bn (collateral (user_trove t)) <= bn (collateral (user_trove u))).
Proof.
  intros H. unfold targets in H. apply bind_Ok_inv in H as (f & Hf & H). injection H as <-. pose proof (filter_result_Ok _ _ _ Hf) as M.
  set (s := sort_by byDescendingCollateral f). assert (forall t, t ∈ s <-> t ∈ f) as E by (intros t; unfold s; by rewrite sort_by_perm).
  assert (StronglySorted (fun a b => byDescendingCollateral a b <= 0) s) as S.
  { apply sort_by_sorted.
    - intros x y. rewrite byDescendingCollateral_le. unfold byDescendingCollateral. case_Zb; [lia|]. case_Zb; lia.
    - intros x y z. rewrite !byDescendingCollateral_le. lia. }
  split_and!.
  - rewrite length_take. lia.
  - intros t Ht. apply M, E. rewrite <- (take_drop 40 s). apply elem_of_app. by left.
  - intros t Ht Hu Nt. assert (t ∈ drop 40 s) as Dt.
    { assert (t ∈ s) as Ts by (by apply E, M). rewrite <- (take_drop 40 s) in Ts. apply elem_of_app in Ts as [?|?]; done. }
    split.
    + rewrite length_take. assert (0 < length (drop 40 s))%nat as L by (destruct (drop 40 s); [by apply not_elem_of_nil in Dt|cbn; lia]). rewrite length_drop in L. lia.
    + intros u Hu'. apply byDescendingCollateral_le. exact (taken_first _ 40 s u t S Hu' Dt).
Qed.

Lemma targets_best_witness :
  let t c a := mkUserTrove (mkTrove (dec c) (dec 2000000000000000000000)) a open in
  let price := dec 1000000000000000000000 in
  let l := [t 2000000000000000000 "0x01"; t 2100000000000000000 "0x02"; t 5000000000000000000 "0x03"]%string in
  let r := [t 2100000000000000000 "0x02"; t 2000000000000000000 "0x01"]%string in
  targets price l = Ok r /\ (length r <= 40)%nat.
Proof.
  intros t price l r. assert (targets price l = Ok r) as E by (vm_compute; reflexivity).
  split; [exact E|]. destruct (targets_best price l r E) as (L & _). exact L.
Defined.

(** ** The cost *)

Definition total_collateral (l : list UserTrove) : Z := foldr (fun t n => bn (collateral (user_trove t)) + n) 0 l.

Lemma total_collateral_nonneg l : 0 <= total_collateral l.
Proof. induction l as [|t l IH]; [done|]. cbn. pose proof (bn_nonneg (collateral (user_trove t))). fold (total_collateral l). lia. Qed.

Lemma reduce_add_fold l : forall acc r, fold_left (fun acc u => let! a := acc in Trove.add a (user_trove u)) l (Ok acc) = Ok r ->
  bn (collateral r) = bn (collateral acc) + total_collateral l.
Proof.
  induction l as [|u l IH]; intros acc r H; [injection H as <-; cbn; lia|]. cbn [fold_left] in H.
  rewrite bind_Ok in H. unfold Trove.add in H. rewrite !DecimalFacts.add_decimal, !bind_Ok in H. apply IH in H. rewrite H. cbn [collateral total_collateral foldr].
  rewrite bn_dec by (apply Z.add_nonneg_nonneg; apply bn_nonneg). fold (total_collateral l). lia.
Qed.

Lemma mul_from (a d : Decimal) m r : LibDecimal.from m = Ok d -> Decimal.mul a m = Ok r -> bn r = bn a * bn d / DIGITS.
Proof.
  intros E H. unfold Decimal.mul in H. rewrite E, bind_Ok in H. by apply new_Decimal_Ok in H.
Qed.

Lemma small_number k n : (k <= 40)%nat -> bot_number (Z.of_nat k) = Ok n -> LibDecimal.from n = Ok (dec (Z.of_nat k * DIGITS)).
Proof.
  intros L H. do 41 (destruct k as [|k]; [vm_compute in H; injection H as <-; vm_compute; reflexivity|]). lia.
Qed.

(** What the liquidator is paid: half a percent of the collateral, and the reserve of each Trove. *)
Definition reward (price : Decimal) (l : list UserTrove) : Z :=
  total_collateral l * (5 * 10 ^ 15) / DIGITS * bn price / DIGITS + Z.of_nat (length l) * (20 * DIGITS).

Lemma expected_compensation_reward price t rest total e : (length (t :: rest) <= 40)%nat -> reduce_add t rest = Ok total ->
  expected_compensation price (t :: rest) total = Ok e -> bn e = reward price (t :: rest).
Proof.
  intros L R H. apply reduce_add_fold in R. unfold expected_compensation in H.
  apply bind_Ok_inv in H as (a & Ha & H). apply bind_Ok_inv in H as (b & Hb & H). apply bind_Ok_inv in H as (n & Hn & H).
  apply bind_Ok_inv in H as (c & Hc & H). apply (mul_from _ (dec (5 * 10 ^ 15))) in Ha; [|vm_compute; reflexivity].
  apply (mul_from _ price) in Hb; [|apply from_decimal]. apply (small_number _ _ L) in Hn. apply (mul_from _ _ _ _ Hn) in Hc.
  rewrite DecimalFacts.add_decimal in H. injection H as <-. rewrite bn_dec by (apply Z.add_nonneg_nonneg; apply bn_nonneg).
  rewrite Hb, Hc, Ha, R, (bn_dec (Z.of_nat _ * DIGITS)) by (apply Z.mul_nonneg_nonneg; [lia|vm_compute; discriminate]).
  change (bn ZUSD_LIQUIDATION_RESERVE) with (20 * DIGITS). unfold reward. cbn [total_collateral foldr]. fold (total_collateral rest).
  change (bn (dec (5 * 10 ^ 15))) with (5 * 10 ^ 15). f_equal.
  replace (20 * DIGITS * (Z.of_nat (length (t :: rest)) * DIGITS)) with (Z.of_nat (length (t :: rest)) * (20 * DIGITS) * DIGITS) by lia.
  apply Z.div_mul. pose proof DIGITS_pos. lia.
Qed.

Lemma attempt_sends price price'' populate g t rest : (length (t :: rest) <= 40)%nat -> fst (attempt_liquidation price price'' populate g t rest) = true ->
  exists liq n limit, populate (map ownerAddress (t :: rest)) (Decimal.hex g) = Ok liq /\ bot_number (lq_gasLimit liq) = Ok n /\
    (LibDecimal.from n = Ok limit /\ bn g * bn limit / DIGITS * bn price / DIGITS <= reward price (t :: rest)).
Proof.
  intros L H. unfold attempt_liquidation in H.
  destruct (populate (map ownerAddress (t :: rest)) (Decimal.hex g)) as [liq|] eqn:P; [|done]. rewrite bind_Ok in H.
  destruct (bot_number (lq_gasLimit liq)) as [n|] eqn:N; [|done]. rewrite bind_Ok in H.
  destruct (Decimal.mul g n) as [x|] eqn:X; [|done]. rewrite bind_Ok in H. rewrite DecimalFacts.mul_decimal, bind_Ok in H.
  destruct (reduce_add t rest) as [total|] eqn:R; [|done]. rewrite bind_Ok in H.
  destruct (expected_compensation price (t :: rest) total) as [e|] eqn:E; [|done]. rewrite bind_Ok, DecimalFacts.gt_decimal, bind_Ok in H.
  unfold Decimal.mul in X. pose proof X as X'. apply bind_Ok_inv in X' as (limit & F & _). fold (Decimal.mul g n) in X. apply (mul_from _ _ _ _ F) in X.
  exists liq, n, limit. split_and!; [done..|]. apply (expected_compensation_reward _ _ _ _ _ L R) in E. rewrite <- E, <- X.
  rewrite bn_dec in H by (apply Z.div_pos; [apply Z.mul_nonneg_nonneg; apply bn_nonneg|apply DIGITS_pos]).
  destruct (Z.ltb_spec (bn e) (bn x * bn price / DIGITS)); [done|lia].
Qed.

(** C27: A transaction is sent only for the chosen Troves, populated with their
    addresses, and only when its gas limit at the gas price, in USD, is no more than
    what the liquidator is paid: half a percent of their collateral and 20 ZUSD for
    each. *)
Theorem liqbot_careful gasPrice riskiestTroves price price' price'' populate :
  fst (tryToLiquidate gasPrice riskiestTroves price price' price'' populate) = true ->
  exists g l troves liq n limit,
    gasPrice = Ok g /\ riskiestTroves = Ok l /\ targets price l = Ok troves /\ troves <> [] /\
    populate (map ownerAddress troves) (Decimal.hex g) = Ok liq /\ bot_number (lq_gasLimit liq) = Ok n /\ LibDecimal.from n = Ok limit /\
    bn g * bn limit / DIGITS * bn price' / DIGITS <= reward price' troves.
Proof.
  intros H. unfold tryToLiquidate in H. destruct gasPrice as [g|]; [|done]. destruct riskiestTroves as [l|]; [|done]. rewrite !bind_Ok in H.
  destruct (targets price l) as [troves|] eqn:T; [|done]. rewrite bind_Ok in H. destruct troves as [|t rest]; [done|].
  assert (length (t :: rest) <= 40)%nat as L.
  { unfold targets in T. apply bind_Ok_inv in T as (f & _ & T). injection T as T. rewrite <- T, length_take. lia. }
  assert (fst (attempt_liquidation price' price'' populate g t rest) = true) as A by (destruct (attempt_liquidation price' price'' populate g t rest) as [? []]; exact H).
  destruct (attempt_sends _ _ _ _ _ _ L A) as (liq & n & limit & P & N & F & C). exists g, l, (t :: rest), liq, n, limit. by split_and!.
Qed.

(** A Trove of 2 BTC, half a million of gas. *)
Definition sample_populate (addresses : list string) (gasPrice : string) : result BotLiquidation :=
  Ok (mkBotLiquidation 500000 (Ok (mkBotReceipt false 400000 (dec 10000000000000000) (dec 20000000000000000000) addresses))).

Lemma liqbot_careful_witness :
  let t := mkUserTrove (mkTrove (dec 2000000000000000000) (dec 2000000000000000000000)) "0x01" open in
  let price := dec 1000000000000000000000 in
  tryToLiquidate (Ok (dec 60000000)) (Ok [t]) price price price sample_populate = (true, Ok (Liquidated_ true (dec 29976000000000000000) 1)) /\
  exists troves, targets price [t] = Ok troves /\ troves <> [].
Proof.
  intros t price. assert (tryToLiquidate (Ok (dec 60000000)) (Ok [t]) price price price sample_populate = (true, Ok (Liquidated_ true (dec 29976000000000000000) 1))) as E by (vm_compute; reflexivity).
  split; [exact E|]. destruct (liqbot_careful (Ok (dec 60000000)) (Ok [t]) price price price sample_populate) as (g & l & troves & liq & n & limit & _ & El & T & NE & _); [rewrite E; reflexivity|].
  injection El as <-. exists troves. split; [exact T|exact NE].
Defined.
