(* ===== verification/Fuzzer.v ===== *)
(** * The fuzzer (fuzzer/src): gas statistics and the checks after every operation

    GasHistogram.ts: transactions are retried when they run out of gas; those that succeed
    are counted in bins of 10,000 gas.  [attempt k] is what the [k]-th transaction comes to.
    utils.ts: the order of the Troves, the balances of the pools, and that two views of the
    protocol agree.  What is printed before a check fails is left out. *)

From Stdlib Require Import Sorted.
From S2P Require Import Prelude JsString JsNumber LibDecimal LibDifference LibConstants LibTrove TroveFacts.
Local Open Scope Z_scope.

(** ** GasHistogram.ts *)

Definition intervalWidth : Z := 10000.
Definition numberOfBins : nat := 800.

(** What comes of a transaction: it cannot be sent, or it is mined. *)
Inductive Attempt : Type :=
| NotSent (e : js_error)
| Mined (succeeded : bool) (gasUsed gasLimit : Z).

Definition receipt_succeeded (a : Attempt) : bool := match a with Mined b _ _ => b | NotSent _ => false end.

(** The loop of [retryUpTo]: [more] retries remain, [retries] were made. *)
Fixpoint retry_loop (attempt : nat -> Attempt) (more retries : nat) : result (nat * Attempt) :=
  match attempt retries with
  | NotSent e => Throw e
  | Mined succeeded gasUsed gasLimit =>
      if succeeded || (gasUsed <? gasLimit) then Ok (retries, Mined succeeded gasUsed gasLimit)
      else match more with
           | O => Ok (retries, Mined succeeded gasUsed gasLimit)
           | S more => retry_loop attempt more (S retries)
           end
  end.

Definition retryUpTo (times : nat) (attempt : nat -> Attempt) : result (nat * Attempt) := retry_loop attempt times 0.

Record GasHistogram : Type := mkGasHistogram {
  expectedFailures : Z;
  outOfGasFailures : Z;
  gasUsedBins : list Z }.

Definition new_GasHistogram : GasHistogram := mkGasHistogram 0 0 (replicate numberOfBins 0).

(** [toNumber] of a BigNumber. *)
Definition toNumber (n : Z) : result Z := if Z.abs n <? 2 ^ 53 then Ok n else Throw NumericFault.

Definition addToGasUsedHisto (this : GasHistogram) (gasUsed : Z) : result GasHistogram :=
  let! n := toNumber gasUsed in
  let binIndex := n / intervalWidth in
  if binIndex <? Z.of_nat (length (gasUsedBins this)) then
    Ok (mkGasHistogram (expectedFailures this) (outOfGasFailures this)
          (alter (fun x => x + 1) (Z.to_nat binIndex) (gasUsedBins this)))
  else Throw AssertionError.

(** [Array.prototype.findIndex]: -1 when there is none. *)
Fixpoint findIndex (l : list Z) : Z :=
  match l with
  | [] => -1
  | x :: l => if 0 <? x then 0 else let i := findIndex l in if i <? 0 then -1 else i + 1
  end.

(** [Array.prototype.slice]: a negative index counts from the end. *)
Definition js_index (n : nat) (i : Z) : nat :=
  if i <? 0 then Z.to_nat (Z.max 0 (Z.of_nat n + i)) else Nat.min (Z.to_nat i) n.
Definition js_slice {A} (l : list A) (i j : Z) : list A :=
  let from := js_index (length l) i in
  take (js_index (length l) j - from) (drop from l).

Definition getResults (this : GasHistogram) : list (Z * Z) :=
  let bins := gasUsedBins this in
  let firstNonZeroIndex := findIndex bins in
  let firstNonZeroIndexFromEnd := findIndex (reverse bins) in
  imap (fun i frequency => (intervalWidth * (firstNonZeroIndex + Z.of_nat i), frequency))
    (js_slice bins firstNonZeroIndex (Z.of_nat (length bins) - firstNonZeroIndexFromEnd)).

(** The histogram and what the promise comes to: the retries count even when it is rejected. *)
Definition expectSuccess (this : GasHistogram) (attempt : nat -> Attempt) : GasHistogram * result unit :=
  match retryUpTo 1 attempt with
  | Throw e => (this, Throw e)
  | Ok (retries, receipt) =>
      let this := mkGasHistogram (expectedFailures this) (outOfGasFailures this + Z.of_nat retries) (gasUsedBins this) in
      match receipt with
      | Mined true gasUsed _ =>
          match addToGasUsedHisto this gasUsed with
          | Ok this => (this, Ok tt)
          | Throw e => (this, Throw e)
          end
      | _ => (this, Throw (Error "Transaction failed"))
      end
  end.

Definition expectFailure (this : GasHistogram) (waitForSuccess : result unit) : GasHistogram * result unit :=
  match waitForSuccess with
  | Throw _ => (mkGasHistogram (expectedFailures this + 1) (outOfGasFailures this) (gasUsedBins this), Ok tt)
  | Ok _ => (this, Throw (Error "Unexpected success"))
  end.

(** ** utils.ts *)

Definition tinyDifference : Decimal := Eval vm_compute in constant "0.000000001".

(** A Trove with the address of its owner. *)
Abbreviation owned := (string * TroveWithPendingRedistribution)%type.

(** The loop from the second Trove on. *)
Fixpoint icr_steps (totalRedistributed : Trove) (price : Decimal) (currentTrove : UserTrove) (l : list owned) : result bool :=
  match l with
  | [] => Ok true
  | (_, t) :: l =>
      let! nextTrove := UserTrove.applyRedistribution t totalRedistributed in
      let! next := Trove.collateralRatio (user_trove nextTrove) price in
      let! current := Trove.collateralRatio (user_trove currentTrove) price in
      let! bound := Decimal.add current tinyDifference in
      let! above := Decimal.gt next bound in
      if above then Ok false else icr_steps totalRedistributed price nextTrove l
  end.

Definition sortedByICR (listOfTroves : list owned) (totalRedistributed : Trove) (price : Decimal) : result bool :=
  match listOfTroves with
  | [] | [_] => Ok true
  | (_, t) :: l =>
      let! currentTrove := UserTrove.applyRedistribution t totalRedistributed in
      icr_steps totalRedistributed price currentTrove l
  end.

Definition checkTroveOrdering (listOfTroves : list owned) (totalRedistributed : Trove) (price : Decimal) : result unit :=
  let! b := sortedByICR listOfTroves totalRedistributed price in
  if b then Ok tt else Throw (Error "ordering is broken").

Definition listDifference (listA listB : list string) : list string :=
  List.filter (fun x => negb (bool_decide (x ∈ listB))) listA.

(** [forEach]: the first failure is thrown. *)
Fixpoint check_each (mapB : gmap string TroveWithPendingRedistribution) (listA : list owned) : result unit :=
  match listA with
  | [] => Ok tt
  | (owner, troveA) :: listA =>
      match mapB !! owner with
      | None => Throw (Error (owner +:+ " has no trove in listB")%string)
      | Some troveB =>
          let! b := UserTrove.pending_equals troveA troveB in
          if b then check_each mapB listA else Throw (Error (owner +:+ " has different troves in listA & listB")%string)
      end
  end.

Definition listOfTrovesShouldBeEqual (listA listB : list owned) : result unit :=
  if negb (length listA =? length listB)%nat then Throw (Error "length of trove lists is different")
  else check_each (list_to_map (reverse listB)) listA.

(** [Difference.between(a, b).absoluteValue?.lt(tinyDifference)], [undefined] counting as false *)
Definition within (a b : Decimal) : result bool :=
  let! d := Difference.between (Some (DDecimal a)) (Some (DDecimal b)) in
  match Difference.absoluteValue d with
  | Some x => Decimal.lt x tinyDifference
  | None => Ok false
  end.

Definition trovesRoughlyEqual (troveA troveB : Trove) : result bool :=
  Trove.and_then (within (collateral troveA) (collateral troveB)) (within (debt troveA) (debt troveB)).

(** What the Troves hold in the active pool, and what is due to them from the default pool. *)
Fixpoint pool_totals (totalRedistributed : Trove) (l : list owned) (activeTotal defaultTotal : Trove) : result (Trove * Trove) :=
  match l with
  | [] => Ok (activeTotal, defaultTotal)
  | (_, troveActive) :: l =>
      let! troveTotal := UserTrove.applyRedistribution troveActive totalRedistributed in
      let! troveDefault := Trove.subtract (user_trove troveTotal) (user_trove (pending_user troveActive)) in
      let! a := Trove.add activeTotal (user_trove (pending_user troveActive)) in
      let! d := Trove.add defaultTotal troveDefault in
      pool_totals totalRedistributed l a d
  end.

Definition checkPoolBalances (activePool defaultPool : Trove) (listOfTroves : list owned) (totalRedistributed : Trove) : result unit :=
  let! totals := pool_totals totalRedistributed listOfTroves _emptyTrove _emptyTrove in
  let! a := within (collateral activePool) (collateral (fst totals)) in
  let! b := within (debt activePool) (debt (fst totals)) in
  let! c := within (collateral defaultPool) (collateral (snd totals)) in
  let! d := within (debt defaultPool) (debt (snd totals)) in
  if a && b && c && d then Ok tt else Throw (Error "discrepancy between Troves & Pools").

(** [EqualityCheck.allEqual] on the values read *)
Definition allEqual {A} (name : string) (equals : A -> A -> result bool) (values : list A) : result unit :=
  match values with
  | [] => Ok tt
  | a :: rest =>
      (fix every (l : list A) : result unit :=
         match l with
         | [] => Ok tt
         | b :: l => let! e := equals a b in if e then every l else Throw (Error ("Mismatch in " +:+ name)%string)
         end) rest
  end.

Definition shortenAddress (address : string) : string :=
  (String.substring 0 6 address +:+ "..." +:+ String.substring (String.length address - 4) 4 address)%string.

Definition truncateLastDigits (n : Z) : Z :=
  if 100000 <? n then 1000 * (n / 1000) else if 10000 <? n then 100 * (n / 100) else if 1000 <? n then 10 * (n / 10) else n.

(** ** Retrying *)

(** The loop ends with the first transaction that succeeds or leaves gas, or with the last one allowed. *)
Lemma retry_loop_Ok attempt more retries n r : retry_loop attempt more retries = Ok (n, r) ->
  attempt n = r /\ (retries <= n <= retries + more)%nat /\
  (forall i, (retries <= i < n)%nat -> exists used limit, attempt i = Mined false used limit /\ limit <= used) /\
  exists b used limit, r = Mined b used limit /\ (b = true \/ used < limit \/ n = (retries + more)%nat).
Proof.
  revert retries. induction more as [|more IH]; intros retries; cbn [retry_loop]; destruct (attempt retries) as [e|b used limit] eqn:E; try done;
    (destruct (b || (used <? limit)) eqn:D; [apply orb_prop in D; rewrite Z.ltb_lt in D; intros [= <- <-]; split_and!; [done|lia|lia|intros i Hi; lia|exists b, used, limit; split; [done|destruct D; auto]]|]).
  - intros [= <- <-]. split_and!; [done|lia|lia|intros i Hi; lia|]. exists b, used, limit. split; [done|]. right. right. lia.
  - intros H. destruct (IH _ H) as (H1 & H2 & H3 & H4). apply orb_false_elim in D as [-> D]. apply Z.ltb_ge in D. split_and!; [done|lia|lia| |].
    + intros i Hi. destruct (decide (i = retries)) as [->|Ni]; [by exists used, limit|]. apply H3. lia.
    + destruct H4 as (b & u & l & -> & H4). exists b, u, l. split; [done|]. destruct H4 as [?|[?|H4]]; [by left|by right; left|right; right; lia].
Qed.

(** ** Counting *)

Definition count (l : list Z) : Z := foldr Z.add 0 l.

Record histogram_ok (h : GasHistogram) : Prop := {
  ho_bins : length (gasUsedBins h) = numberOfBins;
  ho_nonneg : Forall (fun x => 0 <= x) (gasUsedBins h) }.

Lemma count_app l l' : count (l ++ l') = count l + count l'.
Proof. unfold count. induction l as [|x l IH]; cbn; lia. Qed.

Lemma count_alter i l : (i < length l)%nat -> count (alter (fun x => x + 1) i l) = count l + 1.
Proof.
  unfold count. revert i. induction l as [|x l IH]; intros i Hi; cbn [length] in Hi; [lia|]. destruct i as [|i]; cbn; [lia|]. rewrite IH by lia. lia.
Qed.

Lemma add_counted h gasUsed h' : histogram_ok h -> 0 <= gasUsed -> addToGasUsedHisto h gasUsed = Ok h' ->
  histogram_ok h' /\ count (gasUsedBins h') = count (gasUsedBins h) + 1 /\ expectedFailures h' = expectedFailures h /\ outOfGasFailures h' = outOfGasFailures h.
Proof.
  intros [L F] G H. unfold addToGasUsedHisto in H. apply bind_Ok_inv in H as (n & Hn & H). unfold toNumber in Hn. destruct (_ <? _); [|done]. injection Hn as <-.
  destruct (Z.ltb_spec (gasUsed / intervalWidth) (Z.of_nat (length (gasUsedBins h)))) as [B|]; [|done]. injection H as <-. cbn [gasUsedBins expectedFailures outOfGasFailures].
  assert (0 <= gasUsed / intervalWidth) by (by apply Z.div_pos). split_and!; try done.
  - split; cbn [gasUsedBins]; [by rewrite length_alter|]. apply Forall_alter; [done|]. intros x _ Hx. lia.
  - apply count_alter. lia.
Qed.

Lemma new_histogram_ok : histogram_ok new_GasHistogram.
Proof. split; unfold new_GasHistogram; cbn [gasUsedBins]; [apply length_replicate|]. apply Forall_replicate. lia. Qed.

(** What the fuzzer expects of a transaction. *)
Inductive Expectation : Type :=
| ExpectSuccess (attempt : nat -> Attempt)
| ExpectFailure (waitForSuccess : result unit).

Definition expect (h : GasHistogram) (e : Expectation) : GasHistogram * result unit :=
  match e with ExpectSuccess a => expectSuccess h a | ExpectFailure r => expectFailure h r end.

(** The fuzzer goes on as long as its expectations are met. *)
Fixpoint expect_all (h : GasHistogram) (l : list Expectation) : GasHistogram * result unit :=
  match l with
  | [] => (h, Ok tt)
  | e :: l => match expect h e with (h', Ok _) => expect_all h' l | r => r end
  end.

(** The gas used by a mined transaction is not negative. *)
Definition sensible (e : Expectation) : Prop :=
  match e with ExpectSuccess a => forall k b used limit, a k = Mined b used limit -> 0 <= used | ExpectFailure _ => True end.

Definition of_success (e : Expectation) : Z := match e with ExpectSuccess _ => 1 | ExpectFailure _ => 0 end.

Lemma expect_counted h e h' : histogram_ok h -> sensible e -> expect h e = (h', Ok tt) ->
  histogram_ok h' /\ count (gasUsedBins h') = count (gasUsedBins h) + of_success e /\ expectedFailures h' = expectedFailures h + (1 - of_success e) /\
  outOfGasFailures h <= outOfGasFailures h' <= outOfGasFailures h + of_success e.
Proof.
  intros O G H. destruct e as [a|r]; cbn [expect of_success sensible] in *.
  - unfold expectSuccess in H. destruct (retryUpTo 1 a) as [[n receipt]|] eqn:R; [|done]. apply retry_loop_Ok in R as (E & L & _ & _).
    destruct receipt as [|[] used limit]; [done| |done]. destruct (addToGasUsedHisto _ used) as [h1|] eqn:A; [|done]. injection H as <-.
    apply add_counted in A as (O' & C & F1 & F2); [|by destruct O|by apply (G n true used limit)]. cbn [gasUsedBins expectedFailures outOfGasFailures] in *.
    split_and!; try done; lia.
  - unfold expectFailure in H. destruct r; [done|]. injection H as <-. cbn [gasUsedBins expectedFailures outOfGasFailures]. split_and!; try lia. by destruct O.
Qed.

Lemma expect_all_counted l h h' : histogram_ok h -> Forall sensible l -> expect_all h l = (h', Ok tt) ->
  histogram_ok h' /\ count (gasUsedBins h') = count (gasUsedBins h) + count (map of_success l) /\
  expectedFailures h' = expectedFailures h + (Z.of_nat (length l) - count (map of_success l)) /\
  outOfGasFailures h <= outOfGasFailures h' <= outOfGasFailures h + count (map of_success l).
Proof.
  unfold count. revert h. induction l as [|e l IH]; intros h O F H; cbn [expect_all map foldr length] in *; [injection H as <-; split_and!; try done; lia|].
  apply Forall_cons in F as [Fe F]. destruct (expect h e) as [h1 [[]|]] eqn:E; [|done]. destruct (expect_counted h e h1 O Fe E) as (O1 & C1 & E1 & G1).
  destruct (IH h1 O1 F H) as (O2 & C2 & E2 & G2). unfold count in *. split_and!; try done; lia.
Qed.

(** ** Results *)

Lemma findIndex_split l : Forall (fun x => 0 <= x) l ->
  (findIndex l = -1 /\ l = replicate (length l) 0) \/
  exists i x r, findIndex l = Z.of_nat i /\ l = replicate i 0 ++ x :: r /\ 0 < x.
Proof.
  induction 1 as [|x l Hx F IH]; [by left|]. cbn [findIndex]. destruct (Z.ltb_spec 0 x) as [P|P].
  - right. exists 0%nat, x, l. done.
  - assert (x = 0) as -> by lia. destruct IH as [[E IH]|(i & y & r & E & -> & Hy)]; rewrite E.
    + left. split; [done|]. cbn. by f_equal.
    + right. exists (S i), y, r. split_and!; [|done|done]. destruct (Z.ltb_spec (Z.of_nat i) 0); lia.
Qed.

Lemma count_zeros n : count (replicate n 0) = 0.
Proof. unfold count. induction n as [|n IH]; cbn; lia. Qed.

(** The bins from the first to the last that was used. *)
Lemma results_exact h : histogram_ok h -> 0 < count (gasUsedBins h) -> exists i j mid x y,
  gasUsedBins h = replicate i 0 ++ mid ++ replicate j 0 /\ head mid = Some x /\ 0 < x /\ last mid = Some y /\ 0 < y /\
  getResults h = imap (fun n f => (intervalWidth * (Z.of_nat i + Z.of_nat n), f)) mid.
Proof.
  intros [L F] C. set (bins := gasUsedBins h) in *. destruct (findIndex_split bins F) as [[_ E]|(i & x & r & Ei & Eb & Hx)].
  { rewrite E, count_zeros in C. lia. }
  destruct (findIndex_split (reverse bins)) as [[_ E]|(j & y & r' & Ej & Er & Hy)]; [by apply Forall_reverse| |].
  { apply (f_equal reverse) in E. rewrite reverse_involutive, reverse_replicate in E. rewrite E, count_zeros in C. lia. }
  assert (bins = (reverse r' ++ [y]) ++ replicate j 0) as Eb'.
  { apply (f_equal reverse) in Er. rewrite reverse_involutive in Er. rewrite Er, reverse_app, reverse_cons, reverse_replicate. done. }
  assert (length bins = length r' + 1 + j)%nat as Lb by (rewrite Eb', !length_app, length_reverse, length_replicate; done).
  assert (bins !! i = Some x) as Bi by (rewrite Eb, lookup_app_r, length_replicate, Nat.sub_diag by (by rewrite length_replicate); done).
  assert (i < length r' + 1)%nat as Li.
  { destruct (decide (i < length r' + 1)%nat) as [?|N]; [done|]. rewrite Eb', lookup_app_r, length_app, length_reverse in Bi by (rewrite length_app, length_reverse; cbn; lia).
    apply lookup_replicate in Bi as [-> _]. lia. }
  set (mid := take (length r' + 1 - i) (drop i bins)). assert (mid = drop i (reverse r' ++ [y])) as Em.
  { unfold mid. rewrite <- skipn_firstn_comm, Eb', take_app_length'; [done|]. rewrite length_app, length_reverse. done. }
  exists i, j, mid, x, y. split_and!; try done.
  - rewrite <- (take_drop i bins) at 1. rewrite Eb at 1. rewrite take_app_length' by (by rewrite length_replicate). f_equal.
    rewrite Em, <- (drop_app_le _ (replicate j 0)) by (rewrite length_app, length_reverse; cbn; lia). by rewrite <- Eb'.
  - unfold mid. rewrite Eb, drop_app_length' by (by rewrite length_replicate). by replace (length r' + 1 - i)%nat with (S (length r' - i)) by lia.
  - rewrite Em, drop_app_le by (rewrite length_reverse; lia). by rewrite last_snoc.
  - unfold getResults. fold bins. rewrite Ei, Ej. unfold js_slice, js_index.
    destruct (Z.ltb_spec (Z.of_nat i) 0); [lia|]. destruct (Z.ltb_spec (Z.of_nat (length bins) - Z.of_nat j) 0); [lia|].
    replace (Nat.min (Z.to_nat (Z.of_nat i)) (length bins)) with i by lia.
    replace (Nat.min (Z.to_nat (Z.of_nat (length bins) - Z.of_nat j)) (length bins)) with (length r' + 1)%nat by lia. done.
Qed.

Lemma count_imap {A} (f : nat -> A) (l : list Z) : count (map snd (imap (fun n x => (f n, x)) l)) = count l.
Proof. revert f. unfold count. induction l as [|x l IH]; intros f; cbn; [done|]. f_equal. exact (IH (fun n => f (S n))). Qed.

(** When all expectations of the fuzzer were met and a success was among them, the results list every success once: intervals of
    10,000 gas without a gap, from the first to the last that was used; failures and retries are counted apart. *)
Theorem histogram_complete l h : Forall sensible l -> expect_all new_GasHistogram l = (h, Ok tt) -> 0 < count (map of_success l) ->
  count (map snd (getResults h)) = count (map of_success l) /\
  (exists i : nat, forall n p, getResults h !! n = Some p -> fst p = intervalWidth * (Z.of_nat i + Z.of_nat n)) /\
  (exists p q, head (getResults h) = Some p /\ last (getResults h) = Some q /\ 0 < snd p /\ 0 < snd q) /\
  expectedFailures h = Z.of_nat (length l) - count (map of_success l) /\ 0 <= outOfGasFailures h <= count (map of_success l).
Proof.
  intros F H C. destruct (expect_all_counted l _ h new_histogram_ok F H) as (O & E1 & E2 & E3).
  change (count (gasUsedBins new_GasHistogram)) with (count (replicate numberOfBins 0)) in E1. rewrite count_zeros in E1. cbn [new_GasHistogram expectedFailures outOfGasFailures] in E2, E3.
  destruct (results_exact h O ltac:(lia)) as (i & j & mid & x & y & Eb & Hx & Px & Hy & Py & Er). rewrite Er.
  split_and!; [| | |lia|lia|lia].
  - rewrite count_imap. rewrite Eb, !count_app, !count_zeros in E1. lia.
  - exists i. intros n p Hp. rewrite list_lookup_imap in Hp. destruct (mid !! n); [|done]. by injection Hp as <-.
  - destruct mid as [|z mid]; [done|]. injection Hx as ->. rewrite last_lookup in Hy. rewrite last_lookup, length_imap. eexists _, _. split_and!; [done| |done|].
    + by rewrite list_lookup_imap, Hy.
    + done.
Qed.

(** A histogram without a success has one interval to show, which begins below zero. *)
Theorem histogram_empty h : histogram_ok h -> count (gasUsedBins h) = 0 -> getResults h = [(- intervalWidth, 0)].
Proof.
  intros [L F] C. destruct (findIndex_split _ F) as [[E Z]|(i & x & r & _ & Eb & Hx)].
  - unfold getResults. rewrite Z, reverse_replicate, length_replicate, L. vm_compute. reflexivity.
  - rewrite Eb, count_app, count_zeros in C. rewrite Eb in F. apply Forall_app in F as [_ F]. apply Forall_cons in F as [_ F].
    assert (0 <= count r) as P by (clear -F; unfold count; induction F; cbn; lia). change (count (x :: r)) with (x + count r) in C. lia.
Qed.

Lemma histogram_empty_witness : getResults new_GasHistogram = [(-10000, 0)].
Proof. apply (histogram_empty new_GasHistogram); [split; [apply length_replicate|apply Forall_replicate; lia]|apply count_zeros]. Defined.

(** One transaction runs out of gas and succeeds the second time, one fails as expected. *)
Definition sample_expectations : list Expectation :=
  [ExpectSuccess (fun k => if Nat.eqb k 0 then Mined false 90000 90000 else Mined true 123456 200000); ExpectFailure (Throw TypeError);
   ExpectSuccess (fun _ => Mined true 145000 200000)].

Definition sample_histogram : GasHistogram := fst (expect_all new_GasHistogram sample_expectations).

Lemma sample_met : expect_all new_GasHistogram sample_expectations = (sample_histogram, Ok tt).
Proof.
  assert (snd (expect_all new_GasHistogram sample_expectations) = Ok tt) as E by (vm_compute; reflexivity).
  unfold sample_histogram. by rewrite (surjective_pairing (expect_all _ _)), E.
Qed.

Lemma histogram_complete_witness : count (map snd (getResults sample_histogram)) = 2 /\ getResults sample_histogram = [(120000, 1); (130000, 0); (140000, 1)].
Proof.
  split; [|vm_compute; reflexivity]. assert (0 < count (map of_success sample_expectations)) as P by (vm_compute; reflexivity).
  assert (Forall sensible sample_expectations) as F by (repeat constructor; intros k b used limit; cbn; repeat case_match; intros [= <- <- <-]; lia).
  exact (proj1 (histogram_complete sample_expectations sample_histogram F sample_met P)).
Defined.

(** ** The order *)

(** The ratio that the check computes. *)
Definition icr (totalRedistributed : Trove) (price : Decimal) (x : owned) : result Decimal :=
  let! t := UserTrove.applyRedistribution (snd x) totalRedistributed in Trove.collateralRatio (user_trove t) price.

(** Each ratio exceeds one before it by no more than a tiny difference for each step in between. *)
Definition nearly_descending (rs : list Decimal) : Prop :=
  forall i j a b, (i <= j)%nat -> rs !! i = Some a -> rs !! j = Some b -> bn b <= bn a + Z.of_nat (j - i) * 10 ^ 9.

Lemma steps_bound total (price : Decimal) l : forall c r, Trove.collateralRatio (user_trove c) price = Ok r -> icr_steps total price c l = Ok true ->
  exists rs, traverse (icr total price) l = Ok rs /\ nearly_descending (r :: rs).
Proof.
  induction l as [|[o t] l IH]; intros c r Hr H.
  { exists []. split; [done|]. intros i j a b L Ei Ej. destruct i, j; try done. rewrite Ei in Ej. injection Ej as <-. cbn. lia. }
  cbn [icr_steps] in H. apply bind_Ok_inv in H as (n & Hn & H). apply bind_Ok_inv in H as (rn & Hrn & H). rewrite Hr, bind_Ok, DecimalFacts.add_decimal, bind_Ok in H.
  rewrite DecimalFacts.gt_decimal, bind_Ok in H. rewrite bn_dec in H by (apply Z.add_nonneg_nonneg; apply bn_nonneg).
  change (bn tinyDifference) with (10 ^ 9) in H. destruct (Z.ltb_spec (bn r + 10 ^ 9) (bn rn)); [done|].
  destruct (IH n rn Hrn H) as (rs & T & B). exists (rn :: rs). cbn [traverse]. unfold icr at 1. cbn [snd]. rewrite Hn, bind_Ok, Hrn, bind_Ok, T, bind_Ok.
  split; [done|]. intros [|i] [|j] a b L Ei Ej; try lia.
  - rewrite Ei in Ej. injection Ej as <-. lia.
  - injection Ei as <-. pose proof (B 0%nat j rn b ltac:(lia) eq_refl Ej). lia.
  - pose proof (B i j a b ltac:(lia) Ei Ej). by replace (S j - S i)%nat with (j - i)%nat by lia.
Qed.

Lemma steps_sorted total (price : Decimal) l : forall c r rs, Trove.collateralRatio (user_trove c) price = Ok r -> traverse (icr total price) l = Ok rs ->
  StronglySorted (fun a b => bn b <= bn a) (r :: rs) -> icr_steps total price c l = Ok true.
Proof.
  induction l as [|[o t] l IH]; intros c r rs Hr T S; [done|]. cbn [traverse] in T. apply bind_Ok_inv in T as (rn & Hn & T). apply bind_Ok_inv in T as (rs' & T & E).
  injection E as <-. unfold icr in Hn. cbn [snd] in Hn. apply bind_Ok_inv in Hn as (n & Hn & Hrn). cbn [icr_steps]. rewrite Hn, bind_Ok, Hrn, bind_Ok, Hr, bind_Ok.
  rewrite DecimalFacts.add_decimal, bind_Ok, DecimalFacts.gt_decimal, bind_Ok, bn_dec by (apply Z.add_nonneg_nonneg; apply bn_nonneg).
  apply StronglySorted_inv in S as [S F]. apply Forall_cons in F as [F _]. pose proof (bn_nonneg tinyDifference).
  destruct (Z.ltb_spec (bn r + bn tinyDifference) (bn rn)); [lia|]. by apply (IH n rn rs').
Qed.

(** [sortedByICR] accepts a list whose ratios descend, and of a list that it accepts each ratio exceeds one before it by at most a billionth
    for each Trove in between. *)
Theorem sortedByICR_spec l total (price : Decimal) rs : traverse (icr total price) l = Ok rs ->
  (StronglySorted (fun a b => bn b <= bn a) rs -> sortedByICR l total price = Ok true) /\
  (sortedByICR l total price = Ok true -> nearly_descending rs).
Proof.
  intros T. destruct l as [|[o t] l]; [injection T as <-; split; [done|]; by intros _ [|i] j a b _ E|].
  cbn [traverse] in T. apply bind_Ok_inv in T as (r & Hr & T). apply bind_Ok_inv in T as (rs' & T & E). injection E as <-.
  unfold icr in Hr. cbn [snd] in Hr. apply bind_Ok_inv in Hr as (c & Hc & Hr).
  assert (sortedByICR ((o, t) :: l) total price = Ok true <-> icr_steps total price c l = Ok true) as Q.
  { unfold sortedByICR. destruct l; [done|]. by rewrite Hc, bind_Ok. }
  rewrite Q. split; [by apply steps_sorted|]. intros H. destruct (steps_bound total price l c r Hr H) as (rs & T' & B). rewrite T in T'. by injection T' as <-.
Qed.

(** ** Equal lists *)

Lemma and_then_true a b : Trove.and_then a b = Ok true <-> a = Ok true /\ b = Ok true.
Proof. unfold Trove.and_then. destruct a as [[]|]; cbn; split; (by intros [? ?]) || (by intros ?) || done. Qed.

Lemma trove_equals_true t u : Trove.equals t u = Ok true <-> t = u.
Proof.
  unfold Trove.equals. rewrite and_then_true, !DecimalFacts.eq_decimal. destruct t as [c d], u as [c' d']. cbn [collateral debt]. split.
  - intros [[= H1%Z.eqb_eq] [= H2%Z.eqb_eq]]. apply bn_inj in H1 as ->, H2 as ->. done.
  - intros [= -> ->]. by rewrite !Z.eqb_refl.
Qed.

Lemma pending_equals_true t u : UserTrove.pending_equals t u = Ok true <-> t = u.
Proof.
  unfold UserTrove.pending_equals, UserTrove.user_equals. rewrite !and_then_true, !trove_equals_true, DecimalFacts.eq_decimal.
  destruct t as [[t1 t2 t3] t4 t5], u as [[u1 u2 u3] u4 u5]. cbn [pending_user user_trove ownerAddress status stake snapshotOfTotalRedistributed]. split.
  - intros [[-> [= [H1%bool_decide_eq_true H2%bool_decide_eq_true]%andb_prop]] [[= H3%Z.eqb_eq] ->]]. apply bn_inj in H3 as ->. by subst.
  - intros [= -> -> -> -> ->]. by rewrite !bool_decide_eq_true_2, Z.eqb_refl.
Qed.

Lemma check_each_iff m l : (exists u, check_each m l = Ok u) <-> forall o t, (o, t) ∈ l -> m !! o = Some t.
Proof.
  induction l as [|[o t] l IH]; cbn [check_each]; [split; [by intros _ o t ?%not_elem_of_nil|by exists tt]|].
  setoid_rewrite elem_of_cons. split.
  - intros [u H]. destruct (m !! o) as [t'|] eqn:E; [|done]. apply bind_Ok_inv in H as (b & Hb & H). destruct b; [|done]. apply pending_equals_true in Hb as <-.
    intros o' t' [[= -> ->]|I]; [done|]. apply IH; [by exists u|done].
  - intros H. rewrite (H o t) by (by left). rewrite (proj2 (pending_equals_true t t) eq_refl), bind_Ok. apply IH. intros o' t' I. apply H. by right.
Qed.

(** [listOfTrovesShouldBeEqual] passes exactly when the two lists hold the same Troves, in whatever order, when no owner is
    twice in a list. *)
Theorem listOfTrovesShouldBeEqual_iff listA listB : NoDup listA.*1 -> NoDup listB.*1 ->
  (exists u, listOfTrovesShouldBeEqual listA listB = Ok u) <-> listA ≡ₚ listB.
Proof.
  intros NA NB. assert (forall o t, (list_to_map (reverse listB) : gmap string TroveWithPendingRedistribution) !! o = Some t <-> (o, t) ∈ listB) as M.
  { intros o t. rewrite <- elem_of_list_to_map; [by rewrite elem_of_reverse|]. by rewrite fmap_reverse, reverse_Permutation. }
  unfold listOfTrovesShouldBeEqual. destruct (Nat.eqb_spec (length listA) (length listB)) as [L|L]; cbn [negb].
  - rewrite check_each_iff. setoid_rewrite M. split.
    + intros H. apply submseteq_length_Permutation; [|lia]. apply NoDup_submseteq; [by apply NoDup_fmap_1 in NA|]. intros [o t]. apply H.
    + intros P o t. by rewrite P.
  - split; [by intros [u ?]|]. intros P. apply Permutation_length in P. done.
Qed.

(** Two Troves with the same ratios in another order. *)
Definition sample_owned (owner : string) (c d : Z) : owned :=
  (owner, mkPending (mkUserTrove (mkTrove (dec c) (dec d)) owner open) (dec c) _emptyTrove).

Lemma sortedByICR_spec_witness :
  let l := [sample_owned "0x01" 3000000000000000000 1000000000000000000; sample_owned "0x02" 2000000000000000000 1000000000000000000] in
  exists rs, traverse (icr _emptyTrove Decimal.ONE) l = Ok rs /\ sortedByICR l _emptyTrove Decimal.ONE = Ok true /\ nearly_descending rs.
Proof.
  intros l. destruct (traverse (icr _emptyTrove Decimal.ONE) l) as [rs|] eqn:E; [|vm_compute in E; discriminate E]. exists rs.
  assert (sortedByICR l _emptyTrove Decimal.ONE = Ok true) as S by (vm_compute; reflexivity).
  split; [reflexivity|]. split; [exact S|]. apply (sortedByICR_spec l _emptyTrove Decimal.ONE rs E). exact S.
Defined.

Lemma listOfTrovesShouldBeEqual_iff_witness :
  let a := sample_owned "0x01" 3000000000000000000 1000000000000000000 in let b := sample_owned "0x02" 2000000000000000000 1000000000000000000 in
  listOfTrovesShouldBeEqual [a; b] [b; a] = Ok tt /\ [a; b] ≡ₚ [b; a].
Proof.
  intros a b. split; [vm_compute; reflexivity|]. apply (listOfTrovesShouldBeEqual_iff [a; b] [b; a]).
  - apply (bool_decide_unpack _). vm_compute. exact I.
  - apply (bool_decide_unpack _). vm_compute. exact I.
  - exists tt. vm_compute. reflexivity.
Defined.
