(* ===== verification/LibFees.v ===== *)
(** * [Fees] (lib-base/src/Fees.ts)

    A [Date] is its time value in milliseconds.  Differences of valid dates are
    integers below [2^54] in absolute value, where dividing by 60000 in binary64
    and taking the floor agrees with integer division. *)

From S2P Require Import Prelude JsString JsNumber LibDecimal DecimalPow LibConstants LibTrove.
Local Open Scope Z_scope.

Definition Date : Type := Z.

Record Fees : Type := mkFees {
  _baseRateWithoutDecay : Decimal;
  _minuteDecayFactor : Decimal;
  _beta : Decimal;
  _lastFeeOperation : Date;
  _timeOfLatestBlock : Date;
  _recoveryMode : bool }.

#[export] Instance Fees_eq_dec : EqDecision Fees.
Proof. solve_decision. Defined.

Module Fees.

Definition new_Fees (baseRateWithoutDecay minuteDecayFactor beta : Decimalish)
    (lastFeeOperation timeOfLatestBlock : Date) (recoveryMode : bool) : result Fees :=
  let! base := from baseRateWithoutDecay in
  let! factor := from minuteDecayFactor in
  let! b := from beta in
  let! decays := Decimal.lt factor (Num "1") in
  let! _ := js_assert decays in
  Ok (mkFees base factor b lastFeeOperation timeOfLatestBlock recoveryMode).

Definition _setRecoveryMode (this : Fees) (recoveryMode : bool) : result Fees :=
  new_Fees (_baseRateWithoutDecay this) (_minuteDecayFactor this) (_beta this)
    (_lastFeeOperation this) (_timeOfLatestBlock this) recoveryMode.

Definition equals (this that : Fees) : result bool :=
  Trove.and_then (Decimal.eq (_baseRateWithoutDecay this) (_baseRateWithoutDecay that))
  (Trove.and_then (Decimal.eq (_minuteDecayFactor this) (_minuteDecayFactor that))
  (Trove.and_then (Decimal.eq (_beta this) (_beta that))
  (Ok ((_lastFeeOperation this =? _lastFeeOperation that) &&
       (_timeOfLatestBlock this =? _timeOfLatestBlock that) &&
       Bool.eqb (_recoveryMode this) (_recoveryMode that))))).

(** [toLocaleString] depends on the locale of the host. *)
Definition toString (toLocaleString : Date -> string) (this : Fees) : string :=
  "{ baseRateWithoutDecay: " +:+ Trove.show (_baseRateWithoutDecay this) +:+
  ", lastFeeOperation: " +:+ dquote +:+ toLocaleString (_lastFeeOperation this) +:+ dquote +:+
  ", recoveryMode: " +:+ (if _recoveryMode this then "true" else "false") +:+ " } ".

Definition minutesSinceLastFeeOperation (this : Fees) (when : option Date) : Z :=
  let when := default (_timeOfLatestBlock this) when in
  Z.max (when - _lastFeeOperation this) 0 / 60000.

Definition baseRate (this : Fees) (when : option Date) : result Decimal :=
  let! decay := Decimal.pow (_minuteDecayFactor this) (minutesSinceLastFeeOperation this when) in
  Decimal.mul decay (_baseRateWithoutDecay this).

Definition borrowingRate (this : Fees) (when : option Date) : result Decimal :=
  if _recoveryMode this then Ok Decimal.ZERO
  else
    let! base := baseRate this when in
    let! rate := Decimal.add MINIMUM_BORROWING_RATE base in
    Decimal.min rate MAXIMUM_BORROWING_RATE.

Definition redemptionRate (this : Fees) (redeemedFractionOfSupply : option Decimalish)
    (when : option Date) : result Decimal :=
  let! fraction := from (default (DDecimal Decimal.ZERO) redeemedFractionOfSupply) in
  let! base := baseRate this when in
  let! base := match Decimal.nonZero fraction with
               | Some _ =>
                   let! increase := Decimal.div fraction (_beta this) in
                   Decimal.add increase base
               | None => Ok base
               end in
  let! rate := Decimal.add MINIMUM_REDEMPTION_RATE base in
  Decimal.min rate Decimal.ONE.

End Fees.

(** ** Correctness *)
Import Fees.

(** The invariant the constructor's assertion establishes. *)
Definition decaying (f : Fees) : Prop := bn (_minuteDecayFactor f) < DIGITS.

Lemma from_one : from (Num "1") = Ok Decimal.ONE.
Proof. vm_compute. reflexivity. Qed.

Lemma new_Fees_decimal (base factor beta : Decimal) t t' r :
  new_Fees base factor beta t t' r =
  if bn factor <? DIGITS then Ok (mkFees base factor beta t t' r) else Throw AssertionError.
Proof.
  unfold new_Fees. autorewrite with zero. unfold Decimal.lt.
  rewrite from_one, !bind_Ok, bn_ONE. by case_Zb.
Qed.

Lemma new_Fees_decaying base factor beta t t' r f :
  new_Fees base factor beta t t' r = Ok f -> decaying f.
Proof.
  unfold new_Fees, Decimal.lt. rewrite from_one. intros H. inv_ok.
  rewrite bn_ONE in *. by apply Z.ltb_lt.
Qed.

Lemma setRecoveryMode_decaying f r :
  decaying f -> exists f', _setRecoveryMode f r = Ok f' /\ decaying f' /\ _recoveryMode f' = r.
Proof.
  intros H. unfold _setRecoveryMode. rewrite new_Fees_decimal, (proj2 (Z.ltb_lt _ _)) by done.
  by eexists.
Qed.

(** The elapsed minutes fit the exponent range of [pow]. *)
Definition in_range (f : Fees) (when : option Date) : Prop :=
  minutesSinceLastFeeOperation f when <= 4294967295.

Lemma baseRate_le f when :
  decaying f -> in_range f when ->
  exists b, baseRate f when = Ok b /\ bn b <= bn (_baseRateWithoutDecay f).
Proof.
  intros Hd Hr. unfold decaying, in_range in *. unfold baseRate.
  assert (0 <= minutesSinceLastFeeOperation f when) by (apply Z.div_pos; lia).
  destruct (pow_le_one (_minuteDecayFactor f) (minutesSinceLastFeeOperation f when)) as (p & -> & Hp);
    [lia | lia |].
  rewrite bind_Ok, DecimalFacts.mul_decimal. pose proof DIGITS_pos. bn_pos.
  eexists. split; [done|]. rewrite bn_dec by (apply Z.div_pos; nia). apply div_le_iff; nia.
Qed.

(** Outside recovery mode the borrowing rate is the minimum plus the decayed
    base rate, capped: always between [MINIMUM_BORROWING_RATE] and
    [MAXIMUM_BORROWING_RATE]; in recovery mode it is zero. *)
Theorem borrowingRate_bounds (f : Fees) (when : option Date) :
  decaying f -> in_range f when ->
  exists r, borrowingRate f when = Ok r /\
    if _recoveryMode f then r = Decimal.ZERO
    else bn MINIMUM_BORROWING_RATE <= bn r <= bn MAXIMUM_BORROWING_RATE /\
         bn r <= bn MINIMUM_BORROWING_RATE + bn (_baseRateWithoutDecay f).
Proof.
  intros Hd Hr. unfold borrowingRate. destruct (_recoveryMode f); [by eexists|].
  destruct (baseRate_le f when Hd Hr) as (b & -> & Hb). autorewrite with zero.
  eexists. split; [done|]. assert (bn MINIMUM_BORROWING_RATE < bn MAXIMUM_BORROWING_RATE) by reflexivity.
  bn_pos. rewrite !bn_dec by (rewrite ?bn_dec; lia). lia.
Qed.

Lemma borrowingRate_total f when :
  decaying f -> in_range f when -> exists r, borrowingRate f when = Ok r.
Proof.
  intros Hd Hr. unfold borrowingRate. destruct (_recoveryMode f); [by eexists|].
  destruct (baseRate_le f when Hd Hr) as (b & -> & _). autorewrite with zero. by eexists.
Qed.

(** The base rate raised by a redemption. *)
Lemma redemption_increase (f : Fees) (fraction b : Decimal) :
  exists b', match Decimal.nonZero fraction with
      | Some _ => let! increase := Decimal.div fraction (_beta f) in Decimal.add increase b
      | None => Ok b
      end = Ok b'.
Proof.
  destruct (Decimal.nonZero fraction); [|by eexists]. unfold Decimal.div.
  rewrite from_decimal, bind_Ok. destruct (Decimal.isZero (_beta f)) eqn:E.
  - rewrite bind_Ok, DecimalFacts.add_decimal. by eexists.
  - apply DecimalFacts.isZero_false in E. pose proof DIGITS_pos. bn_pos.
    rewrite new_Decimal_nonneg, bind_Ok, DecimalFacts.add_decimal by (apply Z.div_pos; nia).
    by eexists.
Qed.

Lemma redemptionRate_value (f : Fees) (fraction : option Decimal) when :
  decaying f -> in_range f when ->
  exists b, redemptionRate f (DDecimal <$> fraction) when =
    Ok (dec (Z.min (bn MINIMUM_REDEMPTION_RATE + bn b) DIGITS)).
Proof.
  intros Hd Hr. unfold redemptionRate.
  replace (default _ _) with (DDecimal (default Decimal.ZERO fraction)) by by destruct fraction.
  rewrite from_decimal, bind_Ok. destruct (baseRate_le f when Hd Hr) as (b & -> & _). rewrite bind_Ok.
  destruct (redemption_increase f (default Decimal.ZERO fraction) b) as (b' & ->).
  exists b'. autorewrite with zero. bn_pos. by rewrite (bn_dec (_ + _)), bn_ONE by lia.
Qed.

(** The redemption rate is always between [MINIMUM_REDEMPTION_RATE] and one,
    whatever fraction of the supply is redeemed (even when the divisor beta is
    zero, where the increase is infinite). *)
Theorem redemptionRate_bounds (f : Fees) (fraction : option Decimal) (when : option Date) :
  decaying f -> in_range f when ->
  exists r, redemptionRate f (DDecimal <$> fraction) when = Ok r /\
    bn MINIMUM_REDEMPTION_RATE <= bn r <= DIGITS.
Proof.
  intros Hd Hr. destruct (redemptionRate_value f fraction when Hd Hr) as (b & ->).
  eexists. split; [done|].
  assert (bn MINIMUM_REDEMPTION_RATE < DIGITS) by reflexivity. bn_pos. rewrite bn_dec; lia.
Qed.

Lemma borrowingRate_bounds_witness :
  let f := mkFees (dec 30000000000000000) (dec 999037758833783000) (dec 2000000000000000000)
                  1600000000000 1600086400000 false in
  exists r, borrowingRate f None = Ok r /\
    bn MINIMUM_BORROWING_RATE <= bn r <= bn MAXIMUM_BORROWING_RATE /\
    bn r <= bn MINIMUM_BORROWING_RATE + bn (_baseRateWithoutDecay f).
Proof. intros f. apply (borrowingRate_bounds f None); vm_compute; [reflexivity | discriminate]. Defined.

Lemma redemptionRate_bounds_witness :
  let f := mkFees (dec 30000000000000000) (dec 999037758833783000) (dec 0)
                  1600000000000 1600086400000 false in
  exists r, redemptionRate f (DDecimal <$> Some (dec 100)) (Some 1700000000000) = Ok r /\
    bn MINIMUM_REDEMPTION_RATE <= bn r <= DIGITS.
Proof.
  intros f. apply (redemptionRate_bounds f (Some (dec 100)) (Some 1700000000000));
    vm_compute; [reflexivity | discriminate].
Defined.
