(* ===== verification/LibDeposit.v ===== *)
(** * [StabilityDeposit] and [ZEROStake]
    (lib-base/src/StabilityDeposit.ts, lib-base/src/ZEROStake.ts) *)

From S2P Require Import Prelude JsString LibDecimal LibTrove.
Local Open Scope Z_scope.

(** ** Stability deposits *)

Inductive StabilityDepositChange (T : Type) : Type :=
| DepositZUSD (depositZUSD : T)
| WithdrawZUSD (withdrawZUSD : T) (withdrawAllZUSD : bool).
Arguments DepositZUSD {T} _.
Arguments WithdrawZUSD {T} _ _.

Record StabilityDeposit : Type := mkDeposit {
  initialZUSD : Decimal;
  currentZUSD : Decimal;
  deposit_collateralGain : Decimal;
  zeroReward : Decimal;
  frontendTag : string }.

#[export] Instance StabilityDeposit_eq_dec : EqDecision StabilityDeposit.
Proof. solve_decision. Defined.

Module StabilityDeposit.

Definition new_StabilityDeposit (initial current gain reward : Decimal) (tag : string)
    : result StabilityDeposit :=
  let! above := Decimal.gt current initial in
  if above then Throw (Error "currentZUSD can't be greater than initialZUSD")
  else Ok (mkDeposit initial current gain reward tag).

Definition deposit_isEmpty (this : StabilityDeposit) : bool :=
  Decimal.isZero (initialZUSD this) && Decimal.isZero (currentZUSD this) &&
  Decimal.isZero (deposit_collateralGain this) && Decimal.isZero (zeroReward this).

Definition deposit_toString (this : StabilityDeposit) : string :=
  "{ initialZUSD: " +:+ Trove.show (initialZUSD this) +:+
  ", currentZUSD: " +:+ Trove.show (currentZUSD this) +:+
  ", collateralGain: " +:+ Trove.show (deposit_collateralGain this) +:+
  ", zeroReward: " +:+ Trove.show (zeroReward this) +:+
  ", frontendTag: " +:+ dquote +:+ frontendTag this +:+ dquote +:+ " }".

Definition deposit_equals (this that : StabilityDeposit) : result bool :=
  Trove.and_then (Decimal.eq (initialZUSD this) (initialZUSD that))
  (Trove.and_then (Decimal.eq (currentZUSD this) (currentZUSD that))
  (Trove.and_then (Decimal.eq (deposit_collateralGain this) (deposit_collateralGain that))
  (Trove.and_then (Decimal.eq (zeroReward this) (zeroReward that))
  (Ok (bool_decide (frontendTag this = frontendTag that)))))).

Definition deposit_whatChanged (this : StabilityDeposit) (thatZUSD : Decimalish)
    : result (option (StabilityDepositChange Decimal)) :=
  let! that := from thatZUSD in
  let! less := Decimal.lt that (currentZUSD this) in
  if less then
    let! difference := Decimal.sub (currentZUSD this) that in
    Ok (Some (WithdrawZUSD difference (Decimal.isZero that)))
  else
    let! more := Decimal.gt that (currentZUSD this) in
    if more then
      let! difference := Decimal.sub that (currentZUSD this) in
      Ok (Some (DepositZUSD difference))
    else Ok None.

Definition deposit_apply (this : StabilityDeposit) (change : option (StabilityDepositChange Decimalish))
    : result Decimal :=
  match change with
  | None => Ok (currentZUSD this)
  | Some (WithdrawZUSD amount all) =>
      let! nothingLeft := (if all then Ok true else Decimal.lte (currentZUSD this) amount) in
      if nothingLeft then Ok Decimal.ZERO else Decimal.sub (currentZUSD this) amount
  | Some (DepositZUSD amount) => Decimal.add (currentZUSD this) amount
  end.

(** A change computed on decimals, as an argument of [apply]. *)
Definition deposit_change_arg (c : StabilityDepositChange Decimal) : StabilityDepositChange Decimalish :=
  match c with
  | DepositZUSD x => DepositZUSD (DDecimal x)
  | WithdrawZUSD x all => WithdrawZUSD (DDecimal x) all
  end.

End StabilityDeposit.

(** ** Stakes *)

Inductive ZEROStakeChange (T : Type) : Type :=
| StakeZERO (stakeZERO : T)
| UnstakeZERO (unstakeZERO : T) (unstakeAllZERO : bool).
Arguments StakeZERO {T} _.
Arguments UnstakeZERO {T} _ _.

Record ZEROStake : Type := mkStake {
  stakedZERO : Decimal;
  stake_collateralGain : Decimal;
  zusdGain : Decimal }.

#[export] Instance ZEROStake_eq_dec : EqDecision ZEROStake.
Proof. solve_decision. Defined.

Module ZEROStake.

Definition stake_isEmpty (this : ZEROStake) : bool :=
  Decimal.isZero (stakedZERO this) && Decimal.isZero (stake_collateralGain this) &&
  Decimal.isZero (zusdGain this).

Definition stake_toString (this : ZEROStake) : string :=
  "{ stakedZERO: " +:+ Trove.show (stakedZERO this) +:+
  ", collateralGain: " +:+ Trove.show (stake_collateralGain this) +:+
  ", zusdGain: " +:+ Trove.show (zusdGain this) +:+ " }".

Definition stake_equals (this that : ZEROStake) : result bool :=
  Trove.and_then (Decimal.eq (stakedZERO this) (stakedZERO that))
  (Trove.and_then (Decimal.eq (stake_collateralGain this) (stake_collateralGain that))
  (Decimal.eq (zusdGain this) (zusdGain that))).

Definition stake_whatChanged (this : ZEROStake) (thatStakedZERO : Decimalish)
    : result (option (ZEROStakeChange Decimal)) :=
  let! that := from thatStakedZERO in
  let! less := Decimal.lt that (stakedZERO this) in
  if less then
    let! difference := Decimal.sub (stakedZERO this) that in
    Ok (Some (UnstakeZERO difference (Decimal.isZero that)))
  else
    let! more := Decimal.gt that (stakedZERO this) in
    if more then
      let! difference := Decimal.sub that (stakedZERO this) in
      Ok (Some (StakeZERO difference))
    else Ok None.

Definition stake_apply (this : ZEROStake) (change : option (ZEROStakeChange Decimalish))
    : result Decimal :=
  match change with
  | None => Ok (stakedZERO this)
  | Some (UnstakeZERO amount all) =>
      let! nothingLeft := (if all then Ok true else Decimal.lte (stakedZERO this) amount) in
      if nothingLeft then Ok Decimal.ZERO else Decimal.sub (stakedZERO this) amount
  | Some (StakeZERO amount) => Decimal.add (stakedZERO this) amount
  end.

Definition stake_change_arg (c : ZEROStakeChange Decimal) : ZEROStakeChange Decimalish :=
  match c with
  | StakeZERO x => StakeZERO (DDecimal x)
  | UnstakeZERO x all => UnstakeZERO (DDecimal x) all
  end.

End ZEROStake.

(** ** Correctness *)
Import StabilityDeposit ZEROStake.

Lemma new_StabilityDeposit_Ok initial current gain reward tag d :
  new_StabilityDeposit initial current gain reward tag = Ok d <->
  bn current <= bn initial /\ d = mkDeposit initial current gain reward tag.
Proof.
  unfold new_StabilityDeposit. autorewrite with zero. case_Zb.
  - split; [discriminate | lia].
  - split; [intros [= <-]; done | intros [_ ->]; done].
Qed.

(** Taking the difference off again, or the whole amount when nothing is wanted. *)
Lemma decrease_back (current that : Decimal) :
  bn that < bn current ->
  exists x, Decimal.sub current that = Ok x /\
    (let! nothingLeft := (if Decimal.isZero that then Ok true else Decimal.lte current x) in
     if nothingLeft then Ok Decimal.ZERO else Decimal.sub current x) = Ok that.
Proof.
  intros H. bn_pos. rewrite DecimalFacts.sub_decimal by lia. eexists. split; [done|].
  destruct (Decimal.isZero that) eqn:E.
  - apply DecimalFacts.isZero_true in E. rewrite bind_Ok. f_equal. by apply bn_inj.
  - apply DecimalFacts.isZero_false in E.
    rewrite DecimalFacts.lte_decimal, bind_Ok, bn_dec by lia. rewrite (proj2 (Z.leb_gt _ _)) by lia.
    rewrite DecimalFacts.sub_decimal, bn_dec by (rewrite ?bn_dec; lia).
    f_equal. apply bn_inj. rewrite bn_dec; lia.
Qed.

Lemma increase_back (current that : Decimal) :
  bn current < bn that ->
  exists x, Decimal.sub that current = Ok x /\ Decimal.add current x = Ok that.
Proof.
  intros H. bn_pos. rewrite DecimalFacts.sub_decimal by lia. eexists. split; [done|].
  rewrite DecimalFacts.add_decimal, bn_dec by lia. f_equal. apply bn_inj. rewrite bn_dec; lia.
Qed.

(** Applying the change computed by [whatChanged] to a stability deposit gives
    the wanted amount, exactly, for every decimal; the change is a withdrawal of
    everything exactly when a positive deposit goes to zero. *)
Theorem deposit_whatChanged_apply (this : StabilityDeposit) (that : Decimal) :
  exists c, deposit_whatChanged this that = Ok c /\
    deposit_apply this (deposit_change_arg <$> c) = Ok that /\
    ((exists x, c = Some (WithdrawZUSD x true)) <-> bn that = 0 /\ 0 < bn (currentZUSD this)).
Proof.
  unfold deposit_whatChanged. autorewrite with zero. bn_pos.
  case_Zb; [|autorewrite with zero; case_Zb].
  - destruct (decrease_back (currentZUSD this) that) as (x & -> & Hx); [done|].
    eexists. split; [done|]. split; [exact Hx|].
    unfold Decimal.isZero. case_Zb; split; [lia | by eexists | by intros [? [=]] | lia].
  - destruct (increase_back (currentZUSD this) that) as (x & -> & Hx); [done|].
    eexists. split; [done|]. split; [exact Hx|]. split; [by intros [? [=]] | lia].
  - eexists. split; [done|]. split; [cbn; f_equal; apply bn_inj; lia|].
    split; [by intros [? [=]] | lia].
Qed.

(** The same for stakes: the change found between two staked amounts leads from
    one to the other, and unstakes everything exactly when a positive stake goes
    to zero. *)
Theorem stake_whatChanged_apply (this : ZEROStake) (that : Decimal) :
  exists c, stake_whatChanged this that = Ok c /\
    stake_apply this (stake_change_arg <$> c) = Ok that /\
    ((exists x, c = Some (UnstakeZERO x true)) <-> bn that = 0 /\ 0 < bn (stakedZERO this)).
Proof.
  unfold stake_whatChanged. autorewrite with zero. bn_pos.
  case_Zb; [|autorewrite with zero; case_Zb].
  - destruct (decrease_back (stakedZERO this) that) as (x & -> & Hx); [done|].
    eexists. split; [done|]. split; [exact Hx|].
    unfold Decimal.isZero. case_Zb; split; [lia | by eexists | by intros [? [=]] | lia].
  - destruct (increase_back (stakedZERO this) that) as (x & -> & Hx); [done|].
    eexists. split; [done|]. split; [exact Hx|]. split; [by intros [? [=]] | lia].
  - eexists. split; [done|]. split; [cbn; f_equal; apply bn_inj; lia|].
    split; [by intros [? [=]] | lia].
Qed.
