(* ===== verification/LibStore.v ===== *)
(** * [LiquityStore] (lib-base/src/LiquityStore.ts)

    The state variables are the keys of an object: [BaseState] and
    [DerivedState] map each key to the object it holds.  The values are
    immutable instances, but [difference] compares them with [!==], so a value
    carries the identity of the object that holds it. *)

From S2P Require Import Prelude JsString JsNumber LibDecimal LibConstants LibTrove LibFees LibDeposit.
Local Open Scope Z_scope.

(** ** Keys *)

(** lib-base/src/ReadableLiquity.ts *)
Inductive FrontendStatus : Type :=
| unregistered
| registered (kickbackRate : Decimal).

#[export] Instance FrontendStatus_eq_dec : EqDecision FrontendStatus.
Proof. solve_decision. Defined.

Module Key.

Inductive baseKey : Type :=
| frontend | ownFrontend | numberOfTroves | accountBalance | zusdBalance | nueBalance
| zeroBalance | collateralSurplusBalance | price | zusdInStabilityPool | total
| totalRedistributed | troveBeforeRedistribution | stabilityDeposit
| remainingStabilityPoolZEROReward | _feesInNormalMode | zeroStake | totalStakedZERO
| _riskiestTroveBeforeRedistribution.

Definition baseType (k : baseKey) : Type :=
  match k with
  | frontend | ownFrontend => FrontendStatus
  | numberOfTroves => Z
  | total | totalRedistributed => Trove
  | troveBeforeRedistribution | _riskiestTroveBeforeRedistribution => TroveWithPendingRedistribution
  | stabilityDeposit => StabilityDeposit
  | _feesInNormalMode => Fees
  | zeroStake => ZEROStake
  | _ => Decimal
  end.

Inductive derivedKey : Type :=
| trove | fees | borrowingRate | redemptionRate | haveUndercollateralizedTroves.

Definition derivedType (k : derivedKey) : Type :=
  match k with
  | trove => UserTrove
  | fees => Fees
  | borrowingRate | redemptionRate => Decimal
  | haveUndercollateralizedTroves => bool
  end.

End Key.
Import Key.

(** A value with the identity of the object holding it. *)
Record obj (A : Type) : Type := mkObj { ident : positive; val : A }.
Arguments mkObj {A} _ _.
Arguments ident {A} _.
Arguments val {A} _.

Definition BaseState : Type := forall k, obj (baseType k).
Definition BaseUpdate : Type := forall k, option (obj (baseType k)).
Definition DerivedState : Type := forall k, obj (derivedType k).

(** The keys in the order of the object literals of [_reduce] and [_reduceDerived]. *)
Definition baseKeys : list baseKey :=
  [frontend; ownFrontend; numberOfTroves; accountBalance; zusdBalance; nueBalance; zeroBalance;
   collateralSurplusBalance; price; zusdInStabilityPool; total; totalRedistributed;
   troveBeforeRedistribution; stabilityDeposit; remainingStabilityPoolZEROReward;
   _feesInNormalMode; zeroStake; totalStakedZERO; _riskiestTroveBeforeRedistribution].

Definition derivedKeys : list derivedKey :=
  [fees; trove; borrowingRate; redemptionRate; haveUndercollateralizedTroves].

Definition base_name (k : baseKey) : string :=
  match k with
  | frontend => "frontend" | ownFrontend => "ownFrontend" | numberOfTroves => "numberOfTroves"
  | accountBalance => "accountBalance" | zusdBalance => "zusdBalance" | nueBalance => "nueBalance"
  | zeroBalance => "zeroBalance" | collateralSurplusBalance => "collateralSurplusBalance"
  | price => "price" | zusdInStabilityPool => "zusdInStabilityPool" | total => "total"
  | totalRedistributed => "totalRedistributed"
  | troveBeforeRedistribution => "troveBeforeRedistribution"
  | stabilityDeposit => "stabilityDeposit"
  | remainingStabilityPoolZEROReward => "remainingStabilityPoolZEROReward"
  | _feesInNormalMode => "_feesInNormalMode" | zeroStake => "zeroStake"
  | totalStakedZERO => "totalStakedZERO"
  | _riskiestTroveBeforeRedistribution => "_riskiestTroveBeforeRedistribution"
  end.

Definition derived_name (k : derivedKey) : string :=
  match k with
  | trove => "trove" | fees => "fees" | borrowingRate => "borrowingRate"
  | redemptionRate => "redemptionRate"
  | haveUndercollateralizedTroves => "haveUndercollateralizedTroves"
  end.

(** ** Comparison and printing of the values *)

Definition frontendStatusEquals (a b : FrontendStatus) : bool :=
  match a with
  | unregistered => match b with unregistered => true | registered _ => false end
  | registered ka =>
      match b with
      | registered kb => evaluated false (Decimal.eq ka kb)
      | unregistered => false
      end
  end.

Definition showFrontendStatus (x : FrontendStatus) : string :=
  match x with
  | unregistered => "{ status: " +:+ dquote +:+ "unregistered" +:+ dquote +:+ " }"
  | registered k => "{ status: " +:+ dquote +:+ "registered" +:+ dquote +:+
                    ", kickbackRate: " +:+ Trove.show k +:+ " }"
  end.

(** The comparison [_reduce] uses for a key ([strictEquals], [eq], [equals] or
    [frontendStatusEquals]); comparing two instances does not throw. *)
Definition base_equals (k : baseKey) : baseType k -> baseType k -> bool :=
  match k with
  | frontend | ownFrontend => frontendStatusEquals
  | numberOfTroves => Z.eqb
  | total | totalRedistributed => fun a b => evaluated false (Trove.equals a b)
  | troveBeforeRedistribution | _riskiestTroveBeforeRedistribution =>
      fun a b => evaluated false (UserTrove.pending_equals a b)
  | stabilityDeposit => fun a b => evaluated false (StabilityDeposit.deposit_equals a b)
  | _feesInNormalMode => fun a b => evaluated false (Fees.equals a b)
  | zeroStake => fun a b => evaluated false (ZEROStake.stake_equals a b)
  | accountBalance | zusdBalance | nueBalance | zeroBalance | collateralSurplusBalance | price
  | zusdInStabilityPool | remainingStabilityPoolZEROReward | totalStakedZERO =>
      fun a b => evaluated false (Decimal.eq a b)
  end.

Definition derived_equals (k : derivedKey) : derivedType k -> derivedType k -> bool :=
  match k with
  | trove => fun a b => evaluated false (UserTrove.user_equals a b)
  | fees => fun prev next => evaluated false (Fees.equals next prev)
  | borrowingRate | redemptionRate => fun a b => evaluated false (Decimal.eq a b)
  | haveUndercollateralizedTroves => Bool.eqb
  end.

(** [_silentlyUpdateIfChanged] is used for these keys. *)
Definition base_silent (k : baseKey) : bool :=
  match k with
  | remainingStabilityPoolZEROReward | _feesInNormalMode | _riskiestTroveBeforeRedistribution => true
  | _ => false
  end.

Definition show_bool (b : bool) : string := if b then "true" else "false".

(** [show ? show(next) : next] in a template string. *)
Definition base_show (toLocaleString : Date -> string) (k : baseKey) : baseType k -> string :=
  match k with
  | frontend | ownFrontend => showFrontendStatus
  | numberOfTroves => fun n => text (print_dec n)
  | total | totalRedistributed => Trove.toString
  | troveBeforeRedistribution | _riskiestTroveBeforeRedistribution =>
      fun t => UserTrove.user_toString (pending_user t)
  | stabilityDeposit => StabilityDeposit.deposit_toString
  | _feesInNormalMode => Fees.toString toLocaleString
  | zeroStake => ZEROStake.stake_toString
  | accountBalance | zusdBalance | nueBalance | zeroBalance | collateralSurplusBalance | price
  | zusdInStabilityPool | remainingStabilityPoolZEROReward | totalStakedZERO => Trove.show
  end.

Definition derived_show (toLocaleString : Date -> string) (k : derivedKey) : derivedType k -> string :=
  match k with
  | trove => UserTrove.user_toString
  | fees => Fees.toString toLocaleString
  | borrowingRate | redemptionRate => Trove.show
  | haveUndercollateralizedTroves => show_bool
  end.

(** [value !== other]: primitives by value, objects by identity. *)
Definition base_same (k : baseKey) : obj (baseType k) -> obj (baseType k) -> bool :=
  match k with
  | numberOfTroves => fun a b => val a =? val b
  | _ => fun a b => Pos.eqb (ident a) (ident b)
  end.

Definition derived_same (k : derivedKey) : obj (derivedType k) -> obj (derivedType k) -> bool :=
  match k with
  | haveUndercollateralizedTroves => fun a b => Bool.eqb (val a) (val b)
  | _ => fun a b => Pos.eqb (ident a) (ident b)
  end.

(** ** Reducers *)

(** [_updateIfChanged] and [_silentlyUpdateIfChanged], without the logging. *)
Definition _updateIfChanged {A} (equals : A -> A -> bool) (prev : obj A) (next : option (obj A)) : obj A :=
  match next with
  | Some n => if negb (equals (val prev) (val n)) then n else prev
  | None => prev
  end.

(** [_logUpdate]: the line printed when logging is on. *)
Definition _logUpdate (logging : bool) (name shown : string) : list string :=
  if logging then [name +:+ " updated to " +:+ shown] else [].

(** Whether an update replaces the value. *)
Definition changes {A} (equals : A -> A -> bool) (prev : obj A) (next : option (obj A)) : bool :=
  match next with Some n => negb (equals (val prev) (val n)) | None => false end.

Section Reducers.
Variable toLocaleString : Date -> string.

Definition _reduce (baseState : BaseState) (baseStateUpdate : BaseUpdate) : BaseState :=
  fun k => _updateIfChanged (base_equals k) (baseState k) (baseStateUpdate k).

Definition reduce_log (logging : bool) (baseState : BaseState) (baseStateUpdate : BaseUpdate)
    : list string :=
  flat_map (fun k =>
    match baseStateUpdate k with
    | Some n =>
        if changes (base_equals k) (baseState k) (Some n) && negb (base_silent k)
        then _logUpdate logging (base_name k) (base_show toLocaleString k (val n))
        else []
    | None => []
    end) baseKeys.

(** The values [_derive] computes; each is a new object. *)
Definition derive_values (s : forall k, baseType k) : result (forall k, derivedType k) :=
  let! recovery := Trove.collateralRatioIsBelowCritical (s total) (s price) in
  let! f := Fees._setRecoveryMode (s _feesInNormalMode) recovery in
  let! t := UserTrove.applyRedistribution (s troveBeforeRedistribution) (s totalRedistributed) in
  let! br := Fees.borrowingRate f None in
  let! rr := Fees.redemptionRate f None None in
  let! riskiest := UserTrove.applyRedistribution (s _riskiestTroveBeforeRedistribution)
                     (s totalRedistributed) in
  let! under := Trove.collateralRatioIsBelowMinimum (user_trove riskiest) (s price) in
  Ok (fun k => match k as k return derivedType k with
               | trove => t
               | fees => f
               | borrowingRate => br
               | redemptionRate => rr
               | haveUndercollateralizedTroves => under
               end).

Definition derived_index (k : derivedKey) : positive :=
  match k with
  | trove => 1 | fees => 2 | borrowingRate => 3 | redemptionRate => 4
  | haveUndercollateralizedTroves => 5
  end%positive.

(** [_derive] with object identities above [next]. *)
Definition _derive (next : positive) (baseState : BaseState) : result DerivedState :=
  let! d := derive_values (fun k => val (baseState k)) in
  Ok (fun k => mkObj (next + derived_index k)%positive (d k)).

Definition _reduceDerived (derivedState derivedStateUpdate : DerivedState) : DerivedState :=
  fun k => _updateIfChanged (derived_equals k) (derivedState k) (Some (derivedStateUpdate k)).

(** [_updateFees] logs only when the printed fees differ; the rates are silent. *)
Definition reduceDerived_log (logging : bool) (prev next : DerivedState) : list string :=
  let logged k := _logUpdate logging (derived_name k) (derived_show toLocaleString k (val (next k))) in
  flat_map (fun k =>
    if changes (derived_equals k) (prev k) (Some (next k)) then
      match k with
      | trove | haveUndercollateralizedTroves => logged k
      | fees =>
          if bool_decide (Fees.toString toLocaleString (val (next fees)) =
                          Fees.toString toLocaleString (val (prev fees)))
          then [] else logged fees
      | borrowingRate | redemptionRate => []
      end
    else []) derivedKeys.
End Reducers.

(** ** The store *)

(** What a subclass adds: the extra state, its partial update, [_reduceExtra],
    and which of its keys differ between two states ([!==]). *)
Class ExtraState (T U : Type) : Type := {
  _reduceExtra : T -> U -> T;
  extra_difference : T -> T -> list string }.

Record State (T : Type) : Type := mkState {
  st_base : option BaseState;
  st_derived : option DerivedState;
  st_extra : option T }.
Arguments mkState {T} _ _ _.
Arguments st_base {T} _.
Arguments st_derived {T} _.
Arguments st_extra {T} _.

Record ListenerParams (T : Type) : Type := mkParams {
  newState : State T;
  oldState : State T;
  stateChange : list string }.
Arguments mkParams {T} _ _ _.
Arguments newState {T} _.
Arguments oldState {T} _.
Arguments stateChange {T} _.

(** The fields of the class, and the parts of the host it acts on: console
    lines, timers that are set, calls of [onLoaded], and the supplies of
    identities for new objects, timers and wrapped listeners. *)
Record Store (T : Type) : Type := mkStore {
  logging : bool;
  onLoaded : bool;
  _loaded : bool;
  _baseState : option BaseState;
  _derivedState : option DerivedState;
  _extraState : option T;
  _updateTimeoutId : option Z;
  _listeners : list Z;
  console : list string;
  timers : list Z;
  onLoadedCalls : nat;
  nextObject : positive;
  nextTimer : Z;
  nextListener : Z }.
Arguments mkStore {T}.
Arguments logging {T} _.
Arguments onLoaded {T} _.
Arguments _loaded {T} _.
Arguments _baseState {T} _.
Arguments _derivedState {T} _.
Arguments _extraState {T} _.
Arguments _updateTimeoutId {T} _.
Arguments _listeners {T} _.
Arguments console {T} _.
Arguments timers {T} _.
Arguments onLoadedCalls {T} _.
Arguments nextObject {T} _.
Arguments nextTimer {T} _.
Arguments nextListener {T} _.

Module LiquityStore.
Section LiquityStore.
Context {T U : Type} `{ExtraState T U}.

(** The host's locale and what each listener does to the set of listeners when
    it is called (by subscribing and unsubscribing). *)
Variable toLocaleString : Date -> string.
Variable callback : Z -> list Z -> list Z.

Definition new_Store (log loadedCallback : bool) : Store T :=
  mkStore log loadedCallback false None None None None [] [] [] 0 1 1 1.

(** [get state()] *)
Definition state (this : Store T) : State T :=
  mkState (_baseState this) (_derivedState this) (_extraState this).

Definition set_states (this : Store T) b d e log (next : positive) : Store T :=
  mkStore (logging this) (onLoaded this) (_loaded this) b d e (_updateTimeoutId this)
    (_listeners this) (console this ++ log) (timers this) (onLoadedCalls this)
    next (nextTimer this) (nextListener this).

Definition set_timers (this : Store T) (id : option Z) (ts : list Z) (next : Z) : Store T :=
  mkStore (logging this) (onLoaded this) (_loaded this) (_baseState this) (_derivedState this)
    (_extraState this) id (_listeners this) (console this) ts (onLoadedCalls this)
    (nextObject this) next (nextListener this).

Definition set_listeners (this : Store T) (ls : list Z) (next : Z) : Store T :=
  mkStore (logging this) (onLoaded this) (_loaded this) (_baseState this) (_derivedState this)
    (_extraState this) (_updateTimeoutId this) ls (console this) (timers this)
    (onLoadedCalls this) (nextObject this) (nextTimer this) next.

Definition set_loaded (this : Store T) : Store T :=
  mkStore (logging this) (onLoaded this) true (_baseState this) (_derivedState this)
    (_extraState this) (_updateTimeoutId this) (_listeners this) (console this) (timers this)
    (onLoadedCalls this) (nextObject this) (nextTimer this) (nextListener this).

Definition call_onLoaded (this : Store T) : Store T :=
  if onLoaded this then
    mkStore (logging this) (onLoaded this) (_loaded this) (_baseState this) (_derivedState this)
      (_extraState this) (_updateTimeoutId this) (_listeners this) (console this) (timers this)
      (S (onLoadedCalls this)) (nextObject this) (nextTimer this) (nextListener this)
  else this.

(** ** Timers *)

Definition _cancelUpdateIfScheduled (this : Store T) : Store T :=
  match _updateTimeoutId this with
  | Some id => set_timers this (Some id) (filter (fun t => t <> id) (timers this)) (nextTimer this)
  | None => this
  end.

Definition _scheduleUpdate (this : Store T) : Store T :=
  let this := _cancelUpdateIfScheduled this in
  let id := nextTimer this in
  set_timers this (Some id) (timers this ++ [id]) (id + 1).

(** ** Listeners *)

(** Iterate over a copy of the listeners, skipping those removed meanwhile; the
    result is the listeners called, in order, and the set that is left. *)
Definition notify_step (acc : list Z * list Z) (listener : Z) : list Z * list Z :=
  let '(called, current) := acc in
  if bool_decide (listener ∈ current)
  then (called ++ [listener], callback listener current)
  else acc.

Definition _notify (listeners : list Z) : list Z * list Z :=
  fold_left notify_step listeners ([], listeners).

Definition subscribe (this : Store T) : Store T * Z :=
  let uniqueListener := nextListener this in
  (set_listeners this (_listeners this ++ [uniqueListener]) (uniqueListener + 1), uniqueListener).

Definition unsubscribe (this : Store T) (uniqueListener : Z) : Store T :=
  set_listeners this (filter (fun l => l <> uniqueListener) (_listeners this)) (nextListener this).

(** [difference(newState, oldState)]: the keys whose values are not identical. *)
Definition difference (a b : State T) : list string :=
  match st_base a, st_base b with
  | Some x, Some y => map base_name (filter (fun k => base_same k (x k) (y k) = false) baseKeys)
  | _, _ => []
  end ++
  match st_derived a, st_derived b with
  | Some x, Some y => map derived_name (filter (fun k => derived_same k (x k) (y k) = false) derivedKeys)
  | _, _ => []
  end ++
  match st_extra a, st_extra b with
  | Some x, Some y => extra_difference x y
  | _, _ => []
  end.

(** ** Loading and updating

    A method that can throw returns the store it leaves behind either way. *)

Definition _load (this : Store T) (base : BaseState) (extra : option T) : Store T * result unit :=
  if _loaded this then (this, Throw AssertionError)
  else
    let this := set_states this (Some base) (_derivedState this) (_extraState this) [] (nextObject this) in
    match _derive (nextObject this) base with
    | Throw e => (this, Throw e)
    | Ok d =>
        let this := set_states this (Some base) (Some d) extra [] (nextObject this + 6)%positive in
        let this := set_loaded this in
        let this := _scheduleUpdate this in
        (call_onLoaded this, Ok tt)
    end.

Definition _update (this : Store T) (baseUpdate : option BaseUpdate) (extraUpdate : option U)
    : Store T * result (ListenerParams T * list Z) :=
  match _baseState this, _derivedState this with
  | Some base, Some derived =>
      let old := state this in
      let base' := match baseUpdate with Some u => _reduce base u | None => base end in
      let log := match baseUpdate with
                 | Some u => reduce_log toLocaleString (logging this) base u
                 | None => []
                 end in
      let this := set_states this (Some base') (Some derived) (_extraState this) log (nextObject this) in
      match _derive (nextObject this) base' with
      | Throw e => (this, Throw e)
      | Ok d =>
          let derived' := _reduceDerived derived d in
          let log := reduceDerived_log toLocaleString (logging this) derived d in
          let this := set_states this (Some base') (Some derived') (_extraState this) log
                        (nextObject this + 6)%positive in
          match (match extraUpdate with
                 | None => Ok (_extraState this)
                 | Some u => match _extraState this with
                             | Some e => Ok (Some (_reduceExtra e u))
                             | None => Throw AssertionError
                             end
                 end) with
          | Throw e => (this, Throw e)
          | Ok extra =>
              let this := set_states this (Some base') (Some derived') extra [] (nextObject this) in
              let this := _scheduleUpdate this in
              let params := mkParams (state this) old (difference (state this) old) in
              let '(called, remaining) := _notify (_listeners this) in
              (set_listeners this remaining (nextListener this), Ok (params, called))
          end
      end
  | _, _ => (this, Throw AssertionError)
  end.

(** The callback of [setTimeout] in [_scheduleUpdate]. *)
Definition fire (this : Store T) (id : Z) : Store T * result (ListenerParams T * list Z) :=
  let this := set_timers this None (filter (fun t => t <> id) (timers this)) (nextTimer this) in
  _update this None None.

End LiquityStore.
End LiquityStore.
