(* ===== verification/StoreFacts.v ===== *)
(** * Properties of [LiquityStore]

    The comparisons decide equality of values; updates overlay the base state
    and keep the derived state equal to what [_derive] computes; listeners are
    told exactly what changed; at most one update is ever scheduled. *)

From S2P Require Import Prelude JsString LibDecimal LibTrove TroveFacts LibFees LibDeposit LibStore.
Import Key LiquityStore.
Local Open Scope Z_scope.

(** ** The comparisons decide equality *)

Lemma decimal_eq_iff (a b : Decimal) : evaluated false (Decimal.eq a b) = true <-> a = b.
Proof.
  rewrite DecimalFacts.eq_decimal. cbn. rewrite Z.eqb_eq.
  split; [apply bn_inj | by intros ->].
Qed.

Lemma and_then_bools (a b : bool) : Trove.and_then (Ok a) (Ok b) = Ok (a && b).
Proof. by destruct a. Qed.

Ltac decide_equals :=
  rewrite ?DecimalFacts.eq_decimal, ?equals_decimal, ?and_then_bools; cbn [evaluated];
  rewrite ?andb_true_iff, ?Z.eqb_eq, ?bool_decide_eq_true, ?Bool.eqb_true_iff;
  split; [intros; destruct_and?; subst; f_equal; try apply bn_inj; done
         | intros E; inversion E; subst; repeat split].

Lemma user_equals_Ok a b : UserTrove.user_equals a b = Ok (bool_decide (a = b)).
Proof.
  unfold UserTrove.user_equals. rewrite equals_decimal, and_then_bools. f_equal.
  apply eq_bool_prop_intro. destruct a, b. rewrite !Is_true_true. cbn. decide_equals.
Qed.

Lemma pending_equals_Ok a b : UserTrove.pending_equals a b = Ok (bool_decide (a = b)).
Proof.
  unfold UserTrove.pending_equals.
  rewrite user_equals_Ok, DecimalFacts.eq_decimal, equals_decimal, !and_then_bools. f_equal.
  apply eq_bool_prop_intro. destruct a, b. rewrite !Is_true_true. cbn. decide_equals.
Qed.

Lemma deposit_equals_Ok a b : StabilityDeposit.deposit_equals a b = Ok (bool_decide (a = b)).
Proof.
  unfold StabilityDeposit.deposit_equals. rewrite !DecimalFacts.eq_decimal, !and_then_bools. f_equal.
  apply eq_bool_prop_intro. destruct a, b. rewrite !Is_true_true. cbn. decide_equals.
Qed.

Lemma stake_equals_Ok a b : ZEROStake.stake_equals a b = Ok (bool_decide (a = b)).
Proof.
  unfold ZEROStake.stake_equals. rewrite !DecimalFacts.eq_decimal, !and_then_bools. f_equal.
  apply eq_bool_prop_intro. destruct a, b. rewrite !Is_true_true. cbn. decide_equals.
Qed.

Lemma fees_equals_Ok a b : Fees.equals a b = Ok (bool_decide (a = b)).
Proof.
  unfold Fees.equals. rewrite !DecimalFacts.eq_decimal, !and_then_bools. f_equal.
  apply eq_bool_prop_intro. destruct a, b. rewrite !Is_true_true. cbn. decide_equals.
Qed.

Lemma frontendStatusEquals_iff a b : frontendStatusEquals a b = true <-> a = b.
Proof.
  destruct a as [|ka], b as [|kb]; cbn [frontendStatusEquals]; try (split; done).
  rewrite decimal_eq_iff. split; [by intros -> | by intros [= ->]].
Qed.

Lemma base_equals_iff k (a b : baseType k) : base_equals k a b = true <-> a = b.
Proof.
  destruct k; cbn in a, b; cbn [base_equals];
    first [ apply frontendStatusEquals_iff | apply decimal_eq_iff | apply Z.eqb_eq
          | rewrite ?equals_decimal, ?pending_equals_Ok, ?deposit_equals_Ok, ?stake_equals_Ok,
              ?fees_equals_Ok; cbn [evaluated]; apply bool_decide_eq_true ].
Qed.

Lemma derived_equals_iff k (a b : derivedType k) : derived_equals k a b = true <-> a = b.
Proof.
  destruct k; cbn in a, b; cbn [derived_equals];
    first [ apply decimal_eq_iff | apply Bool.eqb_true_iff
          | rewrite ?user_equals_Ok, ?fees_equals_Ok; cbn [evaluated];
            rewrite bool_decide_eq_true; split; done ].
Qed.

(** ** Updates *)

(** The value a key has after an optional update. *)
Definition overlay (b : BaseState) (u : option BaseUpdate) (k : baseKey) : baseType k :=
  match u with
  | Some u => match u k with Some o => val o | None => val (b k) end
  | None => val (b k)
  end.

Definition values (b : BaseState) : forall k, baseType k := fun k => val (b k).

(** Objects are immutable: one identity, one value. *)
Definition coherent (b : BaseState) (u : option BaseUpdate) : Prop :=
  forall u' k o, u = Some u' -> u' k = Some o -> ident o = ident (b k) -> val o = val (b k).

Definition fees_ok (f : Fees) : Prop := decaying f /\ in_range f None.

Definition update_ok (u : option BaseUpdate) : Prop :=
  forall u' o, u = Some u' -> u' _feesInNormalMode = Some o -> fees_ok (val o).

(** The base state [_update] computes. *)
Definition updated (b : BaseState) (u : option BaseUpdate) : BaseState :=
  match u with Some u => _reduce b u | None => b end.

Lemma updateIfChanged_val {A} (equals : A -> A -> bool) (prev : obj A) next :
  (forall a b, equals a b = true <-> a = b) ->
  val (_updateIfChanged equals prev next) = match next with Some n => val n | None => val prev end.
Proof.
  intros Heq. destruct next as [n|]; [|done]. cbn [_updateIfChanged].
  destruct (equals (val prev) (val n)) eqn:E; [|done]. by apply Heq.
Qed.

Lemma updated_val (b : BaseState) u k : val (updated b u k) = overlay b u k.
Proof.
  destruct u as [u|]; [|done]. unfold updated, _reduce, overlay.
  apply updateIfChanged_val, base_equals_iff.
Qed.

Lemma updated_fees_ok (b : BaseState) u :
  fees_ok (val (b _feesInNormalMode)) -> update_ok u -> fees_ok (val (updated b u _feesInNormalMode)).
Proof.
  intros Hb Hu. rewrite updated_val. unfold overlay. destruct u as [u|]; [|done].
  destruct (u _feesInNormalMode) as [o|] eqn:E; [|done]. by eapply Hu.
Qed.

Lemma derive_values_total (s : forall k, baseType k) :
  fees_ok (s _feesInNormalMode) -> exists d, derive_values s = Ok d.
Proof.
  intros [Hd Hr]. unfold derive_values.
  destruct (below_critical_total (s total) (s price)) as [recovery ->]. rewrite bind_Ok.
  unfold Fees._setRecoveryMode. rewrite new_Fees_decimal, (proj2 (Z.ltb_lt _ _)), bind_Ok by done.
  destruct (applyRedistribution_total (s troveBeforeRedistribution) (s totalRedistributed)) as [t ->].
  rewrite bind_Ok. set (f := mkFees _ _ _ _ _ _).
  destruct (borrowingRate_total f None) as [br ->]; [exact Hd | exact Hr |]. rewrite bind_Ok.
  destruct (redemptionRate_value f None None) as [rr Hrr]; [exact Hd | exact Hr |].
  cbn [fmap option_fmap option_map] in Hrr. rewrite Hrr, bind_Ok.
  destruct (applyRedistribution_total (s _riskiestTroveBeforeRedistribution) (s totalRedistributed))
    as [r ->]. rewrite bind_Ok.
  destruct (below_minimum_total (user_trove r) (s price)) as [under ->]. by eexists.
Qed.

(** Reduce the setters and the fields of a store. *)
Ltac store_simpl :=
  cbn [set_states set_timers set_listeners set_loaded logging onLoaded _loaded _baseState
       _derivedState _extraState _updateTimeoutId _listeners console timers onLoadedCalls
       nextObject nextTimer nextListener].

(** ** Listeners *)

Section Listeners.
Variable callback : Z -> list Z -> list Z.

Lemma notify_fold_called listeners called current :
  exists called', fst (fold_left (notify_step callback) listeners (called, current)) = called ++ called' /\
    called' `sublist_of` listeners.
Proof.
  revert called current. induction listeners as [|l ls IH]; intros called current.
  - exists []. by rewrite app_nil_r.
  - cbn [fold_left notify_step]. case_bool_decide.
    + destruct (IH (called ++ [l]) (callback l current)) as (c & -> & Hc).
      exists (l :: c). rewrite <- app_assoc. split; [done|]. by apply sublist_skip.
    + destruct (IH called current) as (c & -> & Hc). exists c. split; [done|]. by apply sublist_cons.
Qed.

Lemma notify_fold_kept listeners called current l :
  (forall l' ls, l ∈ ls -> l ∈ callback l' ls) -> l ∈ listeners -> l ∈ current ->
  l ∈ fst (fold_left (notify_step callback) listeners (called, current)).
Proof.
  intros Hkeep. revert called current. induction listeners as [|x ls IH]; intros called current Hl Hc;
    [by apply elem_of_nil in Hl|].
  cbn [fold_left notify_step]. apply elem_of_cons in Hl as [->|Hl].
  - rewrite bool_decide_true by done.
    destruct (notify_fold_called ls (called ++ [x]) (callback x current)) as (c & -> & _).
    set_solver.
  - case_bool_decide; apply IH; auto.
Qed.

(** A notification calls each listener at most once and only listeners that
    were subscribed when it started, in subscription order; a listener that no
    callback unsubscribes is called. *)
Theorem notify_calls (listeners : list Z) :
  NoDup listeners ->
  fst (_notify callback listeners) `sublist_of` listeners /\
  NoDup (fst (_notify callback listeners)) /\
  (forall l, l ∈ listeners -> (forall l' ls, l ∈ ls -> l ∈ callback l' ls) ->
    l ∈ fst (_notify callback listeners)).
Proof.
  intros Hnd. unfold _notify.
  destruct (notify_fold_called listeners [] listeners) as (c & Hc & Hs). rewrite app_nil_l in Hc.
  split; [by rewrite Hc|]. split; [rewrite Hc; by eapply sublist_NoDup|].
  intros l Hl Hkeep. by apply notify_fold_kept.
Qed.

End Listeners.

(** ** The store *)

Section Store.
Context {T U : Type} `{ExtraState T U}.
Variable toLocaleString : Date -> string.
Variable callback : Z -> list Z -> list Z.

(** A loaded store: the derived values are those of the base values, and the
    derived objects are older than any object still to be made. *)
Definition holds (st : Store T) (b : BaseState) (d : DerivedState) : Prop :=
  _baseState st = Some b /\ _derivedState st = Some d /\
  fees_ok (val (b _feesInNormalMode)) /\
  (exists dv, derive_values (values b) = Ok dv /\ forall k, val (d k) = dv k) /\
  (forall k, (ident (d k) < nextObject st)%positive).

Definition consistent (st : Store T) : Prop := exists b d, holds st b d.

Lemma derive_total next (b : BaseState) :
  fees_ok (val (b _feesInNormalMode)) ->
  exists dv, derive_values (values b) = Ok dv /\
    _derive next b = Ok (fun k => mkObj (next + derived_index k)%positive (dv k)).
Proof.
  intros Hf. destruct (derive_values_total (values b) Hf) as [dv Hdv].
  exists dv. split; [done|]. unfold _derive. change (fun k => val (b k)) with (values b).
  by rewrite Hdv, bind_Ok.
Qed.

Lemma derived_index_bound k : (derived_index k < 6)%positive.
Proof. by destruct k. Qed.

Lemma reduceDerived_val (d d' : DerivedState) k : val (_reduceDerived d d' k) = val (d' k).
Proof. unfold _reduceDerived. rewrite updateIfChanged_val by apply derived_equals_iff. done. Qed.

Lemma reduceDerived_ident (d d' : DerivedState) k :
  ident (_reduceDerived d d' k) = ident (d k) \/ ident (_reduceDerived d d' k) = ident (d' k).
Proof.
  unfold _reduceDerived, _updateIfChanged. destruct (negb _); auto.
Qed.

(** An update is accepted when it brings no extra state the store does not have. *)
Definition extra_ok (st : Store T) (e : option U) : Prop := e = None \/ is_Some (_extraState st).

(** The extra state after an accepted update. *)
Definition extra_after (st : Store T) (e : option U) : option T :=
  match e with
  | None => _extraState st
  | Some u => (fun x => _reduceExtra x u) <$> _extraState st
  end.

Lemma extra_Ok st e :
  extra_ok st e ->
    match e with
    | None => Ok (_extraState st)
    | Some u => match _extraState st with
                | Some e => Ok (Some (_reduceExtra e u))
                | None => Throw AssertionError
                end
    end = Ok (extra_after st e).
Proof. intros [->|[x Hx]]; [done|]. destruct e; [|done]. cbn. by rewrite Hx. Qed.

(** The timers left after [_cancelUpdateIfScheduled]. *)
Definition uncancelled (st : Store T) : list Z :=
  match _updateTimeoutId st with
  | Some id => filter (fun t => t <> id) (timers st)
  | None => timers st
  end.

(** What a successful [_update] computes. *)
Lemma update_eq st b d u e :
  holds st b d -> update_ok u -> extra_ok st e ->
  exists dv st' called,
    derive_values (values (updated b u)) = Ok dv /\
    let d' := _reduceDerived d (fun k => mkObj (nextObject st + derived_index k)%positive (dv k)) in
    _update toLocaleString callback st u e =
      (st', Ok (mkParams (state st') (state st) (difference (state st') (state st)), called)) /\
    holds st' (updated b u) d' /\
    called = fst (_notify callback (_listeners st)) /\
    _listeners st' = snd (_notify callback (_listeners st)) /\ _loaded st' = _loaded st /\
    timers st' = uncancelled st ++ [nextTimer st] /\ _updateTimeoutId st' = Some (nextTimer st) /\
    onLoaded st' = onLoaded st /\ onLoadedCalls st' = onLoadedCalls st /\
    _extraState st' = extra_after st e.
Proof.
  intros (Hb & Hd & Hf & _ & Hid) Hu He. unfold _update. rewrite Hb, Hd. cbn zeta.
  pose proof (updated_fees_ok b u Hf Hu) as Hf'.
  destruct (derive_total (nextObject st) (updated b u) Hf') as (dv & Hdv & Hder).
  pose proof (extra_Ok st e He) as Hx. fold (updated b u).
  store_simpl. rewrite Hder. store_simpl. rewrite Hx.
  set (d' := _reduceDerived d _).
  unfold _scheduleUpdate, _cancelUpdateIfScheduled, uncancelled. store_simpl.
  destruct (_notify callback (_listeners st)) as [called remaining] eqn:Hn.
  assert (Hids : forall k, (ident (d' k) < nextObject st + 6)%positive).
  { intros k. pose proof (derived_index_bound k). specialize (Hid k).
    destruct (reduceDerived_ident d (fun k => mkObj (nextObject st + derived_index k)%positive (dv k)) k)
      as [E|E]; unfold d'; rewrite E; cbn [ident]; lia. }
  assert (Hvals : forall k, val (d' k) = dv k) by (intros k; apply reduceDerived_val).
  destruct (_updateTimeoutId st); store_simpl; rewrite Hn;
    match goal with |- context [(?s, Ok (_, called))] => exists dv, s, called end;
    (split; [done|]); (split; [reflexivity|]); (split; [|done]);
    (split; [done|]); (split; [done|]); (split; [done|]); (split; [|done]); eauto.
Qed.

(** ** What listeners are told *)

Lemma base_same_refl k (o : obj (baseType k)) : base_same k o o = true.
Proof. destruct k; cbn [base_same]; first [apply Z.eqb_refl | apply Pos.eqb_refl]. Qed.

Lemma derived_same_refl k (o : obj (derivedType k)) : derived_same k o o = true.
Proof. destruct k; cbn [derived_same]; first [apply eqb_reflx | apply Pos.eqb_refl]. Qed.

Lemma base_same_false k (o o' : obj (baseType k)) :
  val o <> val o' -> (ident o = ident o' -> val o = val o') -> base_same k o o' = false.
Proof.
  intros Hv Hi. destruct k; cbn [base_same]; first [by apply Z.eqb_neq | apply Pos.eqb_neq; auto].
Qed.

Lemma derived_same_false k (o o' : obj (derivedType k)) :
  val o <> val o' -> ident o <> ident o' -> derived_same k o o' = false.
Proof.
  intros Hv Hi. destruct k; cbn [derived_same];
    first [by apply Pos.eqb_neq | by apply eqb_false_iff].
Qed.

Lemma base_equals_refl k (v : baseType k) : base_equals k v v = true.
Proof. by apply base_equals_iff. Qed.

Lemma updated_same b u k :
  coherent b u ->
  base_same k (updated b u k) (b k) = base_equals k (val (b k)) (overlay b u k).
Proof.
  intros Hc. destruct u as [u|]; cbn [updated overlay];
    [|by rewrite base_same_refl, base_equals_refl].
  unfold _reduce, _updateIfChanged. destruct (u k) as [o|] eqn:E;
    [|by rewrite base_same_refl, base_equals_refl].
  destruct (base_equals k (val (b k)) (val o)) eqn:Eq; cbn [negb]; [apply base_same_refl|].
  apply base_same_false; [|by eapply Hc].
  intros Hv. rewrite Hv, base_equals_refl in Eq. discriminate.
Qed.

Lemma derived_updated_same (d d' : DerivedState) k :
  ident (d' k) <> ident (d k) ->
  derived_same k (_reduceDerived d d' k) (d k) = derived_equals k (val (d k)) (val (d' k)).
Proof.
  intros Hi. unfold _reduceDerived, _updateIfChanged.
  destruct (derived_equals k (val (d k)) (val (d' k))) eqn:Eq; cbn [negb]; [apply derived_same_refl|].
  apply derived_same_false; [|done]. intros Hv. symmetry in Hv.
  apply derived_equals_iff in Hv. congruence.
Qed.

(** What listeners are told to have changed: the names of the variables with another value. *)
Lemma stateChange_eq (st : Store T) b d u dv st' :
  holds st b d -> coherent b u ->
  holds st' (updated b u) (_reduceDerived d (fun k => mkObj (nextObject st + derived_index k)%positive (dv k))) ->
  difference (state st') (state st) =
    map base_name (filter (fun k => base_equals k (val (b k)) (overlay b u k) = false) baseKeys) ++
    map derived_name (filter (fun k => derived_equals k (val (d k)) (dv k) = false) derivedKeys) ++
    match _extraState st', _extraState st with Some x, Some y => extra_difference x y | _, _ => [] end.
Proof.
  intros (Hb & Hd & _ & _ & Hid) Hc (Hb' & Hd' & _). unfold difference, state. cbn [st_base st_derived st_extra].
  rewrite Hb', Hb, Hd', Hd.
  apply (f_equal2 app); [|apply (f_equal2 app); [|reflexivity]]; apply (f_equal (map _)).
  - apply list_filter_iff. intros k. by rewrite updated_same.
  - apply list_filter_iff. intros k. rewrite derived_updated_same; [done|].
    cbn [ident]. specialize (Hid k). lia.
Qed.

(** C12: An update of a loaded store succeeds when the fees it brings, if any, have a
    decay factor below one and times in range, and it brings extra state only to a store
    that has some. It overlays the base values with those of the update, makes the
    derived values those that [_derive] computes from the new base values, reduces the
    extra state, and schedules exactly one next update in place of the one that was
    scheduled. The listeners are called in the order in which they subscribed, at least
    all those that no listener unsubscribes; they get the states before and after and
    the names of exactly the variables whose values changed (one object never having two
    values). *)
Theorem update_refines (st : Store T) b d u e :
  holds st b d -> update_ok u -> extra_ok st e -> coherent b u ->
  exists st' params called b' d' dv,
    _update toLocaleString callback st u e = (st', Ok (params, called)) /\
    _baseState st' = Some b' /\ _derivedState st' = Some d' /\ _extraState st' = extra_after st e /\
    (forall k, val (b' k) = overlay b u k) /\
    derive_values (values b') = Ok dv /\ (forall k, val (d' k) = dv k) /\
    newState params = state st' /\ oldState params = state st /\
    stateChange params =
      map base_name (filter (fun k => base_equals k (val (b k)) (overlay b u k) = false) baseKeys) ++
      map derived_name (filter (fun k => derived_equals k (val (d k)) (dv k) = false) derivedKeys) ++
      match _extraState st', _extraState st with Some x, Some y => extra_difference x y | _, _ => [] end /\
    called `sublist_of` _listeners st /\
    (forall l, l ∈ _listeners st -> (forall l' ls, l ∈ ls -> l ∈ callback l' ls) -> l ∈ called) /\
    timers st' = uncancelled st ++ [nextTimer st] /\ _updateTimeoutId st' = Some (nextTimer st).
Proof.
  intros Hh Hu He Hc. destruct (update_eq st b d u e Hh Hu He)
    as (dv & st' & called & Hdv & -> & Hh' & Ec & _ & _ & Et & Ei & _ & _ & Ex). pose proof Hh' as (Hb' & Hd' & _).
  do 6 eexists. split; [done|]. split; [done|]. split; [done|]. split; [done|].
  split; [intros k; apply updated_val|]. split; [exact Hdv|].
  split; [intros k; apply reduceDerived_val|]. do 2 (split; [done|]). split; [by apply (stateChange_eq st b d u)|].
  destruct (notify_fold_called callback (_listeners st) [] (_listeners st)) as (c & Hn & Hs). rewrite Ec. unfold _notify. split.
  - by rewrite Hn.
  - split; [|done]. intros l Hl Hk. by apply notify_fold_kept.
Qed.

(** ** Invariant *)

(** At most one update is scheduled, and it is the one that can be cancelled. *)
Definition timers_ok (st : Store T) : Prop :=
  timers st = [] \/ exists id, timers st = [id] /\ _updateTimeoutId st = Some id.

Lemma uncancelled_nil st : timers_ok st -> uncancelled st = [].
Proof.
  unfold uncancelled. intros [Ht|(id & Ht & Hid)]; rewrite ?Hid, Ht.
  - by destruct (_updateTimeoutId st).
  - rewrite filter_cons_False, filter_nil; [done|]. intros Hne. by apply Hne.
Qed.

Inductive store_step (st : Store T) : Store T -> Prop :=
| step_load (b : BaseState) e : fees_ok (val (b _feesInNormalMode)) -> store_step st (fst (_load st b e))
| step_update u e :
    update_ok u -> extra_ok st e -> store_step st (fst (_update toLocaleString callback st u e))
| step_fire id : id ∈ timers st -> store_step st (fst (fire toLocaleString callback st id))
| step_stop : store_step st (_cancelUpdateIfScheduled st)
| step_subscribe : store_step st (fst (subscribe st))
| step_unsubscribe l : store_step st (unsubscribe st l).

Inductive reachable : Store T -> Prop :=
| reachable_new log loadedCallback : reachable (new_Store log loadedCallback)
| reachable_step st st' : reachable st -> store_step st st' -> reachable st'.

Definition store_inv (st : Store T) : Prop :=
  timers_ok st /\
  (if _loaded st
   then consistent st /\ onLoadedCalls st = (if onLoaded st then 1 else 0)%nat
   else _baseState st = None /\ timers st = [] /\ onLoadedCalls st = 0%nat).

Lemma update_inv st u e :
  update_ok u -> extra_ok st e -> store_inv st ->
  store_inv (fst (_update toLocaleString callback st u e)).
Proof.
  intros Hu He [Ht Hl]. destruct (_loaded st) eqn:El.
  - destruct Hl as [(b & d & Hh) Hc].
    destruct (update_eq st b d u e Hh Hu He)
      as (dv & st' & called & _ & -> & Hh' & _ & _ & El' & Ht' & Hid & Ho & Hc' & _).
    cbn [fst]. rewrite uncancelled_nil in Ht' by done. split; [right; eauto|].
    rewrite El', El, Ho, Hc'. split; [by do 2 eexists | done].
  - destruct Hl as (Hb & Ht' & Hc). unfold _update. rewrite Hb. cbn [fst].
    split; [done|]. by rewrite El.
Qed.

(** What a first [_load] computes. *)
Lemma load_eq st (b : BaseState) e :
  fees_ok (val (b _feesInNormalMode)) -> _loaded st = false ->
  exists st' d, _load st b e = (st', Ok tt) /\ holds st' b d /\ _loaded st' = true /\
    _extraState st' = e /\
    timers st' = uncancelled st ++ [nextTimer st] /\ _updateTimeoutId st' = Some (nextTimer st) /\
    onLoaded st' = onLoaded st /\
    onLoadedCalls st' = ((if onLoaded st then 1 else 0) + onLoadedCalls st)%nat.
Proof.
  intros Hf El. unfold _load. rewrite El. store_simpl.
  destruct (derive_total (nextObject st) b Hf) as (dv & Hdv & ->).
  set (d := fun k => mkObj (nextObject st + derived_index k)%positive (dv k)).
  assert (Hholds : forall st', _baseState st' = Some b -> _derivedState st' = Some d ->
    nextObject st' = (nextObject st + 6)%positive -> holds st' b d).
  { intros st' E1 E2 E3. split; [done|]. split; [done|]. split; [done|].
    split; [by eexists|]. intros k. rewrite E3. unfold d. cbn [ident]. pose proof (derived_index_bound k). lia. }
  unfold _scheduleUpdate, _cancelUpdateIfScheduled, call_onLoaded, uncancelled. store_simpl.
  destruct (_updateTimeoutId st); store_simpl; destruct (onLoaded st) eqn:Eo;
    match goal with |- context [(?s, Ok tt)] => exists s, d end;
    (split; [done|]); (split; [by apply Hholds|]); done.
Qed.

Lemma load_inv st (b : BaseState) e :
  fees_ok (val (b _feesInNormalMode)) -> store_inv st -> store_inv (fst (_load st b e)).
Proof.
  intros Hf [Ht Hl]. destruct (_loaded st) eqn:El.
  { unfold _load. rewrite El. cbn [fst]. split; [done|]. by rewrite El. }
  destruct (load_eq st b e Hf El) as (st' & d & -> & Hh & El' & _ & Ht' & Hid & Ho & Hc).
  cbn [fst]. rewrite uncancelled_nil in Ht' by done. split; [right; eauto|].
  rewrite El', Ho, Hc. destruct Hl as (_ & _ & ->). split; [by do 2 eexists | by destruct (onLoaded st)].
Qed.

Lemma cancel_inv st : store_inv st -> store_inv (_cancelUpdateIfScheduled st).
Proof.
  intros [Ht Hl]. pose proof (uncancelled_nil st Ht) as Hun. unfold uncancelled in Hun.
  unfold _cancelUpdateIfScheduled. destruct (_updateTimeoutId st) as [id|] eqn:E; [|done].
  rewrite Hun. split; [by left|]. store_simpl. destruct (_loaded st); [|by destruct Hl as (? & ? & ?)].
  destruct Hl as [(b & d & Hh) Hc]. split; [|done]. by exists b, d.
Qed.

Lemma fire_inv st id :
  id ∈ timers st -> store_inv st -> store_inv (fst (fire toLocaleString callback st id)).
Proof.
  intros Hid [Ht Hl]. destruct Ht as [Ht|(id' & Ht & Hi)]; rewrite Ht in Hid.
  { by apply elem_of_nil in Hid. }
  apply list_elem_of_singleton in Hid as ->. unfold fire.
  apply update_inv; [by intros ? ? [=] | by left |].
  rewrite Ht, filter_cons_False, filter_nil by (intros Hne; by apply Hne).
  split; [by left|]. store_simpl. destruct (_loaded st); [|by destruct Hl as (? & ? & ?)].
  destruct Hl as [(b & d & Hh) Hc]. split; [|done]. by exists b, d.
Qed.

(** In every reachable store at most one periodic update is scheduled, and it
    is the one the stop function cancels; once the store is loaded its derived
    state is always the one derived from its base state, and [onLoaded] has been
    called exactly once. *)
Theorem store_invariant (st : Store T) :
  reachable st ->
  (timers st = [] \/ exists id, timers st = [id] /\ _updateTimeoutId st = Some id) /\
  timers (_cancelUpdateIfScheduled st) = [] /\
  (_loaded st = true -> consistent st /\ onLoadedCalls st = (if onLoaded st then 1 else 0)%nat).
Proof.
  intros Hr. assert (Hinv : store_inv st).
  { induction Hr as [log cb|st st' _ IH Hs]; [by split; [left|]|].
    destruct Hs; auto using load_inv, update_inv, fire_inv, cancel_inv. }
  pose proof (uncancelled_nil st (proj1 Hinv)) as Hun. split; [apply Hinv|]. split.
  - unfold uncancelled in Hun. unfold _cancelUpdateIfScheduled. by destruct (_updateTimeoutId st).
  - intros El. destruct Hinv as [_ Hl]. by rewrite El in Hl.
Qed.
End Store.

(** ** A concrete store *)

Definition no_extra : ExtraState unit unit := {| _reduceExtra _ _ := tt; extra_difference _ _ := [] |}.

Definition sample_fees : Fees :=
  mkFees (dec 30000000000000000) (dec 999037758833783000) (dec 2000000000000000000)
    1600000000000 1600000600000 false.

Definition sample_trove : TroveWithPendingRedistribution :=
  mkPending (mkUserTrove (mkTrove (dec 5) (dec 200)) "0x01" open) (dec 5) _emptyTrove.

Definition sample_value (k : baseKey) : baseType k :=
  match k with
  | frontend | ownFrontend => unregistered
  | numberOfTroves => 1
  | total | totalRedistributed => mkTrove (dec 5) (dec 200)
  | troveBeforeRedistribution | _riskiestTroveBeforeRedistribution => sample_trove
  | stabilityDeposit => mkDeposit Decimal.ZERO Decimal.ZERO Decimal.ZERO Decimal.ZERO "0x00"
  | _feesInNormalMode => sample_fees
  | zeroStake => mkStake Decimal.ZERO Decimal.ZERO Decimal.ZERO
  | accountBalance | zusdBalance | nueBalance | zeroBalance | collateralSurplusBalance
  | zusdInStabilityPool | remainingStabilityPoolZEROReward | totalStakedZERO => Decimal.ZERO
  | price => dec (100 * DIGITS)
  end.

Definition sample_base : BaseState := fun k => mkObj 1 (sample_value k).

Definition sample_update : BaseUpdate := fun k =>
  match k as k return option (obj (baseType k)) with
  | price => Some (mkObj 2 (dec (99 * DIGITS)))
  | numberOfTroves => Some (mkObj 2 1)
  | _ => None
  end.

Definition sample_derived : DerivedState := fun k =>
  mkObj (1 + derived_index k)%positive
    (evaluated (fun k => match k as k return derivedType k with
                         | trove => mkUserTrove _emptyTrove EmptyString nonExistent
                         | fees => sample_fees
                         | borrowingRate | redemptionRate => Decimal.ZERO
                         | haveUndercollateralizedTroves => false
                         end) (derive_values sample_value) k).

Definition sample_store : Store unit :=
  fst (_load (new_Store false true) sample_base (Some tt)).

Lemma sample_derive : is_ok (derive_values sample_value) = true.
Proof. vm_compute. reflexivity. Qed.

Lemma sample_fees_ok : fees_ok sample_fees.
Proof. split; vm_compute; [reflexivity | discriminate]. Qed.

Lemma sample_holds : holds sample_store sample_base sample_derived.
Proof.
  pose proof sample_derive as H. unfold sample_store, _load, _derive, sample_derived. store_simpl.
  change (fun k => val (sample_base k)) with sample_value.
  destruct (derive_values sample_value) as [dv|] eqn:E; [|discriminate]. cbn [bind evaluated fst new_Store].
  unfold holds. split; [reflexivity|]. split; [reflexivity|]. split; [apply sample_fees_ok|].
  split; [|by intros []]. exists dv. split; [exact E | reflexivity].
Qed.

Lemma sample_extra : _extraState sample_store = Some tt.
Proof. vm_compute. reflexivity. Qed.

Lemma sample_update_ok : update_ok (Some sample_update).
Proof. intros u o [= <-]. discriminate. Qed.

Lemma sample_coherent : coherent sample_base (Some sample_update).
Proof. intros u k o [= <-]. destruct k; try discriminate; intros [= <-] [=]. Qed.

Lemma update_refines_witness :
  exists st' params called,
    @_update unit unit no_extra (fun _ => EmptyString) (fun _ ls => ls) sample_store (Some sample_update) (Some tt)
      = (st', Ok (params, called)) /\
    newState params = state st' /\ called `sublist_of` _listeners sample_store.
Proof.
  destruct (@update_refines unit unit no_extra (fun _ => EmptyString) (fun _ ls => ls) sample_store
    sample_base sample_derived (Some sample_update) (Some tt) sample_holds sample_update_ok
    (or_intror (ex_intro _ tt sample_extra)) sample_coherent) as (st' & params & called & b' & d' & dv & H & _ & _ & _ & _ & _ & _ & N & _ & _ & S & _).
  exists st', params, called. split; [exact H|]. split; [exact N|exact S].
Defined.

(** A callback that removes the second listener whenever it runs. *)
Definition drop_second (_ : Z) (ls : list Z) : list Z := filter (fun l => l <> 2) ls.

Lemma notify_calls_witness :
  fst (_notify drop_second [1; 2; 3]) `sublist_of` [1; 2; 3] /\
  NoDup (fst (_notify drop_second [1; 2; 3])) /\
  (forall l, l ∈ [1; 2; 3] -> (forall l' ls, l ∈ ls -> l ∈ drop_second l' ls) ->
    l ∈ fst (_notify drop_second [1; 2; 3])).
Proof. apply (notify_calls drop_second [1; 2; 3]). apply (bool_decide_unpack _). exact I. Defined.

Lemma store_invariant_witness :
  (timers sample_store = [] \/
    exists id, timers sample_store = [id] /\ _updateTimeoutId sample_store = Some id) /\
  timers (_cancelUpdateIfScheduled sample_store) = [] /\
  (_loaded sample_store = true ->
    consistent sample_store /\ onLoadedCalls sample_store = (if onLoaded sample_store then 1 else 0)%nat).
Proof.
  apply (@store_invariant unit unit no_extra (fun _ => EmptyString) (fun _ ls => ls) sample_store).
  eapply reachable_step; [apply (reachable_new _ _ false true)|].
  apply step_load. apply sample_fees_ok.
Defined.
