(* ===== verification/LibReadable.v ===== *)
(** * [ReadableLiquity] and its cached variant
    (lib-base/src/ReadableLiquity.ts, lib-base/src/_CachedReadableLiquity.ts)

    The interface is a record of operations over the type [E] of extra
    parameters; a cache has the same operations with optional answers. *)

From S2P Require Import Prelude LibDecimal LibTrove LibFees LibDeposit LibStore.
Local Open Scope Z_scope.

(** A JavaScript number used as a count: an integer or not. *)
Inductive count : Type := Int (n : Z) | NotInteger.

(** [sortedBy] is checked at run time, so it is any string. *)
Record TroveListingParams : Type := mkListing {
  first : count;
  sortedBy : string;
  startingAt : option count;
  beforeRedistribution : bool }.

(** An element of what [getTroves] returns: with or without the pending part. *)
Inductive listed : Type :=
| Pending (t : TroveWithPendingRedistribution)
| Applied (t : UserTrove).

(** [trove.applyRedistribution(totalRedistributed)]; a plain [UserTrove] has no
    such method. *)
Definition apply_listed (totalRedistributed : Trove) (t : listed) : result listed :=
  match t with
  | Pending t => let! u := UserTrove.applyRedistribution t totalRedistributed in Ok (Applied u)
  | Applied _ => Throw TypeError
  end.

Record ReadableLiquity (E : Type) : Type := mkReadable {
  getTotalRedistributed : E -> result Trove;
  getTroveBeforeRedistribution : option string -> E -> result TroveWithPendingRedistribution;
  getTrove : option string -> E -> result UserTrove;
  getNumberOfTroves : E -> result Z;
  getPrice : E -> result Decimal;
  getTotal : E -> result Trove;
  getStabilityDeposit : option string -> E -> result StabilityDeposit;
  getRemainingStabilityPoolZEROReward : E -> result Decimal;
  getZUSDInStabilityPool : E -> result Decimal;
  getZUSDBalance : option string -> E -> result Decimal;
  getZEROBalance : option string -> E -> result Decimal;
  getCollateralSurplusBalance : option string -> E -> result Decimal;
  getTroves : TroveListingParams -> E -> result (list listed);
  getFees : E -> result Fees;
  getZEROStake : option string -> E -> result ZEROStake;
  getTotalStakedZERO : E -> result Decimal;
  getFrontendStatus : option string -> E -> result FrontendStatus }.
Arguments getTotalRedistributed {E} _.
Arguments getTroveBeforeRedistribution {E} _.
Arguments getTrove {E} _.
Arguments getNumberOfTroves {E} _.
Arguments getPrice {E} _.
Arguments getTotal {E} _.
Arguments getStabilityDeposit {E} _.
Arguments getRemainingStabilityPoolZEROReward {E} _.
Arguments getZUSDInStabilityPool {E} _.
Arguments getZUSDBalance {E} _.
Arguments getZEROBalance {E} _.
Arguments getCollateralSurplusBalance {E} _.
Arguments getTroves {E} _.
Arguments getFees {E} _.
Arguments getZEROStake {E} _.
Arguments getTotalStakedZERO {E} _.
Arguments getFrontendStatus {E} _.

Record _LiquityReadCache (E : Type) : Type := mkCache {
  c_getTotalRedistributed : E -> option Trove;
  c_getTroveBeforeRedistribution : option string -> E -> option TroveWithPendingRedistribution;
  c_getTrove : option string -> E -> option UserTrove;
  c_getNumberOfTroves : E -> option Z;
  c_getPrice : E -> option Decimal;
  c_getTotal : E -> option Trove;
  c_getStabilityDeposit : option string -> E -> option StabilityDeposit;
  c_getRemainingStabilityPoolZEROReward : E -> option Decimal;
  c_getZUSDInStabilityPool : E -> option Decimal;
  c_getZUSDBalance : option string -> E -> option Decimal;
  c_getZEROBalance : option string -> E -> option Decimal;
  c_getCollateralSurplusBalance : option string -> E -> option Decimal;
  c_getTroves : TroveListingParams -> E -> option (list listed);
  c_getFees : E -> option Fees;
  c_getZEROStake : option string -> E -> option ZEROStake;
  c_getTotalStakedZERO : E -> option Decimal;
  c_getFrontendStatus : option string -> E -> option FrontendStatus }.
Arguments c_getTotalRedistributed {E} _.
Arguments c_getTroveBeforeRedistribution {E} _.
Arguments c_getTrove {E} _.
Arguments c_getNumberOfTroves {E} _.
Arguments c_getPrice {E} _.
Arguments c_getTotal {E} _.
Arguments c_getStabilityDeposit {E} _.
Arguments c_getRemainingStabilityPoolZEROReward {E} _.
Arguments c_getZUSDInStabilityPool {E} _.
Arguments c_getZUSDBalance {E} _.
Arguments c_getZEROBalance {E} _.
Arguments c_getCollateralSurplusBalance {E} _.
Arguments c_getTroves {E} _.
Arguments c_getFees {E} _.
Arguments c_getZEROStake {E} _.
Arguments c_getTotalStakedZERO {E} _.
Arguments c_getFrontendStatus {E} _.

(** [cached ?? readable] *)
Definition or_read {A} (cached : option A) (read : result A) : result A :=
  match cached with Some a => Ok a | None => read end.

Section Cached.
Context {E : Type} (_readable : ReadableLiquity E) (_cache : _LiquityReadCache E).

Definition cached_getTotalRedistributed (e : E) : result Trove :=
  or_read (c_getTotalRedistributed _cache e) (getTotalRedistributed _readable e).

Definition cached_getTroveBeforeRedistribution (address : option string) (e : E)
    : result TroveWithPendingRedistribution :=
  or_read (c_getTroveBeforeRedistribution _cache address e)
    (getTroveBeforeRedistribution _readable address e).

Definition cached_getTrove (address : option string) (e : E) : result UserTrove :=
  let! troveBeforeRedistribution := cached_getTroveBeforeRedistribution address e in
  let! totalRedistributed := cached_getTotalRedistributed e in
  UserTrove.applyRedistribution troveBeforeRedistribution totalRedistributed.

Definition cached_getTroves (params : TroveListingParams) (e : E) : result (list listed) :=
  let rest := mkListing (first params) (sortedBy params) (startingAt params) true in
  let! totalRedistributed :=
    (if beforeRedistribution params then Ok None
     else let! t := cached_getTotalRedistributed e in Ok (Some t)) in
  let! troves := or_read (c_getTroves _cache rest e) (getTroves _readable rest e) in
  match totalRedistributed with
  | Some total => traverse (apply_listed total) troves
  | None => Ok troves
  end.

Definition _CachedReadableLiquity : ReadableLiquity E := {|
  getTotalRedistributed := cached_getTotalRedistributed;
  getTroveBeforeRedistribution := cached_getTroveBeforeRedistribution;
  getTrove := cached_getTrove;
  getNumberOfTroves e := or_read (c_getNumberOfTroves _cache e) (getNumberOfTroves _readable e);
  getPrice e := or_read (c_getPrice _cache e) (getPrice _readable e);
  getTotal e := or_read (c_getTotal _cache e) (getTotal _readable e);
  getStabilityDeposit a e :=
    or_read (c_getStabilityDeposit _cache a e) (getStabilityDeposit _readable a e);
  getRemainingStabilityPoolZEROReward e :=
    or_read (c_getRemainingStabilityPoolZEROReward _cache e)
      (getRemainingStabilityPoolZEROReward _readable e);
  getZUSDInStabilityPool e :=
    or_read (c_getZUSDInStabilityPool _cache e) (getZUSDInStabilityPool _readable e);
  getZUSDBalance a e := or_read (c_getZUSDBalance _cache a e) (getZUSDBalance _readable a e);
  getZEROBalance a e := or_read (c_getZEROBalance _cache a e) (getZEROBalance _readable a e);
  getCollateralSurplusBalance a e :=
    or_read (c_getCollateralSurplusBalance _cache a e) (getCollateralSurplusBalance _readable a e);
  getTroves := cached_getTroves;
  getFees e := or_read (c_getFees _cache e) (getFees _readable e);
  getZEROStake a e := or_read (c_getZEROStake _cache a e) (getZEROStake _readable a e);
  getTotalStakedZERO e := or_read (c_getTotalStakedZERO _cache e) (getTotalStakedZERO _readable e);
  getFrontendStatus a e :=
    or_read (c_getFrontendStatus _cache a e) (getFrontendStatus _readable a e) |}.

(** ** Interface laws

    [sound_answer]: a cache answers only what the readable would. *)

Definition sound_answer {A} (cached : option A) (read : result A) : Prop :=
  forall a, cached = Some a -> read = Ok a.

(** A cache is sound at a class [P] of extra parameters. *)
Class SoundCache (P : E -> Prop) : Prop := {
  sound_TotalRedistributed e : P e ->
    sound_answer (c_getTotalRedistributed _cache e) (getTotalRedistributed _readable e);
  sound_TroveBeforeRedistribution a e : P e ->
    sound_answer (c_getTroveBeforeRedistribution _cache a e) (getTroveBeforeRedistribution _readable a e);
  sound_NumberOfTroves e : P e ->
    sound_answer (c_getNumberOfTroves _cache e) (getNumberOfTroves _readable e);
  sound_Price e : P e -> sound_answer (c_getPrice _cache e) (getPrice _readable e);
  sound_Total e : P e -> sound_answer (c_getTotal _cache e) (getTotal _readable e);
  sound_StabilityDeposit a e : P e ->
    sound_answer (c_getStabilityDeposit _cache a e) (getStabilityDeposit _readable a e);
  sound_RemainingReward e : P e ->
    sound_answer (c_getRemainingStabilityPoolZEROReward _cache e)
      (getRemainingStabilityPoolZEROReward _readable e);
  sound_ZUSDInStabilityPool e : P e ->
    sound_answer (c_getZUSDInStabilityPool _cache e) (getZUSDInStabilityPool _readable e);
  sound_ZUSDBalance a e : P e ->
    sound_answer (c_getZUSDBalance _cache a e) (getZUSDBalance _readable a e);
  sound_ZEROBalance a e : P e ->
    sound_answer (c_getZEROBalance _cache a e) (getZEROBalance _readable a e);
  sound_CollateralSurplusBalance a e : P e ->
    sound_answer (c_getCollateralSurplusBalance _cache a e) (getCollateralSurplusBalance _readable a e);
  sound_Troves p e : P e -> sound_answer (c_getTroves _cache p e) (getTroves _readable p e);
  sound_Fees e : P e -> sound_answer (c_getFees _cache e) (getFees _readable e);
  sound_ZEROStake a e : P e ->
    sound_answer (c_getZEROStake _cache a e) (getZEROStake _readable a e);
  sound_TotalStakedZERO e : P e ->
    sound_answer (c_getTotalStakedZERO _cache e) (getTotalStakedZERO _readable e);
  sound_FrontendStatus a e : P e ->
    sound_answer (c_getFrontendStatus _cache a e) (getFrontendStatus _readable a e) }.
End Cached.

Lemma or_read_sound {A} (cached : option A) (read : result A) :
  sound_answer cached read -> or_read cached read = read.
Proof. intros H. destruct cached as [a|]; [|done]. cbn. symmetry. by apply H. Qed.

(** Two readables that agree on every operation at the parameters in [P]. *)
Definition agree {E} (P : E -> Prop) (r1 r2 : ReadableLiquity E) : Prop :=
  forall e, P e ->
  getTotalRedistributed r1 e ≡ getTotalRedistributed r2 e /\
  (forall a, getTroveBeforeRedistribution r1 a e ≡ getTroveBeforeRedistribution r2 a e) /\
  (forall a, getTrove r1 a e ≡ getTrove r2 a e) /\
  getNumberOfTroves r1 e ≡ getNumberOfTroves r2 e /\
  getPrice r1 e ≡ getPrice r2 e /\
  getTotal r1 e ≡ getTotal r2 e /\
  (forall a, getStabilityDeposit r1 a e ≡ getStabilityDeposit r2 a e) /\
  getRemainingStabilityPoolZEROReward r1 e ≡ getRemainingStabilityPoolZEROReward r2 e /\
  getZUSDInStabilityPool r1 e ≡ getZUSDInStabilityPool r2 e /\
  (forall a, getZUSDBalance r1 a e ≡ getZUSDBalance r2 a e) /\
  (forall a, getZEROBalance r1 a e ≡ getZEROBalance r2 a e) /\
  (forall a, getCollateralSurplusBalance r1 a e ≡ getCollateralSurplusBalance r2 a e) /\
  (forall p, getTroves r1 p e ≡ getTroves r2 p e) /\
  getFees r1 e ≡ getFees r2 e /\
  (forall a, getZEROStake r1 a e ≡ getZEROStake r2 a e) /\
  getTotalStakedZERO r1 e ≡ getTotalStakedZERO r2 e /\
  (forall a, getFrontendStatus r1 a e ≡ getFrontendStatus r2 a e).

(** What a readable promises about its composite reads: [getTrove] and
    [getTroves] are the pending reads with the redistribution applied. *)
Class ComposedReads {E} (r : ReadableLiquity E) : Prop := {
  getTrove_composed a e :
    getTrove r a e ≡
    let! t := getTroveBeforeRedistribution r a e in
    let! total := getTotalRedistributed r e in
    UserTrove.applyRedistribution t total;
  getTroves_composed p e :
    beforeRedistribution p = false ->
    getTroves r p e ≡
    let! total := getTotalRedistributed r e in
    let! ts := getTroves r (mkListing (first p) (sortedBy p) (startingAt p) true) e in
    traverse (apply_listed total) ts }.

(** A readable cached by a sound cache agrees with the readable itself on all
    operations, composite ones included. *)
Lemma cached_agree {E} (r : ReadableLiquity E) (c : _LiquityReadCache E) (P : E -> Prop) :
  ComposedReads r -> SoundCache r c P -> agree P (_CachedReadableLiquity r c) r.
Proof.
  intros Hr Hc e He.
  assert (Htot : cached_getTotalRedistributed r c e = getTotalRedistributed r e)
    by (apply or_read_sound; by apply Hc).
  assert (Hbef : forall a, cached_getTroveBeforeRedistribution r c a e = getTroveBeforeRedistribution r a e)
    by (intros a; apply or_read_sound; by apply Hc).
  cbn [_CachedReadableLiquity getTotalRedistributed getTroveBeforeRedistribution getTrove
    getNumberOfTroves getPrice getTotal getStabilityDeposit getRemainingStabilityPoolZEROReward
    getZUSDInStabilityPool getZUSDBalance getZEROBalance getCollateralSurplusBalance getTroves
    getFees getZEROStake getTotalStakedZERO getFrontendStatus].
  repeat split; intros;
    try first [by rewrite Htot | by rewrite Hbef | rewrite or_read_sound; [done | by apply Hc]].
  - unfold cached_getTrove. by rewrite Hbef, Htot, getTrove_composed.
  - unfold cached_getTroves. rewrite Htot, or_read_sound by (by apply Hc).
    destruct (beforeRedistribution p) eqn:Ep.
    + rewrite bind_Ok. destruct p; cbn in *; subst. by destruct (getTroves _ _ _).
    + rewrite (getTroves_composed p) by done. by destruct (getTotalRedistributed r e).
Qed.
