(* ===== verification/EthersConnection.v ===== *)
(** * Connections (lib-ethers/src/EthersLiquityConnection.ts, contracts.ts, _Multicall.ts)

    ethers' providers, signers and contracts are not part of the repository:
    they are records of the calls the code makes, given as arguments.  A call
    that awaits a promise returns [result].  A [uint256] returned by a contract
    is an [N]. *)

From S2P Require Import Prelude JsString LibDecimal DecimalText LibTrove LibFees.
Local Open Scope Z_scope.

(** ** ethers *)

(** [BlockTag]: a block number or a name such as ["latest"]. *)
Inductive BlockTag : Type :=
| BlockNumber (n : Z)
| BlockName (s : string).

#[export] Instance BlockTag_eq_dec : EqDecision BlockTag.
Proof. solve_decision. Defined.

(** lib-ethers/src/types.ts *)
Record EthersCallOverrides : Type := mkCallOverrides { ov_blockTag : option BlockTag }.

(** [{ ...overrides }] *)
Definition call_overrides (o : option EthersCallOverrides) : option BlockTag :=
  match o with Some o => ov_blockTag o | None => None end.

Record EthersProvider : Type := mkProvider {
  getBlock_timestamp : BlockTag -> result Z;
  getBalance : string -> option BlockTag -> result N;
  getNetwork_chainId : result Z }.

Record EthersSigner : Type := mkSigner {
  signer_provider : option EthersProvider;
  getAddress : result string }.

Inductive SignerOrProvider : Type :=
| ASigner (s : EthersSigner)
| AProvider (p : EthersProvider).

(** ** Contracts

    What [Troves] and [rewardSnapshots] return, and an element of
    [getMultipleSortedTroves]. *)

Record BackendTrove : Type := mkBackendTrove {
  bt_debt : N; bt_coll : N; bt_stake : N; bt_status : N }.

Record RewardSnapshot : Type := mkSnapshot { snap_ETH : N; snap_ZUSDDebt : N }.

Record CombinedTroveData : Type := mkCombined {
  ct_owner : string;
  ct_debt : N;
  ct_coll : N;
  ct_stake : N;
  ct_snapshotETH : N;
  ct_snapshotZUSDDebt : N }.

(** The read calls on the contracts, each at a block. *)
Record Contracts : Type := mkContracts {
  L_ETH : option BlockTag -> result N;
  L_ZUSDDebt : option BlockTag -> result N;
  Troves : string -> option BlockTag -> result BackendTrove;
  rewardSnapshots : string -> option BlockTag -> result RewardSnapshot;
  getTroveOwnersCount : option BlockTag -> result N;
  lastFeeOperationTime : option BlockTag -> result N;
  contract_baseRate : option BlockTag -> result N;
  fetchPrice : option BlockTag -> result N;
  activePool_getETH : option BlockTag -> result N;
  activePool_getZUSDDebt : option BlockTag -> result N;
  defaultPool_getETH : option BlockTag -> result N;
  defaultPool_getZUSDDebt : option BlockTag -> result N;
  deposits : string -> option BlockTag -> result (string * N);
  getCompoundedZUSDDeposit : string -> option BlockTag -> result N;
  getDepositorETHGain : string -> option BlockTag -> result N;
  getDepositorZEROGain : string -> option BlockTag -> result N;
  getTotalZUSDDeposits : option BlockTag -> result N;
  frontEnds : string -> option BlockTag -> result (bool * N);
  ZEROSupplyCap : result N;
  totalZEROIssued : option BlockTag -> result N;
  zusdToken_balanceOf : string -> option BlockTag -> result N;
  zeroToken_balanceOf : string -> option BlockTag -> result N;
  collSurplusPool_getCollateral : string -> option BlockTag -> result N;
  getMultipleSortedTroves : Z -> Z -> option BlockTag -> result (list CombinedTroveData);
  zeroStaking_stakes : string -> option BlockTag -> result N;
  getPendingETHGain : string -> option BlockTag -> result N;
  getPendingZUSDGain : string -> option BlockTag -> result N;
  totalZEROStaked : option BlockTag -> result N }.

Definition _Multicall : Type := BlockTag -> result N.

(** [Record<LiquityContractsKey, string>] and the rest of a deployment file. *)
Record _LiquityDeploymentJSON : Type := mkDeployment {
  deployment_chainId : Z;
  deployment_addresses : list (string * string);
  deployment_version : string;
  deployment_deploymentDate : Z;
  deployment_startBlock : Z;
  deployment_bootstrapPeriod : Z;
  deployment_priceFeedIsTestnet : bool;
  deployment_isDev : bool }.

Record OptionalParams : Type := mkOptionalParams {
  opt_userAddress : option string;
  opt_frontendTag : option string;
  opt_useStore : option string }.

Record EthersLiquityConnection : Type := mkConnection {
  provider : EthersProvider;
  signer : option EthersSigner;
  _contracts : Contracts;
  multicall : option _Multicall;
  deploymentDate : Date;
  deployment : _LiquityDeploymentJSON;
  userAddress : option string;
  connection_frontendTag : option string;
  useStore : option string }.

(** ** Conversions *)

(** [decimalify(bigNumber)], also in BlockPolledLiquityStore.ts. *)
Definition decimalify (bigNumber : N) : result Decimal :=
  fromBigNumberString (toHexString (Z.of_N bigNumber)).

(** [bigNumber.toNumber()]: throws above [Number.MAX_SAFE_INTEGER]. *)
Definition toNumber (bigNumber : N) : result Z :=
  if Z.of_N bigNumber <=? 9007199254740991 then Ok (Z.of_N bigNumber) else Throw NumericFault.

Lemma decimalify_Ok n : decimalify n = Ok (mkDecimal n).
Proof.
  unfold decimalify, fromBigNumberString. rewrite BigNumber_from_hex by lia.
  rewrite bind_Ok. by apply new_Decimal_Ok.
Qed.

#[export] Hint Rewrite decimalify_Ok : zero.

(** ** Connecting *)

Definition _getContracts (connection : EthersLiquityConnection) : Contracts := _contracts connection.

Definition _getBlockTimestamp (connection : EthersLiquityConnection) (blockTag : option BlockTag)
    : result Z :=
  let tag := default (BlockName "latest") blockTag in
  match multicall connection with
  | Some getCurrentBlockTimestamp => let! t := getCurrentBlockTimestamp tag in toNumber t
  | None => getBlock_timestamp (provider connection) tag
  end.

Definition _requireSigner (connection : EthersLiquityConnection) : result EthersSigner :=
  match signer connection with
  | Some s => Ok s
  | None => Throw (Error "Must be connected through a Signer")
  end.

(** [_requireAddress(connection, overrides?)]; [from] is [overrides?.from]. *)
Definition _requireAddress (connection : EthersLiquityConnection) (from : option string) : result string :=
  match from, userAddress connection with
  | Some a, _ => Ok a
  | None, Some a => Ok a
  | None, None => Throw (Error "A user address is required")
  end.

Definition _requireFrontendAddress (connection : EthersLiquityConnection) : result string :=
  match connection_frontendTag connection with
  | Some a => Ok a
  | None => Throw (Error "A frontend address is required")
  end.

Definition _usingStore (connection : EthersLiquityConnection) : bool :=
  bool_decide (is_Some (useStore connection)).

Definition getProviderAndSigner (s : SignerOrProvider) : result (EthersProvider * option EthersSigner) :=
  match s with
  | ASigner s => match signer_provider s with
                 | Some p => Ok (p, Some s)
                 | None => Throw (Error "Signer must have a Provider")
                 end
  | AProvider p => Ok (p, None)
  end.

Definition validStoreOptions : list string := ["blockPolled"]%string.

Definition connectionFrom (p : EthersProvider) (s : option EthersSigner) (contracts : Contracts)
    (mc : option _Multicall) (d : _LiquityDeploymentJSON) (params : option OptionalParams)
    : result EthersLiquityConnection :=
  let! _ := match params ≫= opt_useStore with
            | Some u => if bool_decide (u ∈ validStoreOptions) then Ok tt
                        else Throw (Error ("Invalid useStore value " +:+ u))
            | None => Ok tt
            end in
  Ok (mkConnection p s contracts mc (deployment_deploymentDate d) d
        (params ≫= opt_userAddress) (params ≫= opt_frontendTag) (params ≫= opt_useStore)).

(** [hasMulticall(chainId)]: the keys of [multicallAddress]. *)
Definition hasMulticall (chainId : Z) : bool := bool_decide (chainId ∈ [1; 3; 4; 5; 42]).

Section Connect.
(** ethers' contract constructors, and the deployment files read at build time. *)
Variable _connectToContracts : SignerOrProvider -> _LiquityDeploymentJSON -> Contracts.
Variable newMulticall : SignerOrProvider -> Z -> _Multicall.
Variables rsktestnet rskMainnet : _LiquityDeploymentJSON.
Variables rskdev dev : option _LiquityDeploymentJSON.

(** The object literal of deployments: a later entry replaces an earlier one. *)
Definition deployments (chainId : Z) : option _LiquityDeploymentJSON :=
  let entries := [Some rsktestnet; Some rskMainnet; rskdev; dev] in
  let matching := filter (fun d => deployment_chainId d = chainId) (omap id entries) in
  last matching.

Definition _connectToMulticall (s : SignerOrProvider) (chainId : Z) : option _Multicall :=
  if hasMulticall chainId then Some (newMulticall s chainId) else None.

Definition _connectToDeployment (d : _LiquityDeploymentJSON) (s : SignerOrProvider)
    (params : option OptionalParams) : result EthersLiquityConnection :=
  let! ps := getProviderAndSigner s in
  connectionFrom (fst ps) (snd ps) (_connectToContracts s d) None d params.

(** [signer ?? provider] *)
Definition signer_or_provider (p : EthersProvider) (s : option EthersSigner) : SignerOrProvider :=
  match s with Some s => ASigner s | None => AProvider p end.

Definition _connectByChainId (p : EthersProvider) (s : option EthersSigner) (chainId : Z)
    (params : option OptionalParams) : result EthersLiquityConnection :=
  match deployments chainId with
  | None => Throw (UnsupportedNetworkError chainId)
  | Some d =>
      connectionFrom p s (_connectToContracts (signer_or_provider p s) d)
        (_connectToMulticall (signer_or_provider p s) chainId) d params
  end.

Definition _connect (s : SignerOrProvider) (params : option OptionalParams)
    : result EthersLiquityConnection :=
  let! ps := getProviderAndSigner s in
  let! params :=
    match snd ps with
    | Some sg =>
        match params ≫= opt_userAddress with
        | Some _ => Throw (Error "Can't override userAddress when connecting through Signer")
        | None =>
            let! address := getAddress sg in
            Ok (Some (mkOptionalParams (Some address) (params ≫= opt_frontendTag) (params ≫= opt_useStore)))
        end
    | None => Ok params
    end in
  let! chainId := getNetwork_chainId (fst ps) in
  _connectByChainId (fst ps) (snd ps) chainId params.

(** A connection made through a signer always reads for that signer's own
    address: it is the signer's, never one given by the caller, and a connection
    has a signer only when one was passed; the deployment used is one whose chain
    id is that of the provider's network. *)
Theorem connect_address (s : SignerOrProvider) (params : option OptionalParams)
    (c : EthersLiquityConnection) :
  _connect s params = Ok c ->
  getNetwork_chainId (provider c) = Ok (deployment_chainId (deployment c)) /\
  match s with
  | ASigner sg => signer c = Some sg /\ signer_provider sg = Some (provider c) /\
      params ≫= opt_userAddress = None /\
      (exists a, getAddress sg = Ok a /\ userAddress c = Some a /\ _requireAddress c None = Ok a)
  | AProvider p => signer c = None /\ provider c = p /\ userAddress c = params ≫= opt_userAddress
  end.
Proof.
  unfold _connect, _connectByChainId. intros H.
  apply bind_Ok_inv in H as ([p sg] & Hps & H). apply bind_Ok_inv in H as (ps & Hparams & H).
  apply bind_Ok_inv in H as (cid & Hcid & H). cbn [fst snd] in *.
  destruct (deployments cid) as [d|] eqn:Ed; [|discriminate].
  assert (Hd : deployment_chainId d = cid).
  { unfold deployments in Ed. apply last_Some_elem_of, list_elem_of_filter in Ed. by destruct Ed. }
  unfold connectionFrom in H. apply bind_Ok_inv in H as ([] & _ & H). inversion H; subst c. clear H.
  cbn [provider deployment signer userAddress]. split; [by rewrite Hd|].
  destruct s as [s|p']; unfold getProviderAndSigner in Hps.
  - destruct (signer_provider s) as [p'|] eqn:Ep; [|discriminate]. inversion Hps; subst p' sg.
    destruct (params ≫= opt_userAddress) as [|] eqn:Eu; [discriminate|].
    apply bind_Ok_inv in Hparams as (a & Ha & Hps'). inversion Hps'; subst ps. cbn.
    repeat split; eauto.
  - inversion Hps; subst p' sg. inversion Hparams; subst ps. done.
Qed.
End Connect.

(** ** A concrete network *)

(** Contracts whose reads are all zero, at every block, but for the lister. *)
Definition contracts_listing (lister : Z -> Z -> option BlockTag -> result (list CombinedTroveData))
    : Contracts :=
  let zero _ := Ok 0%N in let zero_of (_ : string) (_ : option BlockTag) := Ok 0%N in
  {| L_ETH := zero; L_ZUSDDebt := zero;
     Troves := fun _ _ => Ok (mkBackendTrove 0 0 0 0);
     rewardSnapshots := fun _ _ => Ok (mkSnapshot 0 0);
     getTroveOwnersCount := zero; lastFeeOperationTime := zero; contract_baseRate := zero;
     fetchPrice := zero; activePool_getETH := zero; activePool_getZUSDDebt := zero;
     defaultPool_getETH := zero; defaultPool_getZUSDDebt := zero;
     deposits := fun _ _ => Ok ("0x00"%string, 0%N);
     getCompoundedZUSDDeposit := zero_of; getDepositorETHGain := zero_of;
     getDepositorZEROGain := zero_of; getTotalZUSDDeposits := zero;
     frontEnds := fun _ _ => Ok (false, 0%N); ZEROSupplyCap := Ok 0%N; totalZEROIssued := zero;
     zusdToken_balanceOf := zero_of; zeroToken_balanceOf := zero_of;
     collSurplusPool_getCollateral := zero_of; getMultipleSortedTroves := lister;
     zeroStaking_stakes := zero_of; getPendingETHGain := zero_of; getPendingZUSDGain := zero_of;
     totalZEROStaked := zero |}.

Definition zero_contracts : Contracts := contracts_listing (fun _ _ _ => Ok []).

Definition sample_deployment : _LiquityDeploymentJSON :=
  mkDeployment 31 [] "v1" 1600000000000 1 0 true false.

Definition sample_provider : EthersProvider :=
  mkProvider (fun _ => Ok 1600000600) (fun _ _ => Ok 5%N) (Ok 31).

Definition sample_signer : EthersSigner := mkSigner (Some sample_provider) (Ok "0x01"%string).

Definition sample_connection : EthersLiquityConnection :=
  mkConnection sample_provider (Some sample_signer) zero_contracts None 1600000000000
    sample_deployment (Some "0x01"%string) (Some "0x02"%string) None.

Lemma connect_address_witness :
  getNetwork_chainId (provider sample_connection) = Ok (deployment_chainId (deployment sample_connection)) /\
  signer sample_connection = Some sample_signer /\
  signer_provider sample_signer = Some (provider sample_connection) /\
  Some (mkOptionalParams None (Some "0x02"%string) None) ≫= opt_userAddress = None /\
  (exists a, getAddress sample_signer = Ok a /\ userAddress sample_connection = Some a /\
     _requireAddress sample_connection None = Ok a).
Proof.
  exact (connect_address (fun _ _ => zero_contracts) (fun _ _ _ => Ok 0%N)
    sample_deployment sample_deployment None None (ASigner sample_signer)
    (Some (mkOptionalParams None (Some "0x02"%string) None)) sample_connection eq_refl).
Defined.
