(* ===== verification/EthersReadable.v ===== *)
(** * [ReadableEthersLiquity] (lib-ethers/src/ReadableEthersLiquity.ts)

    The reads of a connection, as an implementation of [ReadableLiquity], and
    the contract helper that pages through the sorted troves. *)

From S2P Require Import Prelude JsString JsNumber LibDecimal LibConstants LibTrove TroveFacts LibFees.
From S2P Require Import LibDeposit LibStore LibReadable EthersConnection.
Local Open Scope Z_scope.

Definition MINUTE_DECAY_FACTOR : Decimal := Eval vm_compute in
  evaluated Decimal.ZERO (from (DString "0.999037758833783000")).
Definition BETA : Decimal := Eval vm_compute in constant "2".

(** [BackendTroveStatus] is an enum: its members are the numbers 0 to 4. *)
Definition BackendTroveStatus_active : N := 1.

Definition userTroveStatusFrom (backendStatus : N) : result UserTroveStatus :=
  if (backendStatus =? 0)%N then Ok nonExistent
  else if (backendStatus =? 1)%N then Ok open
  else if (backendStatus =? 2)%N then Ok closedByOwner
  else if (backendStatus =? 3)%N then Ok closedByLiquidation
  else if (backendStatus =? 4)%N then Ok closedByRedemption
  else Throw (Error ("invalid backendStatus " +:+ text (print_dec (Z.of_N backendStatus)))).

Definition convertToDate (timestamp : Z) : Date := timestamp * 1000.

Definition validSortingOptions : list string :=
  ["ascendingCollateralRatio"; "descendingCollateralRatio"]%string.

Definition expectPositiveInt (key : string) (value : option count) : result unit :=
  match value with
  | None => Ok tt
  | Some NotInteger => Throw (Error (key +:+ " must be an integer"))
  | Some (Int n) => if n <? 0 then Throw (Error (key +:+ " must not be negative")) else Ok tt
  end.

Definition int_of (c : count) : Z := match c with Int n => n | NotInteger => 0 end.

Definition mapBackendTroves (troves : list CombinedTroveData) : result (list TroveWithPendingRedistribution) :=
  traverse (fun t =>
    let! coll := decimalify (ct_coll t) in
    let! debt := decimalify (ct_debt t) in
    let! stake := decimalify (ct_stake t) in
    let! snapshotETH := decimalify (ct_snapshotETH t) in
    let! snapshotZUSDDebt := decimalify (ct_snapshotZUSDDebt t) in
    Ok (UserTrove.new_Pending (ct_owner t) open (Some coll) (Some debt) (Some stake)
          (Some (mkTrove snapshotETH snapshotZUSDDebt)))) troves.

Module ReadableEthersLiquity.
Section Readable.
Variable connection : EthersLiquityConnection.

Definition Overrides : Type := option EthersCallOverrides.
Let contracts : Contracts := _getContracts connection.

(** [address ??= _requireAddress(this.connection)] *)
Definition address_or_user (address : option string) : result string :=
  match address with Some a => Ok a | None => _requireAddress connection None end.

Definition getTotalRedistributed (overrides : Overrides) : result Trove :=
  let tag := call_overrides overrides in
  let! c := L_ETH contracts tag in let! collateral := decimalify c in
  let! d := L_ZUSDDebt contracts tag in let! debt := decimalify d in
  Ok (mkTrove collateral debt).

Definition getTroveBeforeRedistribution (address : option string) (overrides : Overrides)
    : result TroveWithPendingRedistribution :=
  let tag := call_overrides overrides in
  let! address := address_or_user address in
  let! trove := Troves contracts address tag in
  let! snapshot := rewardSnapshots contracts address tag in
  if (bt_status trove =? BackendTroveStatus_active)%N then
    let! status := userTroveStatusFrom (bt_status trove) in
    let! coll := decimalify (bt_coll trove) in
    let! debt := decimalify (bt_debt trove) in
    let! stake := decimalify (bt_stake trove) in
    let! eth := decimalify (snap_ETH snapshot) in
    let! zusd := decimalify (snap_ZUSDDebt snapshot) in
    Ok (UserTrove.new_Pending address status (Some coll) (Some debt) (Some stake) (Some (mkTrove eth zusd)))
  else
    let! status := userTroveStatusFrom (bt_status trove) in
    Ok (UserTrove.new_Pending address status None None None None).

Definition getTrove (address : option string) (overrides : Overrides) : result UserTrove :=
  let! trove := getTroveBeforeRedistribution address overrides in
  let! totalRedistributed := getTotalRedistributed overrides in
  UserTrove.applyRedistribution trove totalRedistributed.

Definition getNumberOfTroves (overrides : Overrides) : result Z :=
  let! n := getTroveOwnersCount contracts (call_overrides overrides) in toNumber n.

Definition getPrice (overrides : Overrides) : result Decimal :=
  let! p := fetchPrice contracts (call_overrides overrides) in decimalify p.

Definition _getActivePool (overrides : Overrides) : result Trove :=
  let tag := call_overrides overrides in
  let! c := activePool_getETH contracts tag in let! activeCollateral := decimalify c in
  let! d := activePool_getZUSDDebt contracts tag in let! activeDebt := decimalify d in
  Ok (mkTrove activeCollateral activeDebt).

Definition _getDefaultPool (overrides : Overrides) : result Trove :=
  let tag := call_overrides overrides in
  let! c := defaultPool_getETH contracts tag in let! liquidatedCollateral := decimalify c in
  let! d := defaultPool_getZUSDDebt contracts tag in let! closedDebt := decimalify d in
  Ok (mkTrove liquidatedCollateral closedDebt).

Definition getTotal (overrides : Overrides) : result Trove :=
  let! activePool := _getActivePool overrides in
  let! defaultPool := _getDefaultPool overrides in
  Trove.add activePool defaultPool.

Definition getStabilityDeposit (address : option string) (overrides : Overrides)
    : result StabilityDeposit :=
  let tag := call_overrides overrides in
  let! address := address_or_user address in
  let! deposit := deposits contracts address tag in
  let! current := getCompoundedZUSDDeposit contracts address tag in
  let! gain := getDepositorETHGain contracts address tag in
  let! reward := getDepositorZEROGain contracts address tag in
  let! initialZUSD := decimalify (snd deposit) in
  let! currentZUSD := decimalify current in
  let! collateralGain := decimalify gain in
  let! zeroReward := decimalify reward in
  StabilityDeposit.new_StabilityDeposit initialZUSD currentZUSD collateralGain zeroReward (fst deposit).

Definition getRemainingStabilityPoolZEROReward (overrides : Overrides) : result Decimal :=
  let! cap := ZEROSupplyCap contracts in let! issuanceCap := decimalify cap in
  let! issued := totalZEROIssued contracts (call_overrides overrides) in
  let! totalIssued := decimalify issued in
  let! more := Decimal.gt issuanceCap totalIssued in
  if more then Decimal.sub issuanceCap totalIssued else from (Num "0").

Definition getZUSDInStabilityPool (overrides : Overrides) : result Decimal :=
  let! n := getTotalZUSDDeposits contracts (call_overrides overrides) in decimalify n.

Definition getZUSDBalance (address : option string) (overrides : Overrides) : result Decimal :=
  let! address := address_or_user address in
  let! n := zusdToken_balanceOf contracts address (call_overrides overrides) in decimalify n.

Definition getZEROBalance (address : option string) (overrides : Overrides) : result Decimal :=
  let! address := address_or_user address in
  let! n := zeroToken_balanceOf contracts address (call_overrides overrides) in decimalify n.

Definition getCollateralSurplusBalance (address : option string) (overrides : Overrides) : result Decimal :=
  let! address := address_or_user address in
  let! n := collSurplusPool_getCollateral contracts address (call_overrides overrides) in decimalify n.

(** The index [getMultipleSortedTroves] is called with. *)
Definition start_index (params : TroveListingParams) : Z :=
  let start := match startingAt params with Some c => int_of c | None => 0 end in
  if bool_decide (sortedBy params = "descendingCollateralRatio"%string) then start else - (start + 1).

Definition getTroves (params : TroveListingParams) (overrides : Overrides) : result (list listed) :=
  let! _ := expectPositiveInt "first" (Some (first params)) in
  let! _ := expectPositiveInt "startingAt" (startingAt params) in
  if bool_decide (sortedBy params ∉ validSortingOptions) then
    Throw (Error ("sortedBy must be one of: " +:+
      String.concat ", " (map (fun x => dquote +:+ x +:+ dquote) validSortingOptions)))
  else
    let! totalRedistributed :=
      (if beforeRedistribution params then Ok None
       else let! t := getTotalRedistributed overrides in Ok (Some t)) in
    let! backendTroves := getMultipleSortedTroves contracts (start_index params)
                            (int_of (first params)) (call_overrides overrides) in
    let! troves := mapBackendTroves backendTroves in
    match totalRedistributed with
    | Some total => traverse (fun t => apply_listed total (Pending t)) troves
    | None => Ok (map Pending troves)
    end.

(** The closure returned is a function of the block timestamp and the mode. *)
Definition _getFeesFactory (overrides : Overrides) : result (Z -> bool -> result Fees) :=
  let tag := call_overrides overrides in
  let! last := lastFeeOperationTime contracts tag in
  let! base := contract_baseRate contracts tag in
  let! baseRateWithoutDecay := decimalify base in
  Ok (fun blockTimestamp recoveryMode =>
    let! lastFeeOperation := toNumber last in
    Fees.new_Fees baseRateWithoutDecay MINUTE_DECAY_FACTOR BETA
      (convertToDate lastFeeOperation) (convertToDate blockTimestamp) recoveryMode).

Definition getFees (overrides : Overrides) : result Fees :=
  let! createFees := _getFeesFactory overrides in
  let! total := getTotal overrides in
  let! price := getPrice overrides in
  let! blockTimestamp := _getBlockTimestamp connection (call_overrides overrides) in
  let! recovery := Trove.collateralRatioIsBelowCritical total price in
  createFees blockTimestamp recovery.

Definition getZEROStake (address : option string) (overrides : Overrides) : result ZEROStake :=
  let tag := call_overrides overrides in
  let! address := address_or_user address in
  let! s := zeroStaking_stakes contracts address tag in let! stakedZERO := decimalify s in
  let! g := getPendingETHGain contracts address tag in let! collateralGain := decimalify g in
  let! z := getPendingZUSDGain contracts address tag in let! zusdGain := decimalify z in
  Ok (mkStake stakedZERO collateralGain zusdGain).

Definition getTotalStakedZERO (overrides : Overrides) : result Decimal :=
  let! n := totalZEROStaked contracts (call_overrides overrides) in decimalify n.

Definition getFrontendStatus (address : option string) (overrides : Overrides) : result FrontendStatus :=
  let! address := match address with
                  | Some a => Ok a
                  | None => _requireFrontendAddress connection
                  end in
  let! f := frontEnds contracts address (call_overrides overrides) in
  if fst f then let! k := decimalify (snd f) in Ok (registered k) else Ok unregistered.

(** The class as an implementation of the interface. *)
Definition readable : ReadableLiquity (option EthersCallOverrides) := {|
  LibReadable.getTotalRedistributed := getTotalRedistributed;
  LibReadable.getTroveBeforeRedistribution := getTroveBeforeRedistribution;
  LibReadable.getTrove := getTrove;
  LibReadable.getNumberOfTroves := getNumberOfTroves;
  LibReadable.getPrice := getPrice;
  LibReadable.getTotal := getTotal;
  LibReadable.getStabilityDeposit := getStabilityDeposit;
  LibReadable.getRemainingStabilityPoolZEROReward := getRemainingStabilityPoolZEROReward;
  LibReadable.getZUSDInStabilityPool := getZUSDInStabilityPool;
  LibReadable.getZUSDBalance := getZUSDBalance;
  LibReadable.getZEROBalance := getZEROBalance;
  LibReadable.getCollateralSurplusBalance := getCollateralSurplusBalance;
  LibReadable.getTroves := getTroves;
  LibReadable.getFees := getFees;
  LibReadable.getZEROStake := getZEROStake;
  LibReadable.getTotalStakedZERO := getTotalStakedZERO;
  LibReadable.getFrontendStatus := getFrontendStatus |}.
End Readable.
End ReadableEthersLiquity.

(** ** The contract that lists troves (contracts/contracts/MultiTroveGetter.sol) *)

(** The calls it makes on SortedTroves and TroveManager. *)
Record TroveLists : Type := mkTroveLists {
  getSize : nat;
  getFirst : string;
  getLast : string;
  getNext : string -> string;
  getPrev : string -> string;
  list_Troves : string -> BackendTrove;
  list_rewardSnapshots : string -> RewardSnapshot }.

Module MultiTroveGetter.
Section Getter.
Variable s : TroveLists.

Definition combined (owner : string) : CombinedTroveData :=
  let t := list_Troves s owner in
  let r := list_rewardSnapshots s owner in
  mkCombined owner (bt_debt t) (bt_coll t) (bt_stake t) (snap_ETH r) (snap_ZUSDDebt r).

(** The first loop: [_startIdx] steps along the list. *)
Fixpoint skip (next : string -> string) (_startIdx : nat) (currentTroveowner : string) : string :=
  match _startIdx with
  | O => currentTroveowner
  | S n => skip next n (next currentTroveowner)
  end.

(** The second loop: fill [_count] entries. *)
Fixpoint collect (next : string -> string) (_count : nat) (currentTroveowner : string)
    : list CombinedTroveData :=
  match _count with
  | O => []
  | S n => combined currentTroveowner :: collect next n (next currentTroveowner)
  end.

Definition _getMultipleSortedTrovesFromHead (_startIdx _count : nat) : list CombinedTroveData :=
  collect (getNext s) _count (skip (getNext s) _startIdx (getFirst s)).

Definition _getMultipleSortedTrovesFromTail (_startIdx _count : nat) : list CombinedTroveData :=
  collect (getPrev s) _count (skip (getPrev s) _startIdx (getLast s)).

Definition multi_getMultipleSortedTroves (_startIdx _count : Z) : list CombinedTroveData :=
  let '(startIdx, descend) :=
    if 0 <=? _startIdx then (Z.to_nat _startIdx, true) else (Z.to_nat (- (_startIdx + 1)), false) in
  let sortedTrovesSize := getSize s in
  if (sortedTrovesSize <=? startIdx)%nat then []
  else
    let maxCount := (sortedTrovesSize - startIdx)%nat in
    let count := if (Z.of_nat maxCount <? _count)%Z then maxCount else Z.to_nat _count in
    if descend then _getMultipleSortedTrovesFromHead startIdx count
    else _getMultipleSortedTrovesFromTail startIdx count.
End Getter.
End MultiTroveGetter.

(** The linked list of SortedTroves holds the addresses [l], largest ratio first. *)
Record represents (s : TroveLists) (l : list string) : Prop := {
  rep_size : getSize s = length l;
  rep_first : forall a, head l = Some a -> getFirst s = a;
  rep_last : forall a, last l = Some a -> getLast s = a;
  rep_next : forall i a b, l !! i = Some a -> l !! S i = Some b -> getNext s a = b;
  rep_prev : forall i a b, l !! i = Some a -> l !! S i = Some b -> getPrev s b = a }.

(** ** Correctness *)
Import MultiTroveGetter.

Lemma skip_lookup next l n i a :
  (forall i a b, l !! i = Some a -> l !! S i = Some b -> next a = b) ->
  l !! i = Some a -> (i + n < length l)%nat -> l !! (i + n)%nat = Some (skip next n a).
Proof.
  intros Hnext. revert i a. induction n as [|n IH]; intros i a Ha Hlt; cbn [skip].
  - by rewrite Nat.add_0_r.
  - destruct (lookup_lt_is_Some_2 l (S i)) as [b Hb]; [lia|].
    rewrite (Hnext i a b Ha Hb). rewrite Nat.add_succ_r, <- Nat.add_succ_l. apply IH; [done | lia].
Qed.

Lemma collect_take s next l n i a :
  (forall i a b, l !! i = Some a -> l !! S i = Some b -> next a = b) ->
  l !! i = Some a -> (i + n <= length l)%nat ->
  collect s next n a = map (combined s) (take n (drop i l)).
Proof.
  intros Hnext. revert i a. induction n as [|n IH]; intros i a Ha Hle; cbn [collect]; [done|].
  rewrite (drop_S l a i Ha). cbn [take map]. f_equal.
  destruct n as [|n]; [done|].
  destruct (lookup_lt_is_Some_2 l (S i)) as [b Hb]; [lia|].
  rewrite (Hnext i a b Ha Hb). apply IH; [done | lia].
Qed.

(** Following [next] from the first element yields the list in order. *)
Lemma page_take s next l start_ n (a0 : string) :
  (forall i a b, l !! i = Some a -> l !! S i = Some b -> next a = b) ->
  l !! 0%nat = Some a0 -> (start_ < length l)%nat -> (start_ + n <= length l)%nat ->
  collect s next n (skip next start_ a0) = map (combined s) (take n (drop start_ l)).
Proof.
  intros Hnext H0 Hs Hn. apply collect_take; [done| |done].
  rewrite <- (Nat.add_0_l start_) at 1. by apply skip_lookup.
Qed.

Lemma reverse_adjacent (l : list string) i a b :
  reverse l !! i = Some a -> reverse l !! S i = Some b ->
  exists j, l !! j = Some b /\ l !! S j = Some a.
Proof.
  intros Ha Hb. pose proof (lookup_lt_Some _ _ _ Hb) as Hlt. rewrite length_reverse in Hlt.
  rewrite reverse_lookup in Ha, Hb by lia. exists (length l - S (S i))%nat. split; [done|].
  by replace (S (length l - S (S i)))%nat with (length l - S i)%nat by lia.
Qed.

Lemma take_count {A} (l : list A) start_ (count_ : Z) :
  (start_ < length l)%nat -> 0 <= count_ ->
  let maxCount := (length l - start_)%nat in
  take (if (Z.of_nat maxCount <? count_)%Z then maxCount else Z.to_nat count_) (drop start_ l)
  = take (Z.to_nat count_) (drop start_ l).
Proof.
  intros Hs Hc maxCount. case_Zb; [|done].
  rewrite !take_ge by (rewrite length_drop; unfold maxCount in *; lia). done.
Qed.

(** The page of the sorted list in the requested direction. *)
Definition page (l : list string) (start_ : Z) (count_ : Z) : list string :=
  if 0 <=? start_ then take (Z.to_nat count_) (drop (Z.to_nat start_) l)
  else take (Z.to_nat count_) (drop (Z.to_nat (- (start_ + 1))) (reverse l)).

Lemma multi_page s l start_ count_ :
  represents s l -> 0 <= count_ ->
  multi_getMultipleSortedTroves s start_ count_ = map (combined s) (page l start_ count_).
Proof.
  intros [Hsize Hfirst Hlast Hnext Hprev] Hc. unfold multi_getMultipleSortedTroves, page.
  rewrite Hsize. destruct (Z.leb_spec 0 start_) as [Hs|Hs].
  - destruct (Nat.leb_spec (length l) (Z.to_nat start_)); [by rewrite drop_ge, take_nil by done|].
    rewrite <- take_count by done. destruct l as [|a l']; [simpl in *; lia|].
    assert ((a :: l') !! 0%nat = Some (getFirst s)) by (cbn; f_equal; symmetry; by apply Hfirst).
    case_Zb; (apply page_take; [done|done|done|lia]).
  - set (i := Z.to_nat (- (start_ + 1))). rewrite <- (length_reverse l).
    destruct (Nat.leb_spec (length (reverse l)) i); [by rewrite drop_ge, take_nil by done|].
    rewrite <- take_count by done.
    assert (Hn : forall j a b, reverse l !! j = Some a -> reverse l !! S j = Some b -> getPrev s a = b).
    { intros j a b Ha Hb. destruct (reverse_adjacent l j a b Ha Hb) as (j' & Hb' & Ha'). eauto. }
    assert (H0 : reverse l !! 0%nat = Some (getLast s)).
    { rewrite reverse_lookup by (rewrite length_reverse in *; lia).
      destruct (last l) as [a|] eqn:El; [|rewrite last_None in El; subst; simpl in *; lia].
      rewrite (Hlast a eq_refl). rewrite last_lookup in El. rewrite <- El. f_equal. lia. }
    case_Zb; (apply page_take; [done|done|done|lia]).
Qed.

Import ReadableEthersLiquity.

(** The class keeps the promise of the interface about composite reads. *)
#[export] Instance readable_composed (c : EthersLiquityConnection) : ComposedReads (readable c).
Proof.
  split.
  - intros a e. done.
  - intros p e Hp. cbn [readable LibReadable.getTroves LibReadable.getTotalRedistributed].
    unfold ReadableEthersLiquity.getTroves. cbn [first startingAt sortedBy beforeRedistribution].
    rewrite Hp. unfold start_index. cbn [startingAt sortedBy].
    destruct (expectPositiveInt "first" _) as [[]|]; cbn [bind]; [|by destruct (ReadableEthersLiquity.getTotalRedistributed c e)].
    destruct (expectPositiveInt "startingAt" _) as [[]|]; cbn [bind]; [|by destruct (ReadableEthersLiquity.getTotalRedistributed c e)].
    case_bool_decide; [by destruct (ReadableEthersLiquity.getTotalRedistributed c e)|].
    rewrite bind_assoc. destruct (ReadableEthersLiquity.getTotalRedistributed c e) as [total|]; [|done].
    cbn [bind]. rewrite !bind_assoc. destruct (getMultipleSortedTroves _ _ _ _) as [bts|]; [|done].
    cbn [bind]. destruct (mapBackendTroves bts) as [ts|]; [|done]. cbn [bind].
    by rewrite traverse_map.
Qed.

(** The pending trove a listed entry stands for. *)
Definition pending_of (t : CombinedTroveData) : TroveWithPendingRedistribution :=
  mkPending (mkUserTrove (mkTrove (mkDecimal (ct_coll t)) (mkDecimal (ct_debt t))) (ct_owner t) open)
    (mkDecimal (ct_stake t)) (mkTrove (mkDecimal (ct_snapshotETH t)) (mkDecimal (ct_snapshotZUSDDebt t))).

Lemma mapBackendTroves_Ok ts : mapBackendTroves ts = Ok (map pending_of ts).
Proof. apply traverse_Ok. intros t _. autorewrite with zero. done. Qed.

Lemma getTroves_lists (c : EthersLiquityConnection) (s : TroveLists) (l : list string)
    (e : option EthersCallOverrides) (n : Z) (start_ : option Z) (descending before : bool) :
  represents s l ->
  (forall i k, getMultipleSortedTroves (_contracts c) i k (call_overrides e)
               = Ok (multi_getMultipleSortedTroves s i k)) ->
  0 <= n -> 0 <= default 0 start_ ->
  let page := map (fun a => pending_of (combined s a))
                (take (Z.to_nat n) (drop (Z.to_nat (default 0 start_)) (if descending then l else reverse l))) in
  ReadableEthersLiquity.getTroves c
    (mkListing (Int n) (if descending then "descendingCollateralRatio" else "ascendingCollateralRatio")
       (option_map Int start_) before) e
  = if before then Ok (map Pending page)
    else let! total := ReadableEthersLiquity.getTotalRedistributed c e in
         traverse (fun t => apply_listed total (Pending t)) page.
Proof.
  intros Hrep Hget Hn Hs pg. assert (forall i, int_of i = start_index (mkListing (Int n) (if descending then "descendingCollateralRatio" else "ascendingCollateralRatio")
    (option_map Int start_) before) -> map pending_of (multi_getMultipleSortedTroves s (int_of i) n) = pg) as E.
  { intros i ->. rewrite (multi_page s l), map_map by done. unfold pg, page, start_index. cbn [startingAt sortedBy].
    assert (match option_map Int start_ with Some c => int_of c | None => 0 end = default 0 start_) as -> by (by destruct start_). destruct descending.
    - rewrite bool_decide_true, (proj2 (Z.leb_le _ _)) by done. done.
    - rewrite bool_decide_false by done. rewrite (proj2 (Z.leb_gt _ _)) by lia. do 3 f_equal. lia. }
  unfold ReadableEthersLiquity.getTroves. cbn [first startingAt sortedBy beforeRedistribution expectPositiveInt].
  rewrite (proj2 (Z.ltb_ge _ _)) by done. cbn [bind].
  assert (expectPositiveInt "startingAt" (option_map Int start_) = Ok tt) as ->.
  { destruct start_; [|done]. cbn in *. by rewrite (proj2 (Z.ltb_ge _ _)) by done. }
  cbn [bind]. rewrite bool_decide_false by (destruct descending; vm_compute; set_solver).
  specialize (E (Int (start_index (mkListing (Int n) (if descending then "descendingCollateralRatio" else "ascendingCollateralRatio") (option_map Int start_) before))) eq_refl).
  cbn [int_of] in *. unfold _getContracts. destruct before; cbn [bind].
  - by rewrite Hget, bind_Ok, mapBackendTroves_Ok, bind_Ok, E.
  - destruct (ReadableEthersLiquity.getTotalRedistributed c e); cbn [bind]; [|done]. by rewrite Hget, bind_Ok, mapBackendTroves_Ok, bind_Ok, E.
Qed.

(** [getTroves] before redistribution returns the requested page of the sorted
    list: [first] troves starting at [startingAt], counted from the largest ratio
    when sorted descendingly and from the smallest when sorted ascendingly, each
    with the collateral, debt, stake and snapshot the contract holds. *)
Theorem getTroves_page (c : EthersLiquityConnection) (s : TroveLists) (l : list string)
    (e : option EthersCallOverrides) (n start_ : Z) (descending : bool) :
  represents s l ->
  (forall i k, getMultipleSortedTroves (_contracts c) i k (call_overrides e)
               = Ok (multi_getMultipleSortedTroves s i k)) ->
  0 <= n -> 0 <= start_ ->
  ReadableEthersLiquity.getTroves c
    (mkListing (Int n) (if descending then "descendingCollateralRatio" else "ascendingCollateralRatio")
       (Some (Int start_)) true) e
  = Ok (map (fun a => Pending (pending_of (combined s a)))
         (take (Z.to_nat n) (drop (Z.to_nat start_) (if descending then l else reverse l)))).
Proof. intros R G Hn Hs. rewrite <- (map_map _ Pending). by apply (getTroves_lists c s l e n (Some start_) descending true). Qed.

Definition sample_lists : TroveLists :=
  mkTroveLists 3 "a" "c"
    (fun x => if bool_decide (x = "a"%string) then "b"
              else if bool_decide (x = "b"%string) then "c" else "0x00")
    (fun x => if bool_decide (x = "c"%string) then "b"
              else if bool_decide (x = "b"%string) then "a" else "0x00")
    (fun _ => mkBackendTrove 200 5 5 1) (fun _ => mkSnapshot 0 0).

Lemma sample_lists_represents : represents sample_lists ["a"; "b"; "c"]%string.
Proof.
  split; [done|by intros a [= <-]|by intros a [= <-]|..];
    intros [|[|[|i]]] a b; cbn; intros Ha Hb; simplify_eq; done.
Qed.

Lemma getTroves_page_witness :
  let c := mkConnection sample_provider None
    (contracts_listing (fun i k _ => Ok (multi_getMultipleSortedTroves sample_lists i k))) None 0
    sample_deployment None None None in
  ReadableEthersLiquity.getTroves c
    (mkListing (Int 2) "ascendingCollateralRatio" (Some (Int 1)) true) None
  = Ok (map (fun a => Pending (pending_of (combined sample_lists a)))
         (take (Z.to_nat 2) (drop (Z.to_nat 1) (reverse ["a"; "b"; "c"]%string)))).
Proof.
  intros c. apply (getTroves_page c sample_lists ["a"; "b"; "c"]%string None 2 1 false);
    [apply sample_lists_represents | reflexivity | lia | lia].
Defined.
