(* ===== verification/SdkAgreement.v ===== *)
(** * The SDK computes what the contracts compute

    lib-base and lib-ethers repeat calculations of the contracts on the values
    they read: powers and fees, pending redistributions, collateral ratios.
    Here the two are compared: whenever the contract's calculation succeeds, the
    SDK's gives the same number. *)

From S2P Require Import Prelude Solidity SortedTroves SortedTrovesFacts ChainState TroveManager JsString LibDecimal DecimalText DecimalPow LibConstants.
From S2P Require Import LibTrove TroveFacts LibFees LibReadable EthersConnection EthersReadable.
Local Open Scope Z_scope.
Import LiquityMath.

Lemma DECIMAL_PRECISION_DIGITS : DECIMAL_PRECISION = DIGITS.
Proof. rewrite DIGITS_eq. reflexivity. Qed.

Lemma half_precision : DECIMAL_PRECISION / 2 = bn Decimal.HALF.
Proof. reflexivity. Qed.

(** ** Powers *)

Lemma decMul_rounded x y : 0 <= x <= DIGITS -> 0 <= y <= DIGITS -> decMul x y = Ok (Decimal.roundedMul x y).
Proof.
  intros Hx Hy. pose proof DIGITS_eq as D. pose proof UINT256_big as B.
  assert (0 <= x * y) by (apply Z.mul_nonneg_nonneg; lia).
  assert (x * y <= DIGITS * DIGITS) by (apply Z.mul_le_mono_nonneg; lia).
  assert (DIGITS * DIGITS = 10 ^ 36) as E by (rewrite D; reflexivity).
  assert (0 <= bn Decimal.HALF <= 10 ^ 18) as HH by (split; vm_compute; discriminate).
  unfold decMul. rewrite mul_fits; [|apply small_uint; lia|apply small_uint; lia|lia]. cbn [bind].
  rewrite half_precision, add_fits; [|apply small_uint; lia|apply small_uint; lia|lia]. cbn [bind].
  rewrite DECIMAL_PRECISION_DIGITS, div_fits by apply DIGITS_pos. done.
Qed.

Lemma rounded_unit x y : 0 <= x <= DIGITS -> 0 <= y <= DIGITS -> 0 <= Decimal.roundedMul x y <= DIGITS.
Proof. intros. split; [apply roundedMul_nonneg; lia|by apply roundedMul_le]. Qed.

Lemma pow_loop_unit fuel : forall n x y, 0 <= x <= DIGITS -> 0 <= y <= DIGITS ->
  let r := Decimal.pow_loop fuel n x y in 0 <= fst r <= DIGITS /\ 0 <= snd r <= DIGITS.
Proof.
  induction fuel as [|fuel IH]; intros n x y Hx Hy; [done|]. cbn [Decimal.pow_loop].
  destruct (1 <? n); [|done]. apply IH; [by apply rounded_unit|]. destruct (Z.testbit n 0); [by apply rounded_unit|done].
Qed.

Lemma decPow_loop_pow fuel : forall x y n, 0 <= x <= DIGITS -> 0 <= y <= DIGITS -> is_uint n ->
  decPow_loop fuel x y n = Ok (Decimal.pow_loop fuel n x y).
Proof.
  induction fuel as [|fuel IH]; intros x y n Hx Hy Hn; [done|]. cbn [decPow_loop Decimal.pow_loop].
  destruct (Z.ltb_spec 1 n); [|done].
  pose proof rounded_unit as B.
  rewrite Z.bit0_odd, Z.shiftr_div_pow2, Z.pow_1_r by lia. pose proof (Zmod_odd n) as Ho.
  rewrite (decMul_rounded x x), (decMul_rounded x y) by done. cbn [bind].
  unfold is_uint in *. destruct (Z.odd n) eqn:O; rewrite Ho; simpl (_ =? _); cbn iota.
  - rewrite sub_fits by (unfold is_uint; lia). cbn [bind]. rewrite div_fits by lia. cbn [bind].
    assert ((n - 1) / 2 = n / 2) as ->. { pose proof (Z.div_mod n 2 ltac:(lia)). symmetry. apply Z.div_unique with 0; lia. }
    apply IH; [by apply B..|]. split; [apply Z.div_pos; lia|]. apply Z.div_lt_upper_bound; lia.
  - rewrite div_fits by lia. cbn [bind].
    apply IH; [by apply B|done|]. split; [apply Z.div_pos; lia|]. apply Z.div_lt_upper_bound; lia.
Qed.

Lemma decPow_pow (base : Decimal) n : bn base <= DIGITS -> 0 <= n <= 525600000 ->
  exists r, Decimal.pow base n = Ok r /\ _decPow (bn base) n = Ok (bn r) /\ bn r <= DIGITS.
Proof.
  intros Hb Hn. destruct (pow_le_one base n Hb ltac:(lia)) as (r & Hr & Hle). exists r. split; [done|]. split; [|done].
  unfold _decPow. rewrite (proj2 (Z.ltb_ge _ _)) by lia. unfold Decimal.pow in Hr.
  rewrite (proj2 (Z.leb_le 0 n)), (proj2 (Z.leb_le n 4294967295)) in Hr by lia. cbn [andb js_assert bind] in Hr.
  destruct (Z.eqb_spec n 0); [injection Hr as <-; by rewrite bn_ONE, DECIMAL_PRECISION_DIGITS|].
  pose proof DIGITS_pos. bn_pos. rewrite DECIMAL_PRECISION_DIGITS, decPow_loop_pow by (lia || (apply small_uint; lia)).
  cbn [bind]. destruct (Z.eqb_spec n 1) as [->|].
  - injection Hr as <-. simpl. rewrite decMul_rounded by lia. by rewrite roundedMul_one.
  - pose proof (pow_loop_unit (Z.to_nat (Z.log2 n)) n (bn base) DIGITS ltac:(lia) ltac:(lia)) as [Bx By].
    destruct (Decimal.pow_loop _ _ _ _) as [x y]. cbn [fst snd] in *. rewrite decMul_rounded by done.
    f_equal. by apply new_Decimal_Ok in Hr.
Qed.

(** Exponentiation in the SDK and in the contracts is the same function for
    bases of at most one, up to the contract's cap of a thousand years of minutes. *)
Theorem sdk_pow_is_decPow (base : Decimal) n :
  bn base <= DIGITS -> 0 <= n <= 525600000 ->
  exists r, Decimal.pow base n = Ok r /\ _decPow (bn base) n = Ok (bn r).
Proof. intros. destruct (decPow_pow base n) as (r & ? & ? & _); [done..|]. by exists r. Qed.

Lemma sdk_pow_is_decPow_witness :
  exists r, Decimal.pow (dec 999037758833783000) 720 = Ok r /\ _decPow (bn (dec 999037758833783000)) 720 = Ok (bn r).
Proof. apply sdk_pow_is_decPow; [vm_compute; discriminate | lia]. Defined.

(** ** Reading the storage

    The contract reads of a connection, at a block, are those of the storage. *)

Definition status_num (st : Status) : N :=
  match st with
  | nonExistent_ => 0 | active_ => 1 | closedByOwner_ => 2 | closedByLiquidation_ => 3 | closedByRedemption_ => 4
  end.

Record reads_storage (c : Contracts) (tag : option BlockTag) (s : System) : Prop := {
  read_L_ETH : L_ETH c tag = Ok (Z.to_N (ChainState.L_ETH (manager s)));
  read_L_ZUSDDebt : L_ZUSDDebt c tag = Ok (Z.to_N (ChainState.L_ZUSDDebt (manager s)));
  read_trove : forall a, Troves c a tag =
    let t := trove (manager s) a in
    Ok (mkBackendTrove (Z.to_N (t_debt t)) (Z.to_N (t_coll t)) (Z.to_N (t_stake t)) (status_num (t_status t)));
  read_snapshot : forall a, rewardSnapshots c a tag =
    let r := snapshot (manager s) a in
    Ok (mkSnapshot (Z.to_N (snapshot_ETH r)) (Z.to_N (snapshot_ZUSDDebt r)));
  read_lastFeeOperationTime : lastFeeOperationTime c tag = Ok (Z.to_N (ChainState.lastFeeOperationTime (manager s)));
  read_baseRate : contract_baseRate c tag = Ok (Z.to_N (ChainState.baseRate (manager s)));
  read_active_ETH : activePool_getETH c tag = Ok (Z.to_N (pool_ETH (active_pool s)));
  read_active_debt : activePool_getZUSDDebt c tag = Ok (Z.to_N (pool_ZUSDDebt (active_pool s)));
  read_default_ETH : defaultPool_getETH c tag = Ok (Z.to_N (pool_ETH (default_pool s)));
  read_default_debt : defaultPool_getZUSDDebt c tag = Ok (Z.to_N (pool_ZUSDDebt (default_pool s))) }.

(** Every number in the storage is a word. *)
Record words (s : System) : Prop := {
  word_L_ETH : is_uint (ChainState.L_ETH (manager s));
  word_L_ZUSDDebt : is_uint (ChainState.L_ZUSDDebt (manager s));
  word_trove : forall a, let t := trove (manager s) a in is_uint (t_debt t) /\ is_uint (t_coll t) /\ is_uint (t_stake t);
  word_snapshot : forall a, let r := snapshot (manager s) a in is_uint (snapshot_ETH r) /\ is_uint (snapshot_ZUSDDebt r);
  word_time : is_uint (ChainState.lastFeeOperationTime (manager s));
  word_baseRate : is_uint (ChainState.baseRate (manager s));
  word_active : is_uint (pool_ETH (active_pool s)) /\ is_uint (pool_ZUSDDebt (active_pool s));
  word_default : is_uint (pool_ETH (default_pool s)) /\ is_uint (pool_ZUSDDebt (default_pool s)) }.

(** ** Pending redistributions and ratios *)

Lemma pending_value m a term snap p :
  is_uint term -> is_uint snap -> is_uint (t_stake (trove m a)) -> is_active m a = true ->
  pending m a term snap = Ok p ->
  p = Z.max 0 (term - snap) * t_stake (trove m a) / DIGITS /\ is_uint p /\ snap <= term.
Proof.
  intros Ut Us Uk A H. unfold pending in H. apply bind_Ok_inv in H as (x & Hx & H).
  apply sub_Ok in Hx as (-> & L & U); [|done..]. rewrite A, orb_false_r in H.
  destruct (Z.eqb_spec (term - snap) 0) as [E|E].
  - injection H as <-. rewrite E. split_and!; [done|word_literal|done].
  - apply bind_Ok_inv in H as (n & Hn & H). apply mul_Ok in Hn as [-> Un]; [|done..].
    apply div_Ok in H as (-> & _ & Ud); [|done]. rewrite <- DECIMAL_PRECISION_DIGITS, Z.max_r by lia.
    split_and!; [by rewrite (Z.mul_comm (term - snap))|done..].
Qed.

Lemma amounts_value s a c d : words s -> is_active (manager s) a = true ->
  _getCurrentTroveAmounts (manager s) a = Ok (c, d) ->
  let m := manager s in let t := trove m a in let r := snapshot m a in
  c = t_coll t + Z.max 0 (ChainState.L_ETH m - snapshot_ETH r) * t_stake t / DIGITS /\
  d = t_debt t + Z.max 0 (ChainState.L_ZUSDDebt m - snapshot_ZUSDDebt r) * t_stake t / DIGITS /\
  is_uint c /\ is_uint d.
Proof.
  intros W A H m t r. destruct (word_trove _ W a) as (Wd & Wc & Wk). destruct (word_snapshot _ W a) as (We & Wz).
  unfold _getCurrentTroveAmounts in H. inv_ok.
  unfold _getPendingETHReward in Hok. unfold _getPendingZUSDDebtReward in Hok0.
  apply pending_value in Hok as (-> & Up & _); [|apply W|done..].
  apply pending_value in Hok0 as (-> & Uq & _); [|apply W|done..].
  apply add_Ok in Hok1 as [-> U1]; [|done..]. apply add_Ok in Hok2 as [-> U2]; done.
Qed.

Lemma raw_bn n : 0 <= n -> mkDecimal (Z.to_N n) = dec n. Proof. done. Qed.

(** What [getTrove] reads from the storage of an active Trove. *)
Lemma getTrove_storage con s a overrides c d :
  reads_storage (_contracts con) (call_overrides overrides) s -> words s ->
  is_active (manager s) a = true -> _getCurrentTroveAmounts (manager s) a = Ok (c, d) ->
  ReadableEthersLiquity.getTrove con (Some a) overrides = Ok (mkUserTrove (mkTrove (dec c) (dec d)) a open).
Proof.
  intros R W A H. destruct (amounts_value s a c d W A H) as (-> & -> & Uc & Ud).
  destruct (word_trove _ W a) as (Wd & Wc & Wk). destruct (word_snapshot _ W a) as (We & Wz).
  pose proof (word_L_ETH _ W) as WL. pose proof (word_L_ZUSDDebt _ W) as WZ.
  unfold ReadableEthersLiquity.getTrove, ReadableEthersLiquity.getTroveBeforeRedistribution,
    ReadableEthersLiquity.getTotalRedistributed, ReadableEthersLiquity.address_or_user, _getContracts.
  rewrite bind_Ok, (read_trove _ _ _ R), (read_snapshot _ _ _ R), (read_L_ETH _ _ _ R), (read_L_ZUSDDebt _ _ _ R).
  cbn [bind bt_status bt_coll bt_debt bt_stake snap_ETH snap_ZUSDDebt].
  unfold is_active in A. apply bool_decide_eq_true in A. rewrite A. cbn [status_num].
  change (userTroveStatusFrom 1) with (Ok open : result UserTroveStatus). cbn [N.eqb BackendTroveStatus_active Pos.eqb bind].
  autorewrite with zero. cbn [bind].
  match goal with |- UserTrove.applyRedistribution ?p ?t = _ =>
    destruct (applyRedistribution_eq p t) as (tr & -> & Hc & Hd) end.
  cbn [pending_user UserTrove.new_Pending UserTrove.new_UserTrove ownerAddress status default from_option id user_trove
       collateral debt stake snapshotOfTotalRedistributed] in *.
  f_equal. destruct tr as [tc td]. cbn [collateral debt] in *. unfold is_uint in *.
  f_equal. f_equal; apply bn_inj; rewrite bn_dec by lia.
  - rewrite Hc. rewrite !raw_bn by lia. by rewrite !bn_dec by lia.
  - rewrite Hd. rewrite !raw_bn by lia. by rewrite !bn_dec by lia.
Qed.

Lemma computeNominalCR_ratio c d r : is_uint c -> is_uint d -> _computeNominalCR c d = Ok r ->
  Trove._nominalCollateralRatio (mkTrove (dec c) (dec d)) = Ok (dec r).
Proof.
  intros Uc Ud H. unfold Trove._nominalCollateralRatio. cbn [collateral debt]. autorewrite with zero.
  assert (bn NOMINAL_COLLATERAL_RATIO_PRECISION = NICR_PRECISION) as E by reflexivity. rewrite E.
  unfold is_uint in *. rewrite !bn_dec by lia. unfold _computeNominalCR in H. destruct (Z.ltb_spec 0 d).
  - inv_ok. apply mul_Ok in Hok as [-> U]; [|done|word_literal]. apply div_Ok in H as (-> & _ & _); [|done].
    by rewrite (proj2 (Z.eqb_neq _ _)) by lia.
  - rewrite (proj2 (Z.eqb_eq d 0)) by lia. injection H as <-. done.
Qed.

(** C30: for an active Trove, [getTrove] of the SDK returns the collateral and debt the
    contract computes with pending redistributions, and the nominal ratio the
    SDK sorts and hints by is the contract's [getNominalICR]. *)
Theorem sdk_trove_is_chain_trove con s a overrides c d r :
  reads_storage (_contracts con) (call_overrides overrides) s -> words s ->
  is_active (manager s) a = true -> _getCurrentTroveAmounts (manager s) a = Ok (c, d) ->
  TroveManager.getNominalICR (manager s) a = Ok r ->
  ReadableEthersLiquity.getTrove con (Some a) overrides = Ok (mkUserTrove (mkTrove (dec c) (dec d)) a open) /\
  Trove._nominalCollateralRatio (mkTrove (dec c) (dec d)) = Ok (dec r).
Proof.
  intros R W A H N. split; [by apply (getTrove_storage con s)|].
  destruct (amounts_value s a c d W A H) as (_ & _ & Uc & Ud).
  unfold TroveManager.getNominalICR in N. rewrite H in N. by apply computeNominalCR_ratio.
Qed.

(** ** Recovery mode and fees *)

Lemma add_pools a b c : is_uint a -> is_uint b -> SafeMath.add a b = Ok c -> 0 <= a /\ 0 <= b /\ c = a + b /\ is_uint c.
Proof. intros Ua Ub H. apply add_Ok in H as [-> U]; [|done..]. unfold is_uint in *. lia. Qed.

Lemma computeCR_ratio c d price r : is_uint c -> is_uint d -> is_uint price -> _computeCR c d price = Ok r ->
  Trove.collateralRatio (mkTrove (dec c) (dec d)) (dec price) = Ok (dec r) /\ 0 <= r.
Proof.
  intros Uc Ud Up H. unfold Trove.collateralRatio. cbn [collateral debt]. autorewrite with zero.
  unfold is_uint in *. rewrite !bn_dec by lia. unfold _computeCR in H. destruct (Z.ltb_spec 0 d).
  - inv_ok. apply mul_Ok in Hok as [-> U]; [|done..]. apply div_Ok in H as (-> & _ & V); [|done].
    rewrite (proj2 (Z.eqb_neq _ _)) by lia. split; [done|apply V].
  - rewrite (proj2 (Z.eqb_eq d 0)) by lia. injection H as <-. split; [done|]. vm_compute. discriminate.
Qed.

Lemma getTotal_storage con s overrides coll debt :
  reads_storage (_contracts con) (call_overrides overrides) s -> words s ->
  getEntireSystemColl s = Ok coll -> getEntireSystemDebt s = Ok debt ->
  ReadableEthersLiquity.getTotal con overrides = Ok (mkTrove (dec coll) (dec debt)) /\ is_uint coll /\ is_uint debt.
Proof.
  intros R W Hc Hd. destruct (word_active _ W) as [A1 A2]. destruct (word_default _ W) as [D1 D2].
  apply add_pools in Hc as (? & ? & -> & Uc); [|done..]. apply add_pools in Hd as (? & ? & -> & Ud); [|done..].
  split; [|done].
  unfold ReadableEthersLiquity.getTotal, ReadableEthersLiquity._getActivePool, ReadableEthersLiquity._getDefaultPool, _getContracts.
  rewrite (read_active_ETH _ _ _ R), (read_active_debt _ _ _ R), (read_default_ETH _ _ _ R), (read_default_debt _ _ _ R).
  cbn [bind]. autorewrite with zero. cbn [bind]. unfold Trove.add. cbn [collateral debt]. autorewrite with zero. cbn [bind].
  rewrite !raw_bn by lia. f_equal. f_equal; f_equal; by rewrite !bn_dec by lia.
Qed.

(** The parameters that the SDK has as constants.  LiquityBaseParams.sol starts with the same critical ratio but with a lower
    floor and a lower maximum of the borrowing fee, which its owner may set. *)
Definition sdk_params (p : Params) : Prop :=
  CCR p = bn CRITICAL_COLLATERAL_RATIO /\ BORROWING_FEE_FLOOR p = bn MINIMUM_BORROWING_RATE /\
  MAX_BORROWING_FEE p = bn MAXIMUM_BORROWING_RATE.

Lemma recovery_storage con s overrides price b :
  reads_storage (_contracts con) (call_overrides overrides) s -> words s -> is_uint price ->
  CCR (params s) = bn CRITICAL_COLLATERAL_RATIO -> _checkRecoveryMode s price = Ok b ->
  exists total, ReadableEthersLiquity.getTotal con overrides = Ok total /\
    Trove.collateralRatioIsBelowCritical total (dec price) = Ok b.
Proof.
  intros R W Up P H. unfold _checkRecoveryMode, _getTCR in H. inv_ok.
  destruct (getTotal_storage con s overrides a0 a1 R W) as (-> & U0 & U1); [done..|].
  eexists. split; [done|]. unfold Trove.collateralRatioIsBelowCritical.
  destruct (computeCR_ratio a0 a1 price a U0 U1 Up Hok) as [-> L]. cbn [bind]. autorewrite with zero.
  by rewrite bn_dec, P.
Qed.

Lemma decayed_rate s now rate :
  words s -> is_uint now ->
  now - ChainState.lastFeeOperationTime (manager s) <= 525600000 * 60 ->
  _calcDecayedBaseRate (manager s) now = Ok rate ->
  forall f, _baseRateWithoutDecay f = dec (ChainState.baseRate (manager s)) ->
    _minuteDecayFactor f = EthersReadable.MINUTE_DECAY_FACTOR ->
    _lastFeeOperation f = convertToDate (ChainState.lastFeeOperationTime (manager s)) ->
    _timeOfLatestBlock f = convertToDate now ->
    Fees.baseRate f None = Ok (dec rate) /\ is_uint rate.
Proof.
  intros W Un Hm H f Ef Ed El Et. pose proof (word_time _ W) as Wt. pose proof (word_baseRate _ W) as Wb.
  unfold _calcDecayedBaseRate, _minutesPassedSinceLastFeeOp in H. inv_ok.
  match goal with H : SafeMath.sub _ _ = Ok _ |- _ => apply sub_Ok in H as (-> & L & U); [|done..] end.
  match goal with H : SafeMath.div _ SECONDS_IN_ONE_MINUTE = Ok _ |- _ => apply div_Ok in H as (-> & _ & Ud); [|done] end.
  set (n := (now - ChainState.lastFeeOperationTime (manager s)) / SECONDS_IN_ONE_MINUTE) in *.
  assert (0 <= n <= 525600000) as Hn.
  { split; [apply Ud|]. unfold n, SECONDS_IN_ONE_MINUTE. apply div_le_iff; lia. }
  assert (Fees.minutesSinceLastFeeOperation f None = n) as En.
  { unfold Fees.minutesSinceLastFeeOperation. cbn [default]. rewrite Et, El. unfold convertToDate. cbn [from_option id].
    rewrite Z.max_l by lia. unfold n, SECONDS_IN_ONE_MINUTE.
    replace (now * 1000 - _ * 1000) with ((now - ChainState.lastFeeOperationTime (manager s)) * 1000) by lia.
    change 60000 with (60 * 1000). by rewrite Z.div_mul_cancel_r by lia. }
  assert (bn EthersReadable.MINUTE_DECAY_FACTOR = TroveManager.MINUTE_DECAY_FACTOR) as EM by reflexivity.
  destruct (decPow_pow EthersReadable.MINUTE_DECAY_FACTOR n) as (p & Hp & Hq & Hle);
    [rewrite DIGITS_eq; vm_compute; discriminate|done|].
  rewrite EM in Hq. unfold Fees.baseRate. rewrite Ed, En, Hp. cbn [bind]. rewrite Hq in *.
  simplify_eq. bn_pos. pose proof DIGITS_eq.
  match goal with H : SafeMath.mul _ _ = Ok _ |- _ => apply mul_Ok in H as (-> & U2); [|done|apply small_uint; lia] end.
  match goal with H : SafeMath.div _ _ = Ok _ |- _ => apply div_Ok in H as (-> & _ & U3); [|done] end.
  rewrite Ef, DecimalFacts.mul_decimal, bn_dec, DECIMAL_PRECISION_DIGITS by (apply Wb).
  split; [by rewrite Z.mul_comm|]. by rewrite <- DECIMAL_PRECISION_DIGITS.
Qed.

(** The rate that the SDK computes from a base rate. *)
Definition quoted (base : Z) : Z := Z.min (bn MINIMUM_BORROWING_RATE + base) (bn MAXIMUM_BORROWING_RATE).

Lemma quoted_rate base : 0 <= base ->
  (let! x := Decimal.add MINIMUM_BORROWING_RATE (dec base) in Decimal.min x MAXIMUM_BORROWING_RATE) = Ok (dec (quoted base)).
Proof.
  intros L. autorewrite with zero. cbn [bind]. pose proof (bn_nonneg MINIMUM_BORROWING_RATE). f_equal. f_equal. rewrite !bn_dec by (rewrite ?bn_dec; lia).
  unfold quoted. lia.
Qed.

(** What the contract charges with the parameters of the SDK, and with those it starts with. *)
Lemma quoted_charged p base r : is_uint base -> sdk_params p -> _calcBorrowingRate p base = Ok r -> r = quoted base.
Proof.
  intros U (_ & F & M) H. unfold _calcBorrowingRate in H. inv_ok. rewrite F in *.
  apply add_Ok in Hok as [-> _]; [|word_literal|done]. unfold quoted, _min. rewrite M. case_Zb; lia.
Qed.

Lemma quoted_above base r : is_uint base -> _calcBorrowingRate initial_params base = Ok r -> 0 <= r < quoted base.
Proof.
  intros U H. assert (0 <= base) by apply U. unfold _calcBorrowingRate in H. inv_ok. apply add_Ok in Hok as [-> _]; [|word_literal|done].
  assert (bn MINIMUM_BORROWING_RATE = 50000000000000000) as Em by reflexivity. assert (bn MAXIMUM_BORROWING_RATE = 75000000000000000) as EM by reflexivity.
  assert (BORROWING_FEE_FLOOR initial_params = 5000000000000000) as F by reflexivity. assert (DECIMAL_PRECISION / 100 * 5 = 50000000000000000) as M by reflexivity.
  unfold quoted, _min. rewrite Em, EM, F, M. case_Zb; lia.
Qed.

Lemma quoted_storage con s overrides price now b base :
  reads_storage (_contracts con) (call_overrides overrides) s -> words s -> CCR (params s) = bn CRITICAL_COLLATERAL_RATIO ->
  is_uint price -> fetchPrice (_contracts con) (call_overrides overrides) = Ok (Z.to_N price) ->
  is_uint now -> _getBlockTimestamp con (call_overrides overrides) = Ok now ->
  ChainState.lastFeeOperationTime (manager s) <= 9007199254740991 ->
  now - ChainState.lastFeeOperationTime (manager s) <= 525600000 * 60 ->
  _checkRecoveryMode s price = Ok b -> _calcDecayedBaseRate (manager s) now = Ok base ->
  is_uint base /\ exists fees, ReadableEthersLiquity.getFees con overrides = Ok fees /\
    Fees.borrowingRate fees None = Ok (if b then Decimal.ZERO else dec (quoted base)).
Proof.
  intros R W P Up Hp Un Ht Hl Hm Hb Hd. destruct (recovery_storage con s overrides price b) as (total & Et & Er); [done..|].
  set (f := mkFees (dec (ChainState.baseRate (manager s))) EthersReadable.MINUTE_DECAY_FACTOR EthersReadable.BETA
    (convertToDate (ChainState.lastFeeOperationTime (manager s))) (convertToDate now) b).
  destruct (decayed_rate s now base W Un Hm Hd f) as [E U]; [done..|]. split; [done|]. exists f. split.
  - pose proof (word_time _ W) as [W0 _]. pose proof (word_baseRate _ W) as [B0 _]. destruct Up as [P0 _].
    unfold ReadableEthersLiquity.getFees, ReadableEthersLiquity._getFeesFactory, ReadableEthersLiquity.getPrice, _getContracts.
    rewrite (read_lastFeeOperationTime _ _ _ R), (read_baseRate _ _ _ R), Hp, Ht, Et. cbn [bind].
    autorewrite with zero. cbn [bind]. autorewrite with zero. cbn [bind]. rewrite !raw_bn, Er by done. cbn [bind].
    unfold toNumber. rewrite Z2N.id by done. rewrite (proj2 (Z.leb_le _ _)) by done. cbn [bind].
    rewrite new_Fees_decimal. by rewrite (proj2 (Z.ltb_lt _ _)) by (rewrite DIGITS_eq; vm_compute; reflexivity).
  - unfold Fees.borrowingRate. cbn [_recoveryMode f]. destruct b; [done|]. rewrite E. cbn [bind]. apply quoted_rate, U.
Qed.

(** The borrowing rate the SDK quotes is the contract's rate with decay, or zero
    in recovery mode, when the contract's parameters are the SDK's constants. *)
Theorem sdk_borrowing_rate con s overrides price now b r :
  reads_storage (_contracts con) (call_overrides overrides) s -> words s -> sdk_params (params s) ->
  is_uint price -> fetchPrice (_contracts con) (call_overrides overrides) = Ok (Z.to_N price) ->
  is_uint now -> _getBlockTimestamp con (call_overrides overrides) = Ok now ->
  ChainState.lastFeeOperationTime (manager s) <= 9007199254740991 ->
  now - ChainState.lastFeeOperationTime (manager s) <= 525600000 * 60 ->
  _checkRecoveryMode s price = Ok b -> getBorrowingRateWithDecay s now = Ok r ->
  exists fees, ReadableEthersLiquity.getFees con overrides = Ok fees /\
    Fees.borrowingRate fees None = Ok (if b then Decimal.ZERO else dec r).
Proof.
  intros R W P Up Hp Un Ht Hl Hm Hb Hr. unfold getBorrowingRateWithDecay in Hr. apply bind_Ok_inv in Hr as (base & Hd & Hr).
  destruct (quoted_storage con s overrides price now b base) as (U & fees & Hf & Hq); try done; [apply P|]. exists fees. split; [done|].
  by rewrite (quoted_charged _ _ _ U P Hr).
Qed.

(** ** The list of Troves *)

(** What MultiTroveGetter reads of SortedTroves. *)
Definition lists_of (d : Data) (troves : address -> BackendTrove) (snapshots : address -> RewardSnapshot) : TroveLists :=
  mkTroveLists (Z.to_nat (size d)) (data_head d) (data_tail d)
    (fun a => nextId (node d a)) (fun a => prevId (node d a)) troves snapshots.

Lemma rep_represents d l troves snapshots : rep d l -> represents (lists_of d troves snapshots) l.
Proof.
  intros R. split; simpl.
  - rewrite (rep_length _ _ R). apply Nat2Z.id.
  - intros a Ha. rewrite (rep_hd _ _ R). by destruct l; simplify_eq/=.
  - intros a Ha. rewrite (rep_tl _ _ R). exact (f_equal (default address0) Ha).
  - intros i a b Ha Hb. apply list_elem_of_split_length in Ha as (l1 & l2 & -> & ->).
    rewrite (rep_node _ _ R l1 a l2 eq_refl). cbn [nextId].
    rewrite lookup_app_r in Hb by lia. replace (S (length l1) - length l1)%nat with 1%nat in Hb by lia.
    by destruct l2; simplify_eq/=.
  - intros i a b Ha Hb. apply list_elem_of_split_length in Hb as (l1 & l2 & -> & Hl).
    rewrite (rep_node _ _ R l1 b l2 eq_refl). cbn [prevId].
    rewrite lookup_app_l in Ha by lia. replace i with (pred (length l1)) in Ha by (change string with address in *; lia).
    unfold last0. rewrite last_lookup. exact (f_equal (default address0) Ha).
Qed.

(** C17: After any history of calls that insert, remove and re-insert nodes in
    SortedTroves, by any callers with any hints, between which the ratios of the listed
    Troves may change as long as their order is kept (which the contract relies on), the
    Troves the SDK lists are a page of a list of all of them without repetition, in
    descending order of their current ratios, or of its reverse. The page starts at
    [startingAt], zero when it is not given, and has at most [first] Troves; each is as
    MultiTroveGetter returns it, and with what was redistributed applied to it unless
    the caller asks for it before redistribution. *)
Theorem sdk_lists_sorted_troves con owner bo tm n nicr0 ops s nicr troves snapshots e count start_ (descending before : bool) :
  let lists := lists_of (data s) troves snapshots in
  fold_left list_step ops (mkSortedTroves owner bo tm (empty_data n), nicr0) = (s, nicr) ->
  (forall i k, getMultipleSortedTroves (_contracts con) i k (call_overrides e)
               = Ok (MultiTroveGetter.multi_getMultipleSortedTroves lists i k)) ->
  0 <= count -> 0 <= default 0 start_ ->
  exists l, NoDup l /\ ordered nicr l /\ (forall a, a ∈ l <-> contains (data s) a = true) /\
  let page := map (fun a => pending_of (MultiTroveGetter.combined lists a))
                (take (Z.to_nat count) (drop (Z.to_nat (default 0 start_)) (if descending then l else reverse l))) in
  ReadableEthersLiquity.getTroves con
    (mkListing (Int count) (if descending then "descendingCollateralRatio" else "ascendingCollateralRatio")
       (option_map Int start_) before) e
  = if before then Ok (map Pending page)
    else let! total := ReadableEthersLiquity.getTotalRedistributed con e in traverse (fun t => apply_listed total (Pending t)) page.
Proof.
  intros lists Hops Hget Hc Hs. pose proof (reachable_sorted owner bo tm n nicr0 ops) as H.
  rewrite Hops in H. destruct H as (l & R & O & _). cbn [fst snd] in *. exists l. split_and!; [apply R|done| |].
  - intros a. rewrite (contains_rep _ l) by done. by rewrite bool_decide_eq_true.
  - apply getTroves_lists; [by apply rep_represents|done..].
Qed.

(** Three insertions with useless hints, a removal, rewards that halve the ratios and a re-insertion. *)
Definition sample_ops : list list_op :=
  [Insert "BO" "a" 100 address0 address0; Insert "BO" "b" 300 "x" "a"; Insert "BO" "c" 200 "a" "b";
   Insert "EOA" "d" 50 address0 address0; Remove "TM" "a"; Drift (fun a => if String.eqb a "b" then 150 else 100); ReInsert "BO" "b" 75 address0 address0]%string.

Definition sample_list_state : SortedTroves * (address -> Z) :=
  fold_left list_step sample_ops (mkSortedTroves "owner" "BO" "TM" (empty_data 10), fun _ => 0).

Lemma sdk_lists_sorted_troves_witness :
  let s := fst sample_list_state in
  let lists := lists_of (data s) (fun _ => mkBackendTrove 200 5 5 1) (fun _ => mkSnapshot 0 0) in
  let c := mkConnection sample_provider None
    (contracts_listing (fun i k _ => Ok (MultiTroveGetter.multi_getMultipleSortedTroves lists i k))) None 0
    sample_deployment None None None in
  data_head (data s) = "c"%string /\ data_tail (data s) = "b"%string /\
  exists l, NoDup l /\ ordered (snd sample_list_state) l /\
  (forall a, a ∈ l <-> contains (data s) a = true) /\
  ReadableEthersLiquity.getTroves c
    (mkListing (Int 2) "descendingCollateralRatio" None true) None
  = Ok (map Pending (map (fun a => pending_of (MultiTroveGetter.combined lists a)) (take (Z.to_nat 2) (drop (Z.to_nat 0) l)))).
Proof.
  intros s lists c. split; [vm_compute; reflexivity|]. split; [vm_compute; reflexivity|].
  apply (sdk_lists_sorted_troves c "owner" "BO" "TM" 10 (fun _ => 0) sample_ops s (snd sample_list_state)
           (fun _ => mkBackendTrove 200 5 5 1) (fun _ => mkSnapshot 0 0) None 2 None true true);
    [unfold s, sample_list_state; apply surjective_pairing | reflexivity | lia | cbn; lia].
Defined.

(** ** A storage with two Troves *)

(** Reads answered from the storage; the price is 30,000. *)
Definition storage_contracts (s : System) : Contracts :=
  let zero_of (_ : string) (_ : option BlockTag) := Ok 0%N in
  let zero (_ : option BlockTag) := Ok 0%N in
  let m := manager s in
  {| L_ETH := fun _ => Ok (Z.to_N (ChainState.L_ETH m));
     L_ZUSDDebt := fun _ => Ok (Z.to_N (ChainState.L_ZUSDDebt m));
     Troves := fun a _ => let t := trove m a in
       Ok (mkBackendTrove (Z.to_N (t_debt t)) (Z.to_N (t_coll t)) (Z.to_N (t_stake t)) (status_num (t_status t)));
     rewardSnapshots := fun a _ => let r := snapshot m a in
       Ok (mkSnapshot (Z.to_N (snapshot_ETH r)) (Z.to_N (snapshot_ZUSDDebt r)));
     getTroveOwnersCount := fun _ => Ok (N.of_nat (length (TroveOwners m)));
     lastFeeOperationTime := fun _ => Ok (Z.to_N (ChainState.lastFeeOperationTime m));
     contract_baseRate := fun _ => Ok (Z.to_N (ChainState.baseRate m));
     fetchPrice := fun _ => Ok (Z.to_N 30000000000000000000000);
     activePool_getETH := fun _ => Ok (Z.to_N (pool_ETH (active_pool s)));
     activePool_getZUSDDebt := fun _ => Ok (Z.to_N (pool_ZUSDDebt (active_pool s)));
     defaultPool_getETH := fun _ => Ok (Z.to_N (pool_ETH (default_pool s)));
     defaultPool_getZUSDDebt := fun _ => Ok (Z.to_N (pool_ZUSDDebt (default_pool s)));
     deposits := fun _ _ => Ok ("0x00"%string, 0%N);
     getCompoundedZUSDDeposit := zero_of; getDepositorETHGain := zero_of;
     getDepositorZEROGain := zero_of; getTotalZUSDDeposits := zero;
     frontEnds := fun _ _ => Ok (false, 0%N); ZEROSupplyCap := Ok 0%N; totalZEROIssued := zero;
     zusdToken_balanceOf := zero_of; zeroToken_balanceOf := zero_of;
     collSurplusPool_getCollateral := zero_of; getMultipleSortedTroves := fun _ _ _ => Ok [];
     zeroStaking_stakes := zero_of; getPendingETHGain := zero_of; getPendingZUSDGain := zero_of;
     totalZEROStaked := zero |}.

Lemma storage_contracts_reads s tag : reads_storage (storage_contracts s) tag s.
Proof. by split. Qed.

Definition sample_manager : Manager :=
  mkManager 20000000000000000 1600000000
    {[ "0xA"%string := mkChainTrove (5000 * 10 ^ 18) (10 ^ 18) (10 ^ 18) active_ 0;
       "0xB"%string := mkChainTrove (3000 * 10 ^ 18) (2 * 10 ^ 18) (2 * 10 ^ 18) active_ 1 ]}
    (3 * 10 ^ 18) 0 0 (10 ^ 16) (2 * 10 ^ 18)
    {[ "0xA"%string := mkChainSnapshot (10 ^ 15) (10 ^ 18) ]} ["0xA"%string; "0xB"%string] 0 0.

Definition sample_system : System :=
  mkSystem (mkWiring "0xBO" "0xTM" "0xSP" "0xAP" "0xDP" "0xST" "0xCS" "0xGP" "0xFD" "0xZT" "0xZS" "0xFC" "0xMM" "0xZR" "0xLP" "0xCI" "0xFW" 0 0)
    (mkParams 1100000000000000000 1500000000000000000 200 (5 * 10 ^ 16) (19 * 10 ^ 15) (75 * 10 ^ 15))
    sample_manager (mkPool (3 * 10 ^ 18) (8000 * 10 ^ 18)) (mkPool (10 ^ 16) (10 ^ 18))
    (mkSortedTroves "0xOwner" "0xBO" "0xTM" (mkData "0xB" "0xA" 100 2
       {[ "0xA"%string := mkNode true address0 "0xB"; "0xB"%string := mkNode true "0xA" address0 ]}))
    (mkToken (8001 * 10 ^ 18) {[ "0xA"%string := 8001 * 10 ^ 18 ]} ∅ ∅) (mkSurplus 0 ∅) (empty_pool (mkCommunity 0 0 0))
    empty_staking (mkZeroToken ∅ ∅) ∅ 0 (30000 * 10 ^ 18) ∅ ∅.

(** A mapping whose values satisfy a property has it at every key. *)
Lemma gmap_all {A} (P : A -> Prop) (m : gmap address A) (d : A) a :
  P d -> map_Forall (fun _ => P) m -> P (default d (m !! a)).
Proof. intros Hd H. destruct (m !! a) as [x|] eqn:E; [by apply (H a)|done]. Qed.

Lemma sample_words : words sample_system.
Proof.
  split; [word_literal|word_literal| | |word_literal|word_literal|split; word_literal|split; word_literal].
  - intros a t. unfold t, trove.
    apply (gmap_all (fun t => is_uint (t_debt t) /\ is_uint (t_coll t) /\ is_uint (t_stake t)));
      [split_and!; word_literal|]. cbn [Troves manager sample_system sample_manager].
    apply map_Forall_insert_2; [split_and!; word_literal|].
    apply map_Forall_singleton. split_and!; word_literal.
  - intros a r. unfold r, snapshot.
    apply (gmap_all (fun t => is_uint (snapshot_ETH t) /\ is_uint (snapshot_ZUSDDebt t)));
      [split_and!; word_literal|]. apply map_Forall_singleton. split_and!; word_literal.
Qed.

Definition storage_connection (s : System) : EthersLiquityConnection :=
  mkConnection sample_provider None (storage_contracts s) None 0 sample_deployment None None None.

Lemma sdk_trove_is_chain_trove_witness :
  ReadableEthersLiquity.getTrove (storage_connection sample_system) (Some "0xA"%string) None =
    Ok (mkUserTrove (mkTrove (dec 1009000000000000000) (dec 5001000000000000000000)) "0xA" open) /\
  Trove._nominalCollateralRatio (mkTrove (dec 1009000000000000000) (dec 5001000000000000000000)) =
    Ok (dec 20175964807038592).
Proof.
  apply (sdk_trove_is_chain_trove (storage_connection sample_system) sample_system "0xA" None).
  - apply storage_contracts_reads.
  - apply sample_words.
  - vm_compute. reflexivity.
  - vm_compute. reflexivity.
  - vm_compute. reflexivity.
Defined.

Lemma sdk_borrowing_rate_witness :
  exists fees, ReadableEthersLiquity.getFees (storage_connection sample_system) None = Ok fees /\
    Fees.borrowingRate fees None = Ok (dec 69808382949336448).
Proof.
  apply (sdk_borrowing_rate (storage_connection sample_system) sample_system None 30000000000000000000000 1600000600 false).
  - apply storage_contracts_reads.
  - apply sample_words.
  - repeat split.
  - word_literal.
  - reflexivity.
  - word_literal.
  - reflexivity.
  - vm_compute. discriminate.
  - vm_compute. discriminate.
  - vm_compute. reflexivity.
  - vm_compute. reflexivity.
Defined.
