(* ===== verification/SdkPredictions.v ===== *)
(** * The SDK predicts what the contracts do

    Before a transaction is sent, the SDK computes the Trove it will lead to
    ([Trove.create] and [Trove.adjust] with the rate of [getFees]).  Here the prediction is
    compared with the Trove BorrowerOperations stores. *)

From S2P Require Import Prelude Solidity SortedTroves ChainState Outside TroveManager BorrowerOperations Transactions.
From S2P Require Import Invariant InvariantFacts TroveSteps BorrowerSteps BorrowerFacts TransactionFacts.
From S2P Require Import JsString LibDecimal DecimalText LibConstants LibTrove TroveFacts LibFees LibReadable.
From S2P Require Import EthersConnection EthersReadable SdkAgreement.
Import LiquityMath.
Local Open Scope Z_scope.

Lemma inv_words s : inv s -> words s.
Proof.
  intros I. pose proof (i_manager _ _ _ _ I) as M. pose proof (i_pools _ _ _ _ I) as P.
  split; try apply M; try (split; apply P); intros a; pose proof (m_troves _ M a) as T.
  - split_and!; apply T.
  - pose proof (m_L_ETH _ M). pose proof (m_L_debt _ M). destruct (t_snap_eth _ _ T), (t_snap_debt _ _ T). unfold is_uint in *.
    split; lia.
Qed.

(** The fee of the contract is the one the SDK adds. *)
Lemma fee_owed n r fee : is_uint n -> is_uint r -> _calcBorrowingFee r n = Ok fee -> owed (dec r) n = n + fee.
Proof.
  intros Un Ur H. unfold _calcBorrowingFee in H. inv_result. safe_math. destruct Un, Ur.
  unfold owed. rewrite bn_dec by done. rewrite DECIMAL_PRECISION_DIGITS. pose proof DIGITS_pos.
  replace (n * (DIGITS + r)) with (r * n + n * DIGITS) by lia. rewrite Z.div_add by lia. lia.
Qed.

Lemma rate_uint p base r : is_uint base -> params_ok p -> _calcBorrowingRate p base = Ok r -> is_uint r.
Proof.
  intros U [Pf Pm] H. unfold _calcBorrowingRate in H. inv_result. safe_math. unfold _min. by case_match.
Qed.

(** What a borrower sees: the SDK reads this storage, at the time and price of the transaction. *)
Record sees (con : EthersLiquityConnection) (overrides : option EthersCallOverrides) (W : World) (s : System) (price : Z) : Prop := {
  see_storage : reads_storage (_contracts con) (call_overrides overrides) s;
  see_price : EthersConnection.fetchPrice (_contracts con) (call_overrides overrides) = Ok (Z.to_N price);
  see_time : _getBlockTimestamp con (call_overrides overrides) = Ok (now W);
  see_last : ChainState.lastFeeOperationTime (manager s) <= 9007199254740991;
  see_recent : now W - ChainState.lastFeeOperationTime (manager s) <= 525600000 * 60 }.

Section Prediction.
Context (con : EthersLiquityConnection) (overrides : option EthersCallOverrides) (W : World) (Unow : is_uint (now W)).
Context (s : System) (I : inv s) (price : Z) (mode : bool) (r : Z).
Context (V : sees con overrides W s price) (Up : is_uint price).
Context (Hm : _checkRecoveryMode s price = Ok mode) (Hr : getBorrowingRateWithDecay s (now W) = Ok r).

(** The rate the SDK uses. *)
Abbreviation rate := (if mode then Decimal.ZERO else dec r).

(** What the SDK quotes: the rate that is charged, when the contract has the parameters of the SDK, and more with those it starts with. *)
Lemma quoted_fees : CCR (params s) = bn CRITICAL_COLLATERAL_RATIO ->
  exists fees q, ReadableEthersLiquity.getFees con overrides = Ok fees /\ Fees.borrowingRate fees None = Ok q /\
    (sdk_params (params s) -> q = rate) /\ (params s = initial_params -> mode = false -> bn rate < bn q).
Proof.
  intros Hc. pose proof Hr as Hr'. unfold getBorrowingRateWithDecay in Hr'. apply bind_Ok_inv in Hr' as (base & Hb & Hx).
  destruct V. destruct (quoted_storage con s overrides price (now W) mode base) as (Ub & fees & Hf & Hq); try done; [by apply inv_words|].
  exists fees. eexists. split; [done|]. split; [done|]. split.
  - intros P. by rewrite (quoted_charged _ _ _ Ub P Hx).
  - intros E ->. rewrite E in Hx. destruct (quoted_above _ _ Ub Hx) as [L0 L1]. rewrite !bn_dec by lia. done.
Qed.

Lemma predicted_owed n maxFee fee : is_uint n -> charged W s mode n maxFee fee -> owed rate n = n + fee.
Proof.
  intros Un C. destruct mode; cbn in C.
  - subst fee. unfold owed. change (bn Decimal.ZERO) with 0. rewrite !Z.add_0_r. pose proof DIGITS_pos. by rewrite Z.div_mul by lia.
  - destruct C as (base & x & Hb & Hx & Hf & _). unfold getBorrowingRateWithDecay in Hr. rewrite Hb in Hr. cbn [bind] in Hr.
    rewrite Hx in Hr. injection Hr as <-. apply fee_owed; try done.
    apply (rate_uint (params s) base); [by apply (decayed_uint _ _ _ Hb)|apply I|done].
Qed.
End Prediction.

Lemma reserve_compensation : bn ZUSD_LIQUIDATION_RESERVE = ZUSD_GAS_COMPENSATION.
Proof. reflexivity. Qed.

(** The Trove the SDK predicts before opening one, [Trove.create] at the rate that is charged, is the Trove [_openTrove] stores; [getFees]
    quotes that rate when the contract has the parameters of the SDK. *)
Theorem sdk_predicts_open con overrides W recv s price s0 r sender v maxFee n up low rec u s' :
  is_uint (now W) -> inv s -> sees con overrides W s price -> Outside.fetchPrice W s = Ok (price, s0) ->
  getBorrowingRateWithDecay s (now W) = Ok r -> is_uint v -> is_uint n ->
  _openTrove W recv sender v maxFee n up low rec s = Ok (u, s') ->
  exists mode : bool, let rate := if mode then Decimal.ZERO else dec r in _checkRecoveryMode s price = Ok mode /\
    Trove.create (creation_entries (mkCreationParams (dec v) (dec n))) (Some (DDecimal rate)) =
    Ok (mkTrove (dec (t_coll (trove (manager s') sender))) (dec (t_debt (trove (manager s') sender)))) /\
    (sdk_params (params s) -> exists fees, ReadableEthersLiquity.getFees con overrides = Ok fees /\ Fees.borrowingRate fees None = Ok rate).
Proof.
  intros Unow I V Hp Hr Uv Un H. destruct (openTrove_books W recv Unow _ _ _ _ _ _ _ _ _ _ I Uv Un H)
    as (_ & price' & s1 & mode & fee & Hp' & Hc & Hmin & [_ (x & y & k & m & Em) _ _ _ _ Hm _]).
  rewrite Hp in Hp'. injection Hp' as <- <-. destruct (fetchPrice_books _ _ _ _ _ _ _ I Hp) as (Up & _).
  exists mode. cbv zeta. split; [done|]. split.
  2: { intros P. destruct (quoted_fees con overrides W Unow s I price mode r V Up Hm Hr (proj1 P)) as (fees & q & Hf & Hq & E & _). exists fees. split; [done|]. by rewrite <- (E P). }
  unfold Trove.create. rewrite normalize_creation_entries. cbn [bind]. unfold Trove.apply. cbn [Trove.isEmpty creation_borrowZUSD].
  change (Trove.rate_or_minimum (Some ?d)) with d. rewrite applyFee_decimal, bn_dec by apply Un. cbn [bind].
  match goal with |- context [dec (?x / DIGITS)] => change (x / DIGITS) with (owed (if mode then Decimal.ZERO else dec r) n) end.
  rewrite (predicted_owed W s I price mode r Hm Hr n maxFee fee Un Hc).
  rewrite Em, opened_trove, decide_True by done. cbn [t_coll t_debt].
  change (Trove.isEmpty _emptyTrove) with true. cbn [creation_depositCollateral].
  rewrite DecimalFacts.add_decimal, reserve_compensation, bn_dec by (unfold MIN_NET_DEBT in Hmin; lia). cbn [bind]. by rewrite Z.add_comm.
Qed.

(** The arguments of [adjustTrove] for adjustment parameters. *)
Definition deposit_arg (p : TroveAdjustmentParams Decimal) : Z := amount (depositCollateral p).
Definition withdrawal_arg (p : TroveAdjustmentParams Decimal) : Z := amount (withdrawCollateral p).
Definition increase_arg (p : TroveAdjustmentParams Decimal) : bool := match borrowZUSD p with Some _ => true | None => false end.
Definition change_arg (p : TroveAdjustmentParams Decimal) : Z :=
  if increase_arg p then amount (borrowZUSD p) else amount (repayZUSD p).


Lemma amounts_apart (p : TroveAdjustmentParams Decimal) : (depositCollateral p = None \/ withdrawCollateral p = None) /\ (borrowZUSD p = None \/ repayZUSD p = None).
Proof. destruct p as [[]|[]|[] []]; cbn; auto. Qed.

(** C10: The Trove the SDK predicts for an adjustment, [Trove.adjust] of the Trove
    [getTrove] returns at the rate [r] that the contract charges (zero in recovery
    mode), is the Trove [_adjustSenderTrove] stores for the same parameters, for a
    borrower that is none of the contracts and whose rewards in debt are applied
    whenever those in ether are, when the SDK reads the storage, the time and the price
    that the transaction finds and the last fee operation is less than a thousand years
    ago. [getFees] quotes this rate when the contract's critical ratio, fee floor and
    maximal fee are the constants of the SDK (150%, 5% and 7.5%). They are not when the
    contract still has the parameters it was initialised with (0.5% and 5%): outside of
    recovery mode [getFees] then quotes more than the contract charges. *)
Theorem sdk_predicts_adjust con overrides W recv s price s0 r b p up low maxFee rec u s' :
  is_uint (now W) -> inv s -> sees con overrides W s price -> Outside.fetchPrice W s = Ok (price, s0) ->
  getBorrowingRateWithDecay s (now W) = Ok r -> outsider (wiring s) b -> in_step (manager s) b -> params_nonzero p ->
  is_uint (deposit_arg p) -> is_uint (withdrawal_arg p) -> is_uint (change_arg p) ->
  _adjustSenderTrove W recv b (deposit_arg p) b (withdrawal_arg p) (change_arg p) (increase_arg p) up low maxFee rec s = Ok (u, s') ->
  exists s1 (mode : bool) t, let rate := if mode then Decimal.ZERO else dec r in settled recv b s1 u s' /\ _checkRecoveryMode s price = Ok mode /\
    ReadableEthersLiquity.getTrove con (Some b) overrides = Ok (mkUserTrove t b open) /\
    Trove.adjust t (adjustment_entries p) (Some (DDecimal rate)) =
    Ok (mkTrove (dec (t_coll (trove (manager s1) b))) (dec (t_debt (trove (manager s1) b)))) /\
    (sdk_params (params s) -> exists fees, ReadableEthersLiquity.getFees con overrides = Ok fees /\ Fees.borrowingRate fees None = Ok rate) /\
    (params s = initial_params -> mode = false ->
     exists fees q, ReadableEthersLiquity.getFees con overrides = Ok fees /\ Fees.borrowingRate fees None = Ok q /\ bn rate < bn q).
Proof.
  intros Unow I V Hp Hr Ho St Pz U1 U2 U3 H.
  destruct (adjustTrove_books W recv Unow _ _ _ _ _ _ _ _ _ _ _ _ _ I U1 U2 U3 (or_introl Ho) H)
    as (s1 & price' & s2 & mode & fee & Hp' & I1 & S & Pf & Hc & [A (c0 & d0 & Ha & Ec & Ed) _ _ _ _ _ Hm _] & _).
  rewrite (applied_in_step _ _ (i_manager _ _ _ _ I) A St) in Ha.
  rewrite Hp in Hp'. injection Hp' as <- <-. destruct (fetchPrice_books _ _ _ _ _ _ _ I Hp) as (Up & _).
  pose proof (quoted_fees con overrides W Unow s I price mode r V Up Hm Hr) as Q.
  pose proof (inv_words s I) as Ws. destruct (amounts_value s b c0 d0 Ws A Ha) as (_ & _ & Uc & Ud).
  exists s1, mode. eexists. cbv zeta. split; [done|]. split; [done|].
  split; [by apply (getTrove_storage con s); [apply V|..]|]. split.
  2: { split.
       - intros P. destruct (Q (proj1 P)) as (fees & q & Hf & Hq & E & _). exists fees. split; [done|]. by rewrite <- (E P).
       - intros E M. destruct Q as (fees & q & Hf & Hq & _ & L); [by rewrite E|]. exists fees, q. split_and!; [done|done|]. by apply L. }
  unfold Trove.adjust. rewrite normalize_adjustment_entries by done. cbn [bind]. rewrite apply_adjustment.
  destruct (decide (None = Some ZeroCollateral)); [done|]. destruct (decide (None = Some ZeroDebt)); [done|]. cbn [collateral debt].
  rewrite !bn_dec by (apply Uc || apply Ud).
  pose proof (t_coll_uint _ _ (m_troves _ (i_manager _ _ _ _ I1) b)) as Uc1.
  pose proof (t_debt_uint _ _ (m_troves _ (i_manager _ _ _ _ I1) b)) as Ud1.
  f_equal. f_equal; f_equal.
  - rewrite Ec in *. unfold deposit_arg, withdrawal_arg in *. unfold is_uint in *. lia.
  - rewrite Ed in *. unfold change_arg, increase_arg in *. destruct (amounts_apart p) as [_ E].
    destruct (borrowZUSD p) as [x|]; cbn [signed] in *.
    + destruct E as [E|E]; [done|rewrite E in *]. cbn [andb] in Hc. rewrite negb_involutive in Hc. change (amount None) with 0.
      rewrite (predicted_owed W s I price mode r Hm Hr _ maxFee fee U3 Hc). unfold is_uint in *. lia.
    + cbn in Hc. change (amount None) with 0. rewrite owed_zero. unfold is_uint in *. lia.
Qed.

(** ** Concrete predictions *)

Definition sdk_sample_params : Params :=
  mkParams 1100000000000000000 1500000000000000000 200 (5 * 10 ^ 16) (19 * 10 ^ 15) (75 * 10 ^ 15).
Definition sdk_sample_world : World :=
  mkWorld 1600000600 (latestAnswer sample_world) (transferTokens sample_world) (transferRBTC sample_world) (mintTo sample_world)
    (dllr_balanceOf sample_world) (transferWithPermit sample_world) (redeemTo sample_world) 10.
Definition sdk_sample_fresh : System :=
  genesis sample_wiring sdk_sample_params 1000 (10 ^ 17) (20000 * 10 ^ 18) 1600000000 sample_community ∅ sample_sent ∅.
Definition sdk_sample_two : System :=
  history 0 (take 3 sample_txs) (genesis sample_wiring sdk_sample_params 1000 (10 ^ 17) (20000 * 10 ^ 18) 1600000000 sample_community ∅ sample_ether ∅).

Lemma sample_sees s : ChainState.lastFeeOperationTime (manager s) = 1600000000 ->
  sees (storage_connection s) None sdk_sample_world s (30000 * 10 ^ 18).
Proof.
  intros Et. split; rewrite ?Et; [apply storage_contracts_reads|reflexivity|reflexivity|vm_compute; discriminate..].
Qed.

Lemma sdk_predicts_open_witness : exists s' rate,
  _openTrove sdk_sample_world (paid 0 sample_code) "0xA" (10 ^ 18) (10 ^ 18) (200 * 10 ^ 18) address0 address0 "0xA" sdk_sample_fresh = Ok (tt, s') /\
  Trove.create (creation_entries (mkCreationParams (dec (10 ^ 18)) (dec (200 * 10 ^ 18)))) (Some (DDecimal rate)) =
    Ok (mkTrove (dec (t_coll (trove (manager s') "0xA"))) (dec (t_debt (trove (manager s') "0xA")))).
Proof.
  destruct (_openTrove sdk_sample_world (paid 0 sample_code) "0xA" (10 ^ 18) (10 ^ 18) (200 * 10 ^ 18) address0 address0 "0xA" sdk_sample_fresh)
    as [[[] s']|x] eqn:H; [|exfalso; vm_compute in H; discriminate H].
  destruct (Outside.fetchPrice sdk_sample_world sdk_sample_fresh) as [[price s0]|x] eqn:Hp; [|exfalso; vm_compute in Hp; discriminate Hp].
  destruct (getBorrowingRateWithDecay sdk_sample_fresh (now sdk_sample_world)) as [r|x] eqn:Hr; [|exfalso; vm_compute in Hr; discriminate Hr].
  assert (price = 30000 * 10 ^ 18) as -> by (vm_compute in Hp; injection Hp as <- _; reflexivity).
  destruct (sdk_predicts_open (storage_connection sdk_sample_fresh) None sdk_sample_world (paid 0 sample_code) sdk_sample_fresh
    (30000 * 10 ^ 18) s0 r "0xA" (10 ^ 18) (10 ^ 18) (200 * 10 ^ 18) address0 address0 "0xA" tt s') as (mode & _ & E & _).
  - word_literal.
  - apply genesis_inv. vm_compute. reflexivity.
  - apply sample_sees. reflexivity.
  - exact Hp.
  - exact Hr.
  - word_literal.
  - word_literal.
  - exact H.
  - eexists s', _. split; [reflexivity|exact E].
Defined.

Lemma sdk_two_inv : inv sdk_sample_two.
Proof. apply history_inv, genesis_inv. vm_compute. reflexivity. Qed.

(** Withdraw a tenth of the collateral and borrow 100 ZUSD. *)
Definition sdk_sample_change : TroveAdjustmentParams Decimal :=
  CollateralAndDebt (CollateralWithdrawal (dec (10 ^ 17))) (ZUSDBorrowing (dec (10 ^ 20))).

Lemma sdk_predicts_adjust_witness : exists s' s1 t rate,
  _adjustSenderTrove sdk_sample_world (paid 0 sample_code) "0xA" 0 "0xA" (10 ^ 17) (10 ^ 20) true "0xB" "0xB" (10 ^ 18) "0xA" sdk_sample_two = Ok (tt, s') /\
  Trove.adjust t (adjustment_entries sdk_sample_change) (Some (DDecimal rate)) =
    Ok (mkTrove (dec (t_coll (trove (manager s1) "0xA"))) (dec (t_debt (trove (manager s1) "0xA")))).
Proof.
  destruct (_adjustSenderTrove sdk_sample_world (paid 0 sample_code) "0xA" 0 "0xA" (10 ^ 17) (10 ^ 20) true "0xB" "0xB" (10 ^ 18) "0xA" sdk_sample_two)
    as [[[] s']|x] eqn:H; [|exfalso; vm_compute in H; discriminate H].
  destruct (Outside.fetchPrice sdk_sample_world sdk_sample_two) as [[price s0]|x] eqn:Hp; [|exfalso; vm_compute in Hp; discriminate Hp].
  destruct (getBorrowingRateWithDecay sdk_sample_two (now sdk_sample_world)) as [r|x] eqn:Hr; [|exfalso; vm_compute in Hr; discriminate Hr].
  assert (price = 30000 * 10 ^ 18) as -> by (vm_compute in Hp; injection Hp as <- _; reflexivity).
  destruct (sdk_predicts_adjust (storage_connection sdk_sample_two) None sdk_sample_world (paid 0 sample_code) sdk_sample_two
    (30000 * 10 ^ 18) s0 r "0xA" sdk_sample_change "0xB" "0xB" (10 ^ 18) "0xA" tt s') as (s1 & mode & t & _ & _ & _ & E & _).
  - word_literal.
  - exact sdk_two_inv.
  - apply sample_sees. vm_compute. reflexivity.
  - exact Hp.
  - exact Hr.
  - refine (bool_decide_eq_false_1 _ _). vm_compute. reflexivity.
  - intros _. vm_compute. reflexivity.
  - split; vm_compute; reflexivity.
  - word_literal.
  - word_literal.
  - word_literal.
  - exact H.
  - eexists s', s1, t, _. split; [reflexivity|exact E].
Defined.
