(* ===== verification/BlockPolledStore.v ===== *)
(** * [BlockPolledLiquityStore] and the cache on top of it
    (lib-ethers/src/BlockPolledLiquityStore.ts, ReadableEthersLiquity.ts)

    The store fetches a snapshot for every new block; fetches are asynchronous
    and may complete in any order, also after the store was stopped. *)

From S2P Require Import Prelude JsString LibDecimal LibTrove LibFees LibDeposit LibStore StoreFacts.
From S2P Require Import LibReadable EthersConnection EthersReadable.
Import Key LiquityStore.
Local Open Scope Z_scope.

Definition AddressZero : string := "0x0000000000000000000000000000000000000000".

(** ** Extra state *)

Record BlockPolledExtraState : Type := mkExtra {
  blockTag : option Z;
  blockTimestamp : Z }.

(** [Partial<BlockPolledLiquityStoreExtraState>] *)
Record BlockPolledExtraUpdate : Type := mkExtraUpdate {
  up_blockTag : option Z;
  up_blockTimestamp : option Z }.

Definition blockPolled_reduceExtra (oldState : BlockPolledExtraState)
    (stateUpdate : BlockPolledExtraUpdate) : BlockPolledExtraState :=
  mkExtra (match up_blockTag stateUpdate with Some t => Some t | None => blockTag oldState end)
    (default (blockTimestamp oldState) (up_blockTimestamp stateUpdate)).

#[export] Instance blockPolled_extra : ExtraState BlockPolledExtraState BlockPolledExtraUpdate := {|
  _reduceExtra := blockPolled_reduceExtra;
  extra_difference a b :=
    (if bool_decide (blockTag a = blockTag b) then [] else ["blockTag"%string]) ++
    (if blockTimestamp a =? blockTimestamp b then [] else ["blockTimestamp"%string]) |}.

(** ** Fetching a snapshot *)

(** A string that is defined and not empty. *)
Definition truthy (s : option string) : option string :=
  match s with Some EmptyString => None | _ => s end.

Section Fetch.
Variable connection : EthersLiquityConnection.

Definition _getRiskiestTroveBeforeRedistribution (overrides : option EthersCallOverrides)
    : result TroveWithPendingRedistribution :=
  let! riskiestTroves := ReadableEthersLiquity.getTroves connection
    (mkListing (Int 1) "ascendingCollateralRatio" None true) overrides in
  match riskiestTroves with
  | Pending t :: _ => Ok t
  | Applied _ :: _ => Throw TypeError
  | [] => Ok (UserTrove.new_Pending AddressZero nonExistent None None None None)
  end.

(** The values that depend on the user, with or without an address. *)
Record UserState : Type := mkUserState {
  us_accountBalance : Decimal;
  us_zusdBalance : Decimal;
  us_nueBalance : Decimal;
  us_zeroBalance : Decimal;
  us_collateralSurplusBalance : Decimal;
  us_troveBeforeRedistribution : TroveWithPendingRedistribution;
  us_stabilityDeposit : StabilityDeposit;
  us_zeroStake : ZEROStake;
  us_ownFrontend : FrontendStatus }.

Definition get_user_state (tag : option BlockTag) : result UserState :=
  let overrides := Some (mkCallOverrides tag) in
  match truthy (userAddress connection) with
  | Some user =>
      let! balance := getBalance (provider connection) user tag in
      let! account := decimalify balance in
      let! zusd := ReadableEthersLiquity.getZUSDBalance connection (Some user) overrides in
      let! zero := ReadableEthersLiquity.getZEROBalance connection (Some user) overrides in
      let! surplus := ReadableEthersLiquity.getCollateralSurplusBalance connection (Some user) overrides in
      let! t := ReadableEthersLiquity.getTroveBeforeRedistribution connection (Some user) overrides in
      let! d := ReadableEthersLiquity.getStabilityDeposit connection (Some user) overrides in
      let! s := ReadableEthersLiquity.getZEROStake connection (Some user) overrides in
      let! f := ReadableEthersLiquity.getFrontendStatus connection (Some user) overrides in
      Ok (mkUserState account zusd Decimal.ZERO zero surplus t d s f)
  | None =>
      let! d := StabilityDeposit.new_StabilityDeposit Decimal.ZERO Decimal.ZERO Decimal.ZERO
                  Decimal.ZERO AddressZero in
      Ok (mkUserState Decimal.ZERO Decimal.ZERO Decimal.ZERO Decimal.ZERO Decimal.ZERO
            (UserTrove.new_Pending AddressZero nonExistent None None None None) d
            (mkStake Decimal.ZERO Decimal.ZERO Decimal.ZERO) unregistered)
  end.

(** The base values of a snapshot, and its extra state. *)
Definition Snapshot : Type := (forall k, baseType k) * BlockPolledExtraState.

Definition _get (number : option Z) : result Snapshot :=
  let tag := BlockNumber <$> number in
  let overrides := Some (mkCallOverrides tag) in
  let! timestamp := _getBlockTimestamp connection tag in
  let! createFees := ReadableEthersLiquity._getFeesFactory connection overrides in
  let! price_ := ReadableEthersLiquity.getPrice connection overrides in
  let! numberOfTroves_ := ReadableEthersLiquity.getNumberOfTroves connection overrides in
  let! totalRedistributed_ := ReadableEthersLiquity.getTotalRedistributed connection overrides in
  let! total_ := ReadableEthersLiquity.getTotal connection overrides in
  let! zusdInStabilityPool_ := ReadableEthersLiquity.getZUSDInStabilityPool connection overrides in
  let! totalStakedZERO_ := ReadableEthersLiquity.getTotalStakedZERO connection overrides in
  let! riskiest := _getRiskiestTroveBeforeRedistribution overrides in
  let! remaining := ReadableEthersLiquity.getRemainingStabilityPoolZEROReward connection overrides in
  let! frontend_ := match truthy (connection_frontendTag connection) with
                    | Some t => ReadableEthersLiquity.getFrontendStatus connection (Some t) overrides
                    | None => Ok unregistered
                    end in
  let! user := get_user_state tag in
  let! fees_ := createFees timestamp false in
  Ok ((fun k => match k as k return baseType k with
                | frontend => frontend_
                | ownFrontend => us_ownFrontend user
                | numberOfTroves => numberOfTroves_
                | accountBalance => us_accountBalance user
                | zusdBalance => us_zusdBalance user
                | nueBalance => us_nueBalance user
                | zeroBalance => us_zeroBalance user
                | collateralSurplusBalance => us_collateralSurplusBalance user
                | price => price_
                | zusdInStabilityPool => zusdInStabilityPool_
                | total => total_
                | totalRedistributed => totalRedistributed_
                | troveBeforeRedistribution => us_troveBeforeRedistribution user
                | stabilityDeposit => us_stabilityDeposit user
                | remainingStabilityPoolZEROReward => remaining
                | _feesInNormalMode => fees_
                | zeroStake => us_zeroStake user
                | totalStakedZERO => totalStakedZERO_
                | _riskiestTroveBeforeRedistribution => riskiest
                end),
      mkExtra number timestamp).
End Fetch.

(** ** The polling store as a state machine *)

Record System : Type := mkSystem {
  store : Store BlockPolledExtraState;
  started : nat;                   (* the calls of start() so far *)
  listeners : list nat;            (* the calls of start() whose "block" listener is attached *)
  inflight : list (option Z)       (* fetches that have not completed; None is the first one *) }.

Section Machine.
Variable toLocaleString : Date -> string.
Variable callback : Z -> list Z -> list Z.
Variable get : option Z -> result Snapshot.

(** The objects of a snapshot are new: none of them is held by the store. *)
Definition objects (st : Store BlockPolledExtraState) (s : Snapshot) : BaseState :=
  fun k => mkObj (nextObject st) (fst s k).

Definition extra_update (e : BlockPolledExtraState) : BlockPolledExtraUpdate :=
  mkExtraUpdate (blockTag e) (Some (blockTimestamp e)).

(** The two continuations of [_doStart]: of the first fetch and of a block's. *)
Definition deliver (st : Store BlockPolledExtraState) (first_ : bool) (s : Snapshot)
    : Store BlockPolledExtraState :=
  if _loaded st then
    if first_ then st
    else fst (_update toLocaleString callback st (Some (fun k => Some (objects st s k)))
                (Some (extra_update (snd s))))
  else fst (_load st (objects st s) (Some (snd s))).

Definition complete (st : Store BlockPolledExtraState) (number : option Z)
    : Store BlockPolledExtraState :=
  match get number with
  | Ok s => deliver st (bool_decide (number = None)) s
  | Throw _ => st
  end.

Inductive event : Type :=
| Start                     (* start(): attach the listener and begin the first fetch *)
| Block (n : Z)             (* the provider reports block n *)
| Complete (i : nat)        (* the i-th pending fetch settles *)
| Fire (id : Z)             (* a timer expires *)
| Stop (i : nat).           (* the function returned by the i-th start() is called *)

Definition step (sys : System) (ev : event) : System :=
  match ev with
  | Start =>
      mkSystem (store sys) (S (started sys)) (listeners sys ++ [started sys]) (inflight sys ++ [None])
  | Block n =>
      mkSystem (store sys) (started sys) (listeners sys)
        (inflight sys ++ map (fun _ => Some n) (listeners sys))
  | Complete i =>
      match inflight sys !! i with
      | Some number =>
          mkSystem (complete (store sys) number) (started sys) (listeners sys)
            (take i (inflight sys) ++ drop (S i) (inflight sys))
      | None => sys
      end
  | Fire id =>
      if bool_decide (id ∈ timers (store sys))
      then mkSystem (fst (fire toLocaleString callback (store sys) id)) (started sys) (listeners sys)
             (inflight sys)
      else sys
  | Stop i =>
      if (i <? started sys)%nat
      then mkSystem (_cancelUpdateIfScheduled (store sys)) (started sys)
             (filter (fun j => j <> i) (listeners sys)) (inflight sys)
      else sys
  end.

Definition new_System (log loadedCallback : bool) : System :=
  mkSystem (new_Store log loadedCallback) 0 [] [].

Definition run (sys : System) (events : list event) : System := fold_left step events sys.
End Machine.

(** ** The store always holds one snapshot *)

Section Snapshots.
Variable toLocaleString : Date -> string.
Variable callback : Z -> list Z -> list Z.
Variable get : option Z -> result Snapshot.

(** What the polling code needs of its fetches: the snapshot is labelled with
    the block it was fetched at, and its fees are well-formed. *)
Class WellFormedFetch : Prop := {
  fetch_tag n s : get n = Ok s -> blockTag (snd s) = n;
  fetch_fees n s : get n = Ok s -> fees_ok (fst s _feesInNormalMode) }.
Context {Hget : WellFormedFetch}.

(** The store's values are those of the fetch at [blockTag]. *)
Definition holds_snapshot (st : Store BlockPolledExtraState) : Prop :=
  exists n s b d, get n = Ok s /\ holds st b d /\ (forall k, val (b k) = fst s k) /\
    _extraState st = Some (snd s).

Definition system_inv (sys : System) : Prop :=
  store_inv (store sys) /\ (_loaded (store sys) = true -> holds_snapshot (store sys)).

Lemma overlay_all (b : BaseState) (o : BaseState) k :
  overlay b (Some (fun k => Some (o k))) k = val (o k).
Proof. done. Qed.

Lemma deliver_inv st number s :
  get number = Ok s -> store_inv st -> (_loaded st = true -> holds_snapshot st) ->
  let st' := deliver toLocaleString callback st (bool_decide (number = None)) s in
  store_inv st' /\ (_loaded st' = true -> holds_snapshot st').
Proof.
  intros Hs Hinv Hsnap. cbv zeta. unfold deliver.
  pose proof (fetch_fees _ _ Hs) as Hf. pose proof (fetch_tag _ _ Hs) as Htag.
  destruct (_loaded st) eqn:El.
  - case_bool_decide as Hn; [split; [done|auto]|]. destruct (Hsnap eq_refl) as (n0 & s0 & b & d & H0 & Hh & Hv & Hx).
    set (u := Some (fun k => Some (objects st s k))).
    assert (Hu : update_ok u). { intros u' o [= <-] [= <-]. exact Hf. }
    assert (He : extra_ok st (Some (extra_update (snd s)))) by (right; eauto).
    split; [by apply update_inv|]. intros _.
    destruct (update_eq toLocaleString callback st b d u _ Hh Hu He)
      as (dv & st' & called & _ & -> & Hh' & _ & _ & _ & _ & _ & _ & _ & Hx').
    cbn [fst]. exists number, s. do 2 eexists. split; [done|]. split; [exact Hh'|].
    split; [intros k; by rewrite updated_val|]. rewrite Hx'. cbn. rewrite Hx. cbn. f_equal.
    unfold blockPolled_reduceExtra, extra_update. cbn. destruct s as [v [t ts]]. cbn in *. subst t.
    by destruct number.
  - split; [by apply load_inv|]. intros _.
    destruct (load_eq st (objects st s) (Some (snd s)) Hf El) as (st' & d & -> & Hh & _ & Hx & _).
    cbn [fst]. exists number, s, (objects st s), d. done.
Qed.

(** Steps that do not touch the states keep the snapshot. *)
Lemma holds_snapshot_same st st' :
  _baseState st' = _baseState st -> _derivedState st' = _derivedState st ->
  _extraState st' = _extraState st -> nextObject st' = nextObject st ->
  holds_snapshot st -> holds_snapshot st'.
Proof.
  intros E1 E2 E3 E4 (n & s & b & d & Hs & (Hb & Hd & Hr) & Hv & Hx).
  exists n, s, b, d. unfold holds. rewrite E1, E2, E3, E4. done.
Qed.

Lemma cancel_same (st : Store BlockPolledExtraState) :
  let st' := _cancelUpdateIfScheduled st in
  _baseState st' = _baseState st /\ _derivedState st' = _derivedState st /\
  _extraState st' = _extraState st /\ nextObject st' = nextObject st /\ _loaded st' = _loaded st.
Proof. unfold _cancelUpdateIfScheduled. by destruct (_updateTimeoutId st). Qed.

Lemma step_inv sys ev : system_inv sys -> system_inv (step toLocaleString callback get sys ev).
Proof.
  intros [Hinv Hsnap]. unfold system_inv. destruct ev as [|n|i|id|i]; cbn [step].
  - done.
  - done.
  - destruct (inflight sys !! i) as [number|]; [|done]. cbn [store]. unfold complete.
    destruct (get number) as [s|] eqn:Hs; [|done]. by apply deliver_inv.
  - case_bool_decide as Hid; [|done]. cbn [store]. split; [by apply fire_inv|].
    unfold fire. set (st0 := set_timers _ _ _ _).
    destruct (_loaded (store sys)) eqn:El.
    + intros _. destruct (Hsnap eq_refl) as (n & s & b & d & Hs & Hh & Hv & Hx).
      assert (Hh0 : holds st0 b d) by exact Hh.
      destruct (update_eq toLocaleString callback st0 b d None None Hh0)
        as (dv & st' & called & _ & -> & Hh' & _ & _ & _ & _ & _ & _ & _ & Hx');
        [by intros ? ? [=] | by left |].
      cbn [fst]. exists n, s. do 2 eexists. split; [done|]. split; [exact Hh'|].
      split; [done|]. rewrite Hx'. exact Hx.
    + destruct Hinv as [_ Hl]. rewrite El in Hl. destruct Hl as (Hb & _).
      unfold _update. replace (_baseState st0) with (@None BaseState) by (by rewrite <- Hb).
      cbn [fst]. unfold st0. store_simpl. by rewrite El.
  - destruct (i <? started sys)%nat; [|done]. cbn [store]. split; [by apply cancel_inv|].
    destruct (cancel_same (store sys)) as (E1 & E2 & E3 & E4 & E5). rewrite E5. intros El.
    eapply holds_snapshot_same; eauto.
Qed.

(** C13: however starts, blocks, completions, timers and stops interleave, a loaded store
    holds the values of a single fetch, the one for the block its [blockTag]
    names, with the state derived from them; and at most one periodic update is
    scheduled. *)
Theorem store_holds_snapshot (log loadedCallback : bool) (events : list event) :
  let st := store (run toLocaleString callback get (new_System log loadedCallback) events) in
  (length (timers st) <= 1)%nat /\
  (_loaded st = true ->
    exists n s b d, get n = Ok s /\ blockTag (snd s) = n /\ _extraState st = Some (snd s) /\
      _baseState st = Some b /\ _derivedState st = Some d /\
      (forall k, val (b k) = fst s k) /\
      exists dv, derive_values (fun k => val (b k)) = Ok dv /\ forall k, val (d k) = dv k).
Proof.
  intros st. assert (H : system_inv (run toLocaleString callback get (new_System log loadedCallback) events)).
  { assert (H0 : system_inv (new_System log loadedCallback)) by (split; [by split; [left|] | done]).
    unfold run. revert H0. generalize (new_System log loadedCallback).
    induction events as [|ev evs IH]; intros sys H0; [done|]. cbn [fold_left]. by apply IH, step_inv. }
  destruct H as [Hinv Hsnap]. fold st in Hinv, Hsnap. split.
  - destruct Hinv as [[Ht|(id & Ht & _)] _]; rewrite Ht; cbn; lia.
  - intros El. destruct (Hsnap El) as (n & s & b & d & Hs & (Hb & Hd & _ & Hdv & _) & Hv & Hx).
    exists n, s, b, d. split; [done|]. split; [by eapply fetch_tag|]. done.
Qed.
End Snapshots.

(** ** Stopping with a fetch in flight *)

Section Stopping.
Variable toLocaleString : Date -> string.
Variable callback : Z -> list Z -> list Z.
Variable get : option Z -> result Snapshot.
Context {Hget : WellFormedFetch get}.

(** Stopping does not stop a store whose first fetch is still in flight: when
    the fetch completes, the store loads itself, schedules the periodic update,
    and keeps rescheduling it every time it fires, with no listener attached and
    no way left to cancel it. *)
Theorem stop_with_fetch_in_flight (log loadedCallback : bool) (s : Snapshot) :
  get None = Ok s ->
  let sys := run toLocaleString callback get (new_System log loadedCallback) [Start; Stop 0; Complete 0] in
  listeners sys = [] /\ _loaded (store sys) = true /\
  exists id, timers (store sys) = [id] /\
    exists id', timers (store (step toLocaleString callback get sys (Fire id))) = [id'].
Proof.
  intros Hs sys. assert (Hsys : store sys = fst (_load (new_Store log loadedCallback)
    (objects (new_Store log loadedCallback) s) (Some (snd s)))).
  { unfold sys, run. cbn [fold_left step inflight new_System lookup list_lookup store app].
    cbn -[_load]. unfold complete. by rewrite Hs. }
  destruct (load_eq (new_Store log loadedCallback) (objects (new_Store log loadedCallback) s) (Some (snd s)))
    as (st' & d & Hst & Hh & El & _ & Ht & Hid & _); [by eapply fetch_fees|done|].
  rewrite Hst in Hsys. cbn [fst] in Hsys. cbn in Ht.
  split; [done|]. rewrite Hsys, El, Ht. split; [done|]. exists 1. split; [done|].
  cbn [step]. rewrite Hsys, Ht. rewrite bool_decide_true by set_solver. cbn [store]. unfold fire.
  set (st0 := set_timers _ _ _ _).
  destruct (update_eq toLocaleString callback st0 _ d None None Hh)
    as (dv & st'' & called & _ & -> & _ & _ & _ & _ & Ht' & _); [by intros ? ? [=] | by left |].
  eexists. cbn [fst]. rewrite Ht'. unfold uncancelled, st0. store_simpl. by rewrite Ht.
Qed.
End Stopping.

(** ** The cache (ReadableEthersLiquity.ts) *)

Module Cache.
Section Cache.
Variable connection : EthersLiquityConnection.
Variable st : Store BlockPolledExtraState.

(** [this._store.state.<key>]; [undefined] before the store is loaded. *)
Definition base_value (k : baseKey) : option (baseType k) :=
  match _baseState st with Some b => Some (val (b k)) | None => None end.

Definition derived_value (k : derivedKey) : option (derivedType k) :=
  match _derivedState st with Some d => Some (val (d k)) | None => None end.

Definition _blockHit (overrides : option EthersCallOverrides) : bool :=
  match overrides with
  | None => true
  | Some o =>
      match ov_blockTag o with
      | None => true
      | Some (BlockNumber n) => bool_decide ((_extraState st ≫= blockTag) = Some n)
      | Some (BlockName _) => false
      end
  end.

(** [address === undefined || address === own] *)
Definition own_address (own address : option string) : bool :=
  bool_decide (address = None) || bool_decide (address = own).

Definition _userHit (address : option string) (overrides : option EthersCallOverrides) : bool :=
  _blockHit overrides && own_address (userAddress connection) address.

Definition _frontendHit (address : option string) (overrides : option EthersCallOverrides) : bool :=
  _blockHit overrides && own_address (connection_frontendTag connection) address.

Definition on_hit {A} (hit : bool) (value : option A) : option A := if hit then value else None.

Definition BlockPolledLiquityStoreBasedCache : _LiquityReadCache (option EthersCallOverrides) := {|
  c_getTotalRedistributed o := on_hit (_blockHit o) (base_value totalRedistributed);
  c_getTroveBeforeRedistribution a o := on_hit (_userHit a o) (base_value troveBeforeRedistribution);
  c_getTrove a o := on_hit (_userHit a o) (derived_value trove);
  c_getNumberOfTroves o := on_hit (_blockHit o) (base_value numberOfTroves);
  c_getPrice o := on_hit (_blockHit o) (base_value price);
  c_getTotal o := on_hit (_blockHit o) (base_value total);
  c_getStabilityDeposit a o := on_hit (_userHit a o) (base_value stabilityDeposit);
  c_getRemainingStabilityPoolZEROReward o :=
    on_hit (_blockHit o) (base_value remainingStabilityPoolZEROReward);
  c_getZUSDInStabilityPool o := on_hit (_blockHit o) (base_value zusdInStabilityPool);
  c_getZUSDBalance a o := on_hit (_userHit a o) (base_value zusdBalance);
  c_getZEROBalance a o := on_hit (_userHit a o) (base_value zeroBalance);
  c_getCollateralSurplusBalance a o := on_hit (_userHit a o) (base_value collateralSurplusBalance);
  c_getTroves _ _ := None;
  c_getFees o := on_hit (_blockHit o) (derived_value fees);
  c_getZEROStake a o := on_hit (_userHit a o) (base_value zeroStake);
  c_getTotalStakedZERO o := on_hit (_blockHit o) (base_value totalStakedZERO);
  c_getFrontendStatus a o := on_hit (_frontendHit a o) (base_value frontend) |}.

(** [_BlockPolledReadableEthersLiquity]: the cached readable over the class. *)
Definition _BlockPolledReadableEthersLiquity : ReadableLiquity (option EthersCallOverrides) :=
  _CachedReadableLiquity (ReadableEthersLiquity.readable connection) BlockPolledLiquityStoreBasedCache.

Definition hasStore (store_ : option string) : bool :=
  match store_ with None => true | Some s => bool_decide (s = "blockPolled"%string) end.
End Cache.
End Cache.

(** ** Cached reads at a block agree with direct ones *)

Definition at_block (n : Z) : option EthersCallOverrides := Some (mkCallOverrides (Some (BlockNumber n))).

Section CacheSound.
Variable c : EthersLiquityConnection.
Import ReadableEthersLiquity.

(** Every value of a snapshot is what the corresponding direct read returns. *)
Record fetched (n : Z) (s : Snapshot) : Prop := {
  f_price : getPrice c (at_block n) = Ok (fst s price);
  f_numberOfTroves : getNumberOfTroves c (at_block n) = Ok (fst s numberOfTroves);
  f_totalRedistributed : getTotalRedistributed c (at_block n) = Ok (fst s totalRedistributed);
  f_total : getTotal c (at_block n) = Ok (fst s total);
  f_zusdInStabilityPool : getZUSDInStabilityPool c (at_block n) = Ok (fst s zusdInStabilityPool);
  f_totalStakedZERO : getTotalStakedZERO c (at_block n) = Ok (fst s totalStakedZERO);
  f_remaining : getRemainingStabilityPoolZEROReward c (at_block n)
    = Ok (fst s remainingStabilityPoolZEROReward);
  f_fees : exists create ts, _getFeesFactory c (at_block n) = Ok create /\
    _getBlockTimestamp c (Some (BlockNumber n)) = Ok ts /\ create ts false = Ok (fst s _feesInNormalMode);
  f_frontend t : truthy (connection_frontendTag c) = Some t ->
    getFrontendStatus c (Some t) (at_block n) = Ok (fst s frontend);
  f_user u : truthy (userAddress c) = Some u ->
    getZUSDBalance c (Some u) (at_block n) = Ok (fst s zusdBalance) /\
    getZEROBalance c (Some u) (at_block n) = Ok (fst s zeroBalance) /\
    getCollateralSurplusBalance c (Some u) (at_block n) = Ok (fst s collateralSurplusBalance) /\
    getTroveBeforeRedistribution c (Some u) (at_block n) = Ok (fst s troveBeforeRedistribution) /\
    getStabilityDeposit c (Some u) (at_block n) = Ok (fst s stabilityDeposit) /\
    getZEROStake c (Some u) (at_block n) = Ok (fst s zeroStake) }.

Lemma get_fetched n s : _get c (Some n) = Ok s -> fetched n s /\ blockTag (snd s) = Some n.
Proof.
  unfold _get. cbn [fmap option_fmap option_map]. fold (at_block n). intros H.
  do 10 (let v := fresh "v" in let E := fresh "E" in apply bind_Ok_inv in H as (v & E & H)).
  apply bind_Ok_inv in H as (fe & Hfe & H). apply bind_Ok_inv in H as (us & Hus & H).
  apply bind_Ok_inv in H as (f & Hf & H). inversion H; subst. split; [|done].
  split; cbn [fst]; try done.
  - by exists v0, v.
  - intros t Ht. by rewrite Ht in Hfe.
  - intros u Hu. unfold get_user_state in Hus. rewrite Hu in Hus. fold (at_block n) in Hus.
    do 9 (let v := fresh "w" in let E := fresh "F" in apply bind_Ok_inv in Hus as (v & E & Hus)).
    inversion Hus; subst. cbn. done.
Qed.

(** The factory's fees in recovery mode are its normal fees with the mode set. *)
Lemma factory_mode o create ts f r :
  _getFeesFactory c o = Ok create -> create ts false = Ok f ->
  create ts r = Fees._setRecoveryMode f r.
Proof.
  unfold _getFeesFactory. intros H Hf. apply bind_Ok_inv in H as (last & _ & H).
  apply bind_Ok_inv in H as (base & _ & H). apply bind_Ok_inv in H as (rate & _ & H).
  injection H as <-. cbv beta in Hf. destruct (toNumber last) as [t|]; [|discriminate].
  rewrite bind_Ok, new_Fees_decimal in Hf. rewrite bind_Ok, new_Fees_decimal.
  destruct (bn MINUTE_DECAY_FACTOR <? DIGITS) eqn:E; [|discriminate].
  injection Hf as <-. unfold Fees._setRecoveryMode. rewrite new_Fees_decimal.
  cbn [_minuteDecayFactor]. by rewrite E.
Qed.

Lemma truthy_Some s u : truthy s = Some u -> s = Some u.
Proof. by destruct s as [[|]|]. Qed.

Context (st : Store BlockPolledExtraState).
Hypothesis Hsnap : holds_snapshot (_get c) st.
Import Cache.

Lemma hit_snapshot n :
  _blockHit st (at_block n) = true ->
  exists s, fetched n s /\ (forall k, base_value st k = Some (fst s k)) /\
    exists dv, derive_values (fun k => fst s k) = Ok dv /\ forall k, derived_value st k = Some (dv k).
Proof.
  destruct Hsnap as (n0 & s & b & d & Hs & (Hb & Hd & _ & (dv & Hdv & Hdk) & _) & Hv & Hx).
  cbn. rewrite Hx. cbn. intros Hn%bool_decide_eq_true.
  assert (n0 = Some n) as ->.
  { unfold _get in Hs. destruct n0; inv_ok; cbn in Hn; congruence. }
  exists s. split; [by apply get_fetched|]. unfold base_value, derived_value. rewrite Hb, Hd.
  split; [intros k; by rewrite Hv|]. unfold derive_values, values in *. rewrite !Hv in Hdv.
  exists dv. split; [done|]. intros k. by rewrite Hdk.
Qed.

(** An answer at a block comes from the snapshot of that block. *)
Lemma block_hit_inv {A} n (v : option A) a :
  on_hit (_blockHit st (at_block n)) v = Some a ->
  v = Some a /\ exists s, fetched n s /\ (forall k, base_value st k = Some (fst s k)).
Proof.
  unfold on_hit. destruct (_blockHit st (at_block n)) eqn:E; [|discriminate]. intros Hv.
  destruct (hit_snapshot n E) as (s & Hs & Hk & _). eauto.
Qed.

Lemma own_hit_inv {A} n own address (v : option A) a :
  on_hit (_blockHit st (at_block n) && own_address own address) v = Some a ->
  (address = None \/ address = own) /\
  v = Some a /\ exists s, fetched n s /\ (forall k, base_value st k = Some (fst s k)).
Proof.
  intros Hhit. destruct (own_address own address) eqn:Eo; [|by rewrite andb_false_r in Hhit].
  rewrite andb_true_r in Hhit. split; [|by apply block_hit_inv].
  unfold own_address in Eo. apply orb_true_iff in Eo as [E|E]; apply bool_decide_eq_true in E; auto.
Qed.

Lemma fees_hit n f :
  on_hit (_blockHit st (at_block n)) (derived_value st fees) = Some f -> getFees c (at_block n) = Ok f.
Proof.
  unfold on_hit. destruct (_blockHit st (at_block n)) eqn:E; [|discriminate].
  destruct (hit_snapshot n E) as (s & Hs & _ & dv & Hdv & Hk). rewrite Hk. intros [= <-].
  destruct (f_fees n s Hs) as (create & ts & Hc & Ht & Hf). unfold getFees.
  rewrite Hc, bind_Ok, (f_total n s Hs), bind_Ok, (f_price n s Hs), bind_Ok.
  cbn [call_overrides at_block ov_blockTag]. rewrite Ht, bind_Ok.
  unfold derive_values in Hdv. apply bind_Ok_inv in Hdv as (r & -> & Hdv). rewrite bind_Ok.
  rewrite (factory_mode _ _ _ _ r Hc Hf).
  apply bind_Ok_inv in Hdv as (f & -> & Hdv).
  do 5 (let v := fresh "v" in apply bind_Ok_inv in Hdv as (v & _ & Hdv)).
  by injection Hdv as <-.
Qed.

Context (user tag : string).
Hypothesis Huser : truthy (userAddress c) = Some user.
Hypothesis Htag : truthy (connection_frontendTag c) = Some tag.

(** Omitting the address means the user's own. *)
Lemma default_user : address_or_user c None = address_or_user c (Some user).
Proof.
  pose proof (truthy_Some _ _ Huser) as Hu. unfold address_or_user, _requireAddress. by rewrite Hu.
Qed.

Ltac solve_block field :=
  intros e [n ->] a Ha; apply block_hit_inv in Ha as (Hv & s & Hs & Hk);
  rewrite Hk in Hv; injection Hv as <-; exact (field n s Hs).

Ltac solve_user unfold_tac :=
  intros addr e [n ->] a Ha; apply own_hit_inv in Ha as (Haddr & Hv & s & Hs & Hk);
  rewrite Hk in Hv; injection Hv as <-;
  destruct (f_user n s Hs user Huser) as (H1 & H2 & H3 & H4 & H5 & H6);
  rewrite (truthy_Some _ _ Huser) in Haddr;
  destruct Haddr as [-> | ->]; [|first [exact H1 | exact H2 | exact H3 | exact H4 | exact H5 | exact H6]];
  cbn [readable LibReadable.getZUSDBalance LibReadable.getZEROBalance
       LibReadable.getCollateralSurplusBalance LibReadable.getTroveBeforeRedistribution
       LibReadable.getStabilityDeposit LibReadable.getZEROStake];
  unfold_tac; rewrite default_user;
  first [exact H1 | exact H2 | exact H3 | exact H4 | exact H5 | exact H6].

#[export] Instance cache_sound :
  SoundCache (readable c) (BlockPolledLiquityStoreBasedCache c st) (fun e => exists n, e = at_block n).
Proof.
  split.
  - solve_block f_totalRedistributed.
  - solve_user ltac:(unfold getTroveBeforeRedistribution).
  - solve_block f_numberOfTroves.
  - solve_block f_price.
  - solve_block f_total.
  - solve_user ltac:(unfold getStabilityDeposit).
  - solve_block f_remaining.
  - solve_block f_zusdInStabilityPool.
  - solve_user ltac:(unfold getZUSDBalance).
  - solve_user ltac:(unfold getZEROBalance).
  - solve_user ltac:(unfold getCollateralSurplusBalance).
  - intros p e _ a [=].
  - intros e [n ->] f Hf. by apply fees_hit.
  - solve_user ltac:(unfold getZEROStake).
  - solve_block f_totalStakedZERO.
  - intros addr e [n ->] a Ha. apply own_hit_inv in Ha as (Haddr & Hv & s & Hs & Hk).
    rewrite Hk in Hv. injection Hv as <-. rewrite (truthy_Some _ _ Htag) in Haddr.
    destruct Haddr as [-> | ->]; [|exact (f_frontend n s Hs tag Htag)].
    pose proof (f_frontend n s Hs tag Htag) as Hx. cbn [readable LibReadable.getFrontendStatus].
    unfold getFrontendStatus, _requireFrontendAddress in *. rewrite (truthy_Some _ _ Htag). exact Hx.
Qed.
End CacheSound.

(** On a connection with a user address and a frontend tag, reading at an
    explicit block through the store-backed cache agrees with reading the
    contracts directly at that block, for every operation of the interface:
    values answered from the store are those of that block. *)
Theorem cached_reads_transparent (c : EthersLiquityConnection) (st : Store BlockPolledExtraState)
    (user tag : string) :
  holds_snapshot (_get c) st ->
  truthy (userAddress c) = Some user -> truthy (connection_frontendTag c) = Some tag ->
  agree (fun e => exists n, e = at_block n)
    (Cache._BlockPolledReadableEthersLiquity c st) (ReadableEthersLiquity.readable c).
Proof.
  intros Hsnap Hu Ht. apply cached_agree; [apply _|]. by eapply cache_sound.
Qed.

(** ** A concrete polling store *)

Lemma sample_fetch : WellFormedFetch (_get sample_connection).
Proof.
  split.
  - intros n s H. unfold _get in H. inv_ok. done.
  - intros n s H. destruct n as [n|]; vm_compute in H; injection H as <-;
      split; vm_compute; [reflexivity | discriminate | reflexivity | discriminate].
Qed.

Lemma store_holds_snapshot_witness :
  let st := store (run (fun _ => EmptyString) (fun _ ls => ls) (_get sample_connection)
    (new_System true true) [Start; Block 7; Complete 1; Complete 0; Fire 1]) in
  (length (timers st) <= 1)%nat /\
  (_loaded st = true ->
    exists n s b d, _get sample_connection n = Ok s /\ blockTag (snd s) = n /\
      _extraState st = Some (snd s) /\ _baseState st = Some b /\ _derivedState st = Some d /\
      (forall k, val (b k) = fst s k) /\
      exists dv, derive_values (fun k => val (b k)) = Ok dv /\ forall k, val (d k) = dv k).
Proof.
  exact (@store_holds_snapshot (fun _ => EmptyString) (fun _ ls => ls) (_get sample_connection)
    sample_fetch true true [Start; Block 7; Complete 1; Complete 0; Fire 1]).
Defined.

Definition sample_snapshot (n : option Z) : Snapshot :=
  evaluated (sample_value, mkExtra None 0) (_get sample_connection n).

Lemma sample_get n : _get sample_connection n = Ok (sample_snapshot n).
Proof. destruct n; vm_compute; reflexivity. Qed.

Lemma stop_with_fetch_in_flight_witness :
  let sys := run (fun _ => EmptyString) (fun _ ls => ls) (_get sample_connection)
    (new_System true true) [Start; Stop 0; Complete 0] in
  listeners sys = [] /\ _loaded (store sys) = true /\
  exists id, timers (store sys) = [id] /\
    exists id', timers (store (step (fun _ => EmptyString) (fun _ ls => ls) (_get sample_connection)
                                sys (Fire id))) = [id'].
Proof.
  exact (@stop_with_fetch_in_flight (fun _ => EmptyString) (fun _ ls => ls) (_get sample_connection)
    sample_fetch true true (sample_snapshot None) (sample_get None)).
Defined.

(** The store after the snapshot of block 7 was loaded. *)
Definition sample_polled : Store BlockPolledExtraState :=
  deliver (fun _ => EmptyString) (fun _ ls => ls) (new_Store false false) false (sample_snapshot (Some 7)).

Lemma sample_polled_snapshot : holds_snapshot (_get sample_connection) sample_polled.
Proof.
  apply (@deliver_inv (fun _ => EmptyString) (fun _ ls => ls) (_get sample_connection) sample_fetch
    (new_Store false false) (Some 7) (sample_snapshot (Some 7))); [apply sample_get| | |].
  - by split; [left|].
  - done.
  - destruct (load_eq (new_Store false false)
      (objects (new_Store false false) (sample_snapshot (Some 7))) (Some (snd (sample_snapshot (Some 7)))))
      as (st' & d & Hst & _ & El & _); [|done|].
    + exact (@fetch_fees _ sample_fetch (Some 7) _ (sample_get _)).
    + unfold deliver. cbn [_loaded new_Store]. by rewrite Hst.
Qed.

Lemma cached_reads_transparent_witness :
  agree (fun e => exists n, e = at_block n)
    (Cache._BlockPolledReadableEthersLiquity sample_connection sample_polled)
    (ReadableEthersLiquity.readable sample_connection).
Proof.
  exact (cached_reads_transparent sample_connection sample_polled "0x01" "0x02"
    sample_polled_snapshot eq_refl eq_refl).
Defined.
