(* ===== verification/EthersTx.v ===== *)
(** * Transactions, receipts and logs
    (lib-ethers/src/contracts.ts, parseLogs.ts, PopulatableEthersLiquity.ts,
    lib-base/src/SendableLiquity.ts)

    A populated transaction is the contract call ethers encodes: the function
    called, its arguments and the overrides.  Gas estimation, log parsing,
    sending and receipts are calls to ethers and given as arguments. *)

From S2P Require Import Prelude JsString LibDecimal LibTrove LibDeposit EthersConnection.
Local Open Scope Z_scope.

(** ** Populating calls *)

(** lib-ethers/src/types.ts, with the [value] the code itself adds. *)
Record TxOverrides : Type := mkTxOverrides {
  tx_from : option string;
  tx_nonce : option Z;
  tx_gasLimit : option Z;
  tx_gasPrice : option Z;
  tx_value : option string }.

Definition no_overrides : TxOverrides := mkTxOverrides None None None None None.

(** [{ ...overrides }] and [{ value, ...overrides }] *)
Definition spread (overrides : option TxOverrides) : TxOverrides := default no_overrides overrides.

Definition spread_value (value : option string) (overrides : option TxOverrides) : TxOverrides :=
  let o := spread overrides in
  mkTxOverrides (tx_from o) (tx_nonce o) (tx_gasLimit o) (tx_gasPrice o)
    (match tx_value o with Some v => Some v | None => value end).

(** EIP-2612 permit parameters. *)
Record PermitParams : Type := mkPermit {
  deadline : Z; permit_v : Z; permit_r : string; permit_s : string }.

Inductive arg : Type :=
| AHex (hex : string)
| ANumber (n : Z)
| ABool (b : bool)
| AAddress (a : string)
| AAddresses (l : list string)
| APermit (p : PermitParams).

Record PopulatedTransaction : Type := mkTx {
  tx_contract : string;
  tx_function : string;
  tx_args : list arg;
  tx_overrides : TxOverrides }.

(** [contract.estimateGas] and [contract.populateTransaction] of ethers, for
    the contract with the given key. *)
Record ContractCalls : Type := mkCalls {
  estimateGas : string -> string -> list arg -> TxOverrides -> result Z;
  populateTransaction : string -> string -> list arg -> TxOverrides -> result PopulatedTransaction }.

(** [contract.estimateAndPopulate.<functionName>(overrides, adjustEstimate, ...args)] *)
Definition estimateAndPopulate (calls : ContractCalls) (contract functionName : string)
    (overrides : TxOverrides) (adjustEstimate : Z -> Z) (args : list arg)
    : result PopulatedTransaction :=
  let! overrides :=
    match tx_gasLimit overrides with
    | None =>
        let! estimatedGas := estimateGas calls contract functionName args overrides in
        Ok (mkTxOverrides (tx_from overrides) (tx_nonce overrides)
              (Some (adjustEstimate estimatedGas + 10000)) (tx_gasPrice overrides)
              (tx_value overrides))
    | Some _ => Ok overrides
    end in
  populateTransaction calls contract functionName args overrides.

(** ** Events *)

(** An argument of a parsed log. *)
Inductive event_arg : Type :=
| EUint (n : N)
| EText (s : string)
| EOther (shown : string).

(** [log_payload] is what ethers decodes. *)
Record Log : Type := mkLog { log_address : string; log_payload : string }.

(** [Object.entries(args)]: positions and names. *)
Record LogDescription : Type := mkDescription {
  event_name : string;
  event_args : list (string * event_arg) }.

(** A contract as the log code sees it: its address and [interface.parseLog]. *)
Record LogContract : Type := mkLogContract {
  lc_address : string;
  parseLog : Log -> result LogDescription }.

(** [contract.extractEvents(logs, name)] *)
Definition extractEvents (contract : LogContract) (logs : list Log) (name : string)
    : result (list LogDescription) :=
  let! parsed := traverse (parseLog contract)
    (filter (fun log => log_address log = lc_address contract) logs) in
  Ok (filter (fun e => event_name e = name) parsed).

(** Reading an argument; the ABI fixes which events have it and its type. *)
Definition arg_of (e : LogDescription) (key : string) : result event_arg :=
  match list_find (fun kv => fst kv = key) (event_args e) with
  | Some (_, (_, v)) => Ok v
  | None => Throw TypeError
  end.

Definition uint_of (e : LogDescription) (key : string) : result Decimal :=
  let! v := arg_of e key in
  match v with EUint n => decimalify n | _ => Throw TypeError end.

Definition text_of (e : LogDescription) (key : string) : result string :=
  let! v := arg_of e key in
  match v with EText s => Ok s | _ => Throw TypeError end.

(** ** Receipts *)

Record TransactionReceipt : Type := mkReceipt {
  receipt_status : Z;
  receipt_from : string;
  receipt_hash : string;
  receipt_logs : list Log }.

Inductive LiquityReceipt (D : Type) : Type :=
| PendingReceipt
| FailedReceipt (rawReceipt : TransactionReceipt)
| SuccessfulReceipt (rawReceipt : TransactionReceipt) (details : D).
Arguments PendingReceipt {D}.
Arguments FailedReceipt {D} _.
Arguments SuccessfulReceipt {D} _ _.

(** A populated transaction with the parser of its receipt; sending it gives a
    hash to look the receipt up with. *)
Record PopulatedEthersLiquityTransaction (D : Type) : Type := mkPopulated {
  rawPopulatedTransaction : PopulatedTransaction;
  _parse : TransactionReceipt -> result D }.
Arguments mkPopulated {D} _ _.
Arguments rawPopulatedTransaction {D} _.
Arguments _parse {D} _.

Record SentEthersLiquityTransaction (D : Type) : Type := mkSent {
  rawSentTransaction_hash : string;
  sent_parse : TransactionReceipt -> result D }.
Arguments mkSent {D} _ _.
Arguments rawSentTransaction_hash {D} _.
Arguments sent_parse {D} _.

Definition _receiptFrom {D} (this : SentEthersLiquityTransaction D)
    (rawReceipt : option TransactionReceipt) : result (LiquityReceipt D) :=
  match rawReceipt with
  | Some r =>
      if receipt_status r =? 0 then Ok (FailedReceipt r)
      else let! details := sent_parse this r in Ok (SuccessfulReceipt r details)
  | None => Ok PendingReceipt
  end.

Section Sending.
Variable sendTransaction : EthersSigner -> PopulatedTransaction -> result string.
Variables getTransactionReceipt waitForTransaction : string -> result (option TransactionReceipt).

Definition send {D} (connection : EthersLiquityConnection) (this : PopulatedEthersLiquityTransaction D)
    : result (SentEthersLiquityTransaction D) :=
  let! signer := _requireSigner connection in
  let! hash := sendTransaction signer (rawPopulatedTransaction this) in
  Ok (mkSent hash (_parse this)).

Definition getReceipt {D} (this : SentEthersLiquityTransaction D) : result (LiquityReceipt D) :=
  let! raw := getTransactionReceipt (rawSentTransaction_hash this) in _receiptFrom this raw.

Definition waitForReceipt {D} (this : SentEthersLiquityTransaction D) : result (LiquityReceipt D) :=
  let! raw := waitForTransaction (rawSentTransaction_hash this) in
  let! receipt := _receiptFrom this raw in
  let! _ := js_assert (match receipt with PendingReceipt => false | _ => true end) in
  Ok receipt.
End Sending.

(** ** Details parsed from receipts *)

Record LogContracts : Type := mkLogContracts {
  lc_borrowerOperations : LogContract;
  lc_troveManager : LogContract;
  lc_activePool : LogContract;
  lc_zusdToken : LogContract;
  lc_stabilityPool : LogContract }.

Definition AddressZero : string := "0x0000000000000000000000000000000000000000".

(** [const [x] = events.map(f)]: [f] runs on all events, [x] may be missing. *)
Definition first_of {A} (f : LogDescription -> result A) (events : list LogDescription) : result (option A) :=
  let! l := traverse f events in Ok (head l).

Definition trove_of (e : LogDescription) : result Trove :=
  let! c := uint_of e "_coll" in let! d := uint_of e "_debt" in Ok (mkTrove c d).

Record TroveChangeDetails (P : Type) : Type := mkTroveChangeDetails {
  change_params : P; newTrove : option Trove; fee : option Decimal }.
Arguments mkTroveChangeDetails {P} _ _ _.

Record GainsWithdrawalDetails : Type := mkGains {
  zusdLoss : Decimal;
  newZUSDDeposit : option Decimal;
  collateralGain : Decimal;
  gains_zeroReward : option Decimal }.

Record LiquidationTotals : Type := mkTotals {
  collateralGasCompensation : Decimal;
  zusdGasCompensation : Decimal;
  totalLiquidated : Trove }.

Record RedemptionDetails : Type := mkRedemptionDetails {
  attemptedZUSDAmount : Decimal;
  actualZUSDAmount : Decimal;
  collateralTaken : Decimal;
  redemption_fee : Decimal }.

Section Wrapping.
Variable contracts : LogContracts.

Definition _wrapSimpleTransaction (raw : PopulatedTransaction) : PopulatedEthersLiquityTransaction unit :=
  mkPopulated raw (fun _ => Ok tt).

Definition _wrapTroveChangeWithFees {P} (params : P) (raw : PopulatedTransaction)
    : PopulatedEthersLiquityTransaction (TroveChangeDetails P) :=
  mkPopulated raw (fun receipt =>
    let! updates := extractEvents (lc_borrowerOperations contracts) (receipt_logs receipt) "TroveUpdated" in
    let! trove := first_of trove_of updates in
    let! paid := extractEvents (lc_borrowerOperations contracts) (receipt_logs receipt)
                   "ZUSDBorrowingFeePaid" in
    let! f := first_of (fun e => uint_of e "_ZUSDFee") paid in
    Ok (mkTroveChangeDetails params trove f)).

Definition _wrapTroveClosure (raw : PopulatedTransaction)
    : PopulatedEthersLiquityTransaction (option Decimal * option Decimal) :=
  mkPopulated raw (fun receipt =>
    let! transfers := extractEvents (lc_zusdToken contracts) (receipt_logs receipt) "Transfer" in
    let! ends := traverse (fun e => let! f := text_of e "from" in let! t := text_of e "to" in
                                    Ok (e, (f, t))) transfers in
    let! repayZUSD := first_of (fun e => uint_of e "value")
      (map fst (filter (fun x => snd x = (receipt_from receipt, AddressZero)) ends)) in
    let! sent := extractEvents (lc_activePool contracts) (receipt_logs receipt) "EtherSent" in
    let! tos := traverse (fun e => let! t := text_of e "_to" in Ok (e, t)) sent in
    let! withdrawCollateral := first_of (fun e => uint_of e "_amount")
      (map fst (filter (fun x => snd x = receipt_from receipt) tos)) in
    match repayZUSD with
    | None => Throw TypeError
    | Some r => Ok (withdrawCollateral, Decimal.nonZero r)
    end).

Definition _wrapLiquidation (raw : PopulatedTransaction)
    : PopulatedEthersLiquityTransaction (list string * option LiquidationTotals) :=
  mkPopulated raw (fun receipt =>
    let! liquidated := extractEvents (lc_troveManager contracts) (receipt_logs receipt) "TroveLiquidated" in
    let! liquidatedAddresses := traverse (fun e => text_of e "_borrower") liquidated in
    let! liquidations := extractEvents (lc_troveManager contracts) (receipt_logs receipt) "Liquidation" in
    let! totals := first_of (fun e =>
      let! cg := uint_of e "_collGasCompensation" in
      let! zg := uint_of e "_ZUSDGasCompensation" in
      let! c := uint_of e "_liquidatedColl" in
      let! d := uint_of e "_liquidatedDebt" in
      Ok (mkTotals cg zg (mkTrove c d))) liquidations in
    Ok (liquidatedAddresses, totals)).

Definition _extractStabilityPoolGainsWithdrawalDetails (logs : list Log)
    : result GainsWithdrawalDetails :=
  let! changed := extractEvents (lc_stabilityPool contracts) logs "UserDepositChanged" in
  let! newDeposit := first_of (fun e => uint_of e "_newDeposit") changed in
  let! withdrawn := extractEvents (lc_stabilityPool contracts) logs "ETHGainWithdrawn" in
  let! gain := first_of (fun e => let! eth := uint_of e "_ETH" in
                                  let! loss := uint_of e "_ZUSDLoss" in Ok (eth, loss)) withdrawn in
  match gain with
  | None => Throw TypeError
  | Some (eth, loss) =>
      let! paid := extractEvents (lc_stabilityPool contracts) logs "ZEROPaidToDepositor" in
      let! reward := first_of (fun e => uint_of e "_ZERO") paid in
      Ok (mkGains loss newDeposit eth reward)
  end.

Definition _wrapStabilityPoolGainsWithdrawal (raw : PopulatedTransaction)
    : PopulatedEthersLiquityTransaction GainsWithdrawalDetails :=
  mkPopulated raw (fun receipt => _extractStabilityPoolGainsWithdrawalDetails (receipt_logs receipt)).

Definition _wrapStabilityDepositTopup (depositZUSD : Decimal) (raw : PopulatedTransaction)
    : PopulatedEthersLiquityTransaction (GainsWithdrawalDetails * StabilityDepositChange Decimal) :=
  mkPopulated raw (fun receipt =>
    let! details := _extractStabilityPoolGainsWithdrawalDetails (receipt_logs receipt) in
    Ok (details, DepositZUSD depositZUSD)).

(** [withdrawZUSD] of the change is missing when no transfer is found. *)
Definition _wrapStabilityDepositWithdrawal (raw : PopulatedTransaction)
    : PopulatedEthersLiquityTransaction (GainsWithdrawalDetails * (option Decimal * bool)) :=
  mkPopulated raw (fun receipt =>
    let! details := _extractStabilityPoolGainsWithdrawalDetails (receipt_logs receipt) in
    let! transfers := extractEvents (lc_zusdToken contracts) (receipt_logs receipt) "Transfer" in
    let! ends := traverse (fun e => let! f := text_of e "from" in let! t := text_of e "to" in
                                    Ok (e, (f, t))) transfers in
    let! withdrawZUSD := first_of (fun e => uint_of e "value")
      (map fst (filter (fun x => snd x = (lc_address (lc_stabilityPool contracts), receipt_from receipt)) ends)) in
    match newZUSDDeposit details with
    | None => Throw TypeError
    | Some d => Ok (details, (withdrawZUSD, Decimal.isZero d))
    end).

Definition _wrapCollateralGainTransfer (raw : PopulatedTransaction)
    : PopulatedEthersLiquityTransaction (GainsWithdrawalDetails * option Trove) :=
  mkPopulated raw (fun receipt =>
    let! updates := extractEvents (lc_borrowerOperations contracts) (receipt_logs receipt) "TroveUpdated" in
    let! trove := first_of trove_of updates in
    let! details := _extractStabilityPoolGainsWithdrawalDetails (receipt_logs receipt) in
    Ok (details, trove)).

(** The parser of [PopulatedEthersRedemption]; [[0]] of an empty list is missing. *)
Definition redemption_parse (receipt : TransactionReceipt) : result (option RedemptionDetails) :=
  let! redemptions := extractEvents (lc_troveManager contracts) (receipt_logs receipt) "Redemption" in
  first_of (fun e =>
    let! attempted := uint_of e "_attemptedZUSDAmount" in
    let! actual := uint_of e "_actualZUSDAmount" in
    let! taken := uint_of e "_ETHSent" in
    let! f := uint_of e "_ETHFee" in
    Ok (mkRedemptionDetails attempted actual taken f)) redemptions.
End Wrapping.
