(* ===== verification/EthersPopulatable.v ===== *)
(** * [PopulatableEthersLiquity]: building transactions
    (lib-ethers/src/PopulatableEthersLiquity.ts)

    Each operation reads what it needs through [ReadableLiquity], computes the
    arguments and populates a contract call.  The hint contracts, gas estimation
    and the random number are arguments. 

    The theorems are in PopulatableFacts.v. *)

From S2P Require Import Prelude JsString JsNumber LibDecimal DecimalText LibConstants LibTrove TroveFacts.
From S2P Require Import LibFees LibDeposit LibStore LibReadable EthersConnection EthersReadable EthersTx.
Local Open Scope Z_scope.

(** ** Constants and gas adjustments *)

Definition _redeemMaxIterations : Z := 70.

Definition defaultBorrowingRateSlippageTolerance : Decimal := Eval vm_compute in constant "0.005".
Definition defaultRedemptionRateSlippageTolerance : Decimal := Eval vm_compute in constant "0.001".

Definition compose {A B C} (f : B -> C) (g : A -> B) (x : A) : C := f (g x).

Definition addGasForPotentialLastFeeOperationTimeUpdate (gas : Z) : Z := gas + 10000.
Definition addGasForPotentialListTraversal (gas : Z) : Z := gas + 80000.
Definition addGasForZEROIssuance (gas : Z) : Z := gas + 50000.

(** [random] is what [Math.random()] returns. *)
Definition randomInteger (random : number) : Z := Math_floor (times MAX_SAFE_INTEGER random).

(** ** Trials of a hint search *)

Definition maxNumberOfTrialsAtOnce : Z := 2500.

(** The [while] loop; every round takes at least one trial off the total, so the
    total is enough [fuel]. *)
Fixpoint trials_loop (fuel : nat) (totalNumberOfTrials : Z) : list Z :=
  match fuel with
  | O => []
  | S fuel =>
      if totalNumberOfTrials =? 0 then []
      else
        let numberOfTrials := Z.min totalNumberOfTrials maxNumberOfTrialsAtOnce in
        numberOfTrials :: trials_loop fuel (totalNumberOfTrials - numberOfTrials)
  end.

(** Everything the generator yields. *)
Definition generateTrials (totalNumberOfTrials : Z) : result (list Z) :=
  let! _ := js_assert (0 <? totalNumberOfTrials) in
  Ok (trials_loop (Z.to_nat totalNumberOfTrials) totalNumberOfTrials).

Definition totalNumberOfTrials (numberOfTroves : Z) : Z :=
  Math_ceil (times 10 (Math_sqrt numberOfTroves)).

(** ** What the operations are given *)

Record ApproxHint : Type := mkApproxHint { hintAddress : string; diff : Z }.

Record RedemptionHints : Type := mkRedemptionHints {
  firstRedemptionHint : string;
  partialRedemptionHintNICR : N;
  truncatedZUSDamount : N }.

(** The calls on [sortedTroves] and [hintHelpers]. *)
Record HintContracts : Type := mkHintContracts {
  getFirst : result string;
  findInsertPosition : string -> string -> string -> result (string * string);
  getApproxHint : string -> Z -> Z -> result (ApproxHint * Z);
  getRedemptionHints : string -> string -> Z -> result RedemptionHints }.

(** [instanceof TroveWithPendingRedistribution] tells the two apart. *)
Inductive AnyTrove : Type :=
| PlainTrove (t : Trove)
| PendingTrove (t : TroveWithPendingRedistribution).

#[local] Unset Elimination Schemes.

(** A redemption that can be retried with a bigger amount when truncated. *)
Inductive PopulatedEthersRedemption : Type :=
| mkRedemption
    (redemption_transaction : PopulatedEthersLiquityTransaction (option RedemptionDetails))
    (attempted redeemable : Decimal) (truncated : bool)
    (_increase : option (option Decimalish -> result PopulatedEthersRedemption)).

#[local] Set Elimination Schemes.

Definition redemption_transaction (r : PopulatedEthersRedemption) :=
  match r with mkRedemption tx _ _ _ _ => tx end.
Definition redemption_attempted (r : PopulatedEthersRedemption) : Decimal :=
  match r with mkRedemption _ a _ _ _ => a end.
Definition redeemableZUSDAmount (r : PopulatedEthersRedemption) : Decimal :=
  match r with mkRedemption _ _ a _ _ => a end.
Definition isTruncated (r : PopulatedEthersRedemption) : bool :=
  match r with mkRedemption _ _ _ b _ => b end.
Definition _increaseAmountByMinimumNetDebt (r : PopulatedEthersRedemption) :=
  match r with mkRedemption _ _ _ _ f => f end.

Definition increaseAmountByMinimumNetDebt (this : PopulatedEthersRedemption)
    (maxRedemptionRate : option Decimalish) : result PopulatedEthersRedemption :=
  match _increaseAmountByMinimumNetDebt this with
  | None => Throw (Error ("PopulatedEthersRedemption: increaseAmountByMinimumNetDebt() can " +:+
                          "only be called when amount is truncated"))
  | Some increase => increase maxRedemptionRate
  end.

Definition new_PopulatedEthersRedemption (contracts : LogContracts) (raw : PopulatedTransaction)
    (attempted redeemable : Decimal)
    (increase : option (option Decimalish -> result PopulatedEthersRedemption))
    : result PopulatedEthersRedemption :=
  let! truncated := Decimal.lt redeemable attempted in
  Ok (mkRedemption (mkPopulated raw (redemption_parse contracts)) attempted redeemable truncated increase).

Module PopulatableEthersLiquity.
Section Populatable.
Variable connection : EthersLiquityConnection.
Variable _readable : ReadableLiquity (option EthersCallOverrides).
Variable contracts : LogContracts.
Variable calls : ContractCalls.
Variable hints : HintContracts.
Variable priceFeedIsTestnet : bool.
Variable random : number.

Definition Overrides : Type := option TxOverrides.
Definition overrides_from (o : Overrides) : option string := o ≫= tx_from.

(** *** Hints *)

Definition collectApproxHint (nominalCollateralRatio : Decimal) (state : Z * list ApproxHint)
    (numberOfTrials : Z) : result (Z * list ApproxHint) :=
  let '(latestRandomSeed, results) := state in
  let! r := getApproxHint hints (Decimal.hex nominalCollateralRatio) numberOfTrials latestRandomSeed in
  let '(result, latestRandomSeed) := r in
  Ok (latestRandomSeed, results ++ [result]).

(** [trials.reduce((p, n) => p.then(state => collectApproxHint(state, n)), ...)] *)
Fixpoint collect_all (nominalCollateralRatio : Decimal) (state : Z * list ApproxHint) (trials : list Z)
    : result (Z * list ApproxHint) :=
  match trials with
  | [] => Ok state
  | n :: trials =>
      let! state := collectApproxHint nominalCollateralRatio state n in
      collect_all nominalCollateralRatio state trials
  end.

(** [results.reduce((a, b) => (a.diff.lt(b.diff) ? a : b))] *)
Definition closer (a b : ApproxHint) : ApproxHint := if diff a <? diff b then a else b.

Definition best_hint (results : list ApproxHint) : result ApproxHint :=
  match results with
  | [] => Throw TypeError
  | r :: results => Ok (fold_left closer results r)
  end.

Definition _findHintsForNominalCollateralRatio (nominalCollateralRatio : Decimal)
    : result (string * string) :=
  let! numberOfTroves := getNumberOfTroves _readable None in
  if numberOfTroves =? 0 then Ok (AddressZero, AddressZero)
  else match Decimal.infinite nominalCollateralRatio with
  | Some _ => let! first := getFirst hints in Ok (AddressZero, first)
  | None =>
      let! trials := generateTrials (totalNumberOfTrials numberOfTroves) in
      let! state := collect_all nominalCollateralRatio (randomInteger random, []) trials in
      let! best := best_hint (snd state) in
      findInsertPosition hints (Decimal.hex nominalCollateralRatio) (hintAddress best) (hintAddress best)
  end.

Definition _findHints (trove : AnyTrove) : result (string * string) :=
  match trove with
  | PendingTrove _ => Throw (Error "Rewards must be applied to this Trove")
  | PlainTrove t =>
      let! ratio := Trove._nominalCollateralRatio t in _findHintsForNominalCollateralRatio ratio
  end.

Definition findHints (trove : AnyTrove) : result (string * string) := _findHints trove.

Definition _findRedemptionHints (amount : Decimal)
    : result (Decimal * string * (string * string * N)) :=
  let! price := getPrice _readable None in
  let! h := getRedemptionHints hints (Decimal.hex amount) (Decimal.hex price) _redeemMaxIterations in
  let nicr := partialRedemptionHintNICR h in
  let! partialHints :=
    if (nicr =? 0)%N then Ok (AddressZero, AddressZero)
    else let! ratio := decimalify nicr in _findHintsForNominalCollateralRatio ratio in
  let! truncatedAmount := decimalify (truncatedZUSDamount h) in
  Ok (truncatedAmount, firstRedemptionHint h, (fst partialHints, snd partialHints, nicr)).

(** [...(await this._findHints(trove))] *)
Definition hint_args (h : string * string) : list arg := [AAddress (fst h); AAddress (snd h)].

(** *** Troves *)

(** [maxBorrowingRate !== undefined ? Decimal.from(maxBorrowingRate) : ...] *)
Definition given_or (rate : option Decimalish) (otherwise : result Decimal) : result Decimal :=
  match rate with Some r => from r | None => otherwise end.

(** [openTrove] and [openNueTrove] differ in the function they call. *)
Definition open_calling (functionName : string) (params : entries (option Decimalish))
    (maxBorrowingRate : option Decimalish) (overrides : Overrides)
    : result (PopulatedEthersLiquityTransaction (TroveChangeDetails (TroveCreationParams Decimal))) :=
  let! normalized := _normalizeTroveCreation params in
  let! fees := getFees _readable None in
  let! borrowingRate := Fees.borrowingRate fees None in
  let! newTrove := Trove.create (creation_entries normalized) (Some (DDecimal borrowingRate)) in
  let! maxBorrowingRate := given_or maxBorrowingRate
    (Decimal.add borrowingRate defaultBorrowingRateSlippageTolerance) in
  let! h := _findHints (PlainTrove newTrove) in
  let! raw := estimateAndPopulate calls "borrowerOperations" functionName
    (spread_value (Some (Decimal.hex (creation_depositCollateral normalized))) overrides)
    (compose addGasForPotentialLastFeeOperationTimeUpdate addGasForPotentialListTraversal)
    (AHex (Decimal.hex maxBorrowingRate) :: AHex (Decimal.hex (creation_borrowZUSD normalized)) :: hint_args h) in
  Ok (_wrapTroveChangeWithFees contracts normalized raw).

Definition openTrove := open_calling "openTrove".
Definition openNueTrove := open_calling "openNueTrove".

Definition closeTrove (overrides : Overrides) :=
  let! raw := estimateAndPopulate calls "borrowerOperations" "closeTrove" (spread overrides) id [] in
  Ok (_wrapTroveClosure contracts raw).

Definition closeNueTrove (_permitParams : PermitParams) (overrides : Overrides) :=
  let! raw := estimateAndPopulate calls "borrowerOperations" "closeNueTrove" (spread overrides)
    (fun gas => gas * 125 / 100) [APermit _permitParams] in
  Ok (_wrapTroveClosure contracts raw).

(** The part [adjustTrove], [adjustNueTrove] and [withdrawZusdAndConvertToDLLR]
    share: the trove after the change, and the highest rate to accept. *)
Definition adjusted (address : string) (normalized : TroveAdjustmentParams Decimal)
    (maxBorrowingRate : option Decimalish) : result (Trove * Decimal) :=
  let! trove := getTrove _readable (Some address) None in
  let! fees := match borrowZUSD normalized with
               | Some _ => let! f := getFees _readable None in Ok (Some f)
               | None => Ok None
               end in
  let! borrowingRate := match fees with
                        | Some f => let! r := Fees.borrowingRate f None in Ok (Some r)
                        | None => Ok None
                        end in
  let! finalTrove := Trove.adjust (user_trove trove) (adjustment_entries normalized)
                       (DDecimal <$> borrowingRate) in
  let! maxBorrowingRate := given_or maxBorrowingRate
    match borrowingRate with
    | Some r => Decimal.add r defaultBorrowingRateSlippageTolerance
    | None => Ok Decimal.ZERO
    end in
  Ok (finalTrove, maxBorrowingRate).

Definition is_defined {A} (o : option A) : bool := match o with Some _ => true | None => false end.

(** [borrowZUSD ?? repayZUSD ?? Decimal.ZERO] *)
Definition debt_amount (p : TroveAdjustmentParams Decimal) : Decimal :=
  match borrowZUSD p, repayZUSD p with
  | Some b, _ => b
  | None, Some r => r
  | None, None => Decimal.ZERO
  end.

Definition adjust_calling (functionName : string) (extra : list arg)
    (params : entries (option Decimalish)) (maxBorrowingRate : option Decimalish) (overrides : Overrides)
    : result (PopulatedEthersLiquityTransaction (TroveChangeDetails (TroveAdjustmentParams Decimal))) :=
  let! address := _requireAddress connection (overrides_from overrides) in
  let! normalized := _normalizeTroveAdjustment params in
  let! final := adjusted address normalized maxBorrowingRate in
  let '(finalTrove, maxBorrowingRate) := final in
  let! h := _findHints (PlainTrove finalTrove) in
  let! raw := estimateAndPopulate calls "borrowerOperations" functionName
    (spread_value (Decimal.hex <$> depositCollateral normalized) overrides)
    (compose (if is_defined (borrowZUSD normalized) then addGasForPotentialLastFeeOperationTimeUpdate else id)
       addGasForPotentialListTraversal)
    ([AHex (Decimal.hex maxBorrowingRate);
      AHex (Decimal.hex (default Decimal.ZERO (withdrawCollateral normalized)));
      AHex (Decimal.hex (debt_amount normalized));
      ABool (is_defined (borrowZUSD normalized))] ++ hint_args h ++ extra) in
  Ok (_wrapTroveChangeWithFees contracts normalized raw).

Definition adjustTrove := adjust_calling "adjustTrove" [].
Definition adjustNueTrove (params : entries (option Decimalish)) (permitParams : PermitParams) :=
  adjust_calling "adjustNueTrove" [APermit permitParams] params.

Definition depositCollateral_ (amount : Decimalish) (overrides : Overrides) :=
  adjustTrove [("depositCollateral"%string, Some amount)] None overrides.
Definition withdrawCollateral_ (amount : Decimalish) (overrides : Overrides) :=
  adjustTrove [("withdrawCollateral"%string, Some amount)] None overrides.
Definition borrowZUSD_ (amount : Decimalish) (maxBorrowingRate : option Decimalish) (overrides : Overrides) :=
  adjustTrove [("borrowZUSD"%string, Some amount)] maxBorrowingRate overrides.
Definition repayZUSD_ (amount : Decimalish) (overrides : Overrides) :=
  adjustTrove [("repayZUSD"%string, Some amount)] None overrides.

Definition withdrawZusdAndConvertToDLLR (zusdAmount : Decimalish) (maxBorrowingRate : option Decimalish)
    (overrides : Overrides) : result (PopulatedEthersLiquityTransaction unit) :=
  let! address := _requireAddress connection (overrides_from overrides) in
  let! normalized := _normalizeTroveAdjustment [("repayZUSD"%string, Some zusdAmount)] in
  let! final := adjusted address normalized maxBorrowingRate in
  let '(finalTrove, maxBorrowingRate) := final in
  let! h := _findHints (PlainTrove finalTrove) in
  let! raw := estimateAndPopulate calls "borrowerOperations" "withdrawZusdAndConvertToDLLR"
    (spread overrides) id
    (AHex (Decimal.hex maxBorrowingRate)
     :: AHex (Decimal.hex (default Decimal.ZERO (repayZUSD normalized))) :: hint_args h) in
  Ok (_wrapSimpleTransaction raw).

Definition provideToSpFromDLLR (dllrAmount : Decimalish) (permitParams : PermitParams) (overrides : Overrides) :=
  let! amount := from dllrAmount in
  let! raw := estimateAndPopulate calls "stabilityPool" "provideToSpFromDLLR" (spread overrides) id
    [AHex (Decimal.hex amount); APermit permitParams] in
  Ok (_wrapSimpleTransaction raw).

Definition withdrawFromSpAndConvertToDLLR (zusdAmountRequested : Decimalish) (overrides : Overrides) :=
  let! amount := from zusdAmountRequested in
  let! raw := estimateAndPopulate calls "stabilityPool" "withdrawFromSpAndConvertToDLLR" (spread overrides) id
    [AHex (Decimal.hex amount)] in
  Ok (_wrapSimpleTransaction raw).

Definition claimCollateralSurplus (overrides : Overrides) :=
  let! raw := estimateAndPopulate calls "borrowerOperations" "claimCollateral" (spread overrides) id [] in
  Ok (_wrapSimpleTransaction raw).

Definition setPrice (price : Decimalish) (overrides : Overrides) :=
  if priceFeedIsTestnet then
    let! price := from price in
    let! raw := estimateAndPopulate calls "priceFeed" "setPrice" (spread overrides) id
      [AHex (Decimal.hex price)] in
    Ok (_wrapSimpleTransaction raw)
  else Throw (Error "setPrice() unavailable on this deployment of Zero").

(** *** Liquidations *)

(** [address: string | string[]] *)
Definition liquidate (address : string + list string) (overrides : Overrides) :=
  let! raw := match address with
    | inr addresses => estimateAndPopulate calls "troveManager" "batchLiquidateTroves" (spread overrides)
        addGasForZEROIssuance [AAddresses addresses]
    | inl address => estimateAndPopulate calls "troveManager" "liquidate" (spread overrides)
        addGasForZEROIssuance [AAddress address]
    end in
  Ok (_wrapLiquidation contracts raw).

Definition liquidateUpTo (maximumNumberOfTrovesToLiquidate : Z) (overrides : Overrides) :=
  let! raw := estimateAndPopulate calls "troveManager" "liquidateTroves" (spread overrides)
    addGasForZEROIssuance [ANumber maximumNumberOfTrovesToLiquidate] in
  Ok (_wrapLiquidation contracts raw).

(** *** Stability pool *)

(** [frontendTag ?? connection.frontendTag ?? AddressZero] *)
Definition tag_or_zero (frontendTag : option string) : string :=
  match frontendTag, connection_frontendTag connection with
  | Some t, _ => t
  | None, Some t => t
  | None, None => AddressZero
  end.

Definition depositZUSDInStabilityPool (amount : Decimalish) (frontendTag : option string) (overrides : Overrides) :=
  let! depositZUSD := from amount in
  let! raw := estimateAndPopulate calls "stabilityPool" "provideToSP" (spread overrides)
    addGasForZEROIssuance [AHex (Decimal.hex depositZUSD); AAddress (tag_or_zero frontendTag)] in
  Ok (_wrapStabilityDepositTopup contracts depositZUSD raw).

Definition withdrawZUSDFromStabilityPool (amount : Decimalish) (overrides : Overrides) :=
  let! amount := from amount in
  let! raw := estimateAndPopulate calls "stabilityPool" "withdrawFromSP" (spread overrides)
    addGasForZEROIssuance [AHex (Decimal.hex amount)] in
  Ok (_wrapStabilityDepositWithdrawal contracts raw).

Definition withdrawGainsFromStabilityPool (overrides : Overrides) :=
  let! raw := estimateAndPopulate calls "stabilityPool" "withdrawFromSP" (spread overrides)
    addGasForZEROIssuance [AHex (Decimal.hex Decimal.ZERO)] in
  Ok (_wrapStabilityPoolGainsWithdrawal contracts raw).

Definition transferCollateralGainToTrove (overrides : Overrides) :=
  let! address := _requireAddress connection (overrides_from overrides) in
  let! initialTrove := getTrove _readable (Some address) None in
  let! stabilityDeposit := getStabilityDeposit _readable (Some address) None in
  let! finalTrove := Trove.addCollateral (user_trove initialTrove) (deposit_collateralGain stabilityDeposit) in
  let! h := _findHints (PlainTrove finalTrove) in
  let! raw := estimateAndPopulate calls "stabilityPool" "withdrawETHGainToTrove" (spread overrides)
    (compose addGasForPotentialListTraversal addGasForZEROIssuance) (hint_args h) in
  Ok (_wrapCollateralGainTransfer contracts raw).

(** *** Tokens *)

Definition sendZUSD (toAddress : string) (amount : Decimalish) (overrides : Overrides) :=
  let! amount := from amount in
  let! raw := estimateAndPopulate calls "zusdToken" "transfer" (spread overrides) id
    [AAddress toAddress; AHex (Decimal.hex amount)] in
  Ok (_wrapSimpleTransaction raw).

Definition sendZERO (toAddress : string) (amount : Decimalish) (overrides : Overrides) :=
  let! amount := from amount in
  let! raw := estimateAndPopulate calls "zeroToken" "transfer" (spread overrides) id
    [AAddress toAddress; AHex (Decimal.hex amount)] in
  Ok (_wrapSimpleTransaction raw).

(** *** Redemptions *)

Definition defaultMaxRedemptionRate (fees : Fees) (total : Trove) (amount : Decimal) : result Decimal :=
  let! fraction := Decimal.div amount (debt total) in
  let! rate := Fees.redemptionRate fees (Some (DDecimal fraction)) None in
  let! rate := Decimal.add rate defaultRedemptionRateSlippageTolerance in
  Decimal.min rate Decimal.ONE.

(** A retry passes neither a truncated amount nor hints, so its amount is not
    truncated and it offers no further retry: two levels of [fuel] are enough. *)
Fixpoint populateRedemption (fuel : nat) (fees : Fees) (total : Trove) (firstHint : string)
    (overrides : Overrides) (attempted : Decimal) (maxRedemptionRate : option Decimalish)
    (truncatedAmount : option Decimal) (partialHints : option (string * string * N))
    : result PopulatedEthersRedemption :=
  match fuel with
  | O => Throw RangeError
  | S fuel =>
      let truncatedAmount := default attempted truncatedAmount in
      let '(upper, lower, nicr) := default (AddressZero, AddressZero, 0%N) partialHints in
      let! maxRedemptionRateOrDefault :=
        given_or maxRedemptionRate (defaultMaxRedemptionRate fees total truncatedAmount) in
      let! raw := estimateAndPopulate calls "troveManager" "redeemCollateral" (spread overrides)
        addGasForPotentialLastFeeOperationTimeUpdate
        [AHex (Decimal.hex truncatedAmount); AAddress firstHint; AAddress upper; AAddress lower;
         ANumber (Z.of_N nicr); ANumber _redeemMaxIterations;
         AHex (Decimal.hex maxRedemptionRateOrDefault)] in
      let! less := Decimal.lt truncatedAmount attempted in
      new_PopulatedEthersRedemption contracts raw attempted truncatedAmount
        (if less then
           Some (fun newMaxRedemptionRate =>
             let! increased := Decimal.add truncatedAmount ZUSD_MINIMUM_NET_DEBT in
             populateRedemption fuel fees total firstHint overrides increased
               (match newMaxRedemptionRate with Some r => Some r | None => maxRedemptionRate end)
               None None)
         else None)
  end.

Definition redeemZUSD (amount : Decimalish) (maxRedemptionRate : option Decimalish) (overrides : Overrides)
    : result PopulatedEthersRedemption :=
  let! attemptedZUSDAmount := from amount in
  let! fees := getFees _readable None in
  let! total := getTotal _readable None in
  let! h := _findRedemptionHints attemptedZUSDAmount in
  let '(truncatedAmount, firstHint, partialHints) := h in
  if Decimal.isZero truncatedAmount then
    Throw (Error ("redeemZUSD: amount too low to redeem (try at least " +:+
                  Trove.show ZUSD_MINIMUM_NET_DEBT +:+ ")"))
  else populateRedemption 2 fees total firstHint overrides attemptedZUSDAmount maxRedemptionRate
         (Some truncatedAmount) (Some partialHints).

(** The body is that of [redeemZUSD]; [permitParams] is not used. *)
Definition redeemCollateralViaDLLR (amount : Decimalish) (permitParams : PermitParams)
    (maxRedemptionRate : option Decimalish) (overrides : Overrides) : result PopulatedEthersRedemption :=
  let! attemptedZUSDAmount := from amount in
  let! fees := getFees _readable None in
  let! total := getTotal _readable None in
  let! h := _findRedemptionHints attemptedZUSDAmount in
  let '(truncatedAmount, firstHint, partialHints) := h in
  if Decimal.isZero truncatedAmount then
    Throw (Error ("redeemZUSD: amount too low to redeem (try at least " +:+
                  Trove.show ZUSD_MINIMUM_NET_DEBT +:+ ")"))
  else populateRedemption 2 fees total firstHint overrides attemptedZUSDAmount maxRedemptionRate
         (Some truncatedAmount) (Some partialHints).

(** *** Staking and frontends *)

Definition stakeZERO (amount : Decimalish) (overrides : Overrides) :=
  let! amount := from amount in
  let! raw := estimateAndPopulate calls "zeroStaking" "stake" (spread overrides) id [AHex (Decimal.hex amount)] in
  Ok (_wrapSimpleTransaction raw).

Definition unstakeZERO (amount : Decimalish) (overrides : Overrides) :=
  let! amount := from amount in
  let! raw := estimateAndPopulate calls "zeroStaking" "unstake" (spread overrides) id [AHex (Decimal.hex amount)] in
  Ok (_wrapSimpleTransaction raw).

Definition withdrawGainsFromStaking (overrides : Overrides) := unstakeZERO Decimal.ZERO overrides.

Definition registerFrontend (kickbackRate : Decimalish) (overrides : Overrides) :=
  let! rate := from kickbackRate in
  let! raw := estimateAndPopulate calls "stabilityPool" "registerFrontEnd" (spread overrides) id
    [AHex (Decimal.hex rate)] in
  Ok (_wrapSimpleTransaction raw).

End Populatable.
End PopulatableEthersLiquity.
