(* ===== verification/PopulatableFacts.v ===== *)
(** * Properties of the populated transactions

    The trials and the result of a hint search, the arguments of the calls that
    open and adjust a Trove, the redemption protocol. *)

From S2P Require Import Prelude JsString JsNumber LibDecimal DecimalText LibConstants LibTrove TroveFacts.
From S2P Require Import LibFees LibDeposit LibStore LibReadable EthersConnection EthersReadable EthersTx.
From S2P Require Import EthersPopulatable.
Import PopulatableEthersLiquity.
Local Open Scope Z_scope.

(** ** Trials *)

Definition sum (l : list Z) : Z := foldr Z.add 0 l.

Lemma trials_loop_spec fuel n :
  0 <= n -> (Z.to_nat n <= fuel)%nat ->
  sum (trials_loop fuel n) = n /\
  Forall (fun t => 1 <= t <= maxNumberOfTrialsAtOnce) (trials_loop fuel n) /\
  Z.of_nat (length (trials_loop fuel n)) = (n + (maxNumberOfTrialsAtOnce - 1)) / maxNumberOfTrialsAtOnce.
Proof.
  unfold maxNumberOfTrialsAtOnce. revert n. induction fuel as [|fuel IH]; intros n Hn Hf; simpl.
  - assert (n = 0) as -> by lia. by repeat split.
  - case_Zb; [subst; by repeat split|].
    destruct (IH (n - Z.min n maxNumberOfTrialsAtOnce)) as (Hs & Ht & Hl);
      unfold maxNumberOfTrialsAtOnce in *; [lia | lia |].
    repeat split; [simpl; lia | constructor; [lia | done] |].
    cbn [length]. rewrite Nat2Z.inj_succ, Hl.
    destruct (Z.le_gt_cases n 2500).
    + rewrite Z.min_l, Z.sub_diag by lia. change ((0 + (2500 - 1)) / 2500) with 0. apply Z.div_unique with (n - 1); lia.
    + rewrite Z.min_r by lia. rewrite <- Z.add_1_r, <- Z.div_add by lia. f_equal. lia.
Qed.

Lemma generateTrials_Ok n :
  0 < n -> generateTrials n = Ok (trials_loop (Z.to_nat n) n).
Proof. intros H. unfold generateTrials. by rewrite (proj2 (Z.ltb_lt 0 n)) by done. Qed.

(** [generateTrials] splits a positive total into the fewest calls: every
    batch has between 1 and [maxNumberOfTrialsAtOnce] trials, they add up to the
    total; any other total fails the assertion. *)
Theorem generateTrials_spec (n : Z) :
  if 0 <? n then
    exists l, generateTrials n = Ok l /\ sum l = n /\
      Forall (fun t => 1 <= t <= maxNumberOfTrialsAtOnce) l /\
      Z.of_nat (length l) = (n + (maxNumberOfTrialsAtOnce - 1)) / maxNumberOfTrialsAtOnce
  else generateTrials n = Throw AssertionError.
Proof.
  destruct (Z.ltb_spec 0 n) as [H|H].
  - rewrite generateTrials_Ok by done. eexists. split; [done|]. apply trials_loop_spec; lia.
  - unfold generateTrials. by rewrite (proj2 (Z.ltb_ge 0 n)) by done.
Qed.

(** ** Hints *)

Lemma totalNumberOfTrials_pos n : 1 <= n <= MAX_SAFE_INTEGER -> 1 <= totalNumberOfTrials n.
Proof.
  intros H. apply (Math_ceil_at_least_one 343), times_at_least_one; [lia|].
  by apply Math_sqrt_at_least_one.
Qed.

(** The search: one call per batch, each with the seed the previous one returned. *)
Inductive hint_calls (hints : HintContracts) (ratio : Decimal) : Z -> list Z -> list ApproxHint -> Prop :=
| no_calls seed : hint_calls hints ratio seed [] []
| one_call seed n trials result seed' results :
    getApproxHint hints (Decimal.hex ratio) n seed = Ok (result, seed') ->
    hint_calls hints ratio seed' trials results ->
    hint_calls hints ratio seed (n :: trials) (result :: results).

Section Search.
Context (hints : HintContracts) (ratio : Decimal).
(** The contract answers every call of the search. *)
Context (answers : forall n seed, exists r, getApproxHint hints (Decimal.hex ratio) n seed = Ok r).

Lemma collect_all_calls trials seed acc :
  exists seed' results, hint_calls hints ratio seed trials results /\
    collect_all hints ratio (seed, acc) trials = Ok (seed', acc ++ results).
Proof.
  revert seed acc. induction trials as [|n trials IH]; intros seed acc.
  - exists seed, []. rewrite app_nil_r. by repeat constructor.
  - destruct (answers n seed) as [[r seed1] Hr].
    destruct (IH seed1 (acc ++ [r])) as (seed' & results & Hc & E).
    exists seed', (r :: results). split; [by econstructor|].
    cbn [collect_all collectApproxHint]. by rewrite Hr, !bind_Ok, E, <- app_assoc.
Qed.

Lemma hint_calls_length seed trials results :
  hint_calls hints ratio seed trials results -> length results = length trials.
Proof. induction 1; simpl; congruence. Qed.
End Search.

Lemma closer_spec a b :
  (closer a b = a \/ closer a b = b) /\ diff (closer a b) <= diff a /\ diff (closer a b) <= diff b.
Proof. unfold closer. case_Zb; repeat split; auto; lia. Qed.

Lemma fold_closer results r :
  fold_left closer results r ∈ r :: results /\
  Forall (fun x => diff (fold_left closer results r) <= diff x) (r :: results).
Proof.
  revert r. induction results as [|x results IH]; intros r; simpl.
  - split; [set_solver | by repeat constructor].
  - destruct (IH (closer r x)) as [Hin Hmin]. destruct (closer_spec r x) as (Hc & Hr & Hx). split.
    + rewrite !elem_of_cons in *. destruct Hin as [Hin|Hin]; [rewrite Hin|]; tauto.
    + inversion_clear Hmin as [|?? Hle Hall]. repeat constructor; try done; lia.
Qed.

(** With Troves in the list and a finite ratio, the hint search makes
    [ceil (10 * sqrt n)] trials in all, in batches chained by the random seed,
    and asks [findInsertPosition] for the position next to a hint that no
    batch improves on; it returns what that call returns. *)
Theorem findHints_best (readable : ReadableLiquity (option EthersCallOverrides)) (hints : HintContracts)
    (random : number) (ratio : Decimal) (n : Z) :
  getNumberOfTroves readable None = Ok n -> 1 <= n <= MAX_SAFE_INTEGER ->
  Decimal.infinite ratio = None ->
  (forall k seed, exists r, getApproxHint hints (Decimal.hex ratio) k seed = Ok r) ->
  exists trials results best,
    sum trials = totalNumberOfTrials n /\
    Forall (fun t => 1 <= t <= maxNumberOfTrialsAtOnce) trials /\
    hint_calls hints ratio (randomInteger random) trials results /\
    best ∈ results /\ Forall (fun x => diff best <= diff x) results /\
    _findHintsForNominalCollateralRatio readable hints random ratio =
      findInsertPosition hints (Decimal.hex ratio) (hintAddress best) (hintAddress best).
Proof.
  intros Hn Hr Hi Ha. pose proof (totalNumberOfTrials_pos n Hr) as Hp.
  set (N := totalNumberOfTrials n) in *.
  destruct (trials_loop_spec (Z.to_nat N) N) as (Hs & Ht & Hl); [lia | lia |].
  destruct (collect_all_calls hints ratio Ha (trials_loop (Z.to_nat N) N) (randomInteger random) [])
    as (seed & results & Hc & E).
  pose proof (hint_calls_length hints ratio _ _ _ Hc) as Hlen.
  destruct results as [|r results].
  { exfalso. cbn [length] in Hlen. rewrite <- Hlen in Hl. symmetry in Hl.
    apply Z.div_small_iff in Hl; unfold maxNumberOfTrialsAtOnce in *; lia. }
  exists (trials_loop (Z.to_nat N) N), (r :: results), (fold_left closer results r).
  destruct (fold_closer results r) as [Hin Hmin].
  repeat split; [done | done | done | done | done |].
  unfold _findHintsForNominalCollateralRatio. rewrite Hn, bind_Ok, (proj2 (Z.eqb_neq n 0)), Hi by lia.
  fold N. rewrite generateTrials_Ok, bind_Ok, E by lia. reflexivity.
Qed.

(** ** The calls that change a Trove *)

(** What an encoded amount denotes. *)
Definition uint (a : arg) : option Z :=
  match a with
  | AHex h => match BigNumber_from (chars h) with Ok n => Some n | Throw _ => None end
  | ANumber n => Some n
  | _ => None
  end.

Lemma uint_hex (d : Decimal) : uint (AHex (Decimal.hex d)) = Some (bn d).
Proof. unfold uint, Decimal.hex. by rewrite BigNumber_from_hex by apply bn_nonneg. Qed.

(** The arguments of [BorrowerOperations.adjustTrove]. *)
Record adjustment_call : Type := mkAdjustmentCall {
  maxFeePercentage : Z;
  collWithdrawal : Z;
  ZUSDChange : Z;
  isDebtIncrease : bool;
  upperHint : string;
  lowerHint : string }.

Definition decode_adjustTrove (args : list arg) : option adjustment_call :=
  match args with
  | [m; w; d; ABool b; AAddress u; AAddress l] =>
      m ← uint m; w ← uint w; d ← uint d; Some (mkAdjustmentCall m w d b u l)
  | _ => None
  end.

(** The Trove that call leaves when [value] is sent with it and borrowing
    costs [rate]. *)
Definition trove_after (rate : Decimal) (t : Trove) (value : Z) (c : adjustment_call) : Trove :=
  mkTrove (dec (Z.max 0 (bn (collateral t) + value - collWithdrawal c)))
          (dec (Z.max 0 (if isDebtIncrease c then bn (debt t) + owed rate (ZUSDChange c)
                         else bn (debt t) - ZUSDChange c))).

Lemma fromEntries_nonzero_lookup (es : entries Decimal) k x :
  fromEntries (filter (fun e => nonZero e = true) es) !! k = Some x -> 0 < bn x.
Proof.
  intros H. apply elem_of_list_to_map_2, elem_of_reverse, list_elem_of_filter in H as [H _].
  unfold nonZero in H. cbn [snd] in H. apply DecimalFacts.isZero_false. by destruct (Decimal.isZero x).
Qed.

Lemma normalized_nonzero params p : _normalizeTroveAdjustment params = Ok p -> params_nonzero p.
Proof.
  unfold _normalizeTroveAdjustment. intros H. inv_ok.
  apply adjustment_from_reads in H as (H1 & H2 & H3 & H4).
  unfold params_nonzero. unfold depositCollateral, withdrawCollateral, borrowZUSD, repayZUSD in *.
  split; [destruct (collateral_part p) as [[x|x]|] | destruct (debt_part p) as [[x|x]|]]; try done;
    eapply fromEntries_nonzero_lookup; symmetry; eassumption.
Qed.

Section Calls.
Context (connection : EthersLiquityConnection) (readable : ReadableLiquity (option EthersCallOverrides)).
Context (contracts : LogContracts) (calls : ContractCalls) (hints : HintContracts) (random : number).
Context (address : string) (trove : UserTrove) (Htrove : getTrove readable (Some address) None = Ok trove).

(** Without borrowing no fees are read. *)
Lemma adjusted_repayment p :
  params_nonzero p -> borrowZUSD p = None ->
  adjusted readable address p None =
  Ok (mkTrove
        (dec (Z.max 0 (bn (collateral (user_trove trove)) + amount (depositCollateral p)
                       - amount (withdrawCollateral p))))
        (dec (Z.max 0 (bn (debt (user_trove trove)) - amount (repayZUSD p)))), Decimal.ZERO).
Proof.
  intros Hp E. unfold adjusted, Trove.adjust.
  rewrite Htrove, bind_Ok, normalize_adjustment_entries, E, !bind_Ok by done.
  cbn [fmap option_fmap option_map].
  change (Trove.apply (user_trove trove) (Some (adjustment p None)) None) with
    (Trove.apply (user_trove trove) (Some (adjustment p None)) (Some (DDecimal MINIMUM_BORROWING_RATE))).
  rewrite apply_adjustment, !bind_Ok, E. change (amount None) with 0.
  by rewrite owed_zero, Z.add_0_r.
Qed.

(** The Trove and the rate limit an adjustment arrives at, when the default
    limit is used. *)
Lemma adjusted_default p fees rate :
  params_nonzero p ->
  getFees readable None = Ok fees -> Fees.borrowingRate fees None = Ok rate ->
  adjusted readable address p None =
  Ok (mkTrove
        (dec (Z.max 0 (bn (collateral (user_trove trove)) + amount (depositCollateral p)
                       - amount (withdrawCollateral p))))
        (dec (Z.max 0 (bn (debt (user_trove trove)) + owed rate (amount (borrowZUSD p))
                       - amount (repayZUSD p)))),
      if is_defined (borrowZUSD p) then dec (bn rate + bn defaultBorrowingRateSlippageTolerance)
      else Decimal.ZERO).
Proof.
  intros Hp Hf Hr. unfold adjusted, Trove.adjust. rewrite Htrove, bind_Ok.
  rewrite normalize_adjustment_entries by done.
  destruct (borrowZUSD p) as [b|] eqn:E.
  - rewrite Hf, !bind_Ok, Hr, !bind_Ok. cbn [fmap option_fmap option_map].
    rewrite apply_adjustment, !bind_Ok, E. cbn [given_or]. by rewrite DecimalFacts.add_decimal.
  - pose proof (adjusted_repayment p Hp E) as Hrep. unfold adjusted, Trove.adjust in Hrep.
    rewrite Htrove, bind_Ok, normalize_adjustment_entries, E in Hrep by done. rewrite Hrep.
    change (amount None) with 0. by rewrite owed_zero, Z.add_0_r.
Qed.

(** C22: [adjustTrove] sends the normalised amounts: the Trove the contract ends
    up with, computed from the encoded arguments and the value sent, is the one
    the hints are looked up for.  The limit on the borrowing rate defaults to the
    current rate plus the tolerance when borrowing and to zero otherwise, and the
    gas estimate has the margin for the list traversal and, when borrowing, for
    the fee operation time. *)
Theorem adjustTrove_call params p fees rate overrides upper lower :
  _normalizeTroveAdjustment params = Ok p ->
  _requireAddress connection (overrides_from overrides) = Ok address ->
  getFees readable None = Ok fees -> Fees.borrowingRate fees None = Ok rate ->
  let value := amount (depositCollateral p) in
  let c := mkAdjustmentCall
    (if is_defined (borrowZUSD p) then bn rate + bn defaultBorrowingRateSlippageTolerance else 0)
    (amount (withdrawCollateral p)) (amount (borrowZUSD p) + amount (repayZUSD p))
    (is_defined (borrowZUSD p)) upper lower in
  _findHints readable hints random (PlainTrove (trove_after rate (user_trove trove) value c)) =
    Ok (upper, lower) ->
  exists args adjustGas,
    decode_adjustTrove args = Some c /\
    (forall gas, adjustGas gas = gas + 80000 + if is_defined (borrowZUSD p) then 10000 else 0) /\
    adjustTrove connection readable contracts calls hints random params None overrides =
      (let! raw := estimateAndPopulate calls "borrowerOperations" "adjustTrove"
                     (spread_value (Decimal.hex <$> depositCollateral p) overrides) adjustGas args in
       Ok (_wrapTroveChangeWithFees contracts p raw)).
Proof.
  intros Hp Ha Hf Hr value c Hh. unfold adjustTrove, adjust_calling.
  rewrite Ha, Hp, !bind_Ok, (adjusted_default p fees rate), bind_Ok by eauto using normalized_nonzero.
  assert (Ht : trove_after rate (user_trove trove) value c = mkTrove
    (dec (Z.max 0 (bn (collateral (user_trove trove)) + amount (depositCollateral p)
                   - amount (withdrawCollateral p))))
    (dec (Z.max 0 (bn (debt (user_trove trove)) + owed rate (amount (borrowZUSD p))
                   - amount (repayZUSD p))))).
  { unfold trove_after. cbn [collWithdrawal ZUSDChange isDebtIncrease c]. f_equal.
    unfold borrowZUSD, repayZUSD. destruct (debt_part p) as [[b|b]|]; cbn [is_defined];
      change (amount None) with 0; rewrite ?owed_zero; do 2 f_equal; rewrite ?Z.add_0_r, ?Z.sub_0_r; lia. }
  rewrite <- Ht, Hh, bind_Ok. eexists _, _. split; [|split; [|reflexivity]].
  - cbn [app hint_args fst snd decode_adjustTrove]. rewrite !uint_hex. cbn [mbind option_bind].
    unfold c, debt_amount, borrowZUSD, repayZUSD. repeat f_equal.
    + destruct (debt_part p) as [[b|b]|]; cbn [is_defined]; rewrite ?bn_dec by (bn_pos; lia); reflexivity.
    + destruct (debt_part p) as [[b|b]|]; change (amount None) with 0; unfold amount; cbn; lia.
  - intros gas. unfold compose, addGasForPotentialLastFeeOperationTimeUpdate, addGasForPotentialListTraversal.
    destruct (is_defined _); unfold id; lia.
Qed.

(** [withdrawZusdAndConvertToDLLR] borrows, but its hints are looked up for
    the Trove with the amount repaid instead, and the limit on the borrowing
    rate it sends by default is zero, whatever the current rate. *)
Theorem withdrawZusd_treated_as_repayment (zusdAmount : Decimal) overrides upper lower :
  0 < bn zusdAmount ->
  _requireAddress connection (overrides_from overrides) = Ok address ->
  _findHints readable hints random
    (PlainTrove (mkTrove (collateral (user_trove trove))
                         (dec (Z.max 0 (bn (debt (user_trove trove)) - bn zusdAmount))))) = Ok (upper, lower) ->
  exists args,
    map uint (take 2 args) = [Some 0; Some (bn zusdAmount)] /\
    drop 2 args = [AAddress upper; AAddress lower] /\
    withdrawZusdAndConvertToDLLR connection readable calls hints random zusdAmount None overrides =
      (let! raw := estimateAndPopulate calls "borrowerOperations" "withdrawZusdAndConvertToDLLR"
                     (spread overrides) id args in Ok (_wrapSimpleTransaction raw)).
Proof.
  intros Hz Ha Hh. set (p := OnlyDebt (ZUSDRepayment zusdAmount)).
  assert (Hp : _normalizeTroveAdjustment [("repayZUSD"%string, Some (DDecimal zusdAmount))] = Ok p).
  { by apply (normalize_adjustment_entries p). }
  unfold withdrawZusdAndConvertToDLLR. rewrite Ha, Hp, !bind_Ok, (adjusted_repayment p), bind_Ok by done.
  change (amount (depositCollateral p)) with 0. change (amount (withdrawCollateral p)) with 0.
  change (amount (repayZUSD p)) with (bn zusdAmount).
  rewrite Z.add_0_r, Z.sub_0_r, Z.max_r, dec_bn, Hh, bind_Ok by apply bn_nonneg.
  eexists. split; [|split; [|reflexivity]]; cbn [take drop map hint_args fst snd]; [|done].
  rewrite !uint_hex. reflexivity.
Qed.
End Calls.

(** [openTrove] sends the deposit as the value of the call, the borrowed
    amount, and by default the current borrowing rate plus the tolerance as its
    limit; the hints are those of the Trove with the fee and the liquidation
    reserve in its debt. *)
Theorem openTrove_call readable contracts calls hints random params p fees rate maxRate limit overrides upper lower :
  _normalizeTroveCreation params = Ok p ->
  getFees readable None = Ok fees -> Fees.borrowingRate fees None = Ok rate ->
  given_or maxRate (Decimal.add rate defaultBorrowingRateSlippageTolerance) = Ok limit ->
  _findHints readable hints random
    (PlainTrove (mkTrove (creation_depositCollateral p)
      (dec (bn ZUSD_LIQUIDATION_RESERVE + owed rate (bn (creation_borrowZUSD p)))))) = Ok (upper, lower) ->
  exists args adjustGas,
    map uint (take 2 args) = [Some (bn limit); Some (bn (creation_borrowZUSD p))] /\
    drop 2 args = [AAddress upper; AAddress lower] /\
    (forall gas, adjustGas gas = gas + 90000) /\
    openTrove readable contracts calls hints random params maxRate overrides =
      (let! raw := estimateAndPopulate calls "borrowerOperations" "openTrove"
                     (spread_value (Some (Decimal.hex (creation_depositCollateral p))) overrides)
                     adjustGas args in
       Ok (_wrapTroveChangeWithFees contracts p raw)).
Proof.
  intros Hp Hf Hr Hl Hh. unfold openTrove, open_calling, Trove.create.
  rewrite Hp, Hf, !bind_Ok, Hr, bind_Ok, normalize_creation_entries, bind_Ok.
  unfold Trove.apply, Trove.rate_or_minimum. cbn [Trove.isEmpty default from_option id].
  change (Trove.isEmpty _emptyTrove) with true. cbv iota.
  rewrite applyFee_decimal, bind_Ok, DecimalFacts.add_decimal, !bind_Ok.
  fold (owed rate (bn (creation_borrowZUSD p))).
  rewrite bn_dec by apply owed_nonneg, bn_nonneg.
  rewrite Hl, bind_Ok, Hh, bind_Ok.
  eexists _, _. split; [|split; [|split; [|reflexivity]]]; cbn [take drop map hint_args fst snd]; [|done|].
  - rewrite !uint_hex. reflexivity.
  - intros gas. unfold compose, addGasForPotentialLastFeeOperationTimeUpdate, addGasForPotentialListTraversal. lia.
Qed.

(** ** Redemptions *)

Definition not_truncated : js_error :=
  Error ("PopulatedEthersRedemption: increaseAmountByMinimumNetDebt() can " +:+
         "only be called when amount is truncated").

(** A rate given by the caller is a decimal. *)
Definition readable_rate (maxRate : option Decimalish) : Prop :=
  match maxRate with Some m => exists rate, from m = Ok rate | None => True end.

(** The rate limit sent: the one given, whatever it is, or by default one between
    the minimum redemption rate and one. *)
Definition limited_by (fees : Fees) (total : Trove) (redeemed : Decimal) (maxRate : option Decimalish)
    (rate : Decimal) : Prop :=
  match maxRate with
  | Some m => from m = Ok rate
  | None => defaultMaxRedemptionRate fees total redeemed = Ok rate /\
            bn MINIMUM_REDEMPTION_RATE <= bn rate <= DIGITS
  end.

(** A populated redemption of the amount [redeemed], from the Trove of [first],
    with the hints [ph]. *)
Definition redeems (calls : ContractCalls) (fees : Fees) (total : Trove) (first : string)
    (overrides : Overrides) (r : PopulatedEthersRedemption) (redeemed : Decimal)
    (ph : string * string * N) (maxRate : option Decimalish) : Prop :=
  redeemableZUSDAmount r = redeemed /\
  exists args adjust rate,
    estimateAndPopulate calls "troveManager" "redeemCollateral" (spread overrides) adjust args =
      Ok (rawPopulatedTransaction (redemption_transaction r)) /\
    uint <$> head args = Some (Some (bn redeemed)) /\
    take 4 (drop 1 args) =
      [AAddress first; AAddress ph.1.1; AAddress ph.1.2; ANumber (Z.of_N ph.2)] /\
    uint <$> last args = Some (Some (bn rate)) /\ limited_by fees total redeemed maxRate rate.

Section Redemption.
Context (readable : ReadableLiquity (option EthersCallOverrides)) (contracts : LogContracts).
Context (calls : ContractCalls) (hints : HintContracts) (random : number).
Context (fees : Fees) (total : Trove) (Hd : decaying fees) (Hrange : in_range fees None).
(** Gas estimation and population succeed. *)
Context (answers : forall f o g args, exists tx, estimateAndPopulate calls "troveManager" f o g args = Ok tx).

Lemma defaultMaxRedemptionRate_bounds amount :
  exists rate, defaultMaxRedemptionRate fees total amount = Ok rate /\
    bn MINIMUM_REDEMPTION_RATE <= bn rate <= DIGITS.
Proof.
  unfold defaultMaxRedemptionRate.
  assert (exists d, Decimal.div amount (debt total) = Ok d) as [d ->].
  { destruct (Decimal.isZero (debt total)) eqn:E.
    - unfold Decimal.div. rewrite from_decimal, bind_Ok, E. by eexists.
    - apply DecimalFacts.isZero_false in E. rewrite DecimalFacts.div_decimal by done. by eexists. }
  rewrite bind_Ok. destruct (redemptionRate_value fees (Some d) None Hd Hrange) as (b & E).
  cbn [fmap option_fmap option_map] in E. rewrite E, bind_Ok, DecimalFacts.add_decimal, bind_Ok,
    DecimalFacts.min_decimal, bn_ONE. eexists. split; [done|].
  assert (bn MINIMUM_REDEMPTION_RATE < DIGITS) by reflexivity. pose proof DIGITS_pos.
  bn_pos. rewrite !bn_dec; rewrite ?bn_dec; lia.
Qed.

Lemma limit_exists amount maxRate : readable_rate maxRate ->
  exists rate, given_or maxRate (defaultMaxRedemptionRate fees total amount) = Ok rate /\
    limited_by fees total amount maxRate rate.
Proof.
  destruct maxRate as [m|]; simpl; [intros [rate E]; by exists rate|].
  intros _. destruct (defaultMaxRedemptionRate_bounds amount) as (rate & E & B). by exists rate.
Qed.

Lemma populateRedemption_level fuel first overrides attempted truncated ph maxRate :
  readable_rate maxRate ->
  exists r, populateRedemption contracts calls (S fuel) fees total first overrides attempted maxRate
      (Some truncated) (Some ph) = Ok r /\
    redemption_attempted r = attempted /\ redeems calls fees total first overrides r truncated ph maxRate /\
    isTruncated r = (bn truncated <? bn attempted) /\
    forall rate, increaseAmountByMinimumNetDebt r rate =
      if bn truncated <? bn attempted then
        populateRedemption contracts calls fuel fees total first overrides
          (dec (bn truncated + bn ZUSD_MINIMUM_NET_DEBT)) (union rate maxRate) None None
      else Throw not_truncated.
Proof.
  intros Hm. destruct ph as [[u l] nicr]. cbn [populateRedemption default from_option id].
  destruct (limit_exists truncated maxRate Hm) as (rate & -> & Hr). rewrite bind_Ok.
  destruct (answers "redeemCollateral" (spread overrides) addGasForPotentialLastFeeOperationTimeUpdate
    [AHex (Decimal.hex truncated); AAddress first; AAddress u; AAddress l; ANumber (Z.of_N nicr);
     ANumber _redeemMaxIterations; AHex (Decimal.hex rate)]) as [tx Htx].
  rewrite Htx, bind_Ok, DecimalFacts.lt_decimal, bind_Ok. unfold new_PopulatedEthersRedemption.
  rewrite DecimalFacts.lt_decimal, bind_Ok. eexists. split; [reflexivity|].
  split; [done|]. split; [split; [done|]|split; [done|]].
  - exists [AHex (Decimal.hex truncated); AAddress first; AAddress u; AAddress l; ANumber (Z.of_N nicr);
      ANumber _redeemMaxIterations; AHex (Decimal.hex rate)],
      addGasForPotentialLastFeeOperationTimeUpdate, rate.
    cbn [redemption_transaction rawPopulatedTransaction head last fmap option_fmap option_map].
    by rewrite !uint_hex.
  - intros rate'. unfold increaseAmountByMinimumNetDebt. cbn [_increaseAmountByMinimumNetDebt].
    case_Zb; [|done]. rewrite DecimalFacts.add_decimal, bind_Ok. by destruct rate', maxRate.
Qed.

Lemma populateRedemption_retry fuel first overrides attempted maxRate :
  populateRedemption contracts calls (S fuel) fees total first overrides attempted maxRate None None =
  populateRedemption contracts calls (S fuel) fees total first overrides attempted maxRate
    (Some attempted) (Some (AddressZero, AddressZero, 0%N)).
Proof. reflexivity. Qed.

Lemma readable_union rate maxRate :
  readable_rate rate -> readable_rate maxRate -> readable_rate (union rate maxRate).
Proof. by destruct rate, maxRate. Qed.

(** C24: [redeemZUSD] populates a redemption of the truncated amount, from the
    Trove and with the hints found.  Its rate limit is the one given by the
    caller, even above one; without one it is the current redemption rate of the
    amount plus the tolerance, between the minimum rate and one.  When the amount was
    cut down, the redemption says so and can be increased once, to the truncated
    amount plus the minimum net debt, with no hints and with a new limit or the
    same one; the increased one is not truncated, and calling it again throws, as it
    does when nothing was cut.  This is for fees that decay and are read in
    the range of their exponent, a contract for which gas estimation and population
    succeed, and limits that are decimals. *)
Theorem redeemZUSD_protocol amount attempted truncated first ph maxRate overrides :
  from amount = Ok attempted -> getFees readable None = Ok fees -> getTotal readable None = Ok total ->
  _findRedemptionHints readable hints random attempted = Ok (truncated, first, ph) ->
  0 < bn truncated -> readable_rate maxRate ->
  exists r, redeemZUSD readable contracts calls hints random amount maxRate overrides = Ok r /\
    redemption_attempted r = attempted /\ redeems calls fees total first overrides r truncated ph maxRate /\
    isTruncated r = (bn truncated <? bn attempted) /\
    if isTruncated r then
      forall newRate, readable_rate newRate ->
      exists r', increaseAmountByMinimumNetDebt r newRate = Ok r' /\
        redeems calls fees total first overrides r' (dec (bn truncated + bn ZUSD_MINIMUM_NET_DEBT))
          (AddressZero, AddressZero, 0%N) (union newRate maxRate) /\
        redemption_attempted r' = redeemableZUSDAmount r' /\ isTruncated r' = false /\
        forall rate, increaseAmountByMinimumNetDebt r' rate = Throw not_truncated
    else forall rate, increaseAmountByMinimumNetDebt r rate = Throw not_truncated.
Proof.
  intros Ha Hf Ht Hh Hz Hm. unfold redeemZUSD. rewrite Ha, bind_Ok, Hf, Ht, !bind_Ok, Hh, bind_Ok.
  rewrite (proj2 (DecimalFacts.isZero_false truncated)) by done.
  destruct (populateRedemption_level 1 first overrides attempted truncated ph maxRate Hm)
    as (r & -> & Hatt & Hred & Htr & Hinc).
  exists r. rewrite Htr in *. split; [done|]. split; [done|]. split; [done|]. split; [done|].
  destruct (Z.ltb_spec (bn truncated) (bn attempted)); [|done].
  intros newRate Hn. rewrite Hinc, populateRedemption_retry.
  set (more := dec _).
  destruct (populateRedemption_level 0 first overrides more more (AddressZero, AddressZero, 0%N)
    (union newRate maxRate)) as (r' & -> & Hatt' & Hred' & Htr' & Hinc'); [by apply readable_union|].
  rewrite Z.ltb_irrefl in *. exists r'. split; [done|]. split; [done|].
  split; [destruct Hred'; congruence|]. done.
Qed.
End Redemption.

(** ** Examples *)

Definition sample_fees : Fees :=
  mkFees (dec 10000000000000000) MINUTE_DECAY_FACTOR BETA 1600000000000 1600000060000 false.

Definition sample_trove : UserTrove :=
  mkUserTrove (mkTrove (dec 3000000000000000000) (dec 400000000000000000000)) "0x01" open.

(** A backend with one Trove of the user among [n]. *)
Definition sample_backend (n : Z) : ReadableLiquity (option EthersCallOverrides) :=
  let offline {A} : result A := Throw (Rejected "offline") in {|
  LibReadable.getTotalRedistributed _ := offline;
  LibReadable.getTroveBeforeRedistribution _ _ := offline;
  LibReadable.getTrove a _ := if bool_decide (a = Some "0x01"%string) then Ok sample_trove else offline;
  LibReadable.getNumberOfTroves _ := Ok n;
  LibReadable.getPrice _ := Ok (dec 200000000000000000000);
  LibReadable.getTotal _ := Ok (mkTrove (dec 10000000000000000000) (dec 1500000000000000000000));
  LibReadable.getStabilityDeposit _ _ := offline;
  LibReadable.getRemainingStabilityPoolZEROReward _ := offline;
  LibReadable.getZUSDInStabilityPool _ := offline;
  LibReadable.getZUSDBalance _ _ := offline;
  LibReadable.getZEROBalance _ _ := offline;
  LibReadable.getCollateralSurplusBalance _ _ := offline;
  LibReadable.getTroves _ _ := offline;
  LibReadable.getFees _ := Ok sample_fees;
  LibReadable.getZEROStake _ _ := offline;
  LibReadable.getTotalStakedZERO _ := offline;
  LibReadable.getFrontendStatus _ _ := offline |}.

Definition sample_hints : HintContracts := {|
  getFirst := Ok "0xaa"%string;
  findInsertPosition _ prev next := Ok (prev, next);
  getApproxHint _ n seed := Ok (mkApproxHint "0xbb" (n + seed mod 7), seed + 1);
  getRedemptionHints amount _ _ :=
    Ok (mkRedemptionHints "0xcc" 1200000000000000000 300000000000000000000) |}.

Definition sample_calls : ContractCalls := {|
  estimateGas _ _ _ _ := Ok 200000;
  populateTransaction contract f args o := Ok (mkTx contract f args o) |}.

Definition sample_logs : LogContracts :=
  let c a := mkLogContract a (fun _ => Throw (Rejected "no matching event")) in
  mkLogContracts (c "0x10"%string) (c "0x11"%string) (c "0x12"%string) (c "0x13"%string) (c "0x14"%string).

Lemma findHints_best_witness :
  exists trials results best,
    sum trials = totalNumberOfTrials 70000 /\
    Forall (fun t => 1 <= t <= maxNumberOfTrialsAtOnce) trials /\
    hint_calls sample_hints (dec 5000) (randomInteger (lit "0.5")) trials results /\
    best ∈ results /\ Forall (fun x => diff best <= diff x) results /\
    _findHintsForNominalCollateralRatio (sample_backend 70000) sample_hints (lit "0.5") (dec 5000) =
      findInsertPosition sample_hints (Decimal.hex (dec 5000)) (hintAddress best) (hintAddress best).
Proof.
  apply (findHints_best (sample_backend 70000) sample_hints (lit "0.5") (dec 5000) 70000);
    [reflexivity | unfold MAX_SAFE_INTEGER; lia | vm_compute; reflexivity |].
  intros k seed. eexists. reflexivity.
Defined.

Definition sample_rate : Decimal := Eval vm_compute in
  evaluated Decimal.ZERO (Fees.borrowingRate sample_fees None).

Definition user_overrides : Overrides := Some (mkTxOverrides (Some "0x01"%string) None None None None).

Lemma adjustTrove_call_witness :
  let p := CollateralAndDebt (CollateralDeposit (dec 1000000000000000000)) (ZUSDBorrowing (dec 50000000000000000000)) in
  exists args adjustGas,
    decode_adjustTrove args = Some (mkAdjustmentCall
      (bn sample_rate + 5000000000000000) 0 50000000000000000000 true "0xbb" "0xbb") /\
    (forall gas, adjustGas gas = gas + 80000 + 10000) /\
    adjustTrove sample_connection (sample_backend 5) sample_logs sample_calls sample_hints (lit "0.25")
      [("depositCollateral"%string, Some (Num "1")); ("borrowZUSD"%string, Some (DString "50"))]
      None user_overrides =
      (let! raw := estimateAndPopulate sample_calls "borrowerOperations" "adjustTrove"
                     (spread_value (Some (Decimal.hex (dec 1000000000000000000))) user_overrides) adjustGas args in
       Ok (_wrapTroveChangeWithFees sample_logs p raw)).
Proof.
  intros p.
  apply (adjustTrove_call sample_connection (sample_backend 5) sample_logs sample_calls sample_hints (lit "0.25")
    "0x01" sample_trove eq_refl
    [("depositCollateral"%string, Some (Num "1")); ("borrowZUSD"%string, Some (DString "50"))] p
    sample_fees sample_rate user_overrides "0xbb" "0xbb"); vm_compute; reflexivity.
Defined.

Lemma withdrawZusd_treated_as_repayment_witness :
  exists args,
    map uint (take 2 args) = [Some 0; Some 50000000000000000000] /\
    drop 2 args = [AAddress "0xbb"; AAddress "0xbb"] /\
    withdrawZusdAndConvertToDLLR sample_connection (sample_backend 5) sample_calls sample_hints (lit "0.25")
      (dec 50000000000000000000) None user_overrides =
      (let! raw := estimateAndPopulate sample_calls "borrowerOperations" "withdrawZusdAndConvertToDLLR"
                     (spread user_overrides) id args in Ok (_wrapSimpleTransaction raw)).
Proof.
  apply (withdrawZusd_treated_as_repayment sample_connection (sample_backend 5) sample_calls sample_hints
    (lit "0.25") "0x01" sample_trove eq_refl (dec 50000000000000000000) user_overrides "0xbb" "0xbb");
    vm_compute; reflexivity.
Defined.

Lemma openTrove_call_witness :
  let p := mkCreationParams (dec 2000000000000000000) (dec 200000000000000000000) in
  exists args adjustGas,
    map uint (take 2 args) = [Some (bn sample_rate + 5000000000000000); Some 200000000000000000000] /\
    drop 2 args = [AAddress "0xbb"; AAddress "0xbb"] /\
    (forall gas, adjustGas gas = gas + 90000) /\
    openTrove (sample_backend 5) sample_logs sample_calls sample_hints (lit "0.25") (creation_entries p) None None =
      (let! raw := estimateAndPopulate sample_calls "borrowerOperations" "openTrove"
                     (spread_value (Some (Decimal.hex (dec 2000000000000000000))) None) adjustGas args in
       Ok (_wrapTroveChangeWithFees sample_logs p raw)).
Proof.
  intros p. apply (openTrove_call (sample_backend 5) sample_logs sample_calls sample_hints (lit "0.25")
    (creation_entries p) p sample_fees sample_rate None (dec (bn sample_rate + 5000000000000000)) None "0xbb" "0xbb");
    vm_compute; reflexivity.
Defined.

(** A limit above one is sent as it is given. *)
Lemma redeemZUSD_protocol_witness :
  let total := mkTrove (dec 10000000000000000000) (dec 1500000000000000000000) in
  let ph := ("0xbb"%string, "0xbb"%string, 1200000000000000000%N) in
  exists r, redeemZUSD (sample_backend 5) sample_logs sample_calls sample_hints (lit "0.25")
      (Num "1000") (Some (Num "2")) None = Ok r /\
    redemption_attempted r = dec 1000000000000000000000 /\
    redeems sample_calls sample_fees total "0xcc" None r (dec 300000000000000000000) ph (Some (Num "2")) /\
    isTruncated r = true /\
    if isTruncated r then
      forall newRate, readable_rate newRate ->
      exists r', increaseAmountByMinimumNetDebt r newRate = Ok r' /\
        redeems sample_calls sample_fees total "0xcc" None r'
          (dec (300000000000000000000 + bn ZUSD_MINIMUM_NET_DEBT)) (AddressZero, AddressZero, 0%N)
          (union newRate (Some (Num "2"))) /\
        redemption_attempted r' = redeemableZUSDAmount r' /\ isTruncated r' = false /\
        forall rate, increaseAmountByMinimumNetDebt r' rate = Throw not_truncated
    else forall rate, increaseAmountByMinimumNetDebt r rate = Throw not_truncated.
Proof.
  intros total ph. apply (redeemZUSD_protocol (sample_backend 5) sample_logs sample_calls sample_hints (lit "0.25")
    sample_fees total) with (first := "0xcc"%string) (ph := ph).
  - vm_compute. reflexivity.
  - vm_compute. discriminate.
  - intros f o g args. unfold estimateAndPopulate. destruct (tx_gasLimit o); eexists; reflexivity.
  - vm_compute. reflexivity.
  - reflexivity.
  - reflexivity.
  - vm_compute. reflexivity.
  - vm_compute. reflexivity.
  - exists (dec 2000000000000000000). vm_compute. reflexivity.
Defined.
