(* ===== verification/EthersLiquity.v ===== *)
(** * The objects applications use
    (lib-ethers/src/SendableEthersLiquity.ts, EthersLiquity.ts)

    [SendableEthersLiquity] populates a transaction and sends it; [EthersLiquity] also waits
    for its receipt.  A method with its arguments is a value whose type has the details
    the method returns as an index. *)

From S2P Require Import Prelude JsString JsNumber LibDecimal LibTrove LibFees LibDeposit LibStore LibReadable.
From S2P Require Import EthersConnection EthersTx EthersPopulatable.
Local Open Scope Z_scope.

Definition Overrides_ : Type := option TxOverrides.

(** ** Methods *)

Inductive trove_method : Type -> Type :=
| TOpenTrove (params : entries (option Decimalish)) (maxBorrowingRate : option Decimalish) (overrides : Overrides_)
    : trove_method (TroveChangeDetails (TroveCreationParams Decimal))
| TOpenNueTrove (params : entries (option Decimalish)) (maxBorrowingRate : option Decimalish) (overrides : Overrides_)
    : trove_method (TroveChangeDetails (TroveCreationParams Decimal))
| TCloseTrove (overrides : Overrides_) : trove_method (option Decimal * option Decimal)
| TCloseNueTrove (permitParams : PermitParams) (overrides : Overrides_) : trove_method (option Decimal * option Decimal)
| TAdjustTrove (params : entries (option Decimalish)) (maxBorrowingRate : option Decimalish) (overrides : Overrides_)
    : trove_method (TroveChangeDetails (TroveAdjustmentParams Decimal))
| TRepayZusdFromDLLR (zusdAmount : Decimalish) (permitParams : PermitParams) (maxBorrowingRate : option Decimalish)
    (overrides : Overrides_) : trove_method (TroveChangeDetails (TroveAdjustmentParams Decimal))
| TWithdrawZusdAndConvertToDLLR (zusdAmount : Decimalish) (maxBorrowingRate : option Decimalish) (overrides : Overrides_)
    : trove_method unit
| TAdjustNueTrove (params : entries (option Decimalish)) (permitParams : PermitParams)
    (maxBorrowingRate : option Decimalish) (overrides : Overrides_)
    : trove_method (TroveChangeDetails (TroveAdjustmentParams Decimal))
| TDepositCollateral (amount : Decimalish) (overrides : Overrides_)
    : trove_method (TroveChangeDetails (TroveAdjustmentParams Decimal))
| TWithdrawCollateral (amount : Decimalish) (overrides : Overrides_)
    : trove_method (TroveChangeDetails (TroveAdjustmentParams Decimal))
| TBorrowZUSD (amount : Decimalish) (maxBorrowingRate : option Decimalish) (overrides : Overrides_)
    : trove_method (TroveChangeDetails (TroveAdjustmentParams Decimal))
| TRepayZUSD (amount : Decimalish) (overrides : Overrides_)
    : trove_method (TroveChangeDetails (TroveAdjustmentParams Decimal)).

Inductive pool_method : Type -> Type :=
| TSetPrice (price : Decimalish) (overrides : Overrides_) : pool_method unit
| TLiquidate (address : string + list string) (overrides : Overrides_)
    : pool_method (list string * option LiquidationTotals)
| TLiquidateUpTo (maximumNumberOfTrovesToLiquidate : Z) (overrides : Overrides_)
    : pool_method (list string * option LiquidationTotals)
| TRedeemCollateralViaDLLR (dllrAmount : Decimalish) (permitParams : PermitParams) (maxRedemptionRate : option Decimalish)
    (overrides : Overrides_) : pool_method (option RedemptionDetails)
| TProvideToSpFromDLLR (dllrAmount : Decimalish) (permitParams : PermitParams) (overrides : Overrides_) : pool_method unit
| TWithdrawFromSpAndConvertToDLLR (zusdAmountRequested : Decimalish) (overrides : Overrides_) : pool_method unit
| TDepositZUSDInStabilityPool (amount : Decimalish) (frontendTag : option string) (overrides : Overrides_)
    : pool_method (GainsWithdrawalDetails * StabilityDepositChange Decimal)
| TWithdrawZUSDFromStabilityPool (amount : Decimalish) (overrides : Overrides_)
    : pool_method (GainsWithdrawalDetails * (option Decimal * bool))
| TWithdrawGainsFromStabilityPool (overrides : Overrides_) : pool_method GainsWithdrawalDetails
| TTransferCollateralGainToTrove (overrides : Overrides_) : pool_method (GainsWithdrawalDetails * option Trove).

Inductive token_method : Type -> Type :=
| TSendZUSD (toAddress : string) (amount : Decimalish) (overrides : Overrides_) : token_method unit
| TSendZERO (toAddress : string) (amount : Decimalish) (overrides : Overrides_) : token_method unit
| TRedeemZUSD (amount : Decimalish) (maxRedemptionRate : option Decimalish) (overrides : Overrides_)
    : token_method (option RedemptionDetails)
| TClaimCollateralSurplus (overrides : Overrides_) : token_method unit
| TStakeZERO (amount : Decimalish) (overrides : Overrides_) : token_method unit
| TUnstakeZERO (amount : Decimalish) (overrides : Overrides_) : token_method unit
| TWithdrawGainsFromStaking (overrides : Overrides_) : token_method unit
| TRegisterFrontend (kickbackRate : Decimalish) (overrides : Overrides_) : token_method unit.

Inductive method (D : Type) : Type :=
| TroveMethod (m : trove_method D)
| PoolMethod (m : pool_method D)
| TokenMethod (m : token_method D).
Arguments TroveMethod {D} _.
Arguments PoolMethod {D} _.
Arguments TokenMethod {D} _.

(** What [ReadableEthersLiquity] offers beyond the interface. *)
Record InternalReads := {
  _getActivePool : option EthersCallOverrides -> result Trove;
  _getDefaultPool : option EthersCallOverrides -> result Trove;
  _getFeesFactory : option EthersCallOverrides -> result (Z -> bool -> result Fees) }.

Section Objects.
Variable connection : EthersLiquityConnection.
Variable _readable : ReadableLiquity (option EthersCallOverrides).
Variable _internal : InternalReads.
Variable contracts : LogContracts.
Variable calls : ContractCalls.
Variable hints : HintContracts.
Variable priceFeedIsTestnet : bool.
Variable random : number.
(** Sending and waiting are calls to ethers. *)
Variable signer_sendTransaction : EthersSigner -> PopulatedTransaction -> result string.
Variable waitForTransaction : string -> result (option TransactionReceipt).

Import PopulatableEthersLiquity.

(** ** SendableEthersLiquity *)

Definition sendTransaction {D} (tx : PopulatedEthersLiquityTransaction D) : result (SentEthersLiquityTransaction D) :=
  send signer_sendTransaction connection tx.

Definition populate_trove {D} (m : trove_method D) : result (PopulatedEthersLiquityTransaction D) :=
  match m in trove_method D return result (PopulatedEthersLiquityTransaction D) with
  | TOpenTrove params rate o => openTrove _readable contracts calls hints random params rate o
  | TOpenNueTrove params rate o => openNueTrove _readable contracts calls hints random params rate o
  | TCloseTrove o => closeTrove contracts calls o
  | TCloseNueTrove permit o => closeNueTrove contracts calls permit o
  | TAdjustTrove params rate o => adjustTrove connection _readable contracts calls hints random params rate o
  | TRepayZusdFromDLLR amount permit rate o =>
      adjustNueTrove connection _readable contracts calls hints random [("repayZUSD"%string, Some amount)] permit rate o
  | TWithdrawZusdAndConvertToDLLR amount rate o =>
      withdrawZusdAndConvertToDLLR connection _readable calls hints random amount rate o
  | TAdjustNueTrove params permit rate o =>
      adjustNueTrove connection _readable contracts calls hints random params permit rate o
  | TDepositCollateral amount o => depositCollateral_ connection _readable contracts calls hints random amount o
  | TWithdrawCollateral amount o => withdrawCollateral_ connection _readable contracts calls hints random amount o
  | TBorrowZUSD amount rate o => borrowZUSD_ connection _readable contracts calls hints random amount rate o
  | TRepayZUSD amount o => repayZUSD_ connection _readable contracts calls hints random amount o
  end.

(** A redemption is populated like any other transaction. *)
Definition as_transaction (r : result PopulatedEthersRedemption)
    : result (PopulatedEthersLiquityTransaction (option RedemptionDetails)) :=
  let! tx := r in Ok (redemption_transaction tx).

Definition populate_pool {D} (m : pool_method D) : result (PopulatedEthersLiquityTransaction D) :=
  match m in pool_method D return result (PopulatedEthersLiquityTransaction D) with
  | TSetPrice price o => setPrice calls priceFeedIsTestnet price o
  | TLiquidate address o => liquidate contracts calls address o
  | TLiquidateUpTo n o => liquidateUpTo contracts calls n o
  | TRedeemCollateralViaDLLR amount permit rate o =>
      as_transaction (redeemCollateralViaDLLR _readable contracts calls hints random amount permit rate o)
  | TProvideToSpFromDLLR amount permit o => provideToSpFromDLLR calls amount permit o
  | TWithdrawFromSpAndConvertToDLLR amount o => withdrawFromSpAndConvertToDLLR calls amount o
  | TDepositZUSDInStabilityPool amount tag o => depositZUSDInStabilityPool connection contracts calls amount tag o
  | TWithdrawZUSDFromStabilityPool amount o => withdrawZUSDFromStabilityPool contracts calls amount o
  | TWithdrawGainsFromStabilityPool o => withdrawGainsFromStabilityPool contracts calls o
  | TTransferCollateralGainToTrove o =>
      transferCollateralGainToTrove connection _readable contracts calls hints random o
  end.

Definition populate_token {D} (m : token_method D) : result (PopulatedEthersLiquityTransaction D) :=
  match m in token_method D return result (PopulatedEthersLiquityTransaction D) with
  | TSendZUSD to amount o => sendZUSD calls to amount o
  | TSendZERO to amount o => sendZERO calls to amount o
  | TRedeemZUSD amount rate o =>
      as_transaction (redeemZUSD _readable contracts calls hints random amount rate o)
  | TClaimCollateralSurplus o => claimCollateralSurplus calls o
  | TStakeZERO amount o => stakeZERO calls amount o
  | TUnstakeZERO amount o => unstakeZERO calls amount o
  | TWithdrawGainsFromStaking o => withdrawGainsFromStaking calls o
  | TRegisterFrontend rate o => registerFrontend calls rate o
  end.

Definition populated {D} (m : method D) : result (PopulatedEthersLiquityTransaction D) :=
  match m with
  | TroveMethod m => populate_trove m
  | PoolMethod m => populate_pool m
  | TokenMethod m => populate_token m
  end.

(** [this._populate.method(...).then(sendTransaction)] *)
Definition send_method {D} (m : method D) : result (SentEthersLiquityTransaction D) :=
  let! tx := populated m in sendTransaction tx.

(** ** EthersLiquity *)

(** The details of a mined transaction, or the receipt that the thrown
    [EthersTransactionFailedError] carries. *)
Definition waitForSuccess {D} (tx : SentEthersLiquityTransaction D) : result (LiquityReceipt D + D) :=
  let! receipt := waitForReceipt waitForTransaction tx in
  match receipt with
  | SuccessfulReceipt _ details => Ok (inr details)
  | r => Ok (inl r)
  end.

(** [this.send.method(...).then(waitForSuccess)] *)
Definition transact_trove {D} (m : trove_method D) : result (LiquityReceipt D + D) :=
  let! tx := send_method (TroveMethod m) in waitForSuccess tx.

Definition transact_pool {D} (m : pool_method D) : result (LiquityReceipt D + D) :=
  let! tx := send_method (PoolMethod m) in waitForSuccess tx.

Definition transact_token {D} (m : token_method D) : result (LiquityReceipt D + D) :=
  let! tx := send_method (TokenMethod m) in waitForSuccess tx.

Definition transact {D} (m : method D) : result (LiquityReceipt D + D) :=
  match m with
  | TroveMethod m => transact_trove m
  | PoolMethod m => transact_pool m
  | TokenMethod m => transact_token m
  end.

(** [hasStore] of the object [_from] creates: one with a store when the connection asks for it. *)
Definition hasStore (store : option string) : bool :=
  _usingStore connection && match store with None => true | Some s => bool_decide (Some s = useStore connection) end.

(** The reads are those of the readable object. *)
Definition reads : ReadableLiquity (option EthersCallOverrides) * InternalReads :=
  ({| getTotalRedistributed := fun o => getTotalRedistributed _readable o;
     getTroveBeforeRedistribution := fun address o => getTroveBeforeRedistribution _readable address o;
     getTrove := fun address o => getTrove _readable address o;
     getNumberOfTroves := fun o => getNumberOfTroves _readable o;
     getPrice := fun o => getPrice _readable o;
     getTotal := fun o => getTotal _readable o;
     getStabilityDeposit := fun address o => getStabilityDeposit _readable address o;
     getRemainingStabilityPoolZEROReward := fun o => getRemainingStabilityPoolZEROReward _readable o;
     getZUSDInStabilityPool := fun o => getZUSDInStabilityPool _readable o;
     getZUSDBalance := fun address o => getZUSDBalance _readable address o;
     getZEROBalance := fun address o => getZEROBalance _readable address o;
     getCollateralSurplusBalance := fun address o => getCollateralSurplusBalance _readable address o;
     getTroves := fun params o => getTroves _readable params o;
     getFees := fun o => getFees _readable o;
     getZEROStake := fun address o => getZEROStake _readable address o;
     getTotalStakedZERO := fun o => getTotalStakedZERO _readable o;
     getFrontendStatus := fun address o => getFrontendStatus _readable address o |},
   {| _getActivePool := fun o => _getActivePool _internal o;
      _getDefaultPool := fun o => _getDefaultPool _internal o;
      _getFeesFactory := fun o => _getFeesFactory _internal o |}).

(** ** When a method returns *)

Lemma sent_iff {D} (m : method D) sent : send_method m = Ok sent <->
  exists tx signer hash, populated m = Ok tx /\ _requireSigner connection = Ok signer /\
    signer_sendTransaction signer (rawPopulatedTransaction tx) = Ok hash /\ sent = mkSent hash (_parse tx).
Proof.
  unfold send_method, sendTransaction, send. split.
  - intros H. inv_ok. by eexists _, _, _.
  - intros (tx & signer & hash & -> & Es & Eh & ->). cbn [bind]. by rewrite Es, bind_Ok, Eh.
Qed.

Lemma waited_iff {D} hash (parse : TransactionReceipt -> result D) x : waitForSuccess (mkSent hash parse) = Ok x <->
  exists r, waitForTransaction hash = Ok (Some r) /\
    (if receipt_status r =? 0 then x = inl (FailedReceipt r) else exists d, parse r = Ok d /\ x = inr d).
Proof.
  unfold waitForSuccess, waitForReceipt. cbn [rawSentTransaction_hash].
  destruct (waitForTransaction hash) as [[r|]|e]; cbn [bind _receiptFrom sent_parse].
  - destruct (receipt_status r =? 0) eqn:E; cbn [bind js_assert].
    + split; [intros [= <-]; exists r; by rewrite E|]. intros (r' & [= <-] & H). rewrite E in H. by subst.
    + destruct (parse r) as [d|e] eqn:P; cbn [bind js_assert]; split.
      * intros [= <-]. exists r. rewrite E. eauto.
      * intros (r' & [= <-] & H). rewrite E in H. destruct H as (d' & Hd & ->). congruence.
      * done.
      * intros (r' & [= <-] & H). rewrite E in H. destruct H as (d' & Hd & ->). congruence.
  - split; [done|]. by intros (r & H & _).
  - split; [done|]. by intros (r & H & _).
Qed.

Lemma transact_unfold {D} (m : method D) : transact m = let! tx := send_method m in waitForSuccess tx.
Proof. by destruct m. Qed.

Lemma transact_iff {D} (m : method D) x : transact m = Ok x <->
  exists tx signer hash r, populated m = Ok tx /\ _requireSigner connection = Ok signer /\
    signer_sendTransaction signer (rawPopulatedTransaction tx) = Ok hash /\ waitForTransaction hash = Ok (Some r) /\
    (if receipt_status r =? 0 then x = inl (FailedReceipt r) else exists d, _parse tx r = Ok d /\ x = inr d).
Proof.
  rewrite transact_unfold. split.
  - intros H. inv_ok. apply sent_iff in Hok as (tx & signer & hash & H1 & H2 & H3 & ->).
    apply waited_iff in H as (r & H4 & H5). by exists tx, signer, hash, r.
  - intros (tx & signer & hash & r & H1 & H2 & H3 & H4 & H5).
    assert (send_method m = Ok (mkSent hash (_parse tx))) as -> by (apply sent_iff; eauto 10).
    cbn [bind]. apply waited_iff. eauto.
Qed.

(** A method returns details exactly when its transaction could be populated, signed and sent, and was
    mined with a status other than zero; these are the details parsed from the receipt.  It throws
    with the receipt exactly when the transaction was mined with status zero. *)
Theorem transact_outcome {D} (m : method D) :
  (forall d, transact m = Ok (inr d) <->
    exists tx signer hash r, populated m = Ok tx /\ _requireSigner connection = Ok signer /\
      signer_sendTransaction signer (rawPopulatedTransaction tx) = Ok hash /\ waitForTransaction hash = Ok (Some r) /\
      receipt_status r <> 0 /\ _parse tx r = Ok d) /\
  (forall f, transact m = Ok (inl f) <->
    exists tx signer hash r, populated m = Ok tx /\ _requireSigner connection = Ok signer /\
      signer_sendTransaction signer (rawPopulatedTransaction tx) = Ok hash /\ waitForTransaction hash = Ok (Some r) /\
      receipt_status r = 0 /\ f = FailedReceipt r).
Proof.
  split; intros x; rewrite transact_iff; split; intros (tx & signer & hash & r & H1 & H2 & H3 & H4 & H5);
    exists tx, signer, hash, r; do 4 (split; [done|]); destruct (Z.eqb_spec (receipt_status r) 0) as [E|E].
  - done.
  - destruct H5 as (d & Hd & [= ->]). done.
  - by destruct H5.
  - destruct H5. eauto.
  - by injection H5 as ->.
  - by destruct H5 as (d & _ & ?).
  - by destruct H5 as [_ ->].
  - by destruct H5.
Qed.
End Objects.
