(* ===== verification/EthersObservable.v ===== *)
(** * Observing events and logs
    (lib-ethers/src/ObservableEthersLiquity.ts, lib-ethers/src/parseLogs.ts)

    [debounce] is a timer driven by the events of the contracts, with times in
    milliseconds; the watch functions are the subscriptions they make; log
    parsing turns receipts into text. *)

From S2P Require Import Prelude JsString LibDecimal LibTrove EthersConnection EthersTx.
Local Open Scope Z_scope.

(** ** Debouncing *)

Definition debouncingDelayMs : Z := 50.

(** The variables the closure captures: when the timer that is set expires, and
    the latest block. *)
Record debouncer : Type := mkDebouncer { timeoutId : option Z; latestBlock : Z }.

Definition debounce : debouncer := mkDebouncer None 0.

(** The returned function, called at [now] with an event. *)
Definition on_event (d : debouncer) (now : Z) (blockNumber : option Z) : debouncer :=
  let latest := match blockNumber with
                | Some b => if latestBlock d <? b then b else latestBlock d
                | None => latestBlock d
                end in
  mkDebouncer (Some (now + debouncingDelayMs)) latest.

(** The calls of the listener (time and block) for events in order of time. *)
Fixpoint calls_of (d : debouncer) (events : list (Z * option Z)) : list (Z * Z) :=
  match events with
  | [] => match timeoutId d with Some at_ => [(at_, latestBlock d)] | None => [] end
  | (now, block) :: events =>
      match timeoutId d with
      | Some at_ =>
          if at_ <=? now
          then (at_, latestBlock d) :: calls_of (on_event (mkDebouncer None (latestBlock d)) now block) events
          else calls_of (on_event d now block) events
      | None => calls_of (on_event d now block) events
      end
  end.

(** ** Watching *)

Inductive contract_event : Type :=
| EtherSent (to : string)
| TroveUpdated (borrower : string)
| UserDepositChanged (depositor : string)
| Transfer (from to : string).

(** A filter of a contract's events; [None] matches any address. *)
Inductive event_filter : Type :=
| FEtherSent
| FTroveUpdated (borrower : option string)
| FUserDepositChanged (depositor : string)
| FTransfer (from to : option string).

Definition matches (f : event_filter) (e : contract_event) : bool :=
  let fits o a := match o with Some b => String.eqb a b | None => true end in
  match f, e with
  | FEtherSent, EtherSent _ => true
  | FTroveUpdated b, TroveUpdated b' => fits b b'
  | FUserDepositChanged d, UserDepositChanged d' => String.eqb d' d
  | FTransfer f t, Transfer f' t' => fits f f' && fits t t'
  | _, _ => false
  end.

Inductive watched : Type :=
| WatchTotalRedistributed
| WatchTroveWithoutRewards (address : option string)
| WatchNumberOfTroves
| WatchPrice
| WatchTotal
| WatchStabilityDeposit (address : option string)
| WatchZUSDInStabilityPool
| WatchZUSDBalance (address : option string).

Section Watching.
Variable connection : EthersLiquityConnection.
Variables defaultPool_address stabilityPool_address : string.

(** [address ??= _requireAddress(connection)] *)
Definition watched_address (address : option string) : result string :=
  match address with Some a => Ok a | None => _requireAddress connection None end.

(** The contracts and filters a watch function subscribes to. *)
Definition subscriptions (w : watched) : result (list (string * event_filter)) :=
  match w with
  | WatchTotalRedistributed => Ok [("activePool"%string, FEtherSent)]
  | WatchTroveWithoutRewards address =>
      let! a := watched_address address in
      Ok [("troveManager"%string, FTroveUpdated (Some a)); ("borrowerOperations"%string, FTroveUpdated (Some a))]
  | WatchNumberOfTroves => Ok [("troveManager"%string, FTroveUpdated None)]
  | WatchPrice => Throw (Error "Method not implemented.")
  | WatchTotal => Ok [("troveManager"%string, FTroveUpdated None)]
  | WatchStabilityDeposit address =>
      let! a := watched_address address in
      Ok [("stabilityPool"%string, FUserDepositChanged a); ("activePool"%string, FEtherSent)]
  | WatchZUSDInStabilityPool =>
      Ok [("zusdToken"%string, FTransfer (Some stabilityPool_address) None);
          ("zusdToken"%string, FTransfer None (Some stabilityPool_address))]
  | WatchZUSDBalance address =>
      let! a := watched_address address in
      Ok [("zusdToken"%string, FTransfer (Some a) None); ("zusdToken"%string, FTransfer None (Some a))]
  end.

(** The wrappers of the [EtherSent] listeners let some events through only. *)
Definition lets_through (w : watched) (e : contract_event) : bool :=
  match w, e with
  | WatchTotalRedistributed, EtherSent to => String.eqb to defaultPool_address
  | WatchStabilityDeposit _, EtherSent to => String.eqb to stabilityPool_address
  | _, _ => true
  end.

(** How often the debounced listener runs on an event of a contract. *)
Definition deliveries (w : watched) (contract : string) (e : contract_event) : result nat :=
  let! subs := subscriptions w in
  Ok (if lets_through w e
      then length (filter (fun s => fst s = contract /\ matches (snd s) e = true) subs) else 0%nat).
End Watching.

(** ** Logs *)

Definition ContractLookup : Type := list (string * LogContract).

(** A property of an object built with [Object.fromEntries]: the last entry wins. *)
Definition property {A} (l : list (string * A)) (k : string) : option A :=
  snd <$> (snd <$> list_find (fun e => fst e = k) (reverse l)).

Definition interfaceLookupFrom (contractLookup : ContractLookup) : list (string * LogContract) :=
  map (fun e => (lc_address (snd e), snd e)) contractLookup.

Definition nameLookupFrom (contractLookup : ContractLookup) : list (string * string) :=
  map (fun e => (lc_address (snd e), fst e)) contractLookup.

Record ParsedLog : Type := mkParsedLog { parsed_address : string; logDescription : LogDescription }.

(** The exception of [parseLog] is caught; warnings go to the console. *)
Definition tryToParseLog (log : Log) (interfaceLookup : list (string * LogContract)) : option ParsedLog :=
  match property interfaceLookup (log_address log) with
  | Some c =>
      match parseLog c log with
      | Ok d => Some (mkParsedLog (log_address log) d)
      | Throw _ => None
      end
  | None => None
  end.

(** The loop pushes each log to one of two arrays. *)
Definition parse_step (interfaceLookup : list (string * LogContract)) (acc : list ParsedLog * list Log)
    (log : Log) : list ParsedLog * list Log :=
  let '(parsedLogs, unparsedLogs) := acc in
  match tryToParseLog log interfaceLookup with
  | Some parsedLog => (parsedLogs ++ [parsedLog], unparsedLogs)
  | None => (parsedLogs, unparsedLogs ++ [log])
  end.

Definition parseLogs (logs : list Log) (interfaceLookup : list (string * LogContract))
    : list ParsedLog * list Log :=
  fold_left (parse_step interfaceLookup) logs ([], []).

Definition VERY_BIG : Z := 10 ^ 9.

Definition prettify_arg (a : event_arg) (nameLookup : list (string * string)) : result string :=
  match a with
  | EUint n =>
      if VERY_BIG <=? Z.of_N n then let! d := decimalify n in Ok (Trove.show d +:+ "e18")
      else Ok (text (bn_toString (Z.of_N n)))
  | EText s =>
      Ok (if bool_decide (s = AddressZero) then "address(0)"%string
          else default s (property nameLookup s))
  | EOther shown => Ok shown
  end.

(** [key.match(/^[0-9]/)] *)
Definition positional (key : string) : bool :=
  match chars key with c :: _ => is_digit c | [] => false end.

Definition logDescriptionToString (d : LogDescription) (nameLookup : list (string * string)) : result string :=
  let! prettyEntries := traverse (fun e => let! v := prettify_arg (snd e) nameLookup in
                                           Ok (fst e +:+ ": " +:+ v))
    (filter (fun e => positional (fst e) = false) (event_args d)) in
  Ok (event_name d +:+ "({ " +:+ String.concat ", " prettyEntries +:+ " })").

Definition newline : string := String (ascii_of_nat 10) EmptyString.

(** [`${undefined}`] of an address without a name cannot happen for a parsed log. *)
Definition logsToString (receipt : TransactionReceipt) (contracts : ContractLookup) : result string :=
  let interfaceLookup := interfaceLookupFrom contracts in
  let contractNameLookup := nameLookupFrom contracts in
  let nameLookup := (receipt_from receipt, "user"%string) :: contractNameLookup in
  let '(parsedLogs, unparsedLogs) := parseLogs (receipt_logs receipt) interfaceLookup in
  match parsedLogs with
  | [] => Ok ("No logs were parsed in tx " +:+ receipt_hash receipt)
  | _ =>
      let! lines := traverse (fun p =>
        let! d := logDescriptionToString (logDescription p) nameLookup in
        Ok ("  " +:+ default "undefined"%string (property contractNameLookup (parsed_address p)) +:+ "." +:+ d))
        parsedLogs in
      Ok ("Logs of tx " +:+ receipt_hash receipt +:+ ":" +:+ newline +:+ String.concat newline lines)
  end.

(** ** Correctness *)

(** Events in order of time, from [now] on. *)
Fixpoint ordered (now : Z) (events : list (Z * option Z)) : Prop :=
  match events with
  | [] => True
  | (t, _) :: events => now <= t /\ ordered t events
  end.

(** The timer that is set was set by an event at [now]. *)
Definition set_at (d : debouncer) (now : Z) : Prop :=
  match timeoutId d with Some at_ => at_ = now + debouncingDelayMs | None => True end.

(** Calls at least the delay apart, none before [from]. *)
Fixpoint spaced (from : Z) (calls : list (Z * Z)) : Prop :=
  match calls with
  | [] => True
  | (t, _) :: calls => from <= t /\ spaced (t + debouncingDelayMs) calls
  end.

(** The call, if any, that happens before an event at [now]. *)
Definition fired (d : debouncer) (now : Z) : list (Z * Z) :=
  match timeoutId d with
  | Some at_ => if at_ <=? now then [(at_, latestBlock d)] else []
  | None => []
  end.

Lemma calls_cons d now o events :
  calls_of d ((now, o) :: events) = fired d now ++ calls_of (on_event d now o) events.
Proof.
  cbn [calls_of]. unfold fired. destruct d as [[at_|] l]; [|done]. cbn [timeoutId].
  by destruct (at_ <=? now).
Qed.

Lemma on_event_spec d now o :
  set_at (on_event d now o) now /\ timeoutId (on_event d now o) <> None /\
  latestBlock d <= latestBlock (on_event d now o) /\
  match o with Some b => b <= latestBlock (on_event d now o) | None => True end.
Proof. unfold set_at, on_event. cbn. destruct o; [case_Zb|]; repeat split; try done; lia. Qed.

(** A timer that is set leads to a call with at least the latest block. *)
Lemma pending_called d now events :
  ordered now events -> set_at d now -> timeoutId d <> None ->
  exists t b, (t, b) ∈ calls_of d events /\ now + debouncingDelayMs <= t /\ latestBlock d <= b.
Proof.
  revert d now. induction events as [|[t o] events IH]; intros d now Ho Hs Hd.
  - destruct d as [[at_|] l]; [|done]. unfold set_at in Hs. cbn in Hs |- *.
    exists at_, l. split; [by left|]. lia.
  - destruct Ho as [Hle Ho]. destruct (on_event_spec d t o) as (H1 & H2 & H3 & _).
    destruct (IH _ t Ho H1 H2) as (t' & b' & Hin & Ht & Hb).
    rewrite calls_cons. exists t', b'. split; [apply elem_of_app; by right | lia].
Qed.

Lemma event_covered d now events t o :
  ordered now events -> (t, o) ∈ events ->
  exists t' b', (t', b') ∈ calls_of d events /\ t + debouncingDelayMs <= t' /\
    match o with Some b => b <= b' | None => True end.
Proof.
  revert d now. induction events as [|[t0 o0] events IH]; intros d now Ho Hin; [by apply not_elem_of_nil in Hin|].
  destruct Ho as [Hle Ho]. destruct (on_event_spec d t0 o0) as (H1 & H2 & H3 & H4). rewrite calls_cons.
  apply elem_of_cons in Hin as [[= -> ->]|Hin].
  - destruct (pending_called _ t0 events Ho H1 H2) as (t' & b' & Hc & Ht & Hb).
    exists t', b'. split; [apply elem_of_app; by right|]. split; [done|]. destruct o0; [lia | done].
  - destruct (IH (on_event d t0 o0) t0 Ho Hin) as (t' & b' & Hc & Ht).
    exists t', b'. split; [apply elem_of_app; by right | done].
Qed.

Lemma spaced_le a b calls : a <= b -> spaced b calls -> spaced a calls.
Proof. destruct calls as [|[t x] calls]; cbn; [done|]. intros ? [? ?]. split; [lia | done]. Qed.

Lemma calls_spaced d now events :
  ordered now events -> set_at d now -> spaced (now + debouncingDelayMs) (calls_of d events).
Proof.
  revert d now. induction events as [|[t o] events IH]; intros d now Ho Hs.
  - destruct d as [[at_|] l]; [|done]. unfold set_at in Hs. cbn in *. lia.
  - destruct Ho as [Hle Ho]. destruct (on_event_spec d t o) as (H1 & _).
    specialize (IH _ t Ho H1). rewrite calls_cons. unfold fired, set_at in *.
    destruct (timeoutId d) as [at_|]; [case_Zb|].
    + cbn [app spaced]. split; [lia|]. apply spaced_le with (t + debouncingDelayMs); [lia | done].
    + apply spaced_le with (t + debouncingDelayMs); [lia | done].
    + apply spaced_le with (t + debouncingDelayMs); [lia | done].
Qed.

(** The debounced listener misses nothing: after every event there is a call,
    at least the delay later, for a block at least as new as the event's; and calls
    are at least the delay apart, however many events arrive. *)
Theorem debounce_complete (start : Z) (events : list (Z * option Z)) :
  ordered start events ->
  spaced start (calls_of debounce events) /\
  forall t o, (t, o) ∈ events ->
    exists t' b', (t', b') ∈ calls_of debounce events /\ t + debouncingDelayMs <= t' /\
      match o with Some b => b <= b' | None => True end.
Proof.
  intros Ho. split.
  - apply spaced_le with (start + debouncingDelayMs); [unfold debouncingDelayMs; lia|].
    by apply calls_spaced.
  - intros t o. by apply event_covered with start.
Qed.

Lemma debounce_complete_witness :
  let events := [(0, Some 7); (10, None); (40, Some 9); (200, Some 8)] in
  calls_of debounce events = [(90, 9); (250, 9)] /\
  spaced 0 (calls_of debounce events) /\
  forall t o, (t, o) ∈ events ->
    exists t' b', (t', b') ∈ calls_of debounce events /\ t + debouncingDelayMs <= t' /\
      match o with Some b => b <= b' | None => True end.
Proof. intros events. split; [reflexivity|]. apply (debounce_complete 0). cbn. lia. Defined.

(** A transfer between two other addresses is not delivered, one to oneself is
    delivered twice, which the debouncer makes one call of. *)
Example balance_deliveries :
  deliveries sample_connection "0x0d" "0x0e" (WatchZUSDBalance (Some "0x01"%string)) "zusdToken"
    (Transfer "0x02" "0x03") = Ok 0%nat /\
  deliveries sample_connection "0x0d" "0x0e" (WatchZUSDBalance (Some "0x01"%string)) "zusdToken"
    (Transfer "0x01" "0x01") = Ok 2%nat.
Proof. split; vm_compute; reflexivity. Qed.

Lemma parse_loop interfaceLookup logs parsed unparsed :
  fold_left (parse_step interfaceLookup) logs (parsed, unparsed) =
  (parsed ++ omap (fun log => tryToParseLog log interfaceLookup) logs,
   unparsed ++ filter (fun log => tryToParseLog log interfaceLookup = None) logs).
Proof.
  revert parsed unparsed. induction logs as [|log logs IH]; intros parsed unparsed.
  - cbn. by rewrite !app_nil_r.
  - cbn [fold_left parse_step]. destruct (tryToParseLog log interfaceLookup) eqn:E; rewrite IH; cbn [omap list_omap].
    + rewrite E, filter_cons_False, <- app_assoc by congruence. done.
    + rewrite E, filter_cons_True, <- app_assoc by congruence. done.
Qed.

(** [parseLogs] splits the logs in two, in order and without losing any: those
    emitted by a known contract whose interface decodes them come out decoded, the
    others as they are; an exception of the decoder only moves its own log. *)
Theorem parseLogs_partition (logs : list Log) (interfaceLookup : list (string * LogContract)) :
  let '(parsed, unparsed) := parseLogs logs interfaceLookup in
  parsed = omap (fun log => tryToParseLog log interfaceLookup) logs /\
  (length parsed + length unparsed = length logs)%nat /\
  forall log, log ∈ unparsed <-> log ∈ logs /\
    forall c, property interfaceLookup (log_address log) = Some c -> exists e, parseLog c log = Throw e.
Proof.
  unfold parseLogs. rewrite parse_loop. cbn [app]. split; [done|]. split.
  - induction logs as [|log logs IH]; [done|]. rewrite filter_cons. cbn [omap list_omap].
    destruct (tryToParseLog log interfaceLookup); case_decide; try done; cbn [length]; lia.
  - intros log. rewrite list_elem_of_filter. unfold tryToParseLog.
    destruct (property interfaceLookup (log_address log)) as [c|]; [destruct (parseLog c log) eqn:E|].
    + split; [by intros [? _] |]. intros [_ H]. destruct (H c) as [e He]; [done | congruence].
    + split; [intros [_ ?]; split; [done|]; intros c' [= <-]; by eexists | by intros [? _]].
    + split; [by intros [_ ?]; split | by intros [? _]].
Qed.

Example logs_text :
  let token := mkLogContract "0x13" (fun log =>
    if bool_decide (log_payload log = "transfer"%string)
    then Ok (mkDescription "Transfer" [("0"%string, EText AddressZero); ("from"%string, EText AddressZero);
           ("to"%string, EText "0x01"); ("value"%string, EUint 5000000000000000000)])
    else Throw (Rejected "no matching event")) in
  logsToString (mkReceipt 1 "0x01" "0xfeed"
      [mkLog "0x13" "transfer"; mkLog "0x13" "other"; mkLog "0x99" "transfer"]) [("zusdToken"%string, token)] =
  Ok ("Logs of tx 0xfeed:" +:+ newline +:+
      "  zusdToken.Transfer({ from: address(0), to: user, value: 5e18 })").
Proof. vm_compute. reflexivity. Qed.
