(* ===== verification/FrontValidation.v ===== *)
(** * Validation of changes in the web application
    (dev-frontend/src/components/Trove/validation/validateTroveChange.tsx,
    dev-frontend/src/components/Stability/validation/validateStabilityDepositChange.tsx)

    A JSX element is modelled by the component it instantiates: an
    [ErrorDescription] by the text it holds, a description by its props, with
    the text it renders as a function of them. *)

From S2P Require Import Prelude JsString JsNumber LibDecimal LibDifference LibConstants LibTrove TroveFacts.
From S2P Require Import LibDeposit LibStore.
Local Open Scope Z_scope.

(** strings.ts *)
Definition COIN : string := "ZUSD".
Definition COIN2 : string := "NUE".

Definition mcrPercent : string := Eval vm_compute in evaluated EmptyString
  (let! p := Percent.new_Percent MINIMUM_COLLATERAL_RATIO in Percent.percent_toString p 0).
Definition ccrPercent : string := Eval vm_compute in evaluated EmptyString
  (let! p := Percent.new_Percent CRITICAL_COLLATERAL_RATIO in Percent.percent_toString p 0).

Example percentages : mcrPercent = "110%"%string /\ ccrPercent = "150%"%string.
Proof. split; reflexivity. Qed.

(** ** Trove changes *)

Inductive TroveDescription : Type :=
| TroveErrorDescription (children : string)
| TroveChangeDescription (change : TroveChange Decimal) (useNueBalance : bool).

(** Reads of [change.params], whichever kind of change it is. *)
Definition params_depositCollateral (c : TroveChange Decimal) : option Decimal :=
  match c with
  | creation p => Some (creation_depositCollateral p)
  | adjustment p _ => depositCollateral p
  | _ => None
  end.
Definition params_withdrawCollateral (c : TroveChange Decimal) : option Decimal :=
  match c with
  | closure p => Some (closure_withdrawCollateral p)
  | adjustment p _ => withdrawCollateral p
  | _ => None
  end.
Definition params_borrowZUSD (c : TroveChange Decimal) : option Decimal :=
  match c with
  | creation p => Some (creation_borrowZUSD p)
  | adjustment p _ => borrowZUSD p
  | _ => None
  end.
Definition params_repayZUSD (c : TroveChange Decimal) : option Decimal :=
  match c with
  | closure p => closure_repayZUSD p
  | adjustment p _ => repayZUSD p
  | _ => None
  end.

(** [{d.prettify()} unit] *)
Definition pretty (d : Decimal) (unit_ : string) : result string :=
  let! s := Decimal.prettify d None in Ok (s +:+ " " +:+ unit_).

(** The text [TroveChangeDescription] renders. *)
Definition troveChangeText (c : TroveChange Decimal) (useNueBalance : bool) : result string :=
  let coin := if useNueBalance then COIN2 else COIN in
  match params_depositCollateral c, params_withdrawCollateral c, params_borrowZUSD c, params_repayZUSD c with
  | Some d, _, Some b, _ =>
      let! d := pretty d "RBTC" in let! b := pretty b coin in
      Ok ("You will deposit " +:+ d +:+ " and receive " +:+ b +:+ ".")
  | _, Some w, _, Some r =>
      let! r := pretty r coin in let! w := pretty w "RBTC" in
      Ok ("You will pay " +:+ r +:+ " and receive " +:+ w +:+ ".")
  | Some d, _, _, Some r =>
      let! d := pretty d "RBTC" in let! r := pretty r coin in
      Ok ("You will deposit " +:+ d +:+ " and pay " +:+ r +:+ ".")
  | _, Some w, Some b, _ =>
      let! w := pretty w "RBTC" in let! b := pretty b coin in
      Ok ("You will receive " +:+ w +:+ " and " +:+ b +:+ ".")
  | Some d, _, _, _ => let! d := pretty d "RBTC" in Ok ("You will deposit " +:+ d +:+ ".")
  | _, Some w, _, _ => let! w := pretty w "RBTC" in Ok ("You will receive " +:+ w +:+ ".")
  | _, _, Some b, _ => let! b := pretty b coin in Ok ("You will receive " +:+ b +:+ ".")
  | _, _, _, Some r => let! r := pretty r coin in Ok ("You will pay " +:+ r +:+ ".")
  | None, None, None, None => Throw TypeError
  end.

Record TroveChangeValidationSelectedState : Type := mkSelected {
  sel_price : Decimal;
  sel_total : Trove;
  sel_accountBalance : Decimal;
  sel_zusdBalance : Decimal;
  sel_nueBalance : Decimal;
  sel_numberOfTroves : Z }.

Definition selectForTroveChangeValidation (s : BaseState) : TroveChangeValidationSelectedState :=
  mkSelected (val (s Key.price)) (val (s Key.total)) (val (s Key.accountBalance))
    (val (s Key.zusdBalance)) (val (s Key.nueBalance)) (val (s Key.numberOfTroves)).

Record TroveChangeValidationContext : Type := mkContext {
  selected : TroveChangeValidationSelectedState;
  originalTrove : Trove;
  resultingTrove : Trove;
  recoveryMode : bool;
  wouldTriggerRecoveryMode : bool }.

Definition debt_minimum (coin : string) : TroveDescription :=
  TroveErrorDescription ("Total debt must be at least " +:+ Trove.show ZUSD_MINIMUM_DEBT +:+ " " +:+ coin +:+ ".").

Definition ratio_minimum : TroveDescription :=
  TroveErrorDescription ("Collateral ratio must be at least " +:+ mcrPercent +:+ ".").

(** [<prefix> {x.sub(y).prettify()} unit <suffix>] *)
Definition exceeding (prefix suffix : string) (x y : Decimal) (unit_ : string) : result TroveDescription :=
  let! excess := Decimal.sub x y in
  let! text := pretty excess unit_ in
  Ok (TroveErrorDescription (prefix +:+ text +:+ suffix)).

Definition deposit_exceeds (deposit balance : Decimal) : result TroveDescription :=
  exceeding "The amount you're trying to deposit exceeds your balance by " "." deposit balance "RBTC".

(** The checks on the ratio a new Trove has to pass, in either mode. *)
Definition validateCreationRatio (ctx : TroveChangeValidationContext) : result (option TroveDescription) :=
  let price := sel_price (selected ctx) in
  if recoveryMode ctx then
    let! openable := Trove.isOpenableInRecoveryMode (resultingTrove ctx) price in
    if negb openable then
      Ok (Some (TroveErrorDescription ("You're not allowed to open a Line of Credit with less than " +:+
        ccrPercent +:+ " Collateral Ratio during recovery mode. Please increase your Line of Credit's " +:+
        "Collateral Ratio.")))
    else Ok None
  else
    let! below := Trove.collateralRatioIsBelowMinimum (resultingTrove ctx) price in
    if below then Ok (Some ratio_minimum)
    else if wouldTriggerRecoveryMode ctx then
      Ok (Some (TroveErrorDescription ("You're not allowed to open a Line of Credit that would cause the " +:+
        "Total Collateral Ratio to fall below " +:+ ccrPercent +:+
        ". Please increase your Line of Credit's Collateral Ratio.")))
    else Ok None.

(** [deposit?.gt(accountBalance)] and its message. *)
Definition validateDeposit (deposit : option Decimal) (ctx : TroveChangeValidationContext)
    : result (option TroveDescription) :=
  match deposit with
  | None => Ok None
  | Some deposit =>
      let! exceeds := Decimal.gt deposit (sel_accountBalance (selected ctx)) in
      if exceeds then let! e := deposit_exceeds deposit (sel_accountBalance (selected ctx)) in Ok (Some e)
      else Ok None
  end.

(** The first description, the later checks run only when there is none. *)
Definition or_else (first second : result (option TroveDescription)) : result (option TroveDescription) :=
  let! e := first in
  match e with Some e => Ok (Some e) | None => second end.

(** [null] is [None]. *)
Definition validateTroveCreation (params : TroveCreationParams Decimal) (ctx : TroveChangeValidationContext)
    : result (option TroveDescription) :=
  let! small := Decimal.lt (debt (resultingTrove ctx)) ZUSD_MINIMUM_DEBT in
  if small then Ok (Some (debt_minimum COIN))
  else or_else (validateCreationRatio ctx) (validateDeposit (Some (creation_depositCollateral params)) ctx).

(** The checks on the ratio an adjustment has to pass, in either mode. *)
Definition validateAdjustmentRatio (params : TroveAdjustmentParams Decimal) (ctx : TroveChangeValidationContext)
    : result (option TroveDescription) :=
  let price := sel_price (selected ctx) in
  if recoveryMode ctx then
    match withdrawCollateral params, borrowZUSD params with
    | Some _, _ => Ok (Some (TroveErrorDescription
        "You're not allowed to withdraw collateral during recovery mode."))
    | None, Some _ =>
        let! below := Trove.collateralRatioIsBelowCritical (resultingTrove ctx) price in
        if below then
          Ok (Some (TroveErrorDescription ("Your collateral ratio must be at least " +:+ ccrPercent +:+
            " to borrow during recovery mode. Please improve your collateral ratio.")))
        else
          let! after := Trove.collateralRatio (resultingTrove ctx) price in
          let! before := Trove.collateralRatio (originalTrove ctx) price in
          let! decreased := Decimal.lt after before in
          if decreased then Ok (Some (TroveErrorDescription
            "You're not allowed to decrease your collateral ratio during recovery mode."))
          else Ok None
    | None, None => Ok None
    end
  else
    let! below := Trove.collateralRatioIsBelowMinimum (resultingTrove ctx) price in
    if below then Ok (Some ratio_minimum)
    else if wouldTriggerRecoveryMode ctx then
      Ok (Some (TroveErrorDescription ("The adjustment you're trying to make would cause the Total " +:+
        "Collateral Ratio to fall below " +:+ ccrPercent +:+
        ". Please increase your Line of Credit's Collateral Ratio.")))
    else Ok None.

Definition repay_balance (useNueBalance : bool) (ctx : TroveChangeValidationContext) : Decimal :=
  if useNueBalance then sel_nueBalance (selected ctx) else sel_zusdBalance (selected ctx).

Definition validateRepayment (useNueBalance : bool) (repay : option Decimal)
    (ctx : TroveChangeValidationContext) : result (option TroveDescription) :=
  let coin := if useNueBalance then COIN2 else COIN in
  match repay with
  | None => Ok None
  | Some repay =>
      let! small := Decimal.lt (debt (resultingTrove ctx)) ZUSD_MINIMUM_DEBT in
      if small then Ok (Some (debt_minimum coin))
      else
        let balance := repay_balance useNueBalance ctx in
        let! exceeds := Decimal.gt repay balance in
        if exceeds then
          let! e := exceeding "The amount you're trying to repay exceeds your balance by " "."
                      repay balance coin in
          Ok (Some e)
        else Ok None
  end.

Definition validateTroveAdjustment (useNueBalance : bool) (params : TroveAdjustmentParams Decimal)
    (ctx : TroveChangeValidationContext) : result (option TroveDescription) :=
  or_else (validateAdjustmentRatio params ctx)
    (or_else (validateRepayment useNueBalance (repayZUSD params) ctx)
       (validateDeposit (depositCollateral params) ctx)).

Definition validateTroveClosure (useNueBalance : bool) (params : TroveClosureParams Decimal)
    (ctx : TroveChangeValidationContext) : result (option TroveDescription) :=
  if sel_numberOfTroves (selected ctx) =? 1 then
    Ok (Some (TroveErrorDescription ("You're not allowed to close your Line of Credit when there are no " +:+
      "other Lines of Credit in the system.")))
  else if recoveryMode ctx then
    Ok (Some (TroveErrorDescription "You're not allowed to close your Line of Credit during recovery mode."))
  else
    let balance := repay_balance useNueBalance ctx in
    let! exceeds := match closure_repayZUSD params with
                    | Some repay => Decimal.gt repay balance
                    | None => Ok false
                    end in
    if exceeds then
      let! e := exceeding "You need " " more to close your Line of Credit."
                  (default Decimal.ZERO (closure_repayZUSD params)) balance
                  (if useNueBalance then COIN2 else COIN) in
      Ok (Some e)
    else if wouldTriggerRecoveryMode ctx then
      Ok (Some (TroveErrorDescription ("You're not allowed to close a Line of Credit if it would cause the " +:+
        "Total Collateralization Ratio to fall below " +:+ ccrPercent +:+
        ". Please wait until the Total Collateral Ratio increases.")))
    else Ok None.

Definition validateTroveChange (original adjusted : Trove) (borrowingRate : Decimal) (useNueBalance : bool)
    (s : TroveChangeValidationSelectedState)
    : result (option (TroveChange Decimal) * option TroveDescription) :=
  let rate := Some (DDecimal borrowingRate) in
  let! change := Trove.whatChanged original adjusted rate in
  match change with
  | None => Ok (None, None)
  | Some change =>
      let! resulting := Trove.apply original (Some change) rate in
      let! recovery := Trove.collateralRatioIsBelowCritical (sel_total s) (sel_price s) in
      let! others := Trove.subtract (sel_total s) original in
      let! total' := Trove.add others resulting in
      let! trigger := Trove.collateralRatioIsBelowCritical total' (sel_price s) in
      let ctx := mkContext s original resulting recovery trigger in
      let! errorDescription :=
        match change with
        | invalidCreation _ _ => Ok (Some (debt_minimum COIN))
        | creation params => validateTroveCreation params ctx
        | closure params => validateTroveClosure useNueBalance params ctx
        | adjustment params _ => validateTroveAdjustment useNueBalance params ctx
        end in
      match errorDescription with
      | Some e => Ok (None, Some e)
      | None => Ok (Some change, Some (TroveChangeDescription change useNueBalance))
      end
  end.

(** ** What a valid Trove change satisfies *)

Definition below (threshold : Decimal) (t : Trove) (price : Decimal) : Prop :=
  bn (collateral t) * bn price < bn threshold * bn (debt t).

(** The collateral ratio in units of the last place. *)
Definition ratio_of (t : Trove) (price : Decimal) : Z :=
  if bn (debt t) =? 0 then bn Decimal.INFINITY else bn (collateral t) * bn price / bn (debt t).

(** The total with one Trove replaced. *)
Definition replaced (total original resulting : Trove) : Trove :=
  mkTrove (dec (Z.max 0 (bn (collateral total) - bn (collateral original)) + bn (collateral resulting)))
          (dec (Z.max 0 (bn (debt total) - bn (debt original)) + bn (debt resulting))).

Definition acceptable (useNueBalance : bool) (s : TroveChangeValidationSelectedState)
    (original resulting : Trove) (change : TroveChange Decimal) : Prop :=
  let recovery := below CRITICAL_COLLATERAL_RATIO (sel_total s) (sel_price s) in
  let keeps_total := ~ below CRITICAL_COLLATERAL_RATIO (replaced (sel_total s) original resulting) (sel_price s) in
  let balance := if useNueBalance then sel_nueBalance s else sel_zusdBalance s in
  match change with
  | invalidCreation _ _ => False
  | creation p =>
      bn ZUSD_MINIMUM_DEBT <= bn (debt resulting) /\
      (recovery -> ~ below CRITICAL_COLLATERAL_RATIO resulting (sel_price s)) /\
      (~ recovery -> ~ below MINIMUM_COLLATERAL_RATIO resulting (sel_price s) /\ keeps_total) /\
      bn (creation_depositCollateral p) <= bn (sel_accountBalance s)
  | closure p =>
      sel_numberOfTroves s <> 1 /\ ~ recovery /\ keeps_total /\
      amount (closure_repayZUSD p) <= bn balance
  | adjustment p _ =>
      (recovery -> withdrawCollateral p = None /\
         (borrowZUSD p <> None -> ~ below CRITICAL_COLLATERAL_RATIO resulting (sel_price s) /\
            ratio_of original (sel_price s) <= ratio_of resulting (sel_price s))) /\
      (~ recovery -> ~ below MINIMUM_COLLATERAL_RATIO resulting (sel_price s) /\ keeps_total) /\
      (repayZUSD p <> None -> bn ZUSD_MINIMUM_DEBT <= bn (debt resulting) /\
         amount (repayZUSD p) <= bn balance) /\
      amount (depositCollateral p) <= bn (sel_accountBalance s)
  end.

Lemma or_else_None a b : or_else a b = Ok None <-> a = Ok None /\ b = Ok None.
Proof.
  unfold or_else. destruct a as [[e|]|e]; cbn [bind]; split; try done; try by intros [? ?].
Qed.

Lemma describes_not_None r : (let! e := r in Ok (Some e)) <> Ok (@None TroveDescription).
Proof. by destruct r. Qed.

Section Checks.
Context (ctx : TroveChangeValidationContext).

Lemma validateDeposit_None deposit :
  validateDeposit deposit ctx = Ok None <-> amount deposit <= bn (sel_accountBalance (selected ctx)).
Proof.
  destruct deposit as [d|]; cbn [validateDeposit].
  - rewrite DecimalFacts.gt_decimal, bind_Ok. change (amount (Some d)) with (bn d). case_Zb.
    + split; [intros Hd; by apply describes_not_None in Hd | lia].
    + done.
  - change (amount None) with 0. bn_pos. done.
Qed.

Lemma validateRepayment_None useNue repay :
  validateRepayment useNue repay ctx = Ok None <->
  (repay <> None -> bn ZUSD_MINIMUM_DEBT <= bn (debt (resultingTrove ctx)) /\
                    amount repay <= bn (repay_balance useNue ctx)).
Proof.
  destruct repay as [r|]; cbn [validateRepayment]; [|done].
  rewrite DecimalFacts.lt_decimal, bind_Ok. change (amount (Some r)) with (bn r). case_Zb.
  - split; [discriminate | intros Hr; destruct Hr; [done | lia]].
  - rewrite DecimalFacts.gt_decimal, bind_Ok. case_Zb.
    + split; [intros Hd; by apply describes_not_None in Hd | intros Hr; destruct Hr; [done | lia]].
    + done.
Qed.

Lemma validateCreationRatio_None :
  validateCreationRatio ctx = Ok None <->
  if recoveryMode ctx then ~ below CRITICAL_COLLATERAL_RATIO (resultingTrove ctx) (sel_price (selected ctx))
  else ~ below MINIMUM_COLLATERAL_RATIO (resultingTrove ctx) (sel_price (selected ctx)) /\ wouldTriggerRecoveryMode ctx = false.
Proof.
  unfold validateCreationRatio, below.
  destruct (ratio_checks_value (resultingTrove ctx) (sel_price (selected ctx))) as (-> & _ & ->).
  destruct (recoveryMode ctx); rewrite bind_Ok; case_Zb; cbn [negb].
  - split; [lia | done].
  - split; [discriminate | lia].
  - split; [discriminate | lia].
  - destruct (wouldTriggerRecoveryMode ctx); split; [discriminate | by intros [_ ?] | intros _; split; lia | done].
Qed.

Lemma collateralRatio_value t (p : Decimal) :
  exists r, Trove.collateralRatio t p = Ok r /\ bn r = ratio_of t p.
Proof.
  unfold Trove.collateralRatio, ratio_of. rewrite DecimalFacts.mulDiv_decimal.
  eexists. split; [done|]. case_Zb; [done|]. bn_pos. rewrite bn_dec by (apply Z.div_pos; nia). done.
Qed.

Lemma validateAdjustmentRatio_None p :
  validateAdjustmentRatio p ctx = Ok None <->
  if recoveryMode ctx then
    withdrawCollateral p = None /\
    (borrowZUSD p <> None -> ~ below CRITICAL_COLLATERAL_RATIO (resultingTrove ctx) (sel_price (selected ctx)) /\
       ratio_of (originalTrove ctx) (sel_price (selected ctx)) <= ratio_of (resultingTrove ctx) (sel_price (selected ctx)))
  else ~ below MINIMUM_COLLATERAL_RATIO (resultingTrove ctx) (sel_price (selected ctx)) /\ wouldTriggerRecoveryMode ctx = false.
Proof.
  unfold validateAdjustmentRatio, below.
  destruct (ratio_checks_value (resultingTrove ctx) (sel_price (selected ctx))) as (-> & -> & _).
  destruct (recoveryMode ctx).
  - destruct (withdrawCollateral p); [by split; [|intros [? _]]|].
    destruct (borrowZUSD p); [|done]. rewrite bind_Ok. case_Zb.
    { split; [discriminate | intros [_ Hb]; destruct Hb; [done | lia]]. }
    destruct (collateralRatio_value (resultingTrove ctx) (sel_price (selected ctx))) as (ra & -> & Ha).
    destruct (collateralRatio_value (originalTrove ctx) (sel_price (selected ctx))) as (ro & -> & Ho).
    rewrite !bind_Ok, DecimalFacts.lt_decimal, bind_Ok, Ha, Ho. case_Zb.
    + split; [discriminate | intros [_ Hb]; destruct Hb; [done | lia]].
    + split; [intros _; repeat split; lia | done].
  - rewrite bind_Ok. case_Zb.
    + split; [discriminate | lia].
    + destruct (wouldTriggerRecoveryMode ctx); split; [discriminate | by intros [_ ?] | intros _; split; lia | done].
Qed.
End Checks.

(** The check [validateTroveChange] makes, per kind of change. *)
Definition check_change (useNueBalance : bool) (change : TroveChange Decimal) (ctx : TroveChangeValidationContext)
    : result (option TroveDescription) :=
  match change with
  | invalidCreation _ _ => Ok (Some (debt_minimum COIN))
  | creation params => validateTroveCreation params ctx
  | closure params => validateTroveClosure useNueBalance params ctx
  | adjustment params _ => validateTroveAdjustment useNueBalance params ctx
  end.

Lemma by_mode (recovery trigger : bool) (R T A B : Prop) :
  (recovery = true <-> R) -> (trigger = true <-> T) ->
  (if recovery then A else B /\ trigger = false) <-> (R -> A) /\ (~ R -> B /\ ~ T).
Proof.
  intros HR HT. destruct recovery, trigger; assert (false <> true) by done;
    assert (true <> false) by done; tauto.
Qed.

Lemma check_change_None useNue change (s : TroveChangeValidationSelectedState) original resulting recovery trigger :
  (recovery = true <-> below CRITICAL_COLLATERAL_RATIO (sel_total s) (sel_price s)) ->
  (trigger = true <->
   below CRITICAL_COLLATERAL_RATIO (replaced (sel_total s) original resulting) (sel_price s)) ->
  check_change useNue change (mkContext s original resulting recovery trigger) = Ok None <->
  acceptable useNue s original resulting change.
Proof.
  intros Hrec Htr. destruct change as [t e|p|p|p z]; cbn [check_change acceptable].
  - done.
  - unfold validateTroveCreation. cbn [resultingTrove].
    rewrite DecimalFacts.lt_decimal, bind_Ok. case_Zb; [split; [discriminate | lia]|].
    rewrite or_else_None, validateCreationRatio_None, validateDeposit_None.
    change (amount (Some (creation_depositCollateral p))) with (bn (creation_depositCollateral p)).
    cbn [recoveryMode wouldTriggerRecoveryMode selected resultingTrove] in *.
    rewrite (by_mode recovery trigger _ _ _ _ Hrec Htr). tauto.
  - unfold validateTroveClosure. cbn [recoveryMode wouldTriggerRecoveryMode selected].
    destruct (Z.eqb_spec (sel_numberOfTroves s) 1); [split; [discriminate | tauto]|].
    destruct recovery; [split; [discriminate | intros (_ & Hn & _); by destruct Hn; apply Hrec]|].
    unfold repay_balance. cbn [selected].
    set (balance := if useNue then _ else _).
    assert (E : match closure_repayZUSD p with Some r => Decimal.gt r balance | None => Ok false end =
      Ok (bn balance <? amount (closure_repayZUSD p))).
    { destruct (closure_repayZUSD p) as [r|]; [done|]. change (amount None) with 0. bn_pos.
      by rewrite (proj2 (Z.ltb_ge _ _)) by lia. }
    rewrite E, bind_Ok. case_Zb.
    + split; [intros Hd; by apply describes_not_None in Hd | lia].
    + destruct trigger; (split; [try discriminate | try done]).
      * intros (_ & _ & Hk & _). by destruct Hk; apply Htr.
      * intros _. repeat split; [done | | | done]; rewrite <- ?Hrec, <- ?Htr; done.
  - unfold validateTroveAdjustment. rewrite !or_else_None, validateAdjustmentRatio_None,
      validateRepayment_None, validateDeposit_None. unfold repay_balance.
    cbn [recoveryMode wouldTriggerRecoveryMode selected resultingTrove originalTrove] in *.
    rewrite (by_mode recovery trigger _ _ _ _ Hrec Htr). tauto.
Qed.

Lemma replaced_value (total original resulting : Trove) :
  (let! others := Trove.subtract total original in Trove.add others resulting) =
  Ok (replaced total original resulting).
Proof.
  unfold Trove.subtract, Trove.add. rewrite !saturating_sub_decimal, !bind_Ok. cbn [collateral debt].
  rewrite !DecimalFacts.add_decimal, !bind_Ok. unfold replaced. by rewrite !(bn_dec (Z.max 0 _)) by lia.
Qed.

Lemma below_true threshold t price :
  (bn (collateral t) * bn price <? bn threshold * bn (debt t)) = true <-> below threshold t price.
Proof. apply Z.ltb_lt. Qed.

(** C14: [validateTroveChange] offers a change exactly when it is the one that
    leads from the original to the edited Trove and the Trove it really results
    in keeps the rules of the protocol: enough debt, the collateral ratio the
    current mode asks for, a total ratio that does not fall below the critical
    one, and balances that cover what is paid. *)
Theorem validateTroveChange_iff original adjusted rate useNue s change description :
  validateTroveChange original adjusted rate useNue s = Ok (Some change, description) <->
  description = Some (TroveChangeDescription change useNue) /\
  Trove.whatChanged original adjusted (Some (DDecimal rate)) = Ok (Some change) /\
  exists resulting, Trove.apply original (Some change) (Some (DDecimal rate)) = Ok resulting /\
    acceptable useNue s original resulting change.
Proof.
  unfold validateTroveChange. destruct (Trove.whatChanged _ _ _) as [[c|]|e]; cbn [bind];
    [|split; [discriminate | by intros (_ & ? & _)] ..].
  destruct (Trove.apply original (Some c) (Some (DDecimal rate))) as [resulting|e] eqn:Ha; cbn [bind].
  2: { split; [discriminate | intros (_ & E & r & Hr & _)]. injection E as ->. congruence. }
  destruct (ratio_checks_value (sel_total s) (sel_price s)) as (_ & -> & _). rewrite bind_Ok.
  rewrite <- (bind_assoc (Trove.subtract _ _)), replaced_value, bind_Ok.
  destruct (ratio_checks_value (replaced (sel_total s) original resulting) (sel_price s)) as (_ & -> & _).
  rewrite bind_Ok. set (recovery := _ <? _). set (trigger := _ <? _).
  assert (Hc := check_change_None useNue c s original resulting recovery trigger
    (below_true _ _ _) (below_true _ _ _)). unfold check_change in Hc.
  set (err := match c with invalidCreation _ _ => _ | _ => _ end) in *.
  destruct err as [[e|]|e] eqn:Herr; cbn [bind].
  - split; [discriminate|]. intros (_ & E & r & Hr & Hacc). injection E as ->.
    rewrite Ha in Hr. injection Hr as ->. apply Hc in Hacc. discriminate.
  - split.
    + intros [= <- <-]. repeat split. exists resulting. split; [done|]. by apply Hc.
    + intros (-> & E & _). by injection E as ->.
  - split; [discriminate|]. intros (_ & E & r & Hr & Hacc). injection E as ->.
    rewrite Ha in Hr. injection Hr as ->. apply Hc in Hacc. discriminate.
Qed.

Definition sample_selected : TroveChangeValidationSelectedState :=
  mkSelected (dec 200000000000000000000) (mkTrove (dec 10000000000000000000) (dec 1000000000000000000000))
    (dec 5000000000000000000) (dec 0) (dec 0) 3.

Example validate_accepts :
  (let! r := validateTroveChange _emptyTrove
      (mkTrove (dec 3000000000000000000) (dec 300000000000000000000))
      MINIMUM_BORROWING_RATE false sample_selected in
   match r with
   | (Some c, Some (TroveChangeDescription _ b)) => troveChangeText c b
   | _ => Throw TypeError
   end) = Ok "You will deposit 3 RBTC and receive 266.67 ZUSD."%string.
Proof. vm_compute. reflexivity. Qed.

Example validate_rejects :
  validateTroveChange _emptyTrove (mkTrove (dec 7000000000000000000) (dec 300000000000000000000))
    MINIMUM_BORROWING_RATE false sample_selected =
  Ok (None, Some (TroveErrorDescription
    "The amount you're trying to deposit exceeds your balance by 2 RBTC.")).
Proof. vm_compute. reflexivity. Qed.
