(* ===== verification/FrontManagers.v ===== *)
(** * The state of the web application's editors and views
    (dev-frontend/src/components: Trove/TroveManager.tsx,
    Trove/context/TroveViewProvider.tsx, Stability/StabilityDepositManager.tsx,
    Stability/context/StabilityViewProvider.tsx, Staking/StakingManager.tsx,
    Staking/context/StakingViewProvider.tsx, Connector/reducer.ts;
    validation of deposits and stakes)

    Reducers are functions of a state and an action; a store update carries the
    parameters [LiquityStore] passes to its listeners.  React runs an effect
    after the render that scheduled it, so an event is followed by the commit of
    the view it set before the next one is dispatched. *)

From S2P Require Import Prelude JsString JsNumber LibDecimal LibConstants LibTrove TroveFacts.
From S2P Require Import LibFees LibDeposit LibStore FrontValidation.
Local Open Scope Z_scope.

Section Managers.
Context {T : Type}.

(** [stateChange.key] is present. *)
Definition changed (p : ListenerParams T) (key : string) : bool := bool_decide (key ∈ stateChange p).

(** Reading a key of [newState] or [oldState]; the store is loaded when it notifies. *)
Definition base_of (s : State T) (k : Key.baseKey) : result (Key.baseType k) :=
  match st_base s with Some b => Ok (val (b k)) | None => Throw TypeError end.
Definition derived_of (s : State T) (k : Key.derivedKey) : result (Key.derivedType k) :=
  match st_derived s with Some d => Ok (val (d k)) | None => Throw TypeError end.

(** ** The Trove editor *)

Record TroveManagerState : Type := mkTroveManager {
  tm_original : UserTrove;
  tm_edited : Trove;
  tm_changePending : bool;
  tm_debtDirty : bool;
  tm_addedMinimumDebt : bool }.

Definition trove_init (s : State T) : result TroveManagerState :=
  let! trove := derived_of s Key.trove in
  Ok (mkTroveManager trove (mkTrove (collateral (user_trove trove)) (debt (user_trove trove)))
        false false false).

Inductive TroveManagerAction : Type :=
| trove_startChange | trove_finishChange | trove_revert | trove_addMinimumDebt | trove_removeMinimumDebt
| trove_setCollateral (newValue : Decimalish)
| trove_setDebt (newValue : Decimalish)
| trove_updateStore (p : ListenerParams T).

Definition set_edited (s : TroveManagerState) (t : Trove) : TroveManagerState :=
  mkTroveManager (tm_original s) t (tm_changePending s) (tm_debtDirty s) (tm_addedMinimumDebt s).

Definition finishTroveChange (s : TroveManagerState) : TroveManagerState :=
  mkTroveManager (tm_original s) (tm_edited s) false (tm_debtDirty s) (tm_addedMinimumDebt s).

Definition addMinimumDebt (s : TroveManagerState) : result TroveManagerState :=
  let! edited := Trove.setDebt (tm_edited s) ZUSD_MINIMUM_DEBT in
  Ok (mkTroveManager (tm_original s) edited (tm_changePending s) (tm_debtDirty s) true).

Definition removeMinimumDebt (s : TroveManagerState) : result TroveManagerState :=
  let! edited := Trove.setDebt (tm_edited s) (Num "0") in
  Ok (mkTroveManager (tm_original s) edited (tm_changePending s) (tm_debtDirty s) false).

Definition revertTrove (s : TroveManagerState) : TroveManagerState :=
  let t := user_trove (tm_original s) in
  mkTroveManager (tm_original s) (mkTrove (collateral t) (debt t)) (tm_changePending s) false false.

(** [(change?.type === "creation" && !trove.isEmpty) || (change?.type === "closure" && trove.isEmpty)] *)
Definition obsolete (change : option (TroveChange Decimal)) (trove : Trove) : bool :=
  match change with
  | Some (creation _) => negb (Trove.isEmpty trove)
  | Some (closure _) => Trove.isEmpty trove
  | _ => false
  end.

Definition trove_reduce (s : TroveManagerState) (action : TroveManagerAction) : result TroveManagerState :=
  match action with
  | trove_startChange =>
      Ok (mkTroveManager (tm_original s) (tm_edited s) true (tm_debtDirty s) (tm_addedMinimumDebt s))
  | trove_finishChange => Ok (finishTroveChange s)
  | trove_setCollateral newValue =>
      let! newCollateral := from newValue in
      let! edited := Trove.setCollateral (tm_edited s) newCollateral in
      let newState := set_edited s edited in
      if negb (tm_debtDirty s) && Trove.isEmpty (tm_edited s) && negb (Decimal.isZero newCollateral)
      then addMinimumDebt newState
      else if negb (tm_debtDirty s) && tm_addedMinimumDebt s && Decimal.isZero newCollateral
      then removeMinimumDebt newState
      else Ok newState
  | trove_setDebt newValue =>
      let! edited := Trove.setDebt (tm_edited s) newValue in
      Ok (mkTroveManager (tm_original s) edited (tm_changePending s) true (tm_addedMinimumDebt s))
  | trove_addMinimumDebt => addMinimumDebt s
  | trove_removeMinimumDebt => removeMinimumDebt s
  | trove_revert => Ok (revertTrove s)
  | trove_updateStore p =>
      let! trove := derived_of (newState p) Key.trove in
      let newState := mkTroveManager trove (tm_edited s) (tm_changePending s) (tm_debtDirty s)
                        (tm_addedMinimumDebt s) in
      if tm_changePending s && changed p "troveBeforeRedistribution"
      then Ok (finishTroveChange (revertTrove newState))
      else
        let! change := Trove.whatChanged (user_trove (tm_original s)) (tm_edited s) (Some (Num "0")) in
        if obsolete change (user_trove trove) then Ok (revertTrove newState)
        else
          let! edited := Trove.apply (user_trove trove) change (Some (Num "0")) in
          Ok (set_edited newState edited)
  end.

(** The fee the editor shows. *)
Definition feeFrom (original edited : Trove) (borrowingRate : Decimal) : result Decimal :=
  let! change := Trove.whatChanged original edited (Some (DDecimal borrowingRate)) in
  match change with
  | Some c =>
      match params_borrowZUSD c with
      | Some b => Decimal.mul b borrowingRate
      | None => Ok Decimal.ZERO
      end
  | None => Ok Decimal.ZERO
  end.

(** ** The stability deposit editor *)

Record StabilityDepositManagerState : Type := mkDepositManager {
  dm_originalDeposit : StabilityDeposit;
  dm_editedZUSD : Decimal;
  dm_changePending : bool }.

Definition deposit_init (s : State T) : result StabilityDepositManagerState :=
  let! d := base_of s Key.stabilityDeposit in Ok (mkDepositManager d (currentZUSD d) false).

Inductive StabilityDepositManagerAction : Type :=
| deposit_startChange | deposit_finishChange | deposit_revert
| deposit_setDeposit (newValue : Decimalish)
| deposit_updateStore (p : ListenerParams T).

(** [a || b] on results. *)
Definition or_also (a b : result bool) : result bool := let! x := a in if x then Ok true else b.

Definition deposit_committed (updated original : StabilityDeposit) : result bool :=
  let! same := Decimal.eq (initialZUSD updated) (initialZUSD original) in
  or_also (Ok (negb same))
  (or_also (Decimal.gt (currentZUSD updated) (currentZUSD original))
  (or_also (Decimal.lt (deposit_collateralGain updated) (deposit_collateralGain original))
           (Decimal.lt (zeroReward updated) (zeroReward original)))).

Definition deposit_reduce (s : StabilityDepositManagerState) (action : StabilityDepositManagerAction)
    : result StabilityDepositManagerState :=
  match action with
  | deposit_startChange => Ok (mkDepositManager (dm_originalDeposit s) (dm_editedZUSD s) true)
  | deposit_finishChange => Ok (mkDepositManager (dm_originalDeposit s) (dm_editedZUSD s) false)
  | deposit_setDeposit newValue =>
      let! v := from newValue in Ok (mkDepositManager (dm_originalDeposit s) v (dm_changePending s))
  | deposit_revert =>
      Ok (mkDepositManager (dm_originalDeposit s) (currentZUSD (dm_originalDeposit s)) (dm_changePending s))
  | deposit_updateStore p =>
      if changed p "stabilityDeposit" then
        let! updated := base_of (newState p) Key.stabilityDeposit in
        let! committed := deposit_committed updated (dm_originalDeposit s) in
        if dm_changePending s && committed then Ok (mkDepositManager updated (currentZUSD updated) false)
        else
          let! change := StabilityDeposit.deposit_whatChanged (dm_originalDeposit s) (dm_editedZUSD s) in
          let! edited := StabilityDeposit.deposit_apply updated
                           (StabilityDeposit.deposit_change_arg <$> change) in
          Ok (mkDepositManager updated edited (dm_changePending s))
      else Ok s
  end.

(** ** The stake editor *)

Record StakeManagerState : Type := mkStakeManager { originalStake : ZEROStake; editedZERO : Decimal }.

Definition stake_init (s : State T) : result StakeManagerState :=
  let! stake := base_of s Key.zeroStake in Ok (mkStakeManager stake (stakedZERO stake)).

Inductive StakeManagerAction : Type :=
| stake_revert
| stake_setStake (newValue : Decimalish)
| stake_updateStore (p : ListenerParams T).

Definition stake_reduce (s : StakeManagerState) (action : StakeManagerAction) : result StakeManagerState :=
  match action with
  | stake_setStake newValue => let! v := from newValue in Ok (mkStakeManager (originalStake s) v)
  | stake_revert => Ok (mkStakeManager (originalStake s) (stakedZERO (originalStake s)))
  | stake_updateStore p =>
      if changed p "zeroStake" then
        let! updated := base_of (newState p) Key.zeroStake in
        let! change := ZEROStake.stake_whatChanged (originalStake s) (editedZERO s) in
        let! edited := ZEROStake.stake_apply updated (ZEROStake.stake_change_arg <$> change) in
        Ok (mkStakeManager updated edited)
      else Ok s
  end.

(** The valid change [StakingManager] offers; [None] with an error or none. *)
Definition validStake (s : StakeManagerState) (zeroBalance : Decimal)
    : result (option (ZEROStakeChange Decimal)) :=
  let! change := ZEROStake.stake_whatChanged (originalStake s) (editedZERO s) in
  match change with
  | None => Ok None
  | Some (StakeZERO stake) =>
      let! exceeds := Decimal.gt stake zeroBalance in
      Ok (if exceeds then None else change)
  | Some (UnstakeZERO _ _) => Ok change
  end.

(** ** The staking view *)

Record StakingViewProviderState : Type := mkStakingView {
  sv_zeroStake : ZEROStake;
  sv_changePending : bool;
  sv_adjusting : bool }.

Inductive StakingViewProviderAction : Type :=
| startAdjusting | cancelAdjusting | view_startChange | view_abortChange
| view_updateStore (p : ListenerParams T).

Definition view_init (s : State T) : result StakingViewProviderState :=
  let! stake := base_of s Key.zeroStake in Ok (mkStakingView stake false false).

Definition stake_committed (updated old : ZEROStake) : result bool :=
  let! same := Decimal.eq (stakedZERO updated) (stakedZERO old) in
  or_also (Ok (negb same))
  (or_also (Decimal.lt (stake_collateralGain updated) (stake_collateralGain old))
           (Decimal.lt (zusdGain updated) (zusdGain old))).

Definition view_reduce (s : StakingViewProviderState) (action : StakingViewProviderAction)
    : result StakingViewProviderState :=
  match action with
  | startAdjusting => Ok (mkStakingView (sv_zeroStake s) (sv_changePending s) true)
  | cancelAdjusting => Ok (mkStakingView (sv_zeroStake s) (sv_changePending s) false)
  | view_startChange => Ok (mkStakingView (sv_zeroStake s) true (sv_adjusting s))
  | view_abortChange => Ok (mkStakingView (sv_zeroStake s) false (sv_adjusting s))
  | view_updateStore p =>
      let! old := base_of (oldState p) Key.zeroStake in
      if changed p "zeroStake" then
        let! updated := base_of (newState p) Key.zeroStake in
        let! committed := stake_committed updated old in
        Ok (mkStakingView updated (if committed then false else sv_changePending s) false)
      else Ok s
  end.

Inductive StakingView : Type := STAKE_ACTIVE | STAKE_ADJUSTING | STAKE_NONE.

Definition staking_view (s : StakingViewProviderState) : StakingView :=
  if sv_adjusting s then STAKE_ADJUSTING
  else if ZEROStake.stake_isEmpty (sv_zeroStake s) then STAKE_NONE else STAKE_ACTIVE.

End Managers.
Arguments TroveManagerAction : clear implicits.
Arguments StabilityDepositManagerAction : clear implicits.
Arguments StakeManagerAction : clear implicits.
Arguments StakingViewProviderAction : clear implicits.

(** ** The Trove view *)

Inductive TroveView : Type := NONE | LIQUIDATED | REDEEMED | OPENING | ADJUSTING | CLOSING | ACTIVE.

Inductive TroveEvent : Type :=
| OPEN_TROVE_PRESSED | ADJUST_TROVE_PRESSED | CLOSE_TROVE_PRESSED | CANCEL_ADJUST_TROVE_PRESSED
| TROVE_CLOSED | TROVE_LIQUIDATED | TROVE_REDEEMED | TROVE_ADJUSTED
| TROVE_SURPLUS_COLLATERAL_CLAIMED | TROVE_OPENED.

Definition transitions (view : TroveView) (event : TroveEvent) : option TroveView :=
  match view, event with
  | NONE, OPEN_TROVE_PRESSED => Some OPENING
  | NONE, TROVE_OPENED => Some ACTIVE
  | LIQUIDATED, OPEN_TROVE_PRESSED => Some OPENING
  | LIQUIDATED, TROVE_SURPLUS_COLLATERAL_CLAIMED => Some NONE
  | LIQUIDATED, TROVE_OPENED => Some ACTIVE
  | REDEEMED, OPEN_TROVE_PRESSED => Some OPENING
  | REDEEMED, TROVE_SURPLUS_COLLATERAL_CLAIMED => Some NONE
  | REDEEMED, TROVE_OPENED => Some ACTIVE
  | OPENING, CANCEL_ADJUST_TROVE_PRESSED => Some NONE
  | OPENING, TROVE_OPENED => Some ACTIVE
  | ADJUSTING, CANCEL_ADJUST_TROVE_PRESSED => Some ACTIVE
  | ADJUSTING, TROVE_ADJUSTED => Some ACTIVE
  | ADJUSTING, TROVE_CLOSED => Some NONE
  | ADJUSTING, TROVE_LIQUIDATED => Some LIQUIDATED
  | ADJUSTING, TROVE_REDEEMED => Some REDEEMED
  | CLOSING, CANCEL_ADJUST_TROVE_PRESSED => Some ACTIVE
  | CLOSING, TROVE_CLOSED => Some NONE
  | CLOSING, TROVE_ADJUSTED => Some ACTIVE
  | CLOSING, TROVE_LIQUIDATED => Some LIQUIDATED
  | CLOSING, TROVE_REDEEMED => Some REDEEMED
  | ACTIVE, ADJUST_TROVE_PRESSED => Some ADJUSTING
  | ACTIVE, CLOSE_TROVE_PRESSED => Some CLOSING
  | ACTIVE, TROVE_CLOSED => Some NONE
  | ACTIVE, TROVE_LIQUIDATED => Some LIQUIDATED
  | ACTIVE, TROVE_REDEEMED => Some REDEEMED
  | _, _ => None
  end.

Definition troveStatusEvents (status : UserTroveStatus) : option TroveEvent :=
  match status with
  | open => Some TROVE_OPENED
  | closedByOwner => Some TROVE_CLOSED
  | closedByLiquidation => Some TROVE_LIQUIDATED
  | closedByRedemption => Some TROVE_REDEEMED
  | nonExistent => None
  end.

Definition transition (view : TroveView) (event : TroveEvent) : TroveView :=
  default view (transitions view event).

Definition getInitialView (troveStatus : UserTroveStatus) : TroveView :=
  match troveStatus with
  | closedByLiquidation => LIQUIDATED
  | closedByRedemption => REDEEMED
  | open => ACTIVE
  | _ => NONE
  end.

(** The effect on [troveStatus], which runs on mount and when the status changes. *)
Definition status_effect (view : TroveView) (status : UserTroveStatus) : TroveView :=
  match troveStatusEvents status with Some e => transition view e | None => view end.

(** ** The stability view *)

Inductive StabilityView : Type := STABILITY_NONE | STABILITY_DEPOSITING | STABILITY_ACTIVE | STABILITY_ADJUSTING.

Inductive StabilityEvent : Type :=
| DEPOSIT_PRESSED | ADJUST_DEPOSIT_PRESSED | CANCEL_PRESSED | DEPOSIT_CONFIRMED | REWARDS_CLAIMED
| DEPOSIT_EMPTIED.

Definition stability_transitions (view : StabilityView) (event : StabilityEvent) : option StabilityView :=
  match view, event with
  | STABILITY_NONE, DEPOSIT_PRESSED => Some STABILITY_DEPOSITING
  | STABILITY_DEPOSITING, CANCEL_PRESSED => Some STABILITY_NONE
  | STABILITY_DEPOSITING, DEPOSIT_CONFIRMED => Some STABILITY_ACTIVE
  | STABILITY_ACTIVE, REWARDS_CLAIMED => Some STABILITY_ACTIVE
  | STABILITY_ACTIVE, ADJUST_DEPOSIT_PRESSED => Some STABILITY_ADJUSTING
  | STABILITY_ACTIVE, DEPOSIT_EMPTIED => Some STABILITY_NONE
  | STABILITY_ADJUSTING, CANCEL_PRESSED => Some STABILITY_ACTIVE
  | STABILITY_ADJUSTING, DEPOSIT_CONFIRMED => Some STABILITY_ACTIVE
  | STABILITY_ADJUSTING, DEPOSIT_EMPTIED => Some STABILITY_NONE
  | _, _ => None
  end.

Definition stability_transition (view : StabilityView) (event : StabilityEvent) : StabilityView :=
  default view (stability_transitions view event).

Definition stability_initial (d : StabilityDeposit) : StabilityView :=
  if StabilityDeposit.deposit_isEmpty d then STABILITY_NONE else STABILITY_ACTIVE.

(** The effect on [stabilityDeposit.isEmpty]. *)
Definition emptied_effect (view : StabilityView) (isEmpty : bool) : StabilityView :=
  if isEmpty then stability_transition view DEPOSIT_EMPTIED else view.

(** ** Stability deposits *)

Record StabilityDepositChangeValidationContext : Type := mkDepositContext {
  dc_trove : UserTrove;
  dc_zusdBalance : Decimal;
  haveOwnFrontend : bool;
  dc_haveUndercollateralizedTroves : bool }.

Definition selectForStabilityDepositChangeValidation (b : BaseState) (d : DerivedState)
    : StabilityDepositChangeValidationContext :=
  mkDepositContext (val (d Key.trove)) (val (b Key.zusdBalance))
    (match val (b Key.ownFrontend) with registered _ => true | unregistered => false end)
    (val (d Key.haveUndercollateralizedTroves)).

Inductive DepositDescription : Type :=
| DepositErrorDescription (children : string)
| StabilityActionDescription (originalDeposit : StabilityDeposit) (change : StabilityDepositChange Decimal).

Definition validateStabilityDepositChange (originalDeposit : StabilityDeposit) (editedZUSD : Decimal)
    (ctx : StabilityDepositChangeValidationContext)
    : result (option (StabilityDepositChange Decimal) * option DepositDescription) :=
  let! change := StabilityDeposit.deposit_whatChanged originalDeposit editedZUSD in
  if haveOwnFrontend ctx then
    Ok (None, Some (DepositErrorDescription
      "You can’t deposit using a wallet address that is registered as a frontend."))
  else match change with
  | None => Ok (None, None)
  | Some change =>
      let! excess := match change with
                     | DepositZUSD x => let! e := Decimal.gt x (dc_zusdBalance ctx) in Ok (if e then Some x else None)
                     | WithdrawZUSD _ _ => Ok None
                     end in
      match excess, change with
      | Some x, _ =>
          let! by_ := Decimal.sub x (dc_zusdBalance ctx) in
          let! text := pretty by_ COIN in
          Ok (None, Some (DepositErrorDescription
            ("The amount you're trying to deposit exceeds your balance by " +:+ text +:+ ".")))
      | None, WithdrawZUSD _ _ =>
          if dc_haveUndercollateralizedTroves ctx then
            Ok (None, Some (DepositErrorDescription ("You're not allowed to withdraw ZUSD from your " +:+
              "Stability Deposit when there are undercollateralized Credit Lines. Please liquidate those " +:+
              "Credit Lines or try again later.")))
          else Ok (Some change, Some (StabilityActionDescription originalDeposit change))
      | None, DepositZUSD _ => Ok (Some change, Some (StabilityActionDescription originalDeposit change))
      end
  end.

(** ** The wallet connector *)

(** Providers, signers and the onboarding API are objects of third parties;
    their identities are enough here. *)
Record ConnectorState : Type := mkConnector {
  c_provider : option Z;
  c_signer : option Z;
  isAppReady : bool;
  walletAddress : option string;
  walletWatched : option string;
  walletType : option string;
  ensName : option string;
  ensAvatar : option string;
  onboard_ : option Z;
  c_chainId : option Z }.

Definition initialState (onboard : Z) : ConnectorState :=
  mkConnector None None false None None None None None (Some onboard) None.

Inductive Actions : Type :=
| APP_READY (payload : Z)
| CONFIG_UPDATE (address : string) (signer : option Z) (type_ : option string) (provider : Z)
    (name avatar : option string)
| WATCH_WALLET (name address watched : option string)
| SET_ENS (name avatar : option string)
| UPDATE_PROVIDER (provider : Z)
| UPDATE_WALLET (chainId : option Z) (address : option string)
| WALLET_DISCONNECTED.

(** In [WALLET_DISCONNECTED] the literal has the keys [network] and
    [watchedWallet], which are no fields of the state. *)
Definition reducer (s : ConnectorState) (action : Actions) : ConnectorState :=
  match action with
  | APP_READY payload =>
      mkConnector (c_provider s) (c_signer s) true (walletAddress s) (walletWatched s) (walletType s)
        (ensName s) (ensAvatar s) (Some payload) (c_chainId s)
  | CONFIG_UPDATE address signer type_ provider name avatar =>
      mkConnector (Some provider) signer (isAppReady s) (Some address) None type_ name avatar
        (onboard_ s) (c_chainId s)
  | UPDATE_WALLET chainId address =>
      mkConnector (c_provider s) (c_signer s) (isAppReady s) address (walletWatched s) (walletType s)
        (ensName s) (ensAvatar s) (onboard_ s) chainId
  | WATCH_WALLET name address watched =>
      mkConnector (c_provider s) (c_signer s) (isAppReady s) address watched (walletType s)
        name (ensAvatar s) (onboard_ s) (c_chainId s)
  | SET_ENS name avatar =>
      mkConnector (c_provider s) (c_signer s) (isAppReady s) (walletAddress s) (walletWatched s)
        (walletType s) name avatar (onboard_ s) (c_chainId s)
  | WALLET_DISCONNECTED =>
      mkConnector None None (isAppReady s) None (walletWatched s) None None None (onboard_ s) None
  | UPDATE_PROVIDER provider =>
      mkConnector (Some provider) (c_signer s) (isAppReady s) (walletAddress s) (walletWatched s)
        (walletType s) (ensName s) (ensAvatar s) (onboard_ s) (c_chainId s)
  end.
