(* ===== verification/FrontFacts.v ===== *)
(** * Properties of the web application's editors and views

    A store update moves an edit along with the Trove it edits; the view follows
    the status of the Trove; deposit changes are offered exactly when they are
    allowed; what two of the reducers get wrong. *)

From S2P Require Import Prelude JsString JsNumber LibDecimal LibConstants LibTrove TroveFacts.
From S2P Require Import LibFees LibDeposit LibStore FrontValidation FrontManagers.
Local Open Scope Z_scope.

(** ** The Trove editor *)

Lemma from_zero : from (Num "0") = Ok Decimal.ZERO.
Proof. vm_compute. reflexivity. Qed.

(** The rate [0] of the source is the decimal zero. *)
Lemma add_zero_rate d : Decimal.add d (Num "0") = Decimal.add d Decimal.ZERO.
Proof. unfold Decimal.add. by rewrite from_zero. Qed.

Lemma applyFee_zero x : applyFee (Num "0") x = applyFee Decimal.ZERO x.
Proof. unfold applyFee. by rewrite add_zero_rate. Qed.

Lemma unapplyFee_zero x : unapplyFee (Num "0") x = unapplyFee Decimal.ZERO x.
Proof. unfold unapplyFee. by rewrite add_zero_rate. Qed.

Lemma whatChanged_zero this that :
  Trove.whatChanged this that (Some (Num "0")) = Trove.whatChanged this that (Some (DDecimal Decimal.ZERO)).
Proof.
  unfold Trove.whatChanged, Trove.rate_or_minimum, Trove._debtChange. cbn [default from_option id].
  repeat (apply bind_ext; intros ?; repeat case_match); try done;
    rewrite ?unapplyFee_zero; try done.
Qed.

Lemma apply_zero this change :
  Trove.apply this change (Some (Num "0")) = Trove.apply this change (Some (DDecimal Decimal.ZERO)).
Proof.
  unfold Trove.apply, Trove.rate_or_minimum. cbn [default from_option id].
  destruct change as [[| | |params]|]; try reflexivity; by rewrite ?applyFee_zero.
Qed.

Lemma owed_free x : owed Decimal.ZERO x = x.
Proof. unfold owed. rewrite bn_ZERO, Z.add_0_r. pose proof DIGITS_pos. apply Z.div_mul. lia. Qed.

(** A trove moved by the difference of two others, component-wise. *)
Definition moved (edited original updated : Trove) : Trove :=
  mkTrove (dec (Z.max 0 (bn (collateral edited) + (bn (collateral updated) - bn (collateral original)))))
          (dec (Z.max 0 (bn (debt edited) + (bn (debt updated) - bn (debt original))))).

Lemma moved_same original updated : moved original original updated = updated.
Proof.
  unfold moved. bn_pos. rewrite !Zplus_minus, !Z.max_r, !dec_bn by lia. by destruct updated.
Qed.

(** An edit that empties nothing is an adjustment that can be replayed on any Trove. *)
Lemma edit_replayed (original edited updated : Trove) :
  original <> _emptyTrove -> 0 < bn (collateral edited) -> 0 < bn (debt edited) ->
  exists change, Trove.whatChanged original edited (Some (Num "0")) = Ok change /\
    obsolete change updated = false /\
    Trove.apply updated change (Some (Num "0")) = Ok (moved edited original updated).
Proof.
  intros Ho Hc Hd. rewrite whatChanged_zero. destruct (decide (original = edited)) as [->|Hne].
  - exists None. rewrite moved_same. split; [|done]. unfold Trove.whatChanged.
    by rewrite equals_decimal, bind_Ok, bool_decide_true.
  - destruct (whatChanged_adjustment original edited Decimal.ZERO Hne Ho) as (p & z & Hw & Hz).
    { intros ->. by vm_compute in Hc. }
    { vm_compute. discriminate. }
    exists (Some (adjustment p z)). split; [done|]. split; [done|]. rewrite apply_zero.
    destruct (Hz z (or_introl eq_refl)) as (t & Ht & _ & _ & Hx). rewrite Hx in Ht by (right; done).
    rewrite apply_adjustment in Ht |- *. rewrite owed_free in *. injection Ht as He.
    pose proof (f_equal collateral He) as Hec. pose proof (f_equal debt He) as Hed. cbn [collateral debt] in Hec, Hed.
    clear He.
    assert (z <> Some ZeroCollateral /\ z <> Some ZeroDebt) as [H1 H2].
    { split; intros ->; [rewrite decide_True in Hec by done; rewrite <- Hec in Hc; by vm_compute in Hc
        | rewrite decide_True in Hed by done; rewrite <- Hed in Hd; by vm_compute in Hd]. }
    rewrite !decide_False by done. rewrite decide_False in Hec by done.
    rewrite decide_False in Hed by done.
    apply (f_equal bn) in Hec, Hed. rewrite bn_dec in Hec by lia. rewrite bn_dec in Hed by lia.
    unfold moved. do 2 f_equal; f_equal; lia.
Qed.

Section Updates.
Context {T : Type}.

(** A store update that does not commit the user's own change moves the edited
    Trove by exactly what the Trove in the store moved, so that what the user asks
    for stays the same; one that commits it resets the editor to the new Trove. *)
Theorem troveManager_follows (s : TroveManagerState) (p : ListenerParams T) (t : UserTrove) :
  derived_of (newState p) Key.trove = Ok t ->
  user_trove (tm_original s) <> _emptyTrove ->
  0 < bn (collateral (tm_edited s)) -> 0 < bn (debt (tm_edited s)) ->
  trove_reduce s (trove_updateStore p) = Ok
    (if tm_changePending s && changed p "troveBeforeRedistribution"
     then mkTroveManager t (user_trove t) false false false
     else mkTroveManager t (moved (tm_edited s) (user_trove (tm_original s)) (user_trove t))
            (tm_changePending s) (tm_debtDirty s) (tm_addedMinimumDebt s)).
Proof.
  intros Ht Ho Hc Hd. cbn [trove_reduce]. rewrite Ht, bind_Ok.
  destruct (tm_changePending s && _).
  - unfold finishTroveChange, revertTrove. cbn. by destruct (user_trove t).
  - destruct (edit_replayed _ _ (user_trove t) Ho Hc Hd) as (change & -> & Hob & Ha).
    by rewrite bind_Ok, Hob, Ha, bind_Ok.
Qed.

(** While an edit that would open a Trove with less debt than the liquidation
    reserve is being made, a store update in which the Trove has been opened
    meanwhile makes the reducer throw: the invalid creation is applied to the
    existing Trove. *)
Theorem troveManager_invalid_creation_throws (s : TroveManagerState) (p : ListenerParams T) (t : UserTrove) :
  derived_of (newState p) Key.trove = Ok t -> user_trove t <> _emptyTrove ->
  user_trove (tm_original s) = _emptyTrove -> tm_edited s <> _emptyTrove ->
  bn (debt (tm_edited s)) < bn ZUSD_LIQUIDATION_RESERVE ->
  tm_changePending s = false ->
  trove_reduce s (trove_updateStore p) = Throw (Error "Can't create onto existing Trove").
Proof.
  intros Ht Hne Ho He Hd Hp. cbn [trove_reduce]. rewrite Ht, bind_Ok, Hp. cbn [andb].
  rewrite whatChanged_zero, Ho, whatChanged_from_empty by done.
  rewrite (proj2 (Z.ltb_lt _ _)), bind_Ok by done. cbn [obsolete].
  unfold Trove.apply. by rewrite isEmpty_spec, bool_decide_false.
Qed.

End Updates.

(** Clearing the collateral of a new Trove takes back the debt that was added
    when it was entered. *)
Lemma minimum_debt_removed {T} (s : TroveManagerState) (c : Decimal) :
  tm_debtDirty s = false -> tm_edited s = _emptyTrove -> 0 < bn c ->
  exists s', trove_reduce (T := T) s (trove_setCollateral c) = Ok s' /\
    tm_edited s' = mkTrove c ZUSD_MINIMUM_DEBT /\
    exists s'', trove_reduce (T := T) s' (trove_setCollateral (DDecimal Decimal.ZERO)) = Ok s'' /\
      tm_edited s'' = _emptyTrove /\ tm_addedMinimumDebt s'' = false.
Proof.
  intros Hd He Hc. apply DecimalFacts.isZero_false in Hc. cbn [trove_reduce].
  unfold Trove.setCollateral. rewrite !from_decimal, !bind_Ok, Hd, He, Hc. cbn [negb andb].
  change (Trove.isEmpty _emptyTrove) with true. cbn [andb].
  unfold addMinimumDebt, Trove.setDebt. rewrite from_decimal, !bind_Ok.
  eexists. split; [done|]. split; [done|]. cbn [tm_debtDirty set_edited tm_edited tm_addedMinimumDebt].
  rewrite Hd. unfold Trove.isEmpty. cbn [collateral debt]. rewrite Hc. cbn [andb negb].
  change (Decimal.isZero Decimal.ZERO) with true. cbn [andb negb].
  unfold removeMinimumDebt, Trove.setDebt. rewrite from_zero, !bind_Ok. by eexists.
Qed.

(** ** Views *)

(** The statuses a Trove can go through. *)
Inductive status_step : UserTroveStatus -> UserTroveStatus -> Prop :=
| opens s : s <> open -> status_step s open
| closes s : s = closedByOwner \/ s = closedByLiquidation \/ s = closedByRedemption -> status_step open s.

(** Events the interface dispatches besides those of the status effect. *)
Definition ui_event (e : TroveEvent) : bool :=
  match e with
  | OPEN_TROVE_PRESSED | ADJUST_TROVE_PRESSED | CLOSE_TROVE_PRESSED | CANCEL_ADJUST_TROVE_PRESSED
  | TROVE_ADJUSTED | TROVE_SURPLUS_COLLATERAL_CLAIMED => true
  | _ => false
  end.

(** Views the provider shows while the store has the given status. *)
Inductive view_reachable : UserTroveStatus -> TroveView -> Prop :=
| mounted s : view_reachable s (status_effect (getInitialView s) s)
| status_changed s s' v :
    view_reachable s v -> status_step s s' -> view_reachable s' (status_effect v s')
| dispatched s v e : view_reachable s v -> ui_event e = true -> view_reachable s (transition v e).

Definition shows (s : UserTroveStatus) (v : TroveView) : bool :=
  match s, v with
  | open, (ACTIVE | ADJUSTING | CLOSING) => true
  | (nonExistent | closedByOwner), (NONE | OPENING) => true
  | closedByLiquidation, (LIQUIDATED | OPENING | NONE) => true
  | closedByRedemption, (REDEEMED | OPENING | NONE) => true
  | _, _ => false
  end.

(** Whatever the user presses and however the status changes, the view fits
    the status of the Trove: an open Trove is shown as active, being adjusted or
    closed, and a Trove that is not open never is. *)
Theorem view_follows_status (s : UserTroveStatus) (v : TroveView) :
  view_reachable s v -> shows s v = true.
Proof.
  induction 1 as [s | s s' v Hv IH Hs | s v e Hv IH He].
  - by destruct s.
  - destruct Hs as [s Hs | s [-> | [-> | ->]]]; destruct v; try done; by destruct s.
  - destruct s, v; try discriminate IH; by destruct e.
Qed.

Lemma view_follows_status_witness :
  shows open (transition (status_effect (transition (getInitialView nonExistent) OPEN_TROVE_PRESSED) open)
                ADJUST_TROVE_PRESSED) = true.
Proof.
  apply view_follows_status.
  apply dispatched; [|reflexivity]. apply (status_changed nonExistent).
  - apply dispatched; [|reflexivity]. apply (mounted nonExistent).
  - by constructor.
Defined.

(** Disconnecting the wallet clears the connection but not the watched wallet:
    the reducer writes [null] to a key of another name. *)
Lemma disconnect_keeps_watched (s : ConnectorState) (name address : option string) (watched : string) :
  let s' := reducer (reducer s (WATCH_WALLET name address (Some watched))) WALLET_DISCONNECTED in
  walletWatched s' = Some watched /\
  c_provider s' = None /\ c_signer s' = None /\ walletAddress s' = None /\ walletType s' = None /\
  ensName s' = None /\ ensAvatar s' = None /\ c_chainId s' = None.
Proof. by cbn. Qed.

(** ** Stability deposits *)

(** A stability deposit change is offered exactly when it is the change that
    leads to the edited amount, the user has no frontend of their own, a deposit is
    covered by the balance, and nothing is withdrawn while there are
    undercollateralised Troves. *)
Theorem validateStabilityDepositChange_iff original edited ctx change description :
  validateStabilityDepositChange original edited ctx = Ok (Some change, description) <->
  description = Some (StabilityActionDescription original change) /\
  haveOwnFrontend ctx = false /\
  StabilityDeposit.deposit_whatChanged original edited = Ok (Some change) /\
  match change with
  | DepositZUSD x => bn x <= bn (dc_zusdBalance ctx)
  | WithdrawZUSD _ _ => dc_haveUndercollateralizedTroves ctx = false
  end.
Proof.
  unfold validateStabilityDepositChange.
  destruct (StabilityDeposit.deposit_whatChanged original edited) as [[c|]|e]; cbn [bind].
  2, 3: destruct (haveOwnFrontend ctx); split; try discriminate; by intros (_ & _ & ? & _).
  destruct (haveOwnFrontend ctx); [split; [discriminate | by intros (_ & ? & _)]|].
  destruct c as [x|x all].
  - rewrite DecimalFacts.gt_decimal, !bind_Ok. case_Zb.
    + split; [intros H'; inv_ok; discriminate | intros (_ & _ & [= <-] & ?); lia].
    + split; [intros [= <- <-]; done | intros (-> & _ & [= <-] & _); done].
  - rewrite bind_Ok. destruct (dc_haveUndercollateralizedTroves ctx).
    + split; [discriminate | intros (_ & _ & [= <-] & ?); discriminate].
    + split; [intros [= <- <-]; done | intros (-> & _ & [= <-] & _); done].
Qed.

(** ** Examples *)

(** The parameters of an update after which the store holds the given Trove. *)
Definition update_to (t : UserTrove) (keys : list string) : ListenerParams unit :=
  let f := mkFees Decimal.ZERO Decimal.ZERO Decimal.ONE 0 0 false in
  let d : DerivedState := fun k =>
    match k as k return obj (Key.derivedType k) with
    | Key.trove => mkObj 1 t
    | Key.fees => mkObj 2 f
    | Key.borrowingRate => mkObj 3 Decimal.ZERO
    | Key.redemptionRate => mkObj 4 Decimal.ZERO
    | Key.haveUndercollateralizedTroves => mkObj 5 false
    end in
  mkParams (mkState None (Some d) None) (mkState None None None) keys.

Lemma troveManager_follows_witness :
  let t c d := mkUserTrove (mkTrove (dec c) (dec d)) "0x01" open in
  trove_reduce (mkTroveManager (t 1000 5000) (mkTrove (dec 900) (dec 7000)) true true false)
    (trove_updateStore (update_to (t 1100 5300) [])) =
  Ok (if true && changed (update_to (t 1100 5300) []) "troveBeforeRedistribution"
      then mkTroveManager (t 1100 5300) (mkTrove (dec 1100) (dec 5300)) false false false
      else mkTroveManager (t 1100 5300)
             (moved (mkTrove (dec 900) (dec 7000)) (mkTrove (dec 1000) (dec 5000)) (mkTrove (dec 1100) (dec 5300)))
             true true false).
Proof.
  intros t. apply (troveManager_follows
    (mkTroveManager (t 1000 5000) (mkTrove (dec 900) (dec 7000)) true true false)
    (update_to (t 1100 5300) []) (t 1100 5300)); [reflexivity | discriminate | reflexivity | reflexivity].
Defined.

Example troveManager_follows_example :
  moved (mkTrove (dec 900) (dec 7000)) (mkTrove (dec 1000) (dec 5000)) (mkTrove (dec 1100) (dec 5300)) =
  mkTrove (dec 1000) (dec 7300).
Proof. reflexivity. Qed.

Lemma troveManager_invalid_creation_throws_witness :
  let t c d s := mkUserTrove (mkTrove (dec c) (dec d)) "0x01" s in
  trove_reduce (mkTroveManager (t 0 0 nonExistent) (mkTrove (dec 900) (dec 5)) false true false)
    (trove_updateStore (update_to (t 1000 200000000000000000000 open) ["trove"%string])) =
  Throw (Error "Can't create onto existing Trove").
Proof.
  intros t. apply (troveManager_invalid_creation_throws
    (mkTroveManager (t 0 0 nonExistent) (mkTrove (dec 900) (dec 5)) false true false)
    (update_to (t 1000 200000000000000000000 open) ["trove"%string]) (t 1000 200000000000000000000 open));
    first [reflexivity | discriminate].
Defined.
