(* ===== verification/FrontForms.v ===== *)
(** * The forms of the web application
    (dev-frontend/src/components: Trove/Opening.tsx, Trove/Adjusting.tsx,
    Trove/TroveAction.tsx, Stability/StabilityDepositAction.tsx,
    Redemption/RedemptionManager.tsx, Redemption/RedemptionAction.tsx, RiskyTroves.tsx)

    A form is a function from what the component selects from the store and what
    the user typed to the values it shows and the change it offers; effects that
    set the typed values are functions on them.  Confirming binds a method of
    [SendableEthersLiquity] to the offered change. *)

From S2P Require Import Prelude JsString JsNumber LibDecimal LibDifference LibConstants LibTrove TroveFacts.
From S2P Require Import LibFees LibDeposit LibStore EthersTx EthersLiquity FrontValidation FrontManagers.
Local Open Scope Z_scope.

(** ** Sending a change *)

(** A method of the sendable object with its arguments bound, whatever details it returns. *)
Inductive bound_method : Type := Bound (D : Type) (m : method D).
Arguments Bound {D} _.

(** The object without properties that stands for the parameters of a permit is an argument. *)
Definition troveAction (FAKE_PERMIT_PARAMS : PermitParams) (change : TroveChange Decimal) (useNueToken : bool)
    (maxBorrowingRate : Decimal) : option bound_method :=
  let rate := Some (DDecimal maxBorrowingRate) in
  match change with
  | creation params => Some
      (if useNueToken then Bound (TroveMethod (TOpenNueTrove (creation_entries params) rate None))
       else Bound (TroveMethod (TOpenTrove (creation_entries params) rate None)))
  | closure _ => Some
      (if useNueToken then Bound (TroveMethod (TCloseNueTrove FAKE_PERMIT_PARAMS None))
       else Bound (TroveMethod (TCloseTrove None)))
  | adjustment params _ => Some
      (if useNueToken then
         Bound (TroveMethod (TAdjustNueTrove (adjustment_entries params) FAKE_PERMIT_PARAMS rate None))
       else Bound (TroveMethod (TAdjustTrove (adjustment_entries params) rate None)))
  | invalidCreation _ _ => None
  end.

(** [StabilityDepositAction]; the tag is passed only for a registered frontend. *)
Definition stabilityDepositAction (frontend : FrontendStatus) (config_frontendTag : string)
    (change : StabilityDepositChange Decimal) : bound_method :=
  let frontendTag := match frontend with registered _ => Some config_frontendTag | unregistered => None end in
  match change with
  | DepositZUSD amount => Bound (PoolMethod (TDepositZUSDInStabilityPool amount frontendTag None))
  | WithdrawZUSD amount _ => Bound (PoolMethod (TWithdrawZUSDFromStabilityPool amount None))
  end.

(** ** Opening *)

Module Opening.

Record OpeningSelected : Type := mkOpeningSelected {
  fees : Fees;
  price : Decimal;
  accountBalance : Decimal;
  validationContext : TroveChangeValidationSelectedState }.

Definition opening_selector (b : BaseState) (d : DerivedState) : OpeningSelected :=
  mkOpeningSelected (val (d Key.fees)) (val (b Key.price)) (val (b Key.accountBalance))
    (selectForTroveChangeValidation b).

Definition GAS_ROOM_ETH : Decimal := Eval vm_compute in constant "0.1".

Record Typed : Type := mkTyped { collateral : Decimal; borrowAmount : Decimal }.

Definition reset_opening : Typed := mkTyped Decimal.ZERO Decimal.ZERO.

(** The effect that proposes the smallest loan once there is collateral. *)
Definition propose_minimum (t : Typed) : Typed :=
  if negb (Decimal.isZero (collateral t)) && Decimal.isZero (borrowAmount t)
  then mkTyped (collateral t) ZUSD_MINIMUM_NET_DEBT
  else t.

Record OpeningForm : Type := mkForm {
  maxBorrowingRate : Decimal;
  fee : Decimal;
  totalDebt : Decimal;
  isDirty : bool;
  trove : Trove;
  maxCollateral : Decimal;
  collateralMaxedOut : bool;
  collateralRatio : option Decimal;
  troveChange : option (TroveChange Decimal);
  description : option TroveDescription }.

Definition opening_form (s : OpeningSelected) (useNueToken : bool) (t : Typed) : result OpeningForm :=
  let! borrowingRate := Fees.borrowingRate (fees s) None in
  let! maxBorrowingRate := Decimal.add borrowingRate (Num "0.005") in
  let! fee := Decimal.mul (borrowAmount t) borrowingRate in
  let! net := Decimal.add (borrowAmount t) ZUSD_LIQUIDATION_RESERVE in
  let! totalDebt := Decimal.add net fee in
  let isDirty := negb (Decimal.isZero (collateral t)) || negb (Decimal.isZero (borrowAmount t)) in
  let trove := if isDirty then mkTrove (collateral t) totalDebt else _emptyTrove in
  let! hasRoom := Decimal.gt (accountBalance s) GAS_ROOM_ETH in
  let! maxEth := if hasRoom then Decimal.sub (accountBalance s) GAS_ROOM_ETH else Ok Decimal.ZERO in
  let! maxCollateral := Decimal.add (collateral t) maxEth in
  let! collateralMaxedOut := Decimal.eq (collateral t) maxCollateral in
  let! collateralRatio :=
    if negb (Decimal.isZero (collateral t)) && negb (Decimal.isZero (borrowAmount t))
    then let! r := Trove.collateralRatio trove (price s) in Ok (Some r) else Ok None in
  let! change := validateTroveChange _emptyTrove trove borrowingRate useNueToken (validationContext s) in
  Ok (mkForm maxBorrowingRate fee totalDebt isDirty trove maxCollateral collateralMaxedOut collateralRatio
        (fst change) (snd change)).

End Opening.

(** ** Adjusting *)

Module Adjusting.

Record AdjustingSelected : Type := mkAdjustingSelected {
  trove : UserTrove;
  fees : Fees;
  price : Decimal;
  validationContext : TroveChangeValidationSelectedState }.

Definition adjusting_selector (b : BaseState) (d : DerivedState) : AdjustingSelected :=
  mkAdjustingSelected (val (d Key.trove)) (val (d Key.fees)) (val (b Key.price))
    (selectForTroveChangeValidation b).

Definition feeFrom (original edited : Trove) (borrowingRate : Decimal) : result Decimal :=
  let! change := Trove.whatChanged original edited (Some (DDecimal borrowingRate)) in
  match change with
  | Some (invalidCreation _ _) | None => Ok Decimal.ZERO
  | Some c =>
      match params_borrowZUSD c with
      | Some borrow => Decimal.mul borrow borrowingRate
      | None => Ok Decimal.ZERO
      end
  end.

Definition applyUnsavedCollateralChanges (unsavedChanges : Difference) (trove : Trove) : result Decimal :=
  match Difference.absoluteValue unsavedChanges with
  | Some a =>
      match Difference.positive unsavedChanges, Difference.negative unsavedChanges with
      | Some _, _ => Decimal.add (collateral trove) a
      | None, Some _ =>
          let! less := Decimal.lt a (collateral trove) in
          if less then Decimal.sub (collateral trove) a else Ok (collateral trove)
      | None, None => Ok (collateral trove)
      end
  | None => Ok (collateral trove)
  end.

Definition applyUnsavedNetDebtChanges (unsavedChanges : Difference) (trove : Trove) : result Decimal :=
  match Difference.absoluteValue unsavedChanges with
  | Some a =>
      match Difference.positive unsavedChanges, Difference.negative unsavedChanges with
      | Some _, _ => let! net := Trove.netDebt trove in Decimal.add net a
      | None, Some _ =>
          let! net := Trove.netDebt trove in
          let! less := Decimal.lt a net in
          if less then Decimal.sub net a else Ok net
      | None, None => Trove.netDebt trove
      end
  | None => Trove.netDebt trove
  end.

(** What the component keeps: the typed values and the Trove of the last adjusting_form. *)
Record Edit : Type := mkEdit { previousTrove : Trove; collateral_ : Decimal; netDebt : Decimal }.

Definition start (trove : Trove) : result Edit :=
  let! net := Trove.netDebt trove in Ok (mkEdit trove (collateral trove) net).

Definition reset_adjusting (e : Edit) (trove : Trove) : result Edit :=
  let! net := Trove.netDebt trove in Ok (mkEdit (previousTrove e) (collateral trove) net).

(** The effect that moves unsaved changes to a Trove that has changed on the chain. *)
Definition follow (e : Edit) (trove : Trove) : result Edit :=
  let previous := previousTrove e in
  let! sameCollateral := Decimal.eq (collateral previous) (collateral trove) in
  let! nextCollateral :=
    if sameCollateral then Ok (collateral_ e)
    else
      let! unsaved := Difference.between (Some (DDecimal (collateral_ e))) (Some (DDecimal (collateral previous))) in
      applyUnsavedCollateralChanges unsaved trove in
  let! previousNet := Trove.netDebt previous in
  let! net := Trove.netDebt trove in
  let! sameNet := Decimal.eq previousNet net in
  let! nextNetDebt :=
    if sameNet then Ok (netDebt e)
    else
      let! unsaved := Difference.between (Some (DDecimal (netDebt e))) (Some (DDecimal previousNet)) in
      applyUnsavedNetDebtChanges unsaved trove in
  Ok (mkEdit trove nextCollateral nextNetDebt).

Record AdjustingForm : Type := mkForm {
  isDirty : bool;
  fee : Decimal;
  totalDebt : Decimal;
  maxBorrowingRate : Decimal;
  updatedTrove : Trove;
  collateralRatio : option Decimal;
  collateralRatioChange : Difference;
  troveChange : option (TroveChange Decimal);
  description : option TroveDescription }.

(** [None] when nothing is rendered; the net debt is read before the status, by the
    initial value of the state and the dependencies of [reset]. *)
Definition adjusting_form (s : AdjustingSelected) (useNueToken : bool) (e : Edit) : result (option AdjustingForm) :=
  let! net := Trove.netDebt (user_trove (trove s)) in
  let! borrowingRate := Fees.borrowingRate (fees s) None in
  match status (trove s) with
  | open =>
      let trove := user_trove (trove s) in
      let! sameCollateral := Decimal.eq (collateral_ e) (collateral trove) in
      let! sameNet := if sameCollateral then Decimal.eq (netDebt e) net else Ok true in
      let isDirty := negb sameCollateral || negb sameNet in
      let! isDebtIncrease := Decimal.gt (netDebt e) net in
      let! debtIncreaseAmount := if isDebtIncrease then Decimal.sub (netDebt e) net else Ok Decimal.ZERO in
      let! fee :=
        if isDebtIncrease then
          let! debt' := Decimal.add (debt trove) debtIncreaseAmount in
          feeFrom trove (mkTrove (collateral trove) debt') borrowingRate
        else Ok Decimal.ZERO in
      let! gross := Decimal.add (netDebt e) ZUSD_LIQUIDATION_RESERVE in
      let! totalDebt := Decimal.add gross fee in
      let! maxBorrowingRate := Decimal.add borrowingRate (Num "0.005") in
      let updatedTrove := if isDirty then mkTrove (collateral_ e) totalDebt else trove in
      let! collateralRatio :=
        if negb (Decimal.isZero (collateral_ e)) && negb (Decimal.isZero (netDebt e))
        then let! r := Trove.collateralRatio updatedTrove (price s) in Ok (Some r) else Ok None in
      let! ratioBefore := Trove.collateralRatio trove (price s) in
      let! collateralRatioChange := Difference.between (DDecimal <$> collateralRatio) (Some (DDecimal ratioBefore)) in
      let! change := validateTroveChange trove updatedTrove borrowingRate useNueToken (validationContext s) in
      Ok (Some (mkForm isDirty fee totalDebt maxBorrowingRate updatedTrove collateralRatio collateralRatioChange
                  (fst change) (snd change)))
  | _ => Ok None
  end.

End Adjusting.

(** ** Redeeming *)

Module RedemptionManager.

Record RedemptionSelected : Type := mkRedemptionSelected {
  price : Decimal; fees : Fees; total : Trove; zusdBalance : Decimal }.

Definition redemption_select (b : BaseState) (d : DerivedState) : RedemptionSelected :=
  mkRedemptionSelected (val (b Key.price)) (val (d Key.fees)) (val (b Key.total)) (val (b Key.zusdBalance)).

Inductive Description : Type :=
| TotalRatioTooLow
| ExceedsBalance (by_ : Decimal)
| YouWillReceive (eth zusd : Decimal).

Record RedemptionForm : Type := mkForm {
  dirty : bool;
  ethAmount : Decimal;
  redemptionRate : Decimal;
  ethFee : Decimal;
  maxRedemptionRate : Decimal;
  canRedeem : bool;
  description : Description;
  action : option bound_method }.

Definition redemption_form (s : RedemptionSelected) (zusdAmount : Decimal) : result RedemptionForm :=
  let dirty := negb (Decimal.isZero zusdAmount) in
  let! ethAmount := Decimal.div zusdAmount (price s) in
  let! fraction := Decimal.div zusdAmount (debt (total s)) in
  let! redemptionRate := Fees.redemptionRate (fees s) (Some (DDecimal fraction)) None in
  let! ethFee := Decimal.mul ethAmount redemptionRate in
  let! maxRedemptionRate := Decimal.add redemptionRate (Num "0.001") in
  let! low := Trove.collateralRatioIsBelowMinimum (total s) (price s) in
  let! c :=
    if low then Ok (false, TotalRatioTooLow)
    else
      let! exceeds := Decimal.gt zusdAmount (zusdBalance s) in
      if exceeds then
        let! excess := Decimal.sub zusdAmount (zusdBalance s) in Ok (false, ExceedsBalance excess)
      else
        let! received := Decimal.sub ethAmount ethFee in Ok (true, YouWillReceive received zusdAmount) in
  Ok (mkForm dirty ethAmount redemptionRate ethFee maxRedemptionRate (fst c) (snd c)
        (if dirty && fst c
         then Some (Bound (TokenMethod (TRedeemZUSD zusdAmount (Some (DDecimal maxRedemptionRate)) None)))
         else None)).

End RedemptionManager.

(** ** The list of risky Troves *)

Module RiskyTroves.

Definition liquidatableInNormalMode (trove : UserTrove) (price : Decimal) : result (bool * string) :=
  let! below := Trove.collateralRatioIsBelowMinimum (user_trove trove) price in
  Ok (below, "Collateral ratio not low enough"%string).

Definition liquidatableInRecoveryMode (trove : UserTrove) (price totalCollateralRatio zusdInStabilityPool : Decimal)
    : result (bool * string) :=
  let! collateralRatio := Trove.collateralRatio (user_trove trove) price in
  let! enough := Decimal.gte collateralRatio MINIMUM_COLLATERAL_RATIO in
  let! belowTotal := if enough then Decimal.lt collateralRatio totalCollateralRatio else Ok false in
  if enough && belowTotal then
    let! covered := Decimal.lte (debt (user_trove trove)) zusdInStabilityPool in
    Ok (covered, "There's not enough ZUSD in the Stability pool to cover the debt"%string)
  else liquidatableInNormalMode trove price.

Record RiskySelected : Type := mkRiskySelected {
  numberOfTroves : Z;
  price : Decimal;
  recoveryMode : bool;
  totalCollateralRatio : Decimal;
  zusdInStabilityPool : Decimal }.

Definition risky_select (b : BaseState) : result RiskySelected :=
  let total := val (b Key.total) in
  let price := val (b Key.price) in
  let! recovery := Trove.collateralRatioIsBelowCritical total price in
  let! ratio := Trove.collateralRatio total price in
  Ok (mkRiskySelected (val (b Key.numberOfTroves)) price recovery ratio (val (b Key.zusdInStabilityPool))).

Definition requires (s : RiskySelected) (trove : UserTrove) : result (bool * string) :=
  if recoveryMode s
  then liquidatableInRecoveryMode trove (price s) (totalCollateralRatio s) (zusdInStabilityPool s)
  else liquidatableInNormalMode trove (price s).

(** [Math.ceil(numberOfTroves / pageSize) || 1]; both numbers are small integers. *)
Definition numberOfPages (numberOfTroves pageSize : Z) : Z :=
  let pages := (numberOfTroves + pageSize - 1) / pageSize in
  if pages =? 0 then 1 else pages.

Definition clampedPage (numberOfTroves pageSize page : Z) : Z :=
  Z.min page (numberOfPages numberOfTroves pageSize - 1).

Definition nextPage (numberOfTroves pageSize page : Z) : Z :=
  let clamped := clampedPage numberOfTroves pageSize page in
  if clamped <? numberOfPages numberOfTroves pageSize - 1 then clamped + 1 else page.

Definition previousPage (numberOfTroves pageSize page : Z) : Z :=
  let clamped := clampedPage numberOfTroves pageSize page in
  if 0 <? clamped then clamped - 1 else page.

(** The listing the page asks for: the first Trove and how many. *)
Definition page_query (numberOfTroves pageSize page : Z) : Z * Z :=
  (clampedPage numberOfTroves pageSize page * pageSize, pageSize).

(** The rows, and whether each has the button that liquidates it. *)
Definition rows (troves : option (list UserTrove)) : list UserTrove :=
  filter (fun t => Trove.isEmpty (user_trove t) = false) (default [] troves).

Definition has_button (troves : option (list UserTrove)) : bool := Z.of_nat (length (rows troves)) >? 1.

Definition liquidate_action (trove : UserTrove) : bound_method :=
  Bound (PoolMethod (TLiquidate (inl (ownerAddress trove)) None)).

End RiskyTroves.
