(* ===== verification/FormFacts.v ===== *)
(** * What the forms of the web application offer and send *)

From S2P Require Import Prelude JsString JsNumber LibDecimal LibDifference LibConstants LibTrove TroveFacts.
From S2P Require Import LibFees LibDeposit LibStore LibReadable EthersConnection EthersTx EthersPopulatable.
From S2P Require Import EthersReadable PopulatableFacts EthersLiquity FrontValidation FrontManagers FrontForms.
Local Open Scope Z_scope.

(** A change offered by [validateTroveChange] is the one that leads to the edited Trove. *)
Lemma offered_change original edited rate nue s change d :
  validateTroveChange original edited rate nue s = Ok (Some change, d) ->
  Trove.whatChanged original edited (Some (DDecimal rate)) = Ok (Some change).
Proof.
  unfold validateTroveChange. destruct (Trove.whatChanged _ _ _) as [[c|]|e]; cbn [bind]; [|done..].
  intros H. inv_ok. by repeat case_match; simplify_eq.
Qed.

Lemma whatChanged_same (t : Trove) rate : Trove.whatChanged t t rate = Ok None.
Proof. unfold Trove.whatChanged. by rewrite equals_decimal, bind_Ok, bool_decide_true. Qed.

(** ** Opening *)

(** The fee taken from a debt that contains the fee gives back the amount it was charged on. *)
Lemma unapply_owed b r : 0 <= b -> 0 <= r ->
  (b * (DIGITS + r) / DIGITS * DIGITS + (DIGITS + r - 1)) / (DIGITS + r) = b.
Proof.
  intros Hb Hr. pose proof DIGITS_pos as HD. set (x := b * (DIGITS + r) / DIGITS).
  assert (Hx : x * DIGITS <= b * (DIGITS + r) < x * DIGITS + DIGITS).
  { pose proof (Z.div_mod (b * (DIGITS + r)) DIGITS ltac:(lia)). fold x in H.
    pose proof (Z.mod_pos_bound (b * (DIGITS + r)) DIGITS HD). lia. }
  apply Z.le_antisymm; [apply div_le_iff; nia | apply le_div_iff; nia].
Qed.

Lemma owed_split rate b : owed rate b = b + b * bn rate / DIGITS.
Proof.
  unfold owed. rewrite Z.mul_add_distr_l, Z.add_comm, Z.div_add by (by vm_compute). lia.
Qed.

Lemma add_limit rate : Decimal.add rate (Num "0.005") = Ok (dec (bn rate + 5000000000000000)).
Proof. change (Decimal.add rate (Num "0.005")) with (Decimal.add rate (dec 5000000000000000)). apply DecimalFacts.add_decimal. Qed.

Section Opening.
Import Opening.
Context (s : Opening.OpeningSelected) (nue : bool) (t : Typed) (form : OpeningForm) (rate : Decimal).
Hypothesis Hrate : Fees.borrowingRate (fees s) None = Ok rate.
Hypothesis Hform : opening_form s nue t = Ok form.

(** The Trove the form shows once something is typed. *)
Definition typed_trove : Trove :=
  mkTrove (collateral t) (dec (bn ZUSD_LIQUIDATION_RESERVE + owed rate (bn (borrowAmount t)))).

Lemma opening_values :
  bn (fee form) = bn (borrowAmount t) * bn rate / DIGITS /\
  bn (totalDebt form) = bn ZUSD_LIQUIDATION_RESERVE + owed rate (bn (borrowAmount t)) /\
  maxBorrowingRate form = dec (bn rate + 5000000000000000) /\
  trove form = (if isDirty form then typed_trove else _emptyTrove) /\
  validateTroveChange _emptyTrove (trove form) rate nue (validationContext s) = Ok (troveChange form, description form).
Proof.
  revert Hform. unfold opening_form. rewrite Hrate, bind_Ok, add_limit, bind_Ok.
  rewrite DecimalFacts.mul_decimal, bind_Ok, DecimalFacts.add_decimal, bind_Ok, DecimalFacts.add_decimal, bind_Ok.
  rewrite DecimalFacts.gt_decimal, bind_Ok. intros F. bn_pos.
  assert (0 <= bn (borrowAmount t) * bn rate / DIGITS) by (apply Z.div_pos; [nia | apply DIGITS_pos]).
  rewrite (bn_dec (_ + _)), (bn_dec (_ / _)) in F by lia. inv_ok. cbn [fee totalDebt maxBorrowingRate trove isDirty].
  rewrite !bn_dec by lia. unfold typed_trove. rewrite owed_split.
  replace (bn ZUSD_LIQUIDATION_RESERVE + _) with
    (bn (borrowAmount t) + bn ZUSD_LIQUIDATION_RESERVE + bn (borrowAmount t) * bn rate / DIGITS) by lia.
  do 4 (split; [done|]). cbn [troveChange description]. rewrite <- surjective_pairing. assumption.
Qed.

Lemma opening_change change : troveChange form = Some change ->
  change = creation (mkCreationParams (collateral t) (borrowAmount t)) /\ trove form = typed_trove.
Proof.
  intros Hc. destruct opening_values as (_ & _ & _ & Ht & Hv).
  rewrite Hc in Hv. apply offered_change in Hv. rewrite Ht in Hv.
  destruct (isDirty form); [|by rewrite whatChanged_same in Hv]. split; [|by rewrite Ht].
  pose proof (owed_nonneg rate (bn (borrowAmount t)) (bn_nonneg _)). bn_pos.
  assert (0 < bn ZUSD_LIQUIDATION_RESERVE) by reflexivity.
  rewrite whatChanged_from_empty in Hv.
  - unfold typed_trove in Hv. cbn [debt LibTrove.collateral] in Hv. rewrite !bn_dec in Hv by lia.
    rewrite (proj2 (Z.ltb_ge _ _)) in Hv by lia. injection Hv as <-. do 2 f_equal.
    replace (bn ZUSD_LIQUIDATION_RESERVE + _ - _) with (owed rate (bn (borrowAmount t))) by lia.
    unfold owed. rewrite unapply_owed by apply bn_nonneg. apply dec_bn.
  - unfold typed_trove, _emptyTrove. intros E. apply (f_equal (fun t => bn (debt t))) in E.
    cbn [debt] in E. rewrite bn_dec, bn_ZERO in E by lia. lia.
Qed.

End Opening.

(** What the opening form offers is what the user typed: the change deposits the typed collateral and
    borrows exactly the typed amount although the form passes through the debt with the fee, the fee and
    the debt it shows are those of the created Trove, and confirming populates a call of [openTrove] with
    the typed amounts, the hints of that Trove and the shown rate plus half a percent as its limit. *)
Theorem opening_confirmed permit readable contracts calls hints random connection
    (s : Opening.OpeningSelected) (t : Opening.Typed) (form : Opening.OpeningForm) (rate : Decimal) change fees upper lower :
  Fees.borrowingRate (Opening.fees s) None = Ok rate ->
  Opening.opening_form s false t = Ok form -> Opening.troveChange form = Some change ->
  getFees readable None = Ok fees -> Fees.borrowingRate fees None = Ok rate ->
  PopulatableEthersLiquity._findHints readable hints random (PlainTrove (Opening.trove form)) = Ok (upper, lower) ->
  bn (Opening.fee form) = bn (Opening.borrowAmount t) * bn rate / DIGITS /\
  Trove.apply _emptyTrove (Some change) (Some (DDecimal rate)) = Ok (Opening.trove form) /\
  debt (Opening.trove form) = Opening.totalDebt form /\
  exists params args adjustGas,
    troveAction permit change false (Opening.maxBorrowingRate form) =
      Some (Bound (TroveMethod (TOpenTrove params (Some (DDecimal (Opening.maxBorrowingRate form))) None))) /\
    map uint (take 2 args) = [Some (bn rate + 5000000000000000); Some (bn (Opening.borrowAmount t))] /\
    drop 2 args = [AAddress upper; AAddress lower] /\
    (forall gas, adjustGas gas = gas + 90000) /\
    populate_trove connection readable contracts calls hints random
        (TOpenTrove params (Some (DDecimal (Opening.maxBorrowingRate form))) None) =
      (let! raw := estimateAndPopulate calls "borrowerOperations" "openTrove"
                     (spread_value (Some (Decimal.hex (Opening.collateral t))) None) adjustGas args in
       Ok (_wrapTroveChangeWithFees contracts (mkCreationParams (Opening.collateral t) (Opening.borrowAmount t)) raw)).
Proof.
  intros Hr Hf Hc Hg Hr' Hh.
  destruct (opening_values s false t form rate Hr Hf) as (Hfee & Hdebt & Hmax & _ & _).
  destruct (opening_change s false t form rate Hr Hf change Hc) as [-> Ht]. rewrite Ht in *. rewrite Hmax.
  split; [done|]. split; [|split].
  - unfold Trove.apply. rewrite isEmpty_spec, bool_decide_true by done.
    cbn [Trove.rate_or_minimum default from_option id creation_borrowZUSD creation_depositCollateral].
    rewrite applyFee_decimal, bind_Ok, DecimalFacts.add_decimal, bind_Ok.
    fold (owed rate (bn (Opening.borrowAmount t))). by rewrite bn_dec by apply owed_nonneg, bn_nonneg.
  - apply bn_inj. rewrite Hdebt. apply bn_dec. pose proof (owed_nonneg rate (bn (Opening.borrowAmount t)) (bn_nonneg _)).
    bn_pos. lia.
  - set (p := mkCreationParams _ _).
    destruct (openTrove_call readable contracts calls hints random (creation_entries p) p fees rate
      (Some (DDecimal (dec (bn rate + 5000000000000000)))) (dec (bn rate + 5000000000000000)) None upper lower)
      as (args & gas & Ha & Hd & Hgas & Hcall); [apply normalize_creation_entries | done..|].
    exists (creation_entries p), args, gas. split; [done|]. split; [|done].
    rewrite Ha, bn_dec by (bn_pos; lia). done.
Qed.

(** ** Adjusting *)

(** What [unapplyFee] makes of an increase of the debt. *)
Definition before_fee (rate : Decimal) (increase : Z) : Z :=
  (increase * DIGITS + (DIGITS + bn rate - 1)) / (DIGITS + bn rate).

Lemma before_fee_bounds rate x : 0 <= x ->
  0 <= before_fee rate x <= x /\ x * DIGITS <= before_fee rate x * (DIGITS + bn rate).
Proof.
  intros Hx. pose proof DIGITS_pos. pose proof (bn_nonneg rate) as Hr. unfold before_fee.
  replace (DIGITS + bn rate - 1) with ((DIGITS + bn rate) - 1) by lia.
  pose proof (div_ceil_bounds (x * DIGITS) (DIGITS + bn rate) ltac:(lia)) as B. cbv zeta in B.
  repeat split; [apply Z.div_pos; nia | apply div_le_iff; [lia|] | lia].
  pose proof (Z.mul_nonneg_nonneg _ _ Hx Hr). lia.
Qed.

Lemma before_fee_mono rate x y : x <= y -> before_fee rate x <= before_fee rate y.
Proof. intros. pose proof DIGITS_pos. bn_pos. apply Z.div_le_mono; nia. Qed.

(** The borrowing of a change that only increases the debt, and of any change that does. *)
Lemma whatChanged_borrows (this that : Trove) rate : this <> _emptyTrove -> bn (debt this) < bn (debt that) ->
  exists p z, Trove.whatChanged this that (Some (DDecimal rate)) = Ok (Some (adjustment p z)) /\
    borrowZUSD p = Some (dec (before_fee rate (bn (debt that) - bn (debt this)))).
Proof.
  intros Hne Hd. unfold Trove.whatChanged.
  rewrite equals_decimal, bind_Ok, bool_decide_false by (intros ->; lia).
  rewrite !isEmpty_spec, bool_decide_false by done.
  rewrite bool_decide_false.
  2: { intros ->. change (bn (debt _emptyTrove)) with 0 in Hd. bn_pos. lia. }
  assert (E : forall r, r = Some (DDecimal rate) -> Trove._debtChange this that (Trove.rate_or_minimum r) =
    Ok (ZUSDBorrowing (dec (before_fee rate (bn (debt that) - bn (debt this)))))).
  { intros r ->. unfold Trove._debtChange. rewrite DecimalFacts.gt_decimal, bind_Ok.
    rewrite (proj2 (Z.ltb_lt _ _)) by done. rewrite DecimalFacts.sub_decimal, bind_Ok by lia.
    cbn [Trove.rate_or_minimum default from_option id]. rewrite unapplyFee_decimal, bind_Ok, bn_dec by lia. done. }
  rewrite DecimalFacts.eq_decimal, bind_Ok. case_Zb.
  - rewrite E, bind_Ok by done. by eexists _, _.
  - rewrite DecimalFacts.eq_decimal, bind_Ok. case_Zb; [lia|]. rewrite E, bind_Ok by done.
    unfold Trove._collateralChange. rewrite DecimalFacts.gt_decimal, bind_Ok. case_Zb;
      rewrite DecimalFacts.sub_decimal, !bind_Ok by lia; by eexists _, _.
Qed.

Section Adjusting.
Import Adjusting.
Context (s : Adjusting.AdjustingSelected) (nue : bool) (e : Edit) (form : AdjustingForm) (rate : Decimal).
Local Abbreviation this := (user_trove (Adjusting.trove s)).
Hypothesis Hrate : Fees.borrowingRate (fees s) None = Ok rate.
Hypothesis Hform : adjusting_form s nue e = Ok (Some form).
Hypothesis Hmore : bn (debt this) < bn (netDebt e) + bn ZUSD_LIQUIDATION_RESERVE.

(** By how much the typed net debt exceeds the one of the Trove. *)
Definition asked : Z := bn (netDebt e) + bn ZUSD_LIQUIDATION_RESERVE - bn (debt this).

Lemma adjusting_reserve : bn ZUSD_LIQUIDATION_RESERVE <= bn (debt this).
Proof.
  revert Hform. unfold adjusting_form, Trove.netDebt. rewrite DecimalFacts.lt_decimal, bind_Ok.
  case_Zb; [done|]. lia.
Qed.

Lemma this_not_empty : this <> _emptyTrove.
Proof.
  intros E. pose proof adjusting_reserve as H. rewrite E in H. by vm_compute in H.
Qed.

Lemma feeFrom_increase x : 0 < x ->
  feeFrom this (mkTrove (collateral this) (dec (bn (debt this) + x))) rate =
  Ok (dec (before_fee rate x * bn rate / DIGITS)).
Proof.
  intros Hx. unfold feeFrom. bn_pos.
  destruct (whatChanged_borrows this (mkTrove (collateral this) (dec (bn (debt this) + x))) rate)
    as (p & z & -> & Hb); [apply this_not_empty | cbn [debt]; rewrite bn_dec; lia|].
  rewrite bind_Ok. cbn [params_borrowZUSD]. rewrite Hb, DecimalFacts.mul_decimal. cbn [debt].
  rewrite (bn_dec (bn (debt this) + x)) by lia. replace (_ + x - _) with x by lia.
  rewrite bn_dec; [done|]. apply before_fee_bounds. lia.
Qed.

Lemma adjusting_values :
  bn (fee form) = before_fee rate asked * bn rate / DIGITS /\
  bn (totalDebt form) = bn (debt this) + asked + bn (fee form) /\
  updatedTrove form = mkTrove (collateral_ e) (totalDebt form) /\
  validateTroveChange this (updatedTrove form) rate nue (validationContext s) = Ok (troveChange form, description form).
Proof.
  pose proof adjusting_reserve as Hres. pose proof feeFrom_increase as Hfee.
  revert Hform. unfold adjusting_form. rewrite netDebt_decimal, bind_Ok by done.
  rewrite Hrate, bind_Ok. destruct (status _); try done. bn_pos.
  rewrite DecimalFacts.eq_decimal, bind_Ok, DecimalFacts.eq_decimal, DecimalFacts.gt_decimal, !bn_dec by lia.
  set (same := if _ =? _ then _ else _).
  assert (Hsame : same = Ok (negb (bn (collateral_ e) =? bn (collateral this)))).
  { unfold same. destruct (bn (collateral_ e) =? _); [|done]. cbn [negb]. f_equal. apply Z.eqb_neq. lia. }
  rewrite Hsame, !bind_Ok, (proj2 (Z.ltb_lt _ (bn (netDebt e)))) by lia.
  rewrite DecimalFacts.sub_decimal by (rewrite bn_dec; lia). rewrite bind_Ok, bn_dec, DecimalFacts.add_decimal, bind_Ok by lia.
  replace (bn (netDebt e) - (_ - _)) with asked by (unfold asked; lia).
  assert (0 < asked) by (unfold asked; lia). rewrite bn_dec, Hfee, bind_Ok by lia.
  rewrite DecimalFacts.add_decimal, bind_Ok, DecimalFacts.add_decimal, bind_Ok, add_limit, bind_Ok.
  assert (0 <= before_fee rate asked * bn rate / DIGITS).
  { apply Z.div_pos; [|apply DIGITS_pos]. pose proof (before_fee_bounds rate asked). nia. }
  rewrite (bn_dec (_ + _)), (bn_dec (_ / _)) by lia.
  replace (negb _ || negb (negb _)) with true by (by destruct (_ =? _)).
  intros F. inv_ok. cbn [fee totalDebt updatedTrove troveChange description]. rewrite !bn_dec by lia.
  split; [done|]. split; [unfold asked; lia|]. split; [done|]. by rewrite <- surjective_pairing.
Qed.

End Adjusting.

(** When the typed net debt exceeds the one of the Trove, the adjustment form shows the debt the change
    leads to (up to one unit of rounding), but takes the fee of the typed increase as if the increase already
    contained it: the change borrows at most the typed increase, and the fee shown is at most the one
    charged on what is borrowed. *)
Theorem adjusting_understates_fee (s : Adjusting.AdjustingSelected) nue (e : Adjusting.Edit) form rate change :
  let this := user_trove (Adjusting.trove s) in
  Fees.borrowingRate (Adjusting.fees s) None = Ok rate -> bn rate <= DIGITS ->
  Adjusting.adjusting_form s nue e = Ok (Some form) ->
  bn (debt this) < bn (Adjusting.netDebt e) + bn ZUSD_LIQUIDATION_RESERVE ->
  Adjusting.troveChange form = Some change ->
  exists p z b, change = adjustment p z /\ borrowZUSD p = Some b /\
    bn (Adjusting.totalDebt form) <= bn (debt this) + owed rate (bn b) <= bn (Adjusting.totalDebt form) + 1 /\
    bn b <= asked s e /\
    bn (Adjusting.fee form) <= bn b * bn rate / DIGITS.
Proof.
  cbv zeta. intros Hr Hle Hf Hm Hc.
  destruct (adjusting_values s nue e form rate Hr Hf Hm) as (Hfee & Htotal & Hupd & Hv).
  rewrite Hc in Hv. apply offered_change in Hv. pose proof DIGITS_pos. pose proof (bn_nonneg rate) as Hr0.
  assert (Ha : 0 < asked s e) by (unfold asked; lia).
  destruct (before_fee_bounds rate (asked s e)) as [[Hb0 Hb1] _]; [lia|].
  assert (Hf0 : 0 <= bn (Adjusting.fee form)) by apply bn_nonneg.
  assert (HfD : bn (Adjusting.fee form) * DIGITS <= asked s e * bn rate).
  { rewrite Hfee. apply Z.le_trans with (before_fee rate (asked s e) * bn rate); [apply le_div_iff|]; nia. }
  destruct (whatChanged_borrows (user_trove (Adjusting.trove s)) (Adjusting.updatedTrove form) rate) as (p & z & Hw & Hb).
  { by apply (this_not_empty s nue e form). }
  { rewrite Hupd. cbn [debt]. lia. }
  rewrite Hw in Hv. injection Hv as <-. exists p, z, (dec (before_fee rate (asked s e + bn (Adjusting.fee form)))).
  rewrite Hupd in Hb. cbn [debt] in Hb.
  replace (bn (Adjusting.totalDebt form) - bn (debt (user_trove (Adjusting.trove s)))) with (asked s e + bn (Adjusting.fee form)) in Hb by lia.
  set (x := asked s e + bn (Adjusting.fee form)) in *.
  destruct (before_fee_bounds rate x) as [[Hx0 _] _]; [lia|]. rewrite bn_dec by done.
  destruct (fee_roundtrip x (bn rate)) as (_ & Hz & _); [lia..|]. fold (before_fee rate x) in Hz.
  fold (owed rate (before_fee rate x)) in Hz.
  repeat split; [done | lia | lia | |].
  - unfold before_fee. apply div_le_iff; unfold x; nia.
  - rewrite Hfee. apply Z.div_le_mono; [lia|]. apply Z.mul_le_mono_nonneg_r; [done|].
    apply before_fee_mono. lia.
Qed.

(** *** Following the Trove *)

(** Where an edited amount goes when the amount it was an edit of changes. *)
Definition carried (previous edited updated : Z) : Z :=
  if previous =? updated then edited
  else if previous <=? edited then updated + (edited - previous)
  else if previous - edited <? updated then updated - (previous - edited)
  else updated.

Lemma unsaved_changes (edited previous : Decimal) :
  bn edited <> bn Decimal.INFINITY -> bn previous <> bn Decimal.INFINITY ->
  exists d, Difference.between (Some (DDecimal edited)) (Some (DDecimal previous)) = Ok d /\
    exists a, Difference.absoluteValue d = Some a /\ bn a = Z.abs (bn edited - bn previous) /\
      (Difference.positive d = None <-> bn edited <= bn previous) /\
      (Difference.negative d = None <-> bn previous <= bn edited).
Proof.
  intros He Hp. unfold Difference.between. rewrite !from_decimal, !bind_Ok.
  rewrite !infinite_None by done. bn_pos.
  rewrite DecimalFacts.gt_decimal, bind_Ok. case_Zb.
  - rewrite DecimalFacts.sub_decimal, bind_Ok by lia. eexists. split; [done|]. eexists. split; [reflexivity|].
    cbn [rep_absoluteValue]. rewrite bn_dec by lia. cbn. repeat split; try done; lia.
  - rewrite DecimalFacts.gt_decimal, bind_Ok. case_Zb.
    + rewrite DecimalFacts.sub_decimal, bind_Ok by lia. eexists. split; [done|]. eexists. split; [reflexivity|].
      cbn [rep_absoluteValue]. rewrite bn_dec by lia. cbn. repeat split; try done; lia.
    + eexists. split; [done|]. eexists. split; [reflexivity|]. cbn [rep_absoluteValue].
      rewrite bn_ZERO. cbn. repeat split; try done; lia.
Qed.

(** The shared shape of [applyUnsavedCollateralChanges] and [applyUnsavedNetDebtChanges]. *)
Lemma applied_changes (edited previous updated : Decimal) d a :
  Difference.absoluteValue d = Some a -> bn a = Z.abs (bn edited - bn previous) ->
  (Difference.positive d = None <-> bn edited <= bn previous) ->
  (Difference.negative d = None <-> bn previous <= bn edited) ->
  bn previous <> bn updated ->
  match Difference.positive d, Difference.negative d with
  | Some _, _ => Decimal.add updated a
  | None, Some _ => let! less := Decimal.lt a updated in if less then Decimal.sub updated a else Ok updated
  | None, None => Ok updated
  end = Ok (dec (carried (bn previous) (bn edited) (bn updated))).
Proof.
  intros _ Ha Hp Hn Hne. unfold carried. rewrite (proj2 (Z.eqb_neq _ _)) by done. bn_pos.
  destruct (Difference.positive d) as [x|].
  - assert (bn previous < bn edited) by (destruct (Z.le_gt_cases (bn edited) (bn previous)) as [E|E]; [by apply Hp in E | lia]).
    rewrite (proj2 (Z.leb_le _ _)) by lia. rewrite DecimalFacts.add_decimal, Ha. do 2 f_equal. lia.
  - destruct Hp as [Hp _]. specialize (Hp eq_refl). destruct (Difference.negative d) as [y|].
    + assert (bn edited < bn previous) by (destruct (Z.le_gt_cases (bn previous) (bn edited)) as [E|E]; [by apply Hn in E | lia]).
      rewrite (proj2 (Z.leb_gt _ _)) by lia. rewrite DecimalFacts.lt_decimal, bind_Ok, Ha.
      replace (Z.abs _) with (bn previous - bn edited) by lia. case_Zb; [|by rewrite dec_bn].
      rewrite DecimalFacts.sub_decimal, Ha by lia. do 2 f_equal. lia.
    + destruct Hn as [Hn _]. specialize (Hn eq_refl). rewrite (proj2 (Z.leb_le _ _)) by lia.
      replace (bn updated + _) with (bn updated) by lia. by rewrite dec_bn.
Qed.

(** One amount of [follow], for either way of applying the changes. *)
Lemma carried_step (edited previous updated : Decimal) (applied : Difference -> result Decimal) :
  (forall d a, Difference.absoluteValue d = Some a -> applied d =
    match Difference.positive d, Difference.negative d with
    | Some _, _ => Decimal.add updated a
    | None, Some _ => let! less := Decimal.lt a updated in if less then Decimal.sub updated a else Ok updated
    | None, None => Ok updated
    end) ->
  bn edited < bn Decimal.INFINITY -> bn previous < bn Decimal.INFINITY ->
  (if bn previous =? bn updated then Ok edited
   else let! unsaved := Difference.between (Some (DDecimal edited)) (Some (DDecimal previous)) in applied unsaved) =
  Ok (dec (carried (bn previous) (bn edited) (bn updated))).
Proof.
  intros Happ He Hp. case_Zb; [unfold carried; by rewrite (proj2 (Z.eqb_eq _ _)), dec_bn|].
  destruct (unsaved_changes edited previous) as (d & -> & a & Ha & Hb & H1 & H2); [lia..|].
  rewrite bind_Ok, (Happ d a Ha). by apply applied_changes with (1 := Ha).
Qed.

Lemma carried_nonneg a b c : 0 <= a -> 0 <= b -> 0 <= c -> 0 <= carried a b c.
Proof. intros. unfold carried. repeat case_match; lia. Qed.

(** When the Trove changes on the chain while it is being edited, the unsaved changes are carried over to
    it: additions are added to the new amount, reductions subtracted from it, and a reduction the new amount
    does not exceed is dropped; an amount that did not change keeps its edit. *)
Theorem adjusting_follows (e : Adjusting.Edit) (updated : Trove) :
  let previous := Adjusting.previousTrove e in
  bn ZUSD_LIQUIDATION_RESERVE <= bn (debt previous) -> bn ZUSD_LIQUIDATION_RESERVE <= bn (debt updated) ->
  bn (collateral previous) < bn Decimal.INFINITY -> bn (debt previous) < bn Decimal.INFINITY ->
  bn (Adjusting.collateral_ e) < bn Decimal.INFINITY -> bn (Adjusting.netDebt e) < bn Decimal.INFINITY ->
  exists e', Adjusting.follow e updated = Ok e' /\ Adjusting.previousTrove e' = updated /\
    bn (Adjusting.collateral_ e') =
      carried (bn (collateral previous)) (bn (Adjusting.collateral_ e)) (bn (collateral updated)) /\
    bn (Adjusting.netDebt e') =
      carried (bn (debt previous) - bn ZUSD_LIQUIDATION_RESERVE) (bn (Adjusting.netDebt e))
        (bn (debt updated) - bn ZUSD_LIQUIDATION_RESERVE).
Proof.
  cbv zeta. set (previous := Adjusting.previousTrove e). intros Hp Hu Hpc Hpd Hec Hed. unfold Adjusting.follow.
  fold previous. rewrite !netDebt_decimal by done. rewrite DecimalFacts.eq_decimal, bind_Ok.
  set (pn := dec (bn (debt previous) - bn ZUSD_LIQUIDATION_RESERVE)).
  set (un := dec (bn (debt updated) - bn ZUSD_LIQUIDATION_RESERVE)).
  assert (Ep : bn pn = bn (debt previous) - bn ZUSD_LIQUIDATION_RESERVE) by (apply bn_dec; lia).
  assert (Eu : bn un = bn (debt updated) - bn ZUSD_LIQUIDATION_RESERVE) by (apply bn_dec; lia).
  assert (0 < bn ZUSD_LIQUIDATION_RESERVE) by reflexivity.
  rewrite (carried_step _ _ _ (fun d => Adjusting.applyUnsavedCollateralChanges d updated)), !bind_Ok; [|..|done|done].
  2: { intros d a Ha. unfold Adjusting.applyUnsavedCollateralChanges. by rewrite Ha. }
  rewrite DecimalFacts.eq_decimal, bind_Ok.
  rewrite (carried_step _ _ _ (fun d => Adjusting.applyUnsavedNetDebtChanges d updated)), bind_Ok; [|..|done|lia].
  2: { intros d a Ha. unfold Adjusting.applyUnsavedNetDebtChanges. rewrite Ha, netDebt_decimal by done.
       by destruct (Difference.positive d), (Difference.negative d). }
  eexists. split; [done|]. cbn [Adjusting.previousTrove Adjusting.collateral_ Adjusting.netDebt].
  split; [done|]. rewrite <- Ep, <- Eu. split; apply bn_dec, carried_nonneg; apply bn_nonneg.
Qed.

(** A Trove that is closed while the form shows it has no net debt, and the form throws before it looks at
    the status. *)
Theorem adjusting_closed_throws (s : Adjusting.AdjustingSelected) nue e :
  status (Adjusting.trove s) <> open -> debt (user_trove (Adjusting.trove s)) = Decimal.ZERO ->
  exists message, Adjusting.adjusting_form s nue e = Throw (Error message).
Proof. intros _ Hd. unfold Adjusting.adjusting_form, Trove.netDebt. rewrite Hd. cbn. by eexists. Qed.

(** ** Redeeming *)

(** The redemption form offers to redeem exactly the typed amount, when it is positive, covered by the
    balance and the total ratio is not below the minimum; it then shows the collateral at the
    current price without the fee. *)
Theorem redemption_offer (s : RedemptionManager.RedemptionSelected) (amount : Decimal) form :
  RedemptionManager.redemption_form s amount = Ok form ->
  (RedemptionManager.action form =
     Some (Bound (TokenMethod (TRedeemZUSD amount (Some (DDecimal (RedemptionManager.maxRedemptionRate form))) None))) <->
   0 < bn amount <= bn (RedemptionManager.zusdBalance s) /\
   ~ below MINIMUM_COLLATERAL_RATIO (RedemptionManager.total s) (RedemptionManager.price s)) /\
  (RedemptionManager.canRedeem form = true -> exists eth,
     RedemptionManager.description form = RedemptionManager.YouWillReceive eth amount /\
     bn eth + bn (RedemptionManager.ethFee form) = bn (RedemptionManager.ethAmount form)).
Proof.
  unfold RedemptionManager.redemption_form. rewrite DecimalFacts.gt_decimal.
  destruct (ratio_checks_value (RedemptionManager.total s) (RedemptionManager.price s)) as (-> & _).
  rewrite <- below_true. set (low := _ <? _). intros H. inv_ok.
  cbn [RedemptionManager.action RedemptionManager.canRedeem RedemptionManager.description
    RedemptionManager.ethFee RedemptionManager.ethAmount RedemptionManager.maxRedemptionRate].
  assert (Hdirty : negb (Decimal.isZero amount) = true <-> 0 < bn amount).
  { rewrite negb_true_iff. apply DecimalFacts.isZero_false. }
  destruct low.
  { injection Hok5 as <-. cbn [fst snd]. rewrite andb_false_r. split; [split; [done | by intros [_ []]] | done]. }
  rewrite bind_Ok in Hok5.
  destruct (Z.ltb_spec (bn (RedemptionManager.zusdBalance s)) (bn amount)); inv_ok; cbn [fst snd].
  - rewrite andb_false_r. split; [split; [done | lia] | done].
  - rewrite andb_true_r. split.
    + destruct (negb _).
      * split; [intros _; split; [split; [by apply Hdirty | assumption] | discriminate] | reflexivity].
      * split; [discriminate|]. intros [[Hp _] _]. apply Hdirty in Hp. discriminate.
    + intros _. eexists. split; [reflexivity|]. unfold Decimal.sub in Hok4. rewrite from_decimal, bind_Ok in Hok4.
      apply new_Decimal_Ok in Hok4. lia.
Qed.

(** ** The list of risky Troves *)

(** Every page of the list starts at an existing Trove and the pages cover all of them: the page shown
    lies in range whatever page was asked for, one step back or forward changes it by one, and going
    forward is possible exactly when Troves follow the shown ones. *)
Theorem pages_cover (numberOfTroves pageSize page : Z) :
  0 < numberOfTroves -> 0 < pageSize -> 0 <= page ->
  let shown := RiskyTroves.clampedPage numberOfTroves pageSize page in
  0 <= fst (RiskyTroves.page_query numberOfTroves pageSize page) < numberOfTroves /\
  (forall i, 0 <= i < numberOfTroves -> exists p, 0 <= p < RiskyTroves.numberOfPages numberOfTroves pageSize /\
     fst (RiskyTroves.page_query numberOfTroves pageSize p) <= i <
     fst (RiskyTroves.page_query numberOfTroves pageSize p) + pageSize) /\
  RiskyTroves.clampedPage numberOfTroves pageSize (RiskyTroves.nextPage numberOfTroves pageSize page) =
    (if (shown + 1) * pageSize <? numberOfTroves then shown + 1 else shown) /\
  RiskyTroves.clampedPage numberOfTroves pageSize (RiskyTroves.previousPage numberOfTroves pageSize page) =
    Z.max 0 (shown - 1).
Proof.
  intros Hn Hs Hp shown. unfold RiskyTroves.page_query. cbn [fst].
  assert (Hpages : exists k, RiskyTroves.numberOfPages numberOfTroves pageSize = k /\ 0 < k /\
    (k - 1) * pageSize < numberOfTroves <= k * pageSize).
  { unfold RiskyTroves.numberOfPages. rewrite <- Z.add_sub_assoc.
    pose proof (div_ceil_bounds numberOfTroves pageSize Hs) as B. cbv zeta in B. set (q := _ / _) in *.
    assert (0 < q) by (apply Z.mul_pos_cancel_r with pageSize; lia). rewrite (proj2 (Z.eqb_neq _ _)) by lia. exists q. lia. }
  destruct Hpages as (k & Ek & Hk & Hlo & Hhi). unfold shown.
  unfold RiskyTroves.nextPage, RiskyTroves.previousPage, RiskyTroves.clampedPage. rewrite Ek.
  set (c := Z.min page (k - 1)). assert (Hc : 0 <= c <= k - 1) by (unfold c; lia).
  assert (Hlast : c * pageSize <= (k - 1) * pageSize) by (apply Z.mul_le_mono_nonneg_r; lia).
  split; [split; [apply Z.mul_nonneg_nonneg; lia | lia]|]. split; [|split].
  - intros i Hi. exists (i / pageSize). pose proof (Z.div_mod i pageSize ltac:(lia)).
    pose proof (Z.mod_pos_bound i pageSize Hs). assert (0 <= i / pageSize < k).
    { split; [apply Z.div_pos; lia | apply Z.div_lt_upper_bound; lia]. }
    split; [lia|]. rewrite Z.min_l by lia. lia.
  - destruct (Z.ltb_spec c (k - 1)).
    + rewrite (proj2 (Z.ltb_lt _ _)), Z.min_l by first [lia | nia]. done.
    + assert (E : c = k - 1) by lia. rewrite E, (proj2 (Z.ltb_ge _ _)) by lia. unfold c in E. lia.
  - destruct (Z.ltb_spec 0 c); unfold c in *; lia.
Qed.

(** ** Examples *)

Definition sample_opening : Opening.OpeningSelected :=
  Opening.mkOpeningSelected sample_fees (dec 200000000000000000000) (dec 5000000000000000000) sample_selected.

Definition sample_typed : Opening.Typed := Opening.mkTyped (dec 3000000000000000000) (dec 250000000000000000000).

Definition sample_permit : PermitParams := mkPermit 0 0 EmptyString EmptyString.

Lemma opening_confirmed_witness : exists form,
  Opening.opening_form sample_opening false sample_typed = Ok form /\
  bn (Opening.fee form) = 250 * bn sample_rate /\
  exists params args adjustGas,
    troveAction sample_permit (creation (mkCreationParams (dec 3000000000000000000) (dec 250000000000000000000))) false
        (Opening.maxBorrowingRate form) =
      Some (Bound (TroveMethod (TOpenTrove params (Some (DDecimal (Opening.maxBorrowingRate form))) None))) /\
    map uint (take 2 args) = [Some (bn sample_rate + 5000000000000000); Some 250000000000000000000] /\
    drop 2 args = [AAddress "0xbb"; AAddress "0xbb"] /\
    (forall gas, adjustGas gas = gas + 90000) /\
    populate_trove sample_connection (sample_backend 5) sample_logs sample_calls sample_hints (lit "0.25")
        (TOpenTrove params (Some (DDecimal (Opening.maxBorrowingRate form))) None) =
      (let! raw := estimateAndPopulate sample_calls "borrowerOperations" "openTrove"
                     (spread_value (Some (Decimal.hex (dec 3000000000000000000))) None) adjustGas args in
       Ok (_wrapTroveChangeWithFees sample_logs
             (mkCreationParams (dec 3000000000000000000) (dec 250000000000000000000)) raw)).
Proof.
  destruct (Opening.opening_form sample_opening false sample_typed) as [form|] eqn:E; [|by vm_compute in E].
  exists form. split; [reflexivity|].
  assert (Hf : Some form = match Opening.opening_form sample_opening false sample_typed with Ok f => Some f | Throw _ => None end)
    by (by rewrite E). vm_compute in Hf. injection Hf as ->.
  destruct (opening_confirmed sample_permit (sample_backend 5) sample_logs sample_calls sample_hints (lit "0.25")
    sample_connection sample_opening sample_typed _ sample_rate
    (creation (mkCreationParams (dec 3000000000000000000) (dec 250000000000000000000))) sample_fees "0xbb" "0xbb"
    ltac:(vm_compute; reflexivity) E ltac:(vm_compute; reflexivity) ltac:(vm_compute; reflexivity)
    ltac:(vm_compute; reflexivity) ltac:(vm_compute; reflexivity)) as (_ & _ & _ & H).
  split; [vm_compute; reflexivity | exact H].
Defined.

(** A Trove with a net debt of 380 ZUSD whose owner asks for 105 ZUSD more at a rate of 5%: the form shows a
    fee of 5 ZUSD, but the change borrows 104.76 ZUSD and pays a fee of 5.24 ZUSD. *)
Definition sample_adjusting : Adjusting.AdjustingSelected :=
  Adjusting.mkAdjustingSelected sample_trove
    (mkFees (dec 0) MINUTE_DECAY_FACTOR BETA 1600000000000 1600000000000 false)
    (dec 200000000000000000000) sample_selected.

Definition sample_edit : Adjusting.Edit :=
  Adjusting.mkEdit (user_trove sample_trove) (dec 3000000000000000000) (dec 485000000000000000000).

Lemma adjusting_understates_fee_witness : exists form b z,
  Adjusting.adjusting_form sample_adjusting false sample_edit = Ok (Some form) /\
  Adjusting.troveChange form = Some (adjustment (OnlyDebt (ZUSDBorrowing b)) z) /\
  bn (Adjusting.fee form) = 5000000000000000000 /\ bn b = 104761904761904761905 /\
  bn b * 50000000000000000 / DIGITS = 5238095238095238095 /\
  bn b <= asked sample_adjusting sample_edit /\
  bn (Adjusting.fee form) <= bn b * 50000000000000000 / DIGITS.
Proof.
  destruct (Adjusting.adjusting_form sample_adjusting false sample_edit) as [[form|]|] eqn:E; [|by vm_compute in E..].
  assert (Hf : Some (Some form) = match Adjusting.adjusting_form sample_adjusting false sample_edit with Ok f => Some f | Throw _ => None end)
    by (by rewrite E). vm_compute in Hf. injection Hf as ->.
  destruct (adjusting_understates_fee sample_adjusting false sample_edit _ (dec 50000000000000000) _
    ltac:(vm_compute; reflexivity) ltac:(vm_compute; discriminate) E ltac:(vm_compute; reflexivity)
    ltac:(cbn [Adjusting.troveChange]; reflexivity)) as (p & z & b & Hc & Hb & _ & H1 & H2).
  injection Hc as <- <-. cbn in Hb. injection Hb as <-.
  eexists _, _, _. split; [reflexivity|]. cbn [Adjusting.troveChange Adjusting.fee].
  split; [reflexivity|]. split; [vm_compute; reflexivity|]. split; [vm_compute; reflexivity|].
  split; [vm_compute; reflexivity|]. exact (conj H1 H2).
Defined.

Lemma adjusting_follows_witness : exists e',
  Adjusting.follow sample_edit (mkTrove (dec 2900000000000000000) (dec 390000000000000000000)) = Ok e' /\
  bn (Adjusting.collateral_ e') = 2900000000000000000 /\ bn (Adjusting.netDebt e') = 475000000000000000000.
Proof.
  destruct (adjusting_follows sample_edit (mkTrove (dec 2900000000000000000) (dec 390000000000000000000))
    ltac:(by vm_compute) ltac:(by vm_compute) ltac:(by vm_compute) ltac:(by vm_compute) ltac:(by vm_compute)
    ltac:(by vm_compute)) as (e' & He & _ & Hc & Hn).
  exists e'. split; [exact He|]. rewrite Hc, Hn. split; vm_compute; reflexivity.
Defined.

Lemma pages_cover_witness :
  RiskyTroves.page_query 25 10 7 = (20, 10) /\
  RiskyTroves.clampedPage 25 10 (RiskyTroves.nextPage 25 10 1) = 2.
Proof.
  split; [reflexivity|]. destruct (pages_cover 25 10 1) as (_ & _ & H & _); [lia..|]. exact H.
Defined.
