(* ===== verification/FrontTransactions.v ===== *)
(** * Sending and monitoring transactions
    (dev-frontend/src/components/Transaction.tsx, hooks/useZusdAggregator.ts)

    One state is shared by all the buttons that send transactions.  A click starts a send; the promises and
    timers that settle later, and the effects React runs when it has rendered a new state, are events.  An
    effect compares its dependencies with those of the last render, runs its cleanup and starts again when
    they differ. *)

From S2P Require Import Prelude JsString.
Local Open Scope string_scope.
Local Open Scope Z_scope.

(** [s.includes(sub)] on strings. *)
Definition str_includes (sub s : string) : bool :=
  match String.index 0 sub s with Some _ => true | None => false end.

(** A [TransactionFunction], by its identity. *)
Definition TransactionFunction : Type := positive.

(** What [send] resolves to; [rawSentTransaction] is its hash, absent in the object [thenTx] makes up. *)
Record SentTransaction : Type := mkSentTx { tx_ident : positive; rawSentTransaction : option string }.

#[export] Instance SentTransaction_eq_dec : EqDecision SentTransaction.
Proof. solve_decision. Defined.

Inductive TransactionKind : Type :=
| idle
| failed (id : string) (error : string) (send : option TransactionFunction)
| waitingForApproval (id : string)
| cancelled (id : string) (send : option TransactionFunction)
| waitingForConfirmation (id : string) (tx : SentTransaction)
| confirmed (id : string)
| confirmedOneShot (id : string).

#[export] Instance TransactionKind_eq_dec : EqDecision TransactionKind.
Proof. solve_decision. Defined.

Record TransactionState : Type := mkTransactionState {
  kind : TransactionKind;
  disableCheck : option bool;
  title : option string;
  description : option string }.

#[export] Instance TransactionState_eq_dec : EqDecision TransactionState.
Proof. solve_decision. Defined.

(** [{ type, ... }] without the optional members. *)
Definition plain (k : TransactionKind) : TransactionState := mkTransactionState k None None None.

(** [transactionState.type !== "idle" ? transactionState.id : undefined] *)
Definition state_id (s : TransactionState) : option string :=
  match kind s with
  | idle => None
  | failed id _ _ | waitingForApproval id | cancelled id _ | waitingForConfirmation id _
  | confirmed id | confirmedOneShot id => Some id
  end.

Definition state_tx (s : TransactionState) : option SentTransaction :=
  match kind s with waitingForConfirmation _ tx => Some tx | _ => None end.

Definition checkDisabled (s : TransactionState) : bool := default false (disableCheck s).

(** The identifier a component watches: a string, or what a regular expression matches. *)
Definition useMyTransactionState (mine : string + (string -> bool)) (s : TransactionState) : TransactionState :=
  match state_id s with
  | Some id =>
      if match mine with inl myId => String.eqb id myId | inr matches => matches id end then s else plain idle
  | None => plain idle
  end.

(** An error that was thrown; [None] for one without a message. *)
Definition catchTx (message : option string) : bool :=
  match message with Some m => str_includes "invalid hash" m | None => false end.

(** ** The button *)

Definition failureReasons (requires : list (bool * string)) (s : TransactionState) : list string :=
  (snd <$> filter (fun r => fst r = false) requires) ++
  match kind s with
  | waitingForApproval _ | waitingForConfirmation _ _ => ["You must wait for confirmation"]
  | _ => []
  end.

Inductive ShowFailure : Type := asTooltip | asChildText.

(** What becomes of the trigger: its click handler, or the text that replaces its children; and the tooltip. *)
Inductive Trigger : Type :=
| Enabled
| Disabled (children : option string).

Definition Transaction (requires : list (bool * string)) (tooltip : option string) (showFailure : option ShowFailure)
    (s : TransactionState) : Trigger * option string :=
  let tooltip := match tooltip with Some EmptyString => None | t => t end in
  match failureReasons requires s with
  | [] => (Enabled, tooltip)
  | reason :: _ =>
      match default (match tooltip with Some _ => asTooltip | None => asChildText end) showFailure with
      | asChildText => (Disabled (Some reason), tooltip)
      | asTooltip => (Disabled None, Some reason)
      end
  end.

(** ** The dialog *)

(** [if (tx.title) return tx.title] *)
Definition or_default (given : option string) (otherwise : string) : string :=
  match given with Some EmptyString | None => otherwise | Some t => t end.

Definition getTransactionTitle (tx : TransactionState) : string :=
  or_default (title tx)
    match kind tx with
    | idle => EmptyString
    | failed _ _ _ => "Confirm Failed"
    | waitingForApproval _ => "Confirm Transaction"
    | waitingForConfirmation _ _ => "Transaction Processing"
    | confirmed _ | confirmedOneShot _ => "Transaction Succeeded"
    | cancelled _ _ => "Confirm Rejected"
    end.

Definition getTransactionDescription (tx : TransactionState) : string :=
  or_default (description tx)
    match kind tx with
    | idle => EmptyString
    | waitingForConfirmation _ _ => "Transaction processing..."
    | cancelled _ _ => "You have chosen to reject the transaction Please cancel or retry your transaction"
    | waitingForApproval _ => "Please confirm the transaction in your RSK wallet"
    | failed _ error _ => error +:+ " Please cancel or retry your transaction"
    | confirmed _ | confirmedOneShot _ => "Transaction is Successful"
    end.

(** The image and its class. *)
Definition getTransactionImage (tx : TransactionState) : string * option string :=
  match kind tx with
  | failed _ _ _ | cancelled _ _ => ("/images/failed-tx.svg", None)
  | waitingForConfirmation _ _ => ("/images/pending-tx.svg", Some "spiner")
  | confirmed _ | confirmedOneShot _ => ("/images/confirm-tx.svg", None)
  | _ => ("/images/rsk.svg", None)
  end.

(** The button that sends again. *)
Definition retry (tx : TransactionState) : option (string * TransactionFunction) :=
  match kind tx with
  | cancelled id (Some send) | failed id _ (Some send) => Some (id, send)
  | _ => None
  end.

(** [tryToGetRevertReason]: [call] is the data the reverted call returns, as bytes; decoding is the ABI's. *)
Definition tryToGetRevertReason (call : result (list Z)) (decode : list Z -> result string) : option string :=
  match call with
  | Ok data =>
      if (Z.of_nat (length data) mod 32 =? 4) && bool_decide (take 4 data = [8; 195; 121; 160])
      then match decode (drop 4 data) with Ok reason => Some reason | Throw _ => None end
      else None
  | Throw _ => None
  end.

(** ** The shared state and what is in flight *)

(** The variables of the effect that watches a sent transaction; when it is cancelled it is gone. *)
Record Monitor : Type := mkMonitor {
  m_id : string;
  m_tx : positive;
  txHash : string;
  finished : bool }.

(** What a conversion between ZUSD and XUSD awaits. *)
Inductive Conversion : Type :=
| MintAllowance (amount : Z)
| MintApproving
| MintApprovalWaiting
| MintSending
| MintWaiting
| RedeemSending
| RedeemWaiting.

Record Screen : Type := mkScreen {
  transactionState : TransactionState;
  (** the state of the last render whose effects have run *)
  rendered : TransactionState;
  monitor : option Monitor;
  (** sends awaiting the wallet, timers of [thenTx], lookups of a revert reason, conversions *)
  sends : list (string * TransactionFunction);
  timers : list string;
  reasons : list (string * string);
  conversions : list Conversion;
  dialogOpen : bool;
  next_tx : positive }.

Definition initial : Screen := mkScreen (plain idle) (plain idle) None [] [] [] [] false 1.

Definition setTransactionState (s : Screen) (t : TransactionState) : Screen :=
  mkScreen t (rendered s) (monitor s) (sends s) (timers s) (reasons s) (conversions s) (dialogOpen s) (next_tx s).
Definition set_rendered (s : Screen) (t : TransactionState) : Screen :=
  mkScreen (transactionState s) t (monitor s) (sends s) (timers s) (reasons s) (conversions s) (dialogOpen s) (next_tx s).
Definition set_monitor (s : Screen) (m : option Monitor) : Screen :=
  mkScreen (transactionState s) (rendered s) m (sends s) (timers s) (reasons s) (conversions s) (dialogOpen s) (next_tx s).
Definition set_sends (s : Screen) (l : list (string * TransactionFunction)) : Screen :=
  mkScreen (transactionState s) (rendered s) (monitor s) l (timers s) (reasons s) (conversions s) (dialogOpen s) (next_tx s).
Definition set_timers (s : Screen) (l : list string) : Screen :=
  mkScreen (transactionState s) (rendered s) (monitor s) (sends s) l (reasons s) (conversions s) (dialogOpen s) (next_tx s).
Definition set_reasons (s : Screen) (l : list (string * string)) : Screen :=
  mkScreen (transactionState s) (rendered s) (monitor s) (sends s) (timers s) l (conversions s) (dialogOpen s) (next_tx s).
Definition set_conversions (s : Screen) (l : list Conversion) : Screen :=
  mkScreen (transactionState s) (rendered s) (monitor s) (sends s) (timers s) (reasons s) l (dialogOpen s) (next_tx s).
Definition setOpen (s : Screen) (b : bool) : Screen :=
  mkScreen (transactionState s) (rendered s) (monitor s) (sends s) (timers s) (reasons s) (conversions s) b (next_tx s).
Definition set_next (s : Screen) (n : positive) : Screen :=
  mkScreen (transactionState s) (rendered s) (monitor s) (sends s) (timers s) (reasons s) (conversions s) (dialogOpen s) n.

(** *** [useTransactionFunction] *)

(** Up to the first [await]. *)
Definition sendTransaction (id : string) (send : TransactionFunction) (s : Screen) : Screen :=
  set_sends (setTransactionState s (plain (waitingForApproval id))) (sends s ++ [(id, send)]).

(** The wallet answered with the hash of the transaction, or threw. *)
Inductive SendResult : Type :=
| Sent (hash : string)
| SendThrew (message : option string).

(** After [await send().catch(catchTx).then(thenTx)]. *)
Definition send_settled (id : string) (send : TransactionFunction) (r : SendResult) (s : Screen) : Screen :=
  match r with
  | Sent hash =>
      set_next (setTransactionState s (plain (waitingForConfirmation id (mkSentTx (next_tx s) (Some hash)))))
        (Pos.succ (next_tx s))
  | SendThrew message =>
      if catchTx message then
        set_timers
          (set_next (setTransactionState s (plain (waitingForConfirmation id (mkSentTx (next_tx s) None))))
             (Pos.succ (next_tx s)))
          (timers s ++ [id])
      else if match message with Some m => str_includes "User denied transaction signature" m | None => false end
      then setTransactionState s (plain (cancelled id (Some send)))
      else setTransactionState s (plain (failed id "Failed to send transaction (try again)" (Some send)))
  end.

(** After [await tx?.wait()]. *)
Definition timer_elapsed (id : string) (s : Screen) : Screen :=
  setTransactionState s (plain (confirmedOneShot id)).

(** *** [useZusdAggregator]: [mint] and [redeem]; the monitor leaves their transactions alone. *)

Definition unchecked (k : TransactionKind) (title description : option string) : TransactionState :=
  mkTransactionState k (Some true) title description.

Definition await_ (s : Screen) (c : Conversion) : Screen := set_conversions s (conversions s ++ [c]).

Definition mint (amount : Z) (s : Screen) : Screen :=
  await_ (setTransactionState s (unchecked (waitingForApproval "mint-xusd") (Some "Confirm Approval")
    (Some "Please approve ZUSD to be spent by Sovryn smart contracts in your RSK wallet"))) (MintAllowance amount).

Definition redeem (s : Screen) : Screen :=
  await_ (setTransactionState s (unchecked (waitingForApproval "redeem-zusd") None None)) RedeemSending.

(** What was awaited: an allowance, a promise that resolved, or one that threw. *)
Inductive Settled : Type :=
| Allowance (a : Z)
| Resolved
| Threw (message : option string).

Definition conversion_id (c : Conversion) : string :=
  match c with RedeemSending | RedeemWaiting => "redeem-zusd" | _ => "mint-xusd" end.

Definition conversion_failed (id : string) (s : Screen) : Screen :=
  setTransactionState s (unchecked (failed id "Confirm Failed" None) None None).

(** [tx] is known: wait for it. *)
Definition conversion_sent (id : string) (description : option string) (next : Conversion) (s : Screen) : Screen :=
  await_ (set_next (setTransactionState s
    (unchecked (waitingForConfirmation id (mkSentTx (next_tx s) None)) None description)) (Pos.succ (next_tx s))) next.

(** [.catch(catchTx).then(thenTx)] *)
Definition if_sent (r : Settled) (id : string) (description : option string) (next : Conversion) (s : Screen) : Screen :=
  match r with
  | Threw message => if catchTx message then conversion_sent id description next s else conversion_failed id s
  | _ => conversion_sent id description next s
  end.

Definition conversion_settled (c : Conversion) (r : Settled) (s : Screen) : Screen :=
  let id := conversion_id c in
  match c with
  | MintAllowance amount =>
      match r with
      | Allowance a => await_ s (if a <? amount then MintApproving else MintSending)
      | _ => conversion_failed id s
      end
  | MintApproving => if_sent r id (Some "ZUSD approval is processing...") MintApprovalWaiting s
  | MintApprovalWaiting =>
      match r with
      | Threw _ => conversion_failed id s
      | _ => await_ (setTransactionState s (unchecked (waitingForApproval id) None None)) MintSending
      end
  | MintSending => if_sent r id None MintWaiting s
  | RedeemSending => if_sent r id None RedeemWaiting s
  | MintWaiting | RedeemWaiting =>
      match r with
      | Threw _ => conversion_failed id s
      | _ => setTransactionState s (unchecked (confirmedOneShot id) None None)
      end
  end.

(** *** [TransactionMonitor] *)

Inductive ReceiptResult : Type := ReceiptSucceeded | ReceiptFailed | ReceiptThrew.

(** After [await tx?.waitForReceipt()], in a monitor that was not cancelled. *)
Definition receipt_settled (m : Monitor) (r : ReceiptResult) (s : Screen) : Screen :=
  let done := set_monitor s (Some (mkMonitor (m_id m) (m_tx m) (txHash m) true)) in
  match r with
  | ReceiptSucceeded => setTransactionState done (plain (confirmedOneShot (m_id m)))
  | ReceiptFailed => set_reasons done (reasons s ++ [(m_id m, txHash m)])
  | ReceiptThrew => setTransactionState s (plain (failed (m_id m) "Failed" None))
  end.

(** After [await tryToGetRevertReason(provider, txHash)]; a finished monitor is not cancelled any more. *)
Definition reason_settled (id : string) (reason : option string) (s : Screen) : Screen :=
  setTransactionState s (plain (failed id
    (match reason with Some EmptyString | None => "Failed" | Some r => "Reverted: " +:+ r end) None)).

(** The cleanup of the monitoring effect. *)
Definition cancel_monitor (s : Screen) : Screen :=
  match monitor s with
  | Some m => if finished m then s else set_monitor (setTransactionState s (plain idle)) None
  | None => s
  end.

(** The dependencies of the effect that can change. *)
Definition monitor_deps (t : TransactionState) : option string * option SentTransaction * bool :=
  (state_id t, state_tx t, checkDisabled t).

Definition nonempty (id : string) : bool := match id with EmptyString => false | _ => true end.

(** The transaction a rendered state asks to monitor. *)
Definition to_monitor (t : TransactionState) : option Monitor :=
  match kind t with
  | waitingForConfirmation id (mkSentTx ident (Some hash)) =>
      if nonempty id && negb (checkDisabled t) then Some (mkMonitor id ident hash false) else None
  | _ => None
  end.

(** The three effects of a render of [t], cleanups first; the handlers see [t], not what they set. *)
Definition monitor_effect (t : TransactionState) (s : Screen) : Screen :=
  if bool_decide (monitor_deps t = monitor_deps (rendered s)) then s
  else set_monitor (cancel_monitor s) (to_monitor t).

Definition confirmed_effect (t : TransactionState) (s : Screen) : Screen :=
  match kind t with
  | confirmedOneShot id =>
      if nonempty id && negb (bool_decide (kind t = kind (rendered s)))
      then setTransactionState s (plain (confirmed id)) else s
  | _ => s
  end.

Definition isIdle (t : TransactionState) : bool := match kind t with idle => true | _ => false end.

Definition open_effect (t : TransactionState) (s : Screen) : Screen :=
  if Bool.eqb (isIdle t) (isIdle (rendered s)) then s else setOpen s (negb (isIdle t)).

Definition commit (s : Screen) : Screen :=
  let t := transactionState s in
  set_rendered (open_effect t (confirmed_effect t (monitor_effect t s))) t.

(** *** Events *)

Inductive event : Type :=
| Click (id : string) (send : TransactionFunction) (requires : list (bool * string))
| Retry
| SendSettled (n : nat) (r : SendResult)
| TimerElapsed (n : nat)
| ReceiptSettled (r : ReceiptResult)
| ReasonSettled (n : nat) (reason : option string)
| Mint (amount : Z)
| Redeem
| ConversionSettled (n : nat) (r : Settled)
| DialogExited
| Commit.

(** The event, where it can happen. *)
Definition step (s : Screen) (e : event) : option Screen :=
  match e with
  | Click id send requires =>
      match failureReasons requires (rendered s) with [] => Some (sendTransaction id send s) | _ => None end
  | Retry => match retry (rendered s) with Some (id, send) => Some (sendTransaction id send s) | None => None end
  | SendSettled n r =>
      match sends s !! n with
      | Some (id, send) => Some (send_settled id send r (set_sends s (delete n (sends s))))
      | None => None
      end
  | TimerElapsed n =>
      match timers s !! n with
      | Some id => Some (timer_elapsed id (set_timers s (delete n (timers s))))
      | None => None
      end
  | ReceiptSettled r =>
      match monitor s with
      | Some m => if finished m then None else Some (receipt_settled m r s)
      | None => None
      end
  | ReasonSettled n reason =>
      match reasons s !! n with
      | Some (id, _) => Some (reason_settled id reason (set_reasons s (delete n (reasons s))))
      | None => None
      end
  | Mint amount => Some (mint amount s)
  | Redeem => Some (redeem s)
  | ConversionSettled n r =>
      match conversions s !! n with
      | Some c => Some (conversion_settled c r (set_conversions s (delete n (conversions s))))
      | None => None
      end
  | DialogExited => if dialogOpen s then None else Some (setTransactionState s (plain idle))
  | Commit => Some (commit s)
  end.

Inductive reachable : Screen -> Prop :=
| reach_initial : reachable initial
| reach_step s e s' : reachable s -> step s e = Some s' -> reachable s'.

(** ** No transaction is left without a monitor *)

Definition same (m m' : Monitor) : Prop := m_id m = m_id m' /\ m_tx m = m_tx m' /\ txHash m = txHash m'.

Record watched (s : Screen) : Prop := {
  w_live : forall m, monitor s = Some m -> finished m = false -> to_monitor (rendered s) = Some m;
  w_has : forall m, to_monitor (rendered s) = Some m -> exists m', monitor s = Some m' /\ same m m';
  w_due : forall m m', to_monitor (transactionState s) = Some m -> monitor s = Some m' -> m_tx m = m_tx m' ->
    same m m' /\ (finished m' = true -> (m_id m, txHash m) ∈ reasons s);
  w_fresh : forall m, monitor s = Some m -> (m_tx m < next_tx s)%positive;
  w_fresh_state : forall tx, state_tx (transactionState s) = Some tx -> (tx_ident tx < next_tx s)%positive }.

Lemma to_monitor_deps t t' : monitor_deps t = monitor_deps t' -> to_monitor t = to_monitor t'.
Proof.
  unfold monitor_deps, to_monitor, state_id, state_tx. intros [= Hid Htx Hd].
  destruct (kind t), (kind t'); simplify_eq; try done. by rewrite Hd.
Qed.

Lemma to_monitor_Some t m : to_monitor t = Some m ->
  finished m = false /\ kind t = waitingForConfirmation (m_id m) (mkSentTx (m_tx m) (Some (txHash m))) /\
  checkDisabled t = false /\ nonempty (m_id m) = true.
Proof.
  unfold to_monitor. intros H. repeat case_match; simplify_eq. apply andb_true_iff in H3 as [? ?%negb_true_iff]. done.
Qed.

Lemma to_monitor_tx t : state_tx t = None -> to_monitor t = None.
Proof. unfold state_tx, to_monitor. by destruct (kind t). Qed.

(** A step that leaves no sent transaction in the state. *)
Lemma watched_none s s' : watched s -> state_tx (transactionState s') = None ->
  rendered s' = rendered s -> monitor s' = monitor s -> next_tx s' = next_tx s -> watched s'.
Proof.
  intros [] Ht Er Em En. constructor; rewrite ?Er, ?Em, ?En, ?Ht; try done.
  intros m m' Hm. by rewrite to_monitor_tx in Hm.
Qed.

(** A step that puts a new transaction into the state. *)
Lemma watched_new s s' tx : watched s -> state_tx (transactionState s') = Some tx -> tx_ident tx = next_tx s ->
  rendered s' = rendered s -> monitor s' = monitor s -> next_tx s' = Pos.succ (next_tx s) -> watched s'.
Proof.
  intros [? ? ? Hf ?] Ht Hn Er Em En. constructor; rewrite ?Er, ?Em, ?En, ?Ht; try done.
  - intros m m' Hm Hm' E. apply to_monitor_Some in Hm as (_ & Hk & _). apply Hf in Hm'.
    unfold state_tx in Ht. rewrite Hk in Ht. injection Ht as <-. cbn in Hn. lia.
  - intros m Hm. apply Hf in Hm. lia.
  - intros tx' [= <-]. lia.
Qed.

(** A step on what the monitor does not depend on. *)
Lemma watched_same s s' : watched s -> transactionState s' = transactionState s ->
  rendered s' = rendered s -> monitor s' = monitor s -> next_tx s' = next_tx s -> reasons s' = reasons s -> watched s'.
Proof. intros [] Et Er Em En Es. constructor; rewrite ?Et, ?Er, ?Em, ?En, ?Es; done. Qed.

Lemma watched_receipt s m r : watched s -> monitor s = Some m -> finished m = false -> watched (receipt_settled m r s).
Proof.
  intros W Hm Hf. destruct W as [Wl Wh Wd Wf Ws] eqn:E. clear E. destruct r; cbn [receipt_settled].
  - constructor; cbn; try done.
    + intros m' [= <-]. done.
    + intros m' Hm'. apply Wh in Hm' as (m'' & Hm'' & S). rewrite Hm in Hm''. injection Hm'' as <-. eauto.
    + intros m' [= <-]. exact (Wf m Hm).
  - constructor; cbn; try done.
    + intros m' [= <-]. done.
    + intros m' Hm'. apply Wh in Hm' as (m'' & Hm'' & S). rewrite Hm in Hm''. injection Hm'' as <-. eauto.
    + intros m1 m' Hm1 [= <-] E. cbn in E. destruct (Wd m1 m Hm1 Hm E) as [(S1 & S2 & S3) _].
      split; [done|]. intros _. rewrite S1, S3. apply elem_of_app. right. constructor.
    + intros m' [= <-]. exact (Wf m Hm).
  - by apply (watched_none s).
Qed.

Lemma watched_commit s : watched s -> watched (commit s).
Proof.
  intros W. pose proof W as [Wl Wh Wd Wf Ws]. unfold commit. set (t := transactionState s) in *.
  (* the effects after the first only set the state to one without a transaction, and the dialog *)
  enough (W1 : watched (set_rendered (monitor_effect t s) t)).
  { assert (E : forall s1, let s2 := open_effect t (confirmed_effect t s1) in
      rendered s2 = rendered s1 /\ monitor s2 = monitor s1 /\ next_tx s2 = next_tx s1 /\ reasons s2 = reasons s1 /\
      (transactionState s2 = transactionState s1 \/ state_tx (transactionState s2) = None)).
    { intros s1. unfold open_effect, confirmed_effect. cbv zeta.
      destruct (kind t), (Bool.eqb _ _); try (by repeat split; try left); repeat case_match; cbn; auto 10. }
    destruct (E (monitor_effect t s)) as (Er & Em & En & Es & Et). destruct Et as [Et|Et].
    - by apply (watched_same (set_rendered (monitor_effect t s) t)).
    - by apply (watched_none (set_rendered (monitor_effect t s) t)). }
  unfold monitor_effect. destruct (decide (monitor_deps t = monitor_deps (rendered s))) as [E|E].
  - rewrite bool_decide_true by done. apply to_monitor_deps in E. constructor; cbn; rewrite ?E; done.
  - rewrite bool_decide_false by done.
    assert (Hc : next_tx (cancel_monitor s) = next_tx s /\ (transactionState (cancel_monitor s) = t \/
      transactionState (cancel_monitor s) = plain idle)).
    { unfold cancel_monitor. destruct (monitor s) as [m|]; [|by auto]. destruct (finished m); cbn; auto. }
    destruct Hc as [Hn Ht]. constructor; cbn; rewrite ?Hn; try done.
    + intros m Hm. exists m. done.
    + intros m m' Hm Hm' _. destruct Ht as [Ht|Ht]; rewrite Ht in Hm; [|done].
      rewrite Hm in Hm'. injection Hm' as <-. split; [done|]. apply to_monitor_Some in Hm as [-> _]. done.
    + intros m Hm. apply to_monitor_Some in Hm as (_ & Hk & _). apply (Ws (mkSentTx (m_tx m) (Some (txHash m)))).
      unfold state_tx. by rewrite Hk.
    + intros tx Htx. destruct Ht as [Ht|Ht]; rewrite Ht in Htx; [by apply Ws | done].
Qed.

Lemma watched_conversion c r s : watched s -> watched (conversion_settled c r s).
Proof.
  intros W.
  assert (Hs : forall id d next, watched (conversion_sent id d next s)).
  { intros. by apply (watched_new s _ (mkSentTx (next_tx s) None)). }
  assert (Hf : forall id, watched (conversion_failed id s)) by (intros; by apply (watched_none s)).
  assert (Hi : forall id d next, watched (if_sent r id d next s)).
  { intros. unfold if_sent. destruct r; try done. by destruct (catchTx _). }
  destruct c; cbn [conversion_settled]; try done; destruct r; try done;
    first [by apply (watched_same s) | by apply (watched_none s)].
Qed.

Lemma watched_send id send r s : watched s -> watched (send_settled id send r s).
Proof.
  intros W. destruct r as [hash|message]; cbn [send_settled].
  - by apply (watched_new s _ (mkSentTx (next_tx s) (Some hash))).
  - destruct (catchTx message); [by apply (watched_new s _ (mkSentTx (next_tx s) None))|].
    destruct message as [m|]; [destruct (str_includes _ m)|]; by apply (watched_none s).
Qed.

Lemma reachable_watched s : reachable s -> watched s.
Proof.
  induction 1 as [|s e s' _ W Hs]; [by constructor|]. destruct e; cbn [step] in Hs.
  - case_match; simplify_eq. by apply (watched_none s).
  - repeat case_match; simplify_eq. by apply (watched_none s).
  - repeat case_match; simplify_eq. apply watched_send. by apply (watched_same s).
  - repeat case_match; simplify_eq. by apply (watched_none s).
  - destruct (monitor s) as [m|] eqn:Em; [|done]. destruct (finished m) eqn:Ef; simplify_eq. by apply watched_receipt.
  - repeat case_match; simplify_eq. by apply (watched_none s).
  - simplify_eq. by apply (watched_none s).
  - simplify_eq. by apply (watched_none s).
  - repeat case_match; simplify_eq. apply watched_conversion. by apply (watched_same s).
  - repeat case_match; simplify_eq. by apply (watched_none s).
  - simplify_eq. by apply watched_commit.
Qed.

Lemma reachable_open s : reachable s -> dialogOpen s = negb (isIdle (rendered s)).
Proof.
  induction 1 as [|s e s' _ IH Hs]; [done|].
  destruct e; cbn [step] in Hs; repeat case_match; simplify_eq; try done.
  - unfold send_settled. by repeat case_match.
  - by destruct r.
  - unfold conversion_settled, if_sent. by repeat case_match.
  - cbn. congruence.
  - unfold commit. cbv zeta. set (t := transactionState s).
    assert (E : dialogOpen (confirmed_effect t (monitor_effect t s)) = dialogOpen s /\
      rendered (confirmed_effect t (monitor_effect t s)) = rendered s).
    { unfold confirmed_effect, monitor_effect, cancel_monitor. by repeat case_match. }
    destruct E as [Eo Er]. unfold open_effect. rewrite Er. cbn [dialogOpen rendered set_rendered].
    destruct (Bool.eqb _ _) eqn:Eb; [|done]. rewrite Eo, IH. apply eqb_prop in Eb. by rewrite Eb.
Qed.

(** In every reachable state that has been rendered and waits for the confirmation of a transaction that
    was sent, a monitor watches that transaction; it still listens for the receipt, or the receipt said
    that the transaction failed and the lookup of the reason is under way. *)
Theorem waiting_is_watched s id tx hash :
  reachable s -> rendered s = transactionState s ->
  kind (transactionState s) = waitingForConfirmation id (mkSentTx tx (Some hash)) ->
  nonempty id = true -> checkDisabled (transactionState s) = false ->
  exists m, monitor s = Some m /\ m_id m = id /\ m_tx m = tx /\ txHash m = hash /\
    (finished m = false \/ (id, hash) ∈ reasons s).
Proof.
  intros R Er Hk Hid Hd. apply reachable_watched in R as [_ Wh Wd _ _].
  assert (Hm : to_monitor (transactionState s) = Some (mkMonitor id tx hash false)).
  { unfold to_monitor. by rewrite Hk, Hid, Hd. }
  destruct (Wh (mkMonitor id tx hash false)) as (m' & Hm' & S); [by rewrite Er|]. pose proof S as (S1 & S2 & S3).
  exists m'. cbn in S1, S2, S3. repeat split; [done..|]. destruct (finished m') eqn:F; [right | by left].
  by apply (Wd (mkMonitor id tx hash false) m').
Qed.

(** The screen when a live monitor hears of its transaction. *)
Section Outcome.
Context (s : Screen) (m : Monitor).
Hypothesis R : reachable s.
Hypothesis Em : monitor s = Some m.
Hypothesis Ef : finished m = false.

Lemma outcome_waiting :
  kind (rendered s) = waitingForConfirmation (m_id m) (mkSentTx (m_tx m) (Some (txHash m))) /\ nonempty (m_id m) = true.
Proof.
  pose proof (reachable_watched s R) as [Wl _ _ _ _]. specialize (Wl m Em Ef).
  by apply to_monitor_Some in Wl as (_ & ? & _ & ?).
Qed.

Lemma deps_left t : state_tx t = None -> monitor_deps t <> monitor_deps (rendered s).
Proof.
  destruct outcome_waiting as [Hk _]. unfold monitor_deps. intros Ht [= _ E _].
  unfold state_tx at 2 in E. rewrite Hk in E. congruence.
Qed.

(** A transaction whose receipt succeeded is shown once as [confirmedOneShot] and then stays confirmed. *)
Theorem receipt_confirms : exists s1, step s (ReceiptSettled ReceiptSucceeded) = Some s1 /\
  kind (rendered (commit s1)) = confirmedOneShot (m_id m) /\
  transactionState (commit s1) = plain (confirmed (m_id m)) /\
  rendered (commit (commit s1)) = plain (confirmed (m_id m)) /\
  transactionState (commit (commit s1)) = plain (confirmed (m_id m)) /\ dialogOpen (commit s1) = true.
Proof.
  eexists. split; [cbn [step]; rewrite Em, Ef; reflexivity|]. destruct outcome_waiting as [Hk Hid].
  set (s1 := receipt_settled m ReceiptSucceeded s).
  assert (E1 : commit s1 = set_rendered (setTransactionState (set_monitor s1 None) (plain (confirmed (m_id m))))
    (plain (confirmedOneShot (m_id m)))).
  { set (t := plain (confirmedOneShot (m_id m))). unfold commit. change (transactionState s1) with t.
    assert (Hm : monitor_effect t s1 = set_monitor s1 None).
    { unfold monitor_effect. rewrite bool_decide_false by (by apply (deps_left t)). done. }
    rewrite Hm. unfold confirmed_effect. cbn [kind t plain]. rewrite Hid.
    rewrite bool_decide_false by (cbn; by rewrite Hk). cbn [andb negb].
    unfold open_effect. cbn [rendered setTransactionState set_monitor s1 receipt_settled].
    assert (isIdle t = isIdle (rendered s)) as -> by (unfold isIdle; by rewrite Hk).
    by rewrite eqb_reflx. }
  rewrite E1. cbn [rendered transactionState set_rendered setTransactionState dialogOpen kind plain].
  split; [done|]. split; [done|].
  assert (Hopen : dialogOpen s = true).
  { rewrite (reachable_open s R). unfold isIdle. by rewrite Hk. }
  repeat split; [|done]. unfold commit, monitor_effect. cbn. by case_bool_decide.
Qed.

(** When the receipt cannot be obtained the monitor sets the state to [failed], but it has not noted that
    it finished, so the cleanup of its own effect resets the state: the failure is gone with the next
    render, without the dialog having been dismissed. *)
Theorem receipt_error_is_lost : exists s1, step s (ReceiptSettled ReceiptThrew) = Some s1 /\
  transactionState s1 = plain (failed (m_id m) "Failed" None) /\
  transactionState (commit s1) = plain idle /\
  rendered (commit (commit s1)) = plain idle /\ dialogOpen (commit (commit s1)) = false.
Proof.
  eexists. split; [cbn [step]; rewrite Em, Ef; reflexivity|]. split; [done|].
  destruct outcome_waiting as [Hk Hid]. set (s1 := receipt_settled m ReceiptThrew s).
  set (t := plain (failed (m_id m) "Failed" None)).
  assert (Hm : monitor_effect t s1 = set_monitor (setTransactionState s1 (plain idle)) None).
  { unfold monitor_effect. rewrite bool_decide_false by (by apply (deps_left t)).
    unfold cancel_monitor. cbn [monitor s1 receipt_settled setTransactionState]. by rewrite Em, Ef. }
  assert (E1 : commit s1 = set_rendered (set_monitor (setTransactionState s1 (plain idle)) None) t).
  { unfold commit. change (transactionState s1) with t. rewrite Hm. unfold confirmed_effect. cbn [kind t plain].
    unfold open_effect. cbn [rendered setTransactionState set_monitor s1 receipt_settled].
    assert (isIdle t = isIdle (rendered s)) as -> by (unfold isIdle; by rewrite Hk). by rewrite eqb_reflx. }
  rewrite E1. split; [done|]. unfold commit, monitor_effect. cbn. by case_bool_decide.
Qed.

(** A transaction that was mined and failed is shown as failed, with the reason when there is one. *)
Theorem revert_is_shown reason : exists s1 s2, step s (ReceiptSettled ReceiptFailed) = Some s1 /\
  step s1 (ReasonSettled (length (reasons s)) reason) = Some s2 /\
  let t := plain (failed (m_id m) (match reason with Some EmptyString | None => "Failed" | Some r => "Reverted: " +:+ r end) None) in
  transactionState s2 = t /\ transactionState (commit s2) = t /\ rendered (commit s2) = t /\ dialogOpen (commit s2) = true.
Proof.
  eexists _, _. split; [cbn [step]; rewrite Em, Ef; reflexivity|]. cbn [step receipt_settled reasons set_reasons].
  rewrite lookup_app_r, Nat.sub_diag by lia. split; [reflexivity|]. cbv zeta.
  set (t := plain _). split; [done|]. set (s2 := reason_settled _ _ _). destruct outcome_waiting as [Hk Hid].
  assert (Hm : monitor_effect t s2 = set_monitor s2 None).
  { unfold monitor_effect. by rewrite bool_decide_false by (by apply (deps_left t)). }
  unfold commit. change (transactionState s2) with t. rewrite Hm. unfold confirmed_effect, open_effect. cbn [kind t plain].
  assert (isIdle t = isIdle (rendered s)) as Ei by (unfold isIdle; by rewrite Hk).
  cbn [rendered setTransactionState set_monitor s2 reason_settled set_reasons receipt_settled]. rewrite Ei, eqb_reflx.
  split; [done|]. split; [done|]. cbn. rewrite (reachable_open s R). unfold isIdle. by rewrite Hk.
Qed.

End Outcome.

(** A send that failed with an invalid hash is reported as a transaction that succeeded: the state waits for
    an object without a transaction, which no monitor watches, and becomes confirmed when the timer of 45
    seconds elapses, whatever happened on the chain. *)
Theorem invalid_hash_confirmed s n id send message :
  sends s !! n = Some (id, send) -> str_includes "invalid hash" message = true ->
  exists s1 s2, step s (SendSettled n (SendThrew (Some message))) = Some s1 /\
    (exists tx, kind (transactionState s1) = waitingForConfirmation id (mkSentTx tx None)) /\
    to_monitor (transactionState s1) = None /\
    step s1 (TimerElapsed (length (timers s))) = Some s2 /\ transactionState s2 = plain (confirmedOneShot id).
Proof.
  intros Hs Hm. eexists _, _. cbn [step]. rewrite Hs. split; [reflexivity|].
  cbn [send_settled catchTx]. rewrite Hm. cbn. split; [by eexists|]. split; [done|].
  rewrite lookup_app_r, Nat.sub_diag by lia. done.
Qed.

(** ** Examples *)

Definition run (es : list event) (s : Screen) : option Screen :=
  foldl (fun o e => o ≫= fun s => step s e) (Some s) es.

Lemma run_reachable es s s' : reachable s -> run es s = Some s' -> reachable s'.
Proof.
  unfold run. revert s. induction es as [|e es IH]; intros s R; cbn [foldl]; [by intros [= <-]|].
  cbn [mbind option_bind]. destruct (step s e) as [s1|] eqn:E.
  - apply IH. by apply (reach_step s e).
  - intros H. exfalso. clear -H. induction es; done.
Qed.

(** A click, the wallet's hash, and the renders in between. *)
Definition sample_screen : Screen := Eval vm_compute in
  default initial (run [Click "trove" 7%positive []; Commit; SendSettled 0 (Sent "0xabc"); Commit] initial).

Lemma sample_reachable : reachable sample_screen.
Proof.
  apply (run_reachable [Click "trove" 7%positive []; Commit; SendSettled 0 (Sent "0xabc"); Commit] initial);
    [constructor | reflexivity].
Qed.

Lemma waiting_is_watched_witness : exists m, monitor sample_screen = Some m /\ m_id m = "trove" /\ m_tx m = 1%positive /\
  txHash m = "0xabc" /\ (finished m = false \/ ("trove", "0xabc") ∈ reasons sample_screen).
Proof. apply (waiting_is_watched sample_screen "trove" 1 "0xabc" sample_reachable); reflexivity. Defined.

Lemma receipt_confirms_witness : exists s1, step sample_screen (ReceiptSettled ReceiptSucceeded) = Some s1 /\
  transactionState (commit (commit s1)) = plain (confirmed "trove") /\ dialogOpen (commit s1) = true.
Proof.
  destruct (receipt_confirms sample_screen (mkMonitor "trove" 1 "0xabc" false) sample_reachable eq_refl eq_refl)
    as (s1 & H1 & _ & _ & _ & H2 & H3). by exists s1.
Defined.

Lemma receipt_error_is_lost_witness : exists s1, step sample_screen (ReceiptSettled ReceiptThrew) = Some s1 /\
  transactionState s1 = plain (failed "trove" "Failed" None) /\ transactionState (commit s1) = plain idle.
Proof.
  destruct (receipt_error_is_lost sample_screen (mkMonitor "trove" 1 "0xabc" false) sample_reachable eq_refl eq_refl)
    as (s1 & H1 & H2 & H3 & _). by exists s1.
Defined.

Lemma invalid_hash_confirmed_witness :
  let s := default initial (run [Click "trove" 7%positive []; Commit] initial) in
  exists s1 s2, step s (SendSettled 0 (SendThrew (Some "invalid hash (argument=value)"))) = Some s1 /\
    step s1 (TimerElapsed 0) = Some s2 /\ transactionState s2 = plain (confirmedOneShot "trove").
Proof.
  intros s. destruct (invalid_hash_confirmed s 0 "trove" 7%positive "invalid hash (argument=value)" eq_refl eq_refl)
    as (s1 & s2 & H1 & _ & _ & H2 & H3). by exists s1, s2.
Defined.
