(* ===== verification/LibReact.v ===== *)
(** * The hooks that connect components to the store
    (lib-react/src/utils/equals.ts, hooks/useLiquitySelector.ts, hooks/useLiquityReducer.ts)

    What a component selects or keeps is a JavaScript value; a render shows it.  React runs an effect some
    time after the render that scheduled it, so subscribing to the store is an event of its own. *)

From S2P Require Import Prelude.

(** ** [equals] *)

(** What [Object.is] compares: a primitive by its value, an object by its identity. *)
Inductive atom : Type :=
| primitive (value : string)
| reference (ident : positive).

#[export] Instance atom_eq_dec : EqDecision atom.
Proof. solve_decision. Defined.

(** The own properties of an object; keys are distinct. *)
Definition UnknownObject : Type := list (string * atom).

Inductive unknown : Type :=
| Primitive (value : string)
| Object_ (ident : positive) (props : UnknownObject).

Definition lookup_own (o : UnknownObject) (key : string) : option atom := (list_to_map o : gmap string atom) !! key.

Definition hasOwnProperty (o : UnknownObject) (key : string) : bool := bool_decide (key ∈ o.*1).

Definition shallowEquals (a b : UnknownObject) : bool :=
  (length a.*1 =? length b.*1)%nat &&
  forallb (fun key => hasOwnProperty b key && bool_decide (lookup_own a key = lookup_own b key)) a.*1.

Definition isObject (a : unknown) : bool := match a with Object_ _ _ => true | Primitive _ => false end.

Definition equals (a b : unknown) : bool :=
  match a, b with
  | Object_ _ p, Object_ _ q => shallowEquals p q
  | Primitive x, Primitive y => bool_decide (x = y)
  | _, _ => false
  end.

Definition well_formed (a : unknown) : Prop :=
  match a with Object_ _ p => NoDup p.*1 | Primitive _ => True end.

(** What [equals] tells apart: the value of a primitive, the property map of an object. *)
Definition content (a : unknown) : string + gmap string atom :=
  match a with Primitive x => inl x | Object_ _ p => inr (list_to_map p) end.

Lemma dom_own (p : UnknownObject) : dom (list_to_map p : gmap string atom) = list_to_set p.*1.
Proof. apply dom_list_to_map_L. Qed.

Lemma shallowEquals_iff p q : NoDup p.*1 -> NoDup q.*1 ->
  shallowEquals p q = true <-> (list_to_map p : gmap string atom) = list_to_map q.
Proof.
  intros Hp Hq. unfold shallowEquals. rewrite andb_true_iff, Nat.eqb_eq, forallb_forall. split.
  - intros [Hlen Hall].
    assert (Hsub : p.*1 ⊆ q.*1).
    { intros k Hk. apply list_elem_of_In in Hk. specialize (Hall k Hk). apply andb_true_iff in Hall as [H _].
      by apply bool_decide_eq_true in H. }
    assert (Hperm : p.*1 ≡ₚ q.*1).
    { apply submseteq_length_Permutation; [by apply NoDup_submseteq | lia]. }
    apply map_eq. intros k. destruct (decide (k ∈ p.*1)) as [Hk|Hk].
    + apply list_elem_of_In in Hk. specialize (Hall k Hk). apply andb_true_iff in Hall as [_ H].
      by apply bool_decide_eq_true in H.
    + rewrite !not_elem_of_list_to_map_1; [done | by rewrite <- Hperm | done].
  - intros E. assert (Hdom : forall k, k ∈ p.*1 <-> k ∈ q.*1).
    { intros k. rewrite <- !(elem_of_list_to_set (C := gset string)), <- !dom_own, E. done. }
    split; [by apply Permutation_length, NoDup_Permutation|].
    intros k Hk%list_elem_of_In. rewrite andb_true_iff. unfold hasOwnProperty, lookup_own.
    split; apply bool_decide_eq_true; [by apply Hdom | by rewrite E].
Qed.

(** [equals] is equality of contents, so an equivalence. *)
Lemma equals_content a b : well_formed a -> well_formed b -> equals a b = true <-> content a = content b.
Proof.
  destruct a, b; cbn; intros Ha Hb; try done.
  - rewrite bool_decide_eq_true. split; [by intros -> | by intros [= ->]].
  - rewrite shallowEquals_iff by done. split; [by intros -> | by intros [= ->]].
Qed.

(** ** [useLiquitySelector] *)

Section Selector.
Context {State : Type} (select : State -> unknown) (select_wf : forall s, well_formed (select s)).

Record Component : Type := mkComponent {
  store : State;
  shown : unknown;
  subscribed : bool;
  (** a render has been requested *)
  rerender : bool }.

Definition mounted (s : State) : Component := mkComponent s (select s) false false.

Inductive event : Type := Subscribe | Update (newState : State) | Render.

(** A store update calls the listener with the old and the new state. *)
Definition listen (c : Component) (newState : State) : bool :=
  subscribed c && negb (equals (select newState) (select (store c))).

Definition step (c : Component) (e : event) : Component :=
  match e with
  | Subscribe => mkComponent (store c) (shown c) true (rerender c)
  | Update newState => mkComponent newState (shown c) (subscribed c) (rerender c || listen c newState)
  | Render => mkComponent (store c) (select (store c)) (subscribed c) false
  end.

(** What is shown has the content of the current selection, or a render is on its way. *)
Definition fresh (c : Component) : Prop :=
  rerender c = true \/ content (shown c) = content (select (store c)).

Lemma fresh_step c e : (forall s, e = Update s -> subscribed c = true) -> fresh c -> fresh (step c e).
Proof.
  intros Hs Hf. destruct e as [|newState|]; cbn; [done | | by right].
  destruct Hf as [H|H]; [left; cbn; by rewrite H|]. unfold fresh, listen. cbn. rewrite (Hs newState eq_refl). cbn [andb].
  destruct (equals _ _) eqn:E; [right|left; by rewrite orb_true_r].
  apply equals_content in E; [|done..]. congruence.
Qed.

(** Once a component has subscribed, it shows the current selection of the store, or a render has been
    requested, after any sequence of updates and renders; updates that change nothing it selects do not
    make it render. *)
Theorem selector_fresh s es :
  let c := foldl step (step (mounted s) Subscribe) es in
  fresh c /\ (Forall (fun e => forall n, e = Update n -> content (select n) = content (select s)) es -> rerender c = false).
Proof.
  cbv zeta.
  set (P c := fresh c /\ subscribed c = true).
  assert (HP : forall es c, P c -> P (foldl step c es)).
  { clear es. induction es as [|e es IH]; intros c Hc; [done|]. cbn. apply IH. destruct Hc as [Hf Hs].
    split; [by apply fresh_step|]. by destruct e. }
  split; [apply HP; split; [by right | done]|].
  set (Q c := subscribed c = true /\ rerender c = false /\ content (select (store c)) = content (select s)).
  assert (HQ : forall es c, Q c -> Forall (fun e => forall n, e = Update n -> content (select n) = content (select s)) es ->
    Q (foldl step c es)).
  { clear es. induction es as [|e es IH]; intros c Hc Hes; [done|]. apply Forall_cons in Hes as [He Hes]. cbn.
    apply IH; [|done]. destruct Hc as (H1 & H2 & H3). destruct e as [|n|]; [done | | done].
    specialize (He n eq_refl).
    assert (E : equals (select n) (select (store c)) = true) by (apply equals_content; [done..|congruence]).
    unfold Q, listen. cbn [step store subscribed rerender]. unfold listen. by rewrite H1, H2, E. }
  intros Hes. by apply (HQ es).
Qed.

(** An update that comes between the first render and the subscription is missed: nothing requests a render. *)
Theorem selector_misses_update s s' : content (select s) <> content (select s') ->
  ~ fresh (foldl step (mounted s) [Update s'; Subscribe]).
Proof. intros Hne [H|H]; cbn in H; [done | congruence]. Qed.

End Selector.

(** ** [useLiquityReducer] *)

Section Reducer.
Context {Action : Type} (reduce : unknown -> Action -> unknown).
Hypothesis reduce_wf : forall s a, well_formed s -> well_formed (reduce s a).

(** The state the reducer keeps, and how often it asked for a render. *)
Definition dispatch (st : unknown * nat) (action : Action) : unknown * nat :=
  let newState := reduce (fst st) action in
  if equals newState (fst st) then st else (newState, S (snd st)).

(** Reducers look at the properties of the state, not at its identity. *)
Hypothesis reduce_proper : forall s s' a, content s = content s' -> content (reduce s a) = content (reduce s' a).

(** How many actions change the content of the state. *)
Fixpoint changes (s : unknown) (actions : list Action) : nat :=
  match actions with
  | [] => 0
  | a :: l => (if bool_decide (content (reduce s a) = content s) then 0 else 1) + changes (reduce s a) l
  end.

Lemma foldl_proper actions s s' : content s = content s' ->
  content (foldl reduce s actions) = content (foldl reduce s' actions) /\ changes s actions = changes s' actions.
Proof.
  revert s s'. induction actions as [|a l IH]; intros s s' E; [done|]. cbn.
  rewrite (reduce_proper s s' a E), E. destruct (IH (reduce s a) (reduce s' a)) as [-> ->]; [by apply reduce_proper | done].
Qed.

(** The state a component keeps has the content the plain fold of its reducer has, although a new state
    equal to the current one is dropped; a render is requested for exactly the actions that change it. *)
Theorem dispatch_refines actions init : well_formed init ->
  let '(current, renders) := foldl dispatch (init, 0%nat) actions in
  content current = content (foldl reduce init actions) /\ renders = changes init actions.
Proof.
  intros Hwf.
  enough (H : forall n, let '(current, renders) := foldl dispatch (init, n) actions in
    content current = content (foldl reduce init actions) /\ renders = (n + changes init actions)%nat) by apply (H 0%nat).
  revert init Hwf. induction actions as [|a l IH]; intros init Hwf n; [cbn; by rewrite Nat.add_0_r|].
  cbn [foldl changes]. unfold dispatch at 2. cbn [fst snd]. pose proof (reduce_wf init a Hwf) as Hwf'.
  destruct (equals (reduce init a) init) eqn:E.
  - apply equals_content in E; [|done..]. rewrite bool_decide_true by done.
    specialize (IH init Hwf n). destruct (foldl dispatch _ l) as [c r].
    destruct (foldl_proper l (reduce init a) init E) as [-> ->]. by rewrite Nat.add_0_l.
  - rewrite bool_decide_false.
    2: { intros H. apply equals_content in H; [congruence | done..]. }
    specialize (IH (reduce init a) Hwf' (S n)). destruct (foldl dispatch _ l) as [c r].
    destruct IH as [-> ->]. split; [done | lia].
Qed.
End Reducer.

(** ** Examples *)

(** Two numbers, of which a component selects the first. *)
Definition sample_select (s : string * string) : unknown := Object_ 1 [("a"%string, primitive (fst s))].

Lemma selector_fresh_witness :
  let c := foldl (step sample_select) (step sample_select (mounted sample_select ("1"%string, "2"%string)) Subscribe)
             [Update ("1"%string, "3"%string)] in
  fresh sample_select c /\ rerender c = false.
Proof.
  destruct (selector_fresh sample_select (fun s => NoDup_singleton "a"%string) ("1"%string, "2"%string)
    [Update ("1"%string, "3"%string)]) as [H1 H2].
  split; [exact H1|]. apply H2. constructor; [|constructor]. intros n [= <-]. reflexivity.
Defined.

(** A counter that stays at one. *)
Definition sample_reduce (s : unknown) (a : unit) : unknown := Object_ 2 [("n"%string, primitive "1")].

Lemma dispatch_refines_witness :
  let '(current, renders) := foldl (dispatch sample_reduce) (Object_ 1 [("n"%string, primitive "0")], 0%nat) [tt; tt] in
  content current = content (sample_reduce current tt) /\ renders = 1%nat.
Proof.
  exact (dispatch_refines sample_reduce (fun _ _ _ => NoDup_singleton "n"%string) (fun _ _ _ _ => eq_refl) [tt; tt]
    (Object_ 1 [("n"%string, primitive "0")]) (NoDup_singleton "n"%string)).
Defined.
