(* ===== verification/Providers.v ===== *)
(** * Call batching (providers/src/BatchedProvider.ts)

    [Batched(Base)] joins the calls made within a short delay into one call of
    the multicall contract.  It is a transition system: a step runs the code
    from one [await] to the next, so that calls, timers and replies interleave
    freely.  [super.call] and the multicall contract are arguments. *)

From S2P Require Import Prelude JsString EthersConnection.
Local Open Scope Z_scope.

(** ** Requests *)

Inductive BytesLike : Type :=
| HexString (s : string)
| ByteArray (bytes : list Z).

#[export] Instance BytesLike_eq_dec : EqDecision BytesLike.
Proof. solve_decision. Defined.

Record ResolvedTransactionRequest : Type := mkRequest {
  req_to : option string;
  req_from : option string;
  req_nonce : option Z;
  req_gasLimit : option Z;
  req_gasPrice : option Z;
  req_data : option BytesLike;
  req_value : option Z;
  req_chainId : option Z }.

(** [to!] and [data!] only tell the compiler that the fields are given, so
    they stay optional here. *)
Record CallRequest : Type := mkCallRequest { target : option string; callData : option BytesLike }.

#[export] Instance CallRequest_eq_dec : EqDecision CallRequest.
Proof. solve_decision. Defined.

(** The resolve and reject functions of a promise are known by the number of
    the call that returned it. *)
Record BatchedCalls : Type := mkBatch {
  batch_calls : list CallRequest;
  batch_callbacks : list nat;
  batch_blockTag : option BlockTag }.

Definition emptyBatch : BatchedCalls := mkBatch [] [] None.

Definition multicallAddress (chainId : Z) : option string :=
  if chainId =? 1 then Some "0xeefBa1e63905eF1D7ACbA5a8513c70307C1cE441"%string
  else if chainId =? 3 then Some "0x53C43764255c17BD724F74c4eF150724AC50a3ed"%string
  else if chainId =? 4 then Some "0x42Ad527de7d4e9d9d011aC45B31D8551f8Fe9821"%string
  else if chainId =? 5 then Some "0x77dCa2C955b15e9dE4dbBCf1246B4B85b651e50e"%string
  else if chainId =? 42 then Some "0x2cc8688C5f75E365aaEEb4ea8D6a480405A48D2A"%string
  else None.

Definition is_undefined {A} (o : option A) : bool := match o with None => true | Some _ => false end.

Definition batchableCall (request : ResolvedTransactionRequest) : bool :=
  is_undefined (req_gasLimit request) && is_undefined (req_gasPrice request)
  && is_undefined (req_value request).

(** The prefix is the signature of [aggregate((address,bytes)[])]. *)
Definition batchedCall (request : ResolvedTransactionRequest) (multicallAddress : string) : bool :=
  bool_decide (req_to request = Some multicallAddress) &&
  match req_data request with
  | Some (HexString data) => String.prefix "0x252dba42" data
  | _ => false
  end.

(** ** The provider

    [timer] tells whether the timer of [_timeoutId] is pending; clearing one
    that has fired does nothing.  [awaiting], [in_flight] and [settled] are the
    calls suspended in [call], the batches suspended in [_dispatchCalls] and the
    promises settled, [Ok None] being a promise resolved with [undefined].  A
    request passed on to [super.call] is settled at once, since its reply touches
    no field of the provider. *)
Record Batched : Type := mkBatched {
  _chainId : Z;
  _multicall : option string;
  timer : bool;
  _batched : BatchedCalls;
  _numberOfBatchedCalls : Z;
  _numberOfActualCalls : Z;
  _timeOfLastRatioCheck : option Z;
  awaiting : list (nat * (ResolvedTransactionRequest * option BlockTag));
  in_flight : list BatchedCalls;
  settled : list (nat * result (option string)) }.

Definition new_Batched : Batched := mkBatched 0 None false emptyBatch 0 0 None [] [] [].

Definition set_chainId (s : Batched) (chainId : Z) : result Batched :=
  match _multicall s with
  | Some _ => Throw (Error "can only set chainId once")
  | None =>
      Ok (mkBatched chainId (multicallAddress chainId) (timer s) (_batched s) (_numberOfBatchedCalls s)
            (_numberOfActualCalls s) (_timeOfLastRatioCheck s) (awaiting s) (in_flight s) (settled s))
  end.

Definition settle (s : Batched) (l : list (nat * result (option string))) : Batched :=
  mkBatched (_chainId s) (_multicall s) (timer s) (_batched s) (_numberOfBatchedCalls s)
    (_numberOfActualCalls s) (_timeOfLastRatioCheck s) (awaiting s) (in_flight s) (settled s ++ l).

Definition latest : BlockTag := BlockName "latest".

Definition _alreadyBatchedCallsConflictWith (s : Batched) (blockTag : option BlockTag) : bool :=
  negb (bool_decide (batch_calls (_batched s) = [])) &&
  negb (bool_decide (default latest blockTag = default latest (batch_blockTag (_batched s)))).

Definition _enqueueCall (s : Batched) (id : nat) (call : CallRequest) : Batched :=
  let b := _batched s in
  mkBatched (_chainId s) (_multicall s) true
    (mkBatch (batch_calls b ++ [call]) (batch_callbacks b ++ [id]) (batch_blockTag b))
    (_numberOfBatchedCalls s) (_numberOfActualCalls s) (_timeOfLastRatioCheck s)
    (awaiting s) (in_flight s) (settled s).

(** The check of the batching ratio at the start of [call]. *)
Definition ratio_check (s : Batched) (now : Z) : Batched :=
  let update batched actual time :=
    mkBatched (_chainId s) (_multicall s) (timer s) (_batched s) batched actual time
      (awaiting s) (in_flight s) (settled s) in
  match _timeOfLastRatioCheck s with
  | None => update (_numberOfBatchedCalls s) (_numberOfActualCalls s) (Some now)
  | Some t =>
      if (10000 <=? now - t) && negb (_numberOfActualCalls s =? 0) then update 0 0 (Some now) else s
  end.

Definition count_calls (s : Batched) (batched actual : Z) : Batched :=
  mkBatched (_chainId s) (_multicall s) (timer s) (_batched s) (_numberOfBatchedCalls s + batched)
    (_numberOfActualCalls s + actual) (_timeOfLastRatioCheck s) (awaiting s) (in_flight s) (settled s).

(** [this._batched.blockTag = resolvedBlockTag] when the batch is empty. *)
Definition open_batch (s : Batched) (blockTag : option BlockTag) : Batched :=
  let b := _batched s in
  if bool_decide (batch_calls b = []) then
    mkBatched (_chainId s) (_multicall s) (timer s) (mkBatch (batch_calls b) (batch_callbacks b) blockTag)
      (_numberOfBatchedCalls s) (_numberOfActualCalls s) (_timeOfLastRatioCheck s)
      (awaiting s) (in_flight s) (settled s)
  else s.

(** [{ target: request.to!, callData: request.data! }] *)
Definition call_of (request : ResolvedTransactionRequest) : CallRequest :=
  mkCallRequest (req_to request) (req_data request).

(** [{ to: call.target, data: call.callData }] *)
Definition plain_request (c : CallRequest) : ResolvedTransactionRequest :=
  mkRequest (target c) None None None None (callData c) None None.

(** The part of [_dispatchCalls] before its [await]. *)
Definition _dispatchCalls (s : Batched) : Batched :=
  mkBatched (_chainId s) (_multicall s) false emptyBatch (_numberOfBatchedCalls s)
    (_numberOfActualCalls s) (_timeOfLastRatioCheck s) (awaiting s) (in_flight s ++ [_batched s]) (settled s).

Section Batching.
(** [super.call] and [multicall.callStatic.aggregate]. *)
Variable super_call : ResolvedTransactionRequest -> option BlockTag -> result string.
Variable aggregate : list CallRequest -> option BlockTag -> result (list string).

Definition direct (id : nat) (request : ResolvedTransactionRequest) (blockTag : option BlockTag)
  : nat * result (option string) :=
  (id, let! r := super_call request blockTag in Ok (Some r)).

(** The results of a batch. *)
Definition batch_results (b : BatchedCalls) : result (list string) :=
  match batch_calls b with
  | [] => Throw TypeError
  | [c] => let! r := super_call (plain_request c) (batch_blockTag b) in Ok [r]
  | calls => aggregate calls (batch_blockTag b)
  end.

(** [callbacks.forEach(([resolve], i) => resolve(results[i]))], or the rejections. *)
Definition replies (b : BatchedCalls) : list (nat * result (option string)) :=
  match batch_results b with
  | Ok results => imap (fun i id => (id, Ok (results !! i))) (batch_callbacks b)
  | Throw e => map (fun id => (id, Throw e)) (batch_callbacks b)
  end.

(** The part of [_dispatchCalls] after its [await], for the [i]-th batch in flight. *)
Definition reply (s : Batched) (i : nat) : Batched :=
  match in_flight s !! i with
  | None => s
  | Some b =>
      settle (mkBatched (_chainId s) (_multicall s) (timer s) (_batched s) (_numberOfBatchedCalls s)
                (_numberOfActualCalls s) (_timeOfLastRatioCheck s) (awaiting s)
                (delete i (in_flight s)) (settled s)) (replies b)
  end.

(** [call], up to its [await]. *)
Definition call_start (s : Batched) (id : nat) (now : Z) (request : ResolvedTransactionRequest)
    (blockTag : option BlockTag) : Batched :=
  match _multicall s with
  | None => settle s [direct id request blockTag]
  | Some _ =>
      let s := ratio_check s now in
      mkBatched (_chainId s) (_multicall s) (timer s) (_batched s) (_numberOfBatchedCalls s)
        (_numberOfActualCalls s) (_timeOfLastRatioCheck s) (awaiting s ++ [(id, (request, blockTag))])
        (in_flight s) (settled s)
  end.

(** The rest of [call]; [_multicall] is set in every suspended call. *)
Definition call_resolved (s : Batched) (id : nat) (request : ResolvedTransactionRequest)
    (blockTag : option BlockTag) : Batched :=
  if batchedCall request (default EmptyString (_multicall s)) || negb (batchableCall request)
     || _alreadyBatchedCallsConflictWith s blockTag
  then settle (count_calls s 0 1) [direct id request blockTag]
  else _enqueueCall (open_batch (count_calls s 1 0) blockTag) id (call_of request).

(** The [i]-th suspended call goes on. *)
Definition resume (s : Batched) (i : nat) : Batched :=
  match awaiting s !! i with
  | None => s
  | Some (id, (request, blockTag)) =>
      call_resolved
        (mkBatched (_chainId s) (_multicall s) (timer s) (_batched s) (_numberOfBatchedCalls s)
           (_numberOfActualCalls s) (_timeOfLastRatioCheck s) (delete i (awaiting s)) (in_flight s)
           (settled s)) id request blockTag
  end.

Inductive batch_event : Type :=
| SetChainId (chainId : Z)
| Call (id : nat) (now : Z) (request : ResolvedTransactionRequest) (blockTag : option BlockTag)
| Resume (i : nat)
| Timer
| Reply (i : nat).

Definition batch_step (s : Batched) (e : batch_event) : Batched :=
  match e with
  | SetChainId chainId => match set_chainId s chainId with Ok s' => s' | Throw _ => s end
  | Call id now request blockTag => call_start s id now request blockTag
  | Resume i => resume s i
  | Timer => if timer s then _dispatchCalls s else s
  | Reply i => reply s i
  end.

Definition batch_run (events : list batch_event) : Batched := fold_left batch_step events new_Batched.

(** [getBalance]; the balance comes through [call] when the contract is known. *)
Definition batched_getBalance (isAddress : string -> bool)
    (super_getBalance getEthBalance : string -> option BlockTag -> result N)
    (s : Batched) (addressOrName : string) (blockTag : option BlockTag) : result N :=
  if negb (isAddress addressOrName) || is_undefined (_multicall s)
  then super_getBalance addressOrName blockTag
  else getEthBalance addressOrName blockTag.
End Batching.

(** ** Every call is settled once *)

Definition call_ids (events : list batch_event) : list nat :=
  omap (fun e => match e with Call id _ _ _ => Some id | _ => None end) events.

(** The calls a state knows of, wherever they are. *)
Definition known_ids (s : Batched) : list nat :=
  (awaiting s).*1 ++ batch_callbacks (_batched s) ++ mbind batch_callbacks (in_flight s) ++ (settled s).*1.

Lemma imap_fst {A B} (f : nat -> A -> B) (l : list A) : (imap (fun i a => (a, f i a)) l).*1 = l.
Proof. revert f; induction l as [|a l IH]; intros f; simpl; [done|]. f_equal. apply (IH (fun i => f (S i))). Qed.

Lemma replies_ids sc ag b : (replies sc ag b).*1 = batch_callbacks b.
Proof.
  unfold replies. destruct (batch_results sc ag b) as [rs|e].
  - apply (imap_fst (fun i _ => Ok (rs !! i))).
  - rewrite <- list_fmap_compose. apply list_fmap_id.
Qed.

Lemma ratio_check_same s now :
  let s' := ratio_check s now in
  _multicall s' = _multicall s /\ timer s' = timer s /\ _batched s' = _batched s /\
  awaiting s' = awaiting s /\ in_flight s' = in_flight s /\ settled s' = settled s.
Proof. unfold ratio_check. repeat case_match; done. Qed.

Lemma set_chainId_same s c s' : set_chainId s c = Ok s' ->
  timer s' = timer s /\ _batched s' = _batched s /\ awaiting s' = awaiting s /\
  in_flight s' = in_flight s /\ settled s' = settled s.
Proof. unfold set_chainId. case_match; intros [= <-]; done. Qed.

Lemma open_batch_callbacks s t : batch_callbacks (_batched (open_batch s t)) = batch_callbacks (_batched s).
Proof. unfold open_batch. case_bool_decide; done. Qed.

Lemma open_batch_same s t :
  awaiting (open_batch s t) = awaiting s /\ in_flight (open_batch s t) = in_flight s /\
  settled (open_batch s t) = settled s.
Proof. unfold open_batch. case_bool_decide; done. Qed.

Lemma call_resolved_ids sc s id r t :
  known_ids (call_resolved sc s id r t) ≡ₚ id :: known_ids s.
Proof.
  unfold call_resolved, known_ids. case_match; simpl.
  - rewrite fmap_app; simpl. solve_Permutation.
  - rewrite open_batch_callbacks. destruct (open_batch_same (count_calls s 1 0) t) as (-> & -> & ->).
    simpl. solve_Permutation.
Qed.

Lemma step_ids sc ag s e : known_ids (batch_step sc ag s e) ≡ₚ known_ids s ++ call_ids [e].
Proof.
  destruct e as [c|id now r t|i| |i]; simpl; rewrite ?app_nil_r.
  - destruct (set_chainId s c) as [s'|] eqn:E; [|done].
    apply set_chainId_same in E as (_ & E1 & E2 & E3 & E4). unfold known_ids. by rewrite E1, E2, E3, E4.
  - unfold call_start, known_ids. destruct (_multicall s); simpl.
    + destruct (ratio_check_same s now) as (_ & _ & -> & -> & -> & ->). rewrite fmap_app. simpl. solve_Permutation.
    + rewrite fmap_app; simpl. solve_Permutation.
  - unfold resume. destruct (awaiting s !! i) as [[id [r t]]|] eqn:E; [|done].
    rewrite call_resolved_ids. apply delete_Permutation, (fmap_Permutation fst) in E.
    unfold known_ids; simpl in *. rewrite E. done.
  - destruct (timer s); [|done]. unfold known_ids; simpl. rewrite bind_app; simpl. solve_Permutation.
  - unfold reply. destruct (in_flight s !! i) as [b|] eqn:E; [|done].
    unfold known_ids; simpl. rewrite fmap_app, replies_ids.
    apply delete_Permutation, (bind_Permutation batch_callbacks) in E.
    rewrite E. simpl. solve_Permutation.
Qed.

Lemma run_ids sc ag events : known_ids (batch_run sc ag events) ≡ₚ call_ids events.
Proof.
  induction events as [|e events IH] using rev_ind; [done|].
  unfold batch_run. rewrite fold_left_app; simpl. rewrite step_ids.
  unfold call_ids. rewrite omap_app. by rewrite IH.
Qed.

(** The timer is pending exactly while the batch holds calls, and every call
    of the batch has its callback. *)
Definition batch_wf (s : Batched) : Prop :=
  length (batch_calls (_batched s)) = length (batch_callbacks (_batched s)) /\
  (timer s = true <-> batch_calls (_batched s) <> []).

Lemma call_resolved_wf sc s id r t : batch_wf s -> batch_wf (call_resolved sc s id r t).
Proof.
  intros [H1 H2]. unfold call_resolved. case_match; [done|].
  unfold batch_wf, open_batch; simpl. case_bool_decide; simpl; rewrite !length_app; simpl;
    (split; [lia|]); split; intros; try done; by destruct (batch_calls (_batched s)).
Qed.

Lemma step_wf sc ag s e : batch_wf s -> batch_wf (batch_step sc ag s e).
Proof.
  intros H. destruct e as [c|id now r t|i| |i]; simpl.
  - destruct (set_chainId s c) as [s'|] eqn:E; [|done].
    apply set_chainId_same in E as (E1 & E2 & _). unfold batch_wf. by rewrite E1, E2.
  - unfold call_start. destruct (_multicall s); [|done].
    unfold batch_wf; simpl. by destruct (ratio_check_same s now) as (_ & -> & -> & _).
  - unfold resume. destruct (awaiting s !! i) as [[id [r t]]|]; [|done]. by apply call_resolved_wf.
  - destruct (timer s); [|done]. split; simpl; [done|]. split; congruence.
  - unfold reply. by destruct (in_flight s !! i).
Qed.

Lemma run_wf sc ag events : batch_wf (batch_run sc ag events).
Proof.
  induction events as [|e events IH] using rev_ind.
  - split; simpl; [done|]. split; congruence.
  - unfold batch_run. rewrite fold_left_app; simpl. by apply step_wf.
Qed.

(** ** Every call gets its own answer *)

(** The call of [c] made by [sender]. *)
Definition request_from (sender : option string) (c : CallRequest) : ResolvedTransactionRequest :=
  mkRequest (target c) sender None None None (callData c) None None.

(** What the batching relies on: the default block is the latest one, and the
    multicall contract makes its calls itself, so that it is their sender, and
    returns what they return, in their order. *)
Class MulticallChain (multicall : string)
    (super_call : ResolvedTransactionRequest -> option BlockTag -> result string)
    (aggregate : list CallRequest -> option BlockTag -> result (list string)) : Prop := {
  default_block r : super_call r None = super_call r (Some latest);
  aggregate_returns calls t results : aggregate calls t = Ok results ->
    Forall2 (fun c v => super_call (request_from (Some multicall) c) t = Ok v) calls results }.

(** The requests a call may be answered as: itself, or, where it may be batched,
    its target and data with no sender or with the multicall contract as the
    sender. *)
Definition sent_as (multicall : string) (r : ResolvedTransactionRequest)
  : list ResolvedTransactionRequest :=
  r :: if batchableCall r
       then [request_from None (call_of r); request_from (Some multicall) (call_of r)] else [].

Section Answers.
Context {multicall super_call aggregate} `{!MulticallChain multicall super_call aggregate}.
Variable events : list batch_event.

Definition issued (id : nat) (r : ResolvedTransactionRequest) (t : option BlockTag) : Prop :=
  exists now, Call id now r t ∈ events.

Definition queued_ok (tag : option BlockTag) (c : CallRequest) (id : nat) : Prop :=
  exists r t, issued id r t /\ c = call_of r /\ batchableCall r = true /\ default latest t = default latest tag.

Definition batch_ok (b : BatchedCalls) : Prop :=
  Forall2 (queued_ok (batch_blockTag b)) (batch_calls b) (batch_callbacks b).

Definition settled_ok (x : nat * result (option string)) : Prop :=
  forall v, x.2 = Ok v -> exists r t r' w,
    issued x.1 r t /\ v = Some w /\ r' ∈ sent_as multicall r /\ super_call r' t = Ok w.

Record answers (s : Batched) : Prop := {
  ans_awaiting : Forall (fun x => issued x.1 x.2.1 x.2.2) (awaiting s);
  ans_batch : batch_ok (_batched s);
  ans_flight : Forall batch_ok (in_flight s);
  ans_settled : Forall settled_ok (settled s) }.

Lemma super_call_tag r t t' : default latest t = default latest t' -> super_call r t = super_call r t'.
Proof.
  intros E. assert (D : forall t, super_call r t = super_call r (Some (default latest t))).
  { intros []; simpl; [done|]. apply default_block. }
  rewrite (D t), (D t'). by rewrite E.
Qed.

Lemma batch_results_ok b results : batch_results super_call aggregate b = Ok results ->
  Forall2 (fun c v => exists sender, sender ∈ [None; Some multicall] /\
             super_call (request_from sender c) (batch_blockTag b) = Ok v) (batch_calls b) results.
Proof.
  unfold batch_results. destruct (batch_calls b) as [|c [|c' l]]; intros E; [done| |].
  - destruct (super_call (plain_request c) (batch_blockTag b)) eqn:E'; simpl in E; [|done].
    injection E as <-. repeat constructor. exists None. split; [by constructor|done].
  - apply aggregate_returns in E. eapply Forall2_impl; [exact E|]. intros c0 v H. simpl in H.
    exists (Some multicall). split; [by repeat constructor|done].
Qed.

Lemma sent_batched r sender : batchableCall r = true -> sender ∈ [None; Some multicall] ->
  request_from sender (call_of r) ∈ sent_as multicall r.
Proof.
  intros B H. unfold sent_as. rewrite B.
  apply elem_of_cons in H as [->|[->|[]%elem_of_nil]%elem_of_cons]; by repeat constructor.
Qed.

Lemma replies_ok b : batch_ok b -> Forall settled_ok (replies super_call aggregate b).
Proof.
  intros H. unfold replies. destruct (batch_results super_call aggregate b) as [rs|e] eqn:E.
  - apply batch_results_ok in E. apply Forall_lookup. intros i x Hx.
    rewrite list_lookup_imap in Hx. apply fmap_Some in Hx as (id & Hid & ->).
    destruct (Forall2_lookup_r _ _ _ _ _ H Hid) as (c & Hc & r & t & I & -> & B & T).
    destruct (Forall2_lookup_l _ _ _ _ _ E Hc) as (w & Hw & sender & M & R).
    intros v [= <-]. exists r, t, (request_from sender (call_of r)), w. split; [done|]. split; [done|].
    split; [by apply sent_batched|]. by rewrite (super_call_tag _ t _ T).
  - apply Forall_forall. intros x Hx v Hv. apply list_elem_of_fmap in Hx as (id & -> & _). done.
Qed.

Lemma direct_ok id r t : issued id r t -> settled_ok (direct super_call id r t).
Proof.
  intros I v. unfold direct; simpl. destruct (super_call r t) as [w|] eqn:E; simpl; [|done].
  intros [= <-]. exists r, t, r, w. split; [done|]. split; [done|]. split; [by constructor|done].
Qed.

Lemma enqueue_ok s id r t :
  batch_ok (_batched s) -> length (batch_calls (_batched s)) = length (batch_callbacks (_batched s)) ->
  issued id r t -> batchableCall r = true -> _alreadyBatchedCallsConflictWith s t = false ->
  batch_ok (_batched (_enqueueCall (open_batch (count_calls s 1 0) t) id (call_of r))).
Proof.
  intros H L I B C. unfold open_batch, batch_ok in *; simpl.
  unfold _alreadyBatchedCallsConflictWith in C. case_bool_decide as N; simpl in *.
  - rewrite N in *. destruct (batch_callbacks (_batched s)); [|done]. simpl.
    repeat constructor. by exists r, t.
  - apply negb_false_iff, bool_decide_eq_true in C. apply Forall2_app; [done|].
    repeat constructor. by exists r, t.
Qed.

Lemma call_resolved_answers s id r t : answers s -> batch_wf s -> issued id r t ->
  answers (call_resolved super_call s id r t).
Proof.
  intros [A B F S] [L _] I. unfold call_resolved.
  destruct (batchedCall _ _ || _ || _) eqn:E.
  - split; simpl; [done..|]. apply Forall_app. split; [done|]. constructor; [by apply direct_ok|done].
  - apply orb_false_iff in E as [E C]. apply orb_false_iff in E as [_ E%negb_false_iff].
    destruct (open_batch_same (count_calls s 1 0) t) as (E1 & E2 & E3).
    split; [simpl; by rewrite E1|by apply enqueue_ok|simpl; by rewrite E2|simpl; by rewrite E3].
Qed.

Lemma step_answers s e : answers s -> batch_wf s -> e ∈ events ->
  answers (batch_step super_call aggregate s e).
Proof.
  intros H W I. pose proof H as [A B F S]. destruct e as [c|id now r t|i| |i]; simpl.
  - destruct (set_chainId s c) as [s'|] eqn:E; [|done].
    apply set_chainId_same in E as (_ & E1 & E2 & E3 & E4). split; by rewrite ?E1, ?E2, ?E3, ?E4.
  - assert (issued id r t) by (by exists now). unfold call_start. destruct (_multicall s).
    + destruct (ratio_check_same s now) as (_ & _ & E1 & E2 & E3 & E4).
      split; simpl; rewrite ?E1, ?E2, ?E3, ?E4; try done. apply Forall_app; split; [done|]. by repeat constructor.
    + split; simpl; [done..|]. apply Forall_app; split; [done|]. constructor; [by apply direct_ok|done].
  - unfold resume. destruct (awaiting s !! i) as [[id [r t]]|] eqn:E; [|done].
    apply call_resolved_answers; [|done|apply (Forall_lookup_1 _ _ _ _ A E)].
    split; simpl; try done. by apply Forall_delete.
  - destruct (timer s); [|done]. split; simpl; [done|constructor| |done]. apply Forall_app. by repeat constructor.
  - unfold reply. destruct (in_flight s !! i) as [b|] eqn:E; [|done].
    split; simpl; [done|done|by apply Forall_delete|]. apply Forall_app. split; [done|].
    apply replies_ok, (Forall_lookup_1 _ _ _ _ F E).
Qed.

Lemma run_answers l : l ⊆ events -> answers (batch_run super_call aggregate l).
Proof.
  induction l as [|e l IH] using rev_ind; intros Sub; [by repeat constructor|].
  unfold batch_run. rewrite fold_left_app; simpl. apply step_answers; [|apply run_wf|].
  - apply IH. intros x Hx. apply Sub, elem_of_app. by left.
  - apply Sub, elem_of_app. right. by constructor.
Qed.
End Answers.

Lemma issued_unique events id r t r' t' : NoDup (call_ids events) ->
  issued events id r t -> issued events id r' t' -> r = r' /\ t = t'.
Proof.
  intros N [n H] [n' H']. apply list_elem_of_lookup in H as [i H], H' as [j H'].
  revert i j H H'. induction events as [|e l IH]; intros i j H H'; [done|].
  assert (M : forall n r t k, l !! k = Some (Call id n r t) -> id ∈ call_ids l).
  { intros n0 r0 t0 k Hk. apply list_elem_of_omap. exists (Call id n0 r0 t0).
    split; [by eapply list_elem_of_lookup_2|done]. }
  destruct i as [|i], j as [|j]; simpl in H, H'; simplify_eq; try done.
  - simpl in N. apply NoDup_cons in N as [N _]. by apply M in H'.
  - simpl in N. apply NoDup_cons in N as [N _]. by apply M in H.
  - apply (IH) with i j; [|done..]. destruct e; simpl in N; try done. by apply NoDup_cons in N as [_ N].
Qed.

(** C23: a promise resolved by the batching provider holds what [super.call]
    returns at its own block for its own target and data, whatever calls, timers
    and replies came between.  Only the sender may differ: a call that gives no
    gas limit, gas price or value may be made with no sender or by the multicall
    contract, so where its answer does not depend on the sender it is that of the
    request itself; any other call is made as it is. *)
Theorem batched_call_answer multicall super_call aggregate
    `{!MulticallChain multicall super_call aggregate} events id now r t v :
  NoDup (call_ids events) -> Call id now r t ∈ events ->
  (id, Ok v) ∈ settled (batch_run super_call aggregate events) ->
  exists w, v = Some w /\
    (exists r', r' ∈ sent_as multicall r /\ super_call r' t = Ok w) /\
    ((forall r', r' ∈ sent_as multicall r -> super_call r' t = super_call r t) -> super_call r t = Ok w) /\
    (batchableCall r = false -> super_call r t = Ok w).
Proof.
  intros N I S. destruct (run_answers events events) as [_ _ _ A]; [done|].
  rewrite Forall_forall in A. destruct (A _ S v eq_refl) as (r0 & t0 & r' & w & I' & -> & M & E).
  destruct (issued_unique events id r t r0 t0 N) as [<- <-]; [by exists now|done|].
  exists w. split; [done|]. split; [by exists r'|]. split; [intros H; by rewrite <- (H r')|].
  intros B. unfold sent_as in M. rewrite B in M. by apply list_elem_of_singleton in M as ->.
Qed.

(** A chain whose calls return their target, the kind of block asked for and
    their sender. *)
Definition demo_call (r : ResolvedTransactionRequest) (t : option BlockTag) : result string :=
  Ok (String.append (String.append (default EmptyString (req_to r))
        match default latest t with BlockNumber _ => "@number" | BlockName s => String.append "@" s end)
       (String.append " from " (default "nobody"%string (req_from r)))).

Definition demo_aggregate (calls : list CallRequest) (t : option BlockTag) : result (list string) :=
  Ok (map (fun c => match demo_call (request_from (Some "multicall"%string) c) t with
                    | Ok v => v
                    | Throw _ => EmptyString
                    end) calls).

Lemma demo_chain : MulticallChain "multicall" demo_call demo_aggregate.
Proof.
  split; [done|]. intros calls t results [= <-].
  induction calls; simpl; constructor; done.
Qed.

Definition demo_request (to from : string) : ResolvedTransactionRequest :=
  mkRequest (Some to) (Some from) None None None (Some (HexString "0x01")) None None.

(** Two calls at the latest block join a batch; one at another block goes alone. *)
Definition demo_events : list batch_event :=
  [SetChainId 1; Call 0 0 (demo_request "0xA" "alice") None;
   Call 1 1 (demo_request "0xB" "bob") (Some latest);
   Call 2 2 (demo_request "0xC" "carol") (Some (BlockNumber 7)); Resume 0; Resume 0; Resume 0; Timer; Reply 0].

Definition demo_settled : list (nat * result (option string)) :=
  [(2%nat, Ok (Some "0xC@number from carol"%string));
   (0%nat, Ok (Some "0xA@latest from multicall"%string));
   (1%nat, Ok (Some "0xB@latest from multicall"%string))].

(** The batched call from [bob] is answered as one from the multicall contract. *)
Lemma batched_call_answer_witness :
  settled (batch_run demo_call demo_aggregate demo_events) = demo_settled /\
  demo_call (demo_request "0xB" "bob") (Some latest) = Ok "0xB@latest from bob"%string /\
  exists w, Some "0xB@latest from multicall"%string = Some w /\
    exists r', r' ∈ sent_as "multicall" (demo_request "0xB" "bob") /\ demo_call r' (Some latest) = Ok w.
Proof.
  split; [vm_compute; reflexivity|]. split; [vm_compute; reflexivity|].
  destruct (@batched_call_answer "multicall" demo_call demo_aggregate demo_chain demo_events 1 1
              (demo_request "0xB" "bob") (Some latest) (Some "0xB@latest from multicall"%string))
    as (w & E & M & _).
  - apply (bool_decide_unpack (NoDup (call_ids demo_events))). vm_compute. exact I.
  - unfold demo_events. right. right. left.
  - replace (settled _) with demo_settled by (vm_compute; reflexivity).
    right. right. left.
  - by exists w.
Defined.

(** ** Nothing is left waiting *)

(** The suspended calls go on, the timer fires and the replies arrive. *)
Definition drain (s : Batched) : list batch_event :=
  replicate (length (awaiting s)) (Resume 0) ++ [Timer] ++ replicate (S (length (in_flight s))) (Reply 0).

Section Drain.
Context (sc : ResolvedTransactionRequest -> option BlockTag -> result string)
        (ag : list CallRequest -> option BlockTag -> result (list string)).

Lemma resume_all n s : length (awaiting s) = n ->
  let s' := fold_left (batch_step sc ag) (replicate n (Resume 0)) s in
  awaiting s' = [] /\ in_flight s' = in_flight s.
Proof.
  revert s. induction n as [|n IH]; intros s L; simpl; [by apply nil_length_inv in L|].
  unfold resume. destruct (awaiting s) as [|[id [r t]] l] eqn:E; [done|]; simpl.
  set (s1 := call_resolved _ _ _ _ _). assert (awaiting s1 = l /\ in_flight s1 = in_flight s) as [E1 E2].
  { unfold s1, call_resolved, open_batch. by repeat case_match. }
  rewrite <- E2. apply IH. rewrite E1. by injection L.
Qed.

Lemma reply_all n s : (length (in_flight s) <= n)%nat ->
  let s' := fold_left (batch_step sc ag) (replicate n (Reply 0)) s in
  in_flight s' = [] /\ awaiting s' = awaiting s /\ _batched s' = _batched s.
Proof.
  revert s. induction n as [|n IH]; intros s L; simpl; [destruct (in_flight s); [done|simpl in L; lia]|].
  unfold reply. destruct (in_flight s) as [|b l] eqn:E; simpl.
  - apply IH. rewrite E. simpl. lia.
  - set (s1 := settle _ _). change (awaiting s) with (awaiting s1). change (_batched s) with (_batched s1).
    apply IH. simpl in *. lia.
Qed.

Lemma drain_quiet s : batch_wf s -> let s' := fold_left (batch_step sc ag) (drain s) s in
  awaiting s' = [] /\ in_flight s' = [] /\ batch_callbacks (_batched s') = [].
Proof.
  intros W. unfold drain. rewrite !fold_left_app. cbn [fold_left].
  destruct (resume_all _ s eq_refl) as [A F].
  set (s1 := fold_left _ (replicate (length (awaiting s)) _) s) in *.
  assert (W1 : batch_wf s1).
  { unfold s1. generalize (replicate (length (awaiting s)) (Resume 0)). clear -W. intros l.
    revert s W. induction l as [|e l IH]; intros s W; [done|]. by apply IH, step_wf. }
  set (s2 := batch_step sc ag s1 Timer).
  assert (awaiting s2 = [] /\ batch_callbacks (_batched s2) = [] /\
          (length (in_flight s2) <= S (length (in_flight s)))%nat) as (A2 & B2 & F2).
  { unfold s2; simpl. destruct (timer s1) eqn:T; simpl.
    - rewrite length_app, F, A. simpl. split; [done|]. split; [done|lia].
    - rewrite F, A. split; [done|]. split; [|lia]. destruct W1 as [L1 T1]. apply nil_length_inv. rewrite <- L1.
      destruct (batch_calls (_batched s1)); [done|]. by rewrite (proj2 T1) in T. }
  destruct (reply_all _ s2 F2) as (H1 & H2 & H3). by rewrite H1, H2, H3.
Qed.
End Drain.

(** C29: no call is lost or answered twice: after any sequence of steps, once
    the suspended calls go on, the timer fires and the replies arrive, the
    promises settled are those of the calls made, each once. *)
Theorem batched_calls_settle sc ag events :
  (settled (batch_run sc ag (events ++ drain (batch_run sc ag events)))).*1 ≡ₚ call_ids events.
Proof.
  pose proof (run_ids sc ag (events ++ drain (batch_run sc ag events))) as P.
  unfold batch_run in P |- * at 1. rewrite fold_left_app in P |- *.
  fold (batch_run sc ag events) in P |- *.
  destruct (drain_quiet sc ag _ (run_wf sc ag events)) as (A & F & B).
  unfold known_ids in P. rewrite A, F, B in P. simpl in P. rewrite P.
  unfold call_ids, drain. rewrite !omap_app.
  assert (forall e n, call_ids [e] = [] -> call_ids (replicate n e) = []) as R.
  { intros e n He. induction n as [|n IH]; [done|]. unfold call_ids in *; simpl in *. by destruct e. }
  unfold call_ids in R. rewrite !R by done. simpl. by rewrite app_nil_r.
Qed.
