(* ===== verification/WebSockets.v ===== *)
(** * Websocket connections (providers/src/WebSocketAugmentedProvider.ts, WebSocketProvider.ts)

    [WebSocketAugmented(Base)] takes block events and calls from a websocket
    while it has one, and from the base provider otherwise.  It is a transition
    system over the methods called on it, the events of its sockets and its
    timers.  [on] and [off] of the ethers providers add and remove one
    registration of the shared block listener, so each source counts them.
    Block listeners given by the user are names that record their calls: a
    listener that itself subscribes or unsubscribes is not modelled. *)

From S2P Require Import Prelude JsString EthersConnection.
Local Open Scope Z_scope.

(** ** State *)

(** A WebSocketProvider: [isReady], whether [onclose] is set, and the
    registrations of [_blockListener] on it. *)
Record Socket : Type := mkSocket { isReady : bool; onClose : bool; ws_listeners : nat }.

(** The listener of [once] is a new function at each call, told apart by a number. *)
Inductive block_listener : Type :=
| Listener (l : nat)
| ListenOnce (k l : nat).

#[export] Instance block_listener_eq_dec : EqDecision block_listener.
Proof. solve_decision. Defined.

(** [_wsProvider] is an index into [sockets], all the sockets ever opened;
    [timers] are the reconnection timers still pending; [base_listeners] are the
    registrations on the base provider; [calls_made] logs the listeners' calls. *)
Record Augmented : Type := mkAugmented {
  _wsProvider : option nat;
  _wsParams : option (string * Z);
  _reconnectTimerId : option nat;
  _seenBlock : Z;
  _blockListenerScheduled : bool;
  _blockListeners : list block_listener;
  sockets : list Socket;
  base_listeners : nat;
  timers : list nat;
  next_id : nat;
  calls_made : list (nat * Z) }.

Definition new_Augmented : Augmented := mkAugmented None None None 0 false [] [] 0 [] 0 [].

Definition with_ws (s : Augmented) (ws : option nat) (sockets' : list Socket) : Augmented :=
  mkAugmented ws (_wsParams s) (_reconnectTimerId s) (_seenBlock s) (_blockListenerScheduled s)
    (_blockListeners s) sockets' (base_listeners s) (timers s) (next_id s) (calls_made s).

Definition with_base (s : Augmented) (n : nat) : Augmented :=
  mkAugmented (_wsProvider s) (_wsParams s) (_reconnectTimerId s) (_seenBlock s) (_blockListenerScheduled s)
    (_blockListeners s) (sockets s) n (timers s) (next_id s) (calls_made s).

Definition with_listeners (s : Augmented) (l : list block_listener) : Augmented :=
  mkAugmented (_wsProvider s) (_wsParams s) (_reconnectTimerId s) (_seenBlock s) (_blockListenerScheduled s)
    l (sockets s) (base_listeners s) (timers s) (next_id s) (calls_made s).

Definition with_reconnect (s : Augmented) (id : option nat) (timers' : list nat) (next : nat) : Augmented :=
  mkAugmented (_wsProvider s) (_wsParams s) id (_seenBlock s) (_blockListenerScheduled s)
    (_blockListeners s) (sockets s) (base_listeners s) timers' next (calls_made s).

Definition with_block (s : Augmented) (block : Z) (scheduled : bool) : Augmented :=
  mkAugmented (_wsProvider s) (_wsParams s) (_reconnectTimerId s) block scheduled
    (_blockListeners s) (sockets s) (base_listeners s) (timers s) (next_id s) (calls_made s).

(** ** Block events *)

Definition on_socket (f : nat -> nat) (w : Socket) : Socket :=
  mkSocket (isReady w) (onClose w) (f (ws_listeners w)).

Definition _startBlockEvents (s : Augmented) : Augmented :=
  match _wsProvider s with
  | Some k => with_ws s (Some k) (alter (on_socket S) k (sockets s))
  | None => with_base s (S (base_listeners s))
  end.

Definition _stopBlockEvents (s : Augmented) : Augmented :=
  match _wsProvider s with
  | Some k => with_ws s (Some k) (alter (on_socket pred) k (sockets s))
  | None => with_base s (pred (base_listeners s))
  end.

Definition _switchover (s : Augmented) : Augmented :=
  if bool_decide (_blockListeners s = []) then s
  else
    let s := match _wsProvider s with Some _ => with_base s (pred (base_listeners s)) | None => s end in
    _startBlockEvents s.

Definition _addBlockListener (s : Augmented) (listener : block_listener) : Augmented :=
  if bool_decide (listener ∈ _blockListeners s) then s
  else
    let s := with_listeners s (_blockListeners s ++ [listener]) in
    if (length (_blockListeners s) =? 1)%nat then _startBlockEvents s else s.

Definition _removeBlockListener (s : Augmented) (listener : block_listener) : Augmented :=
  if bool_decide (listener ∈ _blockListeners s) then
    let s := with_listeners s (filter (.≠ listener) (_blockListeners s)) in
    if (length (_blockListeners s) =? 0)%nat then _stopBlockEvents s else s
  else s.

(** [on("block", listener)] and [off("block", listener)]; other events go to the base. *)
Definition on (s : Augmented) (l : nat) : Augmented := _addBlockListener s (Listener l).
Definition off (s : Augmented) (l : nat) : Augmented := _removeBlockListener s (Listener l).

Definition once (s : Augmented) (l : nat) : Augmented :=
  _addBlockListener (with_reconnect s (_reconnectTimerId s) (timers s) (S (next_id s))) (ListenOnce (next_id s) l).

Definition _onBlock (s : Augmented) (blockNumber : Z) : Augmented := with_block s blockNumber true.

Definition call_listener (s : Augmented) (listener : block_listener) : Augmented :=
  let l := match listener with Listener l | ListenOnce _ l => l end in
  let s := mkAugmented (_wsProvider s) (_wsParams s) (_reconnectTimerId s) (_seenBlock s)
             (_blockListenerScheduled s) (_blockListeners s) (sockets s) (base_listeners s) (timers s)
             (next_id s) (calls_made s ++ [(l, _seenBlock s)]) in
  match listener with
  | Listener _ => s
  | ListenOnce _ _ => _removeBlockListener s listener
  end.

(** The timer that [_onBlock] schedules. *)
Definition deliver_block (s : Augmented) : Augmented :=
  fold_left call_listener (_blockListeners s) (with_block s (_seenBlock s) false).

(** ** The connection *)

Definition openWebSocket (s : Augmented) (url : string) (network : Z) : Augmented :=
  _switchover
    (mkAugmented (Some (length (sockets s))) (Some (url, network)) (_reconnectTimerId s) (_seenBlock s)
       (_blockListenerScheduled s) (_blockListeners s) (sockets s ++ [mkSocket false true 0])
       (base_listeners s) (timers s) (next_id s) (calls_made s)).

Definition close_socket (w : Socket) : Socket := mkSocket false false (ws_listeners w).

Definition closeWebSocket (s : Augmented) : Augmented :=
  match _wsProvider s with
  | None => s
  | Some k =>
      let s := _switchover (with_ws s None (alter close_socket k (sockets s))) in
      match _reconnectTimerId s with
      | Some t => with_reconnect s None (filter (.≠ t) (timers s)) (next_id s)
      | None => s
      end
  end.

Definition _onWebSocketClose (s : Augmented) : Augmented :=
  let s := closeWebSocket s in
  with_reconnect s (Some (next_id s)) (timers s ++ [next_id s]) (S (next_id s)).

(** [this.openWebSocket(...this._wsParams!)], when timer [t] fires. *)
Definition reconnect (s : Augmented) (t : nat) : Augmented :=
  if bool_decide (t ∈ timers s) then
    let s := with_reconnect s (_reconnectTimerId s) (filter (.≠ t) (timers s)) (next_id s) in
    match _wsParams s with
    | Some (url, network) => openWebSocket s url network
    | None => s
    end
  else s.

(** ** Steps

    The events may come in any order, including orders no host produces, such as
    a socket that closes twice. *)

Inductive ws_event : Type :=
| Open (url : string) (network : Z)
| Close
| On (l : nat)
| Once (l : nat)
| Off (l : nat)
| SocketOpened (k : nat)
| SocketClosed (k : nat)
| Reconnect (t : nat)
| BaseBlock (n : Z)
| SocketBlock (k : nat) (n : Z)
| Deliver.

Definition ws_step (s : Augmented) (e : ws_event) : Augmented :=
  match e with
  | Open url network => openWebSocket s url network
  | Close => closeWebSocket s
  | On l => on s l
  | Once l => once s l
  | Off l => off s l
  | SocketOpened k =>
      with_ws s (_wsProvider s) (alter (fun w => mkSocket (onClose w) (onClose w) (ws_listeners w)) k (sockets s))
  | SocketClosed k =>
      match sockets s !! k with
      | Some w =>
          let s := with_ws s (_wsProvider s) (alter (fun w => mkSocket false (onClose w) (ws_listeners w)) k (sockets s)) in
          if onClose w then _onWebSocketClose s else s
      | None => s
      end
  | Reconnect t => reconnect s t
  | BaseBlock n => if (base_listeners s =? 0)%nat then s else _onBlock s n
  | SocketBlock k n =>
      match sockets s !! k with
      | Some w => if isReady w && negb (ws_listeners w =? 0)%nat then _onBlock s n else s
      | None => s
      end
  | Deliver => if _blockListenerScheduled s then deliver_block s else s
  end.

Definition ws_run (events : list ws_event) : Augmented := fold_left ws_step events new_Augmented.

(** ** Requests

    A request is tried on the source in use at the time of the attempt; [world k]
    is the state of the provider at the [k]-th attempt. *)

Definition isHeaderNotFoundError (error : js_error) : bool :=
  match error with
  | Error message | Rejected message =>
      match String.index 0 "header not found" message with Some _ => true | None => false end
  | _ => false
  end.

(** [this._wsProvider?.isReady] *)
Definition ws_ready (s : Augmented) : bool :=
  match _wsProvider s with
  | Some k => match sockets s !! k with Some w => isReady w | None => false end
  | None => false
  end.

Section Requests.
Context {A : Type}.
Variable world : nat -> Augmented.
(** The request on the websocket provider and on the base provider, at each attempt. *)
Variables ws_request super_request : nat -> result A.

Definition perform (k : nat) : result A := if ws_ready (world k) then ws_request k else super_request k.

(** [fuel] bounds the attempts, [None] is a loop still running.  [settled_in k]
    is the state when the [k]-th attempt settles. *)
Variable settled_in : nat -> Augmented.

Definition glitch (startingBlock : Z) (k : nat) : bool :=
  match perform k with
  | Ok _ => false
  | Throw error => (_seenBlock (settled_in k) =? startingBlock) && isHeaderNotFoundError error
  end.

Fixpoint _retrySeenBlock (fuel : nat) (startingBlock : Z) (retries : nat) : option (result A) :=
  match fuel with
  | O => None
  | S fuel =>
      match perform retries with
      | Ok ret => Some (Ok ret)
      | Throw error =>
          if negb (_seenBlock (settled_in retries) =? startingBlock) || negb (isHeaderNotFoundError error)
          then Some (Throw error)
          else _retrySeenBlock fuel startingBlock (S retries)
      end
  end.

(** [call] and [getBalance] *)
Definition augmented_request (fuel : nat) (blockTag : option BlockTag) : option (result A) :=
  let seen := _seenBlock (world 0) in
  if bool_decide (blockTag = Some (BlockNumber seen)) then _retrySeenBlock fuel seen 0
  else Some (perform 0).

(** [getTransactionReceipt]: [_wsProvider?.ready] is a promise, so it is true
    whenever there is a websocket provider. *)
Definition getTransactionReceipt (s : Augmented) (ws_receipt super_receipt : result A) : result A :=
  match _wsProvider s with Some _ => ws_receipt | None => super_receipt end.
End Requests.

(** ** One source of block events *)

(** The source in use has [n] registrations of the block listener, and the base
    provider has none while a websocket is in use. *)
Definition registered (s : Augmented) (n : nat) : Prop :=
  match _wsProvider s with
  | None => base_listeners s = n
  | Some k => base_listeners s = 0%nat /\ exists w, sockets s !! k = Some w /\ ws_listeners w = n
  end.

Definition listening (s : Augmented) : nat := if bool_decide (_blockListeners s = []) then 0%nat else 1%nat.

Lemma registered_ext s s' n :
  _wsProvider s' = _wsProvider s -> base_listeners s' = base_listeners s -> sockets s' = sockets s ->
  registered s n -> registered s' n.
Proof. unfold registered. by intros -> -> ->. Qed.

(** Changing sockets in what is not a registration. *)
Lemma registered_alter s f k n : (forall w, ws_listeners (f w) = ws_listeners w) ->
  registered s n -> registered (with_ws s (_wsProvider s) (alter f k (sockets s))) n.
Proof.
  intros F. unfold registered; simpl. destruct (_wsProvider s) as [j|]; [|done].
  intros (B & w & L & N). split; [done|]. destruct (decide (j = k)) as [->|].
  - exists (f w). by rewrite list_lookup_alter_eq, L, F.
  - exists w. by rewrite list_lookup_alter_ne by done.
Qed.

Lemma start_registered s : registered s 0 -> registered (_startBlockEvents s) 1.
Proof.
  unfold registered, _startBlockEvents. destruct (_wsProvider s) as [k|] eqn:E; simpl; rewrite ?E; [|by intros ->].
  intros (B & w & L & N). split; [done|]. exists (on_socket S w). rewrite list_lookup_alter_eq, L. simpl. by rewrite N.
Qed.

Lemma stop_registered s : registered s 1 -> registered (_stopBlockEvents s) 0.
Proof.
  unfold registered, _stopBlockEvents. destruct (_wsProvider s) as [k|] eqn:E; simpl; rewrite ?E; [|by intros ->].
  intros (B & w & L & N). split; [done|]. exists (on_socket pred w). rewrite list_lookup_alter_eq, L. simpl. by rewrite N.
Qed.

Lemma start_listeners s : _blockListeners (_startBlockEvents s) = _blockListeners s.
Proof. unfold _startBlockEvents. by destruct (_wsProvider s). Qed.

Lemma stop_listeners s : _blockListeners (_stopBlockEvents s) = _blockListeners s.
Proof. unfold _stopBlockEvents. by destruct (_wsProvider s). Qed.

(** The invariant. *)
Definition one_source (s : Augmented) : Prop := registered s (listening s).

Lemma add_one_source s l : one_source s -> one_source (_addBlockListener s l).
Proof.
  intros H. unfold _addBlockListener. case_bool_decide as M; [done|].
  unfold one_source, listening in *. destruct (_blockListeners s) as [|x ls] eqn:E; simpl in *.
  - rewrite start_listeners; simpl. by apply start_registered.
  - rewrite length_app; simpl. replace (length ls + 1 =? 0)%nat with false by (symmetry; apply Nat.eqb_neq; lia).
    simpl. by apply (registered_ext s).
Qed.

Lemma remove_one_source s l : one_source s -> one_source (_removeBlockListener s l).
Proof.
  intros H. unfold _removeBlockListener. case_bool_decide as M; [|done].
  unfold one_source, listening in *. rewrite bool_decide_eq_false_2 in H by (by intros E; rewrite E in M; inversion M).
  destruct (filter _ (_blockListeners s)) as [|x ls] eqn:E; simpl.
  - rewrite stop_listeners; simpl. apply stop_registered, (registered_ext s); done.
  - by apply (registered_ext s).
Qed.

Lemma switchover_ws s k : _wsProvider s = Some k -> (base_listeners s <= listening s)%nat ->
  (exists w, sockets s !! k = Some w /\ ws_listeners w = 0%nat) -> one_source (_switchover s).
Proof.
  intros K B W. unfold _switchover, one_source, listening in *. case_bool_decide as L; rewrite ?K.
  - rewrite bool_decide_eq_true_2 by done. unfold registered. rewrite K. split; [lia|done].
  - rewrite start_listeners; simpl. rewrite bool_decide_eq_false_2 by done.
    apply start_registered. unfold registered; simpl. rewrite K. split; [lia|done].
Qed.

Lemma switchover_base s : _wsProvider s = None -> base_listeners s = 0%nat -> one_source (_switchover s).
Proof.
  intros K B. unfold _switchover, one_source, listening in *. case_bool_decide as L; rewrite ?K.
  - rewrite bool_decide_eq_true_2 by done. unfold registered. by rewrite K.
  - rewrite start_listeners, bool_decide_eq_false_2 by done.
    apply start_registered. unfold registered. by rewrite K.
Qed.

Lemma base_bound s : one_source s -> (base_listeners s <= listening s)%nat.
Proof. unfold one_source, registered. destruct (_wsProvider s); lia. Qed.

Lemma open_one_source s url network : one_source s -> one_source (openWebSocket s url network).
Proof.
  intros H. apply (switchover_ws _ (length (sockets s))); [done|exact (base_bound s H)|].
  exists (mkSocket false true 0). simpl. by rewrite lookup_app_r, Nat.sub_diag by lia.
Qed.

Lemma close_one_source s : one_source s -> one_source (closeWebSocket s).
Proof.
  intros H. unfold closeWebSocket. destruct (_wsProvider s) as [k|] eqn:K; [|done].
  assert (one_source (_switchover (with_ws s None (alter close_socket k (sockets s))))) as H'.
  { apply switchover_base; [done|]. unfold one_source, registered in H. rewrite K in H. apply H. }
  by case_match.
Qed.

Lemma deliver_one_source s : one_source s -> one_source (deliver_block s).
Proof.
  intros H. unfold deliver_block. generalize (_blockListeners s). intros ls.
  assert (one_source (with_block s (_seenBlock s) false)) as H' by done. revert H'.
  generalize (with_block s (_seenBlock s) false). clear. induction ls as [|l ls IH]; intros s H; [done|].
  apply IH. destruct l; simpl; [done|]. by apply remove_one_source.
Qed.

Lemma step_one_source s e : one_source s -> one_source (ws_step s e).
Proof.
  intros H. destruct e; simpl.
  - by apply open_one_source.
  - by apply close_one_source.
  - by apply add_one_source.
  - by apply add_one_source.
  - by apply remove_one_source.
  - by apply registered_alter.
  - destruct (sockets s !! k) as [w|]; [|done].
    assert (one_source (with_ws s (_wsProvider s)
      (alter (fun w => mkSocket false (onClose w) (ws_listeners w)) k (sockets s)))) by by apply registered_alter.
    destruct (onClose w); [|done]. by apply (close_one_source (with_ws _ _ _)).
  - unfold reconnect. case_bool_decide; [|done]. simpl. destruct (_wsParams s) as [[]|]; [|done].
    by apply open_one_source.
  - by destruct (base_listeners s =? 0)%nat.
  - destruct (sockets s !! k) as [w|]; [|done]. by destruct (isReady w && _).
  - destruct (_blockListenerScheduled s); [|done]. by apply deliver_one_source.
Qed.

(** In every state the provider can reach, the block listener is registered
    exactly once on the source in use (the websocket, or the base provider
    without one) when there are block listeners and not at all otherwise, and
    never on the base provider while a websocket is in use. *)
Theorem block_events_one_source events : one_source (ws_run events).
Proof.
  induction events as [|e events IH] using rev_ind; [done|].
  unfold ws_run. rewrite fold_left_app. by apply step_one_source.
Qed.

(** ** Delivery of blocks *)

Definition listener_name (l : block_listener) : nat := match l with Listener l | ListenOnce _ l => l end.
Definition is_plain (l : block_listener) : bool := match l with Listener _ => true | ListenOnce _ _ => false end.

Lemma filter_ext_in {A} (P Q : A -> Prop) `{DP : !forall x, Decision (P x), DQ : !forall x, Decision (Q x)} (l : list A) :
  (forall x, x ∈ l -> P x <-> Q x) -> filter P l = filter Q l.
Proof.
  induction l as [|a l IH]; intros E; [done|].
  rewrite !filter_cons, IH by (intros; apply E; by right).
  assert (P a <-> Q a) by (apply E; left). repeat case_decide; tauto.
Qed.

Lemma filter_all {A} (P : A -> Prop) `{DP : !forall x, Decision (P x)} (l : list A) :
  (forall x, x ∈ l -> P x) -> filter P l = l.
Proof.
  induction l as [|a l IH]; intros E; [done|].
  rewrite filter_cons_True, IH; [done|intros; apply E; by right|apply E; left].
Qed.

Lemma remove_facts s l :
  calls_made (_removeBlockListener s l) = calls_made s /\ _seenBlock (_removeBlockListener s l) = _seenBlock s /\
  _blockListeners (_removeBlockListener s l) = filter (.≠ l) (_blockListeners s).
Proof.
  unfold _removeBlockListener, _stopBlockEvents. case_bool_decide as M.
  - by repeat case_match.
  - split; [done|]. split; [done|]. symmetry. apply filter_all. by intros x Hx ->.
Qed.

Lemma call_listeners_facts ls s :
  let s' := fold_left call_listener ls s in
  calls_made s' = calls_made s ++ map (fun l => (listener_name l, _seenBlock s)) ls /\
  _blockListeners s' = filter (fun x => is_plain x = true \/ x ∉ ls) (_blockListeners s).
Proof.
  revert s. induction ls as [|l ls IH]; intros s; simpl.
  - rewrite app_nil_r. split; [done|]. symmetry. apply filter_all. intros. right. by apply not_elem_of_nil.
  - destruct (IH (call_listener s l)) as [IH1 IH2]. rewrite IH1, IH2. clear.
    destruct l as [n|k n]; simpl.
    + rewrite <- app_assoc. split; [done|]. apply list_filter_iff. intros x.
      rewrite not_elem_of_cons. destruct x; simpl; intuition congruence.
    + set (s0 := mkAugmented _ _ _ _ _ _ _ _ _ _ _).
      destruct (remove_facts s0 (ListenOnce k n)) as (-> & -> & ->). simpl. rewrite <- app_assoc.
      split; [done|]. rewrite list_filter_filter. apply list_filter_iff. intros x.
      rewrite not_elem_of_cons. destruct x; simpl; intuition congruence.
Qed.

(** When the block timer fires, every block listener registered at that
    moment is called once, in order, with the last block seen, and the listeners
    of [once] are then gone while those of [on] stay. *)
Theorem deliver_block_calls s :
  calls_made (deliver_block s) =
    calls_made s ++ map (fun l => (listener_name l, _seenBlock s)) (_blockListeners s) /\
  _blockListeners (deliver_block s) = filter (fun l => is_plain l = true) (_blockListeners s).
Proof.
  destruct (call_listeners_facts (_blockListeners s) (with_block s (_seenBlock s) false)) as [H1 H2].
  unfold deliver_block. rewrite H1, H2. split; [done|]. simpl.
  apply filter_ext_in. intros x Hx. tauto.
Qed.

(** ** Closing while a reconnection is pending *)

Lemma switchover_same s :
  _wsProvider (_switchover s) = _wsProvider s /\ _wsParams (_switchover s) = _wsParams s /\
  timers (_switchover s) = timers s /\ next_id (_switchover s) = next_id s.
Proof.
  unfold _switchover, _startBlockEvents. case_bool_decide; [done|].
  destruct (_wsProvider s) eqn:E; simpl; by rewrite E.
Qed.

Lemma closeWebSocket_facts s :
  _wsProvider (closeWebSocket s) = None /\ _wsParams (closeWebSocket s) = _wsParams s.
Proof.
  unfold closeWebSocket. destruct (_wsProvider s) as [k|] eqn:K; [|done].
  destruct (switchover_same (with_ws s None (alter close_socket k (sockets s)))) as (E1 & E2 & _).
  by case_match; simpl; rewrite E1, E2.
Qed.

(** After the connection was lost, [closeWebSocket] does not cancel the
    pending reconnection: its timer is still set and opens a new websocket. *)
Theorem close_keeps_reconnecting s k w p :
  _wsProvider s = Some k -> sockets s !! k = Some w -> onClose w = true -> _wsParams s = Some p ->
  exists t, let s' := fold_left ws_step [SocketClosed k; Close] s in
    t ∈ timers s' /\ _wsProvider s' = None /\ _wsProvider (ws_step s' (Reconnect t)) <> None.
Proof.
  intros K W O P. simpl. rewrite W, O. set (s0 := with_ws s _ _).
  destruct (closeWebSocket_facts s0) as [E1 E2]. set (s1 := _onWebSocketClose s0).
  assert (closeWebSocket s1 = s1) as -> by (unfold closeWebSocket at 1; simpl; by rewrite E1).
  assert (next_id (closeWebSocket s0) ∈ timers s1) as T by (apply elem_of_app; right; by constructor).
  exists (next_id (closeWebSocket s0)). split; [exact T|]. split; [exact E1|].
  unfold reconnect. rewrite bool_decide_eq_true_2 by exact T. simpl. rewrite E2. simpl. rewrite P.
  destruct p. unfold openWebSocket. by rewrite (proj1 (switchover_same _)).
Qed.

Lemma close_keeps_reconnecting_witness :
  let s := ws_run [Open "ws://node" 30; On 1; SocketOpened 0] in
  exists t, let s' := fold_left ws_step [SocketClosed 0; Close] s in
    t ∈ timers s' /\ _wsProvider s' = None /\ _wsProvider (ws_step s' (Reconnect t)) <> None.
Proof.
  intros s. apply (close_keeps_reconnecting s 0 (mkSocket true true 1) ("ws://node"%string, 30));
    vm_compute; reflexivity.
Defined.

(** ** Retries *)

Lemma retry_skips {A} world ws sup settled_in start n :
  forall fuel k, (n < fuel)%nat -> (forall j, (j < n)%nat -> @glitch A world ws sup settled_in start (k + j) = true) ->
  glitch world ws sup settled_in start (k + n) = false ->
  _retrySeenBlock world ws sup settled_in fuel start k = Some (perform world ws sup (k + n)).
Proof.
  induction n as [|n IH]; intros fuel k F G D; destruct fuel as [|fuel]; try lia; simpl.
  - rewrite Nat.add_0_r in *. unfold glitch in D. destruct (perform world ws sup k); [done|].
    by rewrite <- negb_andb, D.
  - specialize (G 0%nat ltac:(lia)) as G0. rewrite Nat.add_0_r in G0. unfold glitch in G0.
    destruct (perform world ws sup k); [done|]. rewrite <- negb_andb, G0. simpl.
    rewrite <- Nat.add_succ_comm. apply IH; [lia| |by rewrite Nat.add_succ_comm].
    intros j Hj. rewrite Nat.add_succ_comm. apply G. lia.
Qed.

(** A call or balance request at the last seen block ends with its first
    attempt that is not a missing header at an unchanged block, result or error,
    and any bound above the number of failed attempts is enough. *)
Theorem augmented_request_first {A} world ws sup settled_in fuel n :
  (n < fuel)%nat ->
  (forall j, (j < n)%nat -> @glitch A world ws sup settled_in (_seenBlock (world 0%nat)) j = true) ->
  glitch world ws sup settled_in (_seenBlock (world 0%nat)) n = false ->
  augmented_request world ws sup settled_in fuel (Some (BlockNumber (_seenBlock (world 0%nat)))) =
    Some (perform world ws sup n).
Proof.
  intros F G D. unfold augmented_request. rewrite bool_decide_eq_true_2 by done.
  by apply (retry_skips world ws sup settled_in _ n fuel 0).
Qed.

Lemma augmented_request_first_witness :
  let sup k := if (k <? 2)%nat then Throw (Error "header not found") else Ok 5 in
  augmented_request (fun _ => new_Augmented) (fun _ => Ok 0) sup (fun _ => new_Augmented) 3
    (Some (BlockNumber 0)) = Some (Ok 5).
Proof.
  intros sup. apply (augmented_request_first (fun _ => new_Augmented) (fun _ => Ok 0) sup (fun _ => new_Augmented) 3 2).
  - lia.
  - intros [|[|j]] Hj; [vm_compute; reflexivity|vm_compute; reflexivity|lia].
  - vm_compute. reflexivity.
Defined.
