(* ===== verification/LedgerTransport.v ===== *)
(** * hw-transport-webusb: exchanging messages with a Ledger

    TransportWebUSB.ts and webusb.ts.  The browser's USB devices, the framing of messages, and of the base class
    the mutual exclusion of exchanges are arguments; a call of the device changes its state [D] also when it fails. *)

From S2P Require Import Prelude.
Local Open Scope Z_scope.

Inductive UsbError : Type :=
| Native (message : string)
| NativeTypeError
| TransportOpenUserCancelled (message : string)
| TransportWebUSBGestureRequired (message : string)
| TransportInterfaceNotAvailable (message : string)
| DisconnectedDevice
| DisconnectedDeviceDuringOperation (message : string).

Definition message_of (e : UsbError) : string :=
  match e with
  | Native m | TransportOpenUserCancelled m | TransportWebUSBGestureRequired m | TransportInterfaceNotAvailable m => m
  | DisconnectedDevice => "DisconnectedDevice"
  | NativeTypeError => EmptyString
  | DisconnectedDeviceDuringOperation m => m
  end.

Definition outcome (A : Type) : Type := A + UsbError.
Abbreviation buffer := (list Z).

Definition configurationValue : Z := 1.
Definition endpointNumber : Z := 3.
Definition packetSize : Z := 64.

(** A device of the browser; the interfaces are those of the first configuration, each with the classes of its
    alternates, [None] when there is no configuration. *)
Record Usb (D : Type) : Type := mkUsb {
  usb_open : D -> D * outcome unit;
  usb_selectConfiguration : Z -> D -> D * outcome unit;
  usb_reset : D -> D * outcome unit;
  usb_claimInterface : Z -> D -> D * outcome unit;
  usb_releaseInterface : Z -> D -> D * outcome unit;
  usb_close : D -> D * outcome unit;
  usb_transferOut : Z -> buffer -> D -> D * outcome unit;
  usb_transferIn : Z -> Z -> D -> D * outcome buffer;
  usb_configuration : D -> option Z;
  usb_interfaces : D -> option (list (Z * list Z)) }.
Arguments usb_open {D}. Arguments usb_selectConfiguration {D}. Arguments usb_reset {D}. Arguments usb_claimInterface {D}.
Arguments usb_releaseInterface {D}. Arguments usb_close {D}. Arguments usb_transferOut {D}. Arguments usb_transferIn {D}.
Arguments usb_configuration {D}. Arguments usb_interfaces {D}.

(** [@ledgerhq/devices/hid-framing] *)
Record Framing (A : Type) : Type := mkFraming {
  makeBlocks : buffer -> list buffer;
  reduceResponse : option A -> buffer -> outcome (option A);
  getReducedResult : option A -> option buffer }.
Arguments makeBlocks {A}. Arguments reduceResponse {A}. Arguments getReducedResult {A}.

(** [events] are the errors emitted with "disconnect", the last one first. *)
Record Transport (D : Type) : Type := mkTransport {
  tr_device : D; tr_interfaceNumber : Z; tr_listening : bool; _disconnectEmitted : bool; tr_events : list UsbError }.
Arguments mkTransport {D}. Arguments tr_device {D}. Arguments tr_interfaceNumber {D}. Arguments tr_listening {D}.
Arguments _disconnectEmitted {D}. Arguments tr_events {D}.

Section Transport.
Context {D A : Type} (usb : Usb D) (framing : Framing A).

Definition with_device (t : Transport D) (d : D) : Transport D :=
  mkTransport d (tr_interfaceNumber t) (tr_listening t) (_disconnectEmitted t) (tr_events t).

Definition gracefullyResetDevice (d : D) : D := fst (usb_reset usb d).

Definition find_interface (l : list (Z * list Z)) : option Z :=
  option_map fst (List.find (fun i => existsb (Z.eqb 255) (snd i)) l).

(** The calls of [f] and [g] one after the other, the second when the first succeeds. *)
Definition and_then {X B C} (f : X -> X * outcome B) (g : B -> X -> X * outcome C) (x : X) : X * outcome C :=
  match f x with (x, inl b) => g b x | (x, inr e) => (x, inr e) end.

Definition open_device (d : D) : D * outcome (Transport D) :=
  and_then (usb_open usb) (fun _ =>
  and_then (fun d => match usb_configuration usb d with
                     | None => usb_selectConfiguration usb configurationValue d
                     | Some _ => (d, inl tt)
                     end) (fun _ d =>
  let d := gracefullyResetDevice d in
  match usb_interfaces usb d with
  | None => (d, inr NativeTypeError)
  | Some l =>
      match find_interface l with
      | None => (d, inr (TransportInterfaceNotAvailable "No WebUSB interface found for your Ledger device. Please upgrade firmware or contact techsupport."))
      | Some interfaceNumber =>
          match usb_claimInterface usb interfaceNumber d with
          | (d, inr e) =>
              and_then (usb_close usb) (fun _ d => (d, inr (TransportInterfaceNotAvailable (message_of e)))) d
          | (d, inl _) => (d, inl (mkTransport d interfaceNumber true false []))
          end
      end
  end)) d.

Definition _emitDisconnect (t : Transport D) (e : UsbError) : Transport D :=
  if _disconnectEmitted t then t
  else mkTransport (tr_device t) (tr_interfaceNumber t) (tr_listening t) true (e :: tr_events t).

(** The "disconnect" event of the browser for this device. *)
Definition onDisconnect (t : Transport D) : Transport D :=
  if tr_listening t then
    _emitDisconnect (mkTransport (tr_device t) (tr_interfaceNumber t) false (_disconnectEmitted t) (tr_events t)) DisconnectedDevice
  else t.

Definition close_device (interfaceNumber : Z) : D -> D * outcome unit :=
  and_then (usb_releaseInterface usb interfaceNumber) (fun _ d => usb_close usb (gracefullyResetDevice d)).

Definition close_transport (t : Transport D) : Transport D * outcome unit :=
  let '(d, r) := close_device (tr_interfaceNumber t) (tr_device t) in (with_device t d, r).

Fixpoint write_blocks (blocks : list buffer) (d : D) : D * outcome unit :=
  match blocks with
  | [] => (d, inl tt)
  | b :: blocks => and_then (usb_transferOut usb endpointNumber b) (fun _ => write_blocks blocks) d
  end.

(** The loop that reads, [None] when [fuel] runs out. *)
Fixpoint read_response (fuel : nat) (acc : option A) (d : D) : D * option (outcome buffer) :=
  match getReducedResult framing acc with
  | Some result => (d, Some (inl result))
  | None =>
      match fuel with
      | O => (d, None)
      | S fuel =>
          match usb_transferIn usb endpointNumber packetSize d with
          | (d, inr e) => (d, Some (inr e))
          | (d, inl packet) =>
              match reduceResponse framing acc packet with
              | inr e => (d, Some (inr e))
              | inl acc => read_response fuel acc d
              end
          end
      end
  end.

Definition exchange_body (fuel : nat) (apdu : buffer) (d : D) : D * option (outcome buffer) :=
  match write_blocks (makeBlocks framing apdu) d with
  | (d, inr e) => (d, Some (inr e))
  | (d, inl _) => read_response fuel None d
  end.

Definition is_disconnection (e : UsbError) : bool :=
  match String.index 0 "disconnected" (message_of e) with Some _ => true | None => false end.

(** [exchangeAtomicImpl] of the base class. *)
Variable exchangeAtomicImpl : (D -> D * option (outcome buffer)) -> D -> D * option (outcome buffer).

Definition exchange (fuel : nat) (t : Transport D) (apdu : buffer) : Transport D * option (outcome buffer) :=
  let '(d, r) := exchangeAtomicImpl (exchange_body fuel apdu) (tr_device t) in
  let t := with_device t d in
  match r with
  | Some (inr e) =>
      if is_disconnection e then (_emitDisconnect t e, Some (inr (DisconnectedDeviceDuringOperation (message_of e))))
      else (t, Some (inr e))
  | _ => (t, r)
  end.
End Transport.

(** ** webusb.ts and [listen] *)

Section Devices.
Context {D : Type} (vendorId : D -> Z) (ledgerUSBVendorId : Z).

Definition getLedgerDevices (devices : outcome (list D)) : outcome (list D) :=
  match devices with inl l => inl (List.filter (fun d => vendorId d =? ledgerUSBVendorId) l) | inr e => inr e end.

(** [requested] is what the user picks. *)
Definition getFirstLedgerDevice (devices : outcome (list D)) (requested : outcome D) : outcome D :=
  match getLedgerDevices devices with
  | inr e => inr e
  | inl (d :: _) => inl d
  | inl [] => requested
  end.

Inductive Observed : Type := Added (device : D) | Completed | Failed (e : UsbError).

(** What [listen] tells its observer; [gesture] when the error is a [DOMException] of code 18. *)
Definition listen (unsubscribed : bool) (gesture : UsbError -> bool) (devices : outcome (list D)) (requested : outcome D) : list Observed :=
  match getFirstLedgerDevice devices requested with
  | inl d => if unsubscribed then [] else [Added d; Completed]
  | inr e => [Failed (if gesture e then TransportWebUSBGestureRequired (message_of e) else TransportOpenUserCancelled (message_of e))]
  end.

Context (usb : Usb D).

(** The device opened and how that ended, or why there is none to open. *)
Definition request (requested : outcome D) : outcome (D * outcome (Transport D)) :=
  match requested with inl d => inl (open_device usb d) | inr e => inr e end.

(** [None] is the answer [null]. *)
Definition openConnected (devices : outcome (list D)) : outcome (option (D * outcome (Transport D))) :=
  match getLedgerDevices devices with
  | inr e => inr e
  | inl [] => inl None
  | inl (d :: _) => inl (Some (open_device usb d))
  end.
End Devices.

(** ** Exchanges *)

Lemma and_then_inl {X B C} (f : X -> X * outcome B) (g : B -> X -> X * outcome C) x x' c :
  and_then f g x = (x', inl c) -> exists x1 b, f x = (x1, inl b) /\ g b x1 = (x', inl c).
Proof. unfold and_then. destruct (f x) as [x1 [b|e]]; intros H; [by exists x1, b|done]. Qed.

Section Exchanges.
Context {D A : Type} (usb : Usb D) (framing : Framing A).
Context (exchangeAtomicImpl : (D -> D * option (outcome buffer)) -> D -> D * option (outcome buffer)).

(** The device answers with the packets one after the other. *)
Fixpoint sends (d : D) (packets : list buffer) (d' : D) : Prop :=
  match packets with
  | [] => d' = d
  | p :: packets => exists d1, usb_transferIn usb endpointNumber packetSize d = (d1, inl p) /\ sends d1 packets d'
  end.

(** The packets make up the response, and the last one completes it. *)
Fixpoint assembles (acc : option A) (packets : list buffer) (response : buffer) : Prop :=
  match packets with
  | [] => getReducedResult framing acc = Some response
  | p :: packets => getReducedResult framing acc = None /\ exists acc', reduceResponse framing acc p = inl acc' /\ assembles acc' packets response
  end.

Lemma read_packets packets : forall fuel acc d d' response, sends d packets d' -> assembles acc packets response -> (length packets <= fuel)%nat ->
  read_response usb framing fuel acc d = (d', Some (inl response)).
Proof.
  induction packets as [|p packets IH]; intros fuel acc d d' response S R L.
  - cbn in S, R. subst d'. destruct fuel; cbn [read_response]; by rewrite R.
  - destruct S as (d1 & E & S), R as (R0 & acc' & E' & R). destruct fuel as [|fuel]; [cbn in L; lia|]. cbn [read_response]. rewrite R0, E, E'.
    apply IH; try done. cbn in L. lia.
Qed.

(** When no other exchange is in progress, the device takes the blocks of the message and answers with the packets of a
    response, [exchange] returns the response as soon as its packets are read, and emits nothing. *)
Theorem exchange_answered fuel t apdu packets response d1 d2 :
  (forall f, exchangeAtomicImpl f (tr_device t) = f (tr_device t)) ->
  write_blocks usb (makeBlocks framing apdu) (tr_device t) = (d1, inl tt) -> sends d1 packets d2 -> assembles None packets response ->
  (length packets <= fuel)%nat ->
  exchange usb framing exchangeAtomicImpl fuel t apdu = (with_device t d2, Some (inl response)).
Proof.
  intros Hi Hw S R L. unfold exchange. rewrite Hi. unfold exchange_body. rewrite Hw, (read_packets packets fuel None d1 d2 response S R L). done.
Qed.

(** What can happen to a transport. *)
Inductive Use : Type := Exchange (fuel : nat) (apdu : buffer) | Unplugged.

Definition use (t : Transport D) (u : Use) : Transport D * option (outcome buffer) :=
  match u with
  | Exchange fuel apdu => exchange usb framing exchangeAtomicImpl fuel t apdu
  | Unplugged => (onDisconnect t, None)
  end.

Fixpoint use_all (t : Transport D) (l : list Use) : Transport D * list (option (outcome buffer)) :=
  match l with
  | [] => (t, [])
  | u :: l => let '(t, r) := use t u in let '(t, rs) := use_all t l in (t, r :: rs)
  end.

Definition emitted (t : Transport D) : Prop := length (tr_events t) = if _disconnectEmitted t then 1%nat else 0%nat.

Lemma emit_once t e : emitted t -> emitted (_emitDisconnect t e) /\ _disconnectEmitted (_emitDisconnect t e) = true.
Proof. unfold emitted, _emitDisconnect. intros H. destruct (_disconnectEmitted t) eqn:E; [by rewrite E|]. cbn. by rewrite H. Qed.

(** The exchange failed because the device is gone. *)
Definition disconnected_answer (r : option (outcome buffer)) : Prop :=
  exists m, r = Some (inr (DisconnectedDeviceDuringOperation m)) /\ is_disconnection (DisconnectedDeviceDuringOperation m) = true.

Lemma use_once t u t' r : emitted t -> use t u = (t', r) ->
  emitted t' /\ (_disconnectEmitted t = true -> _disconnectEmitted t' = true) /\ (disconnected_answer r -> _disconnectEmitted t' = true).
Proof.
  intros He H. destruct u as [fuel apdu|]; cbn [use] in H.
  - unfold exchange in H. destruct (exchangeAtomicImpl (exchange_body usb framing fuel apdu) (tr_device t)) as [d [[b|e]|]];
      [injection H as <- <-; split_and!; try done; by intros (m & [=] & _)| |injection H as <- <-; split_and!; try done; by intros (m & [=] & _)].
    destruct (is_disconnection e) eqn:Ei; injection H as <- <-.
    + assert (emitted (with_device t d)) as He' by exact He. destruct (emit_once (with_device t d) e He') as [H1 H2]. by split_and!.
    + split_and!; try done. intros (m & [= ->] & Em). by rewrite Em in Ei.
  - injection H as <- <-. unfold onDisconnect. destruct (tr_listening t); [|split_and!; try done; by intros (m & [=] & _)].
    destruct (emit_once (mkTransport (tr_device t) (tr_interfaceNumber t) false (_disconnectEmitted t) (tr_events t)) DisconnectedDevice He) as [H1 H2].
    by split_and!.
Qed.

Lemma use_all_once l : forall t t' rs, emitted t -> use_all t l = (t', rs) ->
  emitted t' /\ (_disconnectEmitted t = true -> _disconnectEmitted t' = true) /\ (Exists disconnected_answer rs -> _disconnectEmitted t' = true).
Proof.
  induction l as [|u l IH]; intros t t' rs He H; cbn [use_all] in H; [injection H as <- <-; split_and!; try done; by intros ?%Exists_nil|].
  destruct (use t u) as [t1 r] eqn:E. destruct (use_all t1 l) as [t2 rs2] eqn:E2. injection H as <- <-.
  destruct (use_once t u t1 r He E) as (H1 & H2 & H3), (IH t1 t2 rs2 H1 E2) as (H4 & H5 & H6). split_and!; [done|auto|].
  intros [?|?]%Exists_cons; auto.
Qed.

(** C35: A transport tells of a disconnection at most once, whatever exchanges are made
    and whenever the browser notices; it has done so when an exchange failed because the
    device is gone. *)
Theorem disconnects_once d0 d t l t' rs : open_device usb d0 = (d, inl t) -> use_all t l = (t', rs) ->
  (length (tr_events t') <= 1)%nat /\ (Exists disconnected_answer rs -> length (tr_events t') = 1%nat).
Proof.
  intros O H. assert (emitted t) as He.
  { apply and_then_inl in O as (d1 & u1 & _ & O). apply and_then_inl in O as (d2 & u2 & _ & O). cbv beta zeta in O.
    destruct (usb_interfaces usb (gracefullyResetDevice usb d2)) as [ifs|]; [|done]. destruct (find_interface ifs) as [n|]; [|done].
    destruct (usb_claimInterface usb n (gracefullyResetDevice usb d2)) as [d3 [u3|e]]; [by injection O as _ <-|].
    by apply and_then_inl in O as (d4 & u4 & _ & O). }
  destruct (use_all_once l t t' rs He H) as (H1 & _ & H3). unfold emitted in H1. rewrite H1. split; [by destruct (_disconnectEmitted t'); lia|]. intros X. by rewrite (H3 X).
Qed.
End Exchanges.

(** *** A device that echoes *)

(** The device keeps what was written, and sends it back block by block until it is unplugged. *)
Definition echo : Usb (list buffer * bool) :=
  let ok d : (list buffer * bool) * outcome unit := (d, inl tt) in
  mkUsb _ ok (fun _ => ok) ok (fun _ => ok) (fun _ => ok) ok
    (fun _ b d => if snd d then ((fst d ++ [b], true), inl tt) else (d, inr (Native "The device was disconnected.")))
    (fun _ _ d => match fst d with b :: l => ((l, snd d), inl b) | [] => (d, inr (Native "The device was disconnected.")) end)
    (fun _ => Some 1) (fun _ => Some [(2, [255])]).

(** Messages of two blocks. *)
Definition halves : Framing buffer :=
  mkFraming _ (fun m => [take 1 m; drop 1 m]) (fun acc b => inl (Some (default [] acc ++ b)))
    (fun acc => match acc with Some (x :: y :: l) => Some (x :: y :: l) | _ => None end).

Definition plugged : Transport (list buffer * bool) := mkTransport ([], true) 2 true false [].

Lemma exchange_answered_witness :
  exchange echo halves (fun f => f) 2 plugged [7; 8; 9] = (with_device plugged ([], true), Some (inl [7; 8; 9])).
Proof.
  apply (exchange_answered echo halves (fun f => f) 2 plugged [7; 8; 9] [[7]; [8; 9]] [7; 8; 9] ([[7]; [8; 9]], true) ([], true)).
  - reflexivity.
  - reflexivity.
  - eexists. split; [reflexivity|]. eexists. split; reflexivity.
  - split; [reflexivity|]. eexists. split; [reflexivity|]. split; [reflexivity|]. eexists. split; reflexivity.
  - apply le_n.
Defined.

Lemma disconnects_once_witness : exists t' rs,
  use_all echo halves (fun f => f) (mkTransport ([], false) 2 true false []) [Exchange 2 [7]; Unplugged; Exchange 2 [8]] = (t', rs) /\
  tr_events t' = [Native "The device was disconnected."] /\ length (tr_events t') = 1%nat.
Proof.
  eexists _, _. split; [vm_compute; reflexivity|]. split; [reflexivity|].
  destruct (disconnects_once echo halves (fun f => f) ([], false) ([], false) (mkTransport ([], false) 2 true false [])
    [Exchange 2 [7]; Unplugged; Exchange 2 [8]] (mkTransport ([], false) 2 false true [Native "The device was disconnected."])
    [Some (inr (DisconnectedDeviceDuringOperation "The device was disconnected.")); None; Some (inr (DisconnectedDeviceDuringOperation "The device was disconnected."))]) as [_ E].
  - reflexivity.
  - vm_compute. reflexivity.
  - apply E. constructor. exists "The device was disconnected."%string. split; reflexivity.
Defined.
