(* ===== verification/HardwareWallets.v ===== *)
(** * dev-frontend/src/components/Connector/custom: Ledger and Trezor

    ledger-module.ts and trezor-module.ts.  The devices, the nodes, the key derivation and the
    dialog in which the user selects accounts are arguments. *)

From S2P Require Import Prelude JsString.
Local Open Scope Z_scope.

Record WalletAccount : Type := mkWalletAccount {
  wa_derivationPath : string; wa_address : string; wa_asset : string; wa_balance : Z }.

Record Chain : Type := mkChain { chain_id : string; chain_rpcUrl : string }.

Definition LEDGER_LIVE_PATH : string := "m/44'/60'".
Definition LEDGER_DEFAULT_PATH : string := "m/44'/60'/0'".
Definition RSK_MAINNET_PATH : string := "m/44'/137'/0'/0".
Definition TREZOR_DEFAULT_PATH : string := "m/44'/60'/0'/0".

Definition string_eqb (a b : string) : bool := bool_decide (a = b).

(** [String.prototype.toLowerCase] on ASCII *)
Definition lower (c : ascii) : ascii := if (65 <=? code c) && (code c <=? 90) then ascii_of_N (Z.to_N (code c + 32)) else c.
Definition toLowerCase (s : string) : string := text (map lower (chars s)).

Definition decimal (n : Z) : string := text (print_dec n).

(** ** Looking for accounts *)

(** The loop of [getAddresses], the same in both modules, with the accounts found so far in reverse; [None] when
    [fuel] runs out. *)
Fixpoint scan (fuel : nat) (getAccount : Z -> result WalletAccount) (accounts : list WalletAccount) (index zeroBalanceAccounts : Z)
    : option (result (list WalletAccount)) :=
  if zeroBalanceAccounts <? 5 then
    match fuel with
    | O => None
    | S fuel =>
        match getAccount index with
        | Throw e => Some (Throw e)
        | Ok acc => scan fuel getAccount (acc :: accounts) (index + 1) (if wa_balance acc =? 0 then zeroBalanceAccounts + 1 else 0)
        end
    end
  else Some (Ok (reverse accounts)).

Definition getAddresses (fuel : nat) (getAccount : Z -> result WalletAccount) : option (result (list WalletAccount)) := scan fuel getAccount [] 0 0.

(** ** What both keep *)

Record Wallet : Type := mkWallet {
  w_chains : list Chain;
  w_currentChain : option Chain;
  w_ethersProvider : option string;
  w_accounts : option (list WalletAccount) }.

Definition start_wallet (chains : list Chain) : Wallet := mkWallet chains (head chains) None (Some []).

Inductive WalletEvent : Type := accountsChanged (addresses : list string) | chainChanged (id : string).

(** [chains.find(({ id }) => id === chainId) || currentChain] *)
Definition chain_for (w : Wallet) (chainId : string) : option Chain :=
  match List.find (fun c => string_eqb (chain_id c) chainId) (w_chains w) with Some c => Some c | None => w_currentChain w end.

Definition set_chain (w : Wallet) (c : option Chain) : Wallet := mkWallet (w_chains w) c (w_ethersProvider w) (w_accounts w).
Definition set_provider (w : Wallet) (url : string) : Wallet := mkWallet (w_chains w) (w_currentChain w) (Some url) (w_accounts w).
Definition set_accounts (w : Wallet) (l : option (list WalletAccount)) : Wallet :=
  mkWallet (w_chains w) (w_currentChain w) (w_ethersProvider w) l.

(** What the user selects, [None] when it is no array. *)
Definition getAccounts (w : Wallet) (selected : result (option (list WalletAccount))) : Wallet * list WalletEvent * result (option (list WalletAccount)) :=
  match selected with
  | Throw e => (w, [], Throw e)
  | Ok l => (set_accounts w l, match l with Some (a :: _) => [accountsChanged [wa_address a]] | _ => [] end, Ok l)
  end.

Definition no_account : js_error := Error "No account selected. Must call eth_requestAccounts first.".

Definition eth_requestAccounts (w : Wallet) (selected : result (option (list WalletAccount))) : Wallet * list WalletEvent * result (list string) :=
  let '(w, events, r) := getAccounts w selected in
  (w, events, let! l := r in
    match l with
    | None => Throw no_account
    | Some [] => Throw (Rejected "User rejected the request.")
    | Some (a :: _) => Ok [wa_address a]
    end).

Definition eth_selectAccounts (w : Wallet) (selected : result (option (list WalletAccount))) : Wallet * list WalletEvent * result (list string) :=
  let '(w, events, r) := getAccounts w selected in
  (w, events, let! l := r in match l with None => Throw TypeError | Some l => Ok (map wa_address l) end).

Definition eth_accounts (w : Wallet) : list string :=
  match w_accounts w with Some (a :: _) => [wa_address a] | _ => [] end.

Definition eth_chainId (w : Wallet) : string := match w_currentChain w with Some c => chain_id c | None => EmptyString end.

Definition wallet_switchEthereumChain (w : Wallet) (chainId : string) : Wallet * list WalletEvent * result unit :=
  let w := set_chain w (chain_for w chainId) in
  match w_currentChain w with
  | None => (w, [], Throw (Error "chain must be set before switching"))
  | Some c => (w, [chainChanged (chain_id c)], Ok tt)
  end.

(** The account that signs: the one asked for, or else the first. *)
Definition signing_account (w : Wallet) (from : option string) : result WalletAccount :=
  match w_accounts w with
  | Some (a :: l) =>
      match from with
      | None => Ok a
      | Some f => match List.find (fun x => string_eqb (wa_address x) f) (a :: l) with Some x => Ok x | None => Ok a end
      end
  | _ => Throw no_account
  end.

(** ** ledger-module.ts *)

Module Ledger.
Section Ledger.
(** [eth.getAddress], [provider.getBalance] of a node, and the property [statusText] of an error. *)
Variable eth_getAddress : string -> result string.
Variable getBalance : string -> string -> result Z.
Variable statusText : js_error -> option string.

Definition getAccount (derivationPath asset url : string) (index : Z) : result WalletAccount :=
  let dPath := if string_eqb derivationPath LEDGER_LIVE_PATH then (derivationPath +:+ "/" +:+ decimal index +:+ "'/0/0")%string
               else (derivationPath +:+ "/" +:+ decimal index)%string in
  let! address := eth_getAddress dPath in
  let! value := getBalance url (toLowerCase address) in
  Ok (mkWalletAccount dPath (toLowerCase address) asset value).

Definition is_base_path (derivationPath : string) : bool :=
  string_eqb derivationPath LEDGER_LIVE_PATH || string_eqb derivationPath LEDGER_DEFAULT_PATH || string_eqb derivationPath RSK_MAINNET_PATH.

(** The [catch]: an [Error] without a message when there is no [statusText]. *)
Definition device_error (e : js_error) : js_error :=
  match statusText e with
  | Some t => Error (if string_eqb t "UNKNOWN_ERROR" then "Ledger device is locked, please unlock to continue" else t)
  | None => Error EmptyString
  end.

(** The promise of [getAddresses] is returned, not awaited: what it is rejected with does not reach the [catch]. *)
Definition scanAccounts (fuel : nat) (w : Wallet) (derivationPath chainId asset : string) : Wallet * option (result (list WalletAccount)) :=
  let w := set_chain w (chain_for w chainId) in
  match w_currentChain w with
  | None => (w, Some (Throw (device_error TypeError)))
  | Some c =>
      let url := chain_rpcUrl c in
      let w := set_provider w url in
      (w, if is_base_path derivationPath then getAddresses fuel (getAccount derivationPath asset url)
          else Some match (let! address := eth_getAddress derivationPath in
                           let! value := getBalance url (toLowerCase address) in
                           Ok [mkWalletAccount derivationPath (toLowerCase address) asset value]) with
                    | Ok l => Ok l
                    | Throw e => Throw (device_error e)
                    end)
  end.
End Ledger.

(** [(v - 27).toString(16)], with a zero before a single digit *)
Definition signature_v (v : Z) : string :=
  let n := v - 27 in
  let t := if n <? 0 then ("-" +:+ text (print_base 16 (- n)))%string else text (print_base 16 n) in
  if (String.length t <? 2)%nat then ("0" +:+ t)%string else t.

(** [signMessage] and [eth_signTypedData]; [sign] answers the device's [v], [r] and [s] for a path. *)
Definition signMessage (w : Wallet) (sign : string -> result (Z * string * string)) (address : string) : result string :=
  let! account := signing_account w (Some address) in
  let! sig := sign (wa_derivationPath account) in
  let '(v, r, s) := sig in
  Ok ("0x" +:+ r +:+ s +:+ signature_v v)%string.
End Ledger.

(** ** trezor-module.ts *)

Module Trezor.
(** Bitwise [&] takes its operands to 32 bits with a sign. *)
Definition int32 (n : Z) : Z := let m := n mod 2 ^ 32 in if m <? 2 ^ 31 then m else m - 2 ^ 32.
Definition js_and (a b : Z) : Z := int32 (Z.land (int32 a) (int32 b)).

Section Trezor.
(** [TrezorConnect.getPublicKey] and [ethereumGetAddress], the address of a child key, and [provider.getBalance]. *)
Variable connect_publicKey : string -> result (string * option string * string).
Variable connect_getAddress : string -> result string.
Variable child_address : string -> string -> Z -> string.
Variable getBalance : string -> string -> result Z.
Variable compress : string -> string.
(** An error in a template literal. *)
Variable print_error : js_error -> string.

Definition trezor_getAccount (publicKey chainCode path asset url : string) (index : Z) : result WalletAccount :=
  let address := child_address publicKey chainCode index in
  let! value := getBalance url address in
  Ok (mkWalletAccount (path +:+ "/" +:+ decimal index)%string address asset value).

Definition getPublicKey (dPath : string) : result (string * option string * string) :=
  if string_eqb dPath EmptyString then Throw (Error "a derivation path is needed to get the public key")
  else match connect_publicKey dPath with
       | Ok k => Ok k
       | Throw e => Throw (Error ("There was an error accessing your Trezor accounts - Error: " +:+ print_error e)%string)
       end.

Definition getAddress (path : string) : result string :=
  match connect_getAddress path with
  | Ok a => Ok a
  | Throw _ => Throw (Error ("Unable to derive address from path " +:+ path)%string)
  end.

Definition trezor_is_base_path (derivationPath : string) : bool :=
  string_eqb derivationPath TREZOR_DEFAULT_PATH || string_eqb derivationPath RSK_MAINNET_PATH.

Definition trezor_scanAccounts (fuel : nat) (w : Wallet) (derivationPath chainId asset : string) : Wallet * option (result (list WalletAccount)) :=
  let w := set_chain w (chain_for w chainId) in
  match w_currentChain w with
  | None => (w, Some (Throw TypeError))
  | Some c =>
      let url := chain_rpcUrl c in
      let w := set_provider w url in
      (w, match getPublicKey derivationPath with
          | Throw e => Some (Throw e)
          | Ok (publicKey, chainCode, path) =>
              if trezor_is_base_path derivationPath
              then getAddresses fuel (trezor_getAccount (compress publicKey) (default EmptyString chainCode) derivationPath asset url)
              else Some (let! address := getAddress path in
                         let! value := getBalance url (toLowerCase address) in
                         Ok [mkWalletAccount derivationPath address asset value])
          end)
  end.
End Trezor.

(** The [v] of the signed transaction, from what the device answers, [None] when it is no number. *)
Definition recalculated_v (chainId : Z) (rv : option Z) : Z :=
  let cv := chainId * 2 + 35 in
  match rv with
  | None => cv + 1
  | Some rv => if negb (rv =? cv) && negb (js_and rv cv =? rv) then cv + 1 else cv
  end.

(** The check on the signed transaction. *)
Definition signed_chain (sigV : Z) : Z := Z.max 0 ((sigV - 35) / 2).

(** [signTransaction] on [v] for a chain id above zero; without one the answer of the device goes to the library as it is. *)
Definition checked_v (chainId : Z) (rv : option Z) : result Z :=
  let v := recalculated_v chainId rv in
  if signed_chain v =? chainId then Ok v else Throw (Error "Invalid signature v value").
End Trezor.

(** ** The search *)

Section Search.
Context (getAccount : Z -> result WalletAccount) (acct : Z -> WalletAccount) (H : forall i, 0 <= i -> getAccount i = Ok (acct i)).
Abbreviation empty i := (wa_balance (acct i) = 0).

(** The state of the loop: the last [z] accounts are empty, and no five in a row were before. *)
Record scanning (index z : Z) : Prop := {
  sc_index : 0 <= z <= index;
  sc_count : z <= 5;
  sc_empty : forall i, index - z <= i < index -> empty i;
  sc_before : z = index \/ ~ empty (index - z - 1);
  sc_first : forall j, 5 <= j < index -> exists i, j - 5 <= i < j /\ ~ empty i }.

Lemma scanning_next index z : scanning index z -> z < 5 -> scanning (index + 1) (if wa_balance (acct index) =? 0 then z + 1 else 0).
Proof.
  intros [S1 S2 S3 S4 S5] L. assert (forall j, 5 <= j < index + 1 -> exists i, j - 5 <= i < j /\ ~ empty i) as F.
  { intros j Hj. destruct (decide (j = index)) as [->|]; [|apply S5; lia]. destruct S4 as [->|S4]; [lia|]. exists (index - z - 1). split; [lia|done]. }
  destruct (Z.eqb_spec (wa_balance (acct index)) 0) as [E|E]; split; try lia; try done.
  - intros i Hi. destruct (decide (i = index)) as [->|]; [done|]. apply S3. lia.
  - destruct S4 as [->|S4]; [by left|right]. by replace (index + 1 - (z + 1) - 1) with (index - z - 1) by lia.
  - right. by replace (index + 1 - 0 - 1) with index by lia.
Qed.

Lemma seqZ_next index : 0 <= index -> acct index :: reverse (map acct (seqZ 0 index)) = reverse (map acct (seqZ 0 (index + 1))).
Proof. intros L. rewrite seqZ_app by lia. rewrite map_app, reverse_app. done. Qed.

Lemma scan_spec N fuel index z : (forall i, N <= i -> empty i) -> scanning index z -> index - N <= z -> index + Z.of_nat fuel = N + 5 ->
  exists k, 5 <= k <= N + 5 /\ scan fuel getAccount (reverse (map acct (seqZ 0 index))) index z = Some (Ok (map acct (seqZ 0 k))) /\
    (forall i, k - 5 <= i < k -> empty i) /\ (forall j, 5 <= j < k -> exists i, j - 5 <= i < j /\ ~ empty i).
Proof.
  intros HN. revert index z. induction fuel as [|fuel IH]; intros index z S L E; pose proof S as [S1 S2 S3 S4 S5]; cbn [scan]; destruct (Z.ltb_spec z 5) as [Lz|Lz].
  - lia.
  - exists index. rewrite reverse_involutive. assert (z = 5) as -> by lia. split_and!; try lia; done.
  - rewrite H by lia. rewrite seqZ_next by lia. apply IH; [by apply scanning_next| |lia].
    destruct (Z.eqb_spec (wa_balance (acct index)) 0) as [|Ne]; [lia|]. destruct (decide (N <= index)) as [G|]; [by apply HN in G|lia].
  - exists index. rewrite reverse_involutive. assert (z = 5) as -> by lia. split_and!; try lia; done.
Qed.

(** C34: When every account from some index on is empty, [getAddresses] comes to an end,
    after at most five more: it has asked for the accounts one after the other up to the
    first five empty ones in a row, and returns them all in order. *)
Theorem getAddresses_complete N : 0 <= N -> (forall i, N <= i -> empty i) ->
  exists k, 5 <= k <= N + 5 /\ getAddresses (Z.to_nat (N + 5)) getAccount = Some (Ok (map acct (seqZ 0 k))) /\
    (forall i, k - 5 <= i < k -> empty i) /\ (forall j, 5 <= j < k -> exists i, j - 5 <= i < j /\ ~ empty i).
Proof.
  intros L HN. apply (scan_spec N (Z.to_nat (N + 5)) 0 0 HN); [|lia|lia]. split; try lia.
Qed.
End Search.

(** An account in use behind an empty one, then nothing. *)
Definition sample_account (i : Z) : WalletAccount := mkWalletAccount (decimal i) (decimal i) "RBTC" (if i =? 3 then 7 else 0).

Lemma getAddresses_complete_witness : exists k, getAddresses 9 (fun i => Ok (sample_account i)) = Some (Ok (map sample_account (seqZ 0 k))) /\ 5 <= k <= 9.
Proof.
  destruct (getAddresses_complete (fun i => Ok (sample_account i)) sample_account (fun i _ => eq_refl) 4) as (k & L & E & _); [done| |].
  - intros i Hi. unfold sample_account. cbn [wa_balance]. destruct (Z.eqb_spec i 3); [lia|done].
  - exists k. split; [exact E|exact L].
Defined.

(** ** The signature *)

Lemma land_le a b : 0 <= b -> Z.land a b <= b.
Proof.
  intros Hb. assert (Z.ldiff (Z.land a b) b = 0) as E.
  { apply Z.bits_inj'. intros n _. rewrite Z.ldiff_spec, Z.land_spec, Z.bits_0. by destruct (Z.testbit a n), (Z.testbit b n). }
  apply Z.sub_nocarry_ldiff in E. assert (0 <= Z.ldiff b (Z.land a b)) by (apply Z.ldiff_nonneg; lia). lia.
Qed.

Lemma int32_small n : 0 <= n < 2 ^ 31 -> Trezor.int32 n = n.
Proof. intros L. unfold Trezor.int32. rewrite Z.mod_small by lia. destruct (Z.ltb_spec n (2 ^ 31)); lia. Qed.

Lemma js_and_small a b : 0 <= a < 2 ^ 31 -> 0 <= b < 2 ^ 31 -> Trezor.js_and a b = Z.land a b.
Proof.
  intros La Lb. unfold Trezor.js_and. rewrite (int32_small a), (int32_small b) by done. apply int32_small. split; [apply Z.land_nonneg; lia|].
  pose proof (land_le a b (proj1 Lb)). lia.
Qed.

Lemma recalculated_bit c rv cv (b : bool) : cv = c * 2 + 35 -> 0 <= cv < 2 ^ 30 ->
  rv = cv + Z.b2z b \/ (cv mod 256 <> 255 /\ rv = (cv + Z.b2z b) mod 256) -> Trezor.recalculated_v c (Some rv) = cv + Z.b2z b.
Proof.
  intros Ec L H. unfold Trezor.recalculated_v. rewrite <- Ec. pose proof (Z.mod_pos_bound cv 256 ltac:(lia)) as Lm.
  destruct b; cbn [Z.b2z] in *.
  - assert (rv = cv + 1 \/ rv = cv mod 256 + 1) as H1.
    { destruct H as [->|[N ->]]; [by left|right]. rewrite <- Z.add_mod_idemp_l, Z.mod_small by lia. done. }
    assert (0 <= rv < 2 ^ 31) as Lr by lia. rewrite js_and_small by lia.
    assert (Z.land rv cv < rv) as Lt.
    { destruct H1 as [->| ->]; [pose proof (land_le (cv + 1) cv); lia|]. set (l := cv mod 256) in *.
      destruct H as [H|[N _]]; [|].
      - pose proof (land_le (l + 1) cv). destruct (decide (cv < 256)) as [S|S]; [unfold l in *; rewrite Z.mod_small in * by lia; lia|lia].
      - assert (Z.land (l + 1) (Z.ones 8) = l + 1) as E1 by (rewrite Z.land_ones by lia; apply Z.mod_small; change (2 ^ 8) with 256; lia).
        rewrite <- E1 at 1. rewrite <- Z.land_assoc, (Z.land_comm (Z.ones 8)), Z.land_ones by lia. change (cv mod 2 ^ 8) with l.
        pose proof (land_le (l + 1) l (proj1 Lm)). lia. }
    destruct (Z.eqb_spec rv cv) as [->|Nr]; [|destruct (Z.eqb_spec (Z.land rv cv) rv); [lia|done]]. rewrite Z.land_diag in Lt. lia.
  - rewrite Z.add_0_r in *. destruct (Z.eqb_spec rv cv) as [|Nr]; [done|]. destruct H as [H|[_ ->]]; [done|].
    rewrite js_and_small by lia. change 256 with (2 ^ 8). rewrite <- Z.land_ones by lia. rewrite <- Z.land_assoc, (Z.land_comm (Z.ones 8)), Z.land_assoc, Z.land_diag.
    by rewrite Z.eqb_refl.
Qed.

(** C36: The [v] of a transaction that a Trezor signed is the one the device computed,
    whether it answers all of it or its last byte only, and it belongs to the chain; of
    the last byte this holds unless that of [2 * chainId + 35] is 255, as for chain 110.
    *)
Theorem trezor_v chainId rv (b : bool) : 0 < chainId < 2 ^ 28 ->
  rv = chainId * 2 + 35 + Z.b2z b \/ ((chainId * 2 + 35) mod 256 <> 255 /\ rv = (chainId * 2 + 35 + Z.b2z b) mod 256) ->
  Trezor.checked_v chainId (Some rv) = Ok (chainId * 2 + 35 + Z.b2z b).
Proof.
  intros L H. unfold Trezor.checked_v. rewrite (recalculated_bit chainId rv (chainId * 2 + 35) b eq_refl) by (done || lia).
  unfold Trezor.signed_chain. replace ((chainId * 2 + 35 + Z.b2z b - 35) / 2) with chainId; [|apply Z.div_unique with (r := Z.b2z b); destruct b; cbn [Z.b2z]; lia].
  rewrite Z.max_r, Z.eqb_refl by lia. done.
Qed.

Lemma trezor_v_witness : Trezor.checked_v 30 (Some 96) = Ok 96 /\ Trezor.checked_v 110 (Some 0) = Ok 255.
Proof. split; [apply (trezor_v 30 96 true); [lia|left; reflexivity]|vm_compute; reflexivity]. Defined.
